(* ===== verification/_CoqProject ===== *)
-Q . S2P
Prelude.v
Numeral.v
Spinlock.v
SpinRace.v
Mem.v
Kstring.v
Kalloc.v
Vm.v
PageTable.v
VmFacts.v
Uvm.v
UvmAlloc.v
UvmCopy.v
CopyUser.v
Proc.v
ProcLife.v
Kvm.v
ProcFacts.v
ProcOps.v
SigQueue.v
Exit.v
Signals.v
Sched.v
SleepRace.v
FsState.v
Sleeplock.v
Bio.v
Log.v
FsFacts.v
Sample.v
CritSec.v
BioFacts.v
BioOps.v
LogFacts.v
LogCommit.v
LogOps.v
Virtio.v
VirtioFacts.v
Storage.v
Fs.v
Pipe.v
File.v
Console.v
Exec.v
Syscall.v
SysFile.v
Trap.v
SysFacts.v
Clock.v
TrapFacts.v
Boot.v
Asm.v
AsmFacts.v
Machine.v
PipeFacts.v
ConsoleFacts.v
ConsoleOut.v
Terminal.v
FsRead.v
Itable.v
FsDir.v
FsPath.v
FsAlloc.v
FileSystem.v
LogRun.v
Ulib.v
Grep.v
Tools.v
Sh.v
ShFacts.v
ShTotal.v
ShRun.v
ShMain.v
Umalloc.v
UmallocFacts.v
Mkfs.v
MkfsFacts.v
MkfsOps.v
MkfsImage.v
MkfsKernel.v
