(* ===== verification/Prelude.v ===== *)
(** * The xv6 kernel with signals: a verification development

    The program is the xv6 kernel for RISC-V extended with signals and alarms
    (src/kernel), its user library, shell and programs (src/user) and the image
    builder (src/mkfs).  This library translates the code into Gallina, function
    by function and under the same names, and proves what the functions do.

    ** How the code is represented

    - A C function is a computation of [M S A] (this file): a function from the
      state to an outcome, which is a result with a new state, a kernel panic,
      a fault (an access outside memory or an array), an endless spin on a lock,
      a switch nobody comes back from, or exhausted fuel.  [wp m s Q] says that
      [m] started in [s] returns, with a result and state satisfying [Q]: every
      specification is one of total correctness, and excludes panics and faults.
    - Integers are [Z], reduced to their width where the code can wrap ([u64],
      [i32], ...).  Memory is a finite map of bytes; structures that the kernel
      overlays on pages (the free list, page tables, the trapframe) are read and
      written there, structures in static storage are records.
    - The state grows with the layers: [mach] (Spinlock.v) is one hart's view of
      the cpus and locks, [kst] (Mem.v) adds memory and the page allocator,
      [kstate] (Proc.v) the process table and the clock, [fsstate] (FsState.v)
      the disk, the caches, the files and the devices, [world] the future of the
      rest of the system.
    - [swtch] gives up the cpu: it takes one action off the list [w_env], any
      function on the kernel state, which stands for everything the other
      contexts do until they switch back.  Theorems hold for every such action,
      or for every one that satisfies the stated protocol.
    - What the code does not decide is a class.  [KernelImage] and [TrapImage]
      are addresses that the linker fixes.  [BlkDevice] with [BlkLaws] is the
      disk as documented, [Devices] what device registers return, [Others] what
      other processes leave in the control registers, [Layout] where the heap of
      a user program starts.
    - Layers meet in classes as well.  [DiskOps] with [DiskLaws] is what the
      buffer cache relies on; VirtioFacts.v shows that the driver keeps it.
      [FileOps] with [FileLaws] is what processes rely on; Syscall.v fills in the
      operations with those of the file system.  [DevSwitch] is the table of
      devices, which Console.v fills in.
    - A user program is a computation over what the system calls show it
      (Ulib.v): files, descriptors, and reads that return any number of bytes.

    ** The files

    - Prelude.v: integers, the monad, [wp] and its automation ([wp_simpl], the
      rewrite base [wpdb]), record update, lists and bits.  Numeral.v: numerals.
    - Spinlock.v: spinlock.c, the interrupt state of riscv.h, [mycpu] and
      [myproc].  [acq] and [rel] are the functions that [acquire] and [release]
      compute; machines are compared up to the dead [intena] field.
      SpinRace.v: the same lock as a step relation over single memory accesses of
      any number of harts.
    - Mem.v: memory, the layout constants and the page-table macros of riscv.h
      and memlayout.h.  Kstring.v: string.c.  Kalloc.v: kalloc.c.
    - Vm.v: vm.c.  PageTable.v, VmFacts.v, Uvm.v, UvmAlloc.v, UvmCopy.v and
      CopyUser.v are its theory: [pt_rep] says which tables and leaves a root
      holds, [us_inv] which user pages an address space owns and that they, the
      tables and the free list do not overlap.  Kvm.v: the kernel page table.
    - Proc.v and ProcLife.v: proc.c, proc.h and signal.h.  ProcFacts.v and
      ProcOps.v hold the rules for the process table, SigQueue.v sending and
      alarms, Exit.v exiting, Signals.v delivery, Sched.v the switches and the
      scheduler's round.  SleepRace.v: [sleep] and [wakeup] as the sequence of
      their steps, which any number of processes interleave.
    - FsState.v: the state below the file system.  Sleeplock.v: sleeplock.c.
      Bio.v: bio.c.  Log.v: log.c.  Virtio.v: virtio_disk.c.  FsFacts.v, Sample.v,
      CritSec.v, BioFacts.v, BioOps.v, LogFacts.v, LogCommit.v, LogOps.v and
      VirtioFacts.v are their theory, Storage.v the theorems on the whole stack.
      LogRun.v: three operations that run at once.
    - Fs.v: fs.c.  FsRead.v, Itable.v, FsDir.v, FsPath.v and FsAlloc.v are its
      theory, FileSystem.v the theorems.  Pipe.v and PipeFacts.v: pipe.c.
      File.v: file.c.  Exec.v: exec.c.
    - Console.v: uart.c, console.c and printf.c; ConsoleFacts.v, ConsoleOut.v and
      Terminal.v are about it.
    - Syscall.v and SysFile.v: syscall.c, sysproc.c and sysfile.c, with SysFacts.v
      and Clock.v.  Trap.v: trap.c and plic.c, with TrapFacts.v.  Boot.v: main.c
      and the initialisation of the devices.
    - Asm.v: the assembly files and start.c, as instructions for an interpreter;
      AsmFacts.v and Machine.v are about them.
    - Ulib.v: ulib.c and printf.c of src/user.  Grep.v: grep.c.  Tools.v: wc, cat,
      echo, kill, ln, mkdir and rm.  Umalloc.v and UmallocFacts.v: umalloc.c.
    - Sh.v: the parser of sh.c, ShFacts.v and ShTotal.v its theory; ShRun.v: the
      processes of a command; ShMain.v: the main loop.
    - Mkfs.v: mkfs.c.  MkfsFacts.v, MkfsOps.v and MkfsImage.v show what is on the
      image, MkfsKernel.v that the kernel finds the files there.

    ** What is shown

    - Locks: mutual exclusion, freedom from the panics and a way to the lock
      from every reachable state, for every interleaving; no wakeup of a sleep
      lock is lost, in whatever order the processes' steps come.
    - Memory: the free list is a list of distinct pages and every page is free,
      a table or owned; [uvmalloc] and [uvmcopy] succeed completely or fail with
      their effects undone, and fail only when pages are short; [copyin],
      [copyout] and [copyinstr] are byte-by-byte accesses of user memory; the
      kernel page table maps what it should and nothing writable and executable.
    - Processes: [wakeup], [kill], [sleep], [yield] and [exit] as updates of the
      table; at a switch exactly the process's own lock is held.
    - Signals: the ring buffer is a queue; sending, ignoring and dying of a
      signal; the alarm.  Some theorems state defects: a full queue leaves a
      lock taken, and the alarm fires before its deadline and never after it.
    - Storage: the driver moves one block, with a device that serves only what it
      is notified of and interrupts only when acknowledged; the cache refines a
      block store; a commit is atomic under a crash after any prefix of its
      writes, and a transaction leaves its block at home and the log empty, on the
      disk too.  A defect: the reservations of three operations exceed the log.
    - Files: [readi], [balloc], [namei] and [dirlookup] against a store of blocks;
      pipes are queues, which lose nothing while a writer waits for room or a
      reader for bytes.  On an image of mkfs, [namei] finds each file by its name
      and its inode has the content given to mkfs.
    - Traps: the trampoline saves every register and gives every one back, every
      hart boots with its timer running, a system call returns its result to the
      user through the trampoline, a timer interrupt of kernel code counts the tick, lets
      others run and resumes at the interrupted program counter with the status
      it had, sleeping lasts as long as asked; the terminal is a line editor that
      echoes, and wakes its readers exactly when a line is complete.
    - User level: the shell's parser accepts its grammar, ends on every line, and
      a session runs what each typed sentence means; no program of a pipeline holds
      an end of the pipe that is not its own, and the shell none; grep's matcher decides the language
      of the expression; [malloc] and [free] keep the free list well formed and
      the blocks in use apart, and [free] adds exactly the block to the free
      memory.

    ** Bounds and fuel

    Loops run on fuel computed from their data, and the specifications show that
    it suffices, since running out is not a result.  Loops over memory get one
    unit per page or per byte, loops over files one per byte, directory entry or
    block, [freewalk] one per level, [namex] one per character of the path.  A
    loop that sleeps ([wait], [begin_op], [acquiresleep], [sys_sleep], pipes) gets
    one round per action of the environment, because each further round sleeps.
    [handle_signals] gets [MAX_SIGNALS] rounds per action, because between two
    actions no signal is added and each round takes one.  [scheduler], which never
    ends, takes the number of its rounds as argument.  The shell's parser gets
    four calls per byte of the line and its main loop one pass per byte of input;
    [malloc] twice the units of the heap, for it passes the list at most once
    before and once after [morecore]; [iappend] one round per byte.

    ** What is modelled without a theorem

    [fork], [wait], [exec], [growproc], [writei], [itrunc], [dirlink], the file
    table, most system calls on files, the initialisation in Boot.v, and the
    programs echo, kill, ln, mkdir and rm are translated and are used by other
    definitions, but no theorem specifies them as a whole.

    ** What is not modelled

    - usertests, grind, stressfs, forktest, signaltest and testcode: tests.
    - ls, because the user level has no [stat]; init, zombie and initcode.S, which
      only make system calls; usys.pl, which generates the stubs of the calls.
    - ramdisk.c, which is not built and does not match struct buf; defs.h,
      kernel.ld and user.ld, which only declare and place.
    - In the shell, the nodes of the tree are values: their [malloc] is not run,
      and the text left over after a syntax error is not printed.  In mkfs, the
      usage and progress messages and failures of the host's system calls.
    - Debug output, which is compiled out.
    - Other harts act only at the points where a hart switches or waits for a
      lock; the race on the lock word itself is in SpinRace.v, that between
      [sleep] and [wakeup] in SleepRace.v. *)

From Stdlib Require Import ZArith Lia.
From stdpp Require Import base gmap strings numbers list.

Declare Scope xv6_scope.
Delimit Scope xv6_scope with xv6.
Global Open Scope Z_scope.

(** ** Machine integers

    Every C integer is a [Z]; the width is made explicit where a value is
    stored or an operation may wrap.  [u8 .. u64] reduce modulo the width
    (conversion to an unsigned type), [i16] and [i32] are the two's
    complement conversions to [short] and [int]. *)

Definition u8 (z : Z) : Z := z mod 256.
Definition u16 (z : Z) : Z := z mod 65536.
Definition u32 (z : Z) : Z := z mod 4294967296.
Definition u64 (z : Z) : Z := z mod 18446744073709551616.
Definition i16 (z : Z) : Z := (z + 32768) mod 65536 - 32768.
Definition i32 (z : Z) : Z := (z + 2147483648) mod 4294967296 - 2147483648.

(** A C condition on an integer: nonzero is true. *)
Definition truthy (z : Z) : bool := negb (z =? 0).

(** Arithmetic with division and modulo by constants. *)
Ltac zlia := unfold u8, u16, u32, u64, i16, i32 in *; Z.to_euclidean_division_equations; lia.

Lemma truthy_true c : truthy c = true ↔ c ≠ 0.
Proof. unfold truthy. rewrite negb_true_iff. apply Z.eqb_neq. Qed.

Lemma truthy_false c : truthy c = false ↔ c = 0.
Proof. unfold truthy. rewrite negb_false_iff. apply Z.eqb_eq. Qed.

(** The string a C array holds: its bytes before the first nul. *)
Fixpoint cstr (t : list Z) : list Z :=
  match t with [] => [] | c :: t => if truthy c then c :: cstr t else [] end.

Lemma i32_small z : - 2 ^ 31 ≤ z < 2 ^ 31 → i32 z = z.
Proof. intros H. unfold i32. rewrite Z.mod_small; lia. Qed.

Lemma u32_small z : 0 ≤ z < 2 ^ 32 → u32 z = z.
Proof. intros H. unfold u32. apply Z.mod_small. lia. Qed.

(** ** The kernel's execution monad

    A kernel operation maps a state to an outcome: it returns, it calls
    [panic] (which never returns), it touches physical memory outside RAM,
    it spins forever on a spinlock another hart holds, it goes to sleep with
    nobody left to wake it, or the model ran out of loop fuel. *)

Inductive outcome (S A : Type) : Type :=
| Ret (a : A) (s : S)
| Panic (msg : string)
| Fault (addr : Z)
| Spin
| Blocked
| OutOfFuel.
Arguments Ret {S A} _ _.
Arguments Panic {S A} _.
Arguments Fault {S A} _.
Arguments Spin {S A}.
Arguments Blocked {S A}.
Arguments OutOfFuel {S A}.

Definition M (S A : Type) : Type := S → outcome S A.

Section monad.
Context {S : Type}.

Definition ret {A} (a : A) : M S A := fun s => Ret a s.

Definition bind {A B} (m : M S A) (k : A → M S B) : M S B := fun s =>
  match m s with
  | Ret a s' => k a s'
  | Panic msg => Panic msg
  | Fault a => Fault a
  | Spin => Spin
  | Blocked => Blocked
  | OutOfFuel => OutOfFuel
  end.

Definition panic {A} (msg : string) : M S A := fun _ => Panic msg.
Definition fault {A} (a : Z) : M S A := fun _ => Fault a.
Definition spin {A} : M S A := fun _ => Spin.
Definition blocked {A} : M S A := fun _ => Blocked.
Definition out_of_fuel {A} : M S A := fun _ => OutOfFuel.
Definition get : M S S := fun s => Ret s s.
Definition gets {A} (f : S → A) : M S A := fun s => Ret (f s) s.
Definition modify (f : S → S) : M S unit := fun s => Ret tt (f s).
Definition when (b : bool) (m : M S unit) : M S unit := if b then m else ret tt.
End monad.

Notation "x ← y ; z" := (bind y (fun x : _ => z))
  (at level 20, y at level 100, z at level 200, only parsing) : xv6_scope.
Notation "' x ← y ; z" := (bind y (fun x : _ => z))
  (at level 20, x pattern, y at level 100, z at level 200, only parsing) : xv6_scope.
Notation "y ;; z" := (bind y (fun _ => z))
  (at level 100, z at level 200, right associativity, only parsing) : xv6_scope.

Local Open Scope xv6_scope.

(** Run [body] for each element in turn. *)
Fixpoint for_each {S A} (l : list A) (body : A → M S unit) : M S unit :=
  match l with
  | [] => ret tt
  | x :: l => body x;; for_each l body
  end.

(** ... until it returns a result. *)
Fixpoint for_until {S A B} (l : list A) (body : A → M S (option B)) : M S (option B) :=
  match l with
  | [] => ret None
  | x :: l => r ← body x; match r with Some b => ret (Some b) | None => for_until l body end
  end.

(** An operation on a component runs inside a larger state. *)
Definition zoom {S T A} (view : S → T) (upd : T → S → S) (m : M T A) : M S A := fun s =>
  match m (view s) with
  | Ret a t => Ret a (upd t s)
  | Panic msg => Panic msg
  | Fault a => Fault a
  | Spin => Spin
  | Blocked => Blocked
  | OutOfFuel => OutOfFuel
  end.

(** ** Weakest preconditions

    [wp m s Q]: from [s] the operation returns (it neither panics, faults,
    deadlocks nor runs out of fuel) and value and final state satisfy [Q]. *)

Definition wp {S A} (m : M S A) (s : S) (Q : A → S → Prop) : Prop :=
  match m s with Ret a s' => Q a s' | _ => False end.

Section wp.
Context {S : Type}.
Implicit Types s : S.

Lemma wp_ret {A} (a : A) s Q : wp (ret a) s Q = Q a s.
Proof. reflexivity. Qed.

Lemma wp_bind {A B} (m : M S A) (k : A → M S B) s Q :
  wp (bind m k) s Q = wp m s (fun a s' => wp (k a) s' Q).
Proof. unfold wp, bind. by destruct (m s). Qed.

Lemma wp_get s Q : wp get s Q = Q s s.
Proof. reflexivity. Qed.

Lemma wp_gets {A} (f : S → A) s Q : wp (gets f) s Q = Q (f s) s.
Proof. reflexivity. Qed.

Lemma wp_modify f s Q : wp (modify f) s Q = Q tt (f s).
Proof. reflexivity. Qed.

Lemma when_true (m : M S unit) : when true m = m.
Proof. reflexivity. Qed.

Lemma when_false (m : M S unit) : when false m = ret tt.
Proof. reflexivity. Qed.

Lemma wp_mono {A} (m : M S A) s (P Q : A → S → Prop) :
  wp m s P → (∀ a s', P a s' → Q a s') → wp m s Q.
Proof. unfold wp. destruct (m s); naive_solver. Qed.

Lemma wp_conj {A} (m : M S A) s (P Q : A → S → Prop) :
  wp m s P → wp m s Q → wp m s (fun a s' => P a s' ∧ Q a s').
Proof. unfold wp. destruct (m s); naive_solver. Qed.

Lemma wp_inv {A} (m : M S A) s Q :
  wp m s Q → ∃ a s', m s = Ret a s' ∧ Q a s'.
Proof. unfold wp. destruct (m s); naive_solver. Qed.

Lemma wp_intro {A} (m : M S A) s a s' (Q : A → S → Prop) :
  m s = Ret a s' → Q a s' → wp m s Q.
Proof. unfold wp. by intros ->. Qed.

Lemma wp_outcome {A} (m m' : M S A) s s' Q : m s = m' s' → wp m' s' Q → wp m s Q.
Proof. unfold wp. by intros ->. Qed.

Lemma wp_eq {A} (m : M S A) s a s' :
  wp m s (fun b t => b = a ∧ t = s') → m s = Ret a s'.
Proof. intros (b & t & -> & -> & ->)%wp_inv. done. Qed.
End wp.

Lemma wp_zoom {S T A} (view : S → T) upd (m : M T A) s Q :
  wp (zoom view upd m) s Q = wp m (view s) (fun a t => Q a (upd t s)).
Proof. unfold wp, zoom. by destruct (m (view s)). Qed.

Lemma bind_ret {S A B} (m : M S A) (k : A → M S B) s a s' :
  m s = Ret a s' → bind m k s = k a s'.
Proof. unfold bind. by intros ->. Qed.

Lemma bind_panic {S A B} (m : M S A) (k : A → M S B) s msg :
  m s = Panic msg → bind m k s = Panic msg.
Proof. unfold bind. by intros ->. Qed.

(** [wp_simpl] runs the structural rules; [wp_use H] consumes a call whose
    specification is [H]. *)
Create Rewrite HintDb wpdb.
(** A computation that waits for ever. *)
Lemma blocked_bind {S A B} (m : M S A) (k : A → M S B) (s : S) :
  wp m s (fun a s' => k a s' = Blocked) → bind m k s = Blocked.
Proof. unfold wp, bind. by destruct (m s). Qed.

#[export] Hint Rewrite @wp_ret @wp_bind @wp_get @wp_gets @wp_modify @wp_zoom @when_true @when_false : wpdb.
Ltac wp_simpl := autorewrite with wpdb; cbn beta.
Ltac wp_use H := eapply wp_mono; [eapply H | cbn beta].

(** ** Record update

    [r <| f := v |>] is the record [r] with its field [f] set, [r <| f ::= g |>]
    the one with [g] applied to the field.  A record type takes part through an
    instance of [Eta] that rebuilds a value from its fields; the updater of a
    field is found from it. *)

Class Eta (R : Type) := eta : R → R.
Class Setter {R E : Type} (getter : R → E) := setf : (E → E) → R → R.
Arguments setf {R E} getter {Setter} _ _.

Ltac find_setter :=
  lazymatch goal with
  | |- @Setter ?R ?E ?g =>
    let i := constr:(_ : Eta R) in
    let h := eval red in i in
    let f := fresh "f" in let r := fresh "r" in red; intros f r;
    let b := eval cbv beta in (h r) in
    lazymatch b with
    | context C [g r] => let b' := context C [f (g r)] in exact b'
    end
  end.
#[global] Hint Extern 1 (Setter _) => find_setter : typeclass_instances.

Notation "r <| f := v |>" := (setf f (fun _ => v) r)
  (at level 1, left associativity, f at level 1, v at level 99) : xv6_scope.
Notation "r <| f ::= g |>" := (setf f g r)
  (at level 1, left associativity, f at level 1, g at level 99) : xv6_scope.

(** ** Lists as C arrays *)

Section lists.
Context {A : Type}.
Implicit Types l : list A.

Lemma list_insert_same l i x : l !! i = Some x → <[i := x]> l = l.
Proof. apply list_insert_id. Qed.

Lemma alter_as_insert l i f x : l !! i = Some x → alter f i l = <[i := f x]> l.
Proof.
  revert i. induction l as [|y l IH]; intros [|i] H; simplify_eq/=; [done|].
  f_equal. by apply IH.
Qed.

Lemma lookup_insert_cases l i j x y :
  <[i := x]> l !! j = Some y → (i = j ∧ y = x) ∨ (i ≠ j ∧ l !! j = Some y).
Proof.
  intros H. destruct (decide (i = j)) as [<-|Hne].
  - left. split; [done|]. assert (i < length l)%nat.
    { apply lookup_lt_Some in H. by rewrite length_insert in H. }
    rewrite list_lookup_insert_eq in H by done. congruence.
  - right. by rewrite list_lookup_insert_ne in H.
Qed.
End lists.

(** ** Ring buffers

    From position [r] on, a position counted modulo its size, the array [data]
    holds [q]. *)

Definition ring_has {A} (data : list A) (r : Z) (q : list A) : Prop :=
  (length q ≤ length data)%nat ∧
  ∀ j b, q !! j = Some b → data !! Z.to_nat ((r + Z.of_nat j) mod Z.of_nat (length data)) = Some b.

Section ring.
Context {A : Type}.
Implicit Types (data q : list A) (b : A).

Lemma ring_has_push data r q b : ring_has data r q → (length q < length data)%nat →
  ring_has (<[Z.to_nat ((r + Z.of_nat (length q)) mod Z.of_nat (length data)) := b]> data) r (q ++ [b]).
Proof.
  intros [Hl Hd] Hlt. split; rewrite length_insert; [rewrite length_app; cbn; lia|].
  assert (∀ x, 0 ≤ x mod Z.of_nat (length data) < Z.of_nat (length data)) as Hm by (intros; apply Z.mod_pos_bound; lia).
  intros j c Hj. apply lookup_app_Some in Hj as [Hj|[Hge Hj]].
  - pose proof (lookup_lt_Some _ _ _ Hj). rewrite list_lookup_insert_ne; [by apply Hd|].
    intros Hx%Z2Nat.inj; [|apply Hm..]. pose proof (Z.div_mod (r + Z.of_nat j) (Z.of_nat (length data)) ltac:(lia)) as E1.
    pose proof (Z.div_mod (r + Z.of_nat (length q)) (Z.of_nat (length data)) ltac:(lia)) as E2. rewrite Hx in E2.
    set (d1 := (r + Z.of_nat j) / _) in E1. set (d2 := (r + Z.of_nat (length q)) / _) in E2.
    assert (Z.of_nat (length q) - Z.of_nat j = Z.of_nat (length data) * (d2 - d1)) as E by lia.
    destruct (Z.le_gt_cases (d2 - d1) 0); nia.
  - destruct (j - length q)%nat as [|k] eqn:Ek; [|done]. injection Hj as <-. replace j with (length q) by lia.
    apply list_lookup_insert_eq. specialize (Hm (r + Z.of_nat (length q))). lia.
Qed.

Lemma ring_has_pop data r b q : ring_has data r (b :: q) →
  data !! Z.to_nat (r mod Z.of_nat (length data)) = Some b ∧ ring_has data (r + 1) q.
Proof.
  intros [Hl Hd]. cbn [length] in Hl. split.
  { rewrite <- (Hd 0%nat b eq_refl). by rewrite Z.add_0_r. }
  split; [lia|]. intros j c Hj. rewrite <- (Hd (S j) c Hj). do 3 f_equal. lia.
Qed.

(** Removing the newest elements. *)
Lemma ring_has_app data r q q' : ring_has data r (q ++ q') → ring_has data r q.
Proof.
  intros [Hl Hd]. rewrite length_app in Hl. split; [lia|]. intros j b Hj. apply Hd. by apply lookup_app_l_Some.
Qed.

Lemma ring_has_wrap data r r' q :
  r mod Z.of_nat (length data) = r' mod Z.of_nat (length data) → ring_has data r q → ring_has data r' q.
Proof.
  intros E [Hl Hd]. split; [done|]. intros j b Hj. rewrite <- (Hd j b Hj).
  by rewrite <- Zplus_mod_idemp_l, <- E, Zplus_mod_idemp_l.
Qed.
End ring.

(** ** Bit operations used by the page-table and bitmap code *)

Lemma land_ones_mod a n : 0 ≤ n → Z.land a (2 ^ n - 1) = a mod 2 ^ n.
Proof. intros. rewrite <- Z.land_ones by done. by rewrite Z.ones_equiv, <- Z.sub_1_r. Qed.

Lemma land_neg_pow2 a n : 0 ≤ n → Z.land a (- 2 ^ n) = a - a mod 2 ^ n.
Proof.
  intros Hn. assert (- 2 ^ n = Z.lnot (Z.ones n)) as ->.
  { unfold Z.lnot. rewrite Z.ones_equiv. lia. }
  rewrite <- Z.ldiff_land, Z.ldiff_ones_r, Z.shiftr_div_pow2, Z.shiftl_mul_pow2 by done.
  pose proof (Z.div_mod a (2 ^ n)). nia.
Qed.

Lemma lor_disjoint_add a b n : 0 ≤ n → 0 ≤ b < 2 ^ n → a mod 2 ^ n = 0 → Z.lor a b = a + b.
Proof.
  intros Hn Hb Ha. assert (Z.land a b = 0) as Hz.
  { apply Z.bits_inj'. intros i Hi. rewrite Z.land_spec, Z.bits_0.
    destruct (decide (i < n)).
    - rewrite <- (Z.mod_pow2_bits_low a n i) by done. by rewrite Ha, Z.bits_0.
    - rewrite <- (Z.mod_small b (2 ^ n)) by done.
      rewrite (Z.mod_pow2_bits_high b n i) by lia. apply andb_false_r. }
  pose proof (Z.lor_ldiff_and a b). rewrite <- Z.lxor_lor, <- Z.add_nocarry_lxor by done. done.
Qed.
