(* ===== verification/Numeral.v ===== *)
(** * Numerals

    The conversion of an [int] to text that [kernel/printf.c] and
    [user/printf.c] share but for the table of digits, and the number that a
    text stands for. *)

From Stdlib Require Import ZArith Lia.
From stdpp Require Import base gmap strings numbers list.
From S2P Require Import Prelude.
Local Open Scope xv6_scope.

(** [do buf[i++] = digits[x % base]; while((x /= base) != 0);] *)
Fixpoint digits_of (digits : list Z) (fuel : nat) (x base : Z) : option (list Z) :=
  match fuel with
  | O => None
  | S fuel =>
    match digits !! Z.to_nat (x mod base) with
    | None => None
    | Some d => if x / base =? 0 then Some [d] else cons d <$> digits_of digits fuel (x / base) base
    end
  end.

(** [buf] when all digits, and the sign, are in it. *)
Definition int_buf (digits : list Z) (xx base : Z) (sign : bool) : option (list Z) :=
  let neg := sign && (xx <? 0) in
  let x := if neg then u32 (- xx) else u32 xx in
  match digits_of digits 32 x base with
  | None => None
  | Some ds => Some (ds ++ (if neg then [45] else []))
  end.

(** ** What a text stands for *)

Definition digit_val (c : Z) : Z := if c <? 58 then c - 48 else if c <? 97 then c - 55 else c - 87.
Definition numeral_val (base : Z) (txt : list Z) : Z := foldl (fun v c => base * v + digit_val c) 0 txt.

Lemma numeral_val_snoc base l d : numeral_val base (l ++ [d]) = base * numeral_val base l + digit_val d.
Proof. unfold numeral_val. by rewrite foldl_app. Qed.

Section numeral.
Context (digits : list Z).

(** [txt] is the numeral of [x]: at least one digit, all of them from the table,
    and no zero in front of another digit. *)
Record numeral (base x : Z) (txt : list Z) : Prop := {
  nu_digits : Forall (fun d => ∃ k, (k < Z.to_nat base)%nat ∧ digits !! k = Some d) txt;
  nu_value : numeral_val base txt = x;
  nu_some : txt ≠ [];
  nu_zero : (1 < length txt)%nat → head txt ≠ Some 48
}.

(** The same with a minus sign in front of the numeral of a negative number. *)
Definition int_numeral (base xx : Z) (txt : list Z) : Prop :=
  ∃ ds, numeral base (Z.abs xx) ds ∧ txt = (if xx <? 0 then [45] else []) ++ ds.

Hypothesis digit_ok : ∀ k, (k < 16)%nat → ∃ d, digits !! k = Some d ∧ digit_val d = Z.of_nat k ∧ 48 ≤ d < 103.

Lemma digit_back base d : 2 ≤ base ≤ 16 → (∃ k, (k < Z.to_nat base)%nat ∧ digits !! k = Some d) →
  0 ≤ digit_val d < base ∧ digits !! Z.to_nat (digit_val d) = Some d ∧ 48 ≤ d < 103.
Proof.
  intros Hb (k & Hk & Hd). destruct (digit_ok k) as (d' & Hd' & Hv & Hr); [lia|]. assert (d' = d) as -> by congruence.
  rewrite Hv. split; [lia|]. by rewrite Nat2Z.id.
Qed.

Lemma numeral_nonneg base ds : 2 ≤ base ≤ 16 → Forall (fun d => ∃ k, (k < Z.to_nat base)%nat ∧ digits !! k = Some d) ds → 0 ≤ numeral_val base ds.
Proof.
  intros Hb. induction ds as [|d ds IH] using rev_ind; intros H; [done|]. apply Forall_app in H as [H1 [H2 _]%Forall_cons].
  apply (digit_back base) in H2; [|done]. specialize (IH H1). rewrite numeral_val_snoc. nia.
Qed.

(** Only the empty text and zeros stand for 0. *)
Lemma numeral_zero base ds : 2 ≤ base ≤ 16 → Forall (fun d => ∃ k, (k < Z.to_nat base)%nat ∧ digits !! k = Some d) ds →
  numeral_val base ds = 0 → ds = [] ∨ head ds = Some 48.
Proof.
  intros Hb. induction ds as [|d ds IH] using rev_ind; intros H Hv; [by left|]. apply Forall_app in H as [H1 [H2 _]%Forall_cons].
  apply (digit_back base) in H2 as (Hd & Hd' & _); [|done]. pose proof (numeral_nonneg base ds Hb H1). rewrite numeral_val_snoc in Hv.
  assert (numeral_val base ds = 0) as Hz by nia. destruct (IH H1 Hz) as [-> | Hh]; right; [|by destruct ds].
  assert (digit_val d = 0) as E by nia. rewrite E in Hd'. destruct (digit_ok 0) as (z & Hz0 & Hzv & Hzr); [lia|].
  change (Z.to_nat 0) with 0%nat in Hd'. cbn. f_equal. assert (z = d) as -> by congruence. revert E Hzr. unfold digit_val.
  destruct (Z.ltb_spec d 58), (Z.ltb_spec d 97); lia.
Qed.

(** A number has one numeral. *)
Lemma numeral_unique base x txt txt' : 2 ≤ base ≤ 16 → numeral base x txt → numeral base x txt' → txt = txt'.
Proof.
  intros Hb. revert x txt'. induction txt as [|d l IH] using rev_ind; intros x txt' [D V S Z] [D' V' S' Z']; [done|].
  destruct txt' as [|d' l' _] using rev_ind; [done|]. rewrite !numeral_val_snoc in *.
  apply Forall_app in D as [D [Dd _]%Forall_cons], D' as [D' [Dd' _]%Forall_cons].
  apply (digit_back base) in Dd as (R & L & _), Dd' as (R' & L' & _); [|done|done].
  assert (numeral_val base l = numeral_val base l' ∧ digit_val d = digit_val d') as [Ev Ed] by (apply (Z.div_mod_unique base); [by left|by left|congruence]).
  assert (d = d') as -> by congruence. f_equal. rewrite !length_app in *. cbn [length] in *.
  assert (∀ k, (0 < length k)%nat → ((1 < length k + 1)%nat → head (k ++ [d']) ≠ Some 48) → head k ≠ Some 48) as Hhd.
  { intros k Hk H E. apply H; [lia|]. by destruct k. }
  destruct (decide (l = [])) as [->|Hl], (decide (l' = [])) as [->|Hl']; [done| | |].
  - destruct (numeral_zero base l' Hb D' (eq_sym Ev)) as [?|E]; [done|]. exfalso. apply (Hhd l'); [destruct l'; [done|cbn; lia]|done|done].
  - destruct (numeral_zero base l Hb D Ev) as [?|E]; [done|]. exfalso. apply (Hhd l); [destruct l; [done|cbn; lia]|done|done].
  - apply (IH (numeral_val base l)); split; try done; intros _; apply Hhd; try done; [destruct l|destruct l']; (done || (cbn; lia)).
Qed.

Lemma digits_of_spec base : 2 ≤ base ≤ 16 → ∀ n fuel x, (n ≤ fuel)%nat → (0 < n)%nat → 0 ≤ x < base ^ Z.of_nat n →
  ∃ ds, digits_of digits fuel x base = Some ds ∧ (length ds ≤ n)%nat ∧ numeral base x (rev ds).
Proof.
  intros Hb. induction n as [|n IH]; intros fuel x Hf Hn Hx; [lia|]. destruct fuel as [|fuel]; [lia|]. cbn [digits_of].
  assert (0 ≤ x mod base < base) by (apply Z.mod_pos_bound; lia).
  destruct (digit_ok (Z.to_nat (x mod base))) as (d & Hd0 & Hd & Hr); [lia|]. rewrite Z2Nat.id in Hd by lia. rewrite Hd0.
  assert (∃ k, (k < Z.to_nat base)%nat ∧ digits !! k = Some d) as Hin by (exists (Z.to_nat (x mod base)); split; [lia|done]).
  pose proof (Z.div_mod x base ltac:(lia)) as E. destruct (Z.eqb_spec (x / base) 0) as [Hz|Hz].
  - exists [d]. split; [done|]. split; [cbn; lia|]. split; cbn; [by apply Forall_singleton|lia|done|lia].
  - destruct (decide (n = 0%nat)) as [->|Hn0].
    { exfalso. apply Hz, Z.div_small. change (Z.of_nat 1) with 1 in Hx. lia. }
    rewrite Nat2Z.inj_succ, Z.pow_succ_r in Hx by lia.
    destruct (IH fuel (x / base)) as (ds & -> & Hl & [D V S Zr]); [lia|lia|split; [apply Z.div_pos; lia|apply Z.div_lt_upper_bound; lia]|].
    exists (d :: ds). split; [done|]. split; [cbn; lia|]. cbn [rev]. split; [apply Forall_app; split; [done|by apply Forall_singleton]| | |].
    + rewrite numeral_val_snoc, V. lia.
    + by destruct (rev ds).
    + intros _. destruct (rev ds) as [|c cs] eqn:Er; [done|]. destruct cs as [|c' cs]; [|apply Zr; cbn; lia].
      cbn. intros [= ->]. apply Hz. rewrite <- V. unfold numeral_val, digit_val. cbn. lia.
Qed.

Lemma numeral_chars base x txt : 2 ≤ base ≤ 16 → numeral base x txt → Forall (fun d => 48 ≤ d < 103) txt.
Proof. intros Hb [D _ _ _]. eapply Forall_impl; [exact D|]. cbn. intros d Hd. by apply (digit_back base). Qed.

Lemma int_buf_spec xx base : base = 10 ∨ base = 16 → - 2 ^ 31 ≤ xx < 2 ^ 31 →
  ∃ buf, int_buf digits xx base true = Some buf ∧ (length buf ≤ 11)%nat ∧ int_numeral base xx (rev buf) ∧
    Forall (fun c => 45 ≤ c < 103) buf.
Proof.
  intros Hb Hx. unfold int_buf. cbn [andb]. set (x := if xx <? 0 then u32 (- xx) else u32 xx).
  assert (x = Z.abs xx) as Ex by (unfold x; destruct (Z.ltb_spec xx 0); rewrite u32_small; lia).
  destruct (digits_of_spec base ltac:(lia) 10 32 x) as (ds & -> & Hl & Hv); [lia|lia|rewrite Ex; destruct Hb as [-> | ->]; lia|].
  eexists. split; [done|]. split; [rewrite length_app; destruct (xx <? 0); cbn; lia|]. split.
  - exists (rev ds). rewrite <- Ex. split; [done|]. rewrite rev_app_distr. by destruct (xx <? 0).
  - apply Forall_app. split; [|destruct (xx <? 0); repeat constructor; lia]. apply (numeral_chars base) in Hv; [|lia].
    rewrite <- (rev_involutive ds). apply Forall_rev in Hv. rewrite rev_alt in *. eapply Forall_impl; [exact Hv|cbn; lia].
Qed.

End numeral.
