(* ===== verification/Spinlock.v ===== *)
(** * Spinlocks and interrupt nesting (kernel/spinlock.c)

    The machine as one hart sees it ([mach]): its [tp] and [sstatus]
    registers, the array [cpus] and every spinlock of the kernel.  [acquire],
    [release], [push_off] and [pop_off] are the functions of spinlock.c.
    SpinRace.v has the same lock at the granularity of single loads, stores
    and the atomic swap, run by any number of harts. *)

From Stdlib Require Import ZArith Lia.
From stdpp Require Import base gmap strings numbers countable list.
From S2P Require Import Prelude.
Local Open Scope xv6_scope.

(** ** Data (proc.h, spinlock.h) *)

(** Saved registers for kernel context switches. *)
Record context := Context_ {
  ctx_ra : Z; ctx_sp : Z;
  ctx_s0 : Z; ctx_s1 : Z; ctx_s2 : Z; ctx_s3 : Z; ctx_s4 : Z; ctx_s5 : Z;
  ctx_s6 : Z; ctx_s7 : Z; ctx_s8 : Z; ctx_s9 : Z; ctx_s10 : Z; ctx_s11 : Z
}.

Definition context0 : context := Context_ 0 0 0 0 0 0 0 0 0 0 0 0 0 0.

(** Per-CPU state; [c_proc] is an index of the process table. *)
Record cpu := Cpu {
  c_proc : option nat;
  c_context : context;
  noff : Z;
  intena : bool
}.

(** [lk_cpu] is the index in [cpus] of the holder. *)
Record spinlock := Spinlock {
  locked : Z;
  lk_name : string;
  lk_cpu : option nat
}.

(** The spinlocks of the kernel, by the variable that holds them. *)
Inductive lockid :=
| L_kmem | L_pid | L_wait | L_ticks | L_bcache | L_log | L_itable | L_ftable
| L_cons | L_pr | L_uart_tx | L_vdisk
| L_proc (i : nat)        (* proc[i].lock *)
| L_buf (i : nat)         (* bcache.buf[i].lock.lk *)
| L_inode (i : nat)       (* itable.inode[i].lock.lk *)
| L_pipe (pa : Z).        (* ((struct pipe* )pa)->lock *)

#[global] Instance lockid_eq_dec : EqDecision lockid.
Proof. solve_decision. Defined.

Definition lockid_code (l : lockid) : Z * Z :=
  match l with
  | L_kmem => (0, 0) | L_pid => (1, 0) | L_wait => (2, 0) | L_ticks => (3, 0)
  | L_bcache => (4, 0) | L_log => (5, 0) | L_itable => (6, 0) | L_ftable => (7, 0)
  | L_cons => (8, 0) | L_pr => (9, 0) | L_uart_tx => (10, 0) | L_vdisk => (11, 0)
  | L_proc i => (12, Z.of_nat i) | L_buf i => (13, Z.of_nat i)
  | L_inode i => (14, Z.of_nat i) | L_pipe pa => (15, pa)
  end.

Definition lockid_decode (c : Z * Z) : option lockid :=
  match c with
  | (0, _) => Some L_kmem | (1, _) => Some L_pid | (2, _) => Some L_wait
  | (3, _) => Some L_ticks | (4, _) => Some L_bcache | (5, _) => Some L_log
  | (6, _) => Some L_itable | (7, _) => Some L_ftable | (8, _) => Some L_cons
  | (9, _) => Some L_pr | (10, _) => Some L_uart_tx | (11, _) => Some L_vdisk
  | (12, i) => Some (L_proc (Z.to_nat i)) | (13, i) => Some (L_buf (Z.to_nat i))
  | (14, i) => Some (L_inode (Z.to_nat i)) | (15, pa) => Some (L_pipe pa)
  | _ => None
  end.

#[global] Program Instance lockid_countable : Countable lockid :=
  inj_countable lockid_code lockid_decode _.
Next Obligation. intros []; simpl; by rewrite ?Nat2Z.id. Qed.

(** The machine seen from one hart. *)
Record mach := Mach {
  tp : Z;
  sstatus : Z;
  cpus : list cpu;
  locks : gmap lockid spinlock
}.

Definition set_sstatus (x : Z) (m : mach) : mach := Mach (tp m) x (cpus m) (locks m).
Definition set_cpu (i : nat) (c : cpu) (m : mach) : mach :=
  Mach (tp m) (sstatus m) (<[i := c]> (cpus m)) (locks m).
Definition set_lock (lk : lockid) (l : spinlock) (m : mach) : mach :=
  Mach (tp m) (sstatus m) (cpus m) (<[lk := l]> (locks m)).

(** A lock never initialised is zero (static storage). *)
Definition lock_of (lk : lockid) (m : mach) : spinlock :=
  default (Spinlock 0 "" None) (locks m !! lk).

(** ** Operations *)

Definition SSTATUS_SIE : Z := 2.

Definition intr_on : M mach unit :=
  modify (fun m => set_sstatus (Z.lor (sstatus m) SSTATUS_SIE) m).
Definition intr_off : M mach unit :=
  modify (fun m => set_sstatus (Z.land (sstatus m) (Z.lnot SSTATUS_SIE)) m).
Definition intr_get : M mach bool :=
  gets (fun m => truthy (Z.land (sstatus m) SSTATUS_SIE)).

Definition cpuid : M mach Z := gets (fun m => i32 (tp m)).

(** [&cpus[id]]: the index and the structure; an id outside the array is a
    wild pointer. *)
Definition mycpu : M mach (nat * cpu) :=
  id ← cpuid;
  m ← get;
  match cpus m !! Z.to_nat id with
  | Some c => if id <? 0 then fault id else ret (Z.to_nat id, c)
  | None => fault id
  end.

Definition initlock (lk : lockid) (name : string) : M mach unit :=
  modify (set_lock lk (Spinlock 0 name None)).

Definition holding (lk : lockid) : M mach bool :=
  l ← gets (lock_of lk);
  '(id, _) ← mycpu;
  ret (truthy (locked l) && bool_decide (lk_cpu l = Some id)).

Definition push_off : M mach unit :=
  old ← intr_get;
  intr_off;;
  '(id, c) ← mycpu;
  when (noff c =? 0) (modify (set_cpu id (Cpu (c_proc c) (c_context c) (noff c) old)));;
  '(id, c) ← mycpu;
  modify (set_cpu id (Cpu (c_proc c) (c_context c) (noff c + 1) (intena c))).

Definition pop_off : M mach unit :=
  '(id, c) ← mycpu;
  ie ← intr_get;
  when ie (panic "pop_off - interruptible");;
  when (noff c <? 1) (panic "pop_off");;
  modify (set_cpu id (Cpu (c_proc c) (c_context c) (noff c - 1) (intena c)));;
  when ((noff c - 1 =? 0) && intena c) intr_on.

(** [while(__sync_lock_test_and_set(&lk->locked, 1) != 0);]: the swap returns
    zero once; while another hart holds the lock it never does. *)
Definition acquire (lk : lockid) : M mach unit :=
  push_off;;
  h ← holding lk;
  when h (panic "acquire");;
  l ← gets (lock_of lk);
  (if truthy (locked l) then spin else
   modify (set_lock lk (Spinlock 1 (lk_name l) (lk_cpu l))));;
  l ← gets (lock_of lk);
  '(id, _) ← mycpu;
  modify (set_lock lk (Spinlock (locked l) (lk_name l) (Some id))).

Definition release (lk : lockid) : M mach unit :=
  h ← holding lk;
  when (negb h) (panic "release");;
  l ← gets (lock_of lk);
  modify (set_lock lk (Spinlock (locked l) (lk_name l) None));;
  l ← gets (lock_of lk);
  modify (set_lock lk (Spinlock 0 (lk_name l) (lk_cpu l)));;
  pop_off.

(** [myproc]: the process of this cpu. *)
Definition myproc : M mach (option nat) :=
  push_off;;
  '(_, c) ← mycpu;
  let p := c_proc c in
  pop_off;;
  ret p.

(** ** Specifications

    [hid m] is the index of this hart, [sie m] whether device interrupts are
    enabled. *)

Definition hid (m : mach) : nat := Z.to_nat (tp m).
Definition sie (m : mach) : bool := truthy (Z.land (sstatus m) SSTATUS_SIE).

(** The well-formed machine: [tp] names a cpu, the nesting depth is not
    negative, and inside a nest interrupts are off. *)
Definition mach_ok (m : mach) : Prop :=
  0 ≤ tp m < 2147483648 ∧
  ∃ c, cpus m !! hid m = Some c ∧ 0 ≤ noff c ∧ (0 < noff c → sie m = false).

Definition lock_free (lk : lockid) (m : mach) : Prop :=
  ∃ name, locks m !! lk = Some (Spinlock 0 name None).
Definition held (lk : lockid) (m : mach) : Prop :=
  ∃ name, locks m !! lk = Some (Spinlock 1 name (Some (hid m))).

(** What the operations compute. *)
Definition on_mycpu (f : cpu → cpu) (m : mach) : mach :=
  Mach (tp m) (sstatus m) (alter f (hid m) (cpus m)) (locks m).
Definition push (m : mach) : mach :=
  on_mycpu (fun c => Cpu (c_proc c) (c_context c) (noff c + 1)
                         (if noff c =? 0 then sie m else intena c))
    (set_sstatus (Z.land (sstatus m) (Z.lnot SSTATUS_SIE)) m).
Definition pop (m : mach) : mach :=
  let reenable := match cpus m !! hid m with
                  | Some c => (noff c - 1 =? 0) && intena c | None => false end in
  on_mycpu (fun c => Cpu (c_proc c) (c_context c) (noff c - 1) (intena c))
    (if reenable then set_sstatus (Z.lor (sstatus m) SSTATUS_SIE) m else m).
Definition acq (lk : lockid) (m : mach) : mach :=
  set_lock lk (Spinlock 1 (lk_name (lock_of lk m)) (Some (hid m))) (push m).
Definition rel (lk : lockid) (m : mach) : mach :=
  pop (set_lock lk (Spinlock 0 (lk_name (lock_of lk m)) None) m).

(** [intena] is dead outside a nest: [norm] forgets it, and two machines are
    equivalent when they differ only there. *)
Definition norm (m : mach) : mach :=
  on_mycpu (fun c => Cpu (c_proc c) (c_context c) (noff c)
                         (if noff c =? 0 then sie m else intena c)) m.

#[global] Instance mach_equiv : Equiv mach := fun m m' => norm m = norm m'.

#[global] Instance mach_equivalence : Equivalence (≡@{mach}).
Proof. unfold equiv, mach_equiv. split; red; congruence. Qed.

Lemma hid_on_mycpu f m : hid (on_mycpu f m) = hid m.
Proof. reflexivity. Qed.

Lemma sie_off m : sie (set_sstatus (Z.land (sstatus m) (Z.lnot SSTATUS_SIE)) m) = false.
Proof.
  unfold sie, set_sstatus, SSTATUS_SIE; simpl.
  rewrite <- Z.land_assoc. by rewrite (Z.land_comm (Z.lnot 2) 2), Z.land_lnot_diag, Z.land_0_r.
Qed.

Lemma sstatus_clear s : truthy (Z.land s 2) = false → Z.land s (Z.lnot 2) = s.
Proof.
  unfold truthy. rewrite negb_false_iff, Z.eqb_eq. intros H.
  apply Z.bits_inj'. intros n Hn. rewrite Z.land_spec, Z.lnot_spec by done.
  assert (Z.testbit (Z.land s 2) n = false) as Hb by (by rewrite H, Z.bits_0).
  rewrite Z.land_spec in Hb. destruct (Z.testbit s n), (Z.testbit 2 n); done.
Qed.

Lemma sstatus_reset s : truthy (Z.land s 2) = true → Z.lor (Z.land s (Z.lnot 2)) 2 = s.
Proof.
  unfold truthy. rewrite negb_true_iff, Z.eqb_neq. intros H.
  assert (Z.testbit s 1 = true) as Hs.
  { destruct (Z.testbit s 1) eqn:E; [done|]. exfalso. apply H.
    apply Z.bits_inj'. intros n Hn. rewrite Z.land_spec, Z.bits_0.
    destruct (decide (n = 1)) as [->|]; [by rewrite E|].
    change 2 with (2 ^ 1). rewrite Z.pow2_bits_false by lia. apply andb_false_r. }
  apply Z.bits_inj'. intros n Hn. rewrite Z.lor_spec, Z.land_spec, Z.lnot_spec by done.
  change 2 with (2 ^ 1). destruct (decide (n = 1)) as [->|].
  - by rewrite Z.pow2_bits_true, Hs by lia.
  - rewrite Z.pow2_bits_false by lia. simpl. by rewrite orb_false_r, andb_true_r.
Qed.

Lemma wp_mycpu m c Q :
  0 ≤ tp m < 2147483648 → cpus m !! hid m = Some c → Q (hid m, c) m → wp mycpu m Q.
Proof.
  intros Htp Hc HQ. unfold mycpu, cpuid. wp_simpl.
  assert (i32 (tp m) = tp m) as -> by zlia.
  unfold hid in Hc. rewrite Hc. destruct (Z.ltb_spec (tp m) 0); [lia|]. done.
Qed.

Lemma wp_push_off m Q : mach_ok m → Q tt (push m) → wp push_off m Q.
Proof.
  intros (Htp & c & Hc & Hn & Hoff) HQ. unfold push_off, intr_get, intr_off. wp_simpl.
  eapply wp_mycpu; [done|done|]. simpl. wp_simpl.
  assert (hid m < length (cpus m))%nat by by eapply lookup_lt_Some.
  unfold push, on_mycpu, set_sstatus in HQ. simpl in HQ. unfold hid in *. simpl in *.
  erewrite alter_as_insert in HQ by done.
  unfold when. case_match; wp_simpl.
  - eapply wp_mycpu; [done|simpl|]; [by rewrite list_lookup_insert_eq|].
    wp_simpl. unfold set_cpu; simpl. by rewrite list_insert_insert_eq.
  - eapply wp_mycpu; [done|done|]. wp_simpl. done.
Qed.

Lemma wp_pop_off m c Q :
  0 ≤ tp m < 2147483648 → cpus m !! hid m = Some c → 0 < noff c → sie m = false →
  Q tt (pop m) → wp pop_off m Q.
Proof.
  intros Htp Hc Hn Hs HQ. unfold pop_off. wp_simpl.
  eapply wp_mycpu; [done|done|]. wp_simpl. unfold intr_get. wp_simpl.
  unfold sie in Hs. rewrite Hs. simpl. wp_simpl.
  destruct (Z.ltb_spec (noff c) 1); [lia|]. simpl. wp_simpl.
  unfold pop in HQ. rewrite Hc in HQ.
  unfold when. destruct ((noff c - 1 =? 0) && intena c); wp_simpl;
    unfold on_mycpu in HQ; simpl in HQ; unfold hid in *; simpl in *;
    by erewrite alter_as_insert in HQ by done.
Qed.

Lemma cpus_push m c :
  cpus m !! hid m = Some c →
  cpus (push m) !! hid m = Some (Cpu (c_proc c) (c_context c) (noff c + 1)
                                     (if noff c =? 0 then sie m else intena c)).
Proof.
  intros Hc. unfold push, on_mycpu; simpl. unfold hid in *; simpl.
  erewrite alter_as_insert by done. rewrite list_lookup_insert_eq; [done|].
  by eapply lookup_lt_Some.
Qed.

Lemma sie_push m : sie (push m) = false.
Proof. exact (sie_off m). Qed.

Lemma mach_ok_push m : mach_ok m → mach_ok (push m).
Proof.
  intros (Htp & c & Hc & Hn & Hoff). split; [done|]. eexists. split; [exact (cpus_push m c Hc)|].
  simpl. split; [lia|]. intros _. apply sie_push.
Qed.

Lemma mach_ok_acq lk m : mach_ok m → mach_ok (acq lk m).
Proof. apply mach_ok_push. Qed.

Lemma held_acq lk m : held lk (acq lk m).
Proof. eexists. simpl. by rewrite lookup_insert_eq. Qed.

Lemma wp_holding lk m c Q :
  0 ≤ tp m < 2147483648 → cpus m !! hid m = Some c →
  Q (truthy (locked (lock_of lk m)) && bool_decide (lk_cpu (lock_of lk m) = Some (hid m))) m →
  wp (holding lk) m Q.
Proof.
  intros Htp Hc HQ. unfold holding. wp_simpl. eapply wp_mycpu; [done|done|]. by wp_simpl.
Qed.

Lemma wp_acquire lk m Q :
  mach_ok m → lock_free lk m → Q tt (acq lk m) → wp (acquire lk) m Q.
Proof.
  intros Hok [name Hl] HQ. unfold acquire. wp_simpl. apply wp_push_off; [done|].
  destruct Hok as (Htp & c & Hc & Hn & Hoff). wp_simpl.
  assert (lock_of lk m = Spinlock 0 name None) as Hlk by (unfold lock_of; by rewrite Hl).
  assert (lock_of lk (push m) = Spinlock 0 name None) as Hlk' by done.
  eapply wp_holding; [done| exact (cpus_push m c Hc) |]. rewrite Hlk'. simpl. wp_simpl.
  rewrite Hlk'. simpl. wp_simpl.
  eapply wp_mycpu; [done| exact (cpus_push m c Hc) |]. wp_simpl.
  unfold acq in HQ. rewrite Hlk in HQ. unfold set_lock in HQ |- *. simpl in *.
  unfold lock_of. simpl. rewrite lookup_insert_eq. simpl.
  by rewrite insert_insert_eq.
Qed.

Lemma wp_release lk m c Q :
  0 ≤ tp m < 2147483648 → cpus m !! hid m = Some c → 0 < noff c → sie m = false →
  held lk m → Q tt (rel lk m) → wp (release lk) m Q.
Proof.
  intros Htp Hc Hn Hs [name Hl] HQ. unfold release. wp_simpl.
  assert (lock_of lk m = Spinlock 1 name (Some (hid m))) as Hlk by (unfold lock_of; by rewrite Hl).
  eapply wp_holding; [done|done|]. rewrite Hlk. simpl. rewrite bool_decide_true by done.
  simpl. wp_simpl. rewrite Hlk. simpl.
  unfold rel in HQ. rewrite Hlk in HQ. simpl in HQ.
  eapply wp_pop_off; [done| exact Hc |done|done|].
  unfold lock_of. simpl. rewrite lookup_insert_eq. simpl. unfold set_lock at 1. simpl.
  rewrite insert_insert_eq. done.
Qed.

(** A balanced critical section leaves the machine as it was, up to the dead
    [intena]. *)
Lemma rel_acq lk m : mach_ok m → lock_free lk m → rel lk (acq lk m) = norm m.
Proof.
  intros (Htp & c & Hc & Hn & Hoff) [name Hl].
  unfold rel. assert (lock_of lk (acq lk m) = Spinlock 1 name (Some (hid m))) as ->.
  { unfold lock_of, acq. simpl. rewrite lookup_insert_eq. simpl.
    unfold lock_of. by rewrite Hl. }
  simpl. unfold pop.
  assert (cpus (set_lock lk (Spinlock 0 name None) (acq lk m)) !! hid m = _) as Hc'
    by exact (cpus_push m c Hc).
  change (hid (set_lock lk _ (acq lk m))) with (hid m). rewrite Hc'. simpl.
  replace (noff c + 1 - 1) with (noff c) by lia.
  unfold acq. unfold norm, on_mycpu, set_sstatus. simpl. unfold push, on_mycpu; simpl.
  unfold hid in *; simpl in *.
  assert (alter (λ c, Cpu (c_proc c) (c_context c) (noff c - 1) (intena c)) (Z.to_nat (tp m))
     (alter (λ c, Cpu (c_proc c) (c_context c) (noff c + 1)
              (if noff c =? 0 then sie m else intena c)) (Z.to_nat (tp m)) (cpus m))
   = alter (λ c, Cpu (c_proc c) (c_context c) (noff c)
              (if noff c =? 0 then sie m else intena c)) (Z.to_nat (tp m)) (cpus m)) as Halt.
  { rewrite list_alter_alter_eq. apply list_alter_ext; [|done].
    intros d _. unfold compose. simpl. f_equal. lia. }
  assert (<[lk := Spinlock 0 name None]> (<[lk := Spinlock 1 (lk_name (lock_of lk m))
            (Some (Z.to_nat (tp m)))]> (locks m)) = locks m) as Hlocks
    by by rewrite insert_insert_eq, insert_id.
  unfold sie in *. destruct (Z.eqb_spec (noff c) 0) as [He|He]; simpl.
  - destruct (truthy (Z.land (sstatus m) SSTATUS_SIE)) eqn:E; simpl; rewrite Halt, Hlocks.
    + f_equal. by apply sstatus_reset.
    + f_equal. by apply sstatus_clear.
  - rewrite Halt, Hlocks. f_equal. apply sstatus_clear. apply Hoff. lia.
Qed.

(** ** The equivalence is a congruence for everything the kernel observes *)

Lemma on_mycpu_comp f g m : on_mycpu f (on_mycpu g m) = on_mycpu (f ∘ g) m.
Proof. unfold on_mycpu, hid; simpl. by rewrite list_alter_alter_eq. Qed.

Lemma on_mycpu_ext f g m :
  (∀ c, cpus m !! hid m = Some c → f c = g c) → on_mycpu f m = on_mycpu g m.
Proof. intros H. unfold on_mycpu. f_equal. by apply list_alter_ext. Qed.

Lemma norm_idem m : norm (norm m) = norm m.
Proof.
  unfold norm at 1. change (sie (norm m)) with (sie m).
  unfold norm. rewrite on_mycpu_comp. apply on_mycpu_ext. intros c _. unfold compose; simpl.
  by destruct (noff c =? 0).
Qed.

Lemma norm_equiv m : norm m ≡ m.
Proof. apply norm_idem. Qed.

Lemma push_norm m : push (norm m) = push m.
Proof.
  unfold push, norm. change (sie (on_mycpu _ m)) with (sie m).
  unfold on_mycpu, set_sstatus, hid; simpl. f_equal. rewrite list_alter_alter_eq.
  apply list_alter_ext; [|done]. intros c _. unfold compose; simpl.
  by destruct (noff c =? 0).
Qed.

#[global] Instance hid_proper : Proper (equiv ==> eq) hid.
Proof.
  intros m m' H. pose proof (f_equal tp H) as Ht. unfold norm, on_mycpu in Ht; simpl in Ht.
  unfold hid. by rewrite Ht.
Qed.

#[global] Instance locks_proper : Proper (equiv ==> eq) locks.
Proof. intros m m' H. exact (f_equal locks H). Qed.

#[global] Instance push_proper : Proper (equiv ==> eq) push.
Proof. intros m m' H. rewrite <- (push_norm m), <- (push_norm m'). by f_equal. Qed.

#[global] Instance lock_of_proper lk : Proper (equiv ==> eq) (lock_of lk).
Proof. intros m m' H. unfold lock_of. by rewrite (locks_proper _ _ H). Qed.

#[global] Instance acq_proper lk : Proper (equiv ==> eq) (acq lk).
Proof.
  intros m m' H. unfold acq. by rewrite (push_proper _ _ H), (hid_proper _ _ H), (lock_of_proper lk _ _ H).
Qed.

#[global] Instance lock_free_proper lk : Proper (equiv ==> iff) (lock_free lk).
Proof. intros m m' H. unfold lock_free. by rewrite (locks_proper _ _ H). Qed.

#[global] Instance held_proper lk : Proper (equiv ==> iff) (held lk).
Proof. intros m m' H. unfold held. by rewrite (locks_proper _ _ H), (hid_proper _ _ H). Qed.

Lemma cpus_norm m c :
  cpus m !! hid m = Some c →
  cpus (norm m) !! hid m = Some (Cpu (c_proc c) (c_context c) (noff c)
                                     (if noff c =? 0 then sie m else intena c)).
Proof.
  intros Hc. unfold norm, on_mycpu; simpl. erewrite alter_as_insert by done.
  rewrite list_lookup_insert_eq; [done|]. by eapply lookup_lt_Some.
Qed.

Lemma mach_ok_norm m : mach_ok (norm m) ↔ mach_ok m.
Proof.
  assert (hid (norm m) = hid m) as Hh by done.
  unfold mach_ok. change (tp (norm m)) with (tp m). change (sie (norm m)) with (sie m).
  rewrite Hh. split; intros (Htp & c & Hc & Hn & Hoff); split; [done| |done|].
  - destruct (cpus m !! hid m) as [d|] eqn:Hd.
    + rewrite (cpus_norm m d Hd) in Hc. simplify_eq/=. eauto.
    + unfold norm, on_mycpu in Hc; simpl in Hc. by rewrite list_lookup_alter_eq, Hd in Hc.
  - eexists. split; [by apply cpus_norm|]. done.
Qed.

#[global] Instance mach_ok_proper : Proper (equiv ==> iff) mach_ok.
Proof. intros m m' H. rewrite <- (mach_ok_norm m), <- (mach_ok_norm m'). by rewrite H. Qed.

(** Inside a nest nothing is forgotten. *)
Definition nested (m : mach) : Prop := ∃ c, cpus m !! hid m = Some c ∧ 0 < noff c.

Lemma norm_nested m : nested m → norm m = m.
Proof.
  intros (c & Hc & Hn). unfold norm, on_mycpu. destruct m as [t s cs ls]; unfold hid in *; simpl in *.
  f_equal. erewrite alter_as_insert by done. apply list_insert_id.
  destruct (Z.eqb_spec (noff c) 0); [lia|]. rewrite Hc. by destruct c.
Qed.

Lemma nested_push m : mach_ok m → nested (push m).
Proof.
  intros (Htp & c & Hc & Hn & Hoff). eexists. split; [exact (cpus_push m c Hc)|]. simpl. lia.
Qed.

Lemma nested_equiv m m' : nested m → m' ≡ m → m' = m.
Proof.
  intros Hn H. pose proof (norm_nested m Hn) as Hm. red in H. red in H.
  rewrite Hm in H. destruct Hn as (c & Hc & Hn).
  assert (hid m' = hid m) as Hh by (rewrite <- H; done).
  rewrite <- (norm_nested m'); [done|].
  destruct (cpus m' !! hid m') as [d|] eqn:Hd.
  - exists d. split; [done|]. pose proof (cpus_norm m' d Hd) as Hcn.
    rewrite H, Hh, Hc in Hcn. by simplify_eq/=.
  - exfalso. rewrite <- H in Hc. unfold norm, on_mycpu in Hc; simpl in Hc.
    unfold hid in *; simpl in *. by rewrite list_lookup_alter_eq, Hd in Hc.
Qed.

(** Release at the end of a section whose body kept the machine. *)
Lemma wp_release_acq lk m m1 Q :
  mach_ok m → lock_free lk m → m1 ≡ acq lk m → (∀ m', m' ≡ m → Q tt m') →
  wp (release lk) m1 Q.
Proof.
  intros Hok Hl H1 HQ. rewrite (nested_equiv (acq lk m) m1); [|by apply nested_push|done].
  pose proof Hok as (Htp & c & Hc & Hn & Hoff).
  eapply wp_release; [done|exact (cpus_push m c Hc)|simpl; lia|apply sie_push|apply held_acq|].
  rewrite rel_acq by done. apply HQ, norm_equiv.
Qed.

(** [lock_free] and [held] of other locks survive an acquisition. *)
Lemma lock_free_acq lk lk' m : lk ≠ lk' → lock_free lk' m → lock_free lk' (acq lk m).
Proof. intros Hne [name H]. exists name. simpl. by rewrite lookup_insert_ne. Qed.

Lemma held_acq_ne lk lk' m : lk ≠ lk' → held lk' m → held lk' (acq lk m).
Proof. intros Hne [name H]. exists name. simpl. by rewrite lookup_insert_ne. Qed.

(** Releasing the outer of two locks: only the inner one stays. *)
Lemma rel_acq_swap lk lk' m : mach_ok m → lock_free lk m → lk ≠ lk' →
  rel lk (acq lk' (acq lk m)) = acq lk' m.
Proof.
  intros (Htp & c & Hc & Hn & Hoff) [name Hl] Hne.
  assert (lock_of lk (acq lk' (acq lk m)) = Spinlock 1 name (Some (hid m))) as Hlk.
  { unfold lock_of, acq. simpl. rewrite lookup_insert_ne, lookup_insert_eq by done. simpl.
    unfold lock_of. by rewrite Hl. }
  unfold rel. rewrite Hlk. simpl. unfold pop.
  assert (cpus (acq lk' (acq lk m)) !! hid m = _) as Hc2
    by exact (cpus_push (acq lk m) _ (cpus_push m c Hc)).
  change (hid (set_lock lk _ (acq lk' (acq lk m)))) with (hid m).
  change (cpus (set_lock lk _ (acq lk' (acq lk m)))) with (cpus (acq lk' (acq lk m))).
  rewrite Hc2. cbn [noff intena]. destruct (Z.eqb_spec (noff c + 1 + 1 - 1) 0) as [?|_]; [lia|].
  cbn [andb]. unfold acq, push, on_mycpu, set_lock, set_sstatus, hid. cbn.
  unfold hid in *. f_equal.
  - rewrite <- Z.land_assoc, Z.land_diag. done.
  - rewrite !list_alter_alter_eq. apply list_alter_ext; [|done]. intros d Hd. unfold compose; cbn.
    unfold hid in Hc. rewrite Hc in Hd. injection Hd as <-.
    destruct (Z.eqb_spec (noff c + 1) 0) as [?|_]; [lia|]. f_equal. lia.
  - rewrite insert_insert_ne by done. rewrite insert_insert_eq, (insert_id (locks m) lk (Spinlock 0 name None) Hl) by done.
    unfold lock_of. cbn. by rewrite lookup_insert_ne.
Qed.

(** ... as the rule for [release]. *)
Lemma wp_release_outer lk lk' m Q : mach_ok m → lock_free lk m → lk ≠ lk' →
  Q tt (acq lk' m) → wp (release lk) (acq lk' (acq lk m)) Q.
Proof.
  intros Hok Hl Hne HQ. pose proof Hok as (Htp & c & Hc & Hn & Hoff).
  eapply wp_release; [done|exact (cpus_push (acq lk m) _ (cpus_push m c Hc))|cbn; lia|apply sie_push| |].
  - exists (lk_name (lock_of lk m)). cbn. by rewrite lookup_insert_ne, lookup_insert_eq.
  - by rewrite rel_acq_swap.
Qed.

Create HintDb mach.
#[export] Hint Resolve mach_ok_acq lock_free_acq held_acq held_acq_ne nested_push : mach.

(** ** Theorems *)

Lemma acquire_eq lk m :
  mach_ok m →
  acquire lk m =
    (if truthy (locked (lock_of lk m)) then
       if bool_decide (lk_cpu (lock_of lk m) = Some (hid m)) then Panic "acquire" else Spin
     else Ret tt (acq lk m)).
Proof.
  intros Hok. unfold acquire.
  assert (push_off m = Ret tt (push m)) as Hp by (apply wp_eq, wp_push_off; done).
  rewrite (bind_ret _ _ _ _ _ Hp). destruct Hok as (Htp & c & Hc & Hn & Hoff).
  assert (holding lk (push m) = Ret (truthy (locked (lock_of lk m)) &&
            bool_decide (lk_cpu (lock_of lk m) = Some (hid m))) (push m)) as Hh.
  { apply wp_eq. eapply wp_holding; [done|exact (cpus_push m c Hc)|done]. }
  rewrite (bind_ret _ _ _ _ _ Hh).
  destruct (truthy (locked (lock_of lk m))) eqn:El; simpl.
  - case_bool_decide; [done|]. unfold bind, when, ret, gets. simpl.
    change (lock_of lk (push m)) with (lock_of lk m). by rewrite El.
  - unfold bind at 1. unfold when, ret. simpl. unfold bind at 1, gets at 1.
    change (lock_of lk (push m)) with (lock_of lk m). rewrite El.
    unfold bind at 1, modify at 1, bind at 1, gets at 1.
    set (m1 := set_lock lk _ (push m)).
    assert (∃ d, mycpu m1 = Ret (hid m, d) m1) as [d Hcpu1].
    { eexists. apply wp_eq. eapply wp_mycpu; [done|exact (cpus_push m c Hc)|done]. }
    rewrite (bind_ret _ _ _ _ _ Hcpu1). unfold modify, acq, m1, set_lock, lock_of; simpl.
    rewrite lookup_insert_eq; simpl. by rewrite insert_insert_eq.
Qed.

Lemma acquire_held lk m : mach_ok m → held lk m → acquire lk m = Panic "acquire".
Proof.
  intros Hok [name Hl]. rewrite acquire_eq by done. unfold lock_of. rewrite Hl. cbn.
  by rewrite bool_decide_true.
Qed.

(** [acquire] on every branch: a free lock is taken by this hart with
    interrupts off and one more level of nesting; taking a lock this hart
    already holds panics; a lock another hart holds is spun on. *)
Theorem acquire_cases lk m :
  mach_ok m →
  acquire lk m =
    (if truthy (locked (lock_of lk m)) then
       if bool_decide (lk_cpu (lock_of lk m) = Some (hid m)) then Panic "acquire" else Spin
     else Ret tt (acq lk m)).
Proof. apply acquire_eq. Qed.


(** [release] panics exactly when this hart does not hold the lock;
    otherwise it clears the holder, frees the lock and pops one level. *)
Theorem release_cases lk m c :
  0 ≤ tp m < 2147483648 → cpus m !! hid m = Some c → 0 < noff c → sie m = false →
  release lk m =
    (if truthy (locked (lock_of lk m)) && bool_decide (lk_cpu (lock_of lk m) = Some (hid m))
     then Ret tt (rel lk m) else Panic "release").
Proof.
  intros Htp Hc Hn Hs. unfold release.
  assert (holding lk m = Ret (truthy (locked (lock_of lk m)) &&
            bool_decide (lk_cpu (lock_of lk m) = Some (hid m))) m) as Hh.
  { apply wp_eq. by eapply wp_holding. }
  rewrite (bind_ret _ _ _ _ _ Hh).
  destruct (truthy _ && bool_decide _) eqn:E; simpl; [|done].
  apply wp_eq. unfold when. wp_simpl. eapply wp_pop_off; [done|exact Hc|done|done|].
  split; [done|]. unfold rel, set_lock, lock_of; simpl. rewrite lookup_insert_eq; simpl.
  by rewrite insert_insert_eq.
Qed.

Fixpoint repeatM {S} (n : nat) (m : M S unit) : M S unit :=
  match n with O => ret tt | Datatypes.S n => m;; repeatM n m end.

Lemma pop_push m : mach_ok m → pop (push m) = norm m.
Proof.
  intros Hok. destruct Hok as (Htp & c & Hc & Hn & Hoff).
  unfold pop. change (hid (push m)) with (hid m). rewrite (cpus_push m c Hc). simpl.
  replace (noff c + 1 - 1) with (noff c) by lia.
  assert (∀ x, on_mycpu (λ c, Cpu (c_proc c) (c_context c) (noff c - 1) (intena c))
                (set_sstatus x (push m)) = set_sstatus x (norm m)) as Hx.
  { intros x. unfold push, norm, on_mycpu, set_sstatus, hid; simpl. f_equal.
    rewrite list_alter_alter_eq. apply list_alter_ext; [|done]. intros d _.
    unfold compose; simpl. f_equal. lia. }
  assert (push m = set_sstatus (Z.land (sstatus m) (Z.lnot SSTATUS_SIE)) (push m)) as Hpm by done.
  assert (set_sstatus (sstatus m) (norm m) = norm m) as Hnm by done.
  unfold sie in *. destruct (Z.eqb_spec (noff c) 0) as [He|He]; simpl.
  - destruct (truthy (Z.land (sstatus m) SSTATUS_SIE)) eqn:E; simpl.
    + rewrite Hx, <- Hnm. f_equal. by apply sstatus_reset.
    + rewrite Hpm, Hx, <- Hnm. f_equal. by apply sstatus_clear.
  - rewrite Hpm, Hx, <- Hnm. f_equal. apply sstatus_clear, Hoff. lia.
Qed.

Lemma mach_ok_push_n n m : mach_ok m → mach_ok (Nat.iter n push m).
Proof. intros H. induction n; simpl; [done|]. by apply mach_ok_push. Qed.

Lemma push_n_S n m : Nat.iter n push (push m) = Nat.iter (S n) push m.
Proof. by rewrite Nat.iter_succ_r. Qed.

Lemma wp_push_n n m Q :
  mach_ok m → Q tt (Nat.iter n push m) → wp (repeatM n push_off) m Q.
Proof.
  revert m. induction n as [|n IH]; intros m Hok HQ; simpl; [done|].
  wp_simpl. apply wp_push_off; [done|]. apply IH; [by apply mach_ok_push|].
  by rewrite push_n_S.
Qed.

Lemma wp_pop_n n m Q :
  mach_ok m → (∀ m', m' ≡ m → Q tt m') → wp (repeatM n pop_off) (Nat.iter n push m) Q.
Proof.
  revert Q. induction n as [|n IH]; intros Q Hok HQ; simpl; [by apply HQ|].
  wp_simpl. set (m1 := Nat.iter n push m).
  pose proof (mach_ok_push_n n m Hok : mach_ok m1) as Hok1.
  pose proof Hok1 as (Htp & c & Hc & Hn & Hoff).
  eapply wp_pop_off; [done|exact (cpus_push m1 c Hc)|simpl; lia|apply sie_push|].
  rewrite pop_push by done. destruct n as [|n].
  - apply HQ. unfold m1; simpl. apply norm_equiv.
  - rewrite norm_nested; [by apply IH|].
    apply (nested_push (Nat.iter n push m)), mach_ok_push_n. done.
Qed.

(** [push_off]/[pop_off] are matched: after [n] calls of [push_off]
    interrupts are off (when [n > 0]), and [n] calls of [pop_off] return the
    machine, its interrupt-enable bit included, to what it was before. *)
Theorem push_pop_nest n m :
  mach_ok m →
  wp (repeatM n push_off) m (fun _ m1 => (0 < n)%nat → sie m1 = false) ∧
  wp (repeatM n push_off;; repeatM n pop_off) m (fun _ m' => m' ≡ m ∧ sstatus m' = sstatus m).
Proof.
  intros Hok. split.
  - apply wp_push_n; [done|]. intros Hn. destruct n; [lia|]. apply sie_push.
  - wp_simpl. apply wp_push_n; [done|]. apply wp_pop_n; [done|].
    intros m' Hm'. split; [done|]. exact (f_equal sstatus Hm').
Qed.

Definition boot_mach : mach :=
  Mach 0 2 (replicate 8 (Cpu None context0 0 false)) {[ L_kmem := Spinlock 0 "kmem" None ]}.

Lemma boot_mach_ok : mach_ok boot_mach.
Proof. split; [simpl; lia|]. eexists. split; [reflexivity|]. simpl. split; [lia|lia]. Qed.

Lemma acquire_cases_witness :
  mach_ok boot_mach ∧ acquire L_kmem boot_mach = Ret tt (acq L_kmem boot_mach).
Proof.
  split; [apply boot_mach_ok|]. rewrite (acquire_cases L_kmem boot_mach boot_mach_ok).
  vm_compute. reflexivity.
Defined.

Lemma release_cases_witness :
  release L_kmem (acq L_kmem boot_mach) = Ret tt (rel L_kmem (acq L_kmem boot_mach)).
Proof.
  erewrite (release_cases L_kmem (acq L_kmem boot_mach)).
  - vm_compute. reflexivity.
  - simpl. lia.
  - vm_compute. reflexivity.
  - simpl. lia.
  - vm_compute. reflexivity.
Defined.

Lemma push_pop_nest_witness :
  wp (repeatM 3 push_off;; repeatM 3 pop_off) boot_mach
     (fun _ m' => m' ≡ boot_mach ∧ sstatus m' = sstatus boot_mach).
Proof. apply (push_pop_nest 3 boot_mach boot_mach_ok). Defined.
