(* ===== verification/SpinRace.v ===== *)
(** * The spinlock under interleaving (kernel/spinlock.c)

    Several harts run [acquire]; critical section; [release] on one lock, at
    the granularity of single loads and stores of [lk->locked] and [lk->cpu]
    and of the atomic swap.  [holding] reads the two fields in two steps, so
    the races of the real code are present.  The steps of [push_off] and
    [pop_off] touch only hart-private state and are left to Spinlock.v. *)

From Stdlib Require Import ZArith Lia.
From stdpp Require Import base numbers relations list.
From S2P Require Import Prelude.

(** The program counter of a hart inside acquire/release. *)
Inductive pc :=
| Idle
| Acq_holding_locked          (* acquire: holding() reads lk->locked *)
| Acq_holding_cpu             (* ... it was set: reads lk->cpu *)
| Acq_swap                    (* while(__sync_lock_test_and_set(...) != 0) *)
| Acq_setcpu                  (* lk->cpu = mycpu() *)
| Critical
| Rel_holding_locked          (* release: holding() reads lk->locked *)
| Rel_holding_cpu             (* ... it was set: reads lk->cpu *)
| Rel_clearcpu                (* lk->cpu = 0 *)
| Rel_unlock                  (* __sync_lock_release(&lk->locked) *)
| Panicked.

#[global] Instance pc_eq_dec : EqDecision pc.
Proof. solve_decision. Defined.

Record word := Word { w_locked : Z; w_cpu : option nat }.

(** One memory access of hart [h]. *)
Definition hart_step (h : nat) (p : pc) (w : word) : pc * word :=
  match p with
  | Idle => (Acq_holding_locked, w)
  | Acq_holding_locked => (if truthy (w_locked w) then Acq_holding_cpu else Acq_swap, w)
  | Acq_holding_cpu => (if bool_decide (w_cpu w = Some h) then Panicked else Acq_swap, w)
  | Acq_swap => (if truthy (w_locked w) then Acq_swap else Acq_setcpu, Word 1 (w_cpu w))
  | Acq_setcpu => (Critical, Word (w_locked w) (Some h))
  | Critical => (Rel_holding_locked, w)
  | Rel_holding_locked => (if truthy (w_locked w) then Rel_holding_cpu else Panicked, w)
  | Rel_holding_cpu => (if bool_decide (w_cpu w = Some h) then Rel_clearcpu else Panicked, w)
  | Rel_clearcpu => (Rel_unlock, Word (w_locked w) None)
  | Rel_unlock => (Idle, Word 0 (w_cpu w))
  | Panicked => (Panicked, w)
  end.

Record sys := Sys { pcs : list pc; lockw : word }.

Inductive step : sys → sys → Prop :=
| step_hart h p s :
    pcs s !! h = Some p →
    step s (Sys (<[h := fst (hart_step h p (lockw s))]> (pcs s)) (snd (hart_step h p (lockw s)))).

Definition init (n : nat) : sys := Sys (replicate n Idle) (Word 0 None).

(** ** The invariant *)

(** A hart past its successful swap and before its unlock owns the lock. *)
Definition owns (p : pc) : bool :=
  match p with
  | Acq_setcpu | Critical | Rel_holding_locked | Rel_holding_cpu | Rel_clearcpu | Rel_unlock => true
  | _ => false
  end.

(** Between its write of [lk->cpu] and the clearing one the field names it. *)
Definition named (p : pc) : bool :=
  match p with
  | Critical | Rel_holding_locked | Rel_holding_cpu | Rel_clearcpu => true
  | _ => false
  end.

Record inv (s : sys) : Prop := {
  inv_word : w_locked (lockw s) = 0 ∨ w_locked (lockw s) = 1;
  inv_one : ∀ h h' p p', pcs s !! h = Some p → pcs s !! h' = Some p' →
                         owns p → owns p' → h = h';
  inv_locked : ∀ h p, pcs s !! h = Some p → owns p → w_locked (lockw s) = 1;
  inv_owner : w_locked (lockw s) = 1 → ∃ h p, pcs s !! h = Some p ∧ owns p;
  inv_named : ∀ h p, pcs s !! h = Some p → named p → w_cpu (lockw s) = Some h;
  inv_cpu : ∀ h, w_cpu (lockw s) = Some h → ∃ p, pcs s !! h = Some p ∧ named p;
  inv_sane : ∀ h, pcs s !! h ≠ Some Panicked
}.

Lemma named_owns p : named p → owns p.
Proof. by destruct p. Qed.

Lemma inv_init n : inv (init n).
Proof.
  split; simpl; try (intros h p [-> _]%lookup_replicate; by simpl); auto.
  - intros h h' p p' [-> _]%lookup_replicate. done.
  - done.
  - done.
  - intros h [? _]%lookup_replicate. done.
Qed.

(** A step that neither takes nor gives the lock and leaves the word. *)
Lemma inv_keep s h p q :
  inv s → pcs s !! h = Some p → owns q = owns p → named q = named p → q ≠ Panicked →
  inv (Sys (<[h := q]> (pcs s)) (lockw s)).
Proof.
  intros Hi Hp Ho Hn Hq. split; simpl.
  - apply Hi.
  - intros h1 h2 p1 p2 [[<- ->]|[_ H1]]%lookup_insert_cases [[<- ->]|[_ H2]]%lookup_insert_cases;
      rewrite ?Ho; try done; eauto using inv_one.
  - intros h1 p1 [[<- ->]|[_ H1]]%lookup_insert_cases; rewrite ?Ho; eauto using inv_locked.
  - intros (h1 & p1 & H1 & H1o)%(inv_owner s Hi).
    destruct (decide (h = h1)) as [<-|]; simplify_eq.
    + exists h, q. rewrite Ho. split; [|done]. apply list_lookup_insert_eq. by eapply lookup_lt_Some.
    + exists h1, p1. by rewrite list_lookup_insert_ne.
  - intros h1 p1 [[<- ->]|[_ H1]]%lookup_insert_cases; rewrite ?Hn; eauto using inv_named.
  - intros h1 (p1 & H1 & H1n)%(inv_cpu s Hi).
    destruct (decide (h = h1)) as [<-|]; simplify_eq.
    + exists q. rewrite Hn. split; [|done]. apply list_lookup_insert_eq. by eapply lookup_lt_Some.
    + exists p1. by rewrite list_lookup_insert_ne.
  - intros h1 [[<- ?]|[_ H1]]%lookup_insert_cases; [done|]. by eapply (inv_sane s Hi).
Qed.

Lemma named_none s h p : inv s → w_locked (lockw s) = 0 → pcs s !! h = Some p → owns p = false.
Proof.
  intros Hi H0 Hp. destruct (owns p) eqn:E; [|done].
  pose proof (inv_locked s Hi h p Hp). rewrite E in H. specialize (H I). lia.
Qed.

Lemma cpu_none s h : inv s → (∀ p, pcs s !! h = Some p → named p = false) → w_cpu (lockw s) ≠ Some h.
Proof. intros Hi Hn (p & Hp & Hnp)%(inv_cpu s Hi). by rewrite (Hn p Hp) in Hnp. Qed.

(** The only owner [h] moves on, writing the word. *)
Lemma inv_owner_step s h p q w :
  inv s → pcs s !! h = Some p → owns p → q ≠ Panicked →
  (owns q → w_locked w = 1) → (owns q = false → w_locked w = 0) →
  (named q → w_cpu w = Some h) → (named q = false → w_cpu w = None) →
  inv (Sys (<[h := q]> (pcs s)) w).
Proof.
  intros Hi Hp Ho Hq Hl1 Hl0 Hc1 Hc0.
  assert (∀ h1 p1, h ≠ h1 → pcs s !! h1 = Some p1 → owns p1 = false) as Hoth.
  { intros h1 p1 Hne H1. destruct (owns p1) eqn:E; [|done]. exfalso.
    apply Hne, (inv_one s Hi h h1 p p1); try done. by rewrite E. }
  assert (∀ h1 p1, h ≠ h1 → pcs s !! h1 = Some p1 → named p1 = false) as Hoth'.
  { intros h1 p1 Hne H1. pose proof (Hoth h1 p1 Hne H1). by destruct p1. }
  assert (<[h := q]> (pcs s) !! h = Some q) as Hhq
    by (apply list_lookup_insert_eq; by eapply lookup_lt_Some).
  split; simpl.
  - destruct (owns q); [right; by apply Hl1|left; by apply Hl0].
  - intros h1 h2 p1 p2 [[<- ->]|[Hn1 H1]]%lookup_insert_cases [[<- ->]|[Hn2 H2]]%lookup_insert_cases;
      try done; rewrite ?(Hoth _ _ Hn1 H1), ?(Hoth _ _ Hn2 H2); done.
  - intros h1 p1 [[<- ->]|[Hn1 H1]]%lookup_insert_cases; [done|].
    by rewrite (Hoth _ _ Hn1 H1).
  - intros Hw. exists h, q. split; [done|]. destruct (owns q); [done|].
    rewrite Hl0 in Hw by done. lia.
  - intros h1 p1 [[<- ->]|[Hn1 H1]]%lookup_insert_cases; [done|].
    by rewrite (Hoth' _ _ Hn1 H1).
  - intros h1 Hw. destruct (named q) eqn:E.
    + rewrite Hc1 in Hw by done. simplify_eq. exists q. by rewrite E.
    + rewrite Hc0 in Hw by done. done.
  - intros h1 [[<- ?]|[_ H1]]%lookup_insert_cases; [done|]. by eapply (inv_sane s Hi).
Qed.

(** A waiting hart wins the swap on a free lock. *)
Lemma inv_take s h :
  inv s → pcs s !! h = Some Acq_swap → w_locked (lockw s) = 0 →
  inv (Sys (<[h := Acq_setcpu]> (pcs s)) (Word 1 (w_cpu (lockw s)))).
Proof.
  intros Hi Hp H0.
  assert (<[h := Acq_setcpu]> (pcs s) !! h = Some Acq_setcpu) as Hhq
    by (apply list_lookup_insert_eq; by eapply lookup_lt_Some).
  split; simpl.
  - by right.
  - intros h1 h2 p1 p2 [[<- ->]|[Hn1 H1]]%lookup_insert_cases [[<- ->]|[Hn2 H2]]%lookup_insert_cases;
      try done; rewrite ?(named_none s _ _ Hi H0 H1), ?(named_none s _ _ Hi H0 H2); done.
  - done.
  - eauto.
  - intros h1 p1 [[<- ->]|[Hn1 H1]]%lookup_insert_cases; [done|]. eauto using inv_named.
  - intros h1 (p1 & H1 & H1n)%(inv_cpu s Hi). exists p1. split; [|done].
    destruct (decide (h = h1)) as [<-|]; [|by rewrite list_lookup_insert_ne].
    by simplify_eq.
  - intros h1 [[<- ?]|[_ H1]]%lookup_insert_cases; [done|]. by eapply (inv_sane s Hi).
Qed.

Lemma inv_step s s' : inv s → step s s' → inv s'.
Proof.
  intros Hi Hs. destruct Hs as [h p s Hp].
  assert (named p → w_cpu (lockw s) = Some h) as Hcpu by eauto using inv_named.
  assert (owns p → w_locked (lockw s) = 1) as Hlk by eauto using inv_locked.
  destruct p; simpl in *.
  - by eapply inv_keep.
  - destruct (truthy _); by eapply inv_keep.
  - case_bool_decide as Hc; [|by eapply inv_keep].
    exfalso. eapply cpu_none; [done| |exact Hc]. intros p Hp'. by simplify_eq.
  - destruct (inv_word s Hi) as [H0|H1].
    + rewrite H0. simpl. by apply inv_take.
    + rewrite H1. simpl. replace (Word 1 (w_cpu (lockw s))) with (lockw s)
        by (destruct (lockw s); simpl in *; by subst).
      by eapply inv_keep.
  - eapply inv_owner_step; try done; simpl; auto.
  - by eapply inv_keep.
  - rewrite Hlk by done. by eapply inv_keep.
  - rewrite bool_decide_true by auto. by eapply inv_keep.
  - eapply inv_owner_step; try done; simpl; auto.
  - eapply inv_owner_step; try done; simpl; auto. intros _.
    destruct (w_cpu (lockw s)) as [h1|] eqn:E; [|done]. exfalso.
    destruct (inv_cpu s Hi h1 E) as (p1 & H1 & H1n).
    assert (h1 = h) as -> by (eapply (inv_one s Hi); eauto using named_owns).
    by simplify_eq.
  - by apply (inv_sane s Hi) in Hp.
Qed.

Lemma inv_reach n s : rtc step (init n) s → inv s.
Proof.
  intros Hr. eapply (rtc_ind_r (fun s => inv s)); [apply inv_init| |exact Hr].
  intros y z _ Hs Hi. by eapply inv_step.
Qed.

(** ** Theorems *)

(** C1. Mutual exclusion: whatever the interleaving of any number of harts,
    at most one of them is inside the critical section. *)
Theorem mutual_exclusion n s h h' :
  rtc step (init n) s →
  pcs s !! h = Some Critical → pcs s !! h' = Some Critical → h = h'.
Proof. intros Hr H H'. by eapply (inv_one s (inv_reach n s Hr)). Qed.

(** The unsynchronised reads of [holding] are harmless: a hart that uses
    the lock without nesting never hits the panics of [acquire] and
    [release]. *)
Theorem holding_race_no_panic n s h :
  rtc step (init n) s → pcs s !! h ≠ Some Panicked.
Proof. intros Hr. apply (inv_sane s (inv_reach n s Hr)). Qed.

Lemma step_to s h p q w :
  pcs s !! h = Some p → hart_step h p (lockw s) = (q, w) →
  step s (Sys (<[h := q]> (pcs s)) w).
Proof. intros Hp He. pose proof (step_hart h p s Hp) as Hs. by rewrite He in Hs. Qed.

(** Memory accesses an owner still makes before the lock is free. *)
Definition dist (p : pc) : nat :=
  match p with
  | Acq_setcpu => 6 | Critical => 5 | Rel_holding_locked => 4 | Rel_holding_cpu => 3
  | Rel_clearcpu => 2 | Rel_unlock => 1 | _ => 0
  end.

Lemma owner_leaves k s h p :
  inv s → pcs s !! h = Some p → owns p → (dist p ≤ k)%nat →
  ∃ s', rtc step s s' ∧ w_locked (lockw s') = 0 ∧ inv s' ∧ length (pcs s') = length (pcs s).
Proof.
  revert s p. induction k as [|k IH]; intros s p Hi Hp Ho Hk.
  { destruct p; simpl in *; try lia; done. }
  pose proof (step_hart h p s Hp) as Hs. pose proof (inv_step s _ Hi Hs) as Hi'.
  set (s1 := Sys _ _) in Hi', Hs.
  assert (pcs s1 !! h = Some (fst (hart_step h p (lockw s)))) as Hp1
    by (apply list_lookup_insert_eq; by eapply lookup_lt_Some).
  assert (length (pcs s1) = length (pcs s)) as Hlen by apply length_insert.
  destruct (decide (p = Rel_unlock)) as [->|Hne].
  { exists s1. split; [by apply rtc_once|]. done. }
  assert (w_locked (lockw s) = 1) as Hlk by eauto using inv_locked.
  assert (named p → w_cpu (lockw s) = Some h) as Hcpu by eauto using inv_named.
  destruct (IH s1 (fst (hart_step h p (lockw s)))) as (s' & Hr & H0 & Hi2 & Hl); try done.
  - destruct p; simpl in *; rewrite ?Hlk; try done. by rewrite bool_decide_true by auto.
  - destruct p; simpl in *; rewrite ?Hlk; simpl; try lia. rewrite bool_decide_true by auto. simpl. lia.
  - exists s'. split; [by eapply rtc_l|]. split_and!; try done. lia.
Qed.

(** C36. The lock never gets stuck: from every reachable state, whoever holds
    it, every hart can still reach its critical section. *)
Theorem lock_obtainable n s h :
  rtc step (init n) s → (h < n)%nat →
  ∃ s', rtc step s s' ∧ pcs s' !! h = Some Critical.
Proof.
  intros Hr Hh. pose proof (inv_reach n s Hr) as Hi.
  assert (length (pcs s) = n) as Hlen.
  { eapply (rtc_ind_r (fun s => length (pcs s) = n)); [| |exact Hr].
    - apply length_replicate.
    - intros y z _ [h0 p y0 _] Hy. simpl. by rewrite length_insert. }
  assert (∃ s1, rtc step s s1 ∧ w_locked (lockw s1) = 0 ∧ inv s1 ∧ length (pcs s1) = n)
    as (s1 & Hr1 & H0 & Hi1 & Hl1).
  { destruct (inv_word s Hi) as [H0|H1]; [by exists s|].
    destruct (inv_owner s Hi H1) as (h1 & p1 & Hp1 & Ho1).
    destruct (owner_leaves 6 s h1 p1 Hi Hp1 Ho1) as (s' & ?&?&?&?).
    - by destruct p1; simpl; lia.
    - exists s'. split_and!; try done. lia. }
  destruct (lookup_lt_is_Some_2 (pcs s1) h ltac:(lia)) as [p Hp].
  assert (∀ t, pcs t !! h = Some Acq_swap → w_locked (lockw t) = 0 →
    ∃ s', rtc step t s' ∧ pcs s' !! h = Some Critical) as Hswap.
  { intros t Ht Ht0. eexists. split.
    - eapply rtc_l; [apply (step_to t h Acq_swap Acq_setcpu (Word 1 (w_cpu (lockw t))));
        [done|simpl; by rewrite Ht0]|].
      eapply rtc_once, (step_to _ h Acq_setcpu); [|done]. apply list_lookup_insert_eq. by eapply lookup_lt_Some.
    - simpl. apply list_lookup_insert_eq. rewrite length_insert. by eapply lookup_lt_Some. }
  assert (∀ t p, pcs t !! h = Some p → w_locked (lockw t) = 0 → p ≠ Idle → owns p = false →
    p ≠ Panicked → inv t → ∃ s', rtc step t s' ∧ pcs s' !! h = Some Critical) as Hacq.
  { intros t q Ht Ht0 HnI Hno HnP Hit.
    destruct (decide (q = Acq_swap)) as [->|Hns]; [by apply Hswap|].
    destruct (Hswap (Sys (<[h := Acq_swap]> (pcs t)) (lockw t))) as (s' & Hs' & Hc).
    - apply list_lookup_insert_eq. by eapply lookup_lt_Some.
    - done.
    - exists s'. split; [|done]. eapply rtc_l; [|exact Hs']. eapply step_to; [done|].
      destruct q; simpl in *; try done; rewrite ?Ht0; simpl; try done.
      rewrite bool_decide_false; [done|]. eapply cpu_none; [done|]. intros p' Hp'. by simplify_eq. }
  pose proof (named_none s1 h p Hi1 H0 Hp) as Hno.
  destruct (decide (p = Idle)) as [->|HnI].
  - pose proof (step_to s1 h Idle _ _ Hp eq_refl) as Hst.
    destruct (Hacq (Sys (<[h := Acq_holding_locked]> (pcs s1)) (lockw s1)) Acq_holding_locked)
      as (s' & Hs' & Hc); try done; [apply list_lookup_insert_eq; lia|by eapply inv_step|].
    exists s'. split; [|done]. etrans; [exact Hr1|]. by eapply rtc_l.
  - destruct (Hacq s1 p) as (s' & Hs' & Hc); try done.
    + intros ->. by eapply (inv_sane s1 Hi1).
    + exists s'. split; [|done]. by etrans.
Qed.

(** Two harts contend: hart 0 is inside, hart 1 spins. *)
Definition contended : sys := Sys [Critical; Acq_swap] (Word 1 (Some 0%nat)).

Lemma contended_reachable : rtc step (init 2) contended.
Proof.
  assert (∀ (s : sys) h p q w s', pcs s !! h = Some p → hart_step h p (lockw s) = (q, w) →
    rtc step (Sys (<[h := q]> (pcs s)) w) s' → rtc step s s') as Hgo
    by (intros; eapply rtc_l; [by eapply step_to|done]).
  do 4 (eapply (Hgo _ 0%nat); [reflexivity|reflexivity|]; simpl).
  do 3 (eapply (Hgo _ 1%nat); [reflexivity|reflexivity|]; simpl).
  apply rtc_refl.
Qed.

Lemma mutual_exclusion_witness :
  rtc step (init 2) contended ∧ pcs contended !! 0%nat = Some Critical ∧ pcs contended !! 1%nat ≠ Some Critical.
Proof.
  split; [exact contended_reachable|]. split; [reflexivity|]. intros H.
  discriminate (mutual_exclusion 2 contended 0 1 contended_reachable eq_refl H).
Defined.

Lemma holding_race_no_panic_witness : pcs contended !! 1%nat ≠ Some Panicked.
Proof. exact (holding_race_no_panic 2 contended 1 contended_reachable). Defined.

Lemma lock_obtainable_witness : ∃ s', rtc step contended s' ∧ pcs s' !! 1%nat = Some Critical.
Proof. exact (lock_obtainable 2 contended 1 contended_reachable ltac:(lia)). Defined.
