(* ===== verification/Mem.v ===== *)
(** * Physical memory (kernel/memlayout.h, kernel/riscv.h)

    RAM is a map from physical addresses to bytes; a load outside
    [KERNBASE, PHYSTOP) faults, and so does a store below [etext], because the
    kernel maps its own text read-only (kvmmake in vm.c).  The linker symbols of kernel.ld and of the
    assembly files are the fields of the class [KernelImage].  The state of the
    memory-management layer ([kst]) is the machine of Spinlock.v, the memory
    and the head of the allocator's free list. *)

From Stdlib Require Import ZArith Lia.
From stdpp Require Import base gmap strings numbers list.
From S2P Require Import Prelude Spinlock.
Local Open Scope xv6_scope.

(** ** Layout constants *)

Definition PGSIZE : Z := 4096.
Definition KERNBASE : Z := 2147483648.                 (* 0x80000000L *)
Definition PHYSTOP : Z := KERNBASE + 128 * 1024 * 1024.
Definition MAXVA : Z := Z.shiftl 1 (9 + 9 + 9 + 12 - 1).
Definition TRAMPOLINE : Z := MAXVA - PGSIZE.
Definition TRAPFRAME : Z := TRAMPOLINE - PGSIZE.
Definition SIGNALRET : Z := TRAPFRAME - PGSIZE.
Definition SIGNALSTACK : Z := SIGNALRET - PGSIZE.
Definition KSTACK (p : Z) : Z := TRAMPOLINE - (p + 1) * 2 * PGSIZE.

Definition PGROUNDUP (sz : Z) : Z := Z.land (u64 (sz + PGSIZE - 1)) (Z.lnot (PGSIZE - 1)).
Definition PGROUNDDOWN (a : Z) : Z := Z.land a (Z.lnot (PGSIZE - 1)).

(** Addresses fixed by the linker. *)
Class KernelImage := {
  kend : Z;             (* extern char end[]: first address after the kernel *)
  etext : Z;            (* end of the kernel text *)
  trampoline : Z;       (* trampoline.S *)
  signalret : Z;        (* signal.S *)
  forkret_addr : Z;     (* the address of forkret() *)
  kend_range : KERNBASE ≤ kend ≤ PHYSTOP;
  etext_range : KERNBASE < etext ≤ kend ∧ etext mod PGSIZE = 0;
  trampoline_range : KERNBASE ≤ trampoline < etext ∧ trampoline mod PGSIZE = 0;
  signalret_range : KERNBASE ≤ signalret < etext ∧ signalret mod PGSIZE = 0
}.

(** ** Little-endian words over bytes *)

Fixpoint le_bytes (n : nat) (v : Z) : list Z :=
  match n with O => [] | S n => v mod 256 :: le_bytes n (v / 256) end.

Fixpoint le_value (bs : list Z) : Z :=
  match bs with [] => 0 | b :: bs => b + 256 * le_value bs end.

Lemma length_le_bytes n v : length (le_bytes n v) = n.
Proof. revert v. induction n; intros; simpl; auto. Qed.

Lemma le_value_bytes n v : le_value (le_bytes n v) = v mod 256 ^ Z.of_nat n.
Proof.
  revert v. induction n as [|n IH]; intros v; cbn [le_bytes le_value].
  - by rewrite Z.mod_1_r.
  - rewrite IH, Nat2Z.inj_succ, Z.pow_succ_r, Z.rem_mul_r by lia. lia.
Qed.

Lemma le_value_bound bs :
  Forall (fun b => 0 ≤ b < 256) bs → 0 ≤ le_value bs < 256 ^ Z.of_nat (length bs).
Proof.
  induction 1 as [|b bs Hb Hbs IH]; cbn [le_value length]; [lia|].
  rewrite Nat2Z.inj_succ, Z.pow_succ_r by lia. lia.
Qed.

Lemma le_bytes_value bs :
  Forall (fun b => 0 ≤ b < 256) bs → le_bytes (length bs) (le_value bs) = bs.
Proof.
  induction 1 as [|b bs Hb Hbs IH]; [done|]. cbn [le_value length le_bytes]. f_equal.
  - zlia.
  - etransitivity; [|exact IH]. f_equal. zlia.
Qed.

Lemma le_bytes_range n v : Forall (fun b => 0 ≤ b < 256) (le_bytes n v).
Proof. revert v. induction n; intros; simpl; constructor; auto. apply Z.mod_pos_bound. lia. Qed.

(** ** Byte memory *)

Definition byte_at (m : gmap Z Z) (a : Z) : Z := default 0 (m !! a).

Fixpoint read_bytes (m : gmap Z Z) (a : Z) (n : nat) : list Z :=
  match n with O => [] | S n => byte_at m a :: read_bytes m (a + 1) n end.

Fixpoint write_bytes (m : gmap Z Z) (a : Z) (bs : list Z) : gmap Z Z :=
  match bs with [] => m | b :: bs => write_bytes (<[a := b]> m) (a + 1) bs end.

Definition load64 (m : gmap Z Z) (a : Z) : Z := le_value (read_bytes m a 8).
Definition store64 (m : gmap Z Z) (a v : Z) : gmap Z Z := write_bytes m a (le_bytes 8 v).

(** Every byte of memory is a byte. *)
Definition mem_ok (m : gmap Z Z) : Prop := ∀ a b, m !! a = Some b → 0 ≤ b < 256.

Lemma length_read_bytes m a n : length (read_bytes m a n) = n.
Proof. revert a. induction n; intros; simpl; auto. Qed.

Lemma lookup_read_bytes m a n i :
  (i < n)%nat → read_bytes m a n !! i = Some (byte_at m (a + Z.of_nat i)).
Proof.
  revert a i. induction n as [|n IH]; intros a i Hi; [lia|].
  destruct i as [|i]; simpl; [by rewrite Z.add_0_r|].
  rewrite IH by lia. do 2 f_equal. lia.
Qed.

Lemma read_bytes_ext m m' a n :
  (∀ i, 0 ≤ i < Z.of_nat n → byte_at m (a + i) = byte_at m' (a + i)) →
  read_bytes m a n = read_bytes m' a n.
Proof.
  revert a. induction n as [|n IH]; intros a H; simpl; [done|]. f_equal.
  - specialize (H 0 ltac:(lia)). by rewrite Z.add_0_r in H.
  - apply IH. intros i Hi. specialize (H (i + 1) ltac:(lia)).
    by replace (a + 1 + i) with (a + (i + 1)) by lia.
Qed.

Lemma write_bytes_lookup_out m a bs x :
  x < a ∨ a + Z.of_nat (length bs) ≤ x → write_bytes m a bs !! x = m !! x.
Proof.
  revert m a. induction bs as [|b bs IH]; intros m a Hx; simpl; [done|].
  cbn [length] in Hx. rewrite IH by lia. rewrite lookup_insert_ne by lia. done.
Qed.

Lemma write_bytes_lookup_in m a bs i :
  (i < length bs)%nat → write_bytes m a bs !! (a + Z.of_nat i) = bs !! i.
Proof.
  revert m a i. induction bs as [|b bs IH]; intros m a i Hi; simpl in *; [lia|].
  destruct i as [|i].
  - rewrite Z.add_0_r, write_bytes_lookup_out by lia. by rewrite lookup_insert_eq.
  - replace (a + Z.of_nat (S i)) with (a + 1 + Z.of_nat i) by lia. apply IH. lia.
Qed.

Lemma byte_at_write_out m a bs x :
  x < a ∨ a + Z.of_nat (length bs) ≤ x → byte_at (write_bytes m a bs) x = byte_at m x.
Proof. intros H. unfold byte_at. by rewrite write_bytes_lookup_out. Qed.

Lemma byte_at_write_in m a bs i b :
  bs !! i = Some b → byte_at (write_bytes m a bs) (a + Z.of_nat i) = b.
Proof.
  intros H. unfold byte_at. rewrite write_bytes_lookup_in by (by eapply lookup_lt_Some).
  by rewrite H.
Qed.

Lemma read_write_same m a bs : read_bytes (write_bytes m a bs) a (length bs) = bs.
Proof.
  apply list_eq. intros i. destruct (decide (i < length bs)%nat) as [Hi|Hi].
  - rewrite lookup_read_bytes by done. destruct (lookup_lt_is_Some_2 bs i Hi) as [b Hb].
    rewrite Hb. f_equal. by apply byte_at_write_in.
  - rewrite !lookup_ge_None_2; rewrite ?length_read_bytes; lia || done.
Qed.

Lemma read_write_disjoint m a bs a' n :
  a' + Z.of_nat n ≤ a ∨ a + Z.of_nat (length bs) ≤ a' →
  read_bytes (write_bytes m a bs) a' n = read_bytes m a' n.
Proof. intros H. apply read_bytes_ext. intros i Hi. apply byte_at_write_out. lia. Qed.

Lemma load_store64_same m a v : 0 ≤ v < 2 ^ 64 → load64 (store64 m a v) a = v.
Proof.
  intros Hv. unfold load64, store64.
  pose proof (read_write_same m a (le_bytes 8 v)) as H. rewrite length_le_bytes in H.
  rewrite H, le_value_bytes. apply Z.mod_small. change (256 ^ Z.of_nat 8) with (2 ^ 64). done.
Qed.

Lemma load_store64_disjoint m a a' v :
  a' + 8 ≤ a ∨ a + 8 ≤ a' → load64 (store64 m a v) a' = load64 m a'.
Proof.
  intros H. unfold load64, store64. rewrite read_write_disjoint; [done|].
  rewrite length_le_bytes. lia.
Qed.

Lemma load64_ext m m' a :
  (∀ i, 0 ≤ i < 8 → byte_at m (a + i) = byte_at m' (a + i)) → load64 m a = load64 m' a.
Proof. intros H. unfold load64. f_equal. apply read_bytes_ext. intros. apply H. lia. Qed.

Lemma mem_ok_write m a bs :
  mem_ok m → Forall (fun b => 0 ≤ b < 256) bs → mem_ok (write_bytes m a bs).
Proof.
  intros Hm Hbs. revert m a Hm. induction Hbs as [|b bs Hb Hbs IH]; intros m a Hm; simpl; [done|].
  apply IH. intros x y. rewrite lookup_insert. case_decide; [by intros [= <-]|]. apply Hm.
Qed.

Lemma read_bytes_range m a n : mem_ok m → Forall (fun b => 0 ≤ b < 256) (read_bytes m a n).
Proof.
  intros Hm. revert a. induction n; intros a; simpl; constructor; auto.
  unfold byte_at. destruct (m !! a) eqn:E; simpl; [by eapply Hm|lia].
Qed.

Lemma load64_range m a : mem_ok m → 0 ≤ load64 m a < 2 ^ 64.
Proof.
  intros Hm. pose proof (le_value_bound _ (read_bytes_range m a 8 Hm)) as H.
  rewrite length_read_bytes in H. exact H.
Qed.

(** ** The state of the memory-management layer *)

Record kst := Kst {
  k_mach : mach;
  k_mem : gmap Z Z;
  k_freelist : Z               (* kmem.freelist *)
}.

Definition set_mach (m : mach) (s : kst) : kst := Kst m (k_mem s) (k_freelist s).
Definition set_mem (m : gmap Z Z) (s : kst) : kst := Kst (k_mach s) m (k_freelist s).
Definition set_freelist (p : Z) (s : kst) : kst := Kst (k_mach s) (k_mem s) p.

(** Lock operations act on the machine. *)
Definition onm {A} (m : M mach A) : M kst A := zoom k_mach set_mach m.

Section access.
Context `{KI : KernelImage}.

Definition in_ram (a n : Z) : bool := (KERNBASE <=? a) && (a + n <=? PHYSTOP).
Definition writable (a n : Z) : bool := (etext <=? a) && (a + n <=? PHYSTOP).

Definition ld8 (a : Z) : M kst Z :=
  s ← get; if in_ram a 1 then ret (byte_at (k_mem s) a) else fault a.
Definition st8 (a v : Z) : M kst unit :=
  if writable a 1 then modify (fun s => set_mem (<[a := u8 v]> (k_mem s)) s) else fault a.
Definition ld64 (a : Z) : M kst Z :=
  s ← get; if in_ram a 8 then ret (load64 (k_mem s) a) else fault a.
Definition st64 (a v : Z) : M kst unit :=
  if writable a 8 then modify (fun s => set_mem (store64 (k_mem s) a v) s) else fault a.

Lemma in_ram_sub a n b k : in_ram a n = true → a ≤ b → b + k ≤ a + n → in_ram b k = true.
Proof. unfold in_ram. intros. lia. Qed.

Lemma writable_sub a n b k : writable a n = true → a ≤ b → b + k ≤ a + n → writable b k = true.
Proof. unfold writable. intros. lia. Qed.

Lemma writable_ram a n : writable a n = true → in_ram a n = true.
Proof. unfold writable, in_ram. pose proof etext_range. lia. Qed.

Lemma wp_ld64 a s Q : in_ram a 8 = true → Q (load64 (k_mem s) a) s → wp (ld64 a) s Q.
Proof. intros Hr HQ. unfold ld64. wp_simpl. rewrite Hr. done. Qed.

Lemma wp_st64 a v s Q :
  writable a 8 = true → Q tt (set_mem (store64 (k_mem s) a v) s) → wp (st64 a v) s Q.
Proof. intros Hr HQ. unfold st64. rewrite Hr. done. Qed.

End access.

(** Lock operations inside [kst]. *)
Lemma wp_acquire_k lk s Q :
  mach_ok (k_mach s) → lock_free lk (k_mach s) →
  Q tt (set_mach (acq lk (k_mach s)) s) → wp (onm (acquire lk)) s Q.
Proof. intros H1 H2 HQ. unfold onm. rewrite wp_zoom. by apply wp_acquire. Qed.

Lemma wp_release_k lk m s Q :
  mach_ok m → lock_free lk m → k_mach s ≡ acq lk m →
  (∀ m', m' ≡ m → Q tt (set_mach m' s)) → wp (onm (release lk)) s Q.
Proof. intros H1 H2 H3 HQ. unfold onm. rewrite wp_zoom. eapply wp_release_acq; eauto. Qed.

(** Page arithmetic. *)
Lemma PGROUNDDOWN_eq a : PGROUNDDOWN a = a - a mod 4096.
Proof. unfold PGROUNDDOWN. change (Z.lnot (PGSIZE - 1)) with (- 2 ^ 12). by rewrite land_neg_pow2. Qed.

Lemma PGROUNDUP_eq sz : 0 ≤ sz → sz + 4095 < 2 ^ 64 → PGROUNDUP sz = (sz + 4095) / 4096 * 4096.
Proof.
  intros. unfold PGROUNDUP. change (Z.lnot (PGSIZE - 1)) with (- 2 ^ 12).
  rewrite land_neg_pow2 by done. unfold PGSIZE, u64. change (2 ^ 12) with 4096.
  rewrite (Z.mod_small (sz + 4096 - 1)) by lia. zlia.
Qed.

Lemma write_bytes_snoc m a bs b :
  write_bytes (<[a + Z.of_nat (length bs) := b]> m) a bs = write_bytes m a (bs ++ [b]).
Proof.
  revert m a. induction bs as [|c bs IH]; intros m a; cbn [app write_bytes length];
    [by rewrite Z.add_0_r|].
  rewrite <- IH. f_equal. rewrite insert_insert_ne by lia. f_equal. lia.
Qed.

Lemma write_bytes_replicate_lookup m a c n x :
  write_bytes m a (replicate n c) !! x =
    if decide (a ≤ x < a + Z.of_nat n) then Some c else m !! x.
Proof.
  case_decide as Hd.
  - replace x with (a + Z.of_nat (Z.to_nat (x - a))) by lia.
    rewrite write_bytes_lookup_in by (rewrite length_replicate; lia).
    apply lookup_replicate_2. lia.
  - rewrite write_bytes_lookup_out; [done|]. rewrite length_replicate. lia.
Qed.

(** A page full of one byte. *)
Definition page_fill (c : Z) : list Z := replicate (Z.to_nat PGSIZE) c.

Lemma length_page_fill c : Z.of_nat (length (page_fill c)) = 4096.
Proof. unfold page_fill. rewrite length_replicate, Z2Nat.id; done. Qed.

Lemma page_fill_bytes c : 0 ≤ c < 256 → Forall (fun b => 0 ≤ b < 256) (page_fill c).
Proof. intros Hc. apply Forall_replicate, Hc. Qed.

Lemma page_fill_lookup m a c x :
  write_bytes m a (page_fill c) !! x =
    if decide (a ≤ x < a + 4096) then Some c else m !! x.
Proof.
  unfold page_fill. rewrite write_bytes_replicate_lookup, Z2Nat.id by done. done.
Qed.

(** A 64-bit store is a write of eight bytes. *)
Lemma store64_write m a v : store64 m a v = write_bytes m a (le_bytes 8 v).
Proof. done. Qed.

Lemma store64_lookup_out m a v x : x < a ∨ a + 8 ≤ x → store64 m a v !! x = m !! x.
Proof. intros H. rewrite store64_write. apply write_bytes_lookup_out. rewrite length_le_bytes. lia. Qed.

Lemma byte_at_store64_out m a v x : x < a ∨ a + 8 ≤ x → byte_at (store64 m a v) x = byte_at m x.
Proof. intros H. unfold byte_at. by rewrite store64_lookup_out. Qed.

Lemma mem_ok_store64 m a v : mem_ok m → mem_ok (store64 m a v).
Proof. intros H. rewrite store64_write. apply mem_ok_write; [done|]. apply le_bytes_range. Qed.

Lemma mem_ok_page_fill m a c : mem_ok m → 0 ≤ c < 256 → mem_ok (write_bytes m a (page_fill c)).
Proof. intros H Hc. apply mem_ok_write; [done|]. by apply page_fill_bytes. Qed.

#[global] Opaque page_fill load64 store64 write_bytes read_bytes.

(** ** A concrete kernel image, of 16 pages, for the examples *)

Program Definition small_image : KernelImage := {|
  kend := KERNBASE + 16 * 4096;
  etext := KERNBASE + 8 * 4096;
  trampoline := KERNBASE + 6 * 4096;
  signalret := KERNBASE + 7 * 4096;
  forkret_addr := KERNBASE + 64
|}.
Next Obligation. unfold PHYSTOP, KERNBASE. lia. Qed.
Next Obligation. unfold KERNBASE, PGSIZE. split; [lia|reflexivity]. Qed.
Next Obligation. unfold KERNBASE, PGSIZE. split; [lia|reflexivity]. Qed.
Next Obligation. unfold KERNBASE, PGSIZE. split; [lia|reflexivity]. Qed.
