(* ===== verification/Kstring.v ===== *)
(** * The kernel's string routines (kernel/string.c)

    [memset] and [memmove] act on physical memory, byte by byte, in the order
    of the C loops.  The routines on nul-terminated strings act on C arrays
    given as lists of bytes; [None] is a read or write past the array. *)

From Stdlib Require Import ZArith Lia.
From stdpp Require Import base gmap strings numbers list.
From S2P Require Import Prelude Spinlock Mem.
Local Open Scope xv6_scope.
Local Transparent write_bytes read_bytes.

Section kstring.
Context `{KI : KernelImage}.

(** ** On memory *)

Fixpoint memset_loop (cdst c : Z) (n : nat) : M kst unit :=
  match n with
  | O => ret tt
  | S n => st8 cdst c;; memset_loop (cdst + 1) c n
  end.

Definition memset (dst c n : Z) : M kst Z := memset_loop dst c (Z.to_nat n);; ret dst.

Fixpoint move_fwd (d s : Z) (n : nat) : M kst unit :=
  match n with
  | O => ret tt
  | S n => b ← ld8 s; st8 d b;; move_fwd (d + 1) (s + 1) n
  end.

Fixpoint move_bwd (d s : Z) (n : nat) : M kst unit :=
  match n with
  | O => ret tt
  | S n => b ← ld8 (s - 1); st8 (d - 1) b;; move_bwd (d - 1) (s - 1) n
  end.

Definition memmove (dst src n : Z) : M kst Z :=
  if n =? 0 then ret dst else
  (if (src <? dst) && (dst <? src + n)
   then move_bwd (dst + n) (src + n) (Z.to_nat n)
   else move_fwd dst src (Z.to_nat n));;
  ret dst.

Definition memcpy (dst src n : Z) : M kst Z := memmove dst src n.

(** ** On arrays *)

Fixpoint memcmp (s1 s2 : list Z) (n : nat) : option Z :=
  match n with
  | O => Some 0
  | S n =>
    match s1, s2 with
    | a :: s1, b :: s2 => if negb (a =? b) then Some (a - b) else memcmp s1 s2 n
    | _, _ => None
    end
  end.

Fixpoint strncmp (p q : list Z) (n : nat) : option Z :=
  match n with
  | O => Some 0
  | S n =>
    match p, q with
    | a :: p, b :: q => if truthy a && (a =? b) then strncmp p q n else Some (u8 a - u8 b)
    | _, _ => None
    end
  end.

(** [while(n-- > 0) *s++ = 0;] *)
Fixpoint zero_pad (s : list Z) (n : nat) : option (list Z) :=
  match n, s with
  | O, _ => Some s
  | S n, _ :: s => cons 0 <$> zero_pad s n
  | S _, [] => None
  end.

Fixpoint strncpy (s t : list Z) (n : nat) : option (list Z) :=
  match n with
  | O => Some s
  | S n =>
    match s, t with
    | _ :: s, c :: t => cons c <$> (if truthy c then strncpy s t n else zero_pad s n)
    | _, _ => None
    end
  end.

(** The loop of [safestrcpy] with [n] iterations left, then [*s = 0]. *)
Fixpoint safestrcpy_loop (s t : list Z) (n : nat) : option (list Z) :=
  match s with
  | [] => None
  | x :: s' =>
    match n with
    | O => Some (0 :: s')
    | S n =>
      match t with
      | c :: t' =>
        cons c <$> (if truthy c then safestrcpy_loop s' t' n
                    else match s' with _ :: s'' => Some (0 :: s'') | [] => None end)
      | [] => None
      end
    end
  end.

Definition safestrcpy (s t : list Z) (n : Z) : option (list Z) :=
  if n <=? 0 then Some s else safestrcpy_loop s t (Z.to_nat (n - 1)).

Fixpoint strlen (s : list Z) : option Z :=
  match s with
  | [] => None
  | c :: s => if truthy c then Z.succ <$> strlen s else Some 0
  end.

(** ** Specifications *)

Lemma kst_mem_id s : set_mem (k_mem s) s = s.
Proof. by destruct s. Qed.

Lemma set_mem_mem m m' s : set_mem m (set_mem m' s) = set_mem m s.
Proof. done. Qed.

Lemma wp_st8 a v s Q :
  writable a 1 = true → Q tt (set_mem (<[a := u8 v]> (k_mem s)) s) → wp (st8 a v) s Q.
Proof. intros Hr HQ. unfold st8. rewrite Hr. done. Qed.

Lemma wp_ld8 a s Q : in_ram a 1 = true → Q (byte_at (k_mem s) a) s → wp (ld8 a) s Q.
Proof. intros Hr HQ. unfold ld8. wp_simpl. by rewrite Hr. Qed.

Lemma wp_memset_loop d c n s Q :
  writable d (Z.of_nat n) = true →
  Q tt (set_mem (write_bytes (k_mem s) d (replicate n (u8 c))) s) →
  wp (memset_loop d c n) s Q.
Proof.
  revert d s. induction n as [|n IH]; intros d s Hr HQ; simpl.
  - wp_simpl. by rewrite <- (kst_mem_id s).
  - wp_simpl. apply wp_st8; [by eapply writable_sub; [exact Hr|lia..]|].
    apply IH; [by eapply writable_sub; [exact Hr|lia..]|]. done.
Qed.

Lemma wp_memset d c n s Q :
  0 ≤ n → writable d n = true →
  Q d (set_mem (write_bytes (k_mem s) d (replicate (Z.to_nat n) (u8 c))) s) →
  wp (memset d c n) s Q.
Proof.
  intros Hn Hr HQ. unfold memset. wp_simpl. apply wp_memset_loop; [|done].
  by rewrite Z2Nat.id.
Qed.

Lemma wp_memset_page d c s Q :
  writable d PGSIZE = true → Q d (set_mem (write_bytes (k_mem s) d (page_fill (u8 c))) s) →
  wp (memset d c PGSIZE) s Q.
Proof. intros Hr HQ. apply wp_memset; done. Qed.

Lemma byte_at_range m a : mem_ok m → 0 ≤ byte_at m a < 256.
Proof. intros Hm. unfold byte_at. destruct (m !! a) eqn:E; simpl; [by eapply Hm|lia]. Qed.

Lemma u8_byte m a : mem_ok m → u8 (byte_at m a) = byte_at m a.
Proof. intros Hm. apply Z.mod_small, byte_at_range, Hm. Qed.

Lemma mem_ok_insert_byte m a b : mem_ok m → mem_ok (<[a := byte_at m b]> m).
Proof.
  intros Hm x y. rewrite lookup_insert. case_decide; [|apply Hm].
  intros [= <-]. by apply byte_at_range.
Qed.

Lemma byte_at_insert_ne m a v x : a ≠ x → byte_at (<[a := v]> m) x = byte_at m x.
Proof. intros. unfold byte_at. by rewrite lookup_insert_ne. Qed.

Lemma wp_move_fwd d sr n s Q :
  mem_ok (k_mem s) → writable d (Z.of_nat n) = true → in_ram sr (Z.of_nat n) = true →
  d ≤ sr ∨ sr + Z.of_nat n ≤ d →
  Q tt (set_mem (write_bytes (k_mem s) d (read_bytes (k_mem s) sr n)) s) →
  wp (move_fwd d sr n) s Q.
Proof.
  revert d sr s. induction n as [|n IH]; intros d sr s Hm Hd Hs Hov HQ; simpl.
  - wp_simpl. by rewrite <- (kst_mem_id s).
  - wp_simpl. apply wp_ld8; [by eapply in_ram_sub; [exact Hs|lia..]|].
    wp_simpl. apply wp_st8; [by eapply writable_sub; [exact Hd|lia..]|]. rewrite u8_byte by done.
    apply IH; simpl.
    + by apply mem_ok_insert_byte.
    + by eapply writable_sub; [exact Hd|lia..].
    + by eapply in_ram_sub; [exact Hs|lia..].
    + lia.
    + rewrite set_mem_mem. rewrite (read_bytes_ext _ (k_mem s)); [done|].
      intros i Hi. apply byte_at_insert_ne. lia.
Qed.

Lemma read_bytes_snoc m a n :
  read_bytes m a (S n) = read_bytes m a n ++ [byte_at m (a + Z.of_nat n)].
Proof.
  revert a. induction n as [|n IH]; intros a; [simpl; by rewrite Z.add_0_r|].
  cbn [read_bytes] in *. rewrite IH. simpl. do 3 f_equal. f_equal. lia.
Qed.

Lemma wp_move_bwd d sr n s Q :
  mem_ok (k_mem s) → writable d (Z.of_nat n) = true → in_ram sr (Z.of_nat n) = true →
  sr ≤ d →
  Q tt (set_mem (write_bytes (k_mem s) d (read_bytes (k_mem s) sr n)) s) →
  wp (move_bwd (d + Z.of_nat n) (sr + Z.of_nat n) n) s Q.
Proof.
  revert s Q. induction n as [|n IH]; intros s Q Hm Hd Hs Hov HQ.
  - simpl. wp_simpl. by rewrite <- (kst_mem_id s).
  - cbn [move_bwd]. replace (d + Z.of_nat (S n) - 1) with (d + Z.of_nat n) by lia.
    replace (sr + Z.of_nat (S n) - 1) with (sr + Z.of_nat n) by lia.
    wp_simpl. apply wp_ld8; [by eapply in_ram_sub; [exact Hs|lia..]|].
    wp_simpl. apply wp_st8; [by eapply writable_sub; [exact Hd|lia..]|]. rewrite u8_byte by done.
    apply IH; simpl.
    + by apply mem_ok_insert_byte.
    + by eapply writable_sub; [exact Hd|lia..].
    + by eapply in_ram_sub; [exact Hs|lia..].
    + lia.
    + rewrite set_mem_mem.
      rewrite (read_bytes_ext _ (k_mem s)) by (intros i Hi; apply byte_at_insert_ne; lia).
      rewrite read_bytes_snoc in HQ. rewrite <- write_bytes_snoc in HQ.
      by rewrite length_read_bytes in HQ.
Qed.

Lemma wp_memmove d sr n s Q :
  mem_ok (k_mem s) → 0 ≤ n → writable d n = true → in_ram sr n = true →
  Q d (set_mem (write_bytes (k_mem s) d (read_bytes (k_mem s) sr (Z.to_nat n))) s) →
  wp (memmove d sr n) s Q.
Proof.
  intros Hm Hn Hd Hs HQ. unfold memmove. destruct (Z.eqb_spec n 0) as [->|Hn0].
  - simpl in HQ. rewrite (kst_mem_id s) in HQ. by wp_simpl.
  - wp_simpl. assert (Z.of_nat (Z.to_nat n) = n) as Hnn by lia.
    destruct ((sr <? d) && (d <? sr + n)) eqn:E.
    + rewrite <- Hnn at 1 2. apply wp_move_bwd; rewrite ?Hnn; try done. lia.
    + apply wp_move_fwd; rewrite ?Hnn; try done. lia.
Qed.

(** [memmove] copies as if through a temporary buffer, whatever the
    overlap of the two ranges: the destination receives the bytes the source
    had before the call, and nothing else changes. *)
Theorem memmove_correct d sr n s :
  mem_ok (k_mem s) → 0 ≤ n → writable d n = true → in_ram sr n = true →
  memmove d sr n s =
    Ret d (set_mem (write_bytes (k_mem s) d (read_bytes (k_mem s) sr (Z.to_nat n))) s).
Proof. intros. by apply wp_eq, wp_memmove. Qed.

End kstring.

Definition bytes (l : list Z) : Prop := Forall (fun b => 0 ≤ b < 256) l.

Ltac truthy c :=
  let E := fresh "E" in
  destruct (truthy c) eqn:E; [apply truthy_true in E | apply truthy_false in E; subst].

Lemma elem_tail c t : 0 ∈ c :: t → c ≠ 0 → 0 ∈ t.
Proof. rewrite list_elem_of_In. simpl. rewrite list_elem_of_In. intuition congruence. Qed.

Lemma strlen_cstr s : 0 ∈ s → strlen s = Some (Z.of_nat (length (cstr s))).
Proof.
  induction s as [|c s IH]; intros H; [by apply not_elem_of_nil in H|]. cbn [strlen cstr].
  truthy c; [|done]. rewrite IH by eauto using elem_tail. cbn [length]. simpl. f_equal. lia.
Qed.

Lemma cstr_nonzero t : Forall (fun c => c ≠ 0) (cstr t).
Proof. induction t as [|c t IH]; simpl; [constructor|]. truthy c; by constructor. Qed.

(** [strncmp] of two nul-terminated strings is zero exactly when they
    agree on their first [n] characters. *)
Theorem strncmp_correct p q n :
  bytes p → bytes q → 0 ∈ p → 0 ∈ q →
  ∃ r, strncmp p q n = Some r ∧ (r = 0 ↔ take n (cstr p) = take n (cstr q)).
Proof.
  intros Hp. revert q n. induction Hp as [|a p Ha Hp IH]; intros q n Hq H0p H0q.
  { by apply not_elem_of_nil in H0p. }
  destruct n as [|n]; [by exists 0|].
  destruct Hq as [|b q Hb Hq]; [by apply not_elem_of_nil in H0q|].
  cbn [strncmp cstr]. truthy a; simpl.
  - destruct (Z.eqb_spec a b) as [<-|Hab].
    + destruct (IH q n) as (r & Hr & Hiff); eauto using elem_tail.
      exists r. split; [done|]. rewrite Hiff. apply truthy_true in E. rewrite E. cbn [take].
      split; [by intros ->|by intros [= H]].
    + eexists. split; [done|]. truthy b; cbn [take].
      * split; [intros; zlia|by intros [= ?]].
      * split; [intros; zlia|done].
  - eexists. split; [done|]. truthy b; cbn [take].
    + split; [intros; zlia|done].
    + done.
Qed.

Lemma zero_pad_eq s n :
  (n ≤ length s)%nat → zero_pad s n = Some (replicate n 0 ++ drop n s).
Proof.
  revert s. induction n as [|n IH]; intros s Hn; [by destruct s|].
  destruct s as [|x s]; simpl in *; [lia|]. rewrite IH by lia. done.
Qed.

Lemma take_replicate_le {A} (x : A) n k : (n ≤ k)%nat → take n (replicate k x) = replicate n x.
Proof. intros. rewrite take_replicate. f_equal. lia. Qed.

(** [strncpy] writes exactly [n] bytes: the first [n] characters of the
    source string, padded with nuls, and nothing past them. *)
Theorem strncpy_correct s t n :
  (n ≤ length s)%nat → 0 ∈ t →
  strncpy s t n = Some (take n (cstr t ++ replicate n 0) ++ drop n s).
Proof.
  revert s t. induction n as [|n IH]; intros s t Hn Ht; [by destruct s|].
  destruct s as [|x s]; simpl in Hn; [lia|].
  destruct t as [|c t]; [by apply not_elem_of_nil in Ht|]. cbn [strncpy cstr].
  truthy c.
  - rewrite IH by (eauto using elem_tail with lia). simpl. do 3 f_equal.
    change (0 :: replicate n 0) with (replicate (S n) 0).
    by rewrite !take_app, !take_replicate_le by lia.
  - rewrite zero_pad_eq by lia. simpl. by rewrite take_replicate_le by lia.
Qed.

Lemma safestrcpy_loop_spec s t n :
  (n < length s)%nat → 0 ∈ t →
  ∃ r, safestrcpy_loop s t n = Some r ∧ length r = length s ∧
       cstr r = take n (cstr t) ∧ drop (S n) r = drop (S n) s.
Proof.
  revert s t. induction n as [|n IH]; intros s t Hn Ht.
  { destruct s as [|x s]; simpl in Hn; [lia|]. by exists (0 :: s). }
  destruct s as [|x s]; simpl in Hn; [lia|].
  destruct t as [|c t]; [by apply not_elem_of_nil in Ht|]. cbn [safestrcpy_loop cstr].
  truthy c.
  - destruct (IH s t) as (r & Hr & Hl & Hc & Hd); [lia|eauto using elem_tail|].
    exists (c :: r). rewrite Hr. apply truthy_true in E. simpl. rewrite E, Hl, Hc. done.
  - destruct s as [|y s]; simpl in Hn; [lia|]. exists (0 :: 0 :: s). done.
Qed.

(** [safestrcpy] always leaves a nul-terminated string: the source
    truncated to [n - 1] characters, writing nothing past the first [n]
    bytes of the destination. *)
Theorem safestrcpy_correct s t n :
  0 < n → n ≤ Z.of_nat (length s) → 0 ∈ t →
  ∃ r, safestrcpy s t n = Some r ∧ length r = length s ∧
       cstr r = take (Z.to_nat (n - 1)) (cstr t) ∧
       (length (cstr r) < Z.to_nat n)%nat ∧
       drop (Z.to_nat n) r = drop (Z.to_nat n) s.
Proof.
  intros Hn Hs Ht. unfold safestrcpy. destruct (Z.leb_spec n 0); [lia|].
  destruct (safestrcpy_loop_spec s t (Z.to_nat (n - 1))) as (r & Hr & Hl & Hc & Hd); [lia|done|].
  replace (S (Z.to_nat (n - 1))) with (Z.to_nat n) in Hd by lia.
  exists r. split_and!; try done. rewrite Hc, length_take. lia.
Qed.

(** "sh" copied over a 16-byte process name. *)
Lemma safestrcpy_correct_witness :
  ∃ r, safestrcpy (replicate 16 7) [115; 104; 0] 16 = Some r ∧ length r = 16%nat ∧
       cstr r = [115; 104].
Proof.
  destruct (safestrcpy_correct (replicate 16 7) [115; 104; 0] 16) as (r & Hr & Hl & Hc & _ & _).
  - lia.
  - simpl. lia.
  - apply list_elem_of_In. simpl. tauto.
  - exists r. split; [exact Hr|]. split; [exact Hl|]. rewrite Hc. reflexivity.
Defined.

Lemma strncpy_correct_witness :
  strncpy (replicate 14 9) [46; 46; 0] 14 = Some ([46; 46] ++ replicate 12 0).
Proof.
  rewrite (strncpy_correct (replicate 14 9) [46; 46; 0] 14).
  - reflexivity.
  - simpl. lia.
  - apply list_elem_of_In. simpl. tauto.
Defined.

Lemma strncmp_correct_witness :
  ∃ r, strncmp [46; 46; 0] [46; 0] 14 = Some r ∧
       (r = 0 ↔ take 14 (cstr [46; 46; 0]) = take 14 (cstr [46; 0])).
Proof.
  apply (strncmp_correct [46; 46; 0] [46; 0] 14).
  - repeat constructor; lia.
  - repeat constructor; lia.
  - apply list_elem_of_In. simpl. tauto.
  - apply list_elem_of_In. simpl. tauto.
Defined.

#[local] Existing Instance small_image.

(** Two overlapping ranges: bytes 1 2 3 4 moved up by one. *)
Definition overlap_st : kst :=
  Kst boot_mach (write_bytes ∅ (kend) [1; 2; 3; 4; 9]) 0.

Lemma memmove_correct_witness :
  memmove (kend + 1) (kend) 4 overlap_st =
    Ret (kend + 1) (set_mem (write_bytes ∅ (kend) [1; 1; 2; 3; 4]) overlap_st).
Proof.
  rewrite (memmove_correct (kend + 1) (kend) 4 overlap_st).
  - vm_compute. reflexivity.
  - apply mem_ok_write; [by intros a b; rewrite lookup_empty|]. repeat constructor; lia.
  - lia.
  - reflexivity.
  - reflexivity.
Defined.
