(* ===== verification/Kalloc.v ===== *)
(** * The physical page allocator (kernel/kalloc.c)

    The free list is threaded through the free pages themselves: the first
    eight bytes of a free page hold the address of the next one.  [kmem_inv s l]
    says that the list in memory is [l]. *)

From Stdlib Require Import ZArith Lia.
From stdpp Require Import base gmap strings numbers list.
From S2P Require Import Prelude Spinlock Mem Kstring.
Local Open Scope xv6_scope.

Section kalloc.
Context `{KI : KernelImage}.

(** ** Operations *)

Definition kfree (pa : Z) : M kst unit :=
  when (truthy (pa mod PGSIZE) || (pa <? kend) || (PHYSTOP <=? pa)) (panic "kfree");;
  memset pa 1 PGSIZE;;
  onm (acquire L_kmem);;
  fl ← gets k_freelist;
  st64 pa fl;;
  modify (set_freelist pa);;
  onm (release L_kmem).

Definition kalloc : M kst Z :=
  onm (acquire L_kmem);;
  r ← gets k_freelist;
  when (truthy r) (nxt ← ld64 r; modify (set_freelist nxt));;
  onm (release L_kmem);;
  when (truthy r) (memset r 5 PGSIZE;; ret tt);;
  ret r.

(** [for(; p + PGSIZE <= pa_end; p += PGSIZE) kfree(p);] *)
Fixpoint freerange_loop (fuel : nat) (p pa_end : Z) : M kst unit :=
  if p + PGSIZE <=? pa_end then
    match fuel with
    | O => out_of_fuel
    | S fuel => kfree p;; freerange_loop fuel (p + PGSIZE) pa_end
    end
  else ret tt.

Definition freerange (pa_start pa_end : Z) : M kst unit :=
  let p := PGROUNDUP pa_start in
  freerange_loop (Z.to_nat ((pa_end - p) / PGSIZE)) p pa_end.

Definition kinit : M kst unit :=
  onm (initlock L_kmem "kmem");;
  freerange kend PHYSTOP.

(** ** The invariant *)

Definition page_ok (pa : Z) : Prop := pa mod 4096 = 0 ∧ kend ≤ pa ∧ pa + 4096 ≤ PHYSTOP.

Fixpoint fl_at (m : gmap Z Z) (p : Z) (l : list Z) : Prop :=
  match l with [] => p = 0 | r :: l => p = r ∧ fl_at m (load64 m r) l end.

Record kmem_inv (s : kst) (l : list Z) : Prop := {
  ki_mach : mach_ok (k_mach s);
  ki_lock : lock_free L_kmem (k_mach s);
  ki_list : fl_at (k_mem s) (k_freelist s) l;
  ki_nodup : NoDup l;
  ki_pages : Forall page_ok l;
  ki_mem : mem_ok (k_mem s)
}.

Lemma page_ok_pos pa : page_ok pa → 0 < pa < 2 ^ 64.
Proof. unfold page_ok. pose proof kend_range. unfold PHYSTOP, KERNBASE in *. lia. Qed.

Lemma page_ok_ram pa : page_ok pa → in_ram pa PGSIZE = true.
Proof. unfold page_ok, in_ram. pose proof kend_range. unfold PGSIZE. lia. Qed.

Lemma page_ok_writable pa : page_ok pa → writable pa PGSIZE = true.
Proof.
  unfold page_ok, writable. pose proof kend_range. pose proof etext_range. unfold PGSIZE. lia.
Qed.

Lemma page_ok_writable_sub pa i k : page_ok pa → 0 ≤ i → i + k ≤ 4096 → writable (pa + i) k = true.
Proof.
  intros H Hi Hk. eapply writable_sub; [by apply page_ok_writable|lia|]. unfold PGSIZE. lia.
Qed.

Lemma page_ok_ram_sub pa i k : page_ok pa → 0 ≤ i → i + k ≤ 4096 → in_ram (pa + i) k = true.
Proof.
  intros H Hi Hk. eapply in_ram_sub; [by apply page_ok_ram|lia|]. unfold PGSIZE. lia.
Qed.

Lemma pages_disjoint p q : page_ok p → page_ok q → p ≠ q → p + 4096 ≤ q ∨ q + 4096 ≤ p.
Proof. unfold page_ok. intros. zlia. Qed.

Lemma fl_at_ext m m' p l :
  (∀ r i, r ∈ l → 0 ≤ i < 8 → byte_at m (r + i) = byte_at m' (r + i)) →
  fl_at m p l → fl_at m' p l.
Proof.
  revert p. induction l as [|r l IH]; intros p Hext; simpl; [done|].
  intros [-> Hl]. split; [done|]. rewrite <- (load64_ext m m').
  - apply IH; [|done]. intros. apply Hext; [by right|done].
  - intros i Hi. apply Hext; [by left|done].
Qed.

Lemma fl_at_head m p l : fl_at m p l → Forall page_ok l → p = 0 ↔ l = [].
Proof.
  destruct l as [|r l]; simpl; [done|]. intros [-> _] [Hp _]%Forall_cons.
  apply page_ok_pos in Hp. split; [lia|done].
Qed.

(** A write inside a page that is not on the list keeps the list. *)
Lemma fl_at_write m p l pa bs a :
  page_ok pa → pa ∉ l → Forall page_ok l →
  pa ≤ a → a + Z.of_nat (length bs) ≤ pa + 4096 →
  fl_at m p l → fl_at (write_bytes m a bs) p l.
Proof.
  intros Hpa Hni Hl Ha1 Ha2. apply fl_at_ext. intros r i Hr Hi. symmetry.
  apply byte_at_write_out. rewrite Forall_forall in Hl.
  destruct (pages_disjoint pa r Hpa (Hl r Hr)); [congruence|lia|lia].
Qed.

(** ** Specifications *)

Lemma kmem_inv_mach s l m : kmem_inv s l → m ≡ k_mach s → kmem_inv (set_mach m s) l.
Proof. intros [] Hm. split; simpl; rewrite ?Hm; done. Qed.

Lemma wp_kalloc s l Q :
  kmem_inv s l →
  (∀ s', l = [] → kmem_inv s' [] → k_mem s' = k_mem s → k_mach s' ≡ k_mach s → Q 0 s') →
  (∀ r l' s', l = r :: l' → kmem_inv s' l' → page_ok r → r ∉ l' →
     k_mem s' = write_bytes (k_mem s) r (page_fill 5) → k_mach s' ≡ k_mach s → Q r s') →
  wp kalloc s Q.
Proof.
  intros [Hok Hlk Hfl Hnd Hpg Hm] Q0 Q1. unfold kalloc. wp_simpl.
  apply wp_acquire_k; [done|done|]. wp_simpl. simpl.
  destruct l as [|r l']; simpl in Hfl.
  - rewrite Hfl. simpl. wp_simpl.
    eapply (wp_release_k L_kmem (k_mach s)); [done|done|done|]. intros m' Hm'. wp_simpl.
    simpl. wp_simpl. apply Q0; [done| |done|done]. split; simpl; rewrite ?Hm'; done || constructor.
  - destruct Hfl as [Hr Hfl]. apply Forall_cons in Hpg as [Hpr Hpg].
    apply NoDup_cons in Hnd as [Hni Hnd].
    pose proof (page_ok_pos r Hpr). rewrite Hr.
    assert (truthy r = true) as -> by (apply truthy_true; lia). simpl. wp_simpl.
    apply wp_ld64.
    { rewrite <- (Z.add_0_r r). by apply page_ok_ram_sub. }
    wp_simpl. eapply (wp_release_k L_kmem (k_mach s)); [done|done|done|].
    intros m' Hm'. wp_simpl. apply wp_memset_page; [by apply page_ok_writable|]. wp_simpl.
    eapply Q1; [done| |done|done|done|done]. split; simpl; rewrite ?Hm'; [done..| | | |].
    + apply (fl_at_write _ _ _ r); rewrite ?length_page_fill; done.
    + done.
    + done.
    + by apply mem_ok_page_fill.
Qed.

Lemma wp_kfree s l pa Q :
  kmem_inv s l → page_ok pa → pa ∉ l →
  (∀ s', kmem_inv s' (pa :: l) →
     (∀ x, x < pa ∨ pa + 4096 ≤ x → k_mem s' !! x = k_mem s !! x) →
     k_mach s' ≡ k_mach s → Q tt s') →
  wp (kfree pa) s Q.
Proof.
  intros [Hok Hlk Hfl Hnd Hpg Hm] Hpa Hni HQ. unfold kfree. wp_simpl.
  pose proof (page_ok_pos pa Hpa) as Hpos.
  assert (truthy (pa mod PGSIZE) || (pa <? kend) || (PHYSTOP <=? pa) = false) as ->.
  { destruct Hpa as (Hal & H1 & H2). unfold truthy, PGSIZE. rewrite Hal. simpl. lia. }
  simpl. wp_simpl. apply wp_memset_page; [by apply page_ok_writable|]. wp_simpl.
  apply wp_acquire_k; [done|done|]. wp_simpl. simpl.
  apply wp_st64; [rewrite <- (Z.add_0_r pa); by apply page_ok_writable_sub|]. wp_simpl.
  eapply (wp_release_k L_kmem (k_mach s)); [done|done|done|]. intros m' Hm'.
  set (m1 := write_bytes (k_mem s) pa (page_fill (u8 1))).
  assert (fl_at m1 (k_freelist s) l) as Hfl1.
  { apply (fl_at_write _ _ _ pa); rewrite ?length_page_fill; done. }
  assert (0 ≤ k_freelist s < 2 ^ 64) as Hfr.
  { destruct l as [|r l']; simpl in Hfl; [lia|]. destruct Hfl as [-> _].
    apply Forall_cons in Hpg as [Hr _]. apply page_ok_pos in Hr. lia. }
  apply HQ; simpl; [|intros x Hx|done].
  - split; simpl; rewrite ?Hm'; [done..| | | |].
    + split; [done|]. rewrite load_store64_same, store64_write by done.
      apply (fl_at_write _ _ _ pa); rewrite ?length_le_bytes; try done. lia.
    + by constructor.
    + by constructor.
    + by apply mem_ok_store64, mem_ok_page_fill.
  - unfold m1. rewrite store64_lookup_out, page_fill_lookup by lia. by rewrite decide_False by lia.
Qed.

Lemma wp_freerange_loop fuel p pa_end s l :
  kmem_inv s l → p mod 4096 = 0 → kend ≤ p → pa_end ≤ PHYSTOP →
  (∀ r, r ∈ l → r + 4096 ≤ p) → (pa_end - p) / 4096 ≤ Z.of_nat fuel →
  wp (freerange_loop fuel p pa_end) s (fun _ s' =>
    ∃ l', kmem_inv s' l' ∧ k_mach s' ≡ k_mach s ∧
      ∀ r, r ∈ l' ↔ r ∈ l ∨ (r mod 4096 = 0 ∧ p ≤ r ∧ r + 4096 ≤ pa_end)).
Proof.
  revert p s l. induction fuel as [|fuel IH]; intros p s l Hinv Hal Hend Hstop Hl Hf;
    cbn [freerange_loop]; destruct (Z.leb_spec (p + PGSIZE) pa_end) as [Hle|Hgt]; unfold PGSIZE in *.
  - zlia.
  - wp_simpl. exists l. split; [done|]. split; [done|]. intros r. split; [by left|].
    intros [?|?]; [done|]. lia.
  - assert (page_ok p) as Hp by (unfold page_ok; lia). wp_simpl.
    eapply wp_kfree; [done|done| |].
    { intros Hin. apply Hl in Hin. lia. }
    intros s1 Hinv1 _ Hm1. eapply wp_mono.
    + apply (IH (p + 4096) s1 (p :: l)); [done| |lia|lia| |].
      * zlia.
      * intros r [->|Hr%Hl]%elem_of_cons; lia.
      * zlia.
    + cbn beta. intros _ s' (l' & Hi' & Hm' & Hl'). exists l'. split; [done|].
      split; [by rewrite Hm'|]. intros r. rewrite Hl', elem_of_cons. split.
      * intros [[->|?]|?]; [right; lia|by left|right; lia].
      * intros [?|(H1 & H2 & H3)]; [auto|].
        destruct (decide (r = p)); [auto|]. right. zlia.
  - wp_simpl. exists l. split; [done|]. split; [done|]. intros r. split; [by left|].
    intros [?|?]; [done|]. lia.
Qed.

Lemma PGROUNDUP_up a : 0 ≤ a → a + 4095 < 2 ^ 64 →
  PGROUNDUP a mod 4096 = 0 ∧ a ≤ PGROUNDUP a ∧
  (∀ r, r mod 4096 = 0 → a ≤ r → PGROUNDUP a ≤ r).
Proof.
  intros H1 H2. rewrite PGROUNDUP_eq by done. split; [zlia|]. split; [zlia|]. intros. zlia.
Qed.

Lemma mach_ok_initlock lk name m : mach_ok m → mach_ok (set_lock lk (Spinlock 0 name None) m).
Proof. done. Qed.

(** ** Theorems *)

(** [kalloc] returns 0 exactly when the free list is empty; otherwise it
    returns the first free page, takes it off the list, fills it with 5s and
    changes no other byte of memory; the lock is back as it was. *)
Theorem kalloc_correct s l :
  kmem_inv s l →
  wp kalloc s (fun r s' =>
    k_mach s' ≡ k_mach s ∧
    match l with
    | [] => r = 0 ∧ kmem_inv s' [] ∧ k_mem s' = k_mem s
    | p :: l' => r = p ∧ page_ok r ∧ (r ∉ l') ∧ kmem_inv s' l' ∧
        ∀ x, k_mem s' !! x = if decide (r ≤ x < r + 4096) then Some 5 else k_mem s !! x
    end).
Proof.
  intros Hinv. eapply wp_kalloc; [done| |].
  - intros s' -> Hi Hm Hmach. done.
  - intros r l' s' -> Hi Hp Hni Hm Hmach. do 5 (split; [done|]). intros x. rewrite Hm. apply page_fill_lookup.
Qed.

(** [kfree] of a page of kernel memory that is not on the free list puts
    it at the head of the list and changes only bytes of that page. *)
Theorem kfree_correct s l pa :
  kmem_inv s l → page_ok pa → pa ∉ l →
  wp (kfree pa) s (fun _ s' =>
    k_mach s' ≡ k_mach s ∧ kmem_inv s' (pa :: l) ∧
    ∀ x, x < pa ∨ pa + 4096 ≤ x → k_mem s' !! x = k_mem s !! x).
Proof. intros Hinv Hp Hni. eapply wp_kfree; [done|done|done|]. done. Qed.

(** [kfree] panics on every address that is not a page of the allocator's
    range: misaligned, inside the kernel image, or past the end of RAM. *)
Theorem kfree_rejects s pa : ¬ page_ok pa → kfree pa s = Panic "kfree".
Proof.
  intros Hn. unfold kfree. apply bind_panic.
  assert (truthy (pa mod PGSIZE) || (pa <? kend) || (PHYSTOP <=? pa) = true) as ->; [|done].
  destruct (truthy (pa mod PGSIZE)) eqn:E; [done|]. apply truthy_false in E.
  unfold page_ok, PGSIZE, PHYSTOP, KERNBASE in *. simpl.
  destruct (Z.ltb_spec pa kend); simpl; [done|]. apply Z.leb_le.
  destruct (decide (2147483648 + 128 * 1024 * 1024 ≤ pa)); [done|]. exfalso. apply Hn.
  split; [done|]. split; [done|]. zlia.
Qed.

(** After [kinit] the free list holds, once each, exactly the whole pages
    between the end of the kernel and the end of RAM. *)
Theorem kinit_correct s :
  mach_ok (k_mach s) → mem_ok (k_mem s) → k_freelist s = 0 →
  wp kinit s (fun _ s' => ∃ l, kmem_inv s' l ∧ ∀ pa, page_ok pa ↔ pa ∈ l).
Proof.
  intros Hok Hm Hfl. unfold kinit, onm, initlock. wp_simpl.
  set (s1 := set_mach _ s).
  assert (kmem_inv s1 []) as Hinv.
  { split; simpl; [by apply mach_ok_initlock| |done|constructor|constructor|done].
    eexists. simpl. by rewrite lookup_insert_eq. }
  destruct (PGROUNDUP_up kend) as (Hal & Hup & Hleast);
    [pose proof kend_range; unfold PHYSTOP, KERNBASE in *; lia..|].
  unfold freerange. eapply wp_mono.
  - apply (wp_freerange_loop _ _ PHYSTOP s1 []); [done|done|done|done| |].
    + intros r Hr. by apply not_elem_of_nil in Hr.
    + unfold PGSIZE. lia.
  - cbn beta. intros _ s' (l' & Hi & _ & Hl'). exists l'. split; [done|].
    intros pa. rewrite Hl'. unfold page_ok. split.
    + intros (H1 & H2 & H3). right. split; [done|]. split; [by apply Hleast|done].
    + intros [Hr|(H1 & H2 & H3)]; [by apply not_elem_of_nil in Hr|]. lia.
Qed.

(** Freeing the page just allocated restores the free list. *)
Theorem kalloc_kfree_roundtrip s r l :
  kmem_inv s (r :: l) →
  wp (pa ← kalloc; kfree pa) s (fun _ s' => kmem_inv s' (r :: l) ∧ k_mach s' ≡ k_mach s).
Proof.
  intros Hinv. wp_simpl. eapply wp_kalloc; [done|done|].
  intros r' l' s' [= <- <-] Hi Hp Hni _ Hmach.
  eapply wp_kfree; [done|done|done|]. intros s2 Hi2 _ Hm2. split; [done|]. by rewrite Hm2.
Qed.

End kalloc.

#[export] Hint Resolve page_ok_ram page_ok_pos : mach.

(** ** A concrete machine *)

#[local] Existing Instance small_image.

(** [n] free pages, linked in ascending order. *)
Definition page_no (i : nat) : Z := KERNBASE + (20 + Z.of_nat i) * 4096.
Fixpoint link_pages (m : gmap Z Z) (i n : nat) : gmap Z Z :=
  match n with
  | O => m
  | S n => link_pages (store64 m (page_no i) (match n with O => 0 | _ => page_no (S i) end)) (S i) n
  end.
Definition small_st (n : nat) : kst :=
  Kst boot_mach (link_pages ∅ 0 n) (match n with O => 0 | _ => page_no 0 end).

Lemma mem_ok_link m i n : mem_ok m → mem_ok (link_pages m i n).
Proof. revert m i. induction n; intros m i Hm; simpl; [done|]. by apply IHn, mem_ok_store64. Qed.

Lemma mem_ok_empty : mem_ok ∅.
Proof. intros a b. by rewrite lookup_empty. Qed.

Lemma small_st_inv : kmem_inv (small_st 3) [page_no 0; page_no 1; page_no 2].
Proof.
  split.
  - apply boot_mach_ok.
  - by exists "kmem"%string.
  - vm_compute. done.
  - apply (bool_decide_unpack _). vm_compute. done.
  - repeat constructor; vm_compute; done.
  - apply mem_ok_link, mem_ok_empty.
Qed.

Lemma kalloc_correct_witness :
  kmem_inv (small_st 3) [page_no 0; page_no 1; page_no 2] ∧
  wp kalloc (small_st 3) (fun r s' => k_mach s' ≡ boot_mach ∧ r = page_no 0).
Proof.
  split; [exact small_st_inv|].
  eapply wp_mono; [exact (kalloc_correct (small_st 3) _ small_st_inv)|].
  intros r s' (H1 & H2 & _). exact (conj H1 H2).
Defined.

Lemma kfree_correct_witness :
  wp (kfree (page_no 7)) (small_st 3) (fun _ s' =>
    kmem_inv s' [page_no 7; page_no 0; page_no 1; page_no 2]).
Proof.
  eapply wp_mono.
  - apply (kfree_correct (small_st 3) _ (page_no 7) small_st_inv).
    + vm_compute. done.
    + apply (bool_decide_unpack _). vm_compute. done.
  - intros u s' (_ & H & _). exact H.
Defined.

Lemma kfree_rejects_witness : kfree (page_no 0 + 8) (small_st 3) = Panic "kfree".
Proof. apply kfree_rejects. vm_compute. intros [H _]. done. Defined.

Lemma kinit_correct_witness :
  wp kinit (Kst boot_mach ∅ 0) (fun _ s' => ∃ l, kmem_inv s' l ∧ ∀ pa, page_ok pa ↔ pa ∈ l).
Proof. apply kinit_correct; [apply boot_mach_ok|apply mem_ok_empty|reflexivity]. Defined.

Lemma kalloc_kfree_roundtrip_witness :
  wp (pa ← kalloc; kfree pa) (small_st 3)
    (fun _ s' => kmem_inv s' [page_no 0; page_no 1; page_no 2] ∧ k_mach s' ≡ boot_mach).
Proof. apply (kalloc_kfree_roundtrip (small_st 3) _ _ small_st_inv). Defined.
