(* ===== verification/Vm.v ===== *)
(** * Virtual memory: the operations (kernel/vm.c)

    Sv39 page tables in physical memory.  A page table is the address of its
    root page; a PTE pointer is the address of the entry, 0 for the null
    pointer.  The C loops without a structural bound run with fuel that covers
    every iteration the C code can make. *)

From Stdlib Require Import ZArith Lia.
From stdpp Require Import base gmap strings numbers list.
From S2P Require Import Prelude Spinlock Mem Kstring Kalloc.
Local Open Scope xv6_scope.

(** ** Page-table entries (riscv.h) *)

Definition PTE_V : Z := Z.shiftl 1 0.
Definition PTE_R : Z := Z.shiftl 1 1.
Definition PTE_W : Z := Z.shiftl 1 2.
Definition PTE_X : Z := Z.shiftl 1 3.
Definition PTE_U : Z := Z.shiftl 1 4.

Definition PA2PTE (pa : Z) : Z := u64 (Z.shiftl (Z.shiftr pa 12) 10).
Definition PTE2PA (pte : Z) : Z := u64 (Z.shiftl (Z.shiftr pte 10) 12).
Definition PTE_FLAGS (pte : Z) : Z := Z.land pte 1023.   (* 0x3FF *)

Definition PXSHIFT (level : nat) : Z := 12 + 9 * Z.of_nat level.
Definition PX (level : nat) (va : Z) : Z := Z.land (Z.shiftr va (PXSHIFT level)) 511.

Section vm.
Context `{KI : KernelImage}.

(** ** Walking *)

(** The [for] loop of [walk] from [level] down. *)
Fixpoint walk_loop (level : nat) (pagetable va : Z) (alloc : bool) : M kst Z :=
  match level with
  | O => ret (pagetable + 8 * PX 0 va)
  | S level' =>
    let pte := pagetable + 8 * PX level va in
    v ← ld64 pte;
    if truthy (Z.land v PTE_V) then walk_loop level' (PTE2PA v) va alloc
    else if negb alloc then ret 0
    else
      pt ← kalloc;
      if pt =? 0 then ret 0
      else
        memset pt 0 PGSIZE;;
        st64 pte (Z.lor (PA2PTE pt) PTE_V);;
        walk_loop level' pt va alloc
  end.

Definition walk (pagetable va : Z) (alloc : bool) : M kst Z :=
  when (MAXVA <=? va) (panic "walk");;
  walk_loop 2 pagetable va alloc.

Definition walkaddr (pagetable va : Z) : M kst Z :=
  if MAXVA <=? va then ret 0 else
  pte ← walk pagetable va false;
  if pte =? 0 then ret 0 else
  v ← ld64 pte;
  if Z.land v PTE_V =? 0 then ret 0 else
  if Z.land v PTE_U =? 0 then ret 0 else
  ret (PTE2PA v).

(** ** Mapping *)

Fixpoint mappages_loop (fuel : nat) (pagetable a last pa perm : Z) : M kst Z :=
  match fuel with
  | O => out_of_fuel
  | S fuel =>
    pte ← walk pagetable a true;
    if pte =? 0 then ret (-1) else
    v ← ld64 pte;
    when (truthy (Z.land v PTE_V)) (panic "mappages: remap");;
    st64 pte (Z.lor (Z.lor (PA2PTE pa) perm) PTE_V);;
    if a =? last then ret 0
    else mappages_loop fuel pagetable (u64 (a + PGSIZE)) last (u64 (pa + PGSIZE)) perm
  end.

(** The loop stops at [last], or panics in [walk] past [MAXVA]. *)
Definition mappages (pagetable va size pa perm : Z) : M kst Z :=
  when (size =? 0) (panic "mappages: size");;
  let a := PGROUNDDOWN va in
  let last := PGROUNDDOWN (u64 (va + size - 1)) in
  let fuel := if a <=? last then (last - a) / PGSIZE + 1 else (MAXVA - a) / PGSIZE + 2 in
  mappages_loop (Z.to_nat fuel) pagetable a last pa perm.

Definition kvmmap (kpgtbl va pa sz perm : Z) : M kst unit :=
  r ← mappages kpgtbl va sz pa perm;
  when (negb (r =? 0)) (panic "kvmmap").

(** [for(a = va; a < va + npages*PGSIZE; a += PGSIZE)], [n] iterations left. *)
Fixpoint uvmunmap_loop (n : nat) (pagetable a : Z) (do_free : bool) : M kst unit :=
  match n with
  | O => ret tt
  | S n =>
    pte ← walk pagetable a false;
    when (pte =? 0) (panic "uvmunmap: walk");;
    v ← ld64 pte;
    when (Z.land v PTE_V =? 0) (panic "uvmunmap: not mapped");;
    when (PTE_FLAGS v =? PTE_V) (panic "uvmunmap: not a leaf");;
    when do_free (kfree (PTE2PA v));;
    st64 pte 0;;
    uvmunmap_loop n pagetable (a + PGSIZE) do_free
  end.

Definition uvmunmap (pagetable va npages : Z) (do_free : bool) : M kst unit :=
  when (truthy (va mod PGSIZE)) (panic "uvmunmap: not aligned");;
  let last := u64 (va + u64 (npages * PGSIZE)) in
  uvmunmap_loop (Z.to_nat ((last - va) / PGSIZE)) pagetable va do_free.

(** ** User address spaces *)

Definition uvmcreate : M kst Z :=
  pagetable ← kalloc;
  if pagetable =? 0 then ret 0 else
  memset pagetable 0 PGSIZE;;
  ret pagetable.

(** [memmove] from an object of the kernel's own data to memory. *)
Fixpoint copy_from_kernel (dst : Z) (src : list Z) : M kst unit :=
  match src with
  | [] => ret tt
  | b :: src => st8 dst b;; copy_from_kernel (dst + 1) src
  end.

(** ... and from memory to such an object: the bytes it receives. *)
Fixpoint copy_to_kernel (src : Z) (n : nat) : M kst (list Z) :=
  match n with
  | O => ret []
  | S n => b ← ld8 src; bs ← copy_to_kernel (src + 1) n; ret (b :: bs)
  end.

Definition uvmfirst (pagetable : Z) (src : list Z) : M kst unit :=
  when (PGSIZE <=? Z.of_nat (length src)) (panic "uvmfirst: more than a page");;
  mem ← kalloc;
  memset mem 0 PGSIZE;;
  mappages pagetable 0 PGSIZE mem (Z.lor (Z.lor (Z.lor PTE_W PTE_R) PTE_X) PTE_U);;
  copy_from_kernel mem src.

Definition uvmdealloc (pagetable oldsz newsz : Z) : M kst Z :=
  if oldsz <=? newsz then ret oldsz else
  when (PGROUNDUP newsz <? PGROUNDUP oldsz)
    (let npages := i32 ((PGROUNDUP oldsz - PGROUNDUP newsz) / PGSIZE) in
     uvmunmap pagetable (PGROUNDUP newsz) (u64 npages) true);;
  ret newsz.

Fixpoint uvmalloc_loop (fuel : nat) (pagetable a oldsz newsz xperm : Z) : M kst Z :=
  if negb (a <? newsz) then ret newsz else
  match fuel with
  | O => out_of_fuel
  | S fuel =>
    mem ← kalloc;
    if mem =? 0 then uvmdealloc pagetable a oldsz;; ret 0 else
    memset mem 0 PGSIZE;;
    r ← mappages pagetable a PGSIZE mem (Z.lor (Z.lor PTE_R PTE_U) xperm);
    if negb (r =? 0) then kfree mem;; uvmdealloc pagetable a oldsz;; ret 0
    else uvmalloc_loop fuel pagetable (u64 (a + PGSIZE)) oldsz newsz xperm
  end.

Definition uvmalloc (pagetable oldsz newsz xperm : Z) : M kst Z :=
  if newsz <? oldsz then ret oldsz else
  let oldsz := PGROUNDUP oldsz in
  uvmalloc_loop (Z.to_nat ((newsz - oldsz) / PGSIZE + 1)) pagetable oldsz oldsz newsz xperm.

(** [freewalk] recurses once per level; [rec] frees a child table. *)
Fixpoint freewalk_entries (rec : Z → M kst unit) (pagetable : Z) (i : Z) (n : nat) : M kst unit :=
  match n with
  | O => ret tt
  | S n =>
    pte ← ld64 (pagetable + 8 * i);
    (if truthy (Z.land pte PTE_V) && (Z.land pte (Z.lor (Z.lor PTE_R PTE_W) PTE_X) =? 0) then
       rec (PTE2PA pte);; st64 (pagetable + 8 * i) 0
     else when (truthy (Z.land pte PTE_V)) (panic "freewalk: leaf"));;
    freewalk_entries rec pagetable (i + 1) n
  end.

Fixpoint freewalk (depth : nat) (pagetable : Z) : M kst unit :=
  match depth with
  | O => out_of_fuel
  | S depth => freewalk_entries (freewalk depth) pagetable 0 512;; kfree pagetable
  end.

(** A page table has three levels. *)
Definition uvmfree (pagetable sz : Z) : M kst unit :=
  when (0 <? sz) (uvmunmap pagetable 0 (PGROUNDUP sz / PGSIZE) true);;
  freewalk 3 pagetable.

Fixpoint uvmcopy_loop (fuel : nat) (old new i sz : Z) : M kst Z :=
  if negb (i <? sz) then ret 0 else
  match fuel with
  | O => out_of_fuel
  | S fuel =>
    pte ← walk old i false;
    when (pte =? 0) (panic "uvmcopy: pte should exist");;
    v ← ld64 pte;
    when (Z.land v PTE_V =? 0) (panic "uvmcopy: page not present");;
    let pa := PTE2PA v in
    let flags := PTE_FLAGS v in
    mem ← kalloc;
    if mem =? 0 then uvmunmap new 0 (i / PGSIZE) true;; ret (-1) else
    memmove mem pa PGSIZE;;
    r ← mappages new i PGSIZE mem flags;
    if negb (r =? 0) then
      kfree mem;; uvmunmap new 0 (i / PGSIZE) true;; ret (-1)
    else uvmcopy_loop fuel old new (i + PGSIZE) sz
  end.

Definition uvmcopy (old new sz : Z) : M kst Z :=
  uvmcopy_loop (Z.to_nat ((sz + PGSIZE - 1) / PGSIZE)) old new 0 sz.

Definition uvmclear (pagetable va : Z) : M kst unit :=
  pte ← walk pagetable va false;
  when (pte =? 0) (panic "uvmclear");;
  v ← ld64 pte;
  st64 pte (Z.land v (Z.lnot PTE_U)).

(** ** Copying between kernel and user space *)

Fixpoint copyout_loop (fuel : nat) (pagetable dstva : Z) (src : list Z) : M kst Z :=
  match src with
  | [] => ret 0
  | _ :: _ =>
    match fuel with
    | O => out_of_fuel
    | S fuel =>
      let len := Z.of_nat (length src) in
      let va0 := PGROUNDDOWN dstva in
      pa0 ← walkaddr pagetable va0;
      if pa0 =? 0 then ret (-1) else
      let n := PGSIZE - (dstva - va0) in
      let n := if len <? n then len else n in
      copy_from_kernel (pa0 + (dstva - va0)) (take (Z.to_nat n) src);;
      copyout_loop fuel pagetable (u64 (va0 + PGSIZE)) (drop (Z.to_nat n) src)
    end
  end.

Definition copyout (pagetable dstva : Z) (src : list Z) : M kst Z :=
  copyout_loop (length src) pagetable dstva src.

(** The result and the bytes stored to [dst] so far. *)
Fixpoint copyin_loop (fuel : nat) (pagetable srcva len : Z) : M kst (Z * list Z) :=
  if negb (0 <? len) then ret (0, []) else
  match fuel with
  | O => out_of_fuel
  | S fuel =>
    let va0 := PGROUNDDOWN srcva in
    pa0 ← walkaddr pagetable va0;
    if pa0 =? 0 then ret (-1, []) else
    let n := PGSIZE - (srcva - va0) in
    let n := if len <? n then len else n in
    bs ← copy_to_kernel (pa0 + (srcva - va0)) (Z.to_nat n);
    '(r, rest) ← copyin_loop fuel pagetable (u64 (va0 + PGSIZE)) (len - n);
    ret (r, bs ++ rest)
  end.

Definition copyin (pagetable srcva len : Z) : M kst (Z * list Z) :=
  copyin_loop (Z.to_nat len) pagetable srcva len.

(** The inner loop of [copyinstr] over one page: whether the nul was found,
    and the bytes stored. *)
Fixpoint copyinstr_page (p : Z) (n : nat) : M kst (bool * list Z) :=
  match n with
  | O => ret (false, [])
  | S n =>
    c ← ld8 p;
    if c =? 0 then ret (true, [0])
    else '(b, cs) ← copyinstr_page (p + 1) n; ret (b, c :: cs)
  end.

Fixpoint copyinstr_loop (fuel : nat) (pagetable srcva max : Z) : M kst (Z * list Z) :=
  if negb (0 <? max) then ret (-1, []) else
  match fuel with
  | O => out_of_fuel
  | S fuel =>
    let va0 := PGROUNDDOWN srcva in
    pa0 ← walkaddr pagetable va0;
    if pa0 =? 0 then ret (-1, []) else
    let n := PGSIZE - (srcva - va0) in
    let n := if max <? n then max else n in
    '(got_null, cs) ← copyinstr_page (pa0 + (srcva - va0)) (Z.to_nat n);
    if got_null : bool then ret (0, cs)
    else
      '(r, rest) ← copyinstr_loop fuel pagetable (u64 (va0 + PGSIZE)) (max - n);
      ret (r, cs ++ rest)
  end.

Definition copyinstr (pagetable srcva max : Z) : M kst (Z * list Z) :=
  copyinstr_loop (Z.to_nat max) pagetable srcva max.

End vm.
