(* ===== verification/PageTable.v ===== *)
(** * Page tables: the representation invariant (kernel/vm.c)

    [pt_rep m root T] says that the page table rooted at [root] in memory [m]
    is a three-level tree whose pages are listed by [T]: the node at level [l]
    that covers the virtual addresses with prefix [p] is the page
    [T !! (l, p)].  No page occurs twice.  [leaf m T n] is the entry of the
    virtual page number [n], 0 where no last-level table exists: this function
    is the abstract page table, and the theorems of VmFacts.v are about it. *)

From Stdlib Require Import ZArith Lia.
From stdpp Require Import base gmap strings numbers list.
From S2P Require Import Prelude Spinlock Mem Kstring Kalloc Vm.
Local Open Scope xv6_scope.

(** ** Entries and indices as arithmetic *)

Definition key (l : nat) (va : Z) : Z := va / 2 ^ (21 + 9 * Z.of_nat l).

Lemma PX_eq l va : PX l va = (va / 2 ^ PXSHIFT l) mod 512.
Proof.
  unfold PX. assert (0 ≤ PXSHIFT l) by (unfold PXSHIFT; lia).
  rewrite Z.shiftr_div_pow2 by done. change 511 with (2 ^ 9 - 1). by rewrite land_ones_mod.
Qed.

Lemma PX_range l va : 0 ≤ PX l va < 512.
Proof. rewrite PX_eq. apply Z.mod_pos_bound. lia. Qed.

Lemma PX_0 va : PX 0 va = (va / 4096) mod 512.
Proof. by rewrite PX_eq. Qed.

Lemma key_0 va : key 0 va = va / 4096 / 512.
Proof. unfold key. rewrite Z.div_div by lia. done. Qed.

(** The child of a node on the path of [va]. *)
Lemma key_child l va : key l va = key (S l) va * 512 + PX (S l) va.
Proof.
  rewrite PX_eq. unfold key, PXSHIFT.
  replace (12 + 9 * Z.of_nat (S l)) with (21 + 9 * Z.of_nat l) by lia.
  replace (21 + 9 * Z.of_nat (S l)) with (21 + 9 * Z.of_nat l + 9) by lia.
  set (k := 21 + 9 * Z.of_nat l). assert (0 ≤ k) by (unfold k; lia).
  rewrite Z.pow_add_r, <- Z.div_div by lia. change (2 ^ 9) with 512.
  pose proof (Z.div_mod (va / 2 ^ k) 512). lia.
Qed.

Lemma key_2 va : 0 ≤ va < MAXVA → key 2 va = 0.
Proof.
  intros H. unfold key. apply Z.div_small. change MAXVA with 274877906944 in H.
  change (2 ^ (21 + 9 * Z.of_nat 2)) with 549755813888. lia.
Qed.

Lemma key_nonneg l va : 0 ≤ va → 0 ≤ key l va.
Proof. intros. unfold key. apply Z.div_pos; [done|]. apply Z.pow_pos_nonneg; lia. Qed.

(** The entry that points to the table page [c]. *)
Definition node_pte (c : Z) : Z := c / 4 + 1.

Lemma PA2PTE_eq pa : 0 ≤ pa < 2 ^ 56 → PA2PTE pa = pa / 4096 * 1024.
Proof.
  intros H. unfold PA2PTE. rewrite Z.shiftr_div_pow2, Z.shiftl_mul_pow2 by lia.
  change (2 ^ 12) with 4096. change (2 ^ 10) with 1024. apply Z.mod_small. zlia.
Qed.

Lemma PTE2PA_eq v : 0 ≤ v < 2 ^ 54 → PTE2PA v = v / 1024 * 4096.
Proof.
  intros H. unfold PTE2PA. rewrite Z.shiftr_div_pow2, Z.shiftl_mul_pow2 by lia.
  change (2 ^ 12) with 4096. change (2 ^ 10) with 1024. apply Z.mod_small. zlia.
Qed.

(** Encoding an aligned address with ten flag bits. *)
Lemma pte_encode pa f :
  0 ≤ pa < 2 ^ 56 → pa mod 4096 = 0 → 0 ≤ f < 1024 →
  Z.lor (PA2PTE pa) f = pa / 4 + f.
Proof.
  intros Hpa Hal Hf. rewrite PA2PTE_eq by done.
  rewrite (lor_disjoint_add _ f 10); [|lia|done|].
  - zlia.
  - change (2 ^ 10) with 1024. zlia.
Qed.

Lemma pte_addr pa f :
  0 ≤ pa < 2 ^ 56 → pa mod 4096 = 0 → 0 ≤ f < 1024 → PTE2PA (pa / 4 + f) = pa.
Proof. intros. rewrite PTE2PA_eq by zlia. zlia. Qed.

Lemma pte_flags pa f :
  0 ≤ pa → pa mod 4096 = 0 → 0 ≤ f < 1024 → PTE_FLAGS (pa / 4 + f) = f.
Proof.
  intros. unfold PTE_FLAGS. change 1023 with (2 ^ 10 - 1). rewrite land_ones_mod by lia.
  change (2 ^ 10) with 1024. zlia.
Qed.

Lemma land_1 v : Z.land v 1 = v mod 2.
Proof. change 1 with (2 ^ 1 - 1). by rewrite land_ones_mod. Qed.

Lemma land_V v : Z.land v PTE_V = v mod 2.
Proof. apply land_1. Qed.

(** A flag bit of an entry is the bit of its flags. *)
Lemma land_flag v k : 0 ≤ k < 10 → Z.land v (2 ^ k) = Z.land (PTE_FLAGS v) (2 ^ k).
Proof.
  intros Hk. unfold PTE_FLAGS. rewrite <- Z.land_assoc. f_equal.
  change 1023 with (Z.ones 10). rewrite Z.land_comm, Z.land_ones by lia.
  symmetry. apply Z.mod_small. split; [lia|]. apply Z.pow_lt_mono_r; lia.
Qed.

(** The nodes of a page table, by level and prefix of the virtual address. *)
Abbreviation tbl := (gmap (nat * Z) Z).

Section pt.
Context `{KI : KernelImage}.

Lemma page_ok_56 c : page_ok c → 0 < c < 2 ^ 56 ∧ c mod 4096 = 0.
Proof.
  unfold page_ok. pose proof kend_range. unfold PHYSTOP, KERNBASE in *. lia.
Qed.

Lemma node_pte_encode c : page_ok c → Z.lor (PA2PTE c) PTE_V = node_pte c.
Proof. intros [? ?]%page_ok_56. by apply pte_encode; [lia|done|]. Qed.

Lemma node_pte_addr c : page_ok c → PTE2PA (node_pte c) = c.
Proof. intros [? ?]%page_ok_56. by apply pte_addr; [lia|done|]. Qed.

Lemma node_pte_valid c : page_ok c → truthy (Z.land (node_pte c) PTE_V) = true.
Proof. intros [? ?]%page_ok_56. rewrite land_V. unfold node_pte. apply truthy_true. zlia. Qed.

Lemma node_pte_range c : page_ok c → 0 ≤ node_pte c < 2 ^ 64.
Proof. intros [? ?]%page_ok_56. unfold node_pte. zlia. Qed.

(** ** Entries in memory *)

Lemma load_zero_page m c i : 0 ≤ i → i + 8 ≤ 4096 →
  load64 (write_bytes m c (page_fill 0)) (c + i) = 0.
Proof.
  intros Hi Hi8. Local Transparent load64. unfold load64.
  assert (read_bytes (write_bytes m c (page_fill 0)) (c + i) 8 = replicate 8 0) as ->; [|done].
  apply list_eq. intros j. destruct (decide (j < 8)%nat) as [Hj|Hj].
  - rewrite lookup_read_bytes, lookup_replicate_2 by done. unfold byte_at.
    rewrite page_fill_lookup, decide_True by lia. done.
  - rewrite !lookup_ge_None_2; rewrite ?length_read_bytes, ?length_replicate; lia || done.
Qed.

(** Only bytes inside the page [c] differ. *)
Definition same_outside (c : Z) (m m' : gmap Z Z) : Prop :=
  ∀ x, x < c ∨ c + 4096 ≤ x → m' !! x = m !! x.

Lemma same_outside_load c p i m m' :
  same_outside c m m' → page_ok c → page_ok p → p ≠ c → 0 ≤ i → i + 8 ≤ 4096 →
  load64 m' (p + i) = load64 m (p + i).
Proof.
  intros Hs Hc Hp Hne Hi Hi8. apply load64_ext. intros j Hj. unfold byte_at. f_equal.
  apply Hs. destruct (pages_disjoint p c Hp Hc Hne); lia.
Qed.

Lemma same_outside_fill m c v : same_outside c m (write_bytes m c (page_fill v)).
Proof. intros x Hx. rewrite page_fill_lookup. by rewrite decide_False by lia. Qed.

Lemma same_outside_store m c i v : 0 ≤ i → i + 8 ≤ 4096 → same_outside c m (store64 m (c + i) v).
Proof. intros Hi Hi8 x Hx. apply store64_lookup_out. lia. Qed.

Lemma same_outside_trans c m1 m2 m3 :
  same_outside c m1 m2 → same_outside c m2 m3 → same_outside c m1 m3.
Proof. intros H1 H2 x Hx. by rewrite H2, H1. Qed.

Lemma load_store_entry m p q i j v :
  page_ok p → page_ok q → 0 ≤ i < 512 → 0 ≤ j < 512 → p ≠ q ∨ i ≠ j →
  load64 (store64 m (p + 8 * i) v) (q + 8 * j) = load64 m (q + 8 * j).
Proof.
  intros Hp Hq Hi Hj Hne. apply load_store64_disjoint.
  destruct (decide (p = q)) as [->|Hpq]; [lia|].
  destruct (pages_disjoint p q Hp Hq Hpq); lia.
Qed.

(** ** The representation invariant *)

Record pt_rep (m : gmap Z Z) (root : Z) (T : tbl) : Prop := {
  pr_root : T !! (2%nat, 0) = Some root;
  pr_level : ∀ l p c, T !! (l, p) = Some c → (l ≤ 2)%nat;
  pr_up : ∀ l p c, T !! (l, p) = Some c → (l < 2)%nat → is_Some (T !! (S l, p / 512));
  pr_page : ∀ k c, T !! k = Some c → page_ok c;
  pr_inj : ∀ k k' c, T !! k = Some c → T !! k' = Some c → k = k';
  pr_child : ∀ l p pt i, T !! (S l, p) = Some pt → 0 ≤ i < 512 →
    match T !! (l, p * 512 + i) with
    | Some c => load64 m (pt + 8 * i) = node_pte c
    | None => Z.land (load64 m (pt + 8 * i)) PTE_V = 0
    end
}.

(** Entry of virtual page [n]: its address (0: no table) and its value. *)
Definition entry (T : tbl) (n : Z) : Z :=
  match T !! (0%nat, n / 512) with Some pt => pt + 8 * (n mod 512) | None => 0 end.
Definition leaf (m : gmap Z Z) (T : tbl) (n : Z) : Z :=
  match T !! (0%nat, n / 512) with Some pt => load64 m (pt + 8 * (n mod 512)) | None => 0 end.

(** A page of the table. *)
Definition in_tbl (T : tbl) (c : Z) : Prop := ∃ k, T !! k = Some c.

Record vm_inv (s : kst) (root : Z) (T : tbl) (fl : list Z) : Prop := {
  vi_kmem : kmem_inv s fl;
  vi_rep : pt_rep (k_mem s) root T;
  vi_fresh : ∀ c, in_tbl T c → c ∉ fl
}.

Lemma pt_rep_parent m root T l p i :
  pt_rep m root T → (l < 2)%nat → 0 ≤ i < 512 →
  T !! (S l, p) = None → T !! (l, p * 512 + i) = None.
Proof.
  intros Hr Hl Hi HN. destruct (T !! (l, _)) as [c|] eqn:E; [|done].
  destruct (pr_up _ _ _ Hr _ _ _ E Hl) as [d Hd].
  replace ((p * 512 + i) / 512) with p in Hd by zlia. congruence.
Qed.

(** No node at a level: none below it on the path. *)
Lemma pt_rep_below m root T va l j :
  pt_rep m root T → (j + l ≤ 2)%nat → T !! ((j + l)%nat, key (j + l) va) = None →
  T !! (l, key l va) = None.
Proof.
  intros Hr. induction j as [|j IH]; intros Hj HN; [done|]. apply IH; [lia|].
  rewrite key_child. eapply pt_rep_parent; [done|lia|apply PX_range|done].
Qed.

Lemma entry_key T va : entry T (va / 4096) =
  match T !! (0%nat, key 0 va) with Some pt => pt + 8 * PX 0 va | None => 0 end.
Proof. unfold entry. by rewrite key_0, PX_0. Qed.

Lemma wp_walk_loop_noalloc l pt va s root T Q :
  pt_rep (k_mem s) root T → (l ≤ 2)%nat → T !! (l, key l va) = Some pt →
  Q (entry T (va / 4096)) s → wp (walk_loop l pt va false) s Q.
Proof.
  intros Hr. revert pt. induction l as [|l IH]; intros pt Hl Hpt HQ; cbn [walk_loop].
  - wp_simpl. rewrite entry_key, Hpt in HQ. done.
  - wp_simpl. pose proof (PX_range (S l) va) as Hx.
    apply wp_ld64.
    { apply page_ok_ram_sub; [by eapply pr_page|lia|lia]. }
    pose proof (pr_child _ _ _ Hr l _ pt (PX (S l) va) Hpt Hx) as Hc.
    rewrite <- key_child in Hc. destruct (T !! (l, key l va)) as [c|] eqn:E.
    + pose proof (pr_page _ _ _ Hr _ _ E) as Hp. rewrite Hc, node_pte_valid by done.
      rewrite node_pte_addr by done. apply IH; [lia|done|done].
    + rewrite Hc. simpl. wp_simpl. rewrite entry_key in HQ.
      assert (T !! (0%nat, key 0 va) = None) as HN.
      { apply (pt_rep_below _ _ _ va 0 l Hr); rewrite ?Nat.add_0_r; [lia|done]. }
      by rewrite HN in HQ.
Qed.

Lemma wp_walk_noalloc pagetable va s T Q :
  pt_rep (k_mem s) pagetable T → 0 ≤ va < MAXVA →
  Q (entry T (va / 4096)) s → wp (walk pagetable va false) s Q.
Proof.
  intros Hr Hva HQ. unfold walk. wp_simpl.
  destruct (Z.leb_spec MAXVA va); [lia|]. wp_simpl.
  eapply wp_walk_loop_noalloc; [done|done| |done]. rewrite key_2 by done. by eapply pr_root.
Qed.

(** ** Adding a node *)

Section add.
Context (m m1 : gmap Z Z) (root : Z) (T : tbl) (l : nat) (p ppt i c : Z).
Hypothesis (Hr : pt_rep m root T) (Hl : (l < 2)%nat) (Hi : 0 ≤ i < 512).
Hypothesis (Hppt : T !! (S l, p) = Some ppt) (HN : T !! (l, p * 512 + i) = None).
Hypothesis (Hc : page_ok c) (Hnew : ¬ in_tbl T c).
Hypothesis (Hout : same_outside c m m1).
Hypothesis (Hzero : ∀ j, 0 ≤ j < 512 → load64 m1 (c + 8 * j) = 0).

Local Abbreviation m2 := (store64 m1 (ppt + 8 * i) (node_pte c)).
Local Abbreviation T' := (<[(l, p * 512 + i) := c]> T).

Lemma add_other k q j : T !! k = Some q → 0 ≤ j < 512 → k ≠ (S l, p) ∨ j ≠ i →
  load64 m2 (q + 8 * j) = load64 m (q + 8 * j).
Proof using All.
  intros Hq Hj Hne. pose proof (pr_page _ _ _ Hr _ _ Hq). pose proof (pr_page _ _ _ Hr _ _ Hppt).
  rewrite load_store_entry; [|done|done|done|done|].
  - apply (same_outside_load c); [done|done|done| |lia|lia]. intros ->. by apply Hnew; exists k.
  - destruct Hne as [Hne|]; [left|by right; auto]. intros ->. apply Hne.
    by eapply pr_inj; [exact Hr| |].
Qed.

Lemma add_self j : 0 ≤ j < 512 → load64 m2 (c + 8 * j) = 0.
Proof using All.
  intros Hj. rewrite load_store_entry; [by apply Hzero|by eapply pr_page|done|done|done|].
  left. intros ->. apply Hnew. by exists (S l, p).
Qed.

Lemma pt_rep_add : pt_rep m2 root T'.
Proof using All.
  split.
  - rewrite lookup_insert_ne by (intros [=]; lia). by eapply pr_root.
  - intros l' p' c'. rewrite lookup_insert_Some. intros [[[= <- <-] _]|[_ H]]; [lia|by eapply pr_level].
  - intros l' p' c'. rewrite lookup_insert_Some. rewrite lookup_insert_is_Some'.
    intros [[[= <- <-] _]|[_ H]] Hl'; right; [|by eapply pr_up].
    replace ((p * 512 + i) / 512) with p by zlia. by exists ppt.
  - intros k c'. rewrite lookup_insert_Some. intros [[_ <-]|[_ H]]; [done|by eapply pr_page].
  - intros k k' c'. rewrite !lookup_insert_Some. intros [[<- <-]|[_ H]] [[<- H']|[_ H']]; [done| | |].
    + exfalso. apply Hnew. by exists k'.
    + exfalso. apply Hnew. subst. by exists k.
    + by eapply pr_inj.
  - intros l' p' pt' j. rewrite lookup_insert_Some. intros [[Hk <-]|[_ H]] Hj.
    + rewrite add_self by done.
      assert (T !! (l', p' * 512 + j) = None) as HN'.
      { eapply pt_rep_parent; [done|injection Hk; lia|done|]. by rewrite <- Hk. }
      rewrite lookup_insert_ne by (injection Hk; intros; intros [=]; lia). by rewrite HN'.
    + destruct (decide ((l', p' * 512 + j) = (l, p * 512 + i))) as [Heq|Hne].
      * rewrite Heq, lookup_insert_eq. injection Heq as -> Hk.
        assert (p' = p ∧ j = i) as [-> ->] by lia. rewrite Hppt in H. injection H as <-.
        apply load_store64_same, node_pte_range, Hc.
      * rewrite lookup_insert_ne by done. pose proof (pr_child _ _ _ Hr _ _ _ _ H Hj) as Hch.
        rewrite (add_other (S l', p')); [done|done|done|].
        destruct (decide (j = i)) as [->|]; [left|by right]. intros [= -> ->]. done.
Qed.

Lemma leaf_add n : leaf m2 T' n = leaf m T n.
Proof using All.
  unfold leaf. assert (0 ≤ n mod 512 < 512) by (apply Z.mod_pos_bound; lia).
  destruct (decide ((l, p * 512 + i) = (0%nat, n / 512))) as [Heq|Hne].
  - rewrite <- Heq, lookup_insert_eq, HN. by apply add_self.
  - rewrite lookup_insert_ne by done. destruct (T !! (0%nat, n / 512)) eqn:E; [|done].
    eapply add_other; [exact E|done|]. left. by intros [=].
Qed.
End add.

(** ** Growing a table

    What [walk] with [alloc] set may do: take pages from the front of the free
    list and add them as nodes.  No byte outside the pages of the table
    changes, and no entry of a virtual page ([same_leaf]). *)

Definition outside (T : tbl) (x : Z) : Prop := ∀ c, in_tbl T c → ¬ (c ≤ x < c + 4096).

Record grown (s : kst) (T : tbl) (fl : list Z) (s' : kst) (T' : tbl) (fl' : list Z) : Prop := {
  gr_fl : ∃ news, fl = news ++ fl' ∧ ∀ c, in_tbl T' c ↔ in_tbl T c ∨ c ∈ news;
  gr_sub : T ⊆ T';
  gr_mach : k_mach s' ≡ k_mach s;
  gr_frame : ∀ x, outside T' x → k_mem s' !! x = k_mem s !! x;
  gr_size : (size T' + length fl' = size T + length fl)%nat
}.

(** The new tables are those on the paths to the virtual pages [lo..hi]. *)
Definition on_path (lo hi : Z) (T T' : tbl) : Prop :=
  ∀ l p, is_Some (T' !! (l, p)) → T !! (l, p) = None →
  (l < 2)%nat ∧ ∃ n, lo ≤ n ≤ hi ∧ p = key l (n * 4096).

Lemma on_path_refl lo hi T : on_path lo hi T T.
Proof. intros l p [c Hc]. congruence. Qed.

Lemma on_path_trans lo mid mid' hi T1 T2 T3 :
  lo ≤ mid' → mid ≤ hi → on_path lo mid T1 T2 → on_path mid' hi T2 T3 → on_path lo hi T1 T3.
Proof.
  intros Hl Hh H1 H2 l p H3 HN. destruct (T2 !! (l, p)) as [c|] eqn:E.
  - destruct (H1 l p) as (H & n & Hn & Hp); [by eexists|done|]. split; [done|]. exists n. split; [lia|done].
  - destruct (H2 l p H3 E) as (H & n & Hn & Hp). split; [done|]. exists n. split; [lia|done].
Qed.

Lemma key_page l va : 0 ≤ va → key l (va / 4096 * 4096) = key l va.
Proof.
  intros H. unfold key. replace (2 ^ (21 + 9 * Z.of_nat l)) with (4096 * 2 ^ (9 + 9 * Z.of_nat l)).
  - rewrite <- !Z.div_div by (apply Z.pow_nonzero || apply Z.pow_pos_nonneg || lia; lia). by rewrite Z.div_mul.
  - change 4096 with (2 ^ 12). rewrite <- Z.pow_add_r by lia. f_equal. lia.
Qed.

Lemma on_path_add (l : nat) (va c : Z) (T : tbl) : (l < 2)%nat → 0 ≤ va → on_path (va / 4096) (va / 4096) T (<[(l, key l va) := c]> T).
Proof.
  intros Hl Hva l' p' [c' [[[= <- <-] _]|[_ H]]%lookup_insert_Some] HN; [|congruence].
  split; [done|]. exists (va / 4096). split; [lia|]. by rewrite key_page.
Qed.

Definition same_leaf (s : kst) (T : tbl) (s' : kst) (T' : tbl) : Prop :=
  ∀ n, leaf (k_mem s') T' n = leaf (k_mem s) T n.

Lemma grown_refl s T fl : grown s T fl s T fl.
Proof.
  split; [|done|done|done|done]. exists []. split; [done|]. intros c. split; [by left|].
  by intros [?|?%not_elem_of_nil].
Qed.

Lemma outside_sub T T' x : T ⊆ T' → outside T' x → outside T x.
Proof. intros Hs Ho c [k Hk]. apply Ho. exists k. by eapply lookup_weaken. Qed.

Lemma grown_trans s1 T1 fl1 s2 T2 fl2 s3 T3 fl3 :
  grown s1 T1 fl1 s2 T2 fl2 → grown s2 T2 fl2 s3 T3 fl3 → grown s1 T1 fl1 s3 T3 fl3.
Proof.
  intros [(n1 & -> & H1) Hs1 Hm1 Hf1 Hz1] [(n2 & -> & H2) Hs2 Hm2 Hf2 Hz2]. split.
  - exists (n1 ++ n2). split; [by rewrite app_assoc|]. intros c. rewrite H2, H1, elem_of_app. tauto.
  - by transitivity T2.
  - by rewrite Hm2.
  - intros x Hx. rewrite Hf2 by done. apply Hf1. by eapply outside_sub.
  - lia.
Qed.

Lemma grown_mach s T fl m : m ≡ k_mach s → grown s T fl (set_mach m s) T fl.
Proof. intros H. by destruct (grown_refl s T fl); split. Qed.

(** The allocation of one node inside [walk]. *)
Lemma vm_inv_add s s1 root T fl l p ppt i c :
  vm_inv s root T (c :: fl) → (l < 2)%nat → 0 ≤ i < 512 →
  T !! (S l, p) = Some ppt → T !! (l, p * 512 + i) = None →
  kmem_inv s1 fl → k_mach s1 ≡ k_mach s →
  k_mem s1 = write_bytes (k_mem s) c (page_fill 5) →
  let m2 := store64 (write_bytes (k_mem s1) c (page_fill 0)) (ppt + 8 * i) (node_pte c) in
  let s2 := set_mem m2 s1 in
  let T2 := <[(l, p * 512 + i) := c]> T in
  vm_inv s2 root T2 fl ∧ grown s T (c :: fl) s2 T2 fl ∧ same_leaf s T s2 T2.
Proof.
  intros [Hk Hr Hf] Hl Hi Hppt HN Hk1 Hm1 Hmem1 m2 s2 T2.
  pose proof (ki_pages _ _ Hk) as [Hc Hfl]%Forall_cons.
  pose proof (ki_nodup _ _ Hk) as [Hni Hnd]%NoDup_cons.
  assert (¬ in_tbl T c) as Hnew.
  { intros Hin. apply (Hf c Hin). by left. }
  assert (page_ok ppt) as Hpp by (by eapply pr_page).
  assert (same_outside c (k_mem s) (write_bytes (k_mem s1) c (page_fill 0))) as Hso.
  { rewrite Hmem1. eapply same_outside_trans; apply same_outside_fill. }
  assert (∀ j, 0 ≤ j < 512 →
    load64 (write_bytes (k_mem s1) c (page_fill 0)) (c + 8 * j) = 0) as Hz.
  { intros j Hj. apply load_zero_page; lia. }
  assert (∀ d, in_tbl T2 d ↔ in_tbl T d ∨ d = c) as Hin2.
  { intros d. unfold in_tbl, T2. split.
    - intros [k [[_ <-]|[_ H]]%lookup_insert_Some]; [by right|left; by exists k].
    - intros [[k H]| ->]; [|exists (l, p * 512 + i); by rewrite lookup_insert_eq].
      exists k. rewrite lookup_insert_ne; [done|]. intros <-. congruence. }
  split.
  - split.
    + destruct Hk1 as [H1 H2 H3 H4 H5 H6]. split; simpl; [done|done| |done|done|].
      * unfold m2. rewrite store64_write.
        apply (fl_at_write _ _ _ ppt); [done| |done|lia| |].
        { intros Hin. eapply (Hf ppt); [by exists (S l, p)|by right]. }
        { rewrite length_le_bytes. lia. }
        apply (fl_at_write _ _ _ c); rewrite ?length_page_fill; done.
      * unfold m2. apply mem_ok_store64, mem_ok_page_fill; [exact H6|lia].
    + simpl. by apply (pt_rep_add (k_mem s)).
    + intros d [Hd| ->]%Hin2; [|done]. intros Hin. apply (Hf d Hd). by right.
  - split; [split|intros n; by apply (leaf_add _ _ root)]; simpl.
    + exists [c]. split; [done|]. intros d. rewrite Hin2. by rewrite list_elem_of_singleton.
    + by apply insert_subseteq.
    + done.
    + intros x Hx. unfold m2. rewrite store64_lookup_out.
      * apply Hso. assert (¬ (c ≤ x < c + 4096)); [|lia]. apply Hx, Hin2. by right.
      * assert (¬ (ppt ≤ x < ppt + 4096)); [|lia]. apply Hx, Hin2. left. by exists (S l, p).
    + unfold T2. rewrite map_size_insert_None by done. cbn. lia.
Qed.

Lemma wp_walk_loop_alloc l pt va s root T fl Q :
  vm_inv s root T fl → (l ≤ 2)%nat → 0 ≤ va → T !! (l, key l va) = Some pt →
  (∀ s' T' fl', vm_inv s' root T' fl' → grown s T fl s' T' fl' → same_leaf s T s' T' →
     on_path (va / 4096) (va / 4096) T T' →
     T' !! (0%nat, key 0 va) = None → fl' = [] → Q 0 s') →
  (∀ s' T' fl' c, vm_inv s' root T' fl' → grown s T fl s' T' fl' → same_leaf s T s' T' →
     on_path (va / 4096) (va / 4096) T T' →
     T' !! (0%nat, key 0 va) = Some c → Q (c + 8 * PX 0 va) s') →
  wp (walk_loop l pt va true) s Q.
Proof.
  revert s pt T fl. induction l as [|l IH]; intros s pt T fl Hi Hl Hva Hpt Q0 Q1; cbn [walk_loop].
  - wp_simpl. by apply (Q1 s T fl pt); [|apply grown_refl| |apply on_path_refl|].
  - wp_simpl. pose proof (PX_range (S l) va) as Hx. pose proof (vi_rep _ _ _ _ Hi) as Hr.
    assert (page_ok pt) as Hp by (by eapply pr_page).
    apply wp_ld64; [apply page_ok_ram_sub; [done|lia|lia]|].
    pose proof (pr_child _ _ _ Hr l _ pt (PX (S l) va) Hpt Hx) as Hc.
    pose proof (key_child l va) as Hkc. rewrite <- Hkc in Hc.
    destruct (T !! (l, key l va)) as [c|] eqn:E.
    + pose proof (pr_page _ _ _ Hr _ _ E). rewrite Hc, node_pte_valid by done.
      rewrite node_pte_addr by done. apply (IH s c T fl); [done|lia|done|done|done|done].
    + rewrite Hc. cbn [truthy negb Z.eqb]. wp_simpl.
      eapply wp_kalloc; [apply Hi| |].
      * intros s1 -> Hk1 Hm1 Hmach1. cbn [Z.eqb]. wp_simpl.
        apply (Q0 s1 T []); [| |intros n; by rewrite Hm1|apply on_path_refl| |done].
        { destruct Hi. split; [done|by rewrite Hm1|done]. }
        { destruct (grown_refl s T []). split; rewrite ?Hm1; done. }
        { apply (pt_rep_below _ _ _ va 0 l Hr); rewrite ?Nat.add_0_r; [lia|done]. }
      * intros c fl1 s1 -> Hk1 Hpc _ Hm1 Hmach1. pose proof (page_ok_pos c Hpc).
        destruct (Z.eqb_spec c 0); [lia|]. wp_simpl.
        apply wp_memset_page; [by apply page_ok_writable|]. wp_simpl.
        apply wp_st64; [apply page_ok_writable_sub; [done|lia|lia]|].
        rewrite node_pte_encode by done. rewrite Hkc in E.
        destruct (vm_inv_add s s1 root T fl1 l _ pt _ c Hi ltac:(lia) Hx Hpt E Hk1 Hmach1 Hm1)
          as (Hi2 & Hg2 & Hl2).
        pose proof (on_path_add l va c T ltac:(lia) Hva) as Hop. rewrite Hkc in Hop.
        eapply (IH _ c); [exact Hi2|lia|done|by rewrite Hkc, lookup_insert_eq| |].
        { intros s3 T3 fl3 Hi3 Hg3 Hl3 Ho3 HN Hfl.
          eapply Q0; [done|by eapply grown_trans| |by eapply on_path_trans; [..|exact Hop|exact Ho3]|done|done]. intros k. by rewrite Hl3. }
        { intros s3 T3 fl3 c3 Hi3 Hg3 Hl3 Ho3 HS.
          eapply Q1; [done|by eapply grown_trans| |by eapply on_path_trans; [..|exact Hop|exact Ho3]|done]. intros k. by rewrite Hl3. }
Qed.

Lemma wp_walk_alloc pagetable va s T fl Q :
  vm_inv s pagetable T fl → 0 ≤ va < MAXVA →
  (∀ s' T' fl', vm_inv s' pagetable T' fl' → grown s T fl s' T' fl' → same_leaf s T s' T' →
     on_path (va / 4096) (va / 4096) T T' →
     T' !! (0%nat, key 0 va) = None → fl' = [] → Q 0 s') →
  (∀ s' T' fl' c, vm_inv s' pagetable T' fl' → grown s T fl s' T' fl' → same_leaf s T s' T' →
     on_path (va / 4096) (va / 4096) T T' →
     T' !! (0%nat, key 0 va) = Some c → Q (c + 8 * PX 0 va) s') →
  wp (walk pagetable va true) s Q.
Proof.
  intros Hi Hva Q0 Q1. unfold walk. wp_simpl.
  destruct (Z.leb_spec MAXVA va); [lia|]. wp_simpl.
  eapply wp_walk_loop_alloc; [done|done|lia| |done|done]. rewrite key_2 by done.
  eapply pr_root, Hi.
Qed.

(** ** Changing one entry *)

Lemma vm_inv_set s root T fl n pt v :
  vm_inv s root T fl → T !! (0%nat, n / 512) = Some pt → 0 ≤ v < 2 ^ 64 →
  let s' := set_mem (store64 (k_mem s) (pt + 8 * (n mod 512)) v) s in
  vm_inv s' root T fl ∧ grown s T fl s' T fl ∧
  ∀ n', leaf (k_mem s') T n' = if decide (n' = n) then v else leaf (k_mem s) T n'.
Proof.
  intros [Hk Hr Hf] Hpt Hv s'. assert (0 ≤ n mod 512 < 512) as Hm by (apply Z.mod_pos_bound; lia).
  assert (page_ok pt) as Hp by (by eapply pr_page).
  assert (∀ k q j, T !! k = Some q → 0 ≤ j < 512 → k ≠ (0%nat, n / 512) ∨ j ≠ n mod 512 →
    load64 (k_mem s') (q + 8 * j) = load64 (k_mem s) (q + 8 * j)) as Hoth.
  { intros k q j Hq Hj Hne. apply load_store_entry; [done|by eapply pr_page|done|done|].
    destruct Hne as [Hne|]; [left|by right; auto]. intros ->. apply Hne. by eapply pr_inj. }
  split; [split|split; [split|]].
  - destruct Hk as [H1 H2 H3 H4 H5 H6]. split; simpl; [done|done| |done|done|by apply mem_ok_store64].
    rewrite store64_write. apply (fl_at_write _ _ _ pt); [done| |done|lia| |done].
    + intros Hin. by eapply (Hf pt); [exists (0%nat, n / 512)|].
    + rewrite length_le_bytes. lia.
  - destruct Hr as [H1 H2 H3 H4 H5 H6]. split; try done. intros l p pt' i Hpt' Hi.
    rewrite (Hoth (S l, p)); [by apply H6|done|done|]. left. by intros [=].
  - done.
  - apply (gr_fl _ _ _ _ _ _ (grown_refl s T fl)).
  - done.
  - done.
  - intros x Hx. apply store64_lookup_out. assert (¬ (pt ≤ x < pt + 4096)); [|lia].
    apply Hx. by exists (0%nat, n / 512).
  - done.
  - intros n'. unfold leaf. destruct (decide (n' = n)) as [->|Hne].
    + rewrite Hpt. by apply load_store64_same.
    + destruct (T !! (0%nat, n' / 512)) as [q|] eqn:E; [|done].
      eapply Hoth; [exact E|apply Z.mod_pos_bound; lia|].
      destruct (decide (n' / 512 = n / 512)); [right|left; congruence]. zlia.
Qed.

(** ** Memory outside the table *)

(** The pages of the table read the same in [m'] as in [m]. *)
Definition same_tbl (T : tbl) (m m' : gmap Z Z) : Prop :=
  ∀ c x, in_tbl T c → c ≤ x < c + 4096 → m' !! x = m !! x.

Lemma same_tbl_load T m m' k c i : same_tbl T m m' → T !! k = Some c →
  0 ≤ i → i + 8 ≤ 4096 → load64 m' (c + i) = load64 m (c + i).
Proof.
  intros Hs Hk Hi Hi8. apply load64_ext. intros j Hj. unfold byte_at. f_equal.
  apply (Hs c); [by exists k|lia].
Qed.

Lemma pt_rep_frame m m' root T : same_tbl T m m' → pt_rep m root T → pt_rep m' root T.
Proof.
  intros Hs [H1 H2 H3 H4 H5 H6]. split; try done. intros l p pt i Hpt Hi.
  rewrite (same_tbl_load T m m' (S l, p)); [by apply H6|done|done|lia|lia].
Qed.

Lemma leaf_frame m m' T n : same_tbl T m m' → leaf m' T n = leaf m T n.
Proof.
  intros Hs. unfold leaf. destruct (T !! _) eqn:E; [|done].
  pose proof (Z.mod_pos_bound n 512). by eapply same_tbl_load; [done|done|lia|lia].
Qed.

Lemma same_tbl_outside m m' root T pa :
  pt_rep m root T → page_ok pa → ¬ in_tbl T pa → same_outside pa m m' → same_tbl T m m'.
Proof.
  intros Hr Hp Hn Hs c x Hc Hx. apply Hs. destruct Hc as [k Hk].
  destruct (pages_disjoint pa c Hp (pr_page _ _ _ Hr _ _ Hk)); [|lia|lia].
  intros ->. apply Hn. by exists k.
Qed.

Lemma leaf_entry m T n pt : T !! (0%nat, n / 512) = Some pt →
  load64 m (pt + 8 * (n mod 512)) = leaf m T n.
Proof. intros H. unfold leaf. by rewrite H. Qed.

(** A mapped page has a table. *)
Lemma leaf_table m T n : Z.land (leaf m T n) PTE_V ≠ 0 →
  ∃ pt, T !! (0%nat, n / 512) = Some pt ∧ entry T n = pt + 8 * (n mod 512).
Proof. unfold leaf, entry. destruct (T !! _) as [pt|]; [by exists pt|done]. Qed.

(** Where the path exists, [walk] follows it, allocating or not. *)
Lemma walk_loop_present l pt va alloc s root T c :
  pt_rep (k_mem s) root T → (l ≤ 2)%nat → T !! (l, key l va) = Some pt →
  T !! (0%nat, key 0 va) = Some c →
  walk_loop l pt va alloc s = Ret (c + 8 * PX 0 va) s.
Proof.
  intros Hr. revert pt. induction l as [|l IH]; intros pt Hl Hpt Hc; cbn [walk_loop].
  - rewrite Hpt in Hc. by injection Hc as ->.
  - pose proof (PX_range (S l) va) as Hx. destruct (T !! (l, key l va)) as [d|] eqn:E.
    2:{ rewrite (pt_rep_below _ _ _ va 0 l Hr) in Hc; rewrite ?Nat.add_0_r; [done|lia|done]. }
    pose proof (pr_child _ _ _ Hr l _ pt (PX (S l) va) Hpt Hx) as Hch.
    rewrite <- key_child, E in Hch. pose proof (pr_page _ _ _ Hr _ _ E) as Hp.
    assert (ld64 (pt + 8 * PX (S l) va) s = Ret (node_pte d) s) as Hld.
    { apply wp_eq, wp_ld64; [|by rewrite Hch].
      apply page_ok_ram_sub; [by eapply pr_page|lia|lia]. }
    rewrite (bind_ret _ _ _ _ _ Hld), node_pte_valid, node_pte_addr by done.
    apply IH; [lia|done|done].
Qed.

Lemma walk_present pagetable va alloc s T c :
  pt_rep (k_mem s) pagetable T → 0 ≤ va < MAXVA → T !! (0%nat, key 0 va) = Some c →
  walk pagetable va alloc s = Ret (c + 8 * PX 0 va) s.
Proof.
  intros Hr Hva Hc. unfold walk. destruct (Z.leb_spec MAXVA va); [lia|].
  rewrite (bind_ret _ _ _ tt s) by done. eapply walk_loop_present; [done|lia| |done].
  rewrite key_2 by done. by eapply pr_root.
Qed.

End pt.
