(* ===== verification/VmFacts.v ===== *)
(** * Virtual memory: mapping and unmapping (kernel/vm.c)

    The operations of Vm.v against the abstract page table [leaf] of
    PageTable.v: what [mappages] and [uvmunmap] do to the entries, on success
    and when memory runs out. *)

From Stdlib Require Import ZArith Lia.
From stdpp Require Import base gmap strings numbers list.
From S2P Require Import Prelude Spinlock Mem Kstring Kalloc Vm PageTable.
Local Open Scope xv6_scope.

Lemma lor_bound a b n : 0 ≤ n → 0 ≤ a < 2 ^ n → 0 ≤ b < 2 ^ n → 0 ≤ Z.lor a b < 2 ^ n.
Proof.
  intros Hn Ha Hb. assert (Z.lor a b = Z.lor a b mod 2 ^ n) as ->.
  { rewrite <- Z.land_ones, Z.land_lor_distr_l, !Z.land_ones, !Z.mod_small by lia. done. }
  apply Z.mod_pos_bound. lia.
Qed.

(** The entry [mappages] stores for the page [pa]. *)
Definition leaf_pte (pa perm : Z) : Z := pa / 4 + Z.lor perm PTE_V.

Definition perm_ok (perm : Z) : Prop := 0 ≤ perm < 1024.

(** An aligned physical address. *)
Definition pa_ok (pa : Z) : Prop := 0 ≤ pa < 2 ^ 56 ∧ pa mod 4096 = 0.

Lemma perm_V perm : perm_ok perm → 0 ≤ Z.lor perm PTE_V < 1024.
Proof. intros H. apply (lor_bound _ _ 10); [lia|done|]. change PTE_V with 1. lia. Qed.

Lemma leaf_pte_encode pa perm : pa_ok pa → perm_ok perm →
  Z.lor (Z.lor (PA2PTE pa) perm) PTE_V = leaf_pte pa perm.
Proof. intros [] ?. rewrite <- Z.lor_assoc. apply pte_encode; [done|done|by apply perm_V]. Qed.

Lemma leaf_pte_addr pa perm : pa_ok pa → perm_ok perm → PTE2PA (leaf_pte pa perm) = pa.
Proof. intros [] ?. apply pte_addr; [done|done|by apply perm_V]. Qed.

Lemma leaf_pte_flags pa perm : pa_ok pa → perm_ok perm → PTE_FLAGS (leaf_pte pa perm) = Z.lor perm PTE_V.
Proof. intros [] ?. apply pte_flags; [lia|done|by apply perm_V]. Qed.

Lemma leaf_pte_range pa perm : pa_ok pa → perm_ok perm → 0 ≤ leaf_pte pa perm < 2 ^ 64.
Proof. intros [] ?%perm_V. unfold leaf_pte. zlia. Qed.

Lemma leaf_pte_bit pa perm k : pa_ok pa → perm_ok perm → 0 ≤ k < 10 →
  Z.land (leaf_pte pa perm) (2 ^ k) = Z.land (Z.lor perm PTE_V) (2 ^ k).
Proof. intros. by rewrite land_flag, leaf_pte_flags. Qed.

Lemma leaf_pte_valid pa perm : pa_ok pa → perm_ok perm →
  truthy (Z.land (leaf_pte pa perm) PTE_V) = true.
Proof.
  intros. change PTE_V with (2 ^ 0). rewrite leaf_pte_bit by (done || lia).
  rewrite Z.land_lor_distr_l. change (Z.land PTE_V (2 ^ 0)) with 1. apply truthy_true.
  intros [_ [=]]%Z.lor_eq_0_iff.
Qed.

Section vmfacts.
Context `{KI : KernelImage}.

(** The valid bit of a virtual page. *)
Definition mapped (m : gmap Z Z) (T : tbl) (n : Z) : bool := truthy (Z.land (leaf m T n) PTE_V).

(** ** [mappages] *)

Lemma wp_mappages_loop fuel pagetable a last pa perm s T fl :
  vm_inv s pagetable T fl →
  a mod 4096 = 0 → last mod 4096 = 0 → 0 ≤ a → a ≤ last → last < MAXVA →
  pa mod 4096 = 0 → 0 ≤ pa → pa + (last - a) + 4096 ≤ 2 ^ 56 → perm_ok perm →
  (∀ n, a / 4096 ≤ n ≤ last / 4096 → mapped (k_mem s) T n = false) →
  (last - a) / 4096 < Z.of_nat fuel →
  wp (mappages_loop fuel pagetable a last pa perm) s (fun r s' => ∃ T' fl' k,
    vm_inv s' pagetable T' fl' ∧ grown s T fl s' T' fl' ∧
    on_path (a / 4096) (last / 4096) T T' ∧
    (∀ n, leaf (k_mem s') T' n = if decide (a / 4096 ≤ n < a / 4096 + k)
       then leaf_pte (pa + (n - a / 4096) * 4096) perm else leaf (k_mem s) T n) ∧
    ((r = 0 ∧ k = (last - a) / 4096 + 1) ∨
     (r = -1 ∧ 0 ≤ k ≤ (last - a) / 4096 ∧ fl' = []))).
Proof.
  revert a pa s T fl. induction fuel as [|fuel IH];
    intros a pa s T fl Hi Ha Hlast Ha0 Hle Hmax Hpa Hpa0 Hpau Hperm Hun Hfuel; [zlia|].
  cbn [mappages_loop]. wp_simpl. eapply wp_walk_alloc; [done|lia| |].
  { intros s1 T1 fl1 Hi1 Hg1 Hl1 Ho1 _ ->. cbn [Z.eqb]. wp_simpl. exists T1, [], 0.
    split; [done|]. split; [done|]. split; [apply (on_path_trans _ (a / 4096) (a / 4096) _ _ T1); [lia|zlia|exact Ho1|apply on_path_refl]|]. split; [|right; split; [done|split; [zlia|done]]].
    intros n. rewrite decide_False by lia. apply Hl1. }
  intros s1 T1 fl1 c Hi1 Hg1 Hl1 Ho1 Hc. pose proof (PX_range 0 a) as Hx.
  assert (page_ok c) as Hp by (eapply pr_page; [apply Hi1|done]).
  pose proof (page_ok_pos c Hp). destruct (Z.eqb_spec (c + 8 * PX 0 a) 0) as [?|_]; [lia|].
  wp_simpl. apply wp_ld64; [apply page_ok_ram_sub; [done|lia|lia]|].
  assert (load64 (k_mem s1) (c + 8 * PX 0 a) = leaf (k_mem s) T (a / 4096)) as Hld.
  { rewrite <- Hl1. unfold leaf. by rewrite <- key_0, Hc, PX_0. }
  rewrite Hld. pose proof (Hun (a / 4096)) as Hu. unfold mapped in Hu. rewrite Hu by zlia. wp_simpl.
  apply wp_st64; [apply page_ok_writable_sub; [done|lia|lia]|].
  assert (pa_ok pa) as Hpaok by (split; [lia|done]). rewrite leaf_pte_encode by done.
  rewrite PX_0. rewrite key_0 in Hc.
  destruct (vm_inv_set s1 pagetable T1 fl1 (a / 4096) c (leaf_pte pa perm) Hi1 Hc)
    as (Hi2 & Hg2 & Hl2); [by apply leaf_pte_range|].
  set (s2 := set_mem _ s1) in *.
  assert (grown s T fl s2 T1 fl1) as Hg by (by eapply grown_trans).
  assert (∀ n, leaf (k_mem s2) T1 n = if decide (n = a / 4096) then leaf_pte pa perm
    else leaf (k_mem s) T n) as Hl.
  { intros n. by rewrite Hl2, Hl1. }
  destruct (Z.eqb_spec a last) as [->|Hne].
  - wp_simpl. exists T1, fl1, 1. split; [done|]. split; [done|]. split; [done|]. split; [|left; split; [done|zlia]].
    intros n. rewrite Hl. destruct (decide (n = last / 4096)) as [->|].
    + rewrite decide_True by lia. f_equal. lia.
    + by rewrite decide_False by lia.
  - assert (u64 (a + PGSIZE) = a + 4096 ∧ u64 (pa + PGSIZE) = pa + 4096) as [-> ->].
    { change MAXVA with 274877906944 in Hmax. unfold PGSIZE. zlia. }
    assert ((a + 4096) / 4096 = a / 4096 + 1) as Hdiv by zlia.
    eapply wp_mono.
    + apply (IH (a + 4096) (pa + 4096) s2 T1 fl1); try done; [zlia..| |zlia].
      intros n Hn. unfold mapped. rewrite Hl, decide_False by zlia. apply Hun. zlia.
    + intros r s3 (T3 & fl3 & k & Hi3 & Hg3 & Ho3 & Hl3 & Hk). rewrite Hdiv in Hl3, Ho3.
      exists T3, fl3, (k + 1). split; [done|]. split; [by eapply grown_trans|].
      split; [apply (on_path_trans _ (a / 4096) (a / 4096 + 1) _ _ T1); [lia|zlia|exact Ho1|exact Ho3]|].
      assert ((last - (a + 4096)) / 4096 = (last - a) / 4096 - 1) as Hd by zlia.
      split; [|rewrite Hd in Hk; destruct Hk as [[-> ->]|(-> & Hk & ->)];
        [left; split; [done|lia]|right; split; [done|split; [lia|done]]]].
      assert (0 ≤ k) as Hk0 by (clear -Hk Hle Hne Ha Hlast; zlia).
      clear -Hl3 Hl Hk0. intros n. rewrite Hl3, Hl.
      destruct (decide (n = a / 4096)) as [->|].
      * rewrite decide_False, decide_True by lia. f_equal. lia.
      * destruct (decide (a / 4096 + 1 ≤ n < a / 4096 + 1 + k)).
        -- rewrite decide_True by lia. f_equal. lia.
        -- by rewrite decide_False by lia.
Qed.

(** [mappages] over the pages that [va .. va+size-1] touches. *)
Lemma wp_mappages_path pagetable va size pa perm s T fl :
  vm_inv s pagetable T fl → 0 ≤ va → 0 < size → va + size ≤ MAXVA →
  pa mod 4096 = 0 → 0 ≤ pa → pa + size + 8192 ≤ 2 ^ 56 → perm_ok perm →
  (∀ n, va / 4096 ≤ n ≤ (va + size - 1) / 4096 → mapped (k_mem s) T n = false) →
  wp (mappages pagetable va size pa perm) s (fun r s' => ∃ T' fl' k,
    vm_inv s' pagetable T' fl' ∧ grown s T fl s' T' fl' ∧
    on_path (va / 4096) ((va + size - 1) / 4096) T T' ∧
    (∀ n, leaf (k_mem s') T' n = if decide (va / 4096 ≤ n < va / 4096 + k)
       then leaf_pte (pa + (n - va / 4096) * 4096) perm else leaf (k_mem s) T n) ∧
    ((r = 0 ∧ k = (va + size - 1) / 4096 - va / 4096 + 1) ∨
     (r = -1 ∧ 0 ≤ k ≤ (va + size - 1) / 4096 - va / 4096 ∧ fl' = []))).
Proof.
  intros Hi Hva Hsz Hmax Hpa Hpa0 Hpau Hperm Hun. unfold mappages. wp_simpl.
  destruct (Z.eqb_spec size 0); [lia|]. wp_simpl. rewrite !PGROUNDDOWN_eq.
  change MAXVA with 274877906944 in Hmax.
  assert (u64 (va + size - 1) = va + size - 1) as -> by zlia.
  set (a := va - va mod 4096). set (last := va + size - 1 - (va + size - 1) mod 4096).
  assert (a mod 4096 = 0 ∧ last mod 4096 = 0 ∧ a / 4096 = va / 4096 ∧
    last / 4096 = (va + size - 1) / 4096 ∧ 0 ≤ a ∧ a ≤ last ∧ last < 274877906944 ∧
    last - a ≤ size + 4095 ∧ (last - a) / 4096 = (va + size - 1) / 4096 - va / 4096)
    as (H1 & H2 & H3 & H4 & H5 & H6 & H7 & H8 & H9) by (unfold a, last; zlia).
  destruct (Z.leb_spec a last); [|lia]. unfold PGSIZE. rewrite <- H9, <- H3, <- H4.
  apply (wp_mappages_loop _ _ _ _ _ _ _ _ fl); try done; [lia| |lia].
  by rewrite H3, H4.
Qed.

Lemma wp_mappages pagetable va size pa perm s T fl :
  vm_inv s pagetable T fl → 0 ≤ va → 0 < size → va + size ≤ MAXVA →
  pa mod 4096 = 0 → 0 ≤ pa → pa + size + 8192 ≤ 2 ^ 56 → perm_ok perm →
  (∀ n, va / 4096 ≤ n ≤ (va + size - 1) / 4096 → mapped (k_mem s) T n = false) →
  wp (mappages pagetable va size pa perm) s (fun r s' => ∃ T' fl' k,
    vm_inv s' pagetable T' fl' ∧ grown s T fl s' T' fl' ∧
    (∀ n, leaf (k_mem s') T' n = if decide (va / 4096 ≤ n < va / 4096 + k)
       then leaf_pte (pa + (n - va / 4096) * 4096) perm else leaf (k_mem s) T n) ∧
    ((r = 0 ∧ k = (va + size - 1) / 4096 - va / 4096 + 1) ∨
     (r = -1 ∧ 0 ≤ k ≤ (va + size - 1) / 4096 - va / 4096 ∧ fl' = []))).
Proof.
  intros. eapply wp_mono; [by apply (wp_mappages_path pagetable va size pa perm s T fl)|].
  intros r s' (T' & fl' & k & Ha & Hb & _ & Hc). by exists T', fl', k.
Qed.

End vmfacts.
