(* ===== verification/Uvm.v ===== *)
(** * User address spaces (kernel/vm.c)

    [us_inv s root T U fl]: the page table [T] at [root] maps the virtual page
    [n] to the physical page [pa] for every [U !! n = Some pa], and these
    pages belong to the address space alone: no two virtual pages share one,
    none is a page of the table, none is on the free list [fl]. *)

From Stdlib Require Import ZArith Lia.
From stdpp Require Import base gmap strings numbers list.
From S2P Require Import Prelude Spinlock Mem Kstring Kalloc Vm PageTable VmFacts.
Local Open Scope xv6_scope.

(** Number of virtual pages. *)
Definition NVPAGES : Z := MAXVA / 4096.

Section uvm.
Context `{KI : KernelImage}.

Record us_inv (s : kst) (root : Z) (T : tbl) (U : gmap Z Z) (fl : list Z) : Prop := {
  us_vm : vm_inv s root T fl;
  us_range : ∀ n pa, U !! n = Some pa → 0 ≤ n < NVPAGES;
  us_leaf : ∀ n pa, U !! n = Some pa → ∃ perm,
    perm_ok perm ∧ Z.lor perm PTE_V ≠ PTE_V ∧ leaf (k_mem s) T n = leaf_pte pa perm;
  us_page : ∀ n pa, U !! n = Some pa → page_ok pa;
  us_free : ∀ n pa, U !! n = Some pa → pa ∉ fl;
  us_tbl : ∀ n pa, U !! n = Some pa → ¬ in_tbl T pa;
  us_inj : ∀ n n' pa, U !! n = Some pa → U !! n' = Some pa → n = n'
}.

Lemma page_ok_pa pa : page_ok pa → pa_ok pa.
Proof. intros [? ?]%page_ok_56. split; [lia|done]. Qed.

(** Removing the mapping of one owned page, after [kfree] of the page. *)
Lemma us_inv_unmap s s1 root T U fl n pa pt :
  us_inv s root T U fl → U !! n = Some pa → T !! (0%nat, n / 512) = Some pt →
  kmem_inv s1 (pa :: fl) → same_outside pa (k_mem s) (k_mem s1) →
  let s2 := set_mem (store64 (k_mem s1) (pt + 8 * (n mod 512)) 0) s1 in
  us_inv s2 root T (delete n U) (pa :: fl) ∧
  (∀ n', leaf (k_mem s2) T n' = if decide (n' = n) then 0 else leaf (k_mem s) T n') ∧
  (∀ x, outside T x → ¬ (pa ≤ x < pa + 4096) → k_mem s2 !! x = k_mem s !! x).
Proof.
  intros [Hvm Hrg Hlf Hpg Hfr Htb Hinj] Hn Hpt Hk1 Hso s2.
  assert (same_tbl T (k_mem s) (k_mem s1)) as Hst.
  { eapply same_tbl_outside; [apply Hvm|by eapply Hpg|by eapply Htb|done]. }
  assert (vm_inv s1 root T (pa :: fl)) as Hvm1.
  { split; [done|eapply pt_rep_frame; [done|apply Hvm]|].
    intros c Hc [->|Hin]%elem_of_cons; [by eapply Htb|]. by eapply (vi_fresh _ _ _ _ Hvm). }
  destruct (vm_inv_set s1 root T _ n pt 0 Hvm1 Hpt ltac:(lia)) as (Hvm2 & Hg2 & Hl2).
  fold s2 in Hvm2, Hg2, Hl2.
  assert (∀ n', leaf (k_mem s2) T n' = if decide (n' = n) then 0 else leaf (k_mem s) T n') as Hl.
  { intros n'. rewrite Hl2. case_decide; [done|]. by apply leaf_frame. }
  split; [|split; [done|]].
  - split; [done|..].
    + intros n' pa' [_ H]%lookup_delete_Some. by eapply Hrg.
    + intros n' pa' [Hne H]%lookup_delete_Some. rewrite Hl, decide_False by done. by apply Hlf.
    + intros n' pa' [_ H]%lookup_delete_Some. by eapply Hpg.
    + intros n' pa' [Hne H]%lookup_delete_Some [->|Hin]%elem_of_cons; [|by eapply Hfr].
      by apply Hne; eapply Hinj.
    + intros n' pa' [_ H]%lookup_delete_Some. by eapply Htb.
    + intros n' n'' pa' [_ H]%lookup_delete_Some [_ H']%lookup_delete_Some. by eapply Hinj.
  - intros x Hx Hpx. rewrite (gr_frame _ _ _ _ _ _ Hg2) by done. apply Hso. lia.
Qed.

(** The pages [U] maps in a range. *)
Definition owned_in (U : gmap Z Z) (lo k p : Z) : Prop := ∃ n, lo ≤ n < lo + k ∧ U !! n = Some p.

Lemma us_leaf_bits s root T U fl n pa : us_inv s root T U fl → U !! n = Some pa →
  let v := leaf (k_mem s) T n in
  Z.land v PTE_V ≠ 0 ∧ PTE_FLAGS v ≠ PTE_V ∧ PTE2PA v = pa ∧ 0 ≤ v < 2 ^ 64 ∧
  ∃ pt, T !! (0%nat, n / 512) = Some pt ∧ entry T n = pt + 8 * (n mod 512) ∧ page_ok pt.
Proof.
  intros Hu Hn v. destruct (us_leaf _ _ _ _ _ Hu n pa Hn) as (perm & Hp & Hne & Hl).
  fold v in Hl. assert (pa_ok pa) as Hpa by (eapply page_ok_pa, us_page; done).
  assert (Z.land v PTE_V ≠ 0) as HV.
  { rewrite Hl. by apply truthy_true, leaf_pte_valid. }
  split; [done|]. rewrite Hl. split; [by rewrite leaf_pte_flags|].
  split; [by apply leaf_pte_addr|]. split; [by apply leaf_pte_range|].
  destruct (leaf_table (k_mem s) T n HV) as (pt & H1 & H2). exists pt. split; [done|].
  split; [done|]. eapply pr_page; [apply Hu|done].
Qed.

Lemma entry_at a : a mod 4096 = 0 → a / 4096 * 4096 = a.
Proof. intros. zlia. Qed.

(** What freeing the pages [lo .. lo+k-1] does to an address space. *)
Definition unmapped (s : kst) (root : Z) (T : tbl) (U : gmap Z Z) (fl : list Z) (lo k : Z) (s' : kst) : Prop :=
  ∃ U' fl',
    us_inv s' root T U' fl' ∧ k_mach s' ≡ k_mach s ∧
    (∀ n, U' !! n = if decide (lo ≤ n < lo + k) then None else U !! n) ∧
    (∀ p, p ∈ fl' ↔ p ∈ fl ∨ owned_in U lo k p) ∧
    (∀ n, leaf (k_mem s') T n = if decide (lo ≤ n < lo + k) then 0 else leaf (k_mem s) T n) ∧
    (∀ x, outside T x → (∀ p, owned_in U lo k p → ¬ (p ≤ x < p + 4096)) →
       k_mem s' !! x = k_mem s !! x).

Lemma unmapped_none s root T U fl lo : us_inv s root T U fl → unmapped s root T U fl lo 0 s.
Proof.
  intros Hu. exists U, fl. split; [done|]. split; [done|]. split; [|split; [|split; [|done]]].
  - intros n. by rewrite decide_False by lia.
  - intros p. split; [by left|]. intros [?|(n & ? & _)]; [done|lia].
  - intros n. by rewrite decide_False by lia.
Qed.

Lemma wp_uvmunmap_loop k pagetable a s T U fl :
  us_inv s pagetable T U fl → a mod 4096 = 0 → 0 ≤ a →
  (∀ n, a / 4096 ≤ n < a / 4096 + Z.of_nat k → is_Some (U !! n)) →
  wp (uvmunmap_loop k pagetable a true) s (fun _ s' =>
    unmapped s pagetable T U fl (a / 4096) (Z.of_nat k) s').
Proof.
  revert a s U fl. induction k as [|k IH]; intros a s U fl Hu Ha Ha0 Hall; cbn [uvmunmap_loop].
  - wp_simpl. by apply unmapped_none.
  - destruct (Hall (a / 4096)) as [pa Hpa]; [lia|].
    destruct (us_leaf_bits _ _ _ _ _ _ _ Hu Hpa) as (HV & HF & HA & _ & pt & Hpt & He & Hp).
    pose proof (us_range _ _ _ _ _ Hu _ _ Hpa) as Hrg. pose proof (Z.mod_pos_bound (a / 4096) 512).
    wp_simpl. eapply wp_walk_noalloc; [apply Hu| |].
    { unfold NVPAGES in Hrg. change MAXVA with 274877906944 in *. zlia. }
    pose proof (page_ok_pos _ Hp). rewrite He. destruct (Z.eqb_spec (pt + 8 * (a / 4096 mod 512)) 0) as [?|_]; [lia|].
    wp_simpl. apply wp_ld64; [apply page_ok_ram_sub; [done|lia|lia]|]. wp_simpl.
    rewrite (leaf_entry _ T) by done.
    destruct (Z.eqb_spec (Z.land (leaf (k_mem s) T (a / 4096)) PTE_V) 0) as [?|_]; [done|].
    destruct (Z.eqb_spec (PTE_FLAGS (leaf (k_mem s) T (a / 4096))) PTE_V) as [?|_]; [done|].
    wp_simpl. rewrite HA. eapply wp_kfree; [apply Hu|by eapply us_page|by eapply us_free|].
    intros s1 Hk1 Hso Hm1. wp_simpl. apply wp_st64; [apply page_ok_writable_sub; [done|lia|lia]|].
    destruct (us_inv_unmap s s1 pagetable T U fl (a / 4096) pa pt Hu Hpa Hpt Hk1 Hso)
      as (Hu2 & Hl2 & Hf2). set (s2 := set_mem _ s1) in *.
    unfold PGSIZE. assert ((a + 4096) / 4096 = a / 4096 + 1) as Hd by zlia. eapply wp_mono.
    + apply (IH (a + 4096) s2 _ _ Hu2); [zlia|lia|]. intros n Hn. rewrite Hd in Hn.
      rewrite lookup_delete_ne by lia. apply Hall. lia.
    + cbn beta. intros _ s3. rewrite Hd. set (lo := a / 4096) in *.
      assert (k_mach s2 ≡ k_mach s) as Hm2 by exact Hm1. clearbody lo s2.
      intros (U' & fl' & Hu3 & Hm3 & HU3 & Hfl3 & Hl3 & Hf3).
      exists U', fl'. split; [done|]. split; [by rewrite Hm3, Hm2|].
      assert (∀ p, owned_in U lo (Z.of_nat (S k)) p ↔
        p = pa ∨ owned_in (delete lo U) (lo + 1) (Z.of_nat k) p) as Hown.
      { intros p. unfold owned_in. setoid_rewrite lookup_delete_Some. split.
        - intros (n & Hn & HUn). destruct (decide (n = lo)) as [->|]; [left; congruence|].
          right. exists n. split; [lia|]. by split.
        - intros [->|(n & Hn & _ & HUn)]; [exists lo|exists n]; (split; [lia|done]). }
      split; [|split; [|split]].
      * intros n. rewrite HU3, lookup_delete.
        repeat case_decide; try done; lia.
      * intros p. rewrite Hfl3, Hown, elem_of_cons. tauto.
      * intros n. rewrite Hl3, Hl2. repeat case_decide; try done; lia.
      * intros x Hx Hpx. rewrite Hf3, Hf2; [done|done| |done|].
        -- apply Hpx, Hown. by left.
        -- intros p Hp'. apply Hpx, Hown. by right.
Qed.

(** ** [uvmunmap] and [uvmdealloc] *)

Lemma wp_uvmunmap pagetable va npages s T U fl :
  us_inv s pagetable T U fl → va mod 4096 = 0 → 0 ≤ va → 0 ≤ npages →
  va + npages * 4096 ≤ MAXVA →
  (∀ n, va / 4096 ≤ n < va / 4096 + npages → is_Some (U !! n)) →
  wp (uvmunmap pagetable va npages true) s
    (fun _ s' => unmapped s pagetable T U fl (va / 4096) npages s').
Proof.
  intros Hu Hal Hva Hn Hmax Hall. unfold uvmunmap. wp_simpl.
  change MAXVA with 274877906944 in Hmax. unfold PGSIZE.
  assert (truthy (va mod 4096) = false) as -> by (by apply truthy_false). wp_simpl.
  assert (u64 (va + u64 (npages * 4096)) - va = npages * 4096) as -> by zlia.
  rewrite Z.div_mul by lia. eapply wp_mono.
  - apply (wp_uvmunmap_loop _ _ _ _ _ _ _ Hu Hal Hva). by rewrite Z2Nat.id.
  - cbn beta. intros _ s'. by rewrite Z2Nat.id.
Qed.

Lemma PGROUNDUP_div sz : 0 ≤ sz ≤ MAXVA →
  PGROUNDUP sz mod 4096 = 0 ∧ PGROUNDUP sz / 4096 = (sz + 4095) / 4096 ∧
  sz ≤ PGROUNDUP sz ≤ MAXVA.
Proof.
  change MAXVA with 274877906944. intros H. rewrite PGROUNDUP_eq by lia. zlia.
Qed.

(** Pages needed for [sz] bytes. *)
Definition npg (sz : Z) : Z := (sz + 4095) / 4096.

Lemma wp_uvmdealloc pagetable oldsz newsz s T U fl :
  us_inv s pagetable T U fl → 0 ≤ newsz ≤ oldsz → oldsz ≤ MAXVA →
  (∀ n, npg newsz ≤ n < npg oldsz → is_Some (U !! n)) →
  wp (uvmdealloc pagetable oldsz newsz) s (fun r s' => r = newsz ∧
    unmapped s pagetable T U fl (npg newsz) (npg oldsz - npg newsz) s').
Proof.
  intros Hu Hsz Hmax Hall. unfold uvmdealloc.
  destruct (Z.leb_spec oldsz newsz) as [Hle|Hgt].
  - wp_simpl. assert (oldsz = newsz) as -> by lia. split; [done|]. rewrite Z.sub_diag.
    by apply unmapped_none.
  - destruct (PGROUNDUP_div newsz) as (A1 & A2 & A3); [lia|].
    destruct (PGROUNDUP_div oldsz) as (B1 & B2 & B3); [lia|].
    fold (npg newsz) in A2. fold (npg oldsz) in B2. unfold PGSIZE. wp_simpl.
    assert ((PGROUNDUP oldsz - PGROUNDUP newsz) / 4096 = npg oldsz - npg newsz) as -> by zlia.
    destruct (Z.ltb_spec (PGROUNDUP newsz) (PGROUNDUP oldsz)).
    + wp_simpl. assert (0 ≤ npg newsz ≤ npg oldsz ∧ npg oldsz ≤ 67108864) as Hr.
      { change MAXVA with 274877906944 in *. unfold npg in *. zlia. }
      assert (u64 (i32 (npg oldsz - npg newsz)) = npg oldsz - npg newsz) as -> by zlia.
      eapply wp_mono; [apply (wp_uvmunmap _ _ _ _ T U fl); [done|done|lia|lia|zlia|]|].
      * rewrite A2. intros n Hn. apply Hall. lia.
      * cbn beta. intros _ s'. rewrite A2. wp_simpl. done.
    + wp_simpl. split; [done|]. assert (npg oldsz - npg newsz = 0) as -> by (unfold npg in *; zlia).
      by apply unmapped_none.
Qed.

(** ** Mapping a fresh page *)

(** Every page is somewhere: free, in the table, or owned. *)
Definition accounted (T : tbl) (U : gmap Z Z) (fl : list Z) (p : Z) : Prop :=
  p ∈ fl ∨ in_tbl T p ∨ ∃ n, U !! n = Some p.

(** The contents of the owned pages are kept. *)
Definition same_user (U : gmap Z Z) (m m' : gmap Z Z) : Prop :=
  ∀ n pa x, U !! n = Some pa → pa ≤ x < pa + 4096 → m' !! x = m !! x.

Lemma owned_outside s root T U fl n pa x :
  us_inv s root T U fl → U !! n = Some pa → pa ≤ x < pa + 4096 → outside T x.
Proof.
  intros Hu Hn Hx c Hc Hx'. pose proof (us_tbl _ _ _ _ _ Hu _ _ Hn) as Hnt.
  pose proof (us_page _ _ _ _ _ Hu _ _ Hn) as Hp. destruct Hc as [k Hk].
  assert (page_ok c) as Hpc by (eapply pr_page; [apply Hu|done]).
  destruct (pages_disjoint pa c Hp Hpc); [|lia|lia]. intros ->. apply Hnt. by exists k.
Qed.

(** The table grew and kept the owned entries. *)
Lemma us_inv_grown s s' root T T' U fl fl' :
  us_inv s root T U fl → vm_inv s' root T' fl' → grown s T fl s' T' fl' →
  (∀ n pa, U !! n = Some pa → leaf (k_mem s') T' n = leaf (k_mem s) T n) →
  us_inv s' root T' U fl' ∧ same_user U (k_mem s) (k_mem s') ∧
  (∀ p, accounted T' U fl' p ↔ accounted T U fl p).
Proof.
  intros Hu Hvm Hg Hl. destruct (gr_fl _ _ _ _ _ _ Hg) as (news & -> & Hnews).
  assert (us_inv s' root T' U fl') as Hu'.
  { destruct Hu as [Huv Hrg Hlf Hpg Hfr Htb Hinj]. split; [done|done| |done| | |done].
    - intros n pa Hn. erewrite Hl by done. by apply Hlf.
    - intros n pa Hn Hin. apply (Hfr n pa Hn). apply elem_of_app. by right.
    - intros n pa Hn [Ht|Hin]%Hnews; [by eapply Htb|].
      apply (Hfr n pa Hn). apply elem_of_app. by left. }
  split; [done|]. split.
  - intros n pa x Hn Hx. apply (gr_frame _ _ _ _ _ _ Hg). by eapply owned_outside.
  - intros p. unfold accounted. rewrite Hnews, elem_of_app. tauto.
Qed.

(** A page outside the address space is written; the free list may shrink. *)
Lemma us_inv_take s s' root T U fl fl' r :
  us_inv s root T U fl → page_ok r → ¬ in_tbl T r → (∀ n, U !! n ≠ Some r) →
  kmem_inv s' fl' → (∀ p, p ∈ fl' → p ∈ fl) → same_outside r (k_mem s) (k_mem s') →
  us_inv s' root T U fl' ∧ same_user U (k_mem s) (k_mem s') ∧
  (∀ n, leaf (k_mem s') T n = leaf (k_mem s) T n).
Proof.
  intros [Huv Hrg Hlf Hpg Hfr Htb Hinj] Hr Hnt HnU Hk Hsub Hso.
  assert (same_tbl T (k_mem s) (k_mem s')) as Hst.
  { eapply same_tbl_outside; [apply Huv|done|done|done]. }
  assert (∀ n, leaf (k_mem s') T n = leaf (k_mem s) T n) as Hl by (intros; by apply leaf_frame).
  split; [|split; [|done]].
  - split; [|done| |done| |done|done].
    + split; [done|eapply pt_rep_frame; [done|apply Huv]|].
      intros c Hc Hin'%Hsub. by eapply (vi_fresh _ _ _ _ Huv).
    + intros n pa Hn. rewrite Hl. by apply Hlf.
    + intros n pa Hn Hin'%Hsub. by eapply Hfr.
  - intros n pa x Hn Hx. apply Hso. destruct (pages_disjoint r pa); [done|by eapply Hpg| |lia|lia].
    intros ->. by eapply HnU.
Qed.

Lemma kmem_inv_scribble s fl r m :
  kmem_inv s fl → page_ok r → r ∉ fl → same_outside r (k_mem s) m → mem_ok m →
  kmem_inv (set_mem m s) fl.
Proof.
  intros [H1 H2 H3 H4 H5 H6] Hr Hni Hso Hm. split; simpl; try done.
  eapply fl_at_ext; [|done]. intros q i Hq Hi. unfold byte_at. f_equal. symmetry. apply Hso.
  rewrite Forall_forall in H5. destruct (pages_disjoint r q Hr (H5 q Hq)); [congruence|lia|lia].
Qed.

(** [kalloc] then [memset] to zero, as every user of fresh memory does. *)
Lemma wp_kalloc_us s root T U fl Q :
  us_inv s root T U fl →
  (∀ s', fl = [] → us_inv s' root T U [] → k_mem s' = k_mem s → k_mach s' ≡ k_mach s → Q 0 s') →
  (∀ r fl' s', fl = r :: fl' → us_inv s' root T U fl' → page_ok r → ¬ accounted T U fl' r →
     same_user U (k_mem s) (k_mem s') → (∀ n, leaf (k_mem s') T n = leaf (k_mem s) T n) →
     same_outside r (k_mem s) (k_mem s') → k_mach s' ≡ k_mach s → Q r s') →
  wp kalloc s Q.
Proof.
  intros Hu Q0 Q1. eapply wp_kalloc; [apply Hu| |].
  - intros s' -> Hk Hm Hmach. apply Q0; [done| |done|done].
    destruct Hu as [[Hki Hrep Hfr] H2 H3 H4 H5 H6 H7].
    split; rewrite ?Hm; [split; [done|by rewrite Hm|done]|done..].
  - intros r fl' s' -> Hk Hr Hni Hm Hmach.
    assert (same_outside r (k_mem s) (k_mem s')) as Hso by (rewrite Hm; apply same_outside_fill).
    assert (¬ in_tbl T r) as Hnt.
    { intros Ht. eapply (vi_fresh _ _ _ _ (us_vm _ _ _ _ _ Hu)); [done|by left]. }
    assert (∀ n, U !! n ≠ Some r) as HnU.
    { intros n Hn. eapply (us_free _ _ _ _ _ Hu); [done|by left]. }
    destruct (us_inv_take s s' root T U (r :: fl') fl' r Hu Hr Hnt HnU Hk) as (Hu' & Hsu & Hl);
      [by right|done|].
    apply (Q1 r fl'); [done|done|done| |done|done|done|done].
    intros [Hin|[Ht|[n Hn]]]; [by apply Hni|by apply Hnt|by apply (HnU n)].
Qed.

Definition zero_page (m : gmap Z Z) (pa : Z) : Prop := ∀ x, pa ≤ x < pa + 4096 → m !! x = Some 0.

Lemma us_inv_zero s root T U fl r :
  us_inv s root T U fl → page_ok r → ¬ accounted T U fl r →
  let s' := set_mem (write_bytes (k_mem s) r (page_fill 0)) s in
  us_inv s' root T U fl ∧ same_user U (k_mem s) (k_mem s') ∧
  (∀ n, leaf (k_mem s') T n = leaf (k_mem s) T n) ∧ zero_page (k_mem s') r.
Proof.
  intros Hu Hr Hacc s'.
  assert (same_outside r (k_mem s) (k_mem s')) as Hso by apply same_outside_fill.
  destruct (us_inv_take s s' root T U fl fl r) as (H1 & H2 & H3);
    [exact Hu|exact Hr| | | |done|exact Hso|].
  - intros ?. apply Hacc. right. by left.
  - intros n ?. apply Hacc. right. right. by exists n.
  - apply (kmem_inv_scribble s fl r); [apply Hu|done| |done|].
    + intros ?. apply Hacc. by left.
    + apply mem_ok_page_fill; [|lia]. apply (ki_mem _ _ (vi_kmem _ _ _ _ (us_vm _ _ _ _ _ Hu))).
  - do 3 (split; [done|]). intros x Hx. simpl. by rewrite page_fill_lookup, decide_True.
Qed.

Lemma us_inv_insert s root T U fl v pa perm :
  us_inv s root T U fl → 0 ≤ v < NVPAGES → page_ok pa → ¬ accounted T U fl pa →
  perm_ok perm → Z.lor perm PTE_V ≠ PTE_V → leaf (k_mem s) T v = leaf_pte pa perm →
  us_inv s root T (<[v := pa]> U) fl.
Proof.
  intros [Huv Hrg Hlf Hpg Hfr Htb Hinj] Hv Hpa Hacc Hperm Hne Hl.
  split; [done|..]; setoid_rewrite lookup_insert_Some.
  - intros n p [[<- _]|[_ H]]; [done|by eapply Hrg].
  - intros n p [[<- <-]|[_ H]]; [by exists perm|by eapply Hlf].
  - intros n p [[_ <-]|[_ H]]; [done|by eapply Hpg].
  - intros n p [[_ <-]|[_ H]]; [|by eapply Hfr]. intros Hin. apply Hacc. by left.
  - intros n p [[_ <-]|[_ H]]; [|by eapply Htb]. intros Hin. apply Hacc. right. by left.
  - intros n n' p [[<- <-]|[_ H]] [[<- H']|[_ H']]; [done| | |by eapply Hinj].
    + exfalso. apply Hacc. right. right. by exists n'.
    + exfalso. apply Hacc. right. right. exists n. by rewrite H'.
Qed.

(** One page needs at most two new tables. *)
Lemma on_path_size n T T' : T ⊆ T' → on_path n n T T' → (size T' ≤ size T + 2)%nat.
Proof.
  intros Hs Hp. rewrite <- !size_dom.
  assert (dom T' ⊆ dom T ∪ {[(0%nat, key 0 (n * 4096)); (1%nat, key 1 (n * 4096))]}) as Hd.
  { intros [l p] Hk%elem_of_dom. destruct (T !! (l, p)) as [c|] eqn:E; [apply elem_of_union_l, elem_of_dom; by exists c|].
    destruct (Hp l p Hk E) as (Hl & n' & Hn & ->). assert (n' = n) as -> by lia. apply elem_of_union_r.
    destruct l as [|[|l]]; [set_solver..|lia]. }
  assert (∀ X Y : gset (nat * Z), size (X ∪ Y) ≤ size X + size Y)%nat as Hu.
  { intros X Y. rewrite size_union_alt. apply Nat.add_le_mono_l, subseteq_size. set_solver. }
  apply subseteq_size in Hd. pose proof (Hu (dom T) {[(0%nat, key 0 (n * 4096)); (1%nat, key 1 (n * 4096))]}) as H1.
  pose proof (Hu {[(0%nat, key 0 (n * 4096))]} {[(1%nat, key 1 (n * 4096))]}) as H2. rewrite !size_singleton in H2. lia.
Qed.

Lemma wp_map_page pagetable va pa perm s T U fl :
  us_inv s pagetable T U fl → va mod 4096 = 0 → 0 ≤ va → va + 4096 ≤ MAXVA →
  page_ok pa → ¬ accounted T U fl pa → perm_ok perm → Z.lor perm PTE_V ≠ PTE_V →
  mapped (k_mem s) T (va / 4096) = false → U !! (va / 4096) = None →
  wp (mappages pagetable va PGSIZE pa perm) s (fun r s' => ∃ T' fl',
    k_mach s' ≡ k_mach s ∧ (grown s T fl s' T' fl' ∧ (size T' ≤ size T + 2)%nat) ∧ same_user U (k_mem s) (k_mem s') ∧
    (∀ x, pa ≤ x < pa + 4096 → k_mem s' !! x = k_mem s !! x) ∧
    ((r = 0 ∧ us_inv s' pagetable T' (<[va / 4096 := pa]> U) fl' ∧
      ∀ n, leaf (k_mem s') T' n =
        if decide (n = va / 4096) then leaf_pte pa perm else leaf (k_mem s) T n) ∨
     (r = -1 ∧ us_inv s' pagetable T' U fl' ∧ fl' = [] ∧ same_leaf s T s' T'))).
Proof.
  intros Hu Hal Hva Hmax Hpa Hacc Hperm Hpne Hun HU.
  destruct (page_ok_56 pa Hpa) as [Hp56 Hpal]. eapply wp_mono.
  - apply (wp_mappages_path _ _ _ _ _ _ T fl); [apply Hu|done|done| |done|lia| |done|].
    + unfold PGSIZE. lia.
    + unfold page_ok, PGSIZE, PHYSTOP, KERNBASE in *. lia.
    + intros n Hn. unfold PGSIZE in Hn. assert (n = va / 4096) as -> by zlia. done.
  - cbn beta. unfold PGSIZE. intros r s' (T' & fl' & k & Hi & Hg & Hop & Hl & Hk).
    assert ((va + 4096 - 1) / 4096 - va / 4096 = 0) as Hz by zlia. replace ((va + 4096 - 1) / 4096) with (va / 4096) in Hop by lia. rewrite Hz in Hk.
    set (v := va / 4096) in *.
    assert (∀ n, leaf (k_mem s') T' n =
      if decide (n = v ∧ k = 1) then leaf_pte pa perm else leaf (k_mem s) T n) as Hl'.
    { intros n. rewrite Hl. destruct (decide (n = v ∧ k = 1)) as [[-> ->]|].
      - rewrite decide_True by lia. f_equal. lia.
      - rewrite decide_False by lia. done. }
    destruct (us_inv_grown s s' pagetable T T' U fl fl' Hu Hi Hg) as (Hu' & Hsu & Hac).
    { intros n p Hn. rewrite Hl', decide_False; [done|]. intros [-> _]. congruence. }
    exists T', fl'. split; [apply Hg|]. split; [split; [done|by eapply on_path_size; [apply Hg|]]|]. split; [done|]. split.
    { intros x Hx. apply (gr_frame _ _ _ _ _ _ Hg). intros c Hc Hxc.
      destruct (pages_disjoint pa c); [done| |intros ->|lia|lia].
      - destruct Hc. eapply pr_page; [apply Hi|done].
      - apply Hacc, Hac. right. by left. }
    destruct Hk as [[-> ->]|(-> & Hk & ->)]; [left|right].
    + split; [done|]. split.
      * apply (us_inv_insert _ _ _ _ _ _ _ perm); [done| |done| |done|done|].
        -- unfold NVPAGES, v. change MAXVA with 274877906944 in *. zlia.
        -- by rewrite Hac.
        -- by rewrite Hl', decide_True.
      * intros n. rewrite Hl'. repeat case_decide; try done; lia.
    + split; [done|]. split; [done|]. split; [done|]. intros n. rewrite Hl', decide_False; [done|lia].
Qed.

End uvm.
