(* ===== verification/UvmAlloc.v ===== *)
(** * Growing and shrinking address spaces (kernel/vm.c)

    [uvmalloc] and [uvmdealloc]: the pages they add and remove, and that a
    failure half-way gives back every page it took. *)

From Stdlib Require Import ZArith Lia.
From stdpp Require Import base gmap strings numbers list.
From S2P Require Import Prelude Spinlock Mem Kstring Kalloc Vm PageTable VmFacts Uvm.
Local Open Scope xv6_scope.

Section uvmalloc.
Context `{KI : KernelImage}.

Lemma wp_kfree_us s root T U fl r Q :
  us_inv s root T U fl → page_ok r → ¬ accounted T U fl r →
  (∀ s', us_inv s' root T U (r :: fl) → same_user U (k_mem s) (k_mem s') →
     (∀ n, leaf (k_mem s') T n = leaf (k_mem s) T n) → k_mach s' ≡ k_mach s →
     same_outside r (k_mem s) (k_mem s') → Q tt s') →
  wp (kfree r) s Q.
Proof.
  intros Hu Hr Hacc HQ.
  assert (¬ in_tbl T r) as Hnt by (intros ?; apply Hacc; right; by left).
  assert (∀ n, U !! n ≠ Some r) as HnU.
  { intros n ?. apply Hacc. right. right. by exists n. }
  assert (r ∉ fl) as Hni by (intros ?; apply Hacc; by left).
  eapply wp_kfree; [apply Hu|done|done|]. intros s' Hk Hso Hmach.
  assert (same_tbl T (k_mem s) (k_mem s')) as Hst.
  { eapply same_tbl_outside; [apply Hu|exact Hr|done|exact Hso]. }
  destruct Hu as [Huv Hrg Hlf Hpg Hfr Htb Hinj].
  assert (∀ n, leaf (k_mem s') T n = leaf (k_mem s) T n) as Hl by (intros; by apply leaf_frame).
  apply HQ; [|intros n pa x Hn Hx; apply Hso|done|done|done].
  - split; [split; [done|eapply pt_rep_frame; [done|apply Huv]|]|done| |done| |done|done].
    + intros c Hc [->|Hin]%elem_of_cons; [done|]. by eapply (vi_fresh _ _ _ _ Huv).
    + intros n pa Hn. rewrite Hl. by apply Hlf.
    + intros n pa Hn [->|Hin]%elem_of_cons; [by eapply HnU|by eapply Hfr].
  - destruct (pages_disjoint r pa); [done|by eapply Hpg| |lia|lia]. intros ->. by eapply HnU.
Qed.

(** ** [uvmalloc] *)

(** The pages [lo .. hi-1] were added, zeroed, with permissions [perm]. *)
Definition alloc_ok (s : kst) (root : Z) (T : tbl) (U : gmap Z Z) (fl : list Z) (lo hi perm : Z) (s' : kst) : Prop :=
  ∃ T' U' fl',
    us_inv s' root T' U' fl' ∧ k_mach s' ≡ k_mach s ∧
    (∀ n, ¬ (lo ≤ n < hi) → U' !! n = U !! n ∧ leaf (k_mem s') T' n = leaf (k_mem s) T n) ∧
    (∀ n, lo ≤ n < hi → ∃ pa, U' !! n = Some pa ∧
       leaf (k_mem s') T' n = leaf_pte pa perm ∧ zero_page (k_mem s') pa) ∧
    same_user U (k_mem s) (k_mem s') ∧
    (∀ p, accounted T' U' fl' p ↔ accounted T U fl p).

(** Nothing of [lo .. hi-1] stays mapped and no page is lost; the pages
    [lo .. cur-1], owned before, were freed. *)
Definition alloc_fail (s : kst) (root : Z) (T : tbl) (U : gmap Z Z) (fl : list Z) (lo cur hi : Z) (s' : kst) : Prop :=
  ∃ T' U' fl',
    us_inv s' root T' U' fl' ∧ k_mach s' ≡ k_mach s ∧
    (∀ n, U' !! n = if decide (lo ≤ n < cur) then None else U !! n) ∧
    (∀ n, ¬ (lo ≤ n < hi) → leaf (k_mem s') T' n = leaf (k_mem s) T n) ∧
    (∀ n, lo ≤ n < hi → mapped (k_mem s') T' n = false) ∧
    same_user U' (k_mem s) (k_mem s') ∧
    (∀ p, accounted T' U' fl' p ↔ accounted T U fl p).

Lemma unmapped_fail s s1 s' root T T1 U fl fl1 lo cur hi :
  us_inv s1 root T1 U fl1 → k_mach s1 ≡ k_mach s → same_leaf s T s1 T1 →
  same_user U (k_mem s) (k_mem s1) → (∀ p, accounted T1 U fl1 p ↔ accounted T U fl p) →
  (∀ n, cur ≤ n < hi → mapped (k_mem s) T n = false) → cur ≤ hi →
  unmapped s1 root T1 U fl1 lo (cur - lo) s' →
  alloc_fail s root T U fl lo cur hi s'.
Proof.
  intros Hu1 Hm1 Hl1 Hs1 Ha1 Hun Hle (U' & fl' & Hu' & Hm' & HU' & Hfl' & Hl' & Hf').
  replace (lo + (cur - lo)) with cur in * by lia.
  exists T1, U', fl'. split; [done|]. split; [by rewrite Hm'|]. split; [done|].
  split; [|split; [|split]].
  - intros n Hn. rewrite Hl', decide_False by lia. apply Hl1.
  - intros n Hn. unfold mapped. rewrite Hl'. case_decide; [done|]. rewrite Hl1. apply Hun. lia.
  - intros n pa x Hn Hx. rewrite HU' in Hn. case_decide; [done|].
    rewrite Hf'; [by eapply Hs1|apply (owned_outside _ _ _ _ _ _ _ _ Hu1 Hn Hx)|].
    intros p (n' & Hn' & Hp) Hx'.
    destruct (pages_disjoint p pa); [by eapply (us_page _ _ _ _ _ Hu1)|by eapply (us_page _ _ _ _ _ Hu1)| |lia|lia].
    intros ->. pose proof (us_inj _ _ _ _ _ Hu1 _ _ _ Hn Hp). lia.
  - intros p. rewrite <- Ha1. unfold accounted. rewrite Hfl'. setoid_rewrite HU'. split.
    + intros [[?|(n & _ & ?)]|[?|[n Hn]]]; [by left|eauto|eauto|].
      case_decide; [done|eauto].
    + intros [?|[?|[n Hn]]]; [eauto|eauto|].
      destruct (decide (lo ≤ n < cur)) as [Hin|Hin].
      * left. right. exists n. split; [lia|done].
      * right. right. exists n. by rewrite decide_False.
Qed.

Lemma npg_aligned a : a mod 4096 = 0 → npg a = a / 4096.
Proof. intros. unfold npg. zlia. Qed.

Lemma wp_rollback pagetable a oldsz hi s s1 T T1 U fl fl1 :
  us_inv s1 pagetable T1 U fl1 → k_mach s1 ≡ k_mach s → same_leaf s T s1 T1 →
  same_user U (k_mem s) (k_mem s1) → (∀ p, accounted T1 U fl1 p ↔ accounted T U fl p) →
  (∀ n, a / 4096 ≤ n < hi → mapped (k_mem s) T n = false) → a / 4096 ≤ hi →
  a mod 4096 = 0 → oldsz mod 4096 = 0 → 0 ≤ oldsz ≤ a → a ≤ MAXVA →
  (∀ n, oldsz / 4096 ≤ n < a / 4096 → is_Some (U !! n)) →
  wp (uvmdealloc pagetable a oldsz) s1 (fun _ s' =>
    alloc_fail s pagetable T U fl (oldsz / 4096) (a / 4096) hi s').
Proof.
  intros Hu Hm Hl Hs Ha Hun Hle Ha4 Ho4 Ho HM Hown. eapply wp_mono.
  - apply (wp_uvmdealloc _ _ _ _ T1 U fl1 Hu Ho HM). rewrite !npg_aligned by done. done.
  - cbn beta. intros r s' [_ H]. rewrite !npg_aligned in H by done.
    by eapply (unmapped_fail s s1 s' pagetable T T1 U fl fl1).
Qed.

(** One page of [uvmalloc]. *)
Lemma alloc_fail_step s s2 s' root T T2 U fl fl2 lo cur hi pa :
  k_mach s2 ≡ k_mach s → U !! cur = None → lo ≤ cur < hi →
  (∀ n, n ≠ cur → leaf (k_mem s2) T2 n = leaf (k_mem s) T n) →
  same_user U (k_mem s) (k_mem s2) →
  (∀ p, accounted T2 (<[cur := pa]> U) fl2 p ↔ accounted T U fl p) →
  alloc_fail s2 root T2 (<[cur := pa]> U) fl2 lo (cur + 1) hi s' →
  alloc_fail s root T U fl lo cur hi s'.
Proof.
  intros Hm2 HU Hcur Hl2 Hs2 Ha2 (T' & U' & fl' & Hu' & Hm' & HU' & Hl' & Hun' & Hs' & Ha').
  assert (∀ n, U' !! n = if decide (lo ≤ n < cur) then None else U !! n) as HU2.
  { intros n. rewrite HU'. destruct (decide (n = cur)) as [->|].
    - by rewrite decide_True, decide_False, HU by lia.
    - rewrite lookup_insert_ne by done. repeat case_decide; try done; lia. }
  exists T', U', fl'. split; [done|]. split; [by rewrite Hm'|]. split; [done|].
  split; [|split; [done|split]].
  - intros n Hn. rewrite Hl', Hl2 by lia. done.
  - intros n p x Hn Hx. rewrite (Hs' n p x) by done. apply (Hs2 n p); [|done].
    rewrite HU2 in Hn. by case_decide.
  - intros p. by rewrite Ha', Ha2.
Qed.

Lemma alloc_ok_step s s2 s' root T T2 U fl fl2 cur hi pa perm :
  k_mach s2 ≡ k_mach s → U !! cur = None → cur < hi →
  (∀ n, leaf (k_mem s2) T2 n = if decide (n = cur) then leaf_pte pa perm else leaf (k_mem s) T n) →
  same_user U (k_mem s) (k_mem s2) → zero_page (k_mem s2) pa →
  (∀ p, accounted T2 (<[cur := pa]> U) fl2 p ↔ accounted T U fl p) →
  alloc_ok s2 root T2 (<[cur := pa]> U) fl2 (cur + 1) hi perm s' →
  alloc_ok s root T U fl cur hi perm s'.
Proof.
  intros Hm2 HU Hcur Hl2 Hs2 Hz2 Ha2 (T' & U' & fl' & Hu' & Hm' & Hold & Hnew & Hs' & Ha').
  exists T', U', fl'. split; [done|]. split; [by rewrite Hm'|].
  split; [|split; [|split]].
  - intros n Hn. destruct (Hold n ltac:(lia)) as [-> ->].
    rewrite lookup_insert_ne by lia. by rewrite Hl2, decide_False by lia.
  - intros n Hn. destruct (decide (n = cur)) as [->|]; [|apply Hnew; lia].
    destruct (Hold cur ltac:(lia)) as [H1 H2]. exists pa.
    rewrite lookup_insert_eq in H1. split; [done|]. split; [by rewrite H2, Hl2, decide_True|].
    intros x Hx. rewrite (Hs' cur pa x); [by apply Hz2|by rewrite lookup_insert_eq|done].
  - intros n p x Hn Hx. rewrite (Hs' n p x); [by apply (Hs2 n p)| |done].
    rewrite lookup_insert_ne; [done|congruence].
  - intros p. by rewrite Ha', Ha2.
Qed.

Lemma accounted_cons T U fl r p : accounted T U (r :: fl) p ↔ p = r ∨ accounted T U fl p.
Proof. unfold accounted. rewrite elem_of_cons. tauto. Qed.

Lemma accounted_insert T U fl v r p : U !! v = None →
  accounted T (<[v := r]> U) fl p ↔ p = r ∨ accounted T U fl p.
Proof.
  intros HN. unfold accounted. setoid_rewrite lookup_insert_Some. split.
  - intros [?|[?|(n & [[_ <-]|[_ ?]])]]; eauto.
  - intros [->|[?|[?|[n Hn]]]]; [eauto 6|eauto|eauto|]. right. right. exists n. right.
    split; [congruence|done].
Qed.

(** [mappages] of the fresh page [r]: the rest of the loop body. *)
Lemma wp_map_fresh pagetable va r perm s T U fl Q :
  us_inv s pagetable T U fl → va mod 4096 = 0 → 0 ≤ va → va + 4096 ≤ MAXVA →
  page_ok r → ¬ accounted T U fl r → perm_ok perm → Z.lor perm PTE_V ≠ PTE_V →
  mapped (k_mem s) T (va / 4096) = false → U !! (va / 4096) = None →
  (∀ s' T' fl', us_inv s' pagetable T' (<[va / 4096 := r]> U) fl' → k_mach s' ≡ k_mach s →
     same_user U (k_mem s) (k_mem s') →
     (∀ x, r ≤ x < r + 4096 → k_mem s' !! x = k_mem s !! x) →
     (∀ n, leaf (k_mem s') T' n =
        if decide (n = va / 4096) then leaf_pte r perm else leaf (k_mem s) T n) →
     (∀ p, accounted T' (<[va / 4096 := r]> U) fl' p ↔ accounted T U (r :: fl) p) →
     grown s T fl s' T' fl' ∧ (size T' ≤ size T + 2)%nat → Q 0 s') →
  (∀ s' T' fl', us_inv s' pagetable T' U fl' → k_mach s' ≡ k_mach s →
     same_user U (k_mem s) (k_mem s') → same_leaf s T s' T' → ¬ accounted T' U fl' r →
     (∀ p, accounted T' U (r :: fl') p ↔ accounted T U (r :: fl) p) →
     grown s T fl s' T' fl' ∧ (size T' ≤ size T + 2)%nat ∧ fl' = [] → Q (-1) s') →
  wp (mappages pagetable va PGSIZE r perm) s Q.
Proof.
  intros Hu Hal Hva Hmax Hr Hacc Hperm Hne Hun HU Q0 Q1. eapply wp_mono.
  - by apply (wp_map_page _ _ _ _ _ T U fl).
  - cbn beta. intros res s' (T' & fl' & Hm & [Hg Hsize] & Hsu & Hpg & Hres).
    assert (∀ p, accounted T' U fl' p ↔ accounted T U fl p) as Hac.
    { intros p. destruct (gr_fl _ _ _ _ _ _ Hg) as (news & -> & Hnews).
      unfold accounted. rewrite Hnews, elem_of_app. tauto. }
    destruct Hres as [(-> & Hu' & Hl)|(-> & Hu' & Hnil & Hl)].
    + apply (Q0 s' T' fl'); try done. intros p. rewrite accounted_insert by done.
      by rewrite accounted_cons, Hac.
    + apply (Q1 s' T' fl'); try done; [by rewrite Hac|]. intros p. by rewrite !accounted_cons, Hac.
Qed.

Lemma wp_uvmalloc_loop fuel pagetable a oldsz newsz xperm s T U fl :
  let perm := Z.lor (Z.lor PTE_R PTE_U) xperm in
  us_inv s pagetable T U fl →
  a mod 4096 = 0 → oldsz mod 4096 = 0 → 0 ≤ oldsz ≤ a → newsz ≤ MAXVA →
  a / 4096 ≤ npg newsz ≤ a / 4096 + Z.of_nat fuel →
  perm_ok perm → Z.lor perm PTE_V ≠ PTE_V →
  (∀ n, a / 4096 ≤ n < npg newsz → mapped (k_mem s) T n = false ∧ U !! n = None) →
  (∀ n, oldsz / 4096 ≤ n < a / 4096 → is_Some (U !! n)) →
  wp (uvmalloc_loop fuel pagetable a oldsz newsz xperm) s (fun r s' =>
    (r = newsz ∧ alloc_ok s pagetable T U fl (a / 4096) (npg newsz) perm s') ∨
    (r = 0 ∧ alloc_fail s pagetable T U fl (oldsz / 4096) (a / 4096) (npg newsz) s' ∧
     Z.of_nat (length fl) ≤ 3 * (npg newsz - a / 4096))).
Proof.
  intros perm. revert a s T U fl. induction fuel as [|fuel IH];
    intros a s T U fl Hu Ha Ho Hoa HM Hf Hperm Hpne Hun Hown; cbn [uvmalloc_loop];
    (destruct (Z.ltb_spec a newsz) as [Hlt|Hge]; cbn [negb];
      [|wp_simpl; left; split; [done|]; exists T, U, fl; do 2 (split; [done|]);
        assert (npg newsz = a / 4096) as -> by (unfold npg in *; zlia);
        do 2 (split; [intros; lia || done|]); done]).
  { unfold npg in *. zlia. }
  assert (a / 4096 < npg newsz ∧ a + 4096 ≤ MAXVA) as [Hlo HaM].
  { unfold npg in *. change MAXVA with 274877906944 in *. zlia. }
  destruct (Hun (a / 4096)) as [Hun0 HU0]; [lia|].
  wp_simpl. eapply wp_kalloc_us; [done| |].
  { intros s1 -> Hu1 Hm1 Hmach1. cbn [Z.eqb]. wp_simpl. eapply wp_mono.
    - apply (wp_rollback _ _ _ (npg newsz) s s1 T T U [] []);
        [done|done|intros n; by rewrite Hm1|by rewrite Hm1|done| |lia|done|done|lia|lia|done].
      intros n Hn. by apply Hun.
    - cbn beta. intros _ s' Hs'. wp_simpl. right. split; [done|]. split; [done|]. cbn [length]. lia. }
  intros r fl1 s1 -> Hu1 Hr Hacc1 Hs1 Hl1 _ Hm1. pose proof (page_ok_pos r Hr).
  destruct (Z.eqb_spec r 0); [lia|]. wp_simpl.
  apply wp_memset_page; [by apply page_ok_writable|]. wp_simpl. change (u8 0) with 0.
  destruct (us_inv_zero s1 pagetable T U fl1 r Hu1 Hr Hacc1) as (Hu2 & Hs2 & Hl2 & Hz2).
  set (s2 := set_mem _ s1) in *. assert (k_mach s2 ≡ k_mach s) as Hm2 by exact Hm1.
  clearbody s2.
  assert (same_user U (k_mem s) (k_mem s2)) as Hs.
  { intros n' p x Hn Hx. by rewrite (Hs2 n' p x), (Hs1 n' p x). }
  assert (∀ n, leaf (k_mem s2) T n = leaf (k_mem s) T n) as Hl by (intros; by rewrite Hl2).
  fold perm. eapply (wp_map_fresh _ _ _ _ s2 T U fl1);
    [done|done|lia|done|done|done|done|done|by unfold mapped; rewrite Hl|done| |].
  - intros s3 T3 fl3 Hu3 Hm3 Hs3 Hpg3 Hl3 Ha3 [Hg3 Hz3]. cbn [Z.eqb negb].
    assert (u64 (a + PGSIZE) = a + 4096) as ->.
    { change MAXVA with 274877906944 in *. unfold PGSIZE. zlia. }
    assert ((a + 4096) / 4096 = a / 4096 + 1) as Hd by zlia. eapply wp_mono.
    + apply (IH (a + 4096) s3 T3 _ fl3 Hu3); try done; [zlia|lia|lia| |].
      * rewrite Hd. intros n' Hn. unfold mapped. rewrite Hl3, decide_False, Hl by lia.
        rewrite lookup_insert_ne by lia. apply Hun. lia.
      * rewrite Hd. intros n' Hn. destruct (decide (n' = a / 4096)) as [->|].
        -- rewrite lookup_insert_eq. by eexists.
        -- rewrite lookup_insert_ne by done. apply Hown. lia.
    + cbn beta. rewrite Hd. intros res s4 [[-> H4]|(-> & H4 & Hc4)]; [left|right]; (split; [done|]); [|split; [|pose proof (gr_size _ _ _ _ _ _ Hg3); cbn [length]; lia]].
      * eapply (alloc_ok_step s s3); [by rewrite Hm3|done|done| | | |done|done].
        -- intros n'. by rewrite Hl3, Hl.
        -- intros n' p x Hn Hx. by rewrite (Hs3 n' p x), (Hs n' p x).
        -- intros x Hx. by rewrite Hpg3, Hz2.
      * eapply (alloc_fail_step s s3); [by rewrite Hm3|done| | | |done|done].
        -- split; [|done]. apply Z.div_le_mono; lia.
        -- intros n' Hn. by rewrite Hl3, decide_False, Hl.
        -- intros n' p x Hn' Hx. by rewrite (Hs3 n' p x), (Hs n' p x).
  - intros s3 T3 fl3 Hu3 Hm3 Hs3 Hl3 Hacc3 Ha3 (Hg3 & Hz3 & Hnil3). cbn [Z.eqb negb]. wp_simpl.
    eapply wp_kfree_us; [done|done|done|]. intros s4 Hu4 Hs4 Hl4 Hm4 _. wp_simpl.
    eapply wp_mono.
    + apply (wp_rollback _ _ _ (npg newsz) s s4 T T3 U (r :: fl1) (r :: fl3));
        [done| | | |done| |lia|done|done|lia|lia|done].
      * by rewrite Hm4, Hm3.
      * intros n'. by rewrite Hl4, Hl3, Hl.
      * intros n' p x Hn Hx. by rewrite (Hs4 n' p x), (Hs3 n' p x), (Hs n' p x).
      * intros n' Hn. by apply Hun.
    + cbn beta. intros _ s' Hs'. wp_simpl. right. split; [done|]. split; [done|].
      pose proof (gr_size _ _ _ _ _ _ Hg3). subst fl3. cbn [length] in *. lia.
Qed.

Lemma us_unmapped s root T U fl n : us_inv s root T U fl → mapped (k_mem s) T n = false → U !! n = None.
Proof.
  intros Hu Hm. destruct (U !! n) as [pa|] eqn:E; [|done].
  destruct (us_leaf_bits _ _ _ _ _ _ _ Hu E) as (HV & _). unfold mapped in Hm.
  by apply truthy_false in Hm.
Qed.

Lemma user_perm_ok xperm : perm_ok xperm →
  perm_ok (Z.lor (Z.lor PTE_R PTE_U) xperm) ∧ Z.lor (Z.lor (Z.lor PTE_R PTE_U) xperm) PTE_V ≠ PTE_V.
Proof.
  intros Hx. split; [by apply (lor_bound _ _ 10)|]. intros H.
  apply (f_equal (fun z => Z.testbit z 1)) in H. rewrite !Z.lor_spec in H. done.
Qed.

Lemma wp_uvmalloc pagetable oldsz newsz xperm s T U fl :
  us_inv s pagetable T U fl → 0 ≤ oldsz ≤ newsz → newsz ≤ MAXVA → perm_ok xperm →
  (∀ n, npg oldsz ≤ n < npg newsz → mapped (k_mem s) T n = false) →
  wp (uvmalloc pagetable oldsz newsz xperm) s (fun r s' =>
    (r = newsz ∧ alloc_ok s pagetable T U fl (npg oldsz) (npg newsz)
                   (Z.lor (Z.lor PTE_R PTE_U) xperm) s') ∨
    (r = 0 ∧ alloc_fail s pagetable T U fl (npg oldsz) (npg oldsz) (npg newsz) s' ∧
     Z.of_nat (length fl) ≤ 3 * (npg newsz - npg oldsz))).
Proof.
  intros Hu Hsz HM Hx Hun. unfold uvmalloc. destruct (Z.ltb_spec newsz oldsz) as [?|_]; [lia|].
  destruct (PGROUNDUP_div oldsz) as (H1 & H2 & H3); [lia|]. fold (npg oldsz) in H2.
  destruct (user_perm_ok xperm Hx) as [Hp Hpne]. rewrite <- H2 in Hun |- *.
  apply (wp_uvmalloc_loop _ _ _ _ _ _ _ T U fl); [done|done|done|lia|done| |done|done| |].
  - rewrite H2. unfold npg, PGSIZE in *. zlia.
  - intros n Hn. split; [by apply Hun|]. eapply us_unmapped; [done|by apply Hun].
  - intros n Hn. lia.
Qed.

(** ** Creating an address space *)

Lemma pt_rep_empty m r : page_ok r → (∀ j, 0 ≤ j < 512 → load64 m (r + 8 * j) = 0) →
  pt_rep m r {[ (2%nat, 0) := r ]}.
Proof.
  intros Hr Hz. split.
  - by rewrite lookup_singleton_eq.
  - intros l p c [[= <- <-] _]%lookup_singleton_Some. done.
  - intros l p c [[= <- <-] _]%lookup_singleton_Some. lia.
  - by intros k c [_ <-]%lookup_singleton_Some.
  - by intros k k' c [<- _]%lookup_singleton_Some [<- _]%lookup_singleton_Some.
  - intros l p pt i [[= <- <-] <-]%lookup_singleton_Some Hi.
    rewrite lookup_singleton_ne by done. by rewrite Hz.
Qed.

(** A zeroed page is an empty address space. *)
Lemma us_inv_root s r fl :
  kmem_inv s fl → page_ok r → r ∉ fl →
  let s' := set_mem (write_bytes (k_mem s) r (page_fill 0)) s in
  us_inv s' r {[ (2%nat, 0) := r ]} ∅ fl ∧ ∀ n, leaf (k_mem s') {[ (2%nat, 0) := r ]} n = 0.
Proof.
  intros Hk Hr Hni s'. split; [|intros n; unfold leaf; by rewrite lookup_singleton_ne].
  split; [|intros *; by rewrite lookup_empty..]. split.
  - apply (kmem_inv_scribble s fl r); [done|done|done|apply same_outside_fill|].
    apply mem_ok_page_fill; [apply (ki_mem _ _ Hk)|lia].
  - apply pt_rep_empty; [done|]. intros j Hj. apply load_zero_page; lia.
  - intros c [k [_ <-]%lookup_singleton_Some]. done.
Qed.

Lemma wp_uvmcreate s fl Q :
  kmem_inv s fl →
  (∀ s', fl = [] → kmem_inv s' [] → k_mem s' = k_mem s → k_mach s' ≡ k_mach s → Q 0 s') →
  (∀ r fl' s', fl = r :: fl' → us_inv s' r {[ (2%nat, 0) := r ]} ∅ fl' →
     (∀ n, leaf (k_mem s') {[ (2%nat, 0) := r ]} n = 0) →
     same_outside r (k_mem s) (k_mem s') → k_mach s' ≡ k_mach s → Q r s') →
  wp uvmcreate s Q.
Proof.
  intros Hk Q0 Q1. unfold uvmcreate. wp_simpl. eapply wp_kalloc; [done| |].
  - intros s' -> Hk' Hm Hmach. cbn [Z.eqb]. wp_simpl. by apply Q0.
  - intros r fl' s' -> Hk' Hr Hni Hm Hmach. pose proof (page_ok_pos r Hr).
    destruct (Z.eqb_spec r 0) as [?|_]; [lia|]. wp_simpl.
    apply wp_memset_page; [by apply page_ok_writable|]. wp_simpl. change (u8 0) with 0.
    assert (same_outside r (k_mem s) (write_bytes (k_mem s') r (page_fill 0))) as Hso.
    { rewrite Hm. eapply same_outside_trans; apply same_outside_fill. }
    destruct (us_inv_root s' r fl' Hk' Hr Hni) as [Hu Hl]. by apply (Q1 r fl').
Qed.

(** ** Theorems *)

(** [mappages] over a range of unmapped pages either returns 0 and maps each
    page of the range to the corresponding physical page with the given
    permissions, or returns -1, only when no page is left for the table, having
    mapped a prefix; no other entry changes. *)
Theorem mappages_correct pagetable va size pa perm s T fl :
  vm_inv s pagetable T fl → 0 ≤ va → 0 < size → va + size ≤ MAXVA →
  pa mod 4096 = 0 → 0 ≤ pa → pa + size + 8192 ≤ 2 ^ 56 → perm_ok perm →
  (∀ n, va / 4096 ≤ n ≤ (va + size - 1) / 4096 → mapped (k_mem s) T n = false) →
  wp (mappages pagetable va size pa perm) s (fun r s' => ∃ T' fl' k,
    vm_inv s' pagetable T' fl' ∧ grown s T fl s' T' fl' ∧
    (∀ n, leaf (k_mem s') T' n = if decide (va / 4096 ≤ n < va / 4096 + k)
       then leaf_pte (pa + (n - va / 4096) * 4096) perm else leaf (k_mem s) T n) ∧
    ((r = 0 ∧ k = (va + size - 1) / 4096 - va / 4096 + 1) ∨
     (r = -1 ∧ 0 ≤ k ≤ (va + size - 1) / 4096 - va / 4096 ∧ fl' = []))).
Proof. apply wp_mappages. Qed.

(** [mappages] panics when the first page of the range is already mapped. *)
Theorem mappages_remap_panics pagetable va size pa perm s T fl :
  vm_inv s pagetable T fl → 0 ≤ va → 0 < size → va + size ≤ MAXVA →
  mapped (k_mem s) T (va / 4096) = true →
  mappages pagetable va size pa perm s = Panic "mappages: remap".
Proof.
  intros Hi Hva Hsz Hmax Hm. unfold mappages. destruct (Z.eqb_spec size 0); [lia|].
  rewrite (bind_ret _ _ _ tt s) by done. rewrite !PGROUNDDOWN_eq.
  change MAXVA with 274877906944 in Hmax.
  assert (u64 (va + size - 1) = va + size - 1) as -> by zlia.
  destruct (Z.leb_spec (va - va mod 4096) (va + size - 1 - (va + size - 1) mod 4096)); [|zlia].
  set (f := Z.to_nat _). assert (∃ f', f = S f') as [f' ->].
  { exists (f - 1)%nat. unfold f, PGSIZE. zlia. }
  cbn [mappages_loop]. set (a := va - va mod 4096).
  assert (a / 4096 = va / 4096 ∧ 0 ≤ a < 274877906944) as [Hd Ha] by (unfold a; zlia).
  unfold mapped in Hm. apply truthy_true in Hm.
  destruct (leaf_table _ _ _ Hm) as (pt & Hpt & _). rewrite <- Hd in Hm, Hpt.
  rewrite <- key_0 in Hpt.
  assert (walk pagetable a true s = Ret (pt + 8 * PX 0 a) s) as Hw.
  { apply (walk_present pagetable a true s T pt); [apply Hi|exact Ha|exact Hpt]. }
  rewrite (bind_ret _ _ _ _ _ Hw). pose proof (PX_range 0 a).
  assert (page_ok pt) as Hp by (eapply pr_page; [apply Hi|done]). pose proof (page_ok_pos _ Hp).
  destruct (Z.eqb_spec (pt + 8 * PX 0 a) 0); [lia|].
  assert (ld64 (pt + 8 * PX 0 a) s = Ret (leaf (k_mem s) T (a / 4096)) s) as Hld.
  { apply wp_eq, wp_ld64; [apply page_ok_ram_sub; [done|lia|lia]|]. split; [|done].
    unfold leaf. by rewrite <- key_0, Hpt, PX_0. }
  rewrite (bind_ret _ _ _ _ _ Hld). apply bind_panic.
  apply truthy_true in Hm. by rewrite Hm.
Qed.

(** C30. Growing an address space with [uvmalloc] either adds exactly the pages
    between the old and the new size, each a distinct zeroed page mapped
    readable for the user, or fails; when it fails it returns 0, the address
    space owns what it owned before, none of the new pages stays mapped and
    every page it took is free again or an (empty) table page.  It fails only
    if there are at most three free pages for each page to add. *)
Theorem uvmalloc_correct pagetable oldsz newsz xperm s T U fl :
  us_inv s pagetable T U fl → 0 ≤ oldsz ≤ newsz → newsz ≤ MAXVA → perm_ok xperm →
  (∀ n, npg oldsz ≤ n < npg newsz → mapped (k_mem s) T n = false) →
  wp (uvmalloc pagetable oldsz newsz xperm) s (fun r s' =>
    k_mach s' ≡ k_mach s ∧ ∃ T' U' fl',
    us_inv s' pagetable T' U' fl' ∧ same_user U (k_mem s) (k_mem s') ∧
    (∀ p, accounted T' U' fl' p ↔ accounted T U fl p) ∧
    (∀ n, ¬ (npg oldsz ≤ n < npg newsz) →
       U' !! n = U !! n ∧ leaf (k_mem s') T' n = leaf (k_mem s) T n) ∧
    ((r = newsz ∧ ∀ n, npg oldsz ≤ n < npg newsz → ∃ pa, U' !! n = Some pa ∧
        leaf (k_mem s') T' n = leaf_pte pa (Z.lor (Z.lor PTE_R PTE_U) xperm) ∧
        zero_page (k_mem s') pa) ∨
     (r = 0 ∧ U' = U ∧ (∀ n, npg oldsz ≤ n < npg newsz → mapped (k_mem s') T' n = false) ∧
      Z.of_nat (length fl) ≤ 3 * (npg newsz - npg oldsz)))).
Proof.
  intros Hu Hsz HM Hx Hun. eapply wp_mono; [by apply (wp_uvmalloc _ _ _ _ _ T U fl)|].
  cbn beta. intros r s' [[-> (T' & U' & fl' & Hu' & Hm & Hold & Hnew & Hs & Ha)]
    |[-> [(T' & U' & fl' & Hu' & Hm & HU & Hl & Hun' & Hs & Ha) Hshort]]].
  - split; [done|]. exists T', U', fl'. do 4 (split; [done|]). by left.
  - split; [done|]. exists T', U', fl'. assert (U' = U) as ->.
    { apply map_eq. intros n. by rewrite HU, decide_False by lia. }
    do 3 (split; [done|]). split; [intros n Hn; split; [done|by apply Hl]|]. by right.
Qed.

(** Shrinking with [uvmdealloc] unmaps exactly the pages past the new size
    and puts exactly these pages back on the free list; every other owned page
    keeps its contents. *)
Theorem uvmdealloc_correct pagetable oldsz newsz s T U fl :
  us_inv s pagetable T U fl → 0 ≤ newsz ≤ oldsz → oldsz ≤ MAXVA →
  (∀ n, npg newsz ≤ n < npg oldsz → is_Some (U !! n)) →
  wp (uvmdealloc pagetable oldsz newsz) s (fun r s' =>
    r = newsz ∧ k_mach s' ≡ k_mach s ∧ ∃ U' fl',
    us_inv s' pagetable T U' fl' ∧
    (∀ n, U' !! n = if decide (npg newsz ≤ n < npg oldsz) then None else U !! n) ∧
    (∀ p, p ∈ fl' ↔ p ∈ fl ∨ ∃ n, npg newsz ≤ n < npg oldsz ∧ U !! n = Some p) ∧
    (∀ n, leaf (k_mem s') T n =
       if decide (npg newsz ≤ n < npg oldsz) then 0 else leaf (k_mem s) T n) ∧
    same_user U' (k_mem s) (k_mem s')).
Proof.
  intros Hu Hsz HM Hown. eapply wp_mono; [by apply (wp_uvmdealloc _ _ _ _ T U fl)|].
  cbn beta. intros r s' [-> Hun]. split; [done|].
  assert (Hf : alloc_fail s pagetable T U fl (npg newsz) (npg oldsz) (npg oldsz) s').
  { apply (unmapped_fail s s s' pagetable T T U fl fl); try done; intros; lia. }
  destruct Hun as (U' & fl' & Hu' & Hm & HU & Hfl & Hl & _).
  replace (npg newsz + (npg oldsz - npg newsz)) with (npg oldsz) in * by lia.
  split; [done|]. exists U', fl'. do 2 (split; [done|]). split; [|split; [done|]].
  - intros p. rewrite Hfl. unfold owned_in.
    by replace (npg newsz + (npg oldsz - npg newsz)) with (npg oldsz) by lia.
  - destruct Hf as (T2 & U2 & fl2 & _ & _ & HU2 & _ & _ & Hs & _).
    intros n pa x Hn. apply (Hs n pa x). by rewrite HU2, <- HU.
Qed.

End uvmalloc.

(** ** An address space on the concrete machine *)

#[local] Existing Instance small_image.

Definition small_list (n : nat) : list Z := map page_no (seq 0 n).

Lemma small_st8_inv : kmem_inv (small_st 8) (small_list 8).
Proof.
  split; [apply boot_mach_ok|by exists "kmem"%string|by vm_compute| | |].
  - apply (bool_decide_unpack _). by vm_compute.
  - repeat constructor; by vm_compute.
  - apply mem_ok_link, mem_ok_empty.
Qed.

Lemma mappages_correct_witness :
  wp (pt ← uvmcreate; mappages pt 0 8192 trampoline PTE_R) (small_st 8) (fun r s' => r = 0 ∨ r = -1).
Proof.
  wp_simpl. eapply wp_uvmcreate; [exact small_st8_inv|done|].
  intros pt fl s Hfl Hu Hl Hso Hm. eapply wp_mono.
  - apply (mappages_correct pt 0 8192 trampoline PTE_R s _ fl (us_vm _ _ _ _ _ Hu));
      [lia|lia|by vm_compute|by vm_compute|by vm_compute|by vm_compute|by vm_compute|].
    intros n _. unfold mapped. by rewrite Hl.
  - cbn beta. intros r s' (T' & fl' & k & _ & _ & _ & [[-> _]|[-> _]]); [by left|by right].
Defined.

Lemma mappages_remap_panics_witness :
  wp (pt ← uvmcreate; r ← mappages pt 4096 100 trampoline PTE_R; ret (r, pt)) (small_st 8)
    (fun r s' => fst r = 0 → mappages (snd r) 4200 8 trampoline PTE_R s' = Panic "mappages: remap").
Proof.
  wp_simpl. eapply wp_uvmcreate; [exact small_st8_inv|done|].
  intros pt fl s Hfl Hu Hl Hso Hm. wp_simpl. eapply wp_mono.
  - apply (wp_mappages pt 4096 100 trampoline PTE_R s _ fl (us_vm _ _ _ _ _ Hu));
      [lia|lia|by vm_compute|by vm_compute|by vm_compute|by vm_compute|by vm_compute|].
    intros n _. unfold mapped. by rewrite Hl.
  - cbn beta. intros r s' (T' & fl' & k & Hi & _ & Hlf & Hres). wp_simpl. cbn [fst snd]. intros ->.
    destruct Hres as [[_ ->]|[[=] _]].
    apply (mappages_remap_panics pt 4200 8 trampoline PTE_R s' T' fl' Hi); [lia|lia|by vm_compute|].
    unfold mapped. rewrite Hlf. reflexivity.
Defined.

Lemma uvmalloc_correct_witness :
  wp (pt ← uvmcreate; uvmalloc pt 0 5000 PTE_W) (small_st 8)
    (fun r s' => k_mach s' ≡ boot_mach ∧ (r = 5000 ∨ r = 0)).
Proof.
  wp_simpl. eapply wp_uvmcreate; [exact small_st8_inv|done|].
  intros r fl s Hfl Hu Hl Hso Hm. eapply wp_mono.
  - apply (uvmalloc_correct r 0 5000 PTE_W s _ _ _ Hu); [lia|by vm_compute|by vm_compute|].
    intros n _. unfold mapped. rewrite Hl. reflexivity.
  - cbn beta. intros res s' (Hm' & T' & U' & fl' & _ & _ & _ & _ & Hres). rewrite Hm', Hm.
    split; [reflexivity|]. destruct Hres as [[-> _]|[-> _]]; [by left|by right].
Defined.

Lemma uvmdealloc_correct_witness :
  wp (pt ← uvmcreate; sz ← uvmalloc pt 0 5000 PTE_W; uvmdealloc pt sz 0) (small_st 8)
    (fun r s' => r = 0 ∧ k_mach s' ≡ boot_mach).
Proof.
  wp_simpl. eapply wp_uvmcreate; [exact small_st8_inv|done|].
  intros r fl s Hfl Hu Hl Hso Hm. wp_simpl. eapply wp_mono.
  - apply (wp_uvmalloc r 0 5000 PTE_W s _ _ _ Hu); [lia|by vm_compute|by vm_compute|].
    intros n _. unfold mapped. rewrite Hl. reflexivity.
  - cbn beta. intros sz s' [[-> (T' & U' & fl' & Hu' & Hm' & _ & Hnew & _)]
      |[-> [(T' & U' & fl' & Hu' & Hm' & _) _]]]; (eapply wp_mono;
      [eapply (uvmdealloc_correct r _ 0 s' _ _ _ Hu'); [lia|by vm_compute|]
      |cbn beta; intros res s2 (-> & Hm2 & _); split; [done|]; by rewrite Hm2, Hm', Hm]).
    + intros n Hn. destruct (Hnew n Hn) as (pa & H & _). by exists pa.
    + intros n Hn. lia.
Defined.
