(* ===== verification/UvmCopy.v ===== *)
(** * Copying an address space (kernel/vm.c)

    [uvmcopy], which [fork] calls: the child gets pages of its own with the
    bytes and the permissions of its parent's, the parent keeps its address
    space, and a failure half-way gives back every page. *)

From Stdlib Require Import ZArith Lia.
From stdpp Require Import base gmap strings numbers list.
From S2P Require Import Prelude Spinlock Mem Kstring Kalloc Vm PageTable VmFacts Uvm UvmAlloc.
Local Open Scope xv6_scope.

(** Bytes change only inside the pages that satisfy [P]. *)
Definition only_in (P : Z → Prop) (m m' : gmap Z Z) : Prop :=
  ∀ x, (∀ p, P p → ¬ (p ≤ x < p + 4096)) → m' !! x = m !! x.

Lemma only_in_refl P m : only_in P m m.
Proof. done. Qed.

Lemma only_in_trans P m1 m2 m3 : only_in P m1 m2 → only_in P m2 m3 → only_in P m1 m3.
Proof. intros H1 H2 x Hx. by rewrite H2, H1. Qed.

Lemma only_in_page (P : Z → Prop) r m m' : P r → same_outside r m m' → only_in P m m'.
Proof. intros Hr H x Hx. apply H. specialize (Hx r Hr). lia. Qed.

(** The pages of an address space. *)
Definition pages (T : tbl) (U : gmap Z Z) (p : Z) : Prop := in_tbl T p ∨ ∃ n, U !! n = Some p.

Section uvmcopy.
Context `{KI : KernelImage}.

Lemma pages_ok s root T U fl p : us_inv s root T U fl → pages T U p → page_ok p.
Proof. intros Hu [[k Hk]|[n Hn]]; [by eapply pr_page; [apply Hu|]|by eapply us_page]. Qed.

Lemma accounted_ok s root T U fl p : us_inv s root T U fl → accounted T U fl p → page_ok p.
Proof.
  intros Hu [Hp|Hp]; [|by eapply pages_ok]. pose proof (ki_pages _ _ (vi_kmem _ _ _ _ (us_vm _ _ _ _ _ Hu))) as H.
  rewrite Forall_forall in H. by apply H.
Qed.

(** A page of one address space is untouched by what happens in another. *)
Lemma only_in_other s root T U fl m m' p x :
  us_inv s root T U fl → page_ok p → ¬ accounted T U fl p → only_in (accounted T U fl) m m' → p ≤ x < p + 4096 → m' !! x = m !! x.
Proof.
  intros Hu Hp Hn Ho Hx. apply Ho. intros q Hq Hxq.
  destruct (pages_disjoint p q Hp (accounted_ok _ _ _ _ _ _ Hu Hq)); [intros ->; done|lia|lia].
Qed.

(** An address space apart from the pages that change stays as it is. *)
Lemma us_inv_other s s' root T U fl fl' root0 T0 U0 m :
  us_inv s root T U fl → us_inv s root0 T0 U0 fl → (∀ p, pages T0 U0 p → ¬ accounted T U fl p) →
  m = k_mem s → only_in (accounted T U fl) m (k_mem s') → kmem_inv s' fl' → (∀ p, p ∈ fl' → accounted T U fl p) →
  us_inv s' root0 T0 U0 fl' ∧ same_user U0 m (k_mem s') ∧ ∀ n, leaf (k_mem s') T0 n = leaf m T0 n.
Proof.
  intros Hu Hu0 Hap -> Ho Hk Hsub.
  assert (∀ p x, pages T0 U0 p → p ≤ x < p + 4096 → k_mem s' !! x = k_mem s !! x) as Hpg.
  { intros p x Hp Hx. eapply (only_in_other s root T U fl _ _ p); try done; [by eapply pages_ok|by apply Hap]. }
  assert (same_tbl T0 (k_mem s) (k_mem s')) as Hst.
  { intros c x Hc Hx. apply (Hpg c); [by left|done]. }
  assert (∀ n, leaf (k_mem s') T0 n = leaf (k_mem s) T0 n) as Hl by (intros; by apply leaf_frame).
  destruct Hu0 as [Huv Hrg Hlf Hpk Hfr Htb Hinj]. split; [|split; [|done]].
  - split; [split; [done|eapply pt_rep_frame; [done|apply Huv]|]|done| |done| |done|done].
    + intros c Hc Hin. apply (Hap c); [by left|by apply Hsub].
    + intros n pa Hn. rewrite Hl. by apply Hlf.
    + intros n pa Hn Hin. apply (Hap pa); [right; by exists n|by apply Hsub].
  - intros n pa x Hn Hx. apply (Hpg pa); [right; by exists n|done].
Qed.

(** A page outside the address space is filled. *)
Lemma us_inv_write s root T U fl r bs :
  us_inv s root T U fl → page_ok r → ¬ accounted T U fl r → length bs = 4096%nat → Forall (fun b => 0 ≤ b < 256) bs →
  let s' := set_mem (write_bytes (k_mem s) r bs) s in
  us_inv s' root T U fl ∧ same_user U (k_mem s) (k_mem s') ∧ (∀ n, leaf (k_mem s') T n = leaf (k_mem s) T n) ∧
  same_outside r (k_mem s) (k_mem s').
Proof.
  intros Hu Hr Hacc Hlen Hbs s'.
  assert (same_outside r (k_mem s) (k_mem s')) as Hso by (intros x Hx; apply write_bytes_lookup_out; rewrite Hlen; lia).
  destruct (us_inv_take s s' root T U fl fl r) as (H1 & H2 & H3); [exact Hu|exact Hr| | | |done|exact Hso|done].
  - intros ?. apply Hacc. right. by left.
  - intros n ?. apply Hacc. right. right. by exists n.
  - apply (kmem_inv_scribble s fl r); [apply Hu|done|intros ?; apply Hacc; by left|done|].
    apply mem_ok_write; [|done]. apply (ki_mem _ _ (vi_kmem _ _ _ _ (us_vm _ _ _ _ _ Hu))).
Qed.

Section copy.
Context (old new sz : Z) (s0 : kst) (T0 : tbl) (U0 : gmap Z Z) (T : tbl) (U : gmap Z Z) (fl : list Z).
Hypothesis Hold : us_inv s0 old T0 U0 fl.
Hypothesis Hnew : us_inv s0 new T U fl.
Hypothesis Hap : ∀ p, pages T0 U0 p → ¬ pages T U p.

(** Page [n] of the new address space is a copy. *)
Definition page_copied (m : gmap Z Z) (T1 : tbl) (U1 : gmap Z Z) (n : Z) : Prop :=
  ∃ pa pa', U0 !! n = Some pa ∧ U1 !! n = Some pa' ∧
    leaf m T1 n = leaf_pte pa' (PTE_FLAGS (leaf (k_mem s0) T0 n)) ∧
    ∀ j, 0 ≤ j < 4096 → byte_at m (pa' + j) = byte_at (k_mem s0) (pa + j).

(** The first [c] pages have been copied. *)
Record copied (c : Z) (s : kst) (T1 : tbl) (U1 : gmap Z Z) (fl1 : list Z) : Prop := {
  cp_new : us_inv s new T1 U1 fl1;
  cp_mach : k_mach s ≡ k_mach s0;
  cp_frame : only_in (accounted T U fl) (k_mem s0) (k_mem s);
  cp_user : same_user U (k_mem s0) (k_mem s);
  cp_acc : ∀ p, accounted T1 U1 fl1 p ↔ accounted T U fl p;
  cp_rest : ∀ n, ¬ (0 ≤ n < c) → U1 !! n = U !! n ∧ leaf (k_mem s) T1 n = leaf (k_mem s0) T n;
  cp_page : ∀ n, 0 ≤ n < c → page_copied (k_mem s) T1 U1 n
}.

(** Every page taken is a copy or a table, and a copy needs at most two tables. *)
Definition counted (c : Z) (T1 : tbl) (fl1 : list Z) : Prop :=
  Z.of_nat (size T1) + Z.of_nat (length fl1) + c = Z.of_nat (size T) + Z.of_nat (length fl) ∧
  Z.of_nat (size T1) ≤ Z.of_nat (size T) + 2 * c.

Lemma counted_next c T1 fl1 s s' T' fl' r : counted c T1 (r :: fl1) → grown s T1 fl1 s' T' fl' → (size T' ≤ size T1 + 2)%nat →
  counted (c + 1) T' fl'.
Proof. intros [H1 H2] Hg Hs. pose proof (gr_size _ _ _ _ _ _ Hg). cbn [length] in H1. split; lia. Qed.

Lemma counted_short c T1 fl1 s s' T' r : counted c T1 (r :: fl1) → grown s T1 fl1 s' T' [] → (size T' ≤ size T1 + 2)%nat →
  Z.of_nat (length fl) ≤ 3 * (c + 1).
Proof. intros [H1 H2] Hg Hs. pose proof (gr_size _ _ _ _ _ _ Hg). cbn [length] in *. lia. Qed.

Lemma old_apart p : pages T0 U0 p → ¬ accounted T U fl p.
Proof.
  intros Hp [Hin|Ha]; [|by apply (Hap p)]. destruct Hp as [Ht|[n Hn]].
  - by apply (vi_fresh _ _ _ _ (us_vm _ _ _ _ _ Hold) p).
  - by apply (us_free _ _ _ _ _ Hold n p).
Qed.

(** The old address space, as it is. *)
Lemma copied_old c s T1 U1 fl1 : copied c s T1 U1 fl1 →
  us_inv s old T0 U0 fl1 ∧ same_user U0 (k_mem s0) (k_mem s) ∧ ∀ n, leaf (k_mem s) T0 n = leaf (k_mem s0) T0 n.
Proof.
  intros [H1 _ H3 _ H5 _ _]. apply (us_inv_other s0 s new T U fl fl1 old); try done; [apply old_apart|apply H1|].
  intros p Hp. apply H5. by left.
Qed.

Lemma copied_start : copied 0 s0 T U fl.
Proof. split; try done. intros n Hn. lia. Qed.

Lemma only_in_acc T1 U1 fl1 m m' : (∀ p, accounted T1 U1 fl1 p ↔ accounted T U fl p) →
  only_in (accounted T1 U1 fl1) m m' → only_in (accounted T U fl) m m'.
Proof. intros H Ho x Hx. apply Ho. intros p Hp. apply Hx. by apply H. Qed.

(** The pages of [U] at or past [c] are still in [U1]. *)
Lemma copied_user c s T1 U1 fl1 m : (∀ n, 0 ≤ n < c → U !! n = None) → copied c s T1 U1 fl1 → same_user U1 (k_mem s) m → same_user U (k_mem s0) m.
Proof.
  intros HU Hc Hs n pa x Hn Hx. rewrite <- (cp_user _ _ _ _ _ Hc n pa x Hn Hx). apply (Hs n pa); [|done].
  destruct (decide (0 ≤ n < c)) as [Hin|Hin]; [by rewrite HU in Hn|]. by rewrite (proj1 (cp_rest _ _ _ _ _ Hc n Hin)).
Qed.

Lemma page_copied_frame m m' T1 T' U1 U' n : page_copied m T1 U1 n → same_user U1 m m' → U' !! n = U1 !! n →
  leaf m' T' n = leaf m T1 n → page_copied m' T' U' n.
Proof.
  intros (pa & pa' & H1 & H2 & H3 & H4) Hs HU Hl. exists pa, pa'. rewrite HU, Hl. do 3 (split; [done|]).
  intros j Hj. unfold byte_at. rewrite (Hs n pa' (pa' + j)) by (done || lia). by apply H4.
Qed.

(** Steps that keep the copied pages. *)
Lemma copied_same c s T1 U1 fl1 s' T' fl' : (∀ n, 0 ≤ n < c → U !! n = None) → copied c s T1 U1 fl1 →
  us_inv s' new T' U1 fl' → k_mach s' ≡ k_mach s → only_in (accounted T1 U1 fl1) (k_mem s) (k_mem s') →
  same_user U1 (k_mem s) (k_mem s') → same_leaf s T1 s' T' → (∀ p, accounted T' U1 fl' p ↔ accounted T1 U1 fl1 p) →
  copied c s' T' U1 fl'.
Proof.
  intros HU Hc Hu Hm Ho Hs Hl Ha. pose proof Hc as [C1 C2 C3 C4 C5 C6 C7]. split; [done|by rewrite Hm| | | | |].
  - eapply only_in_trans; [done|]. by eapply only_in_acc.
  - by eapply copied_user.
  - intros p. by rewrite Ha.
  - intros n Hn. rewrite Hl. by apply C6.
  - intros n Hn. eapply page_copied_frame; [by apply C7|done|done|apply Hl].
Qed.

(** One page more. *)
Lemma copied_next c s T1 U1 fl1 s' T' fl' r pa : (∀ n, 0 ≤ n < c → U !! n = None) → copied c s T1 U1 fl1 →
  0 ≤ c → U0 !! c = Some pa → U1 !! c = None →
  us_inv s' new T' (<[c := r]> U1) fl' → k_mach s' ≡ k_mach s → only_in (accounted T1 U1 fl1) (k_mem s) (k_mem s') →
  same_user U1 (k_mem s) (k_mem s') →
  (∀ n, leaf (k_mem s') T' n = if decide (n = c) then leaf_pte r (PTE_FLAGS (leaf (k_mem s0) T0 c)) else leaf (k_mem s) T1 n) →
  (∀ p, accounted T' (<[c := r]> U1) fl' p ↔ accounted T1 U1 fl1 p) →
  (∀ j, 0 ≤ j < 4096 → byte_at (k_mem s') (r + j) = byte_at (k_mem s0) (pa + j)) →
  copied (c + 1) s' T' (<[c := r]> U1) fl'.
Proof.
  intros HU Hc H0 Hpa HN Hu Hm Ho Hs Hl Ha Hb. pose proof Hc as [C1 C2 C3 C4 C5 C6 C7]. split; [done|by rewrite Hm| | | | |].
  - eapply only_in_trans; [done|]. by eapply only_in_acc.
  - by eapply copied_user.
  - intros p. by rewrite Ha.
  - intros n Hn. rewrite lookup_insert_ne by lia. rewrite Hl, decide_False by lia. apply C6. lia.
  - intros n Hn. destruct (decide (n = c)) as [->|Hne].
    + exists pa, r. rewrite lookup_insert_eq, Hl, decide_True by done. done.
    + eapply page_copied_frame; [apply C7; lia|done|by rewrite lookup_insert_ne|by rewrite Hl, decide_False].
Qed.

Hypothesis Hsz : 0 ≤ sz ≤ MAXVA.
Hypothesis Hfull : ∀ n, 0 ≤ n < npg sz → is_Some (U0 !! n).
Hypothesis Hfree : ∀ n, 0 ≤ n < npg sz → mapped (k_mem s0) T n = false.

Lemma new_free c n : c ≤ npg sz → 0 ≤ n < c → U !! n = None.
Proof. intros Hc Hn. eapply us_unmapped; [exact Hnew|]. apply Hfree. lia. Qed.

(** Nothing was copied: no page is lost, and none of the range is mapped. *)
Record not_copied (s : kst) (T1 : tbl) (fl1 : list Z) : Prop := {
  nc_new : us_inv s new T1 U fl1;
  nc_mach : k_mach s ≡ k_mach s0;
  nc_frame : only_in (accounted T U fl) (k_mem s0) (k_mem s);
  nc_user : same_user U (k_mem s0) (k_mem s);
  nc_acc : ∀ p, accounted T1 U fl1 p ↔ accounted T U fl p;
  nc_rest : ∀ n, ¬ (0 ≤ n < npg sz) → leaf (k_mem s) T1 n = leaf (k_mem s0) T n;
  nc_free : ∀ n, 0 ≤ n < npg sz → mapped (k_mem s) T1 n = false;
  nc_short : Z.of_nat (length fl) ≤ 3 * npg sz
}.

Lemma wp_undo c s T1 U1 fl1 : copied c s T1 U1 fl1 → 0 ≤ c ≤ npg sz → Z.of_nat (length fl) ≤ 3 * npg sz →
  wp (uvmunmap new 0 c true) s (fun _ s' => ∃ T' fl', not_copied s' T' fl').
Proof.
  intros Hc Hr Hshort. pose proof Hc as [C1 C2 C3 C4 C5 C6 C7]. eapply wp_mono.
  { apply (wp_uvmunmap new 0 c s T1 U1 fl1 C1); [done|lia|lia| |].
    - unfold npg in Hr. change MAXVA with 274877906944 in *. zlia.
    - change (0 / 4096) with 0. intros n Hn. destruct (C7 n) as (? & pa' & _ & H & _); [lia|]. by exists pa'. }
  cbn beta. change (0 / 4096) with 0. intros _ s' Hun.
  pose proof (unmapped_fail s s s' new T1 T1 U1 fl1 fl1 0 c c C1) as Hf.
  destruct Hf as (T' & U' & fl' & Hu' & Hm' & HU' & Hl' & Hz' & Hs' & Ha'); [done|done|done|done|lia|lia|by rewrite Z.sub_0_r|].
  assert (U' = U) as ->.
  { apply map_eq. intros n. rewrite HU'. case_decide as Hd; [symmetry; by apply (new_free c); [lia|]|]. by apply C6. }
  assert (only_in (accounted T1 U1 fl1) (k_mem s) (k_mem s')) as Ho.
  { destruct Hun as (U2 & fl2 & _ & _ & _ & _ & _ & Hx). intros x Hx'. apply Hx.
    - intros p Hp. apply Hx'. right. by left.
    - intros p (n & _ & Hn). apply Hx'. right. right. by exists n. }
  exists T', fl'. split; [done|by rewrite Hm'| | | | | |done].
  - eapply only_in_trans; [done|]. by eapply only_in_acc.
  - intros n pa x Hn Hx. rewrite (Hs' n pa x Hn Hx). by apply (C4 n pa).
  - intros p. by rewrite Ha'.
  - intros n Hn. rewrite Hl' by lia. apply C6. lia.
  - intros n Hn. destruct (decide (n < c)) as [Hlt|Hlt]; [apply Hz'; lia|].
    unfold mapped. rewrite Hl' by lia. rewrite (proj2 (C6 n ltac:(lia))). by apply Hfree.
Qed.

(** The entry of an old page. *)
Lemma old_entry c s T1 U1 fl1 n pa : copied c s T1 U1 fl1 → U0 !! n = Some pa →
  let v := leaf (k_mem s0) T0 n in
  leaf (k_mem s) T0 n = v ∧ PTE2PA v = pa ∧ Z.land v PTE_V ≠ 0 ∧ page_ok pa ∧ perm_ok (PTE_FLAGS v) ∧ Z.lor (PTE_FLAGS v) PTE_V ≠ PTE_V ∧
  ∃ pt, T0 !! (0%nat, n / 512) = Some pt ∧ entry T0 n = pt + 8 * (n mod 512) ∧ page_ok pt.
Proof.
  intros Hc Hn v. destruct (copied_old _ _ _ _ _ Hc) as (_ & _ & Hl).
  destruct (us_leaf_bits _ _ _ _ _ _ _ Hold Hn) as (HV & HF & HA & _ & Hpt).
  destruct (us_leaf _ _ _ _ _ Hold n pa Hn) as (perm & Hp & Hne & E). pose proof (us_page _ _ _ _ _ Hold n pa Hn) as Hpk.
  split_and!; [apply Hl|done|done|done| | |done]; unfold v; rewrite E, leaf_pte_flags by (done || by apply page_ok_pa).
  - by apply perm_V.
  - by rewrite <- Z.lor_assoc.
Qed.

(** The bytes of an old page, read from a later state. *)
Lemma old_bytes c s T1 U1 fl1 n pa j : copied c s T1 U1 fl1 → U0 !! n = Some pa → 0 ≤ j < 4096 →
  byte_at (k_mem s) (pa + j) = byte_at (k_mem s0) (pa + j).
Proof.
  intros Hc Hn Hj. destruct (copied_old _ _ _ _ _ Hc) as (_ & Hs & _). unfold byte_at. by rewrite (Hs n pa (pa + j)) by (done || lia).
Qed.

(** The page [r] that [kalloc] returned gets the bytes of the old page [pa]. *)
Lemma copied_fill c s T1 U1 fl2 s2 r pa : (∀ n, 0 ≤ n < c → U !! n = None) → copied c s T1 U1 (r :: fl2) → U0 !! c = Some pa →
  us_inv s2 new T1 U1 fl2 → page_ok r → ¬ accounted T1 U1 fl2 r → same_user U1 (k_mem s) (k_mem s2) →
  (∀ n, leaf (k_mem s2) T1 n = leaf (k_mem s) T1 n) → same_outside r (k_mem s) (k_mem s2) →
  let s3 := set_mem (write_bytes (k_mem s2) r (read_bytes (k_mem s2) pa 4096)) s2 in
  us_inv s3 new T1 U1 fl2 ∧ same_user U1 (k_mem s) (k_mem s3) ∧ (∀ n, leaf (k_mem s3) T1 n = leaf (k_mem s) T1 n) ∧
  only_in (accounted T1 U1 (r :: fl2)) (k_mem s) (k_mem s3) ∧
  ∀ j, 0 ≤ j < 4096 → byte_at (k_mem s3) (r + j) = byte_at (k_mem s0) (pa + j).
Proof.
  intros HU Hc Hpa Hu2 Hr Hacc Hs2 Hl2 Ho2 s3. assert (accounted T1 U1 (r :: fl2) r) as Hra by (left; by left).
  assert (mem_ok (k_mem s2)) as Hmo by apply (ki_mem _ _ (vi_kmem _ _ _ _ (us_vm _ _ _ _ _ Hu2))).
  destruct (us_inv_write s2 new T1 U1 fl2 r (read_bytes (k_mem s2) pa 4096) Hu2 Hr Hacc) as (Hu3 & Hs3 & Hl3 & Ho3);
    [apply length_read_bytes|by apply read_bytes_range|]. fold s3 in Hu3, Hs3, Hl3, Ho3. split_and!; [done| | | |].
  - intros n p x Hn Hx. by rewrite (Hs3 n p x), (Hs2 n p x).
  - intros n. by rewrite Hl3.
  - eapply only_in_trans; by eapply only_in_page.
  - intros j Hj. rewrite <- (old_bytes c s T1 U1 (r :: fl2) c pa j Hc Hpa Hj). unfold byte_at at 1. cbn [s3 k_mem set_mem].
    replace (r + j) with (r + Z.of_nat (Z.to_nat j)) by lia. rewrite write_bytes_lookup_in by (rewrite length_read_bytes; lia).
    rewrite lookup_read_bytes by lia. cbn [default from_option id]. rewrite Z2Nat.id by lia. unfold byte_at. f_equal. apply Ho2.
    pose proof (us_page _ _ _ _ _ Hold c pa Hpa) as Hpp. destruct (pages_disjoint pa r Hpp Hr) as [?|?]; [|lia|lia].
    intros ->. apply (old_apart r); [right; by exists c|]. by apply (cp_acc _ _ _ _ _ Hc).
Qed.

(** What [mappages] changes, in the pages that were accounted for. *)
Lemma grown_only_in s T1 U1 fl1 s' T' fl' r : grown s T1 fl1 s' T' fl' → only_in (accounted T1 U1 (r :: fl1)) (k_mem s) (k_mem s').
Proof.
  intros Hg x Hx. apply (gr_frame _ _ _ _ _ _ Hg). intros p Hp. apply Hx. destruct (gr_fl _ _ _ _ _ _ Hg) as (news & -> & Hn).
  apply Hn in Hp as [Hp|Hp]; [right; by left|]. left. right. apply elem_of_app. by left.
Qed.

(** The filled page is mapped, or given back by the caller. *)
Lemma wp_map_copy c s T1 U1 fl2 s3 r pa i (Q : Z → kst → Prop) : copied c s T1 U1 (r :: fl2) → counted c T1 (r :: fl2) →
  i mod 4096 = 0 → 0 ≤ i → i / 4096 = c → i + 4096 ≤ MAXVA → c < npg sz → U0 !! c = Some pa → page_ok r → ¬ accounted T1 U1 fl2 r →
  us_inv s3 new T1 U1 fl2 → k_mach s3 ≡ k_mach s → same_user U1 (k_mem s) (k_mem s3) → (∀ n, leaf (k_mem s3) T1 n = leaf (k_mem s) T1 n) →
  only_in (accounted T1 U1 (r :: fl2)) (k_mem s) (k_mem s3) →
  (∀ j, 0 ≤ j < 4096 → byte_at (k_mem s3) (r + j) = byte_at (k_mem s0) (pa + j)) →
  (∀ s4 T4 U4 fl4, copied (c + 1) s4 T4 U4 fl4 → counted (c + 1) T4 fl4 → Q 0 s4) →
  (∀ s4 T4 fl4, us_inv s4 new T4 U1 fl4 → ¬ accounted T4 U1 fl4 r → Z.of_nat (length fl) ≤ 3 * (c + 1) →
     (∀ s5, us_inv s5 new T4 U1 (r :: fl4) → same_user U1 (k_mem s4) (k_mem s5) → (∀ n, leaf (k_mem s5) T4 n = leaf (k_mem s4) T4 n) →
        k_mach s5 ≡ k_mach s4 → same_outside r (k_mem s4) (k_mem s5) → copied c s5 T4 U1 (r :: fl4)) → Q (-1) s4) →
  wp (mappages new i PGSIZE r (PTE_FLAGS (leaf (k_mem s0) T0 c))) s3 Q.
Proof.
  intros Hc Hct Hal Hi <- HM Hlo Hpa Hr Hacc Hu3 Hm3 Hs3 Hl3 Ho3 Hb3 Q0 Q1. assert (0 ≤ i / 4096) as Hc0 by (apply Z.div_pos; lia).
  assert (∀ n, 0 ≤ n < i / 4096 → U !! n = None) as HU by (intros n Hn; apply (new_free (i / 4096)); lia).
  destruct (old_entry _ _ _ _ _ _ _ Hc Hpa) as (_ & _ & _ & _ & Hp & Hne & _).
  destruct (cp_rest _ _ _ _ _ Hc (i / 4096)) as [HU1 Hl1]; [lia|]. rewrite (new_free (npg sz)) in HU1 by lia.
  eapply (wp_map_fresh _ _ _ _ s3 T1 U1 fl2); [done|done|lia|done|done|done|done|done|unfold mapped; rewrite Hl3, Hl1; apply Hfree; lia|done| |].
  - intros s4 T4 fl4 Hu4 Hm4 Hs4 Hpg4 Hl4 Ha4 [Hg4 Hz4]. apply (Q0 s4 T4 (<[i / 4096 := r]> U1) fl4); [|by eapply counted_next].
    apply (copied_next (i / 4096) s T1 U1 (r :: fl2) s4 T4 fl4 r pa); try done.
    + by rewrite Hm4.
    + eapply only_in_trans; [done|]. by eapply grown_only_in.
    + intros n p x Hn Hx. by rewrite (Hs4 n p x), (Hs3 n p x).
    + intros n. rewrite Hl4. case_decide; [done|]. apply Hl3.
    + intros j Hj. unfold byte_at. rewrite Hpg4 by lia. by apply Hb3.
  - intros s4 T4 fl4 Hu4 Hm4 Hs4 Hl4 Hacc4 Ha4 (Hg4 & Hz4 & ->). apply (Q1 s4 T4 []); [done|done|by eapply counted_short|]. intros s5 Hu5 Hs5 Hl5 Hm5 Ho5.
    apply (copied_same _ s T1 U1 (r :: fl2) s5 T4 [r] HU Hc Hu5); [by rewrite Hm5, Hm4| | | |done].
    + eapply only_in_trans; [done|]. eapply only_in_trans; [by eapply grown_only_in|].
      apply (only_in_page _ r); [left; by left|done].
    + intros n p x Hn Hx. by rewrite (Hs5 n p x), (Hs4 n p x), (Hs3 n p x).
    + intros n. by rewrite Hl5, Hl4, Hl3.
Qed.

Lemma wp_uvmcopy_loop fuel : ∀ i s T1 U1 fl1, copied (i / 4096) s T1 U1 fl1 → counted (i / 4096) T1 fl1 → i mod 4096 = 0 → 0 ≤ i →
  i / 4096 ≤ npg sz ≤ i / 4096 + Z.of_nat fuel →
  wp (uvmcopy_loop fuel old new i sz) s (fun r s' =>
    (r = 0 ∧ ∃ T' U' fl', copied (npg sz) s' T' U' fl') ∨ (r = -1 ∧ ∃ T' fl', not_copied s' T' fl')).
Proof.
  induction fuel as [|fuel IH]; intros i s T1 U1 fl1 Hc Hct Hal Hi Hf; cbn [uvmcopy_loop];
    (destruct (Z.ltb_spec i sz) as [Hlt|Hge]; cbn [negb];
      [|wp_simpl; left; split; [done|]; exists T1, U1, fl1; by replace (npg sz) with (i / 4096) by (unfold npg in *; zlia)]).
  { unfold npg in *. zlia. }
  assert (i / 4096 < npg sz ∧ i + 4096 ≤ MAXVA) as [Hlo HM] by (unfold npg in *; change MAXVA with 274877906944 in *; zlia).
  destruct (Hfull (i / 4096)) as [pa Hpa]; [split; [apply Z.div_pos; lia|done]|].
  assert (0 ≤ i / 4096) as Hc0 by (apply Z.div_pos; lia).
  assert (∀ n, 0 ≤ n < i / 4096 → U !! n = None) as HU by (intros n Hn; apply (new_free (i / 4096)); lia).
  destruct (old_entry _ _ _ _ _ _ _ Hc Hpa) as (Hl & HA & HV & Hpk & Hp & Hne & pt & Hpt & He & Hptk).
  destruct (cp_rest _ _ _ _ _ Hc (i / 4096)) as [HU1 Hl1]; [lia|]. rewrite (new_free (npg sz)) in HU1 by lia.
  destruct (copied_old _ _ _ _ _ Hc) as (Hu0 & _ & _). pose proof (cp_new _ _ _ _ _ Hc) as Hu1.
  wp_simpl. eapply wp_walk_noalloc; [apply Hu0|change MAXVA with 274877906944 in *; lia|].
  pose proof (page_ok_pos _ Hptk). pose proof (Z.mod_pos_bound (i / 4096) 512 ltac:(lia)). rewrite He.
  destruct (Z.eqb_spec (pt + 8 * (i / 4096 mod 512)) 0) as [?|_]; [lia|]. wp_simpl.
  apply wp_ld64; [apply page_ok_ram_sub; [done|lia|lia]|]. wp_simpl. rewrite (leaf_entry _ T0) by done. rewrite Hl, HA.
  destruct (Z.eqb_spec (Z.land (leaf (k_mem s0) T0 (i / 4096)) PTE_V) 0) as [?|_]; [done|]. wp_simpl.
  eapply wp_kalloc_us; [done| |].
  - intros s1 -> Hu2 Hm1 Hmach1. cbn [Z.eqb]. wp_simpl. eapply wp_mono.
    + apply (wp_undo (i / 4096) s1 T1 U1 []); [|lia|destruct Hct; cbn [length] in *; lia].
      apply (copied_same _ s T1 U1 [] s1 T1 [] HU Hc Hu2); [done|by rewrite Hm1|by rewrite Hm1|intros n; by rewrite Hm1|done].
    + cbn beta. intros _ s' H'. wp_simpl. by right.
  - intros r fl2 s2 -> Hu2 Hr Hacc Hs2 Hl2 Ho2 Hm2. pose proof (page_ok_pos r Hr). destruct (Z.eqb_spec r 0); [lia|]. wp_simpl.
    apply wp_memmove; [apply (ki_mem _ _ (vi_kmem _ _ _ _ (us_vm _ _ _ _ _ Hu2)))|done|by apply page_ok_writable|by apply page_ok_ram|].
    change (Z.to_nat PGSIZE) with 4096%nat. wp_simpl.
    destruct (copied_fill _ _ _ _ _ _ _ _ HU Hc Hpa Hu2 Hr Hacc Hs2 Hl2 Ho2) as (Hu3 & Hs3 & Hl3 & Ho3 & Hb3).
    set (s3 := set_mem _ s2) in *. assert (k_mach s3 ≡ k_mach s) as Hm3 by exact Hm2. clearbody s3.
    eapply (wp_map_copy (i / 4096) s T1 U1 fl2 s3 r pa i); try done.
    + intros s4 T4 U4 fl4 Hc4 Hct4. cbn [Z.eqb negb]. wp_simpl.
      apply (IH (i + PGSIZE) s4 T4 U4 fl4); unfold PGSIZE; try replace ((i + 4096) / 4096) with (i / 4096 + 1) by zlia; [done|done|zlia|lia|lia].
    + intros s4 T4 fl4 Hu4 Hacc4 Hsh Hback. cbn [Z.eqb negb]. wp_simpl. eapply wp_kfree_us; [done|done|done|].
      intros s5 Hu5 Hs5 Hl5 Hm5 Ho5. wp_simpl. eapply wp_mono; [apply (wp_undo (i / 4096) s5 T4 U1 (r :: fl4)); [by apply Hback|lia|lia]|].
      cbn beta. intros _ s' H'. wp_simpl. by right.
Qed.

Lemma wp_uvmcopy : wp (uvmcopy old new sz) s0 (fun r s' =>
  (r = 0 ∧ ∃ T' U' fl', copied (npg sz) s' T' U' fl') ∨ (r = -1 ∧ ∃ T' fl', not_copied s' T' fl')).
Proof.
  unfold uvmcopy. apply (wp_uvmcopy_loop _ 0 s0 T U fl); [apply copied_start|split; change (0 / 4096) with 0; lia|done|lia|].
  change (0 / 4096) with 0. unfold npg, PGSIZE. replace (sz + 4096 - 1) with (sz + 4095) by lia. zlia.
Qed.

Lemma apart_acc T1 U1 fl1 p : (∀ q, accounted T1 U1 fl1 q ↔ accounted T U fl q) → pages T0 U0 p → ¬ pages T1 U1 p.
Proof. intros Ha Hp Hp1. apply (old_apart p Hp), Ha. by right. Qed.

Lemma not_copied_old s T1 fl1 : not_copied s T1 fl1 →
  us_inv s old T0 U0 fl1 ∧ same_user U0 (k_mem s0) (k_mem s) ∧ ∀ n, leaf (k_mem s) T0 n = leaf (k_mem s0) T0 n.
Proof.
  intros [H1 _ H3 _ H5 _ _ _]. apply (us_inv_other s0 s new T U fl fl1 old); try done; [apply old_apart|apply H1|].
  intros p Hp. apply H5. by left.
Qed.
End copy.

(** C10. [uvmcopy] gives a child the memory of its parent: every page below [sz] has
    a page of its own in the new address space, with the bytes and the
    permissions of the old one.  The old address space is unchanged and stays
    apart from the new one.  If pages run out, which can happen only with at most three
    free pages for each page to copy, it returns -1, nothing of the range is
    mapped and no page is lost. *)
Theorem uvmcopy_correct old new sz s T0 U0 T U fl :
  us_inv s old T0 U0 fl → us_inv s new T U fl → (∀ p, pages T0 U0 p → ¬ pages T U p) → 0 ≤ sz ≤ MAXVA →
  (∀ n, 0 ≤ n < npg sz → is_Some (U0 !! n)) → (∀ n, 0 ≤ n < npg sz → mapped (k_mem s) T n = false) →
  wp (uvmcopy old new sz) s (fun r s' => k_mach s' ≡ k_mach s ∧ ∃ T' U' fl',
    (us_inv s' old T0 U0 fl' ∧ same_user U0 (k_mem s) (k_mem s') ∧ ∀ n, leaf (k_mem s') T0 n = leaf (k_mem s) T0 n) ∧
    us_inv s' new T' U' fl' ∧ (∀ p, pages T0 U0 p → ¬ pages T' U' p) ∧ same_user U (k_mem s) (k_mem s') ∧
    (∀ p, accounted T' U' fl' p ↔ accounted T U fl p) ∧
    (∀ n, ¬ (0 ≤ n < npg sz) → U' !! n = U !! n ∧ leaf (k_mem s') T' n = leaf (k_mem s) T n) ∧
    ((r = 0 ∧ ∀ n, 0 ≤ n < npg sz → page_copied s T0 U0 (k_mem s') T' U' n) ∨
     (r = -1 ∧ U' = U ∧ (∀ n, 0 ≤ n < npg sz → mapped (k_mem s') T' n = false) ∧ Z.of_nat (length fl) ≤ 3 * npg sz))).
Proof.
  intros Ho Hn Hap Hsz Hfull Hfree. eapply wp_mono; [by apply (wp_uvmcopy old new sz s T0 U0 T U fl)|].
  cbn beta. intros r s' [[-> (T' & U' & fl' & Hc)]|[-> (T' & fl' & Hc)]].
  - pose proof (copied_old old new s T0 U0 T U fl Ho Hn Hap _ _ _ _ _ Hc) as (O1 & O2 & O3). destruct Hc as [C1 C2 C3 C4 C5 C6 C7].
    split; [done|]. exists T', U', fl'. split_and!; try done; [|by left]. intros p. by eapply (apart_acc old s T0 U0 T U fl Ho Hap).
  - pose proof (not_copied_old old new sz s T0 U0 T U fl Ho Hn Hap _ _ _ Hc) as (O1 & O2 & O3). destruct Hc as [C1 C2 C3 C4 C5 C6 C7 C8].
    split; [done|]. exists T', U, fl'. split_and!; try done; [|intros n H; split; [done|by apply C6]|by right].
    intros p. by eapply (apart_acc old s T0 U0 T U fl Ho Hap).
Qed.
End uvmcopy.

(** ** A parent and a child on the concrete machine *)

#[local] Existing Instance small_image.

(** A parent with two pages, if there is room for them. *)
Lemma wp_parent s pt fl : us_inv s pt {[ (2%nat, 0) := pt ]} ∅ fl → (∀ n, leaf (k_mem s) {[ (2%nat, 0) := pt ]} n = 0) →
  wp (uvmalloc pt 0 5000 PTE_W) s (fun sz s1 => ∃ T1 U1 fl1, us_inv s1 pt T1 U1 fl1 ∧ k_mach s1 ≡ k_mach s ∧
    0 ≤ sz ≤ 5000 ∧ ∀ n, 0 ≤ n < npg sz → is_Some (U1 !! n)).
Proof.
  intros Hu Hl. eapply wp_mono.
  - apply (wp_uvmalloc pt 0 5000 PTE_W s _ _ _ Hu); [lia|by vm_compute|by vm_compute|]. intros n _. unfold mapped. by rewrite Hl.
  - cbn beta. intros sz s1 [[-> (T1 & U1 & fl1 & Hu1 & Hm1 & _ & Hnew & _)]|[-> [(T1 & U1 & fl1 & Hu1 & Hm1 & _) _]]];
      exists T1, U1, fl1; (split; [done|]); (split; [done|]); (split; [lia|]).
    + intros n Hn. destruct (Hnew n Hn) as (pa & H & _). by exists pa.
    + intros n Hn. change (npg 0) with 0 in Hn. lia.
Qed.

(** The child's root is apart from the parent. *)
Lemma child_apart s1 s2 pt T1 U1 child fl2 : us_inv s1 pt T1 U1 (child :: fl2) → us_inv s2 child {[ (2%nat, 0) := child ]} ∅ fl2 →
  same_outside child (k_mem s1) (k_mem s2) →
  us_inv s2 pt T1 U1 fl2 ∧ ∀ p, pages T1 U1 p → ¬ pages {[ (2%nat, 0) := child ]} ∅ p.
Proof.
  intros Hu1 Hu2 Hso. assert (¬ in_tbl T1 child) as Hnt.
  { intros Ht. apply (vi_fresh _ _ _ _ (us_vm _ _ _ _ _ Hu1) child Ht). by left. }
  assert (∀ n, U1 !! n ≠ Some child) as HnU by (intros n Hn; apply (us_free _ _ _ _ _ Hu1 n child Hn); by left).
  split.
  - apply (us_inv_take s1 s2 pt T1 U1 (child :: fl2) fl2 child); [done|by eapply (accounted_ok s1); [|left; left]|done|done|apply Hu2|by right|done].
  - intros p Hp [[k [_ <-]%lookup_singleton_Some]|[n Hn]]; [|done]. destruct Hp as [?|[n Hn]]; [done|by apply (HnU n)].
Qed.

Lemma uvmcopy_correct_witness :
  wp (pt ← uvmcreate; sz ← uvmalloc pt 0 5000 PTE_W; child ← uvmcreate; if child =? 0 then ret 1 else uvmcopy pt child sz) (small_st 8)
    (fun r s' => k_mach s' ≡ boot_mach ∧ (r = 1 ∨ r = 0 ∨ r = -1)).
Proof.
  wp_simpl. eapply wp_uvmcreate; [exact small_st8_inv|done|].
  intros pt fl s Hfl Hu Hl Hso Hm. wp_simpl. eapply wp_mono; [exact (wp_parent s pt fl Hu Hl)|].
  cbn beta. intros sz s1 (T1 & U1 & fl1 & Hu1 & Hm1 & Hsz & Hown). wp_simpl. eapply wp_uvmcreate; [apply Hu1| |].
  { intros s2 _ _ _ Hm2. cbn [Z.eqb]. wp_simpl. split; [by rewrite Hm2, Hm1, Hm|by left]. }
  intros child fl2 s2 -> Hu2 Hl2 Hso2 Hm2. destruct (child_apart _ _ _ _ _ _ _ Hu1 Hu2 Hso2) as [Hu1' Hap].
  destruct (Z.eqb_spec child 0) as [_|_]; [wp_simpl; split; [by rewrite Hm2, Hm1, Hm|by left]|]. eapply wp_mono.
  - apply (uvmcopy_correct pt child sz s2 T1 U1 _ _ _ Hu1' Hu2 Hap); [change MAXVA with 274877906944; lia|done|].
    intros n _. unfold mapped. by rewrite Hl2.
  - cbn beta. intros r s' (Hm' & T' & U' & fl' & _ & _ & _ & _ & _ & _ & Hr). split; [by rewrite Hm', Hm2, Hm1, Hm|].
    destruct Hr as [[-> _]|[-> _]]; [right; by left|right; by right].
Defined.
