(* ===== verification/CopyUser.v ===== *)
(** * Copying between kernel and user space (kernel/vm.c)

    [walkaddr], [copyin], [copyinstr] and [copyout] go page by page.  Here they
    are compared with reference definitions that translate every single byte
    address ([uaddr]) and stop at the first one the user may not access. *)

From Stdlib Require Import ZArith Lia.
From stdpp Require Import base gmap strings numbers list.
From S2P Require Import Prelude Spinlock Mem Kstring Kalloc Vm PageTable VmFacts Uvm UvmAlloc.
Local Open Scope xv6_scope.

(** ** Reference definitions *)

(** The physical page behind a user virtual address; 0 if there is none. *)
Definition uaddr (m : gmap Z Z) (T : tbl) (va : Z) : Z :=
  if MAXVA <=? va then 0 else
  let v := leaf m T (va / 4096) in
  if (Z.land v PTE_V =? 0) || (Z.land v PTE_U =? 0) then 0 else PTE2PA v.

(** The physical address of the byte at [va]. *)
Definition ubyte (m : gmap Z Z) (T : tbl) (va : Z) : Z := uaddr m T va + va mod 4096.

(** Read [n] bytes; the flag tells whether all of them were accessible. *)
Fixpoint uread (m : gmap Z Z) (T : tbl) (va : Z) (n : nat) : bool * list Z :=
  match n with
  | O => (true, [])
  | S n =>
    if uaddr m T va =? 0 then (false, [])
    else let '(ok, bs) := uread m T (va + 1) n in (ok, byte_at m (ubyte m T va) :: bs)
  end.

(** Read up to the nul, at most [n] bytes. *)
Fixpoint ureadstr (m : gmap Z Z) (T : tbl) (va : Z) (n : nat) : bool * list Z :=
  match n with
  | O => (false, [])
  | S n =>
    if uaddr m T va =? 0 then (false, [])
    else
      let c := byte_at m (ubyte m T va) in
      if c =? 0 then (true, [0])
      else let '(ok, bs) := ureadstr m T (va + 1) n in (ok, c :: bs)
  end.

(** Write [bs]; translation is that of the table in [m0]. *)
Fixpoint uwrite (m0 : gmap Z Z) (T : tbl) (m : gmap Z Z) (va : Z) (bs : list Z) : bool * gmap Z Z :=
  match bs with
  | [] => (true, m)
  | b :: bs =>
    if uaddr m0 T va =? 0 then (false, m)
    else uwrite m0 T (<[ubyte m0 T va := b]> m) (va + 1) bs
  end.

Section copy.
Context `{KI : KernelImage}.

Lemma uaddr_page m T va va' : 0 ≤ va → 0 ≤ va' → va / 4096 = va' / 4096 → uaddr m T va = uaddr m T va'.
Proof.
  intros H1 H2 H. unfold uaddr. rewrite H. change MAXVA with 274877906944.
  destruct (Z.leb_spec 274877906944 va), (Z.leb_spec 274877906944 va'); try done; zlia.
Qed.

Lemma uaddr_PGROUNDDOWN m T va : 0 ≤ va → uaddr m T (PGROUNDDOWN va) = uaddr m T va.
Proof. intros H. rewrite PGROUNDDOWN_eq. apply uaddr_page; zlia. Qed.

Lemma ubyte_off m T va i : 0 ≤ va → 0 ≤ i → va mod 4096 + i < 4096 →
  uaddr m T (va + i) = uaddr m T va ∧ ubyte m T (va + i) = ubyte m T va + i.
Proof.
  intros H0 Hi Hlt. assert (uaddr m T (va + i) = uaddr m T va) as H.
  { apply uaddr_page; [lia|lia|zlia]. }
  split; [done|]. unfold ubyte. rewrite H. zlia.
Qed.

Lemma wp_walkaddr pagetable va s T Q :
  pt_rep (k_mem s) pagetable T → 0 ≤ va → Q (uaddr (k_mem s) T va) s →
  wp (walkaddr pagetable va) s Q.
Proof.
  intros Hr Hva HQ. unfold walkaddr. unfold uaddr in HQ.
  destruct (Z.leb_spec MAXVA va); [done|]. wp_simpl.
  eapply wp_walk_noalloc; [done|lia|]. unfold entry. unfold leaf in HQ.
  destruct (T !! (0%nat, va / 4096 / 512)) as [pt|] eqn:E; [|done].
  assert (page_ok pt) as Hp by (by eapply pr_page). pose proof (page_ok_pos _ Hp).
  pose proof (Z.mod_pos_bound (va / 4096) 512).
  destruct (Z.eqb_spec (pt + 8 * ((va / 4096) mod 512)) 0) as [?|_]; [lia|]. wp_simpl.
  apply wp_ld64; [apply page_ok_ram_sub; [done|lia|lia]|]. revert HQ.
  destruct (Z.land _ PTE_V =? 0); [done|]. destruct (Z.land _ PTE_U =? 0); done.
Qed.

(** The pages the user may access among [va .. va+n-1] lie in RAM. *)
Definition user_ram (m : gmap Z Z) (T : tbl) (va n : Z) : Prop :=
  ∀ a, va ≤ a < va + n → uaddr m T a ≠ 0 → in_ram (uaddr m T a) 4096 = true.

Lemma wp_copy_to_kernel src n s Q :
  (n = 0%nat ∨ in_ram src (Z.of_nat n) = true) → Q (read_bytes (k_mem s) src n) s →
  wp (copy_to_kernel src n) s Q.
Proof.
  Local Transparent read_bytes.
  revert src Q. induction n as [|n IH]; intros src Q Hr HQ; cbn [copy_to_kernel]; [done|].
  destruct Hr as [?|Hr]; [done|]. wp_simpl. apply wp_ld8.
  { eapply in_ram_sub; [done|lia|lia]. }
  wp_simpl. apply IH; [|done]. destruct n; [by left|right]. eapply in_ram_sub; [done|lia|lia].
Qed.

(** ** [copyin] *)

Lemma uread_page m T va n k :
  0 ≤ va → uaddr m T va ≠ 0 → va mod 4096 + Z.of_nat n ≤ 4096 →
  uread m T va (n + k) =
    let '(ok, bs) := uread m T (va + Z.of_nat n) k in (ok, read_bytes m (ubyte m T va) n ++ bs).
Proof.
  revert va. induction n as [|n IH]; intros va Hva Hne Hlt; cbn [uread Nat.add read_bytes app].
  - rewrite Z.add_0_r. by destruct (uread m T va k).
  - destruct (Z.eqb_spec (uaddr m T va) 0) as [?|_]; [done|].
    destruct n as [|n].
    + cbn [Nat.add read_bytes app]. change (Z.of_nat 1) with 1. by destruct (uread m T (va + 1) k).
    + destruct (ubyte_off m T va 1) as [H1 H2]; [lia|lia|lia|].
      rewrite IH; [|lia|congruence|zlia]. replace (va + 1 + Z.of_nat (S n)) with (va + Z.of_nat (S (S n))) by lia.
      rewrite H2. by destruct (uread m T _ k).
Qed.

Lemma wp_copyin_loop fuel pagetable srcva len s T Q :
  pt_rep (k_mem s) pagetable T → user_ram (k_mem s) T srcva len → 0 ≤ srcva < 2 ^ 64 →
  len ≤ Z.of_nat fuel →
  (let '(ok, bs) := uread (k_mem s) T srcva (Z.to_nat len) in
   Q (if ok then 0 else -1, bs) s) →
  wp (copyin_loop fuel pagetable srcva len) s Q.
Proof.
  intros Hr. revert srcva len Q. induction fuel as [|fuel IH];
    intros srcva len Q Hram Hva Hf HQ; cbn [copyin_loop];
    (destruct (Z.ltb_spec 0 len) as [Hlen|Hlen]; cbn [negb];
      [|by wp_simpl; replace (Z.to_nat len) with 0%nat in HQ by lia]); [lia|].
  wp_simpl. pose proof (PGROUNDDOWN_eq srcva) as HP.
  eapply wp_walkaddr; [done|zlia|]. rewrite uaddr_PGROUNDDOWN by lia.
  destruct (Z.eqb_spec (uaddr (k_mem s) T srcva) 0) as [E|E].
  { wp_simpl. destruct (Z.to_nat len) eqn:El; [lia|]. cbn [uread] in HQ. by rewrite E in HQ. }
  rewrite HP. unfold PGSIZE. set (off := srcva mod 4096).
  replace (srcva - (srcva - off)) with off by lia.
  assert (0 ≤ off < 4096) as Hoff by (unfold off; zlia).
  assert (srcva < MAXVA) as HM.
  { unfold uaddr in E. by destruct (Z.leb_spec MAXVA srcva). }
  change MAXVA with 274877906944 in HM.
  set (n := if len <? 4096 - off then len else 4096 - off).
  assert (0 < n ≤ len ∧ off + n ≤ 4096 ∧ (n = len ∨ off + n = 4096)) as (Hn1 & Hn2 & Hn3).
  { unfold n. destruct (Z.ltb_spec len (4096 - off)); lia. }
  wp_simpl. apply wp_copy_to_kernel.
  { right. eapply in_ram_sub; [apply (Hram srcva); [lia|exact E]|lia|lia]. }
  assert (uread (k_mem s) T srcva (Z.to_nat len) =
    let '(ok, bs) := uread (k_mem s) T (srcva + n) (Z.to_nat (len - n)) in
    (ok, read_bytes (k_mem s) (uaddr (k_mem s) T srcva + off) (Z.to_nat n) ++ bs)) as Hread.
  { replace (Z.to_nat len) with (Z.to_nat n + Z.to_nat (len - n))%nat by lia.
    rewrite uread_page; [|lia|done|lia]. by rewrite Z2Nat.id by lia. }
  rewrite Hread in HQ. wp_simpl. apply IH; [intros a Ha; apply Hram; zlia|zlia|lia|].
  destruct Hn3 as [Hn3|Hn3].
  - replace (Z.to_nat (len - n)) with 0%nat in * by lia. cbn [uread] in *. by wp_simpl.
  - replace (u64 (srcva - off + 4096)) with (srcva + n) by zlia.
    destruct (uread (k_mem s) T (srcva + n) (Z.to_nat (len - n))) as [ok bs]. by wp_simpl.
Qed.

(** ** [copyinstr] *)

(** The bytes up to the first nul, if there is one in [n] bytes. *)
Fixpoint scan (m : gmap Z Z) (a : Z) (n : nat) : bool * list Z :=
  match n with
  | O => (false, [])
  | S n =>
    let c := byte_at m a in
    if c =? 0 then (true, [0]) else let '(b, cs) := scan m (a + 1) n in (b, c :: cs)
  end.

Lemma wp_copyinstr_page p n s Q :
  (n = 0%nat ∨ in_ram p (Z.of_nat n) = true) → Q (scan (k_mem s) p n) s →
  wp (copyinstr_page p n) s Q.
Proof.
  revert p Q. induction n as [|n IH]; intros p Q Hr HQ; cbn [copyinstr_page]; [done|].
  destruct Hr as [?|Hr]; [done|]. wp_simpl. apply wp_ld8.
  { eapply in_ram_sub; [done|lia|lia]. }
  cbn [scan] in HQ. destruct (byte_at (k_mem s) p =? 0); [done|]. wp_simpl. apply IH.
  - destruct n; [by left|right]. eapply in_ram_sub; [done|lia|lia].
  - by destruct (scan (k_mem s) (p + 1) n).
Qed.

Lemma ureadstr_page m T va n k :
  0 ≤ va → uaddr m T va ≠ 0 → va mod 4096 + Z.of_nat n ≤ 4096 →
  ureadstr m T va (n + k) =
    let '(b, cs) := scan m (ubyte m T va) n in
    if b then (true, cs)
    else let '(ok, bs) := ureadstr m T (va + Z.of_nat n) k in (ok, cs ++ bs).
Proof.
  revert va. induction n as [|n IH]; intros va Hva Hne Hlt; cbn [ureadstr Nat.add scan app].
  - rewrite Z.add_0_r. by destruct (ureadstr m T va k).
  - destruct (Z.eqb_spec (uaddr m T va) 0) as [?|_]; [done|].
    destruct (byte_at m (ubyte m T va) =? 0); [done|].
    destruct n as [|n].
    + cbn [Nat.add scan]. change (Z.of_nat 1) with 1. by destruct (ureadstr m T (va + 1) k).
    + destruct (ubyte_off m T va 1) as [H1 H2]; [lia|lia|lia|].
      rewrite IH; [|lia|congruence|zlia]. rewrite H2.
      replace (va + 1 + Z.of_nat (S n)) with (va + Z.of_nat (S (S n))) by lia.
      destruct (scan m (ubyte m T va + 1) (S n)) as [[] cs]; [done|]. by destruct (ureadstr m T _ k).
Qed.

Lemma wp_copyinstr_loop fuel pagetable srcva max s T Q :
  pt_rep (k_mem s) pagetable T → user_ram (k_mem s) T srcva max → 0 ≤ srcva < 2 ^ 64 →
  max ≤ Z.of_nat fuel →
  (let '(ok, bs) := ureadstr (k_mem s) T srcva (Z.to_nat max) in
   Q (if ok then 0 else -1, bs) s) →
  wp (copyinstr_loop fuel pagetable srcva max) s Q.
Proof.
  intros Hr. revert srcva max Q. induction fuel as [|fuel IH];
    intros srcva max Q Hram Hva Hf HQ; cbn [copyinstr_loop];
    (destruct (Z.ltb_spec 0 max) as [Hlen|Hlen]; cbn [negb];
      [|by wp_simpl; replace (Z.to_nat max) with 0%nat in HQ by lia]); [lia|].
  wp_simpl. pose proof (PGROUNDDOWN_eq srcva) as HP.
  eapply wp_walkaddr; [done|zlia|]. rewrite uaddr_PGROUNDDOWN by lia.
  destruct (Z.eqb_spec (uaddr (k_mem s) T srcva) 0) as [E|E].
  { wp_simpl. destruct (Z.to_nat max) eqn:El; [lia|]. cbn [ureadstr] in HQ. by rewrite E in HQ. }
  rewrite HP. unfold PGSIZE. set (off := srcva mod 4096).
  replace (srcva - (srcva - off)) with off by lia.
  assert (0 ≤ off < 4096) as Hoff by (unfold off; zlia).
  assert (srcva < MAXVA) as HM.
  { unfold uaddr in E. by destruct (Z.leb_spec MAXVA srcva). }
  change MAXVA with 274877906944 in HM.
  set (n := if max <? 4096 - off then max else 4096 - off).
  assert (0 < n ≤ max ∧ off + n ≤ 4096 ∧ (n = max ∨ off + n = 4096)) as (Hn1 & Hn2 & Hn3).
  { unfold n. destruct (Z.ltb_spec max (4096 - off)); lia. }
  wp_simpl. apply wp_copyinstr_page.
  { right. eapply in_ram_sub; [apply (Hram srcva); [lia|exact E]|lia|lia]. }
  replace (Z.to_nat max) with (Z.to_nat n + Z.to_nat (max - n))%nat in HQ by lia.
  rewrite ureadstr_page, Z2Nat.id in HQ by (done || lia). unfold ubyte in HQ. fold off in HQ.
  destruct (scan (k_mem s) (uaddr (k_mem s) T srcva + off) (Z.to_nat n)) as [[] cs]; [done|].
  wp_simpl. apply IH; [intros a Ha; apply Hram; zlia|zlia|lia|]. destruct Hn3 as [Hn3|Hn3].
  - replace (Z.to_nat (max - n)) with 0%nat in * by lia. cbn [ureadstr] in *. by wp_simpl.
  - replace (u64 (srcva - off + 4096)) with (srcva + n) by zlia.
    destruct (ureadstr (k_mem s) T (srcva + n) (Z.to_nat (max - n))) as [ok bs]. by wp_simpl.
Qed.

(** ** [copyout] *)

Lemma wp_copy_from_kernel dst src s Q :
  (src = [] ∨ writable dst (Z.of_nat (length src)) = true) → bytes src →
  Q tt (set_mem (write_bytes (k_mem s) dst src) s) → wp (copy_from_kernel dst src) s Q.
Proof.
  Local Transparent write_bytes.
  revert dst s. induction src as [|b src IH]; intros dst s Hw Hb HQ; cbn [copy_from_kernel].
  { cbn [write_bytes] in HQ. by rewrite (kst_mem_id s) in HQ. }
  destruct Hw as [?|Hw]; [done|]. cbn [length] in Hw. apply Forall_cons in Hb as [Hb Hbs].
  wp_simpl. apply wp_st8; [eapply writable_sub; [done|lia|lia]|]. apply IH; [|done|].
  - destruct src; [by left|right]. eapply writable_sub; [done|lia|cbn [length]; lia].
  - assert (u8 b = b) as -> by zlia. done.
Qed.

(** A page [copyout] may store to: writable memory outside the page table. *)
Definition target_ok (T : tbl) (pa : Z) : Prop :=
  writable pa 4096 = true ∧ ∀ x, pa ≤ x < pa + 4096 → outside T x.

Lemma uwrite_page m0 T m va bs1 bs2 :
  0 ≤ va → uaddr m0 T va ≠ 0 → va mod 4096 + Z.of_nat (length bs1) ≤ 4096 →
  uwrite m0 T m va (bs1 ++ bs2) =
    uwrite m0 T (write_bytes m (ubyte m0 T va) bs1) (va + Z.of_nat (length bs1)) bs2.
Proof.
  revert m va. induction bs1 as [|b bs1 IH]; intros m va Hva Hne Hlt; cbn [uwrite app length write_bytes].
  - by rewrite Z.add_0_r.
  - destruct (Z.eqb_spec (uaddr m0 T va) 0) as [?|_]; [done|].
    destruct bs1 as [|b' bs1]; [done|]. cbn [length] in Hlt.
    destruct (ubyte_off m0 T va 1) as [H1 H2]; [lia|lia|lia|].
    rewrite IH; [|lia|congruence|cbn [length]; zlia]. rewrite H2. f_equal. cbn [length]. lia.
Qed.

Lemma uaddr_frame m m' T va : same_tbl T m m' → uaddr m' T va = uaddr m T va.
Proof. intros H. unfold uaddr. by rewrite (leaf_frame m m'). Qed.

Lemma wp_copyout_loop fuel pagetable dstva src m0 s T Q :
  pt_rep m0 pagetable T → same_tbl T m0 (k_mem s) → bytes src → 0 ≤ dstva < 2 ^ 64 →
  (length src ≤ fuel)%nat →
  (∀ va, dstva ≤ va < dstva + Z.of_nat (length src) → uaddr m0 T va ≠ 0 → target_ok T (uaddr m0 T va)) →
  (let '(ok, m') := uwrite m0 T (k_mem s) dstva src in
   Q (if ok then 0 else -1) (set_mem m' s)) →
  wp (copyout_loop fuel pagetable dstva src) s Q.
Proof.
  intros Hr. revert dstva src s. induction fuel as [|fuel IH]; intros dstva src s Hst Hb Hva Hf Hok HQ;
    (destruct src as [|b src']; [cbn [copyout_loop uwrite] in *; by rewrite (kst_mem_id s) in HQ|]);
    [cbn [length] in Hf; lia|].
  cbn [copyout_loop]. set (src := b :: src') in *.
  assert (0 < Z.of_nat (length src)) as Hlen by (unfold src; cbn [length]; lia).
  wp_simpl. pose proof (PGROUNDDOWN_eq dstva) as HP.
  eapply wp_walkaddr; [by eapply pt_rep_frame|zlia|].
  rewrite uaddr_PGROUNDDOWN, (uaddr_frame m0) by (done || lia).
  destruct (Z.eqb_spec (uaddr m0 T dstva) 0) as [E|E].
  { wp_simpl. unfold src in HQ. cbn [uwrite] in HQ. rewrite E in HQ. cbn [Z.eqb] in HQ. by rewrite (kst_mem_id s) in HQ. }
  rewrite HP. unfold PGSIZE. set (off := dstva mod 4096).
  replace (dstva - (dstva - off)) with off by lia.
  assert (0 ≤ off < 4096) as Hoff by (unfold off; zlia).
  assert (dstva < MAXVA) as HM.
  { unfold uaddr in E. by destruct (Z.leb_spec MAXVA dstva). }
  change MAXVA with 274877906944 in HM.
  set (len := Z.of_nat (length src)) in *.
  set (n := if len <? 4096 - off then len else 4096 - off).
  assert (0 < n ≤ len ∧ off + n ≤ 4096 ∧ (n = len ∨ off + n = 4096)) as (Hn1 & Hn2 & Hn3).
  { unfold n. destruct (Z.ltb_spec len (4096 - off)); lia. }
  assert (Z.of_nat (length (take (Z.to_nat n) src)) = n) as Htk by (rewrite length_take; lia).
  destruct (Hok dstva ltac:(lia) E) as [Hw Hout].
  wp_simpl. apply wp_copy_from_kernel.
  { right. rewrite Htk. eapply writable_sub; [exact Hw|lia|lia]. }
  { by apply Forall_take. }
  assert (uwrite m0 T (k_mem s) dstva src =
    uwrite m0 T (write_bytes (k_mem s) (uaddr m0 T dstva + off) (take (Z.to_nat n) src))
      (dstva + n) (drop (Z.to_nat n) src)) as Huw.
  { pose proof (uwrite_page m0 T (k_mem s) dstva (take (Z.to_nat n) src) (drop (Z.to_nat n) src)) as H.
    rewrite take_drop, Htk in H. apply H; [lia|done|unfold off in *; lia]. }
  rewrite Huw in HQ. destruct Hn3 as [Hn3|Hn3].
  - rewrite (drop_ge src) in * by lia. destruct fuel; exact HQ.
  - replace (u64 (dstva - off + 4096)) with (dstva + n) by zlia. apply IH; [|by apply Forall_drop|lia| |intros va Hva' Hne|exact HQ].
    + intros c x Hc Hx. cbn [k_mem set_mem]. rewrite write_bytes_lookup_out; [by eapply Hst|].
      rewrite Htk. destruct (decide (uaddr m0 T dstva + off ≤ x < uaddr m0 T dstva + off + n)); [|lia].
      exfalso. apply (Hout x ltac:(lia) c Hc Hx).
    + rewrite length_drop. lia.
    + apply Hok; [rewrite length_drop in Hva'; lia|done].
Qed.

Lemma wp_copyin pagetable srcva len s T Q :
  pt_rep (k_mem s) pagetable T → user_ram (k_mem s) T srcva len → 0 ≤ srcva < 2 ^ 64 →
  (let '(ok, bs) := uread (k_mem s) T srcva (Z.to_nat len) in
   Q (if ok then 0 else -1, bs) s) →
  wp (copyin pagetable srcva len) s Q.
Proof. intros Hr Hram Hva HQ. eapply wp_copyin_loop; [done|done|done|lia|done]. Qed.

Lemma wp_copyout pagetable dstva src s T Q :
  pt_rep (k_mem s) pagetable T → bytes src → 0 ≤ dstva < 2 ^ 64 →
  (∀ va, dstva ≤ va < dstva + Z.of_nat (length src) → uaddr (k_mem s) T va ≠ 0 →
     target_ok T (uaddr (k_mem s) T va)) →
  (let '(ok, m') := uwrite (k_mem s) T (k_mem s) dstva src in
   Q (if ok then 0 else -1) (set_mem m' s)) →
  wp (copyout pagetable dstva src) s Q.
Proof. intros Hr Hb Hva Hok HQ. by eapply (wp_copyout_loop _ _ _ _ (k_mem s)). Qed.

(** ** Writing to owned pages *)

(** The bytes [va .. va+n-1] lie in owned pages the user may access. *)
Definition user_range (m : gmap Z Z) (T : tbl) (U : gmap Z Z) (va : Z) (n : nat) : Prop :=
  ∀ a, va ≤ a < va + Z.of_nat n →
    0 ≤ a < MAXVA ∧ is_Some (U !! (a / 4096)) ∧ Z.land (leaf m T (a / 4096)) PTE_U ≠ 0.

Lemma owned_uaddr s root T U fl a pa :
  us_inv s root T U fl → U !! (a / 4096) = Some pa → 0 ≤ a < MAXVA →
  Z.land (leaf (k_mem s) T (a / 4096)) PTE_U ≠ 0 → uaddr (k_mem s) T a = pa.
Proof.
  intros Hu HU Ha HPU. destruct (us_leaf_bits _ _ _ _ _ _ _ Hu HU) as (HV & _ & HA & _).
  unfold uaddr. destruct (Z.leb_spec MAXVA a); [lia|].
  destruct (Z.eqb_spec (Z.land (leaf (k_mem s) T (a / 4096)) PTE_V) 0); [done|].
  by destruct (Z.eqb_spec (Z.land (leaf (k_mem s) T (a / 4096)) PTE_U) 0).
Qed.

Lemma owned_target s root T U fl n pa :
  us_inv s root T U fl → U !! n = Some pa → target_ok T pa.
Proof.
  intros Hu HU. split; [eapply page_ok_writable, us_page; done|].
  intros x Hx. by eapply owned_outside.
Qed.

(** Different addresses of owned pages are different bytes. *)
Lemma ubyte_inj s root T U fl a b :
  us_inv s root T U fl → user_range (k_mem s) T U a 1 → user_range (k_mem s) T U b 1 →
  ubyte (k_mem s) T a = ubyte (k_mem s) T b → a = b.
Proof.
  intros Hu Ha Hb. destruct (Ha a) as (Ha1 & [pa Hpa] & Ha3); [lia|].
  destruct (Hb b) as (Hb1 & [pb Hpb] & Hb3); [lia|]. unfold ubyte.
  rewrite (owned_uaddr _ _ _ _ _ _ _ Hu Hpa), (owned_uaddr _ _ _ _ _ _ _ Hu Hpb) by done.
  destruct (us_page _ _ _ _ _ Hu _ _ Hpa) as [Hal _].
  destruct (us_page _ _ _ _ _ Hu _ _ Hpb) as [Hbl _]. intros H.
  assert (pa = pb) as <- by zlia. pose proof (us_inj _ _ _ _ _ Hu _ _ _ Hpa Hpb). zlia.
Qed.

Lemma user_range_cons m T U va n : user_range m T U va (S n) →
  user_range m T U va 1 ∧ user_range m T U (va + 1) n.
Proof. intros H. split; intros a Ha; apply H; lia. Qed.

Lemma user_range_one m T U va n a : user_range m T U va n → va ≤ a < va + Z.of_nat n →
  user_range m T U a 1.
Proof. intros H Ha b Hb. apply H. lia. Qed.

Lemma uwrite_out m0 T m va bs ok m' x :
  uwrite m0 T m va bs = (ok, m') →
  (∀ a, va ≤ a < va + Z.of_nat (length bs) → uaddr m0 T a ≠ 0 → ubyte m0 T a ≠ x) → m' !! x = m !! x.
Proof.
  revert m va. induction bs as [|b bs IH]; intros m va H Hx; cbn [uwrite length] in *.
  { by injection H as <- <-. }
  destruct (Z.eqb_spec (uaddr m0 T va) 0) as [?|Hne]; [by injection H as <- <-|].
  rewrite (IH _ _ H); [|intros; apply Hx; lia || done].
  apply lookup_insert_ne. apply Hx; [lia|done].
Qed.

(** Every byte of an owned range is written, once. *)
Lemma uwrite_owned s root T U fl m va bs :
  us_inv s root T U fl → user_range (k_mem s) T U va (length bs) →
  ∃ m', uwrite (k_mem s) T m va bs = (true, m') ∧
    ∀ i b, bs !! i = Some b → m' !! ubyte (k_mem s) T (va + Z.of_nat i) = Some b.
Proof.
  intros Hu. revert m va. induction bs as [|b bs IH]; intros m va Hrg; cbn [uwrite length] in *.
  { by exists m. }
  apply user_range_cons in Hrg as [H1 Hrg].
  destruct (H1 va) as (Ha & [pa Hpa] & HPU); [lia|].
  pose proof (owned_uaddr _ _ _ _ _ _ _ Hu Hpa Ha HPU) as Hua.
  pose proof (page_ok_pos _ (us_page _ _ _ _ _ Hu _ _ Hpa)).
  destruct (Z.eqb_spec (uaddr (k_mem s) T va) 0) as [?|_]; [lia|].
  destruct (IH (<[ubyte (k_mem s) T va:=b]> m) (va + 1) Hrg) as (m' & Hw & Hin).
  exists m'. split; [done|]. intros [|i] b' Hb; cbn in Hb.
  - injection Hb as <-. rewrite Z.add_0_r, (uwrite_out _ _ _ _ _ _ _ _ Hw).
    + apply lookup_insert_eq.
    + intros a Ha' _ Heq. pose proof (user_range_one _ _ _ _ _ a Hrg Ha').
      assert (a = va); [|lia]. by eapply ubyte_inj.
  - replace (va + Z.of_nat (S i)) with (va + 1 + Z.of_nat i) by lia. by apply Hin.
Qed.

Lemma uread_written m0 m T va bs :
  same_tbl T m0 m → (∀ i b, bs !! i = Some b →
    uaddr m0 T (va + Z.of_nat i) ≠ 0 ∧ m !! ubyte m0 T (va + Z.of_nat i) = Some b) →
  uread m T va (length bs) = (true, bs).
Proof.
  intros Hst. revert va. induction bs as [|b bs IH]; intros va H; cbn [uread length]; [done|].
  destruct (H 0%nat b) as [H1 H2]; [done|]. rewrite Z.add_0_r in H1, H2.
  unfold ubyte. rewrite (uaddr_frame m0) by done.
  destruct (Z.eqb_spec (uaddr m0 T va) 0); [done|]. rewrite IH.
  - unfold ubyte in H2. unfold byte_at. by rewrite H2.
  - intros i b' Hb. specialize (H (S i) b' Hb).
    by replace (va + 1 + Z.of_nat i) with (va + Z.of_nat (S i)) by lia.
Qed.

Lemma mem_ok_uwrite m0 T m va bs ok m' :
  uwrite m0 T m va bs = (ok, m') → mem_ok m → bytes bs → mem_ok m'.
Proof.
  revert m va. induction bs as [|b bs IH]; intros m va H Hm Hb; cbn [uwrite] in H.
  { by injection H as <- <-. }
  apply Forall_cons in Hb as [Hb Hbs].
  destruct (uaddr m0 T va =? 0); [by injection H as <- <-|]. eapply IH; [done| |done].
  intros x y. rewrite lookup_insert. case_decide; [by intros [= <-]|]. apply Hm.
Qed.

(** Writes to owned pages keep the address space. *)
Lemma us_inv_user s root T U fl m' :
  us_inv s root T U fl → mem_ok m' →
  (∀ x, (∀ n pa, U !! n = Some pa → ¬ (pa ≤ x < pa + 4096)) → m' !! x = k_mem s !! x) →
  us_inv (set_mem m' s) root T U fl ∧ same_tbl T (k_mem s) m'.
Proof.
  intros Hu Hm Hx.
  assert (same_tbl T (k_mem s) m') as Hst.
  { intros c x Hc Hcx. apply Hx. intros n pa Hn Hpx.
    by eapply (owned_outside _ _ _ _ _ _ _ x Hu Hn). }
  split; [|done]. destruct Hu as [[[H1 H2 H3 H4 H5 H6] Hr Hfr] Hrg Hlf Hpg Hof Htb Hinj].
  split; [split; [split; simpl; try done| |done]|done| |done|done|done|done].
  - eapply fl_at_ext; [|done]. intros r i Hin Hi. unfold byte_at. f_equal. symmetry. apply Hx.
    intros n pa Hn Hpx. rewrite Forall_forall in H5.
    destruct (pages_disjoint r pa); [by apply H5|by eapply Hpg| |lia|lia].
    intros ->. by eapply Hof.
  - by eapply pt_rep_frame.
  - intros n pa Hn. cbn [k_mem set_mem]. rewrite (leaf_frame (k_mem s)) by done. by apply Hlf.
Qed.

Lemma user_range_uaddr s root T U fl va n a :
  us_inv s root T U fl → user_range (k_mem s) T U va n → va ≤ a < va + Z.of_nat n →
  ∃ pa, U !! (a / 4096) = Some pa ∧ uaddr (k_mem s) T a = pa ∧ page_ok pa.
Proof.
  intros Hu Hrg Ha. destruct (Hrg a Ha) as (H1 & [pa Hpa] & H3). exists pa.
  split; [done|]. split; [by eapply owned_uaddr|by eapply us_page].
Qed.

(** A [copyout] to owned pages succeeds and stores the bytes. *)
Lemma wp_copyout_owned pagetable dstva src s T U fl Q :
  us_inv s pagetable T U fl → bytes src → 0 ≤ dstva → user_range (k_mem s) T U dstva (length src) →
  (∀ s', us_inv s' pagetable T U fl → k_mach s' = k_mach s → same_tbl T (k_mem s) (k_mem s') →
     (∀ i b, src !! i = Some b →
        uaddr (k_mem s) T (dstva + Z.of_nat i) ≠ 0 ∧
        k_mem s' !! ubyte (k_mem s) T (dstva + Z.of_nat i) = Some b) →
     (∀ x, (∀ a, dstva ≤ a < dstva + Z.of_nat (length src) → ubyte (k_mem s) T a ≠ x) →
        k_mem s' !! x = k_mem s !! x) → Q 0 s') →
  wp (copyout pagetable dstva src) s Q.
Proof.
  intros Hu Hb Hva Hrg HQ.
  destruct (uwrite_owned _ _ _ _ _ (k_mem s) _ _ Hu Hrg) as (m' & Hw & Hin).
  assert (∀ x, (∀ a, dstva ≤ a < dstva + Z.of_nat (length src) → ubyte (k_mem s) T a ≠ x) →
    m' !! x = k_mem s !! x) as Hout.
  { intros x Hx. eapply uwrite_out; [done|]. intros a Ha _. by apply Hx. }
  destruct src as [|b0 src'] eqn:Esrc.
  { unfold copyout. cbn. apply HQ; try done. }
  rewrite <- Esrc in *. apply (wp_copyout _ _ _ _ T); [apply Hu|done| | |].
  - destruct (Hrg dstva) as ((_ & H) & _); [subst src; cbn [length]; lia|].
    change MAXVA with 274877906944 in H. lia.
  - intros a Ha _. destruct (user_range_uaddr _ _ _ _ _ _ _ a Hu Hrg Ha) as (pa & HU & -> & _).
    by eapply owned_target.
  - rewrite Hw. destruct (us_inv_user s pagetable T U fl m' Hu) as [Hu' Hst].
    + eapply mem_ok_uwrite; [done| |done]. apply (ki_mem _ _ (vi_kmem _ _ _ _ (us_vm _ _ _ _ _ Hu))).
    + intros x Hx. apply Hout. intros a Ha Heq.
      destruct (user_range_uaddr _ _ _ _ _ _ _ a Hu Hrg Ha) as (pa & HU & Hua & Hp).
      apply (Hx _ _ HU). subst x. unfold ubyte. rewrite Hua. pose proof (Z.mod_pos_bound a 4096). lia.
    + apply HQ; [exact Hu'|done|exact Hst| |exact Hout]. intros i b Hi. split; [|by apply Hin].
      destruct (user_range_uaddr _ _ _ _ _ _ _ (dstva + Z.of_nat i) Hu Hrg) as (pa & HU & -> & Hp).
      * apply lookup_lt_Some in Hi. lia.
      * apply page_ok_pos in Hp. lia.
Qed.

(** ** Theorems *)

(** [copyin] page by page is the byte-by-byte reference: it returns 0 and
    all the bytes if the user may access each of them, and otherwise -1 with
    the bytes before the first inaccessible one; it changes nothing. *)
Theorem copyin_reference pagetable srcva len s T :
  pt_rep (k_mem s) pagetable T → user_ram (k_mem s) T srcva len → 0 ≤ srcva < 2 ^ 64 →
  copyin pagetable srcva len s =
    (let '(ok, bs) := uread (k_mem s) T srcva (Z.to_nat len) in Ret (if ok then 0 else -1, bs) s).
Proof.
  intros Hr Hram Hva. destruct (uread (k_mem s) T srcva (Z.to_nat len)) as [ok bs] eqn:E.
  apply wp_eq. eapply wp_copyin; [done|done|done|]. by rewrite E.
Qed.

(** [copyinstr] is the byte-by-byte reference: it stores the bytes up to and
    including the first nul and returns 0, or returns -1 when there is no nul
    within [max] bytes or an inaccessible byte comes first. *)
Theorem copyinstr_reference pagetable srcva max s T :
  pt_rep (k_mem s) pagetable T → user_ram (k_mem s) T srcva max → 0 ≤ srcva < 2 ^ 64 →
  copyinstr pagetable srcva max s =
    (let '(ok, bs) := ureadstr (k_mem s) T srcva (Z.to_nat max) in Ret (if ok then 0 else -1, bs) s).
Proof.
  intros Hr Hram Hva. destruct (ureadstr (k_mem s) T srcva (Z.to_nat max)) as [ok bs] eqn:E.
  apply wp_eq. eapply wp_copyinstr_loop; [done|done|done|lia|]. by rewrite E.
Qed.

(** C32. [copyout] is the byte-by-byte reference: the bytes before the first
    inaccessible address are stored, and the result tells whether that was all
    of them, as long as the pages stored to are writable memory that is no part
    of the page table. *)
Theorem copyout_reference pagetable dstva src s T :
  pt_rep (k_mem s) pagetable T → bytes src → 0 ≤ dstva < 2 ^ 64 →
  (∀ va, dstva ≤ va < dstva + Z.of_nat (length src) → uaddr (k_mem s) T va ≠ 0 →
     target_ok T (uaddr (k_mem s) T va)) →
  copyout pagetable dstva src s =
    (let '(ok, m') := uwrite (k_mem s) T (k_mem s) dstva src in Ret (if ok then 0 else -1) (set_mem m' s)).
Proof.
  intros Hr Hb Hva Hok. destruct (uwrite (k_mem s) T (k_mem s) dstva src) as [ok m'] eqn:E.
  apply wp_eq. eapply wp_copyout; [done|done|done|done|]. by rewrite E.
Qed.

(** What [copyout] stored in pages the address space owns, [copyin] reads
    back; the address space and every byte outside the range are as before. *)
Theorem copyout_copyin_roundtrip pagetable va src s T U fl :
  us_inv s pagetable T U fl → bytes src → 0 ≤ va → user_range (k_mem s) T U va (length src) →
  wp (r1 ← copyout pagetable va src; r2 ← copyin pagetable va (Z.of_nat (length src)); ret (r1, r2)) s
    (fun r s' => r = (0, (0, src)) ∧ us_inv s' pagetable T U fl ∧ k_mach s' = k_mach s ∧
       ∀ x, (∀ a, va ≤ a < va + Z.of_nat (length src) → ubyte (k_mem s) T a ≠ x) →
         k_mem s' !! x = k_mem s !! x).
Proof.
  intros Hu Hb Hva Hrg. wp_simpl. eapply wp_copyout_owned; [done|done|done|done|].
  intros s' Hu' Hm' Hst Hin Hout. wp_simpl.
  destruct src as [|b0 src'] eqn:Esrc; [by unfold copyin; cbn|]. rewrite <- Esrc in *.
  apply (wp_copyin _ _ _ _ T); [apply Hu'| | |].
  - intros a Ha _. rewrite (uaddr_frame (k_mem s)) by done.
    destruct (user_range_uaddr _ _ _ _ _ _ _ a Hu Hrg Ha) as (pa & HU & -> & Hp).
    by apply page_ok_ram.
  - destruct (Hrg va) as ((_ & H) & _); [subst src; cbn [length]; lia|].
    change MAXVA with 274877906944 in H. lia.
  - rewrite Nat2Z.id, (uread_written (k_mem s)) by done. by wp_simpl.
Qed.

(** [copyout] checks the valid and user bits of an entry but not the write
    bit: a nonempty copy to an address that a user page table maps to the
    kernel's read-only text (as [SIGNALRET] is) makes the kernel itself fault. *)
Theorem copyout_readonly_faults pagetable va src s T :
  pt_rep (k_mem s) pagetable T → 0 ≤ va → src ≠ [] →
  uaddr (k_mem s) T va ≠ 0 → ubyte (k_mem s) T va < etext →
  copyout pagetable va src s = Fault (ubyte (k_mem s) T va).
Proof.
  intros Hr Hva Hne Hua Het. destruct src as [|b src]; [done|]. unfold copyout. cbn [length copyout_loop].
  set (src' := b :: src). pose proof (PGROUNDDOWN_eq va) as HP.
  assert (walkaddr pagetable (PGROUNDDOWN va) s = Ret (uaddr (k_mem s) T va) s) as Hw.
  { apply wp_eq. eapply wp_walkaddr; [done|zlia|]. by rewrite uaddr_PGROUNDDOWN. }
  rewrite (bind_ret _ _ _ _ _ Hw). destruct (Z.eqb_spec (uaddr (k_mem s) T va) 0) as [?|_]; [done|].
  rewrite HP. replace (va - (va - va mod 4096)) with (va mod 4096) by lia.
  pose proof (Z.mod_pos_bound va 4096). unfold PGSIZE.
  set (n := if _ <? _ then _ else _).
  assert (∃ k, Z.to_nat n = S k) as [k ->].
  { exists (Z.to_nat n - 1)%nat. unfold n. destruct (_ <? _); lia. }
  unfold src'. cbn [take copy_from_kernel]. unfold bind at 1 2, st8. fold (ubyte (k_mem s) T va).
  assert (writable (ubyte (k_mem s) T va) 1 = false) as -> by (unfold writable; lia). done.
Qed.

End copy.

(** ** Examples *)

#[local] Existing Instance small_image.

(** A table with two fresh user pages on the concrete machine. *)
Lemma wp_two_pages (k : Z → M kst Z) (Q : Z → kst → Prop) :
  (∀ pt s T U fl, us_inv s pt T U fl → user_range (k_mem s) T U 0 (Z.to_nat 8192) → wp (k pt) s Q) →
  wp (pt ← uvmcreate; sz ← uvmalloc pt 0 8192 PTE_W; if sz =? 8192 then k pt else ret (-2))
    (small_st 8) (fun r s' => r = -2 ∨ Q r s').
Proof.
  intros Hk. wp_simpl. eapply wp_uvmcreate; [exact small_st8_inv|done|].
  intros r fl s Hfl Hu Hl Hso Hm. wp_simpl. eapply wp_mono.
  - apply (wp_uvmalloc r 0 8192 PTE_W s _ _ _ Hu); [lia|by vm_compute|by vm_compute|].
    intros n _. unfold mapped. by rewrite Hl.
  - cbn beta. intros sz s' [[-> (T' & U' & fl' & Hu' & _ & _ & Hnew & _)]|[-> _]].
    + rewrite Z.eqb_refl. eapply wp_mono; [eapply Hk; [exact Hu'|]|by right].
      intros a Ha. change MAXVA with 274877906944. rewrite Z2Nat.id in Ha by lia.
      assert (npg 0 ≤ a / 4096 < npg 8192) as Hn.
      { change (npg 0) with 0. change (npg 8192) with 2. zlia. }
      destruct (Hnew _ Hn) as (pa & HU & Hlf & _). split; [lia|]. split; [by exists pa|].
      rewrite Hlf. change PTE_U with (2 ^ 4) at 2. rewrite leaf_pte_bit; [done| |done|lia].
      eapply page_ok_pa, us_page; done.
    + cbn. by left.
Qed.

Lemma user_range_sub m T U va n va' n' :
  user_range m T U va n → va ≤ va' → va' + Z.of_nat n' ≤ va + Z.of_nat n → user_range m T U va' n'.
Proof. intros H H1 H2 a Ha. apply H. lia. Qed.

Lemma uread_owned s root T U fl va n :
  us_inv s root T U fl → user_range (k_mem s) T U va n →
  ∃ bs, uread (k_mem s) T va n = (true, bs) ∧ length bs = n.
Proof.
  intros Hu. revert va. induction n as [|n IH]; intros va Hrg; cbn [uread]; [by exists []|].
  destruct (user_range_uaddr _ _ _ _ _ va (S n) va Hu Hrg) as (pa & _ & -> & Hp); [lia|].
  apply page_ok_pos in Hp. destruct (Z.eqb_spec pa 0); [lia|].
  apply user_range_cons in Hrg as [_ Hrg]. destruct (IH _ Hrg) as (bs & -> & Hl).
  exists (byte_at (k_mem s) (ubyte (k_mem s) T va) :: bs). cbn [length]. by rewrite Hl.
Qed.

Lemma copyin_reference_witness :
  wp (pt ← uvmcreate; sz ← uvmalloc pt 0 8192 PTE_W;
      if sz =? 8192 then ('(r, bs) ← copyin pt 4094 4; ret (r + Z.of_nat (length bs))) else ret (-2))
    (small_st 8) (fun r s' => r = -2 ∨ r = 4).
Proof.
  apply wp_two_pages. intros pt s T U fl Hu Hrg. wp_simpl.
  destruct (uread_owned s pt T U fl 4094 4 Hu) as (bs & E & Hl).
  { eapply user_range_sub; [exact Hrg|lia|lia]. }
  eapply wp_intro.
  - rewrite (copyin_reference pt 4094 4 s T); [|apply Hu| |lia].
    + change (Z.to_nat 4) with 4%nat. rewrite E. reflexivity.
    + intros a Ha _.
      destruct (user_range_uaddr _ _ _ _ _ 0 _ a Hu Hrg) as (pa & _ & -> & Hp); [lia|].
      by apply page_ok_ram.
  - cbn beta iota. wp_simpl. rewrite Hl. reflexivity.
Defined.

Lemma copyinstr_reference_witness :
  wp (pt ← uvmcreate; sz ← uvmalloc pt 0 8192 PTE_W;
      if sz =? 8192 then ('(r, bs) ← copyinstr pt 4094 4; ret r) else ret (-2))
    (small_st 8) (fun r s' => r = -2 ∨ r = 0 ∨ r = -1).
Proof.
  apply wp_two_pages. intros pt s T U fl Hu Hrg. wp_simpl.
  destruct (ureadstr (k_mem s) T 4094 (Z.to_nat 4)) as [ok bs] eqn:E. eapply wp_intro.
  - rewrite (copyinstr_reference pt 4094 4 s T); [|apply Hu| |lia].
    + rewrite E. reflexivity.
    + intros a Ha _.
      destruct (user_range_uaddr _ _ _ _ _ 0 _ a Hu Hrg) as (pa & _ & -> & Hp); [lia|].
      by apply page_ok_ram.
  - cbn beta iota. wp_simpl. destruct ok; [by left|by right].
Defined.

Lemma copyout_reference_witness :
  wp (pt ← uvmcreate; sz ← uvmalloc pt 0 8192 PTE_W;
      if sz =? 8192 then copyout pt 4094 [1; 2; 3; 4] else ret (-2))
    (small_st 8) (fun r s' => r = -2 ∨ r = 0).
Proof.
  apply wp_two_pages. intros pt s T U fl Hu Hrg.
  assert (user_range (k_mem s) T U 4094 4) as Hrg4 by (eapply user_range_sub; [exact Hrg|lia|lia]).
  destruct (uwrite_owned s pt T U fl (k_mem s) 4094 [1; 2; 3; 4] Hu Hrg4) as (m' & E & _).
  eapply wp_intro.
  - rewrite (copyout_reference pt 4094 [1; 2; 3; 4] s T); [|apply Hu| |lia|].
    + rewrite E. reflexivity.
    + repeat constructor; lia.
    + intros a Ha _. cbn [length] in Ha.
      destruct (user_range_uaddr _ _ _ _ _ _ _ a Hu Hrg4) as (pa & HU & -> & Hp); [lia|].
      by eapply owned_target.
  - reflexivity.
Defined.

Lemma copyout_copyin_roundtrip_witness :
  wp (pt ← uvmcreate; sz ← uvmalloc pt 0 8192 PTE_W;
      if sz =? 8192 then
        '(r1, (r2, bs)) ← (r1 ← copyout pt 4094 [1; 2; 3; 4]; r2 ← copyin pt 4094 4; ret (r1, r2));
        ret (if decide (bs = [1; 2; 3; 4]) then r1 + r2 else -1)
      else ret (-2))
    (small_st 8) (fun r s' => r = -2 ∨ r = 0).
Proof.
  apply wp_two_pages. intros pt s T U fl Hu Hrg. rewrite wp_bind. eapply wp_mono.
  - apply (copyout_copyin_roundtrip pt 4094 [1; 2; 3; 4] s T U fl Hu).
    + repeat constructor; lia.
    + lia.
    + eapply user_range_sub; [exact Hrg|lia|cbn [length]; lia].
  - cbn beta. intros r s' (-> & _). reflexivity.
Defined.

(** A table whose page 0 is the kernel page holding the trampoline. *)
Lemma copyout_readonly_faults_witness :
  wp (pt ← uvmcreate; r ← mappages pt 0 PGSIZE trampoline (Z.lor (Z.lor PTE_R PTE_X) PTE_U); ret (r, pt))
    (small_st 8) (fun r s' => fst r = 0 → ∃ a, copyout (snd r) 5 [1] s' = Fault a).
Proof.
  wp_simpl. eapply wp_uvmcreate; [exact small_st8_inv|done|].
  intros pt fl s Hfl Hu Hl Hso Hm. wp_simpl. eapply wp_mono.
  - apply (wp_mappages pt 0 PGSIZE trampoline _ s _ fl (us_vm _ _ _ _ _ Hu)); [lia|by vm_compute..| |by vm_compute|by vm_compute|].
    + by vm_compute.
    + intros n _. unfold mapped. by rewrite Hl.
  - cbn beta. intros r s' (T' & fl' & k & Hi & _ & Hlf & Hres). wp_simpl. cbn [fst snd]. intros ->.
    destruct Hres as [[_ ->]|[[=] _]].
    assert (uaddr (k_mem s') T' 5 = trampoline) as Hua.
    { unfold uaddr. change (5 / 4096) with 0. rewrite Hlf. by vm_compute. }
    eexists. apply (copyout_readonly_faults pt 5 [1] s' T' (vi_rep _ _ _ _ Hi)); [lia|done| |].
    + rewrite Hua. by vm_compute.
    + unfold ubyte. rewrite Hua. by vm_compute.
Defined.
