(* ===== verification/Proc.v ===== *)
(** * Processes: data and the operations on the process table (kernel/proc.c)

    The kernel state [kstate F] adds the process table and the globals of
    proc.c to memory and locks; [F] is the state of the file system, which this
    component never looks at.  Code that may give up the cpu runs on [world F]:
    [w_env] lists what the rest of the system does each time this thread of
    control is switched out, and [swtch] consumes one such action. *)

From Stdlib Require Import ZArith Lia.
From stdpp Require Import base gmap strings numbers list.
From S2P Require Import Prelude Spinlock Mem Kstring Kalloc Vm.
Local Open Scope xv6_scope.

(** ** Data (param.h, signal.h, proc.h) *)

Definition NPROC : nat := 64.
Definition NOFILE : nat := 16.
Definition ROOTDEV : Z := 1.

Record signal_t := Signal {
  sig_type : Z;               (* int *)
  sig_sender_pid : Z;         (* int *)
  sig_payload : Z             (* uint64 *)
}.

Definition SIGNAL_HANDLER_IGNORE : Z := u64 (-1).
Definition SIGNAL_HANDLER_TERMINATE : Z := u64 (-2).

(** The enumeration the X-macro expands to: catchable signals, their number,
    then the uncatchable ones. *)
Definition SIGNAL_ALARM : Z := 0.
Definition SIGNAL_MESSAGE : Z := 1.
Definition SIGNAL_CATCHABLE_COUNT : Z := 2.
Definition SIGNAL_KILL : Z := 3.
Definition SIGNAL_overshot_count : Z := 4.
Definition SIGNAL_COUNT : Z := SIGNAL_overshot_count - 1.

Definition MAX_SIGNALS : Z := 512.

Record signaling := Signaling {
  sg_queue : list signal_t;   (* MAX_SIGNALS entries *)
  sg_handlers : list Z;       (* SIGNAL_CATCHABLE_COUNT user addresses *)
  sg_stack : Z;
  sg_read : Z;
  sg_write : Z;
  sg_count : Z;
  sg_in_handler : Z
}.
#[global] Instance signaling_eta : Eta signaling := fun r =>
  Signaling (sg_queue r) (sg_handlers r) (sg_stack r) (sg_read r) (sg_write r) (sg_count r) (sg_in_handler r).

Inductive procstate := UNUSED | USED | SLEEPING | RUNNABLE | RUNNING | ZOMBIE.
#[global] Instance procstate_eq_dec : EqDecision procstate.
Proof. solve_decision. Defined.

(** Sleep channels: the addresses the kernel sleeps on. *)
Inductive chan :=
| C_null | C_proc (i : nat) | C_ticks | C_log | C_cons_r | C_uart_tx_r
| C_sleeplk (lk : lockid) | C_buf (i : nat) | C_disk_free
| C_nread (pa : Z) | C_nwrite (pa : Z).
#[global] Instance chan_eq_dec : EqDecision chan.
Proof. solve_decision. Defined.

(** [struct proc]; the lock of [proc[i]] is [L_proc i].  A process pointer is
    an index of the table, [None] the null pointer; open files and the current
    directory are indices of the file and inode tables. *)
Record proc := Proc {
  p_state : procstate;
  p_chan : chan;
  p_killed : Z;
  p_xstate : Z;
  p_pid : Z;
  p_signaling : signaling;
  p_alarm_set : Z;            (* uint8 *)
  p_cycles_at_alarm : Z;      (* uint64 *)
  p_parent : option nat;
  p_kstack : Z;
  p_sz : Z;
  p_pagetable : Z;
  p_trapframe : Z;
  p_context : context;
  p_ofile : list (option nat);
  p_cwd : option nat;
  p_name : list Z
}.
#[global] Instance proc_eta : Eta proc := fun r =>
  Proc (p_state r) (p_chan r) (p_killed r) (p_xstate r) (p_pid r) (p_signaling r) (p_alarm_set r)
    (p_cycles_at_alarm r) (p_parent r) (p_kstack r) (p_sz r) (p_pagetable r) (p_trapframe r)
    (p_context r) (p_ofile r) (p_cwd r) (p_name r).

(** Offsets of the trapframe fields the kernel touches, and its words. *)
Definition TF_epc : Z := 24.
Definition TF_ra : Z := 40.
Definition TF_sp : Z := 48.
Definition TF_gp : Z := 56.
Definition TF_a0 : Z := 112.
Definition TF_a1 : Z := 120.
Definition TF_WORDS : nat := 36.

(** ** State *)

Record kstate (F : Type) := KState {
  ks_k : kst;
  ks_proc : list proc;        (* proc[NPROC] *)
  ks_initproc : option nat;
  ks_nextpid : Z;
  ks_ticks : Z;               (* uint *)
  ks_stacks : list Z;         (* the page mapped at KSTACK(i) *)
  ks_first : Z;               (* [first] of forkret *)
  ks_fs : F
}.
Arguments KState {F} _ _ _ _ _ _ _ _.
Arguments ks_k {F} _.
Arguments ks_proc {F} _.
Arguments ks_initproc {F} _.
Arguments ks_nextpid {F} _.
Arguments ks_ticks {F} _.
Arguments ks_stacks {F} _.
Arguments ks_first {F} _.
Arguments ks_fs {F} _.
#[global] Instance kstate_eta F : Eta (kstate F) := fun r =>
  KState (ks_k r) (ks_proc r) (ks_initproc r) (ks_nextpid r) (ks_ticks r) (ks_stacks r) (ks_first r) (ks_fs r).

Record world (F : Type) := World {
  w_k : kstate F;
  w_env : list (kstate F → kstate F)
}.
Arguments World {F} _ _.
Arguments w_k {F} _.
Arguments w_env {F} _.

Section proc.
Context `{KI : KernelImage} {F : Type}.

(** Memory and lock operations inside the kernel state; kernel-state
    operations inside the world. *)
Definition onk {A} (m : M kst A) : M (kstate F) A := zoom ks_k (fun k s => s <| ks_k := k |>) m.
Definition lkm {A} (m : M mach A) : M (kstate F) A := onk (onm m).
Definition onw {A} (m : M (kstate F) A) : M (world F) A :=
  zoom w_k (fun k w => World k (w_env w)) m.

Definition getp (i : nat) : M (kstate F) proc :=
  s ← get; match ks_proc s !! i with Some p => ret p | None => fault (Z.of_nat i) end.
Definition updp (i : nat) (f : proc → proc) : M (kstate F) unit :=
  getp i;; modify (fun s => s <| ks_proc ::= alter f i |>).

(** Dereferencing a pointer. *)
Definition deref {S A} (p : option A) : M S A :=
  match p with Some a => ret a | None => fault 0 end.

(** ** The process table *)

Definition procinit : M (kstate F) unit :=
  lkm (initlock L_pid "nextpid");;
  lkm (initlock L_wait "wait_lock");;
  for_each (seq 0 NPROC) (fun i =>
    lkm (initlock (L_proc i) "proc");;
    updp i (fun p => p <| p_state := UNUSED |> <| p_kstack := KSTACK (Z.of_nat i) |>)).

Definition allocpid : M (kstate F) Z :=
  lkm (acquire L_pid);;
  pid ← gets ks_nextpid;
  modify (fun s => s <| ks_nextpid ::= fun n => i32 (n + 1) |>);;
  lkm (release L_pid);;
  ret pid.

Definition proc_pagetable (p : proc) : M kst Z :=
  pagetable ← uvmcreate;
  if pagetable =? 0 then ret 0 else
  r ← mappages pagetable TRAMPOLINE PGSIZE trampoline (Z.lor PTE_R PTE_X);
  if r <? 0 then
    uvmfree pagetable 0;; ret 0
  else
  r ← mappages pagetable TRAPFRAME PGSIZE (p_trapframe p) (Z.lor PTE_R PTE_W);
  if r <? 0 then
    uvmunmap pagetable TRAMPOLINE 1 false;;
    uvmfree pagetable 0;; ret 0
  else
  r ← mappages pagetable SIGNALRET PGSIZE signalret (Z.lor (Z.lor PTE_R PTE_X) PTE_U);
  if r <? 0 then
    uvmunmap pagetable TRAMPOLINE 1 false;;
    uvmunmap pagetable TRAPFRAME 1 false;;
    uvmfree pagetable 0;; ret 0
  else
  r ← mappages pagetable SIGNALSTACK PGSIZE (sg_stack (p_signaling p)) (Z.lor (Z.lor PTE_R PTE_W) PTE_U);
  if r <? 0 then
    uvmunmap pagetable TRAMPOLINE 1 false;;
    uvmunmap pagetable TRAPFRAME 1 false;;
    uvmunmap pagetable SIGNALRET 1 false;;
    uvmfree pagetable 0;; ret 0
  else ret pagetable.

Definition proc_freepagetable (pagetable sz : Z) : M kst unit :=
  uvmunmap pagetable TRAMPOLINE 1 false;;
  uvmunmap pagetable TRAPFRAME 1 false;;
  uvmunmap pagetable SIGNALRET 1 false;;
  uvmunmap pagetable SIGNALSTACK 1 false;;
  uvmfree pagetable sz.

Definition freeproc (i : nat) : M (kstate F) unit :=
  p ← getp i;
  when (truthy (p_trapframe p)) (onk (kfree (p_trapframe p)));;
  updp i (fun p => p <| p_trapframe := 0 |>);;
  p ← getp i;
  when (truthy (sg_stack (p_signaling p))) (onk (kfree (sg_stack (p_signaling p))));;
  updp i (fun p => p <| p_signaling ::= fun sg => sg <| sg_stack := 0 |> |>);;
  p ← getp i;
  when (truthy (p_pagetable p)) (onk (proc_freepagetable (p_pagetable p) (p_sz p)));;
  updp i (fun p => p <| p_pagetable := 0 |> <| p_sz := 0 |> <| p_pid := 0 |> <| p_parent := None |>
    <| p_name ::= <[0%nat := 0]> |> <| p_chan := C_null |> <| p_killed := 0 |> <| p_xstate := 0 |>
    <| p_state := UNUSED |>).

(** The search loop of [allocproc]: the slot found, its lock held. *)
Definition find_unused : M (kstate F) (option nat) :=
  for_until (seq 0 NPROC) (fun i =>
    lkm (acquire (L_proc i));;
    p ← getp i;
    if decide (p_state p = UNUSED) then ret (Some i)
    else lkm (release (L_proc i));; ret None).

Definition allocproc : M (kstate F) (option nat) :=
  found ← find_unused;
  match found with
  | None => ret None
  | Some i =>
    pid ← allocpid;
    updp i (fun p => p <| p_pid := pid |> <| p_state := USED |>);;
    tf ← onk kalloc;
    updp i (fun p => p <| p_trapframe := tf |>);;
    ok ← (if tf =? 0 then ret false
          else st ← onk kalloc;
               updp i (fun p => p <| p_signaling ::= fun sg => sg <| sg_stack := st |> |>);;
               ret (negb (st =? 0)));
    if negb ok then
      freeproc i;; lkm (release (L_proc i));; ret None
    else
    p ← getp i;
    pt ← onk (proc_pagetable p);
    updp i (fun p => p <| p_pagetable := pt |>);;
    if pt =? 0 then
      freeproc i;; lkm (release (L_proc i));; ret None
    else
    updp i (fun p => p
      <| p_context := Context_ forkret_addr (u64 (p_kstack p + PGSIZE)) 0 0 0 0 0 0 0 0 0 0 0 0 |>
      <| p_signaling ::= fun sg => sg
         <| sg_handlers := <[Z.to_nat SIGNAL_MESSAGE := SIGNAL_HANDLER_IGNORE]>
              (<[Z.to_nat SIGNAL_ALARM := SIGNAL_HANDLER_IGNORE]> (sg_handlers sg)) |> |>);;
    ret (Some i)
  end.

Definition growproc (n : Z) : M (kstate F) Z :=
  i ← lkm myproc; i ← deref i;
  p ← getp i;
  let sz := p_sz p in
  if 0 <? n then
    sz ← onk (uvmalloc (p_pagetable p) sz (u64 (sz + n)) PTE_W);
    if sz =? 0 then ret (-1)
    else updp i (fun p => p <| p_sz := sz |>);; ret 0
  else
    sz ← (if n <? 0 then onk (uvmdealloc (p_pagetable p) sz (u64 (sz + n))) else ret sz);
    updp i (fun p => p <| p_sz := sz |>);; ret 0.

(** ** Waking and killing *)

Definition wakeup (c : chan) : M (kstate F) unit :=
  for_each (seq 0 NPROC) (fun i =>
    me ← lkm myproc;
    if decide (me = Some i) then ret tt
    else
      lkm (acquire (L_proc i));;
      p ← getp i;
      when (bool_decide (p_state p = SLEEPING ∧ p_chan p = c))
        (updp i (fun p => p <| p_state := RUNNABLE |>));;
      lkm (release (L_proc i))).

Definition kill (pid : Z) : M (kstate F) Z :=
  r ← for_until (seq 0 NPROC) (fun i =>
    lkm (acquire (L_proc i));;
    p ← getp i;
    if p_pid p =? pid then
      updp i (fun p => p <| p_killed := 1 |>);;
      when (bool_decide (p_state p = SLEEPING)) (updp i (fun p => p <| p_state := RUNNABLE |>));;
      lkm (release (L_proc i));;
      ret (Some 0)
    else lkm (release (L_proc i));; ret None);
  ret (default (-1) r).

Definition setkilled (i : nat) : M (kstate F) unit :=
  lkm (acquire (L_proc i));;
  updp i (fun p => p <| p_killed := 1 |>);;
  lkm (release (L_proc i)).

Definition killed (i : nat) : M (kstate F) Z :=
  lkm (acquire (L_proc i));;
  p ← getp i;
  lkm (release (L_proc i));;
  ret (p_killed p).

(** Pass the children of process [i] to init. *)
Definition reparent (i : nat) : M (kstate F) unit :=
  for_each (seq 0 NPROC) (fun j =>
    pp ← getp j;
    when (bool_decide (p_parent pp = Some i))
      (init ← gets ks_initproc;
       updp j (fun pp => pp <| p_parent := init |>);;
       wakeup (match init with Some k => C_proc k | None => C_null end))).

(** The destination is a user address, or the address of a kernel object in
    memory. *)
Definition either_copyout (user_dst : bool) (dst : Z) (src : list Z) : M (kstate F) Z :=
  i ← lkm myproc; i ← deref i;
  p ← getp i;
  if user_dst then onk (copyout (p_pagetable p) dst src)
  else onk (copy_from_kernel dst src);; ret 0.

Definition either_copyin (user_src : bool) (src len : Z) : M (kstate F) (Z * list Z) :=
  i ← lkm myproc; i ← deref i;
  p ← getp i;
  if user_src then onk (copyin (p_pagetable p) src len)
  else bs ← onk (copy_to_kernel src (Z.to_nat len)); ret (0, bs).

(** ** Signals and alarms *)

Definition set_signal_handler (type handler : Z) : M (kstate F) Z :=
  if (type <? 0) || (SIGNAL_CATCHABLE_COUNT <=? type) then ret 1 else
  i ← lkm myproc; i ← deref i;
  updp i (fun p => p <| p_signaling ::= fun sg =>
    sg <| sg_handlers ::= <[Z.to_nat type := handler]> |> |>);;
  ret 0.

(** The search of [send_signal]: the loop has no [break]. *)
Definition find_pid (pid : Z) (ps : list proc) : option nat :=
  foldl (fun r i => match ps !! i with Some p => if p_pid p =? pid then Some i else r | None => r end)
    None (seq 0 NPROC).

(** [queue[write] = signal; write = (write + 1) % MAX_SIGNALS; count++] *)
Definition enqueue (sgn : signal_t) (sg : signaling) : signaling :=
  sg <| sg_queue ::= <[Z.to_nat (sg_write sg) := sgn]> |>
     <| sg_write ::= fun w => Z.rem (w + 1) MAX_SIGNALS |>
     <| sg_count ::= fun n => n + 1 |>.

(** [signal = queue[read]; read = (read+1) % MAX_SIGNALS; count--] *)
Definition dequeue (sg : signaling) : signaling :=
  sg <| sg_read ::= fun r => Z.rem (r + 1) MAX_SIGNALS |> <| sg_count ::= fun n => n - 1 |>.

(** Storing at an index outside the array is a wild store. *)
Definition in_queue (k : Z) (sg : signaling) : bool :=
  (0 <=? k) && (k <? Z.of_nat (length (sg_queue sg))).

Definition send_signal (sgn : signal_t) (receiver_pid : Z) : M (kstate F) Z :=
  ps ← gets ks_proc;
  match find_pid receiver_pid ps with
  | None => ret 2
  | Some i =>
    when (negb (sig_sender_pid sgn =? receiver_pid)) (lkm (acquire (L_proc i)));;
    p ← getp i;
    if sg_count (p_signaling p) + 1 <? MAX_SIGNALS then
      (if in_queue (sg_write (p_signaling p)) (p_signaling p)
       then updp i (fun p => p <| p_signaling ::= enqueue sgn |>)
       else fault (sg_write (p_signaling p)));;
      when (negb (sig_sender_pid sgn =? receiver_pid)) (lkm (release (L_proc i)));;
      ret 0
    else ret 1
  end.

Definition alarm (i : nat) (seconds : Z) : M (kstate F) Z :=
  let cycles_needed := u32 (seconds * 10) in
  local_ticks ← gets ks_ticks;
  lkm (acquire (L_proc i));;
  p ← getp i;
  remaining ← (if p_alarm_set p =? 1 then
      when (seconds =? 0) (updp i (fun p => p <| p_alarm_set := 0 |>));;
      updp i (fun p => p <| p_cycles_at_alarm := u64 (local_ticks + cycles_needed) |>);;
      ret (i32 (u64 (p_cycles_at_alarm p - local_ticks) / 10))
    else
      updp i (fun p => p <| p_alarm_set := 1 |>
        <| p_cycles_at_alarm := u64 (u32 (seconds * 10) + local_ticks) |>);;
      ret 0);
  lkm (release (L_proc i));;
  ret remaining.

(** ** Giving up the cpu *)

(** Switch to another context; the rest of the system runs until it switches
    back.  [Blocked]: it never does. *)
Definition swtch : M (world F) unit := fun w =>
  match w_env w with
  | [] => Blocked
  | e :: es => Ret tt (World (e (w_k w)) es)
  end.

Definition sched : M (world F) unit :=
  i ← onw (lkm myproc); i ← deref i;
  h ← onw (lkm (holding (L_proc i)));
  when (negb h) (panic "sched p->lock");;
  '(_, c) ← onw (lkm mycpu);
  when (negb (noff c =? 1)) (panic "sched locks");;
  p ← onw (getp i);
  when (bool_decide (p_state p = RUNNING)) (panic "sched running");;
  ie ← onw (lkm intr_get);
  when ie (panic "sched interruptible");;
  '(_, c) ← onw (lkm mycpu);
  swtch;;
  '(id, c') ← onw (lkm mycpu);
  onw (lkm (modify (set_cpu id (Cpu (c_proc c') (c_context c') (noff c') (intena c))))).

Definition yield : M (world F) unit :=
  i ← onw (lkm myproc); i ← deref i;
  onw (lkm (acquire (L_proc i)));;
  onw (updp i (fun p => p <| p_state := RUNNABLE |>));;
  sched;;
  onw (lkm (release (L_proc i))).

Definition sleep (c : chan) (lk : lockid) : M (world F) Z :=
  i ← onw (lkm myproc); i ← deref i;
  onw (lkm (acquire (L_proc i)));;
  onw (lkm (release lk));;
  onw (updp i (fun p => p <| p_chan := c |> <| p_state := SLEEPING |>));;
  sched;;
  p ← onw (getp i);
  onw (updp i (fun p => p <| p_chan := C_null |>));;
  onw (lkm (release (L_proc i)));;
  onw (lkm (acquire lk));;
  ret (sg_in_handler (p_signaling p)).

(** ** Waiting for a child *)

(** One scan of the table: [inl] is the result of [wait], [inr] whether there
    are children. *)
Fixpoint wait_scan (l : list nat) (me : nat) (addr : Z) (havekids : bool) : M (kstate F) (Z + bool) :=
  match l with
  | [] => ret (inr havekids)
  | j :: l =>
    pp ← getp j;
    if decide (p_parent pp = Some me) then
      lkm (acquire (L_proc j));;
      pp ← getp j;
      if decide (p_state pp = ZOMBIE) then
        let pid := p_pid pp in
        p ← getp me;
        r ← (if negb (addr =? 0)
             then onk (copyout (p_pagetable p) addr (le_bytes 4 (u32 (p_xstate pp)))) else ret 0);
        if r <? 0 then
          lkm (release (L_proc j));; lkm (release L_wait);; ret (inl (-1))
        else
          freeproc j;;
          lkm (release (L_proc j));; lkm (release L_wait);; ret (inl pid)
      else
        lkm (release (L_proc j));;
        wait_scan l me addr true
    else wait_scan l me addr havekids
  end.

Fixpoint wait_loop (fuel : nat) (me : nat) (addr : Z) : M (world F) Z :=
  match fuel with
  | O => out_of_fuel
  | S fuel =>
    r ← onw (wait_scan (seq 0 NPROC) me addr false);
    match r with
    | inl res => ret res
    | inr havekids =>
      stop ← (if havekids then k ← onw (killed me); ret (truthy k) else ret true);
      if stop : bool then onw (lkm (release L_wait));; ret (-1)
      else sleep (C_proc me) L_wait;; wait_loop fuel me addr
    end
  end.

(** Every further round sleeps, and so uses up one action of the
    environment. *)
Definition wait (addr : Z) : M (world F) Z :=
  me ← onw (lkm myproc); me ← deref me;
  onw (lkm (acquire L_wait));;
  w ← get;
  wait_loop (S (length (w_env w))) me addr.

End proc.
