(* ===== verification/ProcLife.v ===== *)
(** * Processes: creation, exit, signal delivery and scheduling (kernel/proc.c)

    The part of proc.c that calls the file system does so through the class
    [FileOps], the functions of file.c, fs.c and log.c that processes need. *)

From Stdlib Require Import ZArith Lia.
From stdpp Require Import base gmap strings numbers list.
From S2P Require Import Prelude Spinlock Mem Kstring Kalloc Vm Proc.
Local Open Scope xv6_scope.

(** ** The file system as processes use it *)

Class FileOps (F : Type) := {
  filedup : nat → M (world F) nat;
  fileclose : nat → M (world F) unit;
  idup : nat → M (world F) nat;
  iput : nat → M (world F) unit;
  begin_op : M (world F) unit;
  end_op : M (world F) unit;
  namei : list Z → M (world F) (option nat);
  fsinit : Z → M (world F) unit
}.

(** [initcode[]], the first user program. *)
Definition initcode : list Z := [
  23; 5; 0; 0; 19; 5; 69; 2;
  151; 5; 0; 0; 147; 133; 53; 2;
  147; 8; 112; 0; 115; 0; 0; 0;
  147; 8; 32; 0; 115; 0; 0; 0;
  239; 240; 159; 255; 47; 105; 110; 105;
  116; 0; 0; 36; 0; 0; 0; 0;
  0; 0; 0; 0].

(** A nul-terminated string literal. *)
Definition cstring (s : string) : list Z :=
  map (fun c => Z.of_nat (Ascii.nat_of_ascii c)) (String.list_ascii_of_string s) ++ [0].

Section life.
Context `{KI : KernelImage} {F : Type} `{FO : FileOps F}.

Fixpoint ld_words (a : Z) (n : nat) : M kst (list Z) :=
  match n with
  | O => ret []
  | S n => w ← ld64 a; ws ← ld_words (a + 8) n; ret (w :: ws)
  end.

Fixpoint st_words (a : Z) (ws : list Z) : M kst unit :=
  match ws with
  | [] => ret tt
  | w :: ws => st64 a w;; st_words (a + 8) ws
  end.

(** [struct trapframe tf = *p->trapframe] and [*p->trapframe = tf]. *)
Definition tf_load (a : Z) : M kst (list Z) := ld_words a TF_WORDS.
Definition tf_store (a : Z) (tf : list Z) : M kst unit := st_words a tf.

Definition set_name (i : nat) (t : list Z) : M (kstate F) unit :=
  p ← getp i;
  match safestrcpy (p_name p) t 16 with
  | Some nm => updp i (fun p => p <| p_name := nm |>)
  | None => fault 0
  end.

Definition userinit : M (world F) unit :=
  p ← onw allocproc;
  onw (modify (fun s => s <| ks_initproc := p |>));;
  i ← deref p;
  p ← onw (getp i);
  onw (onk (uvmfirst (p_pagetable p) initcode));;
  onw (updp i (fun p => p <| p_sz := PGSIZE |>));;
  onw (onk (st64 (p_trapframe p + TF_epc) 0));;
  onw (onk (st64 (p_trapframe p + TF_sp) PGSIZE));;
  onw (set_name i (cstring "initcode"));;
  cwd ← namei (cstring "/");
  onw (updp i (fun p => p <| p_cwd := cwd |> <| p_state := RUNNABLE |>));;
  onw (lkm (release (L_proc i))).

Definition fork : M (world F) Z :=
  i ← onw (lkm myproc); i ← deref i;
  np ← onw allocproc;
  match np with
  | None => ret (-1)
  | Some j =>
    p ← onw (getp i);
    q ← onw (getp j);
    r ← onw (onk (uvmcopy (p_pagetable p) (p_pagetable q) (p_sz p)));
    if r <? 0 then
      onw (freeproc j);; onw (lkm (release (L_proc j)));; ret (-1)
    else
    onw (updp j (fun q => q <| p_sz := p_sz p |>));;
    tf ← onw (onk (tf_load (p_trapframe p)));
    onw (onk (tf_store (p_trapframe q) tf));;
    onw (onk (st64 (p_trapframe q + TF_a0) 0));;
    for_each (seq 0 NOFILE) (fun fd =>
      p ← onw (getp i);
      match p_ofile p !! fd with
      | Some (Some f) =>
        f' ← filedup f;
        onw (updp j (fun q => q <| p_ofile ::= <[fd := Some f']> |>))
      | Some None => ret tt
      | None => fault (Z.of_nat fd)
      end);;
    p ← onw (getp i);
    cwd ← deref (p_cwd p);
    cwd ← idup cwd;
    onw (updp j (fun q => q <| p_cwd := Some cwd |>));;
    onw (set_name j (p_name p));;
    q ← onw (getp j);
    let pid := p_pid q in
    onw (lkm (release (L_proc j)));;
    onw (lkm (acquire L_wait));;
    onw (updp j (fun q => q <| p_parent := Some i |>));;
    onw (lkm (release L_wait));;
    onw (lkm (acquire (L_proc j)));;
    onw (updp j (fun q => q <| p_state := RUNNABLE |>));;
    onw (lkm (release (L_proc j)));;
    ret pid
  end.

(** ** Exit *)

(** The part [exit] and [exit_from_signal] share: close the files and drop the
    current directory. *)
Definition close_files (i : nat) : M (world F) unit :=
  for_each (seq 0 NOFILE) (fun fd =>
    p ← onw (getp i);
    match p_ofile p !! fd with
    | Some (Some f) =>
      fileclose f;;
      onw (updp i (fun p => p <| p_ofile ::= <[fd := None]> |>))
    | Some None => ret tt
    | None => fault (Z.of_nat fd)
    end).

Definition drop_cwd (i : nat) : M (world F) unit :=
  begin_op;;
  p ← onw (getp i);
  cwd ← deref (p_cwd p);
  iput cwd;;
  end_op;;
  onw (updp i (fun p => p <| p_cwd := None |>)).

Definition parent_chan (p : proc) : chan :=
  match p_parent p with Some k => C_proc k | None => C_null end.

Definition exit (status : Z) : M (world F) unit :=
  i ← onw (lkm myproc); i ← deref i;
  init ← onw (gets ks_initproc);
  when (bool_decide (Some i = init)) (panic "init exiting");;
  close_files i;;
  drop_cwd i;;
  onw (lkm (acquire L_wait));;
  onw (reparent i);;
  p ← onw (getp i);
  onw (wakeup (parent_chan p));;
  onw (lkm (acquire (L_proc i)));;
  onw (updp i (fun p => p <| p_xstate := status |> <| p_state := ZOMBIE |>));;
  onw (lkm (release L_wait));;
  sched;;
  panic "zombie exit".

Definition exit_from_signal (status : Z) (i : nat) : M (world F) unit :=
  init ← onw (gets ks_initproc);
  when (bool_decide (Some i = init)) (panic "init exiting");;
  close_files i;;
  drop_cwd i;;
  onw (lkm (acquire L_wait));;
  onw (reparent i);;
  p ← onw (getp i);
  onw (wakeup (parent_chan p));;
  onw (updp i (fun p => p <| p_xstate := status |> <| p_state := ZOMBIE |>));;
  onw (lkm (release L_wait)).

(** ** Signal delivery *)

(** The physical page behind a kernel stack address. *)
Definition kvirt (va : Z) : M (kstate F) Z :=
  s ← get;
  ret (match list_find (fun k => KSTACK (Z.of_nat k) = va) (seq 0 NPROC) with
       | Some (_, k) => default va (ks_stacks s !! k)
       | None => va
       end).

Definition signal_handler_ignore (sgn : signal_t) : Z := 0.
Definition signal_handler_terminate (sgn : signal_t) : Z := -1.
Definition signal_handler_KILL (sgn : signal_t) : Z := -1.

(** The trapframe that enters a user handler. *)
Definition handler_tf (handler gp : Z) (sgn : signal_t) : list Z :=
  <[3%nat := handler]> (<[5%nat := SIGNALRET]> (<[6%nat := SIGNALSTACK + PGSIZE]> (<[7%nat := gp]>
  (<[14%nat := Z.lor (u64 (Z.shiftl (u64 (sig_sender_pid sgn)) 32)) (u64 (sig_type sgn))]>
  (<[15%nat := sig_payload sgn]> (replicate TF_WORDS 0)))))).

(** A custom handler: enter user mode through the hijacked context. *)
Definition run_handler (kstack : Z) (i : nat) (tf : list Z) (ctx : context) (old_kstack : Z)
    (handler : Z) (sgn : signal_t) : M (world F) Z :=
  src ← onw (kvirt old_kstack);
  onw (onk (memmove kstack src PGSIZE));;
  onw (updp i (fun p => p <| p_context ::= fun c =>
    Context_ (ctx_ra c) (u64 (kstack + (ctx_sp c - old_kstack))) (ctx_s0 c) (ctx_s1 c) (ctx_s2 c)
      (ctx_s3 c) (ctx_s4 c) (ctx_s5 c) (ctx_s6 c) (ctx_s7 c) (ctx_s8 c) (ctx_s9 c) (ctx_s10 c)
      (ctx_s11 c) |>));;
  p ← onw (getp i);
  onw (onk (memset (sg_stack (p_signaling p)) 0 PGSIZE));;
  onw (onk (tf_store (p_trapframe p) (handler_tf handler (nth 7 tf 0) sgn)));;
  swtch;;
  p ← onw (getp i);
  result ← (if decide (p_state p = RUNNABLE) then
      onw (updp i (fun p => p <| p_state := RUNNING |>));;
      a0 ← onw (onk (ld64 (p_trapframe p + TF_a0)));
      ret (i32 a0)
    else if decide (p_state p = SLEEPING) then ret (-1)
    else ret 0);
  onw (updp i (fun p => p <| p_context := ctx |>));;
  ret result.

(** What one signal leads to: the handler's result. *)
Definition dispatch (kstack : Z) (i : nat) (tf : list Z) (ctx : context) (old_kstack : Z)
    (sgn : signal_t) : M (world F) Z :=
  if sig_type sgn <? SIGNAL_CATCHABLE_COUNT then
    p ← onw (getp i);
    match (if sig_type sgn <? 0 then None
           else sg_handlers (p_signaling p) !! Z.to_nat (sig_type sgn)) with
    | None => fault (sig_type sgn)
    | Some h =>
      if h =? SIGNAL_HANDLER_IGNORE then ret (signal_handler_ignore sgn)
      else if h =? SIGNAL_HANDLER_TERMINATE then ret (signal_handler_terminate sgn)
      else run_handler kstack i tf ctx old_kstack h sgn
    end
  else if sig_type sgn =? SIGNAL_KILL then ret (signal_handler_KILL sgn)
  else ret 0.

Fixpoint signal_loop (fuel : nat) (kstack : Z) (i : nat) (tf : list Z) (ctx : context)
    (old_kstack : Z) : M (world F) bool :=
  match fuel with
  | O => out_of_fuel
  | S fuel =>
    p ← onw (getp i);
    let sg := p_signaling p in
    if negb (0 <? sg_count sg) then ret false else
    match (if sg_read sg <? 0 then None else sg_queue sg !! Z.to_nat (sg_read sg)) with
    | None => fault (sg_read sg)
    | Some sgn =>
      onw (updp i (fun p => p <| p_signaling ::= dequeue |>));;
      result ← dispatch kstack i tf ctx old_kstack sgn;
      when (truthy result) (exit_from_signal result i);;
      p ← onw (getp i);
      if truthy (p_killed p) || bool_decide (p_state p = ZOMBIE) then ret true
      else signal_loop fuel kstack i tf ctx old_kstack
    end
  end.

(** Between two actions of the environment the loop takes at most
    [MAX_SIGNALS - 1] rounds, one per queued signal. *)
Definition handle_signals (kstack : Z) (i : nat) : M (world F) bool :=
  onw (updp i (fun p => p <| p_signaling ::= fun sg => sg <| sg_in_handler := 1 |> |>));;
  p ← onw (getp i);
  killed ← (if truthy (sg_count (p_signaling p)) then
      tf ← onw (onk (tf_load (p_trapframe p)));
      let ctx := p_context p in
      let old_kstack := p_kstack p in
      onw (updp i (fun p => p <| p_kstack := kstack |>));;
      w ← get;
      killed ← signal_loop (Z.to_nat MAX_SIGNALS * S (length (w_env w))) kstack i tf ctx old_kstack;
      p ← onw (getp i);
      onw (onk (tf_store (p_trapframe p) tf));;
      onw (updp i (fun p => p <| p_kstack := old_kstack |>));;
      ret killed
    else ret false);
  onw (updp i (fun p => p <| p_signaling ::= fun sg => sg <| sg_in_handler := 0 |> |>));;
  ret killed.

(** ** The scheduler *)

Definition set_cproc (id : nat) (p : option nat) : M (kstate F) unit :=
  lkm (modify (fun m => match cpus m !! id with
    | Some c => set_cpu id (Cpu p (c_context c) (noff c) (intena c)) m
    | None => m
    end)).

(** The body of the inner loop for slot [i]: whether a process ran. *)
Definition sched_slot (id : nat) (kstack : Z) (i : nat) : M (world F) bool :=
  onw (lkm (acquire (L_proc i)));;
  p ← onw (getp i);
  ran ← (if decide (p_state p = RUNNABLE) then
      onw (updp i (fun p => p <| p_state := RUNNING |>));;
      onw (set_cproc id (Some i));;
      local_ticks ← onw (gets ks_ticks);
      when (truthy (p_alarm_set p) && (local_ticks <=? p_cycles_at_alarm p))
        (onw (updp i (fun p => p <| p_alarm_set := 0 |>));;
         onw (send_signal (Signal SIGNAL_ALARM (p_pid p) 0) (p_pid p));; ret tt);;
      dead ← handle_signals kstack i;
      when (negb dead) swtch;;
      onw (set_cproc id None);;
      ret true
    else ret false);
  onw (lkm (release (L_proc i)));;
  ret ran.

Fixpoint sched_pass (id : nat) (kstack : Z) (l : list nat) : M (world F) Z :=
  match l with
  | [] => ret 0
  | i :: l => ran ← sched_slot id kstack i; n ← sched_pass id kstack l; ret (if ran : bool then n + 1 else n)
  end.

(** [rounds] rounds of the endless loop; with nothing to run the hart waits
    for an interrupt, which changes no state by itself. *)
Fixpoint sched_rounds (rounds : nat) (id : nat) (kstack : Z) : M (world F) unit :=
  match rounds with
  | O => ret tt
  | S n => onw (lkm intr_on);; sched_pass id kstack (seq 0 NPROC);; sched_rounds n id kstack
  end.

Definition scheduler (rounds : nat) : M (world F) unit :=
  '(id, _) ← onw (lkm mycpu);
  kstack ← onw (onk kalloc);
  when (kstack =? 0) (panic "scheduler kstack");;
  onw (set_cproc id None);;
  sched_rounds rounds id kstack.

End life.
