(* ===== verification/Kvm.v ===== *)
(** * The kernel page table

    [vm.c]: [kvmmake], and [proc.c]: [proc_mapstacks], with the theorem that the
    table they build is the direct map of the devices and of memory, the
    trampoline and one stack per process, and nothing else.  Pages are numbered
    by their virtual address divided by 4096. *)

From Stdlib Require Import ZArith Lia.
From stdpp Require Import base gmap strings numbers list fin_maps.
From S2P Require Import Prelude Spinlock Mem Kstring Kalloc Vm PageTable VmFacts Uvm UvmAlloc Proc.
Local Open Scope xv6_scope.

(** ** Operations *)

Definition UART0 : Z := 268435456.         (* 0x10000000L *)
Definition VIRTIO0 : Z := 268439552.       (* 0x10001000 *)
Definition PLIC : Z := 201326592.          (* 0x0c000000L *)

Section kvm.
Context `{KI : KernelImage} {F : Type}.

(** The pages behind the stacks are kept beside the table, for the code that
    writes to a stack through its virtual address. *)
Fixpoint proc_mapstacks_loop (n i : nat) (kpgtbl : Z) : M (kstate F) unit :=
  match n with
  | O => ret tt
  | S n =>
    pa ← onk kalloc;
    when (pa =? 0) (panic "kalloc");;
    let va := KSTACK (Z.of_nat i) in
    onk (kvmmap kpgtbl va pa PGSIZE (Z.lor PTE_R PTE_W));;
    modify (fun s => s <| ks_stacks ::= fun l => take i l ++ [pa] |>);;
    proc_mapstacks_loop n (S i) kpgtbl
  end.

Definition proc_mapstacks (kpgtbl : Z) : M (kstate F) unit := proc_mapstacks_loop NPROC 0 kpgtbl.

Definition kvmmake : M (kstate F) Z :=
  kpgtbl ← onk kalloc;
  onk (memset kpgtbl 0 PGSIZE);;
  onk (kvmmap kpgtbl UART0 UART0 PGSIZE (Z.lor PTE_R PTE_W));;
  onk (kvmmap kpgtbl VIRTIO0 VIRTIO0 PGSIZE (Z.lor PTE_R PTE_W));;
  onk (kvmmap kpgtbl PLIC PLIC 4194304 (Z.lor PTE_R PTE_W));;
  onk (kvmmap kpgtbl KERNBASE KERNBASE (etext - KERNBASE) (Z.lor PTE_R PTE_X));;
  onk (kvmmap kpgtbl etext etext (PHYSTOP - etext) (Z.lor PTE_R PTE_W));;
  onk (kvmmap kpgtbl TRAMPOLINE trampoline PGSIZE (Z.lor PTE_R PTE_X));;
  proc_mapstacks kpgtbl;;
  ret kpgtbl.

(** ** The table that is meant *)

Definition RW : Z := Z.lor PTE_R PTE_W.
Definition RX : Z := Z.lor PTE_R PTE_X.

(** The process whose stack is virtual page [n]. *)
Definition stack_index (n : Z) : option nat :=
  let d := TRAMPOLINE / 4096 - n in
  if (d mod 2 =? 0) && (2 <=? d) && (d <=? 2 * Z.of_nat NPROC) then Some (Z.to_nat (d / 2 - 1)) else None.

Definition kernel_pte (stacks : list Z) (n : Z) : Z :=
  if n =? UART0 / 4096 then leaf_pte UART0 RW
  else if n =? VIRTIO0 / 4096 then leaf_pte VIRTIO0 RW
  else if (PLIC / 4096 <=? n) && (n <? PLIC / 4096 + 1024) then leaf_pte (n * 4096) RW
  else if (KERNBASE / 4096 <=? n) && (n <? etext / 4096) then leaf_pte (n * 4096) RX
  else if (etext / 4096 <=? n) && (n <? PHYSTOP / 4096) then leaf_pte (n * 4096) RW
  else if n =? TRAMPOLINE / 4096 then leaf_pte trampoline RX
  else match stack_index n ≫= (stacks !!.) with Some pa => leaf_pte pa RW | None => 0 end.

(** ** The tables it takes *)

(** Every table of the kernel's three-level tree. *)
Definition kernel_keys : list (nat * Z) :=
  [(2%nat, 0); (1%nat, 0); (1%nat, 2); (1%nat, 255)] ++
  ((fun p => (0%nat, p)) <$> [96; 97; 128; 131071] ++ seqZ 1024 64).

Definition keys_ok (T : tbl) : Prop := ∀ k, is_Some (T !! k) → k ∈ kernel_keys.

(** The pages whose tables these are. *)
Definition kernel_page (n : Z) : Prop := n / 512 ∈ [96; 97; 128; 131071] ∨ 1024 ≤ n / 512 < 1088.

Lemma keys_ok_size T : keys_ok T → (size T ≤ 72)%nat.
Proof.
  intros HT. rewrite <- (size_dom (D := gset (nat * Z)) T). change 72%nat with (length kernel_keys).
  transitivity (size (list_to_set kernel_keys : gset (nat * Z))).
  - apply subseteq_size. intros k Hk%elem_of_dom. by apply elem_of_list_to_set, HT.
  - rewrite size_list_to_set; [done|]. apply (bool_decide_unpack _). vm_compute. exact I.
Qed.

Lemma keys_ok_path lo hi T T' :
  keys_ok T → on_path lo hi T T' → (∀ n, lo ≤ n ≤ hi → kernel_page n) → keys_ok T'.
Proof.
  intros HT Hp Hk [l p] H. destruct (T !! (l, p)) as [c|] eqn:E; [apply HT; by eexists|].
  destruct (Hp l p H E) as (Hl & n & Hn & ->). specialize (Hk n Hn). unfold kernel_page in Hk.
  assert (key 0 (n * 4096) = n / 512) as E0 by (rewrite key_0; by rewrite Z.div_mul).
  assert (key 1 (n * 4096) = n / 512 / 512) as E1 by (unfold key; cbn; zlia).
  destruct l as [|[|l]]; [rewrite E0|rewrite E1|lia]; unfold kernel_keys.
  - apply elem_of_app. right. apply list_elem_of_fmap_2, elem_of_app. rewrite elem_of_seqZ. exact Hk.
  - assert (n / 512 / 512 = 0 ∨ n / 512 / 512 = 2 ∨ n / 512 / 512 = 255) as [-> |[-> | ->]]; [|set_solver..].
    rewrite !elem_of_cons in Hk. destruct Hk as [[->|[->|[->|[->|?%elem_of_nil]]]]|?]; try done; zlia.
Qed.

(** ** One mapping *)

Definition kvm_inv (s : kst) (root : Z) (T : tbl) (fl : list Z) : Prop := vm_inv s root T fl ∧ keys_ok T.

(** With memory for all tables, [kvmmap] maps its range and nothing else. *)
Lemma wp_kvmmap s root T fl va pa sz perm Q :
  kvm_inv s root T fl → (73 ≤ size T + length fl)%nat →
  va mod 4096 = 0 → 0 ≤ va → 0 < sz → sz mod 4096 = 0 → va + sz ≤ MAXVA → pa mod 4096 = 0 → 0 ≤ pa → pa + sz + 8192 ≤ 2 ^ 56 → perm_ok perm →
  (∀ n, va / 4096 ≤ n < va / 4096 + sz / 4096 → leaf (k_mem s) T n = 0 ∧ kernel_page n) →
  (∀ s' T' fl', kvm_inv s' root T' fl' → grown s T fl s' T' fl' →
     (∀ n, leaf (k_mem s') T' n = if decide (va / 4096 ≤ n < va / 4096 + sz / 4096)
        then leaf_pte (pa + (n - va / 4096) * 4096) perm else leaf (k_mem s) T n) → Q tt s') →
  wp (kvmmap root va pa sz perm) s Q.
Proof.
  intros [Hv Hk] Hsz Hva Hva0 Hs0 Hs Hmax Hpa Hpa0 Hpau Hperm Hn HQ.
  assert ((va + sz - 1) / 4096 = va / 4096 + sz / 4096 - 1) as Elast by zlia.
  unfold kvmmap. wp_simpl. eapply wp_mono.
  - apply (wp_mappages_path root va sz pa perm s T fl); try done. intros n Hr. unfold mapped.
    destruct (Hn n) as [-> _]; [lia|done].
  - intros r s' (T' & fl' & k & Hv' & Hg & Ho & Hl & Hr).
    assert (keys_ok T') as Hk' by (eapply keys_ok_path; [done|done|]; intros n ?; apply Hn; lia).
    destruct Hr as [[-> ->]|(-> & _ & ->)].
    + change (negb (0 =? 0)) with false. wp_simpl. apply (HQ s' T' fl'); [done|done|]. intros n. rewrite Hl.
      by replace ((va + sz - 1) / 4096 - va / 4096 + 1) with (sz / 4096) by lia.
    + pose proof (gr_size _ _ _ _ _ _ Hg) as Hz. pose proof (keys_ok_size T' Hk'). cbn in Hz. lia.
Qed.

(** ** The sequence of mappings *)

(** The tree in [s] holds the entries [f]; [b] pages are left over once all its
    tables are there; the pages of [stk] are set aside. *)
Record kvm_at (s : kst) (root : Z) (f : Z → Z) (b : nat) (stk : list Z) (T : tbl) (fl : list Z) : Prop := {
  ka_inv : kvm_inv s root T fl;
  ka_leaf : ∀ n, leaf (k_mem s) T n = f n;
  ka_budget : (73 + b ≤ size T + length fl)%nat;
  ka_stk : Forall (fun r => page_ok r ∧ ¬ in_tbl T r ∧ r ∉ fl) stk;
  ka_nodup : NoDup stk
}.

Definition map_range (va pa sz perm : Z) (f : Z → Z) (n : Z) : Z :=
  if decide (va / 4096 ≤ n < va / 4096 + sz / 4096) then leaf_pte (pa + (n - va / 4096) * 4096) perm else f n.

Lemma stk_grown s T fl s' T' fl' stk : grown s T fl s' T' fl' →
  Forall (fun r => page_ok r ∧ ¬ in_tbl T r ∧ r ∉ fl) stk → Forall (fun r => page_ok r ∧ ¬ in_tbl T' r ∧ r ∉ fl') stk.
Proof.
  intros Hg. destruct (gr_fl _ _ _ _ _ _ Hg) as (news & -> & Hin). rewrite !Forall_forall. intros H r Hr.
  destruct (H r Hr) as (H1 & H2 & H3).
  rewrite elem_of_app in H3. rewrite Hin. tauto.
Qed.

Lemma wp_kvmmap_at s root f b stk T fl va pa sz perm Q :
  kvm_at s root f b stk T fl →
  va mod 4096 = 0 → 0 ≤ va → 0 < sz → sz mod 4096 = 0 → va + sz ≤ MAXVA → pa mod 4096 = 0 → 0 ≤ pa → pa + sz + 8192 ≤ 2 ^ 56 → perm_ok perm →
  (∀ n, va / 4096 ≤ n < va / 4096 + sz / 4096 → f n = 0 ∧ kernel_page n) →
  (∀ s' T' fl', kvm_at s' root (map_range va pa sz perm f) b stk T' fl' → k_mach s' ≡ k_mach s → Q tt s') →
  wp (kvmmap root va pa sz perm) s Q.
Proof.
  intros [Hi Hl Hb Hs Hd] Hva Hva0 Hs0 Hsz Hmax Hpa Hpa0 Hpau Hperm Hn HQ.
  apply (wp_kvmmap s root T fl); try done; [lia|intros n ?; rewrite Hl; by apply Hn|].
  intros s' T' fl' Hi' Hg Hl'. apply (HQ s' T' fl'); [|apply Hg]. split; [done| | |by eapply stk_grown|done].
  - intros n. unfold map_range. by rewrite Hl', Hl.
  - rewrite (gr_size _ _ _ _ _ _ Hg). done.
Qed.

Lemma vm_us s root T fl : vm_inv s root T fl → us_inv s root T ∅ fl.
Proof. intros H. split; [done|intros *; by rewrite lookup_empty..]. Qed.

(** A page for a stack. *)
Lemma wp_kalloc_at s root f b stk T fl Q :
  kvm_at s root f (S b) stk T fl →
  (∀ r s' fl', kvm_at s' root f b (stk ++ [r]) T fl' → page_ok r → k_mach s' ≡ k_mach s → Q r s') → wp kalloc s Q.
Proof.
  intros [[Hv Hk] Hl Hb Hs Hd] HQ. eapply wp_kalloc_us; [by apply vm_us| |].
  - intros s' -> _ _ _. pose proof (keys_ok_size T Hk). cbn in Hb. lia.
  - intros r fl' s' -> Hu Hr Hacc _ Hl' _ Hm. rewrite Forall_forall in Hs. apply (HQ r s' fl'); [|done|done].
    split.
    + split; [apply Hu|done].
    + intros n. by rewrite Hl'.
    + cbn in Hb. lia.
    + apply Forall_app. split; [|apply Forall_singleton; split; [done|unfold accounted in Hacc; tauto]].
      apply Forall_forall. intros q Hq. destruct (Hs q Hq) as (H1 & H2 & H3). rewrite elem_of_cons in H3. tauto.
    + apply NoDup_app. split; [done|]. split; [|apply NoDup_singleton].
      intros q Hq ->%list_elem_of_singleton. destruct (Hs r Hq) as (_ & _ & H). apply H. by left.
Qed.

(** ** The stacks *)

Lemma KSTACK_page i : (i < NPROC)%nat → KSTACK (Z.of_nat i) / 4096 = TRAMPOLINE / 4096 - 2 * (Z.of_nat i + 1).
Proof. intros H. unfold KSTACK, PGSIZE. change TRAMPOLINE with 274877902848. zlia. Qed.

Lemma stack_index_spec n i : stack_index n = Some i ↔ (i < NPROC)%nat ∧ n = KSTACK (Z.of_nat i) / 4096.
Proof.
  unfold stack_index. change (TRAMPOLINE / 4096) with 67108863. cbn zeta.
  split.
  - intros H. case_match eqn:E; simplify_eq. change (Z.of_nat NPROC) with 64 in E.
    rewrite !andb_true_iff, Z.eqb_eq, !Z.leb_le in E. change NPROC with 64%nat.
    match goal with |- (?k < _)%nat ∧ _ => assert (k < 64)%nat as Hi by zlia end.
    split; [done|]. rewrite KSTACK_page by done. change (TRAMPOLINE / 4096) with 67108863. zlia.
  - intros [Hi ->]. rewrite KSTACK_page by done. change (TRAMPOLINE / 4096) with 67108863. change NPROC with 64%nat in *.
    replace (67108863 - (67108863 - 2 * (Z.of_nat i + 1))) with (2 * (Z.of_nat i + 1)) by lia.
    replace ((2 * (Z.of_nat i + 1)) mod 2) with 0 by zlia. change (0 =? 0) with true. cbn [andb].
    destruct (Z.leb_spec 2 (2 * (Z.of_nat i + 1))); [|lia].
    destruct (Z.leb_spec (2 * (Z.of_nat i + 1)) (2 * Z.of_nat 64)); [|lia]. cbn [andb]. f_equal. zlia.
Qed.

(** The layout, in page numbers. *)
Ltac page_numbers :=
  change (UART0 / 4096) with 65536 in *; change (VIRTIO0 / 4096) with 65537 in *; change (PLIC / 4096) with 49152 in *;
  change (KERNBASE / 4096) with 524288 in *; change (PHYSTOP / 4096) with 557056 in *;
  change (TRAMPOLINE / 4096) with 67108863 in *.

Lemma text_pages : 524288 < etext / 4096 ≤ 557056 ∧ etext / 4096 * 4096 = etext.
Proof.
  destruct etext_range as [H1 H2]. pose proof kend_range as H3. unfold PGSIZE in H2. change PHYSTOP with 2281701376 in H3.
  change KERNBASE with 2147483648 in H1. zlia.
Qed.

Lemma kernel_pte_stack stk n i : stack_index n = Some i → kernel_pte stk n = default 0 ((fun pa => leaf_pte pa RW) <$> stk !! i).
Proof.
  intros Hi. pose proof Hi as [Hlt Hn]%stack_index_spec. rewrite KSTACK_page in Hn by done. pose proof text_pages as Ht.
  unfold kernel_pte. rewrite Hi. change NPROC with 64%nat in Hlt. page_numbers.
  destruct (Z.eqb_spec n 65536); [lia|]. destruct (Z.eqb_spec n 65537); [lia|].
  destruct (Z.leb_spec 49152 n), (Z.ltb_spec n (49152 + 1024)); try lia; cbn [andb].
  destruct (Z.leb_spec 524288 n), (Z.ltb_spec n (etext / 4096)); try lia; cbn [andb].
  destruct (Z.leb_spec (etext / 4096) n), (Z.ltb_spec n 557056); try lia; cbn [andb].
  destruct (Z.eqb_spec n 67108863); [lia|]. cbn. by destruct (stk !! i).
Qed.

Lemma kernel_pte_other stk stk' n : stack_index n = None → kernel_pte stk n = kernel_pte stk' n.
Proof. intros Hi. unfold kernel_pte. by rewrite Hi. Qed.

Lemma kernel_pte_snoc stk pa n : (length stk < NPROC)%nat →
  map_range (KSTACK (Z.of_nat (length stk))) pa PGSIZE RW (kernel_pte stk) n = kernel_pte (stk ++ [pa]) n.
Proof.
  intros Hl. unfold map_range. change (PGSIZE / 4096) with 1. destruct (decide _) as [Hn|Hn].
  - assert (n = KSTACK (Z.of_nat (length stk)) / 4096) as -> by lia.
    rewrite (kernel_pte_stack _ _ (length stk)) by (by apply stack_index_spec).
    rewrite lookup_app_r, Nat.sub_diag by lia. cbn. f_equal. lia.
  - destruct (stack_index n) as [i|] eqn:E; [|by apply kernel_pte_other].
    rewrite !(kernel_pte_stack _ _ i) by done. f_equal. f_equal.
    apply stack_index_spec in E as [Hi ->]. destruct (decide (i = length stk)) as [->|]; [lia|].
    destruct (decide (i < length stk)%nat); [by rewrite lookup_app_l|].
    rewrite !lookup_ge_None_2; [done|rewrite length_app; cbn; lia|lia].
Qed.

Lemma perm_ok_rw : perm_ok RW ∧ perm_ok RX.
Proof. split; split; vm_compute; congruence. Qed.

Lemma page_pa r : page_ok r → r mod 4096 = 0 ∧ 0 ≤ r ∧ r + 4096 + 8192 ≤ 2 ^ 56.
Proof. intros [H1 [H2 H3]]. pose proof kend_range. unfold PHYSTOP, KERNBASE in *. lia. Qed.

Lemma wp_proc_mapstacks_loop n i s root stk T fl Q :
  i = length stk → (i + n)%nat = NPROC → take i (ks_stacks s) = stk → (n = 0%nat → ks_stacks s = stk) →
  kvm_at (ks_k s) root (kernel_pte stk) n stk T fl →
  (∀ k stk' T' fl', length stk' = NPROC → kvm_at k root (kernel_pte stk') 0 stk' T' fl' → k_mach k ≡ k_mach (ks_k s) →
     Q tt (s <| ks_k := k |> <| ks_stacks := stk' |>)) →
  wp (proc_mapstacks_loop n i root) s Q.
Proof.
  revert i s stk T fl. induction n as [|n IH]; intros i s stk T fl Hi Hn Hs Hz Hat HQ; cbn [proc_mapstacks_loop]; unfold onk; wp_simpl.
  { specialize (HQ (ks_k s) stk T fl ltac:(lia) Hat). specialize (Hz eq_refl). destruct s. cbn in *. subst. by apply HQ. }
  eapply wp_kalloc_at; [exact Hat|]. intros r k1 fl1 Hat1 Hr Hm1. destruct (page_pa r Hr) as (H1 & H2 & H3).
  destruct (Z.eqb_spec r 0); [pose proof (page_ok_pos r Hr); lia|]. wp_simpl.
  assert (KSTACK (Z.of_nat i) = 274877902848 - 8192 * (Z.of_nat i + 1)) as Ek by (unfold KSTACK, PGSIZE; change TRAMPOLINE with 274877902848; lia).
  change NPROC with 64%nat in Hn. assert (i < NPROC)%nat as Hlt by (change NPROC with 64%nat; lia).
  eapply wp_kvmmap_at; [exact Hat1|rewrite Ek; zlia|lia|done|done|rewrite Ek; change MAXVA with 274877906944; unfold PGSIZE; lia|done|done|done|apply perm_ok_rw| |].
  - intros m Hm. change (PGSIZE / 4096) with 1 in Hm. assert (m = KSTACK (Z.of_nat i) / 4096) as -> by lia. split.
    + rewrite (kernel_pte_stack _ _ i) by (by apply stack_index_spec). by rewrite lookup_ge_None_2 by lia.
    + left. rewrite KSTACK_page by done. page_numbers. replace (_ / 512) with 131071 by zlia. set_solver.
  - intros k2 T2 fl2 Hat2 Hm2. wp_simpl. eapply (IH (S i) _ (stk ++ [r])).
    + rewrite length_app. cbn. lia.
    + change NPROC with 64%nat. lia.
    + cbn. rewrite Hs. apply take_ge. rewrite length_app. cbn. lia.
    + intros _. cbn. by rewrite Hs.
    + destruct Hat2 as [G1 G2 G3 G4 G5]. split; [exact G1| |exact G3|exact G4|exact G5].
      intros m. cbn. rewrite G2. subst i. by apply kernel_pte_snoc.
    + intros k stk' T' fl' Hl Hat' Hm'. cbn in Hm'. rewrite Hm2, Hm1 in Hm'. by apply (HQ k stk' T' fl').
Qed.

(** ** The fixed mappings *)

Definition fixed_map : Z → Z :=
  map_range TRAMPOLINE trampoline PGSIZE RX (map_range etext etext (PHYSTOP - etext) RW
    (map_range KERNBASE KERNBASE (etext - KERNBASE) RX (map_range PLIC PLIC 4194304 RW
      (map_range VIRTIO0 VIRTIO0 PGSIZE RW (map_range UART0 UART0 PGSIZE RW (fun _ => 0)))))).

Lemma fixed_map_pte n : fixed_map n = kernel_pte [] n.
Proof.
  pose proof text_pages as [Ht1 Ht2]. unfold fixed_map, map_range, kernel_pte.
  replace ((etext - KERNBASE) / 4096) with (etext / 4096 - 524288) by (change KERNBASE with (524288 * 4096); zlia).
  replace ((PHYSTOP - etext) / 4096) with (557056 - etext / 4096) by (change PHYSTOP with (557056 * 4096); zlia).
  change (PGSIZE / 4096) with 1. change (4194304 / 4096) with 1024. page_numbers.
  replace (stack_index n ≫= _) with (None : option Z) by (by destruct (stack_index n)).
  repeat match goal with
  | |- context [decide ?P] => destruct (decide P)
  | |- context [?a =? ?b] => destruct (Z.eqb_spec a b)
  | |- context [?a <=? ?b] => destruct (Z.leb_spec a b)
  | |- context [?a <? ?b] => destruct (Z.ltb_spec a b)
  end; cbn [andb]; try lia; try done; f_equal;
    unfold UART0, VIRTIO0, PLIC, KERNBASE; lia.
Qed.

Lemma etext_bounds : 2147483648 < etext ≤ 2281701376 ∧ etext mod 4096 = 0 ∧ 2147483648 ≤ trampoline < etext ∧ trampoline mod 4096 = 0.
Proof.
  pose proof etext_range. pose proof kend_range. pose proof trampoline_range. unfold PGSIZE, PHYSTOP, KERNBASE in *. lia.
Qed.

(** The pages of memory are those of tables 1024 to 1087. *)
Lemma kernel_page_ram n : 524288 ≤ n < 557056 → kernel_page n.
Proof. intros H. right. zlia. Qed.

(** One mapping of a sequence: the range is aligned, and its pages are fresh. *)
Ltac mapping H := eapply wp_kvmmap_at; [exact H|try done; change MAXVA with 274877906944; change TRAMPOLINE with 274877902848; unfold KERNBASE, PGSIZE; zlia..|done| |].
Ltac fresh_pages n :=
  unfold map_range; change (PGSIZE / 4096) with 1 in *; change (4194304 / 4096) with 1024 in *; page_numbers;
  unfold KERNBASE in *;
  repeat rewrite decide_False by (page_numbers; zlia);
  split; [done|]; unfold kernel_page; page_numbers;
  (right; zlia) || (left; match goal with |- _ ∈ ?l => assert (n / 512 = 96 ∨ n / 512 = 97 ∨ n / 512 = 128 ∨ n / 512 = 131071) by zlia; set_solver end).

Lemma wp_fixed_map k root b stk T fl Q :
  kvm_at k root (fun _ => 0) b stk T fl → etext < PHYSTOP →
  (∀ k' T' fl', kvm_at k' root (kernel_pte []) b stk T' fl' → k_mach k' ≡ k_mach k → Q tt k') →
  wp (((((kvmmap root UART0 UART0 PGSIZE RW;;
      kvmmap root VIRTIO0 VIRTIO0 PGSIZE RW);;
      kvmmap root PLIC PLIC 4194304 RW);;
      kvmmap root KERNBASE KERNBASE (etext - KERNBASE) RX);;
      kvmmap root etext etext (PHYSTOP - etext) RW);;
      kvmmap root TRAMPOLINE trampoline PGSIZE RX) k Q.
Proof.
  intros H0 Hlt HQ. destruct etext_bounds as (E1 & E2 & E3 & E4). pose proof text_pages as [Ht1 Ht2].
  destruct perm_ok_rw as [Prw Prx]. change PHYSTOP with 2281701376 in Hlt. change PHYSTOP with 2281701376. wp_simpl.
  mapping H0; [clear; intros n Hn; fresh_pages n|]. intros k1 T1 fl1 H1 M1. wp_simpl.
  mapping H1; [clear; intros n Hn; fresh_pages n|]. intros k2 T2 fl2 H2 M2. wp_simpl.
  mapping H2; [clear; intros n Hn; fresh_pages n|]. intros k3 T3 fl3 H3 M3. wp_simpl.
  mapping H3; [clear - Ht1 Ht2 E1 E2; intros n Hn; fresh_pages n|]. intros k4 T4 fl4 H4 M4. wp_simpl.
  mapping H4; [clear - Ht1 Ht2 E1 E2; intros n Hn; fresh_pages n|]. intros k5 T5 fl5 H5 M5. wp_simpl.
  mapping H5; [clear - Ht1 Ht2 E1 E2; intros n Hn; fresh_pages n|]. intros k6 T6 fl6 H6 M6.
  apply (HQ k6 T6 fl6); [|by rewrite M6, M5, M4, M3, M2]. destruct H6 as [G1 G2 G3 G4 G5].
  split; [exact G1| |exact G3|exact G4|exact G5]. intros n. rewrite G2. apply fixed_map_pte.
Qed.

Lemma onk_seq {A B C} (a : M kst A) (b : M kst B) (k : M (kstate F) C) s :
  (onk a;; (onk b;; k)) s = (onk (a;; b);; k) s.
Proof. unfold onk, zoom, bind. destruct (a (ks_k s)) as [x k1| | | | |]; [|done..]. cbn. by destruct (b k1). Qed.

Lemma wp_onk_seq {A B C} (a : M kst A) (b : M kst B) (k : M (kstate F) C) s Q :
  wp (onk (a;; b);; k) s Q → wp (onk a;; (onk b;; k)) s Q.
Proof. unfold wp. by rewrite onk_seq. Qed.

(** ** Protection *)

Lemma kernel_pte_cases stacks n : Forall page_ok stacks →
  kernel_pte stacks n = 0 ∨ ∃ pa perm, kernel_pte stacks n = leaf_pte pa perm ∧ pa_ok pa ∧
    (perm = RW ∧ ¬ (KERNBASE ≤ pa < etext) ∨ perm = RX).
Proof.
  intros Hs. pose proof text_pages as [Ht1 Ht2]. destruct etext_bounds as (E1 & E2 & E3 & E4). unfold kernel_pte. page_numbers.
  destruct (Z.eqb_spec n 65536).
  { right. exists UART0, RW. split; [done|]. split; [done|]. left. split; [done|]. unfold UART0, KERNBASE. lia. }
  destruct (Z.eqb_spec n 65537).
  { right. exists VIRTIO0, RW. split; [done|]. split; [done|]. left. split; [done|]. unfold VIRTIO0, KERNBASE. lia. }
  destruct (Z.leb_spec 49152 n), (Z.ltb_spec n (49152 + 1024)); cbn [andb].
  { right. exists (n * 4096), RW. split; [done|]. split; [split; zlia|]. left. split; [done|]. unfold KERNBASE. lia. }
  all: destruct (Z.leb_spec 524288 n), (Z.ltb_spec n (etext / 4096)); cbn [andb];
    [right; exists (n * 4096), RX; split; [done|]; split; [split; zlia|by right]|..].
  all: destruct (Z.leb_spec (etext / 4096) n), (Z.ltb_spec n 557056); cbn [andb];
    [right; exists (n * 4096), RW; split; [done|]; split; [split; zlia|]; left; split; [done|]; lia|..].
  all: destruct (Z.eqb_spec n 67108863); [right; exists trampoline, RX; split; [done|]; split; [split; lia|by right]|].
  all: destruct (stack_index n ≫= _) as [r|] eqn:E; [|by left]; right; exists r, RW; split; [done|].
  all: destruct (stack_index n) as [j|]; [|done]; cbn in E; rewrite Forall_lookup in Hs; pose proof (Hs _ _ E) as Hr.
  all: destruct (page_pa r Hr) as (? & ? & ?); split; [split; [lia|done]|]; left; split; [done|].
  all: destruct Hr as (_ & ? & _); pose proof etext_range; lia.
Qed.

Lemma kernel_pte_guard stacks n i : (i < NPROC)%nat → n + 1 = KSTACK (Z.of_nat i) / 4096 → kernel_pte stacks n = 0.
Proof.
  intros Hi Hn. pose proof text_pages as Ht. rewrite KSTACK_page in Hn by done. change NPROC with 64%nat in Hi.
  unfold kernel_pte. assert (stack_index n = None) as ->.
  { destruct (stack_index n) as [j|] eqn:E; [|done]. apply stack_index_spec in E as [Hj E].
    rewrite KSTACK_page in E by done. lia. }
  page_numbers. destruct (Z.eqb_spec n 65536); [lia|]. destruct (Z.eqb_spec n 65537); [lia|].
  destruct (Z.leb_spec 49152 n), (Z.ltb_spec n (49152 + 1024)); try lia; cbn [andb].
  destruct (Z.leb_spec 524288 n), (Z.ltb_spec n (etext / 4096)); try lia; cbn [andb].
  destruct (Z.leb_spec (etext / 4096) n), (Z.ltb_spec n 557056); try lia; cbn [andb].
  destruct (Z.eqb_spec n 67108863); [lia|done].
Qed.

Lemma pte_safe stacks n :
  Forall page_ok stacks →
  let pte := kernel_pte stacks n in
  Z.land pte PTE_U = 0 ∧ (Z.land pte PTE_W = 0 ∨ Z.land pte PTE_X = 0) ∧
  (Z.land pte PTE_V ≠ 0 → KERNBASE ≤ PTE2PA pte < etext → Z.land pte PTE_W = 0) ∧
  (∀ i, (i < NPROC)%nat → n + 1 = KSTACK (Z.of_nat i) / 4096 → pte = 0).
Proof.
  intros Hs pte. destruct (kernel_pte_cases stacks n Hs) as [E|(pa & perm & E & Hpa & Hp)].
  { unfold pte. rewrite E. repeat split; auto. }
  assert (perm_ok perm) as Hok by (destruct Hp as [[-> _]| ->]; apply perm_ok_rw).
  assert (∀ k, 0 ≤ k < 10 → Z.land pte (2 ^ k) = Z.land (Z.lor perm PTE_V) (2 ^ k)) as Hb.
  { intros k Hk. unfold pte. rewrite E. by apply leaf_pte_bit. }
  change PTE_U with (2 ^ 4). change PTE_W with (2 ^ 2). change PTE_X with (2 ^ 3). rewrite !Hb by lia.
  split; [by destruct Hp as [[-> _]| ->]|]. split; [destruct Hp as [[-> _]| ->]; [right|left]; done|]. split.
  - intros _ Ht. destruct Hp as [[-> Hn]| ->]; [|done]. unfold pte in Ht. rewrite E, leaf_pte_addr in Ht by done. lia.
  - intros i Hi Hn. exfalso. revert E. rewrite (kernel_pte_guard _ _ i) by done. intros E.
    pose proof (leaf_pte_valid pa perm Hpa Hok) as Hv. by rewrite <- E in Hv.
Qed.

Lemma wp_kvmmake s fl :
  kmem_inv (ks_k s) fl → (137 ≤ length fl)%nat →
  wp kvmmake s (fun root s' => ∃ T fl' k stacks,
    s' = s <| ks_k := k |> <| ks_stacks := stacks |> ∧ vm_inv k root T fl' ∧ k_mach k ≡ k_mach (ks_k s) ∧
    (∀ n, leaf (k_mem k) T n = kernel_pte stacks n) ∧
    length stacks = NPROC ∧ NoDup stacks ∧ Forall (fun r => page_ok r ∧ ¬ in_tbl T r ∧ r ∉ fl') stacks).
Proof.
  intros Hk Hl. unfold kvmmake. rewrite wp_bind. unfold onk at 1. wp_simpl. eapply wp_kalloc; [exact Hk| |].
  { intros s' -> _ _ _. cbn in Hl. lia. }
  intros r fl' k1 -> Hk1 Hr Hni _ Hm1. unfold onk at 1. wp_simpl. cbn [ks_k setf].
  apply wp_memset_page; [by apply page_ok_writable|]. change (u8 0) with 0.
  destruct (us_inv_root k1 r fl' Hk1 Hr Hni) as [Hu Hl1]. set (k2 := set_mem _ k1) in *.
  assert (kvm_at k2 r (fun _ => 0) 64 [] {[ (2%nat, 0) := r ]} fl') as Hat.
  { split; [split; [apply Hu|]|exact Hl1| |done|constructor].
    - intros k <-%lookup_singleton_is_Some. unfold kernel_keys. by left.
    - rewrite map_size_singleton. cbn in Hl. lia. }
  assert (etext < PHYSTOP) as He by (destruct Hr as (_ & H1 & H2), etext_range as [H3 _]; lia).
  change (Z.lor PTE_R PTE_W) with RW. change (Z.lor PTE_R PTE_X) with RX.
  do 5 apply wp_onk_seq. rewrite wp_bind. unfold onk at 1. rewrite wp_zoom.
  eapply (wp_fixed_map k2 r 64 []); [exact Hat|exact He|]. intros k3 T3 fl3 Hat3 Hm3.
  wp_simpl. unfold proc_mapstacks. eapply (wp_proc_mapstacks_loop _ _ _ _ []); [reflexivity|reflexivity|by rewrite take_0|by intros [=]|exact Hat3|].
  intros k4 stk T4 fl4 Hlen [[G1 _] G2 _ G4 G5] Hm4. wp_simpl. exists T4, fl4, k4, stk.
  split; [done|]. split; [exact G1|]. split; [|done]. rewrite Hm4. cbn. by rewrite Hm3.
Qed.

(** ** Theorems *)

(** C8. With 137 free pages, [kvmmake] builds a page table whose entry for every
    virtual page is the one that is meant: device registers and memory mapped
    to themselves, kernel text read-only and executable, the trampoline, and a
    stack of its own for every process, with no entry for any other page. *)
Theorem kvmmake_correct s fl :
  kmem_inv (ks_k s) fl → (137 ≤ length fl)%nat →
  wp kvmmake s (fun root s' => ∃ T fl' k stacks,
    s' = s <| ks_k := k |> <| ks_stacks := stacks |> ∧ vm_inv k root T fl' ∧ k_mach k ≡ k_mach (ks_k s) ∧
    (∀ n, leaf (k_mem k) T n = kernel_pte stacks n) ∧
    length stacks = NPROC ∧ NoDup stacks ∧ Forall (fun r => page_ok r ∧ ¬ in_tbl T r ∧ r ∉ fl') stacks).
Proof. apply wp_kvmmake. Qed.

(** C29. What the kernel page table guarantees: no page is both writable and
    executable or open to user code; kernel text cannot be written through any
    mapping of it; and the page below every kernel stack has no mapping, so
    that a stack that overflows faults. *)
Theorem kvmmake_protects s fl :
  kmem_inv (ks_k s) fl → (137 ≤ length fl)%nat →
  wp kvmmake s (fun root s' => ∃ T fl', vm_inv (ks_k s') root T fl' ∧ ∀ n,
    let pte := leaf (k_mem (ks_k s')) T n in
    Z.land pte PTE_U = 0 ∧ (Z.land pte PTE_W = 0 ∨ Z.land pte PTE_X = 0) ∧
    (Z.land pte PTE_V ≠ 0 → KERNBASE ≤ PTE2PA pte < etext → Z.land pte PTE_W = 0) ∧
    (∀ i, (i < NPROC)%nat → n + 1 = KSTACK (Z.of_nat i) / 4096 → pte = 0)).
Proof.
  intros Hk Hl. eapply wp_mono; [by apply (wp_kvmmake s fl)|].
  intros root s' (T & fl' & k & stacks & -> & Hv & _ & Hlf & _ & _ & Hs). exists T, fl'. split; [done|].
  intros n. cbn [ks_k setf]. rewrite Hlf. apply pte_safe.
  rewrite Forall_forall in *. intros r Hr. by destruct (Hs r Hr).
Qed.

End kvm.

(** ** Examples *)

#[local] Existing Instance small_image.

Lemma small_st140_inv : kmem_inv (small_st 140) (small_list 140).
Proof.
  split; [apply boot_mach_ok|by exists "kmem"%string| | | |].
  - vm_compute. repeat (split; [reflexivity|]). reflexivity.
  - apply (bool_decide_unpack _). by vm_compute.
  - apply Forall_forall. intros r (i & -> & Hi%elem_of_seq)%list_elem_of_fmap.
    unfold page_ok, page_no, PHYSTOP, KERNBASE. cbn [kend small_image]. unfold KERNBASE. zlia.
  - apply mem_ok_link, mem_ok_empty.
Qed.

Definition kvm_state : kstate unit := KState (small_st 140) [] None 1 0 [] 1 tt.

Lemma kvmmake_correct_witness :
  wp kvmmake kvm_state (fun root s' => ∃ T, leaf (k_mem (ks_k s')) T (UART0 / 4096) = leaf_pte UART0 RW).
Proof.
  eapply wp_mono; [apply (kvmmake_correct kvm_state (small_list 140)); [exact small_st140_inv|vm_compute; lia]|].
  intros root s' (T & fl' & k & stacks & -> & _ & _ & Hl & _). exists T. apply Hl.
Defined.

Lemma kvmmake_protects_witness :
  wp kvmmake kvm_state (fun root s' => ∃ T, leaf (k_mem (ks_k s')) T (KSTACK 3 / 4096 - 1) = 0).
Proof.
  eapply wp_mono; [apply (kvmmake_protects kvm_state (small_list 140)); [exact small_st140_inv|vm_compute; lia]|].
  intros root s' (T & fl' & _ & H). exists T. apply (H (KSTACK 3 / 4096 - 1)) with (i := 3%nat); [vm_compute; lia|reflexivity].
Defined.
