(* ===== verification/ProcFacts.v ===== *)
(** * Operations on the process table: specifications (kernel/proc.c)

    Kernel states are compared up to the dead [intena] of the machine.  A
    table operation that takes and releases one process lock after another is
    shown to be one pure update of the table. *)

From Stdlib Require Import ZArith Lia.
From stdpp Require Import base gmap strings numbers list.
From S2P Require Import Prelude Spinlock Mem Kstring Kalloc Vm Proc.
Local Open Scope xv6_scope.

(** ** Reading the machine *)

(** The process this hart runs. *)
Definition cur (m : mach) : option nat :=
  match cpus m !! hid m with Some c => c_proc c | None => None end.

Lemma cur_norm m : cur (norm m) = cur m.
Proof.
  unfold cur. change (hid (norm m)) with (hid m). destruct (cpus m !! hid m) as [c|] eqn:E.
  - by rewrite (cpus_norm m c E).
  - unfold norm, on_mycpu; simpl. by rewrite list_lookup_alter_eq, E.
Qed.

#[global] Instance cur_proper : Proper (equiv ==> eq) cur.
Proof. intros m m' H. rewrite <- (cur_norm m), <- (cur_norm m'). by rewrite H. Qed.

Lemma cur_acq lk m : cur (acq lk m) = cur m.
Proof.
  unfold cur. change (hid (acq lk m)) with (hid m).
  change (cpus (acq lk m)) with (cpus (push m)). destruct (cpus m !! hid m) as [c|] eqn:E.
  - by rewrite (cpus_push m c E).
  - unfold push, on_mycpu; simpl. unfold hid in *; simpl. by rewrite list_lookup_alter_eq, E.
Qed.

Lemma wp_myproc m Q : mach_ok m → (∀ m', m' ≡ m → Q (cur m) m') → wp myproc m Q.
Proof.
  intros Hok HQ. unfold myproc. wp_simpl. apply wp_push_off; [done|].
  pose proof Hok as (Htp & c & Hc & Hn & Hoff). wp_simpl.
  eapply wp_mycpu; [done|exact (cpus_push m c Hc)|]. wp_simpl.
  eapply wp_pop_off; [done|exact (cpus_push m c Hc)|simpl; lia|apply sie_push|].
  wp_simpl. rewrite pop_push by done. specialize (HQ (norm m) (norm_equiv m)).
  unfold cur in HQ. by rewrite Hc in HQ.
Qed.

(** ** Kernel states up to the machine *)

#[global] Instance kst_equiv : Equiv kst := fun s s' =>
  k_mach s ≡ k_mach s' ∧ k_mem s = k_mem s' ∧ k_freelist s = k_freelist s'.

#[global] Instance kst_equivalence : Equivalence (≡@{kst}).
Proof.
  split.
  - intros s. done.
  - intros s s' (H1 & H2 & H3). done.
  - intros s s' s'' (H1 & H2 & H3) (H4 & H5 & H6).
    split; [by etrans|]. split; congruence.
Qed.

Section facts.
Context `{KI : KernelImage} {F : Type}.
Implicit Types s : kstate F.

Definition ks_mach (s : kstate F) : mach := k_mach (ks_k s).
Definition set_kmach (m : mach) (s : kstate F) : kstate F := s <| ks_k ::= set_mach m |>.

(** Everything but the memory-management state. *)
Definition rest (s : kstate F) := (ks_proc s, ks_initproc s, ks_nextpid s, ks_ticks s, ks_stacks s, ks_first s, ks_fs s).

#[global] Instance kstate_equiv : Equiv (kstate F) := fun s s' => ks_k s ≡ ks_k s' ∧ rest s = rest s'.

#[global] Instance kstate_equivalence : Equivalence (≡@{kstate F}).
Proof.
  split.
  - intros s. done.
  - intros s s' [H1 H2]. done.
  - intros s s' s'' [H1 H2] [H3 H4]. split; [by etrans|congruence].
Qed.

#[global] Instance ks_mach_proper : Proper (equiv ==> equiv) ks_mach.
Proof. intros s s' [[H _] _]. done. Qed.

#[global] Instance ks_proc_proper : Proper ((≡@{kstate F}) ==> eq) ks_proc.
Proof. intros s s' [_ H]. by injection H. Qed.

#[global] Instance ks_ticks_proper : Proper ((≡@{kstate F}) ==> eq) ks_ticks.
Proof. intros s s' [_ H]. by injection H. Qed.

#[global] Instance ks_initproc_proper : Proper ((≡@{kstate F}) ==> eq) ks_initproc.
Proof. intros s s' [_ H]. by injection H. Qed.

Definition upd_procs (f : list proc → list proc) (s : kstate F) : kstate F := s <| ks_proc ::= f |>.

#[global] Instance upd_procs_proper f : Proper (equiv ==> equiv) (upd_procs f).
Proof.
  intros s s' [H1 H2]. split; [done|]. unfold rest, upd_procs in *; simpl in *. congruence.
Qed.

#[global] Instance upd_procs_proper_ext : Proper (pointwise_relation _ eq ==> eq ==> equiv) upd_procs.
Proof.
  intros f g H s s' <-. split; [done|]. pose proof (H (ks_proc s)) as E.
  unfold rest, upd_procs; cbn. congruence.
Qed.

Lemma upd_procs_eq f g s : f (ks_proc s) = g (ks_proc s) → upd_procs f s = upd_procs g s.
Proof. intros H. unfold upd_procs, setf. by rewrite H. Qed.

Lemma upd_procs_comp f g s : upd_procs f (upd_procs g s) = upd_procs (f ∘ g) s.
Proof. done. Qed.

Lemma upd_procs_same s : upd_procs (fun ps => ps) s ≡ s.
Proof. by destruct s. Qed.

Lemma set_kmach_undo m s : m ≡ ks_mach s → set_kmach m s ≡ s.
Proof. intros H. by destruct s as [[]]. Qed.

#[global] Instance set_kmach_proper m : Proper (equiv ==> equiv) (set_kmach m).
Proof. intros s s' [(H1 & H2 & H3) H4]. split; [|done]. done. Qed.

Lemma set_kmach_back m f s : set_kmach (ks_mach s) (upd_procs f (set_kmach m s)) = upd_procs f s.
Proof. by destruct s as [[]]. Qed.

Lemma set_kmach_id s : set_kmach (ks_mach s) s = s.
Proof. by destruct s as [[]]. Qed.

Lemma set_kmach_twice m m' s : set_kmach m (set_kmach m' s) = set_kmach m s.
Proof. by destruct s as [[]]. Qed.

Lemma set_kmach_upd m f s : set_kmach m (upd_procs f s) = upd_procs f (set_kmach m s).
Proof. by destruct s as [[]]. Qed.

Lemma set_kmach_equiv m m' s s' : m ≡ m' → s ≡ s' → set_kmach m s ≡ set_kmach m' s'.
Proof. intros Hm [(H1 & H2 & H3) H4]. by split. Qed.

(** ** Rules *)

Lemma wp_lkm {A} (m : M mach A) s Q :
  wp (lkm m) s Q = wp m (ks_mach s) (fun a m' => Q a (set_kmach m' s)).
Proof.
  unfold lkm, onk, onm. rewrite wp_zoom. by rewrite wp_zoom.
Qed.

Lemma wp_acq lk s Q :
  mach_ok (ks_mach s) → lock_free lk (ks_mach s) →
  Q tt (set_kmach (acq lk (ks_mach s)) s) → wp (lkm (acquire lk)) s Q.
Proof. intros H1 H2 HQ. unfold lkm, onk. rewrite wp_zoom. by apply wp_acquire_k. Qed.

(** [s0] is the state before the lock was taken. *)
Lemma wp_rel lk s0 s Q :
  mach_ok (ks_mach s0) → lock_free lk (ks_mach s0) → ks_mach s ≡ acq lk (ks_mach s0) →
  (∀ s', s' ≡ set_kmach (ks_mach s0) s → Q tt s') → wp (lkm (release lk)) s Q.
Proof.
  intros H1 H2 H3 HQ. unfold lkm, onk. rewrite wp_zoom.
  eapply wp_release_k; [done|done|done|]. intros m' Hm'. apply HQ. by destruct s as [[]].
Qed.

Lemma wp_getp i p s Q : ks_proc s !! i = Some p → Q p s → wp (getp i) s Q.
Proof. intros Hp HQ. unfold getp. wp_simpl. by rewrite Hp. Qed.

Lemma wp_updp i f p s Q :
  ks_proc s !! i = Some p → Q tt (upd_procs (alter f i) s) → wp (updp i f) s Q.
Proof. intros Hp HQ. unfold updp. wp_simpl. eapply wp_getp; [done|]. by wp_simpl. Qed.

Lemma wp_myproc_k s Q :
  mach_ok (ks_mach s) → (∀ s', s' ≡ s → Q (cur (ks_mach s)) s') → wp (lkm myproc) s Q.
Proof.
  intros Hok HQ. unfold lkm, onk, onm. rewrite !wp_zoom. apply wp_myproc; [done|].
  intros m' Hm'. apply HQ. by apply set_kmach_undo.
Qed.

(** ** The table *)

(** The process locks other than that of [me] are free. *)
Record procs_ok (me : option nat) (s : kstate F) : Prop := {
  po_mach : mach_ok (ks_mach s);
  po_len : length (ks_proc s) = NPROC;
  po_free : ∀ i, (i < NPROC)%nat → me ≠ Some i → lock_free (L_proc i) (ks_mach s)
}.

#[global] Instance procs_ok_proper me : Proper (equiv ==> iff) (procs_ok me).
Proof.
  intros s s' H. split; intros [H1 H2 H3]; split.
  - by rewrite <- H.
  - by rewrite <- H.
  - intros i. rewrite <- H. apply H3.
  - by rewrite H.
  - by rewrite H.
  - intros i. rewrite H. apply H3.
Qed.

Lemma procs_ok_upd me f s : (∀ ps, length (f ps) = length ps) → procs_ok me s → procs_ok me (upd_procs f s).
Proof. intros Hf [H1 H2 H3]. split; [done|by cbn; rewrite Hf|done]. Qed.

Lemma procs_lookup me s i : procs_ok me s → (i < NPROC)%nat → ∃ p, ks_proc s !! i = Some p.
Proof. intros Hok Hi. apply lookup_lt_is_Some. by rewrite (po_len _ _ Hok). Qed.

(** Successive updates of the slots in [l]. *)
Definition alters (f : nat → proc → proc) (l : list nat) (ps : list proc) : list proc :=
  foldl (fun ps i => alter (f i) i ps) ps l.

Lemma length_alters f l ps : length (alters f l ps) = length ps.
Proof. revert ps. induction l as [|i l IH]; intros ps; simpl; [done|]. by rewrite IH, length_alter. Qed.

Lemma lookup_alters f l ps i : NoDup l →
  alters f l ps !! i = (if decide (i ∈ l) then f i <$> ps !! i else ps !! i).
Proof.
  revert ps. induction l as [|j l IH]; intros ps Hnd.
  - by rewrite decide_False by apply not_elem_of_nil.
  - change (alters f (j :: l) ps) with (alters f l (alter (f j) j ps)). apply NoDup_cons in Hnd as [Hj Hnd]. rewrite IH by done.
    destruct (decide (i = j)) as [->|Hne].
    + rewrite decide_False, decide_True by (done || by left). by rewrite list_lookup_alter_eq.
    + rewrite list_lookup_alter_ne by done.
      destruct (decide (i ∈ l)); [rewrite decide_True by (by right); done|].
      rewrite decide_False; [done|]. by intros [?|?]%elem_of_cons.
Qed.

Lemma alters_all f ps : length ps = NPROC → alters f (seq 0 NPROC) ps = imap f ps.
Proof.
  intros Hl. apply list_eq. intros i. rewrite lookup_alters, list_lookup_imap by apply NoDup_seq.
  destruct (decide (i ∈ seq 0 NPROC)) as [Hi|Hi]; [done|].
  rewrite elem_of_seq in Hi. rewrite lookup_ge_None_2; [done|]. lia.
Qed.

(** A loop over the table whose body updates one slot. *)
Lemma wp_for_each_cur me l body f s :
  procs_ok me s → cur (ks_mach s) = me → (∀ i, i ∈ l → (i < NPROC)%nat) →
  (∀ i s, (i < NPROC)%nat → procs_ok me s → cur (ks_mach s) = me →
     wp (body i) s (fun _ s' => s' ≡ upd_procs (alter (f i) i) s)) →
  wp (for_each l body) s (fun _ s' => s' ≡ upd_procs (alters f l) s).
Proof.
  intros Hok Hcur Hl Hbody. revert s Hok Hcur. induction l as [|i l IH]; intros s Hok Hcur; simpl.
  - by wp_simpl.
  - wp_simpl. eapply wp_mono; [apply Hbody; [apply Hl; by left|done|done]|]. cbn beta. intros _ s1 Hs1.
    eapply wp_mono; [apply IH|].
    + intros j Hj. apply Hl. by right.
    + rewrite Hs1. apply procs_ok_upd; [|done]. intros. apply length_alter.
    + by rewrite Hs1.
    + cbn beta. intros _ s2 ->. by rewrite Hs1.
Qed.

End facts.

#[export] Hint Resolve procs_ok_upd : mach.

Lemma wp_onw {F A} (m : M (kstate F) A) s e Q :
  wp (onw m) (World s e) Q = wp m s (fun a k => Q a (World k e)).
Proof. unfold onw. by rewrite wp_zoom. Qed.

Lemma wp_deref {S A} (a : A) (s : S) Q : wp (deref (Some a)) s Q = Q a s.
Proof. reflexivity. Qed.

#[export] Hint Rewrite @wp_onw @wp_deref : wpdb.
