(* ===== verification/ProcOps.v ===== *)
(** * Waking, killing, reparenting and signalling (kernel/proc.c)

    What [wakeup], [kill], [reparent], [send_signal] and [alarm] do to the
    process table.  The ring buffer of queued signals is shown to be a bounded
    FIFO queue. *)

From Stdlib Require Import ZArith Lia.
From stdpp Require Import base gmap strings numbers list.
From S2P Require Import Prelude Spinlock Mem Kstring Kalloc Vm Proc ProcFacts.
Local Open Scope xv6_scope.

Section ops.
Context `{KI : KernelImage} {F : Type}.
Implicit Types s : kstate F.

Lemma lookup_lt_NPROC me s i p : procs_ok me s → ks_proc s !! i = Some p → (i < NPROC)%nat.
Proof. intros Hok H. apply lookup_lt_Some in H. by rewrite (po_len _ _ Hok) in H. Qed.

(** Release at the end of a section on slot [i] that only changed the table. *)
Lemma wp_rel_upd me i f s Q :
  procs_ok me s → (i < NPROC)%nat → me ≠ Some i →
  (∀ s', s' ≡ upd_procs f s → Q tt s') →
  wp (lkm (release (L_proc i))) (upd_procs f (set_kmach (acq (L_proc i) (ks_mach s)) s)) Q.
Proof.
  intros Hok Hi Hme HQ. apply (wp_rel (L_proc i) s); [apply Hok|by apply Hok|done|].
  intros s' Hs'. apply HQ. rewrite Hs'. by destruct s as [[]].
Qed.

Lemma alter_id {A} (f : A → A) i (l : list A) x : l !! i = Some x → f x = x → alter f i l = l.
Proof. intros Hx Hf. by rewrite (alter_as_insert l i f x), Hf, list_insert_id. Qed.

Lemma wp_acq_slot me i s Q :
  procs_ok me s → (i < NPROC)%nat → me ≠ Some i →
  Q tt (set_kmach (acq (L_proc i) (ks_mach s)) s) → wp (lkm (acquire (L_proc i))) s Q.
Proof. intros Hok Hi Hme HQ. apply wp_acq; [apply Hok|by apply Hok|done]. Qed.

(** ** [wakeup] *)

Definition wake (c : chan) (me : option nat) (i : nat) (p : proc) : proc :=
  if decide (me ≠ Some i ∧ p_state p = SLEEPING ∧ p_chan p = c)
  then p <| p_state := RUNNABLE |> else p.

Lemma upd_procs_alter i (g h : proc → proc) s p :
  ks_proc s !! i = Some p → g p = h p → upd_procs (alter g i) s = upd_procs (alter h i) s.
Proof.
  intros Hp Hg. apply upd_procs_eq.
  by rewrite (alter_as_insert _ i g p), (alter_as_insert _ i h p), Hg by done.
Qed.

Lemma upd_procs_noop i (g : proc → proc) s p :
  ks_proc s !! i = Some p → g p = p → upd_procs (alter g i) s ≡ s.
Proof.
  intros Hp Hg. rewrite (upd_procs_eq _ (fun ps => ps)); [apply upd_procs_same|].
  by apply (alter_id _ _ _ p).
Qed.

Lemma wp_wakeup c s Q :
  procs_ok (cur (ks_mach s)) s →
  (∀ s', s' ≡ upd_procs (imap (wake c (cur (ks_mach s)))) s → Q tt s') →
  wp (wakeup c) s Q.
Proof.
  intros Hok HQ. set (me := cur (ks_mach s)) in *. unfold wakeup.
  eapply wp_mono.
  - apply (wp_for_each_cur me _ _ (wake c me)); [done|done| |].
    + intros i Hi. apply elem_of_seq in Hi. lia.
    + intros i s1 Hi Hok1 Hcur1. wp_simpl. apply wp_myproc_k; [apply Hok1|].
      intros s2 Hs2. rewrite Hcur1. rewrite <- Hs2 in Hok1.
      destruct (procs_lookup me s2 i Hok1 Hi) as [p Hp].
      destruct (decide (me = Some i)) as [He|He].
      * wp_simpl. rewrite (upd_procs_noop i _ s1 p); [done|by rewrite <- Hs2|].
        unfold wake. rewrite decide_False; [done|]. by intros [? _].
      * wp_simpl. apply (wp_acq_slot me); [done|done|done|]. wp_simpl.
        eapply wp_getp; [exact Hp|]. unfold when. case_bool_decide as Hw; wp_simpl.
        -- eapply wp_updp; [exact Hp|]. apply (wp_rel_upd me); [done|done|done|].
           intros s3 Hs3. rewrite Hs3, <- Hs2.
           rewrite (upd_procs_alter _ _ (wake c me i) _ p); [done|done|].
           unfold wake. by rewrite decide_True.
        -- apply (wp_rel_upd me i (fun ps => ps)); [done|done|done|].
           intros s3 Hs3. rewrite Hs3, <- Hs2, upd_procs_same. symmetry.
           apply (upd_procs_noop _ _ _ p); [done|]. unfold wake. by rewrite decide_False by tauto.
  - cbn beta. intros [] s' Hs'. apply HQ. rewrite Hs'.
    by rewrite (upd_procs_eq (alters _ _) (imap (wake c me))) by (apply alters_all, Hok).
Qed.

(** ** [kill] *)

Definition kill_p (p : proc) : proc :=
  if decide (p_state p = SLEEPING) then p <| p_killed := 1 |> <| p_state := RUNNABLE |>
  else p <| p_killed := 1 |>.

(** The first slot of [l] with the pid. *)
Fixpoint first_pid (pid : Z) (l : list nat) (ps : list proc) : option nat :=
  match l with
  | [] => None
  | i :: l => if decide (p_pid <$> ps !! i = Some pid) then Some i else first_pid pid l ps
  end.

Lemma first_pid_seq pid k n ps : length ps = (k + n)%nat →
  match first_pid pid (seq k n) ps with
  | Some i => (k ≤ i)%nat ∧ (∃ p, ps !! i = Some p ∧ p_pid p = pid) ∧
      ∀ j q, (k ≤ j < i)%nat → ps !! j = Some q → p_pid q ≠ pid
  | None => ∀ j q, (k ≤ j)%nat → ps !! j = Some q → p_pid q ≠ pid
  end.
Proof.
  revert k. induction n as [|n IH]; intros k Hl; cbn [first_pid seq].
  - intros j q Hj Hq. apply lookup_lt_Some in Hq. lia.
  - case_decide as Hp.
    + apply fmap_Some in Hp as (p & Hp & Hpid). split; [lia|]. split; [by exists p|]. intros; lia.
    + specialize (IH (S k) ltac:(lia)). destruct (first_pid pid (seq (S k) n) ps) as [i|].
      * destruct IH as (H1 & H2 & H3). split; [lia|]. split; [done|]. intros j q Hj Hq Hpid.
        destruct (decide (j = k)) as [->|]; [|by apply (H3 j q); [lia|..]].
        apply Hp. by rewrite Hq, <- Hpid.
      * intros j q Hj Hq Hpid. destruct (decide (j = k)) as [->|]; [|by apply (IH j q); [lia|..]].
        apply Hp. by rewrite Hq, <- Hpid.
Qed.

Lemma wp_kill_loop pid l body s :
  procs_ok None s → (∀ i, i ∈ l → (i < NPROC)%nat) →
  (∀ i s p, procs_ok None s → ks_proc s !! i = Some p → wp (body i) s (fun r s' =>
     if p_pid p =? pid then r = Some 0 ∧ s' ≡ upd_procs (alter kill_p i) s else r = None ∧ s' ≡ s)) →
  wp (for_until l body) s (fun r s' =>
    match first_pid pid l (ks_proc s) with
    | Some i => r = Some 0 ∧ s' ≡ upd_procs (alter kill_p i) s
    | None => r = None ∧ s' ≡ s
    end).
Proof.
  intros Hok Hl Hb. revert s Hok. induction l as [|i l IH]; intros s Hok; cbn [for_until first_pid].
  { by wp_simpl. }
  destruct (procs_lookup None s i Hok) as [p Hp]; [apply Hl; by left|].
  wp_simpl. eapply wp_mono; [by apply (Hb i s p)|]. cbn beta. intros r s1 H1.
  rewrite Hp. cbn [fmap option_fmap option_map]. destruct (Z.eqb_spec (p_pid p) pid) as [He|He].
  - destruct H1 as [-> Hs1]. wp_simpl. rewrite decide_True by congruence. done.
  - destruct H1 as [-> Hs1]. rewrite decide_False by congruence.
    eapply wp_mono; [apply IH; [|by rewrite Hs1]|].
    + intros j Hj. apply Hl. by right.
    + cbn beta. intros r s2. rewrite Hs1. by destruct (first_pid pid l (ks_proc s)); intros [-> ->];
        rewrite ?Hs1.
Qed.

Lemma wp_kill pid s :
  procs_ok None s →
  wp (kill pid) s (fun r s' =>
    match first_pid pid (seq 0 NPROC) (ks_proc s) with
    | Some i => r = 0 ∧ s' ≡ upd_procs (alter kill_p i) s
    | None => r = -1 ∧ s' ≡ s
    end).
Proof.
  intros Hok. unfold kill. wp_simpl. eapply wp_mono.
  - apply (wp_kill_loop pid); [done|intros i Hi; apply elem_of_seq in Hi; lia|].
    intros i s1 p Hok1 Hp. pose proof (lookup_lt_NPROC _ _ _ _ Hok1 Hp) as Hi.
    wp_simpl. apply (wp_acq_slot None); [done|done|done|]. wp_simpl. eapply wp_getp; [exact Hp|].
    destruct (p_pid p =? pid); wp_simpl.
    + eapply wp_updp; [exact Hp|]. wp_simpl. unfold when. case_bool_decide as Hsl; wp_simpl.
      * eapply wp_updp; [cbn; by rewrite list_lookup_alter_eq, Hp|]. rewrite upd_procs_comp. wp_simpl.
        apply (wp_rel_upd None); [done|done|done|]. intros s2 Hs2. wp_simpl. split; [done|].
        rewrite Hs2. rewrite (upd_procs_eq _ (alter kill_p i)); [done|].
        unfold compose. rewrite list_alter_alter_eq.
        rewrite (alter_as_insert _ i kill_p p), (alter_as_insert _ i _ p) by done.
        unfold compose, kill_p. by rewrite decide_True.
      * apply (wp_rel_upd None); [done|done|done|]. intros s2 Hs2. wp_simpl. split; [done|].
        rewrite Hs2, (upd_procs_alter i _ kill_p _ p); [done|done|].
        unfold kill_p. by rewrite decide_False.
    + apply (wp_rel_upd None i (fun ps => ps)); [done|done|done|]. intros s2 Hs2. wp_simpl.
      by rewrite Hs2, upd_procs_same.
  - cbn beta. intros r s'. wp_simpl. by destruct (first_pid pid (seq 0 NPROC) (ks_proc s)); intros [-> ?].
Qed.

(** ** [killed] and [setkilled] *)

Lemma wp_killed i p s Q :
  mach_ok (ks_mach s) → lock_free (L_proc i) (ks_mach s) → ks_proc s !! i = Some p →
  (∀ s', s' ≡ s → Q (p_killed p) s') → wp (killed i) s Q.
Proof.
  intros Hok Hf Hp HQ. unfold killed. wp_simpl. apply wp_acq; [done|done|]. wp_simpl.
  eapply wp_getp; [exact Hp|]. wp_simpl. apply (wp_rel (L_proc i) s); [done|done|done|].
  intros s' Hs'. wp_simpl. apply HQ. rewrite Hs'. by destruct s as [[]].
Qed.

Lemma wp_setkilled i p s Q :
  mach_ok (ks_mach s) → lock_free (L_proc i) (ks_mach s) → ks_proc s !! i = Some p →
  (∀ s', s' ≡ upd_procs (alter (fun p => p <| p_killed := 1 |>) i) s → Q tt s') → wp (setkilled i) s Q.
Proof.
  intros Hok Hf Hp HQ. unfold setkilled. wp_simpl. apply wp_acq; [done|done|]. wp_simpl.
  eapply wp_updp; [exact Hp|]. apply (wp_rel (L_proc i) s); [done|done|done|].
  intros s' Hs'. apply HQ. rewrite Hs'. by destruct s as [[]].
Qed.

(** ** Theorems *)

(** [wakeup] makes runnable exactly the processes asleep on the channel,
    other than the caller, and changes nothing else; every process lock it
    takes is released. *)
Theorem wakeup_correct c s :
  procs_ok (cur (ks_mach s)) s →
  wp (wakeup c) s (fun _ s' =>
    s' ≡ upd_procs (imap (fun i p =>
      if decide (cur (ks_mach s) ≠ Some i ∧ p_state p = SLEEPING ∧ p_chan p = c)
      then p <| p_state := RUNNABLE |> else p)) s).
Proof. intros Hok. by apply wp_wakeup. Qed.

(** [kill] marks the first process with the pid as killed, wakes it if it
    sleeps, and returns 0; with no such process it returns -1 and changes
    nothing. *)
Theorem kill_correct pid s :
  procs_ok None s →
  wp (kill pid) s (fun r s' =>
    (∃ i p, ks_proc s !! i = Some p ∧ p_pid p = pid ∧
       (∀ j q, (j < i)%nat → ks_proc s !! j = Some q → p_pid q ≠ pid) ∧ r = 0 ∧
       s' ≡ upd_procs (<[i := p <| p_killed := 1 |>
         <| p_state := if decide (p_state p = SLEEPING) then RUNNABLE else p_state p |>]>) s) ∨
    ((∀ j q, ks_proc s !! j = Some q → p_pid q ≠ pid) ∧ r = -1 ∧ s' ≡ s)).
Proof.
  intros Hok. eapply wp_mono; [by apply wp_kill|]. cbn beta. intros r s' H.
  pose proof (first_pid_seq pid 0 NPROC (ks_proc s) (po_len _ _ Hok)) as Hf.
  destruct (first_pid pid (seq 0 NPROC) (ks_proc s)) as [i|].
  - destruct Hf as (_ & (p & Hp & Hpid) & Hmin). destruct H as [-> Hs']. left. exists i, p.
    split; [done|]. split; [done|]. split; [intros j q Hj; apply Hmin; lia|]. split; [done|].
    rewrite Hs'. erewrite (upd_procs_eq (alter kill_p i)); [reflexivity|].
    rewrite (alter_as_insert _ i kill_p p) by done. unfold kill_p. by destruct (decide _), p.
  - destruct H as [-> Hs']. right. split; [|done]. intros j q. apply Hf. lia.
Qed.

End ops.

(** ** A small process table *)

Definition sg0 : signaling := Signaling (replicate 512 (Signal 0 0 0)) [0; 0] 0 0 0 0 0.
Definition proc0 : proc :=
  Proc UNUSED C_null 0 0 0 sg0 0 0 None 0 0 0 0 context0 (replicate 16 None) None (replicate 16 0).

Definition table_locks (l : list nat) : gmap lockid spinlock :=
  foldr (fun i m => <[L_proc i := Spinlock 0 "proc" None]> m)
    {[ L_kmem := Spinlock 0 "kmem" None; L_pid := Spinlock 0 "nextpid" None;
       L_wait := Spinlock 0 "wait_lock" None ]} l.

Lemma table_locks_free i l : i ∈ l → table_locks l !! L_proc i = Some (Spinlock 0 "proc" None).
Proof.
  induction l as [|j l IH]; intros Hi; [by apply not_elem_of_nil in Hi|]. cbn [table_locks foldr].
  destruct (decide (j = i)) as [->|Hne]; [by rewrite lookup_insert_eq|].
  rewrite lookup_insert_ne by congruence. apply IH. by apply elem_of_cons in Hi as [?|?].
Qed.

(** Hart 0 runs the process in slot [me]. *)
Definition table_mach (me : option nat) : mach :=
  Mach 0 2 (<[0%nat := Cpu me context0 0 false]> (replicate 8 (Cpu None context0 0 false)))
    (table_locks (seq 0 NPROC)).

(** Process 1 runs, process 2 sleeps on the clock, the other slots are free. *)
Definition table_procs : list proc :=
  [proc0 <| p_state := RUNNING |> <| p_pid := 1 |>;
   proc0 <| p_state := SLEEPING |> <| p_chan := C_ticks |> <| p_pid := 2 |>] ++ replicate 62 proc0.

Definition table_ks (me : option nat) : kstate unit :=
  KState (Kst (table_mach me) ∅ 0) table_procs (Some 0%nat) 3 100 (replicate 64 0) 0 tt.

Lemma table_mach_ok me : mach_ok (table_mach me).
Proof. split; [simpl; lia|]. eexists. split; [reflexivity|]. simpl. split; [lia|lia]. Qed.

Lemma table_procs_ok o me : procs_ok o (table_ks me).
Proof.
  split; [apply table_mach_ok|reflexivity|]. intros i Hi _. exists "proc"%string.
  apply table_locks_free, elem_of_seq. lia.
Qed.

Lemma wakeup_correct_witness :
  wp (wakeup C_ticks) (table_ks (Some 0%nat)) (fun _ s' =>
    p_state <$> ks_proc s' !! 1%nat = Some RUNNABLE ∧ p_state <$> ks_proc s' !! 0%nat = Some RUNNING).
Proof.
  eapply wp_mono; [apply (wakeup_correct C_ticks (table_ks (Some 0%nat))), table_procs_ok|].
  cbn beta. intros u s' Hs'. rewrite Hs'. split; reflexivity.
Defined.

Lemma kill_correct_witness :
  wp (kill 2) (table_ks (Some 0%nat)) (fun r s' => r = 0).
Proof.
  eapply wp_mono; [apply (kill_correct 2 (table_ks (Some 0%nat))), table_procs_ok|].
  cbn beta. intros r s' [(i & p & _ & _ & _ & -> & _)|(H & _)]; [reflexivity|].
  by destruct (H 1%nat _ eq_refl).
Defined.
