(* ===== verification/SigQueue.v ===== *)
(** * Signal queues, sending and alarms (kernel/proc.c)

    The ring buffer in [struct signaling] implements a FIFO queue of at most
    [MAX_SIGNALS - 1] signals: [pending] reads the queue off the buffer, and
    [enqueue] and [dequeue] are shown to act on it as a queue. *)

From Stdlib Require Import ZArith Lia.
From stdpp Require Import base gmap strings numbers list.
From S2P Require Import Prelude Spinlock Mem Kstring Kalloc Vm Proc ProcFacts ProcOps.
Local Open Scope xv6_scope.

(** ** The abstract queue *)

Record sig_inv (sg : signaling) : Prop := {
  si_queue : Z.of_nat (length (sg_queue sg)) = MAX_SIGNALS;
  si_handlers : Z.of_nat (length (sg_handlers sg)) = SIGNAL_CATCHABLE_COUNT;
  si_read : 0 ≤ sg_read sg < MAX_SIGNALS;
  si_count : 0 ≤ sg_count sg < MAX_SIGNALS;
  si_write : sg_write sg = (sg_read sg + sg_count sg) mod MAX_SIGNALS
}.

(** The queued signals, oldest first. *)
Definition slot (sg : signaling) (k : nat) : nat :=
  Z.to_nat ((sg_read sg + Z.of_nat k) mod MAX_SIGNALS).
Definition pending (sg : signaling) : list signal_t :=
  omap (fun k => sg_queue sg !! slot sg k) (seq 0 (Z.to_nat (sg_count sg))).

Lemma slot_lt sg k : sig_inv sg → (slot sg k < length (sg_queue sg))%nat.
Proof. intros [H _ _ _ _]. unfold slot, MAX_SIGNALS in *. zlia. Qed.

Lemma omap_length {A B} (f : A → option B) (l : list A) : (∀ x, x ∈ l → is_Some (f x)) → length (omap f l) = length l.
Proof.
  induction l as [|x l IH]; intros H; simpl; [done|].
  destruct (H x) as [y Hy]; [by left|]. rewrite Hy; simpl. f_equal. apply IH. intros z Hz. apply H. by right.
Qed.

Lemma length_pending sg : sig_inv sg → Z.of_nat (length (pending sg)) = sg_count sg.
Proof.
  intros Hi. unfold pending. rewrite omap_length, length_seq.
  - pose proof (si_count _ Hi). lia.
  - intros k _. apply lookup_lt_is_Some. by apply slot_lt.
Qed.

Lemma omap_ext {A B} (f g : A → option B) (l : list A) : (∀ x, x ∈ l → f x = g x) → omap f l = omap g l.
Proof.
  induction l as [|x l IH]; intros H; [done|]. simpl. rewrite (H x) by (by left).
  assert (omap f l = omap g l) as E by (apply IH; intros z Hz; apply H; by right).
  destruct (g x); [f_equal; exact E|exact E].
Qed.

Lemma omap_fmap {A B C} (f : B → option C) (g : A → B) (l : list A) :
  omap f (g <$> l) = omap (fun x => f (g x)) l.
Proof. induction l as [|x l IH]; [done|]. simpl. destruct (f (g x)); [f_equal; exact IH|exact IH]. Qed.

Lemma rem_mod w : 0 ≤ w → Z.rem w MAX_SIGNALS = w mod MAX_SIGNALS.
Proof. intros. unfold MAX_SIGNALS. apply Z.rem_mod_nonneg; lia. Qed.

Lemma sig_inv_enqueue x sg : sig_inv sg → sg_count sg + 1 < MAX_SIGNALS → sig_inv (enqueue x sg).
Proof.
  intros [H1 H2 H3 H4 H5] Hc. unfold MAX_SIGNALS in *.
  assert (0 ≤ sg_write sg < 512) by (rewrite H5; zlia).
  split; cbn; unfold MAX_SIGNALS.
  - by rewrite length_insert.
  - done.
  - done.
  - lia.
  - rewrite Z.rem_mod_nonneg, H5 by lia. zlia.
Qed.

Lemma pending_enqueue x sg : sig_inv sg → sg_count sg + 1 < MAX_SIGNALS →
  pending (enqueue x sg) = pending sg ++ [x].
Proof.
  intros Hi Hc. pose proof Hi as [H1 H2 H3 H4 H5]. unfold pending. cbn [enqueue sg_count setf].
  replace (Z.to_nat (sg_count sg + 1)) with (Z.to_nat (sg_count sg) + 1)%nat by lia.
  rewrite seq_app, omap_app. f_equal.
  - apply omap_ext. intros k Hk. apply elem_of_seq in Hk.
    change (slot (enqueue x sg) k) with (slot sg k). cbn.
    rewrite list_lookup_insert_ne; [done|]. unfold slot. rewrite H5. unfold MAX_SIGNALS in *. zlia.
  - cbn. change (slot (enqueue x sg)) with (slot sg).
    assert (slot sg (Z.to_nat (sg_count sg)) = Z.to_nat (sg_write sg)) as ->.
    { unfold slot. by rewrite H5, Z2Nat.id by lia. }
    rewrite list_lookup_insert_eq; [done|]. rewrite H5. unfold MAX_SIGNALS in *. zlia.
Qed.

Lemma sig_inv_dequeue sg : sig_inv sg → 0 < sg_count sg → sig_inv (dequeue sg).
Proof.
  intros [H1 H2 H3 H4 H5] Hc. unfold MAX_SIGNALS in *.
  split; cbn; unfold MAX_SIGNALS; try done.
  - rewrite Z.rem_mod_nonneg by lia. zlia.
  - lia.
  - rewrite H5, Z.rem_mod_nonneg by lia. zlia.
Qed.

Lemma pending_dequeue sg : sig_inv sg → 0 < sg_count sg →
  ∃ x, sg_queue sg !! Z.to_nat (sg_read sg) = Some x ∧ pending sg = x :: pending (dequeue sg).
Proof.
  intros Hi Hc. pose proof Hi as [H1 H2 H3 H4 H5].
  destruct (lookup_lt_is_Some_2 (sg_queue sg) (Z.to_nat (sg_read sg))) as [x Hx]; [lia|].
  exists x. split; [done|]. unfold pending. cbn [dequeue sg_count sg_queue setf].
  replace (Z.to_nat (sg_count sg)) with (S (Z.to_nat (sg_count sg - 1))) by lia.
  cbn [seq]. rewrite <- fmap_S_seq. cbn [omap list_omap].
  assert (slot sg 0 = Z.to_nat (sg_read sg)) as ->.
  { unfold slot. rewrite Z.add_0_r, Z.mod_small by done. done. }
  rewrite Hx. f_equal. rewrite omap_fmap. apply omap_ext. intros k Hk. apply elem_of_seq in Hk.
  f_equal. unfold slot. cbn. unfold MAX_SIGNALS in *.
  rewrite Z.rem_mod_nonneg by lia. f_equal. zlia.
Qed.

Section signals.
Context `{KI : KernelImage} {F : Type}.
Implicit Types s : kstate F.

(** ** [send_signal] *)

Lemma find_pid_upto pid (ps : list proc) n :
  match foldl (fun r i => match ps !! i with Some p => if p_pid p =? pid then Some i else r | None => r end)
          None (seq 0 n) with
  | Some i => (∃ p, ps !! i = Some p ∧ p_pid p = pid) ∧
      ∀ j q, (i < j < n)%nat → ps !! j = Some q → p_pid q ≠ pid
  | None => ∀ j q, (j < n)%nat → ps !! j = Some q → p_pid q ≠ pid
  end.
Proof.
  induction n as [|n IH]; [cbn; intros; lia|]. rewrite seq_S, foldl_app. cbn [foldl Nat.add].
  set (r := foldl _ None (seq 0 n)) in *. clearbody r.
  destruct (ps !! n) as [p|] eqn:E; [destruct (Z.eqb_spec (p_pid p) pid) as [Hp|Hp]|].
  - split; [by exists p|]. intros; lia.
  - destruct r as [i|]; [destruct IH as [H1 H2]; split; [done|]|]; intros j q Hj Hq;
      (destruct (decide (j = n)) as [->|]; [congruence|]); [by apply (H2 j); [lia|]|by apply (IH j); [lia|]].
  - destruct r as [i|]; [destruct IH as [H1 H2]; split; [done|]|]; intros j q Hj Hq;
      (destruct (decide (j = n)) as [->|]; [congruence|]); [by apply (H2 j); [lia|]|by apply (IH j); [lia|]].
Qed.

(** [i] is the last slot whose process has the pid. *)
Definition last_with_pid (ps : list proc) (pid : Z) (i : nat) (p : proc) : Prop :=
  ps !! i = Some p ∧ p_pid p = pid ∧ ∀ j q, (i < j)%nat → ps !! j = Some q → p_pid q ≠ pid.

Lemma find_pid_spec pid ps : length ps = NPROC →
  match find_pid pid ps with
  | Some i => ∃ p, last_with_pid ps pid i p
  | None => ∀ j q, ps !! j = Some q → p_pid q ≠ pid
  end.
Proof.
  intros Hl. pose proof (find_pid_upto pid ps NPROC) as H. unfold find_pid.
  destruct (foldl _ None (seq 0 NPROC)) as [i|].
  - destruct H as [(p & Hp & Hpid) H]. exists p. split; [done|]. split; [done|].
    intros j q Hj Hq. apply (H j q); [|done]. apply lookup_lt_Some in Hq. lia.
  - intros j q Hq. apply (H j q); [|done]. apply lookup_lt_Some in Hq. lia.
Qed.

Definition push_signal (sgn : signal_t) (p : proc) : proc := p <| p_signaling ::= enqueue sgn |>.

Definition procs_sig (s : kstate F) : Prop := ∀ i p, ks_proc s !! i = Some p → sig_inv (p_signaling p).

(** The process locks are free, or the sender signals itself and takes none. *)
Definition sendable (sgn : signal_t) (pid : Z) (s : kstate F) : Prop :=
  mach_ok (ks_mach s) ∧ length (ks_proc s) = NPROC ∧ procs_sig s ∧
  (sig_sender_pid sgn ≠ pid → ∀ i, (i < NPROC)%nat → lock_free (L_proc i) (ks_mach s)).

Lemma wp_send_signal sgn pid s Q :
  sendable sgn pid s →
  ((∀ i p, ks_proc s !! i = Some p → p_pid p ≠ pid) → Q 2 s) →
  (∀ i p s', last_with_pid (ks_proc s) pid i p →
     sg_count (p_signaling p) < MAX_SIGNALS - 1 →
     s' ≡ upd_procs (alter (push_signal sgn) i) s → Q 0 s') →
  (∀ i p, last_with_pid (ks_proc s) pid i p →
     sg_count (p_signaling p) = MAX_SIGNALS - 1 →
     Q 1 (if decide (sig_sender_pid sgn = pid) then s
          else set_kmach (acq (L_proc i) (ks_mach s)) s)) →
  wp (send_signal sgn pid) s Q.
Proof.
  intros (Hok & Hl & Hsig & Hfree) Q2 Q0 Q1. unfold send_signal. wp_simpl.
  pose proof (find_pid_spec pid (ks_proc s) Hl) as Hfind. destruct (find_pid pid (ks_proc s)) as [i|];
    [|by wp_simpl; apply Q2].
  destruct Hfind as (p & Hlast). pose proof Hlast as (Hp & _ & _). pose proof (Hsig i p Hp) as Hsi.
  assert (i < NPROC)%nat as Hi by (rewrite <- Hl; by eapply lookup_lt_Some).
  assert (in_queue (sg_write (p_signaling p)) (p_signaling p) = true) as Hq.
  { destruct Hsi as [H1 _ H3 H4 H5]. unfold in_queue. rewrite H5, H1. unfold MAX_SIGNALS in *. zlia. }
  pose proof (si_count _ Hsi). destruct (Z.eqb_spec (sig_sender_pid sgn) pid) as [He|He]; cbn [negb]; wp_simpl.
  - eapply wp_getp; [done|]. destruct (Z.ltb_spec (sg_count (p_signaling p) + 1) MAX_SIGNALS).
    + rewrite Hq. wp_simpl. eapply wp_updp; [done|]. wp_simpl. by apply (Q0 i p); [|lia|].
    + wp_simpl. specialize (Q1 i p Hlast ltac:(lia)). by rewrite decide_True in Q1.
  - apply wp_acq; [done|by apply Hfree|]. wp_simpl. eapply wp_getp; [exact Hp|].
    destruct (Z.ltb_spec (sg_count (p_signaling p) + 1) MAX_SIGNALS).
    + rewrite Hq. wp_simpl. eapply wp_updp; [exact Hp|]. wp_simpl.
      apply (wp_rel (L_proc i) s); [done|by apply Hfree|done|]. intros s' Hs'. wp_simpl.
      apply (Q0 i p); [done|lia|]. rewrite Hs'. by destruct s as [[]].
    + wp_simpl. specialize (Q1 i p Hlast ltac:(lia)). by rewrite decide_False in Q1.
Qed.

Lemma push_signal_pending sgn p : sig_inv (p_signaling p) → sg_count (p_signaling p) < MAX_SIGNALS - 1 →
  sig_inv (p_signaling (push_signal sgn p)) ∧
  pending (p_signaling (push_signal sgn p)) = pending (p_signaling p) ++ [sgn].
Proof. intros Hi Hc. split; [apply sig_inv_enqueue|apply pending_enqueue]; done || lia. Qed.

(** ** [alarm] *)

Definition alarm_p (seconds ticks : Z) (p : proc) : proc :=
  if p_alarm_set p =? 1 then
    p <| p_alarm_set := if seconds =? 0 then 0 else 1 |>
      <| p_cycles_at_alarm := u64 (ticks + u32 (seconds * 10)) |>
  else
    p <| p_alarm_set := 1 |> <| p_cycles_at_alarm := u64 (u32 (seconds * 10) + ticks) |>.

Lemma wp_alarm i seconds p s Q :
  mach_ok (ks_mach s) → lock_free (L_proc i) (ks_mach s) → ks_proc s !! i = Some p →
  (∀ s', s' ≡ upd_procs (alter (alarm_p seconds (ks_ticks s)) i) s →
     Q (if p_alarm_set p =? 1 then i32 (u64 (p_cycles_at_alarm p - ks_ticks s) / 10) else 0) s') →
  wp (alarm i seconds) s Q.
Proof.
  intros Hok Hf Hp HQ. unfold alarm. wp_simpl. apply wp_acq; [done|done|]. wp_simpl.
  eapply wp_getp; [exact Hp|].
  assert (∀ g, g p = alarm_p seconds (ks_ticks s) p →
    set_kmach (ks_mach s) (upd_procs (alter g i) (set_kmach (acq (L_proc i) (ks_mach s)) s)) ≡
    upd_procs (alter (alarm_p seconds (ks_ticks s)) i) s) as Hfin.
  { intros g Hg. rewrite <- (upd_procs_alter i g _ s p) by done. by destruct s as [[]]. }
  destruct (p_alarm_set p =? 1) eqn:Ea; wp_simpl.
  - assert (p_alarm_set p = 1) as Ea' by lia.
    unfold when. destruct (seconds =? 0) eqn:Es; wp_simpl.
    + eapply wp_updp; [exact Hp|]. wp_simpl.
      eapply wp_updp; [cbn; by rewrite list_lookup_alter_eq, Hp|]. wp_simpl. rewrite upd_procs_comp.
      rewrite (upd_procs_eq _ (alter (fun p => p <| p_alarm_set := 0 |>
        <| p_cycles_at_alarm := u64 (ks_ticks s + u32 (seconds * 10)) |>) i))
        by (unfold compose; by rewrite list_alter_alter_eq).
      apply (wp_rel (L_proc i) s); [done|done|done|]. intros s' Hs'. wp_simpl. apply HQ. rewrite Hs'.
      apply Hfin. unfold alarm_p. by rewrite Ea, Es.
    + eapply wp_updp; [exact Hp|]. wp_simpl.
      apply (wp_rel (L_proc i) s); [done|done|done|]. intros s' Hs'. wp_simpl. apply HQ. rewrite Hs'.
      apply Hfin. unfold alarm_p. rewrite Ea, Es. unfold setf. cbn. by rewrite Ea'.
  - eapply wp_updp; [exact Hp|]. wp_simpl.
    apply (wp_rel (L_proc i) s); [done|done|done|]. intros s' Hs'. wp_simpl. apply HQ. rewrite Hs'.
    apply Hfin. unfold alarm_p. by rewrite Ea.
Qed.

(** ** Theorems *)

(** C39. The ring buffer is a FIFO queue: storing a signal appends it, taking
    one removes the oldest, and both keep the buffer well-formed. *)
Theorem signal_queue_fifo sg :
  sig_inv sg →
  (∀ x, sg_count sg + 1 < MAX_SIGNALS →
     sig_inv (enqueue x sg) ∧ pending (enqueue x sg) = pending sg ++ [x]) ∧
  (0 < sg_count sg → ∃ x, sg_queue sg !! Z.to_nat (sg_read sg) = Some x ∧
     sig_inv (dequeue sg) ∧ pending sg = x :: pending (dequeue sg)) ∧
  Z.of_nat (length (pending sg)) = sg_count sg.
Proof.
  intros Hi. split; [|split].
  - intros x Hx. split; [by apply sig_inv_enqueue|by apply pending_enqueue].
  - intros Hc. destruct (pending_dequeue sg Hi Hc) as (x & H1 & H2). exists x.
    split; [done|]. split; [by apply sig_inv_dequeue|done].
  - by apply length_pending.
Qed.

(** C34. [send_signal] on every branch: without a process of that pid it returns
    2; with room in the queue of the last such process it appends the signal
    and returns 0; with the queue full (511 signals) it returns 1, and then,
    unless the process signals itself, the receiver's lock stays taken. *)
Theorem send_signal_correct sgn pid s :
  sendable sgn pid s →
  wp (send_signal sgn pid) s (fun r s' =>
    (r = 2 ∧ s' = s ∧ ∀ i p, ks_proc s !! i = Some p → p_pid p ≠ pid) ∨
    (∃ i p, last_with_pid (ks_proc s) pid i p ∧
      ((r = 0 ∧ (Z.of_nat (length (pending (p_signaling p))) < MAX_SIGNALS - 1) ∧
        ∃ p', s' ≡ upd_procs (<[i := p']>) s ∧ sig_inv (p_signaling p') ∧
          pending (p_signaling p') = pending (p_signaling p) ++ [sgn] ∧
          p' = p <| p_signaling := p_signaling p' |>) ∨
       (r = 1 ∧ Z.of_nat (length (pending (p_signaling p))) = MAX_SIGNALS - 1 ∧
        s' = (if decide (sig_sender_pid sgn = pid) then s
              else set_kmach (acq (L_proc i) (ks_mach s)) s))))).
Proof.
  intros Hs. pose proof Hs as (_ & _ & Hsig & _). apply wp_send_signal; [done|by left| |].
  - intros i p s' Hl Hc Hs'. right. exists i, p. split; [done|]. left. split; [done|].
    pose proof Hl as (Hp & _ & _). pose proof (Hsig _ _ Hp) as Hi.
    rewrite length_pending by done. split; [lia|]. exists (push_signal sgn p).
    destruct (push_signal_pending sgn p Hi ltac:(lia)) as [H1 H2].
    split; [|split; [done|split; [done|by destruct p]]]. rewrite Hs'.
    rewrite (upd_procs_eq _ (<[i:=push_signal sgn p]>)); [done|]. by apply alter_as_insert.
  - intros i p Hl Hc. right. exists i, p. split; [done|]. right. split; [done|].
    pose proof Hl as (Hp & _ & _). rewrite length_pending by (by eapply Hsig). split; [lia|done].
Qed.

(** C40. A signal to another process whose queue is full is refused with the
    receiver's lock still held: the next attempt of this hart to take that
    lock, for instance the next pass of its scheduler, panics. *)
Theorem send_signal_full_leaks_lock sgn pid s i p :
  sendable sgn pid s → sig_sender_pid sgn ≠ pid → last_with_pid (ks_proc s) pid i p →
  sg_count (p_signaling p) = MAX_SIGNALS - 1 →
  wp (send_signal sgn pid) s (fun r s' =>
    r = 1 ∧ held (L_proc i) (ks_mach s') ∧ lkm (acquire (L_proc i)) s' = Panic "acquire").
Proof.
  intros Hs Hne (Hp & Hpid & Hlast) Hfull.
  assert (∀ j q, last_with_pid (ks_proc s) pid j q → j = i ∧ q = p) as Huniq.
  { intros j q (Hq & Hqid & Hqlast). destruct (lt_eq_lt_dec i j) as [[Hlt|<-]|Hlt].
    - by destruct (Hlast j q).
    - split; congruence.
    - by destruct (Hqlast i p). }
  apply wp_send_signal; [done| | |].
  - intros H. by destruct (H i p).
  - intros j q s' Hl Hc _. destruct (Huniq j q Hl) as [-> ->]. lia.
  - intros j q Hl _. destruct (Huniq j q Hl) as [-> ->]. rewrite decide_False by done.
    split; [done|]. split; [apply held_acq|].
    assert (acquire (L_proc i) (acq (L_proc i) (ks_mach s)) = Panic "acquire") as Hpanic.
    { apply acquire_held; [apply mach_ok_acq, Hs|apply held_acq]. }
    unfold lkm, onk, onm, zoom. cbn. by rewrite Hpanic.
Qed.

(** [alarm] on every branch: it returns the seconds left of an alarm that
    was set, sets a new deadline of [seconds] seconds, and disarms only for
    [alarm(0)] with an alarm set; [alarm(0)] without one arms it. *)
Theorem alarm_correct i seconds p s :
  mach_ok (ks_mach s) → lock_free (L_proc i) (ks_mach s) → ks_proc s !! i = Some p →
  0 ≤ seconds → seconds * 10 < 2 ^ 32 → 0 ≤ ks_ticks s < 2 ^ 32 →
  wp (alarm i seconds) s (fun r s' =>
    s' ≡ upd_procs (<[i := p <| p_alarm_set := if (p_alarm_set p =? 1) && (seconds =? 0) then 0 else 1 |>
                             <| p_cycles_at_alarm := ks_ticks s + seconds * 10 |>]>) s ∧
    (p_alarm_set p ≠ 1 → r = 0) ∧
    (p_alarm_set p = 1 → ks_ticks s ≤ p_cycles_at_alarm p < ks_ticks s + 10 * 2 ^ 31 →
       r = (p_cycles_at_alarm p - ks_ticks s) / 10)).
Proof.
  intros Hok Hf Hp H1 H2 H3. eapply wp_alarm; [done|done|done|]. intros s' Hs'. split; [|split].
  - rewrite Hs'. erewrite (upd_procs_eq (alter _ i)); [reflexivity|].
    rewrite (alter_as_insert _ i _ p) by done. f_equal. unfold alarm_p.
    assert (u32 (seconds * 10) = seconds * 10) as -> by zlia.
    assert (u64 (ks_ticks s + seconds * 10) = ks_ticks s + seconds * 10) as -> by zlia.
    assert (u64 (seconds * 10 + ks_ticks s) = ks_ticks s + seconds * 10) as -> by zlia.
    by destruct (p_alarm_set p =? 1), (seconds =? 0), p.
  - intros Hne. by destruct (Z.eqb_spec (p_alarm_set p) 1).
  - intros Heq Hc. destruct (Z.eqb_spec (p_alarm_set p) 1); [|done]. zlia.
Qed.

End signals.

(** ** Examples *)

#[local] Existing Instance small_image.

Lemma sg0_inv : sig_inv sg0.
Proof. split; vm_compute; try done; split; done. Qed.

Lemma table_sig me : procs_sig (table_ks me).
Proof.
  intros i p Hp. assert (p ∈ table_procs) as Hin by (by eapply list_elem_of_lookup_2).
  unfold table_procs in Hin. rewrite elem_of_app, !elem_of_cons in Hin.
  destruct Hin as [[->|[->|Hn]]|Hr]; [apply sg0_inv|apply sg0_inv|by apply not_elem_of_nil in Hn|].
  apply elem_of_replicate in Hr as [-> _]. apply sg0_inv.
Qed.

Lemma table_sendable sgn pid me : sendable sgn pid (table_ks me).
Proof.
  split; [apply table_mach_ok|]. split; [reflexivity|]. split; [apply table_sig|].
  intros _ i Hi. exists "proc"%string. apply table_locks_free, elem_of_seq. lia.
Qed.

Lemma signal_queue_fifo_witness :
  sig_inv sg0 ∧ pending (enqueue (Signal 1 7 42) sg0) = [Signal 1 7 42].
Proof.
  split; [apply sg0_inv|]. destruct (signal_queue_fifo sg0 sg0_inv) as (H & _ & _).
  destruct (H (Signal 1 7 42)) as [_ ->]; [by vm_compute|]. reflexivity.
Defined.

Lemma send_signal_correct_witness :
  wp (send_signal (Signal 1 1 42) 2) (table_ks (Some 0%nat)) (fun r s' => r = 0).
Proof.
  eapply wp_mono; [apply (send_signal_correct (Signal 1 1 42) 2 (table_ks (Some 0%nat))), table_sendable|].
  cbn beta. intros r s' [(_ & _ & H)|(i & p & (Hp & Hpid & _) & [(-> & _)|(_ & Hfull & _)])].
  - by destruct (H 1%nat _ eq_refl).
  - reflexivity.
  - exfalso. revert Hpid Hfull. destruct i as [|[|i]]; [by injection Hp as <-|by injection Hp as <-|].
    change (replicate 62 proc0 !! i = Some p) in Hp. by apply lookup_replicate in Hp as [-> _].
Defined.

(** Process 2 with a full queue. *)
Definition full_ks : kstate unit :=
  upd_procs (<[1%nat := proc0 <| p_pid := 2 |> <| p_signaling := sg0 <| sg_count := 511 |> <| sg_write := 511 |> |>]>)
    (table_ks (Some 0%nat)).

Lemma full_sendable : sendable (Signal 1 1 42) 2 full_ks.
Proof.
  destruct (table_sendable (Signal 1 1 42) 2 (Some 0%nat)) as (H1 & H2 & H3 & H4).
  split; [done|]. split; [reflexivity|]. split; [|done]. intros i p Hp.
  apply lookup_insert_cases in Hp as [[_ ->]|[_ Hp]]; [|by eapply H3].
  split; vm_compute; try done; split; done.
Qed.

Lemma send_signal_full_leaks_lock_witness :
  wp (send_signal (Signal 1 1 42) 2) full_ks (fun r s' =>
    r = 1 ∧ lkm (acquire (L_proc 1)) s' = Panic "acquire").
Proof.
  eapply wp_mono; [eapply (send_signal_full_leaks_lock (Signal 1 1 42) 2 full_ks 1 _ full_sendable)|].
  - done.
  - split; [reflexivity|]. split; [reflexivity|]. intros j q Hj Hq.
    apply lookup_insert_cases in Hq as [[<- _]|[_ Hq]]; [lia|].
    destruct j as [|[|j]]; [lia|lia|]. change (replicate 62 proc0 !! j = Some q) in Hq.
    apply lookup_replicate in Hq as [-> _]. done.
  - reflexivity.
  - cbn beta. intros r s' (-> & _ & H). exact (conj eq_refl H).
Defined.

Lemma alarm_correct_witness :
  wp (alarm 0 5) (table_ks (Some 0%nat)) (fun r s' =>
    r = 0 ∧ p_cycles_at_alarm <$> ks_proc s' !! 0%nat = Some 150).
Proof.
  eapply wp_mono.
  - eapply (alarm_correct 0 5 _ (table_ks (Some 0%nat))); [apply table_mach_ok| |reflexivity|lia|lia|].
    + exists "proc"%string. apply table_locks_free, elem_of_seq. unfold NPROC. lia.
    + cbn. lia.
  - cbn beta. intros r s' (Hs' & Hr & _). split; [by apply Hr|]. rewrite Hs'. reflexivity.
Defined.
