(* ===== verification/Exit.v ===== *)
(** * Exiting (kernel/proc.c)

    [reparent], [exit] and [exit_from_signal].  The file system enters through
    [FileLaws]: while it is at rest ([fs_idle]) the calls that exit makes return
    without sleeping and leave the process table alone. *)

From Stdlib Require Import ZArith Lia.
From stdpp Require Import base gmap strings numbers list.
From S2P Require Import Prelude Spinlock Mem Kstring Kalloc Vm Proc ProcLife ProcFacts ProcOps.
Local Open Scope xv6_scope.

Section reparent.
Context `{KI : KernelImage} {F : Type}.
Implicit Types s : kstate F.

(** ** [reparent] *)

Definition adopt (i : nat) (init : option nat) (p : proc) : proc :=
  if decide (p_parent p = Some i) then p <| p_parent := init |> else p.

Definition chan_of (p : option nat) : chan := match p with Some k => C_proc k | None => C_null end.

(** Whether one of the slots [l] holds a child of [i]. *)
Definition has_child (i : nat) (l : list nat) (ps : list proc) : bool :=
  existsb (fun j => bool_decide (p_parent <$> ps !! j = Some (Some i))) l.

Definition reparented (i : nat) (init me : option nat) (l : list nat) (ps : list proc) : list proc :=
  let ps' := alters (fun _ => adopt i init) l ps in
  if has_child i l ps then imap (wake (chan_of init) me) ps' else ps'.

Lemma wake_parent c me j p : p_parent (wake c me j p) = p_parent p.
Proof. unfold wake. by case_decide. Qed.

Lemma adopt_wake i init c me j p : adopt i init (wake c me j p) = wake c me j (adopt i init p).
Proof. unfold adopt. rewrite wake_parent. unfold wake. repeat case_decide; try done; cbn in *; tauto. Qed.

Lemma wake_idem c me j p : wake c me j (wake c me j p) = wake c me j p.
Proof. unfold wake. repeat case_decide; try done; cbn in *; naive_solver. Qed.

Lemma alter_imap_wake i init c me j ps :
  alter (adopt i init) j (imap (wake c me) ps) = imap (wake c me) (alter (adopt i init) j ps).
Proof.
  apply list_eq. intros k. rewrite list_lookup_imap. destruct (decide (k = j)) as [->|Hne].
  - rewrite !list_lookup_alter_eq, list_lookup_imap. destruct (ps !! j); [|done]. cbn.
    by rewrite adopt_wake.
  - rewrite !list_lookup_alter_ne, list_lookup_imap by done. done.
Qed.

Lemma alters_imap_wake i init c me l ps :
  alters (fun _ => adopt i init) l (imap (wake c me) ps) = imap (wake c me) (alters (fun _ => adopt i init) l ps).
Proof.
  revert ps. induction l as [|j l IH]; intros ps; [done|].
  change (alters ?f (j :: l) ?ps) with (alters f l (alter (f j) j ps)). cbn beta.
  by rewrite alter_imap_wake, IH.
Qed.

Lemma imap_wake_idem c me ps : imap (wake c me) (imap (wake c me) ps) = imap (wake c me) ps.
Proof.
  apply list_eq. intros k. rewrite !list_lookup_imap. destruct (ps !! k); [|done]. cbn. by rewrite wake_idem.
Qed.

Lemma has_child_ext i l ps ps' :
  (∀ j, j ∈ l → p_parent <$> ps !! j = p_parent <$> ps' !! j) → has_child i l ps = has_child i l ps'.
Proof.
  induction l as [|j l IH]; intros H; [done|]. cbn. rewrite (H j) by (by left). f_equal.
  apply IH. intros k Hk. apply H. by right.
Qed.

Lemma wp_reparent_loop me i l s :
  procs_ok me s → cur (ks_mach s) = me → NoDup l → (∀ j, j ∈ l → (j < NPROC)%nat) →
  wp (for_each l (fun j =>
    pp ← getp j;
    when (bool_decide (p_parent pp = Some i))
      (init ← gets ks_initproc;
       updp j (fun pp => pp <| p_parent := init |>);;
       wakeup (match init with Some k => C_proc k | None => C_null end)))) s
    (fun _ s' => s' ≡ upd_procs (reparented i (ks_initproc s) me l) s).
Proof.
  intros Hok Hcur Hnd Hl. revert s Hok Hcur. induction l as [|j l IH]; intros s Hok Hcur; cbn [for_each].
  { wp_simpl. symmetry. apply upd_procs_same. }
  apply NoDup_cons in Hnd as [Hj Hnd]. wp_simpl.
  destruct (procs_lookup me s j Hok) as [p Hp]; [apply Hl; by left|]. eapply wp_getp; [done|].
  assert (∀ k, k ∈ l → (k < NPROC)%nat) as Hl' by (intros; apply Hl; by right).
  assert (∀ ps, ks_proc s = ps → ∀ k, k ∈ l →
    p_parent <$> alter (adopt i (ks_initproc s)) j ps !! k = p_parent <$> ps !! k) as Hpar.
  { intros ps _ k Hk. rewrite list_lookup_alter_ne; [done|]. by intros ->. }
  unfold when. case_bool_decide as Hch; wp_simpl.
  - eapply wp_updp; [done|]. set (s1 := upd_procs _ s).
    assert (s1 ≡ upd_procs (alter (adopt i (ks_initproc s)) j) s) as Hs1.
    { unfold s1. erewrite upd_procs_alter; [reflexivity|done|]. unfold adopt. by rewrite decide_True. }
    assert (procs_ok me s1) as Hok1.
    { rewrite Hs1. apply procs_ok_upd; [|done]. intros. apply length_alter. }
    assert (cur (ks_mach s1) = me) as Hcur1 by (by rewrite Hs1).
    apply wp_wakeup; rewrite Hcur1; [done|]. intros s2 Hs2. assert (s2 ≡ upd_procs (imap (wake (chan_of (ks_initproc s)) me)
      ∘ alter (adopt i (ks_initproc s)) j) s) as Hs2'.
    { rewrite Hs2, Hs1. by rewrite upd_procs_comp. }
    eapply wp_mono; [apply IH; [done|done| |]|].
    + rewrite Hs2'. apply procs_ok_upd; [|done]. intros. unfold compose. by rewrite length_imap, length_alter.
    + by rewrite Hs2'.
    + cbn beta. intros _ s3 Hs3. rewrite Hs3. rewrite Hs2' at 2.
      assert (ks_initproc s2 = ks_initproc s) as -> by (by rewrite Hs2'). rewrite upd_procs_comp.
      erewrite upd_procs_eq; [reflexivity|]. unfold compose, reparented. cbn [has_child existsb].
      rewrite bool_decide_true by (by rewrite Hp; cbn; congruence). cbn [orb].
      change (alters (fun _ => adopt i (ks_initproc s)) (j :: l) (ks_proc s)) with
        (alters (fun _ => adopt i (ks_initproc s)) l (alter (adopt i (ks_initproc s)) j (ks_proc s))).
      rewrite alters_imap_wake. destruct (has_child i l _); [apply imap_wake_idem|done].
  - eapply wp_mono; [by apply IH|]. cbn beta. intros _ s3 Hs3. rewrite Hs3.
    erewrite upd_procs_eq; [reflexivity|]. unfold reparented. cbn [has_child existsb].
    rewrite bool_decide_false by (rewrite Hp; cbn; congruence). cbn [orb].
    change (alters (fun _ => adopt i (ks_initproc s)) (j :: l) (ks_proc s)) with
      (alters (fun _ => adopt i (ks_initproc s)) l (alter (adopt i (ks_initproc s)) j (ks_proc s))).
    rewrite (alter_id (adopt i (ks_initproc s)) j (ks_proc s) p); [done|done|].
    unfold adopt. by rewrite decide_False.
Qed.

End reparent.

(** ** What the file system promises *)

(** [w'] is [w] with its process table changed by [f]; only the state of the
    file system and memory may differ otherwise. *)
Record wsame {F} (f : list proc → list proc) (w w' : world F) : Prop := {
  ws_proc : ks_proc (w_k w') = f (ks_proc (w_k w));
  ws_init : ks_initproc (w_k w') = ks_initproc (w_k w);
  ws_nextpid : ks_nextpid (w_k w') = ks_nextpid (w_k w);
  ws_ticks : ks_ticks (w_k w') = ks_ticks (w_k w);
  ws_stacks : ks_stacks (w_k w') = ks_stacks (w_k w);
  ws_mach : ks_mach (w_k w') ≡ ks_mach (w_k w);
  ws_env : w_env w' = w_env w
}.

Class FileLaws (F : Type) `{FO : FileOps F} := {
  fs_idle : world F → Prop;
  fs_idle_procs : ∀ f w, fs_idle w → fs_idle (World (upd_procs f (w_k w)) (w_env w));
  fs_idle_equiv : ∀ s s' e, s' ≡ s → fs_idle (World s e) → fs_idle (World s' e);
  fileclose_law : ∀ f w, fs_idle w → wp (fileclose f) w (fun _ w' => wsame id w w' ∧ fs_idle w');
  iput_law : ∀ ip w, fs_idle w → wp (iput ip) w (fun _ w' => wsame id w w' ∧ fs_idle w');
  begin_op_law : ∀ w, fs_idle w → wp begin_op w (fun _ w' => wsame id w w' ∧ fs_idle w');
  end_op_law : ∀ w, fs_idle w → wp end_op w (fun _ w' => wsame id w w' ∧ fs_idle w')
}.

Section exit.
Context `{KI : KernelImage} {F : Type} `{FO : FileOps F} `{FL : !FileLaws F}.
Implicit Types w : world F.

Lemma wsame_trans f g w1 w2 w3 : wsame f w1 w2 → wsame g w2 w3 → wsame (g ∘ f) w1 w3.
Proof.
  intros [A1 A2 A3 A4 A5 A6 A7] [B1 B2 B3 B4 B5 B6 B7].
  split; try congruence. unfold compose. by rewrite B1, A1.
Qed.

Lemma wsame_ext f g w w' : f (ks_proc (w_k w)) = g (ks_proc (w_k w)) → wsame f w w' → wsame g w w'.
Proof. intros H []. split; try done. congruence. Qed.

Lemma wsame_equiv f (s s' : kstate F) e : s' ≡ upd_procs f s → wsame f (World s e) (World s' e).
Proof.
  intros [[Hm _] Hr]. unfold rest in Hr. cbn in Hr. injection Hr as H1 H2 H3 H4 H5 H6 H7.
  split; cbn; done.
Qed.

Lemma wsame_upd f w : wsame f w (World (upd_procs f (w_k w)) (w_env w)).
Proof. by destruct w as [s e]; apply wsame_equiv. Qed.

Lemma wsame_procs_ok f me w w' :
  (∀ ps, length (f ps) = length ps) → wsame f w w' → procs_ok me (w_k w) → procs_ok me (w_k w').
Proof.
  intros Hf [H1 _ _ _ _ Hm _] [P1 P2 P3]. split; [by rewrite Hm|by rewrite H1, Hf|].
  intros i. rewrite Hm. apply P3.
Qed.

(** ** Closing the files *)

Definition close_fds (l : list nat) (p : proc) : proc :=
  p <| p_ofile ::= fun o => foldl (fun o fd => <[fd := None]> o) o l |>.

Lemma clear_fds (l : list nat) (o : list (option nat)) :
  (∀ j, (j < length o)%nat → j ∈ l ∨ o !! j = Some None) →
  foldl (fun o fd => <[fd := None]> o) o l = replicate (length o) None.
Proof.
  revert o. induction l as [|k l IH]; intros o H; cbn [foldl].
  - apply list_eq. intros j. destruct (decide (j < length o)%nat) as [Hj|Hj].
    + rewrite lookup_replicate_2 by done. by destruct (H j Hj) as [?%not_elem_of_nil|].
    + rewrite !lookup_ge_None_2; rewrite ?length_replicate; lia || done.
  - rewrite IH, length_insert; [done|]. intros j Hj. rewrite length_insert in Hj.
    destruct (decide (j = k)) as [->|Hne]; [right; by apply list_lookup_insert_eq|].
    rewrite list_lookup_insert_ne by done.
    destruct (H j Hj) as [[?|?]%elem_of_cons|?]; [done|by left|by right].
Qed.

Lemma wp_close_loop i l w p :
  ks_proc (w_k w) !! i = Some p → length (p_ofile p) = NOFILE → (∀ fd, fd ∈ l → (fd < NOFILE)%nat) → fs_idle w →
  wp (for_each l (fun fd =>
    p ← onw (getp i);
    match p_ofile p !! fd with
    | Some (Some f) =>
      fileclose f;;
      onw (updp i (fun p => p <| p_ofile ::= <[fd := None]> |>))
    | Some None => ret tt
    | None => fault (Z.of_nat fd)
    end)) w (fun _ w' => wsame (alter (close_fds l) i) w w' ∧ fs_idle w').
Proof.
  revert w p. induction l as [|fd l IH]; intros [s e] p Hp Hlen Hl Hid; cbn [for_each w_k] in *.
  { wp_simpl. split; [|done]. eapply (wsame_ext id); [|by split].
    symmetry. apply (alter_id _ _ _ p); [done|by destruct p]. }
  assert (fd < NOFILE)%nat as Hfd by (apply Hl; by left).
  assert (∀ fd, fd ∈ l → (fd < NOFILE)%nat) as Hl' by (intros; apply Hl; by right).
  wp_simpl. eapply wp_getp; [done|].
  destruct (lookup_lt_is_Some_2 (p_ofile p) fd) as [o Ho]; [lia|]. rewrite Ho.
  destruct o as [f|]; wp_simpl.
  - eapply wp_mono; [by apply fileclose_law|]. cbn beta. intros _ [s1 e1] [Hw1 Hid1]. wp_simpl.
    assert (ks_proc s1 !! i = Some p) as Hp1 by (pose proof (ws_proc _ _ _ Hw1) as H; cbn in H; by rewrite H).
    eapply wp_updp; [exact Hp1|].
    set (g := fun p : proc => p <| p_ofile ::= <[fd := None]> |>). eapply wp_mono.
    + apply (IH (World (upd_procs (alter g i) s1) e1) (g p)); [|by cbn; rewrite length_insert|done|by apply (fs_idle_procs _ (World s1 e1))].
      cbn. by rewrite list_lookup_alter_eq, Hp1.
    + cbn beta. intros _ w2 [Hw2 Hid2]. split; [|done].
      pose proof (wsame_trans _ _ _ _ _ Hw1 (wsame_upd (alter g i) (World s1 e1))) as H.
      pose proof (wsame_trans _ _ _ _ _ H Hw2) as H'. eapply wsame_ext; [|exact H'].
      unfold compose, id. rewrite list_alter_alter_eq.
      rewrite (alter_as_insert _ i _ p), (alter_as_insert _ i _ p) by done. by destruct p.
  - eapply wp_mono; [by apply (IH (World s e) p)|]. cbn beta. intros _ w2 [Hw2 Hid2]. split; [|done].
    eapply wsame_ext; [|exact Hw2]. rewrite (alter_as_insert _ i _ p), (alter_as_insert _ i _ p) by done.
    f_equal. unfold close_fds, setf. cbn [foldl p_ofile]. by rewrite (list_insert_id (p_ofile p)).
Qed.

(** The table entry after files and directory are gone. *)
Definition closed (p : proc) : proc := p <| p_ofile := replicate NOFILE None |> <| p_cwd := None |>.

Lemma wp_close_all {A} i w p ip (k : M (world F) A) (Q : A → world F → Prop) :
  ks_proc (w_k w) !! i = Some p → length (p_ofile p) = NOFILE → p_cwd p = Some ip → fs_idle w →
  (∀ w', wsame (alter closed i) w w' → wp k w' Q) →
  wp (close_files i;; drop_cwd i;; k) w Q.
Proof.
  destruct w as [s e]. intros Hp Hlen Hcwd Hid HQ. cbn [w_k] in Hp. unfold close_files, drop_cwd. wp_simpl. eapply wp_mono.
  { apply (wp_close_loop i _ (World s e) p Hp Hlen); [|done]. intros fd Hfd. apply elem_of_seq in Hfd. lia. }
  cbn beta. intros _ w1 [Hw1 Hid1]. wp_simpl.
  eapply wp_mono; [by apply begin_op_law|]. cbn beta. intros _ [s2 e2] [Hw2 Hid2]. wp_simpl.
  pose proof (wsame_trans _ _ _ _ _ Hw1 Hw2) as H2.
  assert (ks_proc s2 !! i = Some (close_fds (seq 0 NOFILE) p)) as Hp2.
  { change (ks_proc s2) with (ks_proc (w_k (World s2 e2))). rewrite (ws_proc _ _ _ H2). unfold compose, id. cbn [w_k]. by rewrite list_lookup_alter_eq, Hp. }
  eapply wp_getp; [exact Hp2|]. change (p_cwd (close_fds (seq 0 NOFILE) p)) with (p_cwd p). rewrite Hcwd.
  wp_simpl. eapply wp_mono; [by apply iput_law|]. cbn beta. intros _ w3 [Hw3 Hid3]. wp_simpl.
  eapply wp_mono; [by apply end_op_law|]. cbn beta. intros _ [s4 e4] [Hw4 Hid4]. wp_simpl.
  pose proof (wsame_trans _ _ _ _ _ (wsame_trans _ _ _ _ _ H2 Hw3) Hw4) as H4.
  eapply wp_updp.
  { change (ks_proc s4) with (ks_proc (w_k (World s4 e4))). rewrite (ws_proc _ _ _ Hw4), (ws_proc _ _ _ Hw3). exact Hp2. }
  apply HQ.
  pose proof (wsame_trans _ _ _ _ _ H4 (wsame_upd (alter (fun p => p <| p_cwd := None |>) i) (World s4 e4))) as H5.
  eapply wsame_ext; [|exact H5]. unfold compose, id. rewrite list_alter_alter_eq.
  rewrite (alter_as_insert _ i _ p), (alter_as_insert _ i _ p) by done. f_equal.
  unfold compose, closed, close_fds, setf. cbn [p_ofile p_cwd].
  rewrite clear_fds, Hlen; [done|]. intros j Hj. left. apply elem_of_seq. lia.
Qed.

(** ** Passing on the children and waking the parent *)

Definition bequeath (i : nat) (init me parent : option nat) (ps : list proc) : list proc :=
  imap (wake (chan_of parent) me) (reparented i init me (seq 0 NPROC) ps).

Lemma length_reparented i init me l ps : length (reparented i init me l ps) = length ps.
Proof. unfold reparented. case_match; rewrite ?length_imap; apply length_alters. Qed.

Lemma length_bequeath i init me parent ps : length (bequeath i init me parent ps) = length ps.
Proof. unfold bequeath. by rewrite length_imap, length_reparented. Qed.

Lemma procs_ok_acq me lk (s : kstate F) :
  (∀ i, lk ≠ L_proc i) → procs_ok me s → procs_ok me (set_kmach (acq lk (ks_mach s)) s).
Proof.
  intros Hlk [H1 H2 H3]. split; [by apply mach_ok_acq|done|].
  intros j Hj Hne. apply lock_free_acq; [by apply Hlk|by apply H3].
Qed.

Lemma lookup_reparented i init me ps j p : (j < NPROC)%nat → ps !! j = Some p →
  reparented i init me (seq 0 NPROC) ps !! j =
    Some (if has_child i (seq 0 NPROC) ps then wake (chan_of init) me j (adopt i init p) else adopt i init p).
Proof.
  intros Hj Hp. unfold reparented.
  assert (alters (fun _ => adopt i init) (seq 0 NPROC) ps !! j = Some (adopt i init p)) as H.
  { rewrite lookup_alters, decide_True, Hp; [done|apply elem_of_seq; lia|apply NoDup_seq]. }
  case_match; [|done]. by rewrite list_lookup_imap, H.
Qed.

Lemma wp_bequeath {A} me i (s : kstate F) e p (k : M (world F) A) Q :
  procs_ok me s → cur (ks_mach s) = me → lock_free L_wait (ks_mach s) →
  ks_proc s !! i = Some p → p_parent p ≠ Some i →
  (∀ s', s' ≡ upd_procs (bequeath i (ks_initproc s) me (p_parent p))
              (set_kmach (acq L_wait (ks_mach s)) s) → wp k (World s' e) Q) →
  wp (onw (lkm (acquire L_wait));; onw (reparent i);; q ← onw (getp i);
      onw (wakeup (parent_chan q));; k) (World s e) Q.
Proof.
  intros Hok Hcur Hw Hp Hself HQ. pose proof (lookup_lt_NPROC _ _ _ _ Hok Hp) as Hi.
  wp_simpl. apply wp_acq; [apply Hok|done|]. set (s1 := set_kmach _ s). wp_simpl.
  assert (procs_ok me s1) as Hok1 by (by apply procs_ok_acq).
  assert (cur (ks_mach s1) = me) as Hcur1 by (etrans; [apply cur_acq|done]).
  unfold reparent. eapply wp_mono.
  { apply (wp_reparent_loop me); [done|done|apply NoDup_seq|]. intros j Hj. apply elem_of_seq in Hj. lia. }
  cbn beta. intros _ s2 Hs2. wp_simpl.
  change (ks_initproc s1) with (ks_initproc s) in Hs2.
  pose proof (lookup_reparented i (ks_initproc s) me (ks_proc s) i p Hi Hp) as Hlk.
  set (q := if has_child _ _ _ then _ else _) in Hlk.
  eapply (wp_getp i q); [rewrite Hs2; exact Hlk|].
  assert (p_parent q = p_parent p) as Hq.
  { unfold q, adopt. rewrite decide_False by done. case_match; [apply wake_parent|done]. }
  assert (procs_ok me s2) as Hok2.
  { rewrite Hs2. apply procs_ok_upd; [|done]. intros. apply length_reparented. }
  assert (cur (ks_mach s2) = me) as Hcur2 by (by rewrite Hs2).
  wp_simpl. apply wp_wakeup; rewrite Hcur2; [done|]. intros s3 Hs3. apply HQ. rewrite Hs3, Hs2, upd_procs_comp.
  unfold parent_chan. rewrite Hq. done.
Qed.

(** ** [exit_from_signal] *)

Definition zombie (status : Z) (p : proc) : proc := p <| p_xstate := status |> <| p_state := ZOMBIE |>.

(** The table after process [i], run by this hart, has exited. *)
Definition exited (i : nat) (init parent : option nat) (status : Z) (ps : list proc) : list proc :=
  alter (zombie status) i (bequeath i init (Some i) parent (alter closed i ps)).

(** The state in which a process may exit. *)
Record can_exit (i : nat) (w : world F) (p : proc) : Prop := {
  ce_proc : ks_proc (w_k w) !! i = Some p;
  ce_procs : procs_ok (Some i) (w_k w);
  ce_cur : cur (ks_mach (w_k w)) = Some i;
  ce_init : ks_initproc (w_k w) ≠ Some i;
  ce_wait : lock_free L_wait (ks_mach (w_k w));
  ce_files : length (p_ofile p) = NOFILE;
  ce_cwd : is_Some (p_cwd p);
  ce_self : p_parent p ≠ Some i;
  ce_idle : fs_idle w
}.

(** Files, directory, children, parent: up to the moment [k] at which the
    process becomes a zombie, under [wait_lock]. *)
Lemma wp_depart {A} i s e p (k : M (world F) A) Q :
  can_exit i (World s e) p →
  (∀ s', ks_mach s' = acq L_wait (ks_mach s) → is_Some (ks_proc s' !! i) →
     wsame (bequeath i (ks_initproc s) (Some i) (p_parent p) ∘ alter closed i)
       (World s e) (World (set_kmach (ks_mach s) s') e) → wp k (World s' e) Q) →
  wp (close_files i;; drop_cwd i;; onw (lkm (acquire L_wait));; onw (reparent i);; q ← onw (getp i);
      onw (wakeup (parent_chan q));; k) (World s e) Q.
Proof.
  intros [Hp Hok Hcur Hinit Hwait Hlen [ip Hcwd] Hself Hid] HQ. cbn [w_k] in *.
  eapply (wp_close_all i (World s e) p ip); [done|done|done|done|]. intros [s1 e1] Hw1.
  assert (procs_ok (Some i) s1) as Hok1.
  { apply (wsame_procs_ok _ _ _ _ (fun ps => length_alter closed ps i) Hw1 Hok). }
  pose proof (ws_init _ _ _ Hw1) as Hi1. pose proof (ws_mach _ _ _ Hw1) as Hm1.
  pose proof (ws_env _ _ _ Hw1) as He1. cbn in Hi1, Hm1, He1. subst e1.
  assert (ks_proc s1 !! i = Some (closed p)) as Hp1.
  { pose proof (ws_proc _ _ _ Hw1) as H. cbn in H. by rewrite H, list_lookup_alter_eq, Hp. }
  assert (lock_free L_wait (ks_mach s1)) as Hwait1 by (by rewrite Hm1).
  apply (wp_bequeath (Some i) i s1 e (closed p)); [done|by rewrite Hm1|done|done|done|].
  intros s2 Hs2. change (p_parent (closed p)) with (p_parent p) in Hs2. rewrite Hi1 in Hs2. apply HQ.
  - apply nested_equiv; [by apply nested_push, Hok|]. rewrite Hs2, <- Hm1. done.
  - rewrite Hs2. apply lookup_lt_is_Some_2. cbn. rewrite length_bequeath. by eapply lookup_lt_Some.
  - eapply wsame_trans; [exact Hw1|]. apply wsame_equiv. rewrite <- (set_kmach_back (acq L_wait (ks_mach s1))).
    by apply set_kmach_equiv.
Qed.

Lemma wp_exit_from_signal status i w p Q :
  can_exit i w p →
  (∀ w', wsame (exited i (ks_initproc (w_k w)) (p_parent p) status) w w' → Q tt w') →
  wp (exit_from_signal status i) w Q.
Proof.
  intros Hce HQ. destruct w as [s e]. pose proof (ce_init _ _ _ Hce) as Hinit. cbn [w_k] in *.
  unfold exit_from_signal. wp_simpl. rewrite bool_decide_false by congruence. wp_simpl.
  rewrite <- wp_bind. apply (wp_depart i s e p); [done|]. intros s2 Hm2 [q Hq] Hw. wp_simpl.
  eapply wp_updp; [exact Hq|]. wp_simpl.
  apply (wp_rel L_wait s); [apply Hce|apply Hce|by change (ks_mach (upd_procs ?f s2)) with (ks_mach s2); rewrite Hm2|].
  intros s3 Hs3. apply HQ. eapply wsame_ext; [|eapply wsame_trans; [exact Hw|]].
  2:{ apply wsame_equiv. instantiate (1 := alter (zombie status) i). rewrite Hs3. by destruct s2 as [[]]. }
  done.
Qed.

(** What the exit of process [i] does to another process: its children go to
    init, and its parent (and init, if there are children) is woken. *)
Definition heir (i : nat) (init parent : option nat) (kids : bool) (j : nat) (p : proc) : proc :=
  wake (chan_of parent) (Some i) j
    (if kids then wake (chan_of init) (Some i) j (adopt i init p) else adopt i init p).

Lemma lookup_bequeath i init parent ps j p : length ps = NPROC → ps !! j = Some p →
  bequeath i init (Some i) parent ps !! j = Some (heir i init parent (has_child i (seq 0 NPROC) ps) j p).
Proof.
  intros Hl Hp. unfold bequeath. rewrite list_lookup_imap.
  rewrite (lookup_reparented _ _ _ _ _ p); [done| |done]. rewrite <- Hl. by eapply lookup_lt_Some.
Qed.

Lemma has_child_alter i l g k ps : (∀ p, p_parent (g p) = p_parent p) →
  has_child i l (alter g k ps) = has_child i l ps.
Proof.
  intros Hg. apply has_child_ext. intros j _. destruct (decide (j = k)) as [->|].
  - rewrite list_lookup_alter_eq. destruct (ps !! k); [|done]. cbn. by rewrite Hg.
  - by rewrite list_lookup_alter_ne.
Qed.

Lemma lookup_exited_other i init parent status ps j p : length ps = NPROC → j ≠ i → ps !! j = Some p →
  exited i init parent status ps !! j = Some (heir i init parent (has_child i (seq 0 NPROC) ps) j p).
Proof.
  intros Hl Hne Hp. unfold exited. rewrite list_lookup_alter_ne by done.
  rewrite (lookup_bequeath _ _ _ _ _ p).
  - by rewrite has_child_alter.
  - by rewrite length_alter.
  - by rewrite list_lookup_alter_ne.
Qed.

Lemma lookup_exited_self i init parent status ps p : length ps = NPROC → p_parent p ≠ Some i → ps !! i = Some p →
  exited i init parent status ps !! i = Some (zombie status (closed p)).
Proof.
  intros Hl Hne Hp. unfold exited. rewrite list_lookup_alter_eq.
  rewrite (lookup_bequeath _ _ _ _ _ (closed p)); [|by rewrite length_alter|by rewrite list_lookup_alter_eq, Hp].
  cbn [fmap option_fmap option_map]. do 2 f_equal.
  assert (∀ c q, wake c (Some i) i q = q) as Hw.
  { intros c q. unfold wake. rewrite decide_False; [done|]. by intros [? _]. }
  unfold heir. rewrite !Hw. unfold adopt. rewrite decide_False by done. by case_match.
Qed.

End exit.
