(* ===== verification/Signals.v ===== *)
(** * Signal delivery and scheduling (kernel/proc.c)

    [handle_signals] takes the queued signals one by one: those ignored are
    dropped, a fatal one ends the process.  [sched_slot], the body of the
    scheduler's loop, decides about the alarm. *)

From Stdlib Require Import ZArith Lia.
From stdpp Require Import base gmap strings numbers list.
From S2P Require Import Prelude Spinlock Mem Kstring Kalloc Vm Proc ProcLife ProcFacts ProcOps SigQueue Exit.
Local Open Scope xv6_scope.

Section words.
Context `{KI : KernelImage}.

(** ** The trapframe as words *)

Fixpoint words (m : gmap Z Z) (a : Z) (n : nat) : list Z :=
  match n with O => [] | S n => load64 m a :: words m (a + 8) n end.

Lemma wp_ld_words a n s Q :
  (n = 0%nat ∨ in_ram a (8 * Z.of_nat n) = true) → Q (words (k_mem s) a n) s → wp (ld_words a n) s Q.
Proof.
  revert a Q. induction n as [|n IH]; intros a Q Hr HQ; cbn [ld_words]; [done|].
  destruct Hr as [?|Hr]; [done|]. wp_simpl. apply wp_ld64; [eapply in_ram_sub; [done|lia|lia]|].
  wp_simpl. apply IH; [|done]. destruct n; [by left|right]. eapply in_ram_sub; [done|lia|lia].
Qed.

Fixpoint put_words (m : gmap Z Z) (a : Z) (ws : list Z) : gmap Z Z :=
  match ws with [] => m | w :: ws => put_words (store64 m a w) (a + 8) ws end.

Lemma wp_st_words a ws s Q :
  (ws = [] ∨ writable a (8 * Z.of_nat (length ws)) = true) →
  Q tt (set_mem (put_words (k_mem s) a ws) s) → wp (st_words a ws) s Q.
Proof.
  revert a s. induction ws as [|w ws IH]; intros a s Hr HQ; cbn [st_words put_words length] in *.
  { by rewrite (kst_mem_id s) in HQ. }
  destruct Hr as [?|Hr]; [done|]. wp_simpl. apply wp_st64; [eapply writable_sub; [done|lia|lia]|].
  apply IH; [|done]. destruct ws; [by left|right]. eapply writable_sub; [done|lia|cbn [length]; lia].
Qed.

(** Storing what was loaded changes no byte. *)
Lemma store_load_same m a x : mem_ok m → byte_at (store64 m a (load64 m a)) x = byte_at m x.
Proof.
  Local Transparent load64 read_bytes.
  intros Hm. destruct (decide (a ≤ x < a + 8)) as [Hx|Hx].
  - rewrite store64_write. unfold load64.
    pose proof (le_bytes_value (read_bytes m a 8) (read_bytes_range m a 8 Hm)) as Hle.
    rewrite length_read_bytes in Hle. rewrite Hle.
    replace x with (a + Z.of_nat (Z.to_nat (x - a))) by lia.
    apply byte_at_write_in, lookup_read_bytes. lia.
  - apply byte_at_store64_out. lia.
Qed.

Lemma put_words_same m0 m a n x :
  mem_ok m0 → (∀ y, byte_at m y = byte_at m0 y) →
  byte_at (put_words m a (words m0 a n)) x = byte_at m0 x.
Proof.
  intros Hm0. revert m a. induction n as [|n IH]; intros m a Hm; cbn [put_words words]; [done|].
  apply IH. intros y. rewrite <- (store_load_same m0 a y Hm0).
  destruct (decide (a ≤ y < a + 8)) as [Hy|Hy].
  - unfold byte_at. rewrite !store64_write.
    replace y with (a + Z.of_nat (Z.to_nat (y - a))) by lia.
    by rewrite !write_bytes_lookup_in by (rewrite length_le_bytes; lia).
  - rewrite !byte_at_store64_out by lia. apply Hm.
Qed.

Lemma length_words m a n : length (words m a n) = n.
Proof. revert a. induction n; intros; cbn; auto. Qed.

Lemma mem_ok_put_words m a ws : mem_ok m → mem_ok (put_words m a ws).
Proof. revert m a. induction ws; intros m a' Hm; cbn; [done|]. apply IHws. by apply mem_ok_store64. Qed.

End words.

Section signals.
Context `{KI : KernelImage} {F : Type} `{FO : FileOps F} `{FL : !FileLaws F}.
Implicit Types w : world F.

(** ** One signal *)

Definition ignorable (sg : signaling) (x : signal_t) : Prop :=
  (0 ≤ sig_type x < SIGNAL_CATCHABLE_COUNT ∧
   sg_handlers sg !! Z.to_nat (sig_type x) = Some SIGNAL_HANDLER_IGNORE) ∨
  (SIGNAL_CATCHABLE_COUNT ≤ sig_type x ∧ sig_type x ≠ SIGNAL_KILL).

Definition fatal (sg : signaling) (x : signal_t) : Prop :=
  (0 ≤ sig_type x < SIGNAL_CATCHABLE_COUNT ∧
   sg_handlers sg !! Z.to_nat (sig_type x) = Some SIGNAL_HANDLER_TERMINATE) ∨
  sig_type x = SIGNAL_KILL.

Lemma wp_dispatch_ignorable kstack i tf ctx old x s e p (Q : Z → world F → Prop) :
  ks_proc s !! i = Some p → ignorable (p_signaling p) x → Q 0 (World s e) →
  wp (dispatch kstack i tf ctx old x) (World s e) Q.
Proof.
  intros Hp Hx HQ. unfold dispatch. destruct Hx as [[Ht Hh]|[Ht Hk]].
  - destruct (Z.ltb_spec (sig_type x) SIGNAL_CATCHABLE_COUNT); [|lia]. wp_simpl.
    eapply wp_getp; [done|]. destruct (Z.ltb_spec (sig_type x) 0); [lia|]. rewrite Hh. done.
  - destruct (Z.ltb_spec (sig_type x) SIGNAL_CATCHABLE_COUNT); [lia|].
    by destruct (Z.eqb_spec (sig_type x) SIGNAL_KILL).
Qed.

Lemma wp_dispatch_fatal kstack i tf ctx old x s e p (Q : Z → world F → Prop) :
  ks_proc s !! i = Some p → fatal (p_signaling p) x → Q (-1) (World s e) →
  wp (dispatch kstack i tf ctx old x) (World s e) Q.
Proof.
  intros Hp Hx HQ. unfold dispatch. destruct Hx as [[Ht Hh]|Hk].
  - destruct (Z.ltb_spec (sig_type x) SIGNAL_CATCHABLE_COUNT); [|lia]. wp_simpl.
    eapply wp_getp; [done|]. destruct (Z.ltb_spec (sig_type x) 0); [lia|]. rewrite Hh. done.
  - rewrite Hk. done.
Qed.

(** ** The loop *)

Fixpoint dequeues (n : nat) (sg : signaling) : signaling :=
  match n with O => sg | S n => dequeue (dequeues n sg) end.

Lemma dequeues_S n sg : dequeues n (dequeue sg) = dequeues (S n) sg.
Proof. induction n as [|n IH]; [done|]. cbn. by rewrite IH. Qed.

Definition drop_signals (n : nat) (p : proc) : proc := p <| p_signaling ::= dequeues n |>.

Lemma dequeues_inv n sg : sig_inv sg → Z.of_nat n ≤ sg_count sg →
  sig_inv (dequeues n sg) ∧ sg_count (dequeues n sg) = sg_count sg - Z.of_nat n ∧
  sg_handlers (dequeues n sg) = sg_handlers sg ∧
  pending (dequeues n sg) = drop n (pending sg).
Proof.
  intros Hi Hn. induction n as [|n IH]; cbn [dequeues]; [rewrite drop_0; split; [done|]; split; [lia|done]|].
  destruct IH as (H1 & H2 & H3 & H4); [lia|]. set (sg1 := dequeues n sg) in *.
  destruct (pending_dequeue sg1 H1) as (x & _ & Hx); [lia|].
  split; [apply sig_inv_dequeue; [done|lia]|]. split; [cbn; lia|]. split; [done|].
  rewrite H4 in Hx. apply (f_equal tail) in Hx. cbn in Hx. rewrite <- Hx.
  transitivity (drop 1 (drop n (pending sg))); [by destruct (drop n _)|].
  rewrite drop_drop. f_equal. lia.
Qed.

Lemma upd_alter_comp (f g : proc → proc) i (s : kstate F) :
  upd_procs (alter f i) (upd_procs (alter g i) s) = upd_procs (alter (f ∘ g) i) s.
Proof. rewrite upd_procs_comp. apply upd_procs_eq. unfold compose. apply list_alter_alter_eq. Qed.

Lemma lookup_upd (f : proc → proc) i (s : kstate F) p :
  ks_proc s !! i = Some p → ks_proc (upd_procs (alter f i) s) !! i = Some (f p).
Proof. intros Hp. cbn. by rewrite list_lookup_alter_eq, Hp. Qed.

(** The queued signals before [rest] are ignored. *)
Lemma wp_signal_loop_ignored pre rest fuel kstack i tf ctx old s e p (Q : bool → world F → Prop) :
  ks_proc s !! i = Some p → sig_inv (p_signaling p) →
  pending (p_signaling p) = pre ++ rest → Forall (ignorable (p_signaling p)) pre →
  p_killed p = 0 → p_state p ≠ ZOMBIE →
  wp (signal_loop fuel kstack i tf ctx old)
    (World (upd_procs (alter (drop_signals (length pre)) i) s) e) Q →
  wp (signal_loop (length pre + fuel) kstack i tf ctx old) (World s e) Q.
Proof.
  revert s p. induction pre as [|x pre IH]; intros s p Hp Hi Hpend Hall Hk Hst HQ.
  { cbn [length Nat.add] in *. rewrite (upd_procs_eq _ (fun ps => ps)) in HQ.
    - by destruct s.
    - apply (alter_id _ _ _ p); [done|by destruct p]. }
  apply Forall_cons in Hall as [Hx Hall]. pose proof (length_pending _ Hi) as Hlen.
  rewrite Hpend, length_app in Hlen. cbn [length] in Hlen.
  destruct (pending_dequeue (p_signaling p) Hi) as (y & Hq & Hd); [lia|].
  rewrite Hpend in Hd. injection Hd as <- Hd.
  cbn [length Nat.add signal_loop]. wp_simpl. eapply wp_getp; [done|].
  destruct (Z.ltb_spec 0 (sg_count (p_signaling p))); [|lia]. cbn [negb].
  destruct (Z.ltb_spec (sg_read (p_signaling p)) 0); [pose proof (si_read _ Hi); lia|]. rewrite Hq.
  wp_simpl. eapply wp_updp; [done|]. set (g := fun p : proc => p <| p_signaling ::= dequeue |>).
  pose proof (lookup_upd g i s p Hp) as Hp1. wp_simpl.
  eapply wp_dispatch_ignorable; [exact Hp1|exact Hx|]. cbn [truthy Z.eqb negb]. wp_simpl.
  eapply wp_getp; [exact Hp1|]. change (p_killed (g p)) with (p_killed p). rewrite Hk.
  change (p_state (g p)) with (p_state p). rewrite bool_decide_false by done. cbn [truthy Z.eqb negb orb].
  apply (IH _ (g p)); [done|apply sig_inv_dequeue; [done|lia]|done|done|done|done|].
  rewrite upd_alter_comp. erewrite upd_procs_alter; [exact HQ|done|].
  unfold compose, drop_signals, g, setf. cbn. by rewrite dequeues_S.
Qed.

(** All queued signals are ignored: the loop empties the queue. *)
Lemma wp_signal_loop_empty fuel kstack i tf ctx old s e p (Q : bool → world F → Prop) :
  ks_proc s !! i = Some p → sig_inv (p_signaling p) →
  Forall (ignorable (p_signaling p)) (pending (p_signaling p)) →
  p_killed p = 0 → p_state p ≠ ZOMBIE →
  Q false (World (upd_procs (alter (drop_signals (Z.to_nat (sg_count (p_signaling p)))) i) s) e) →
  wp (signal_loop (Z.to_nat (sg_count (p_signaling p)) + S fuel) kstack i tf ctx old) (World s e) Q.
Proof.
  intros Hp Hi Hall Hk Hst HQ. pose proof (length_pending _ Hi) as Hlen.
  assert (Z.to_nat (sg_count (p_signaling p)) = length (pending (p_signaling p))) as Hn by lia.
  rewrite Hn in HQ |- *. eapply (wp_signal_loop_ignored _ []); [done|done|by rewrite app_nil_r|done|done|done|].
  cbn [signal_loop]. wp_simpl. eapply wp_getp; [by apply lookup_upd|]. cbn [drop_signals].
  destruct (dequeues_inv (length (pending (p_signaling p))) (p_signaling p) Hi) as (_ & Hc & _); [lia|].
  change (p_signaling (drop_signals (length (pending (p_signaling p))) p)) with
    (dequeues (length (pending (p_signaling p))) (p_signaling p)).
  destruct (Z.ltb_spec 0 (sg_count (dequeues (length (pending (p_signaling p))) (p_signaling p)))); [lia|].
  done.
Qed.

(** A fatal signal after ignored ones: the process exits with status -1. *)
Lemma wp_signal_loop_fatal pre x post fuel kstack i tf ctx old s e p (Q : bool → world F → Prop) :
  ks_proc s !! i = Some p → sig_inv (p_signaling p) →
  pending (p_signaling p) = pre ++ x :: post →
  Forall (ignorable (p_signaling p)) pre → fatal (p_signaling p) x →
  p_killed p = 0 → p_state p ≠ ZOMBIE →
  let p' := drop_signals (S (length pre)) p in
  let s' := upd_procs (alter (drop_signals (S (length pre))) i) s in
  can_exit i (World s' e) p' →
  (∀ w', wsame (exited i (ks_initproc s) (p_parent p) (-1)) (World s' e) w' → Q true w') →
  wp (signal_loop (length pre + S fuel) kstack i tf ctx old) (World s e) Q.
Proof.
  intros Hp Hi Hpend Hall Hx Hk Hst p' s' Hce HQ. pose proof (length_pending _ Hi) as Hlen.
  rewrite Hpend, length_app in Hlen. cbn [length] in Hlen.
  eapply (wp_signal_loop_ignored pre (x :: post)); [done|done|done|done|done|done|].
  destruct (dequeues_inv (length pre) (p_signaling p) Hi) as (H1 & H2 & H3 & H4); [lia|].
  set (sg1 := dequeues (length pre) (p_signaling p)) in *.
  assert (pending sg1 = x :: post) as Hp1 by (by rewrite H4, Hpend, drop_app_length).
  destruct (pending_dequeue sg1 H1) as (y & Hq & Hd); [lia|].
  rewrite Hp1 in Hd. injection Hd as <- _.
  cbn [signal_loop]. wp_simpl. eapply wp_getp; [by apply lookup_upd|].
  change (p_signaling (drop_signals (length pre) p)) with sg1.
  destruct (Z.ltb_spec 0 (sg_count sg1)); [|lia]. cbn [negb].
  destruct (Z.ltb_spec (sg_read sg1) 0); [pose proof (si_read _ H1); lia|]. rewrite Hq. wp_simpl.
  eapply wp_updp; [by apply lookup_upd|]. rewrite upd_alter_comp.
  erewrite (upd_procs_alter i _ (drop_signals (S (length pre))) s p); [|done|done]. fold s'.
  pose proof (lookup_upd (drop_signals (S (length pre))) i s p Hp) as Hp'. fold p' s' in Hp'. wp_simpl.
  eapply (wp_dispatch_fatal _ _ _ _ _ _ _ _ p'); [done| |].
  { unfold fatal in *. by change (sg_handlers (p_signaling p')) with (sg_handlers (dequeue sg1));
      cbn [dequeue sg_handlers setf]; rewrite H3. }
  cbn [truthy Z.eqb negb]. wp_simpl. eapply wp_exit_from_signal; [done|]. intros [s2 e2] Hw. wp_simpl.
  pose proof (ws_proc _ _ _ Hw) as Hps. cbn [w_k] in Hps.
  change (ks_initproc s') with (ks_initproc s) in Hps, Hw.
  destruct (ks_proc s2 !! i) as [q|] eqn:Eq.
  - eapply wp_getp; [done|]. assert (p_state q = ZOMBIE) as Hz.
    { rewrite Hps in Eq. unfold exited in Eq. rewrite list_lookup_alter_eq in Eq.
      apply fmap_Some in Eq as (q0 & _ & ->). done. }
    rewrite bool_decide_true by done. rewrite orb_true_r. wp_simpl. by apply HQ.
  - exfalso. apply lookup_ge_None in Eq. apply lookup_lt_Some in Hp'.
    rewrite Hps in Eq. unfold exited in Eq. rewrite length_alter, length_bequeath, length_alter in Eq. lia.
Qed.

(** ** [handle_signals] *)

Definition set_mem_k (m : gmap Z Z) (s : kstate F) : kstate F := s <| ks_k ::= set_mem m |>.

Lemma upd_set_mem f m s : upd_procs f (set_mem_k m s) = set_mem_k m (upd_procs f s).
Proof. by destruct s. Qed.

Lemma wp_tf_load a (s : kstate F) Q :
  page_ok a → Q (words (k_mem (ks_k s)) a TF_WORDS) s → wp (onk (tf_load a)) s Q.
Proof.
  intros Ha HQ. unfold onk, tf_load. rewrite wp_zoom. apply wp_ld_words.
  - right. rewrite <- (Z.add_0_r a). by apply page_ok_ram_sub.
  - by destruct s.
Qed.

Lemma wp_tf_store a ws (s : kstate F) Q :
  page_ok a → length ws = TF_WORDS → Q tt (set_mem_k (put_words (k_mem (ks_k s)) a ws) s) →
  wp (onk (tf_store a ws)) s Q.
Proof.
  intros Ha Hl HQ. unfold onk, tf_store. rewrite wp_zoom. apply wp_st_words; [|done].
  right. rewrite Hl, <- (Z.add_0_r a). by apply page_ok_writable_sub.
Qed.

Definition set_inh (v : Z) (p : proc) : proc := p <| p_signaling ::= fun sg => sg <| sg_in_handler := v |> |>.

Lemma pending_inh v sg : pending (sg <| sg_in_handler := v |>) = pending sg.
Proof. done. Qed.

Lemma sig_inv_inh v sg : sig_inv (sg <| sg_in_handler := v |>) ↔ sig_inv sg.
Proof. split; intros []; by split. Qed.

Lemma loop_fuel (c : Z) (n : nat) : 0 ≤ c < MAX_SIGNALS →
  ∃ f, (Z.to_nat MAX_SIGNALS * S n)%nat = (Z.to_nat c + S f)%nat.
Proof.
  intros Hc. exists (Z.to_nat MAX_SIGNALS * S n - Z.to_nat c - 1)%nat. unfold MAX_SIGNALS in *. nia.
Qed.

Lemma dequeues_inh v n sg : dequeues n (sg <| sg_in_handler := v |>) = (dequeues n sg) <| sg_in_handler := v |>.
Proof. induction n as [|n IH]; [done|]. cbn [dequeues]. by rewrite IH. Qed.

(** The updates of [handle_signals] commute. *)
Lemma drop_signals_kstack n k p : drop_signals n (p <| p_kstack := k |>) = (drop_signals n p) <| p_kstack := k |>.
Proof. by destruct p. Qed.
Lemma set_inh_kstack v k p : set_inh v (p <| p_kstack := k |>) = (set_inh v p) <| p_kstack := k |>.
Proof. by destruct p. Qed.
Lemma set_kstack_twice k k' p : p <| p_kstack := k |> <| p_kstack := k' |> = p <| p_kstack := k' |>.
Proof. by destruct p. Qed.
Lemma set_kstack_id k p : p_kstack p = k → p <| p_kstack := k |> = p.
Proof. intros <-. by destruct p. Qed.
Lemma set_inh_twice v v' p : set_inh v' (set_inh v p) = set_inh v' p.
Proof. by destruct p. Qed.
Lemma drop_signals_inh n v p : drop_signals n (set_inh v p) = set_inh v (drop_signals n p).
Proof.
  destruct p as [st ch kl xs pid sg al cy pa ks sz pt tf cx fo cw nm]. unfold set_inh, drop_signals, setf; cbn.
  pose proof (dequeues_inh v n sg) as H. unfold setf in H. by rewrite H.
Qed.

(** What [handle_signals] does to the process entry when nothing is fatal. *)
Lemma handled_proc n kstack p :
  set_inh 0 ((drop_signals n ((set_inh 1 p) <| p_kstack := kstack |>)) <| p_kstack := p_kstack p |>) =
  set_inh 0 (drop_signals n p).
Proof.
  rewrite drop_signals_kstack, set_kstack_twice, set_inh_kstack, drop_signals_inh, set_inh_twice.
  by apply set_kstack_id.
Qed.

(** A process all of whose queued signals are ignored loses them and
    nothing else: the queue is empty afterwards, the trapframe and every other
    byte of memory read as before, and the process goes on running. *)
Theorem handle_signals_ignored kstack i s e p :
  ks_proc s !! i = Some p → sig_inv (p_signaling p) →
  Forall (ignorable (p_signaling p)) (pending (p_signaling p)) →
  p_killed p = 0 → p_state p ≠ ZOMBIE → page_ok (p_trapframe p) → mem_ok (k_mem (ks_k s)) →
  wp (handle_signals kstack i) (World s e) (fun dead w' => dead = false ∧ ∃ p' m',
    w' = World (set_mem_k m' (upd_procs (<[i := p']>) s)) e ∧
    p' = p <| p_signaling := p_signaling p' |> ∧
    pending (p_signaling p') = [] ∧ sg_in_handler (p_signaling p') = 0 ∧ sig_inv (p_signaling p') ∧
    ∀ x, byte_at m' x = byte_at (k_mem (ks_k s)) x).
Proof.
  intros Hp Hi Hall Hk Hst Htf Hm. unfold handle_signals. wp_simpl.
  eapply wp_updp; [done|]. fold (set_inh 1). wp_simpl.
  pose proof (lookup_upd (set_inh 1) i s p Hp) as Hp1. eapply wp_getp; [exact Hp1|].
  set (n := Z.to_nat (sg_count (p_signaling p))). pose proof (si_count _ Hi) as Hcnt.
  destruct (dequeues_inv n (p_signaling p) Hi) as (H1 & H2 & H3 & H4); [unfold n; lia|].
  pose proof (length_pending _ Hi) as Hlen. rewrite drop_ge in H4 by (unfold n; lia).
  set (p' := set_inh 0 (drop_signals n p)).
  assert (pending (p_signaling p') = [] ∧ sg_in_handler (p_signaling p') = 0 ∧ sig_inv (p_signaling p')) as Hfin.
  { split; [exact H4|]. split; [done|]. by apply sig_inv_inh. }
  change (sg_count (p_signaling (set_inh 1 p))) with (sg_count (p_signaling p)).
  unfold truthy. destruct (Z.eqb_spec (sg_count (p_signaling p)) 0) as [Hz|Hz]; cbn [negb]; wp_simpl.
  - eapply wp_updp; [exact Hp1|]. wp_simpl. split; [done|]. exists p', (k_mem (ks_k s)).
    split; [|split; [done|]; split; [apply Hfin|]; split; [apply Hfin|]; split; [apply Hfin|done]].
    f_equal. rewrite upd_alter_comp. rewrite (upd_procs_eq _ (<[i := p']>)).
    + by destruct s as [[]].
    + rewrite (alter_as_insert _ i _ p) by done. f_equal. unfold p', n. by rewrite Hz.
  - apply wp_tf_load; [done|]. wp_simpl. eapply wp_updp; [exact Hp1|]. rewrite upd_alter_comp.
    set (g := fun p : proc => p <| p_kstack := kstack |>). wp_simpl. cbn [w_env].
    pose proof (lookup_upd (g ∘ set_inh 1) i s p Hp) as Hp2.
    destruct (loop_fuel (sg_count (p_signaling p)) (length e) Hcnt) as [f ->].
    apply (wp_signal_loop_empty f _ i _ _ _ _ e _ _ Hp2); [by apply sig_inv_inh|done|done|done|].
    change (sg_count (p_signaling ((g ∘ set_inh 1) p))) with (sg_count (p_signaling p)). fold n.
    rewrite upd_alter_comp. wp_simpl. eapply wp_getp; [by apply lookup_upd|]. wp_simpl.
    apply wp_tf_store; [done|apply length_words|]. wp_simpl.
    eapply wp_updp; [by apply lookup_upd|]. wp_simpl. eapply wp_updp; [by do 2 apply lookup_upd|]. wp_simpl.
    split; [done|]. exists p', (put_words (k_mem (ks_k s)) (p_trapframe p) (words (k_mem (ks_k s)) (p_trapframe p) TF_WORDS)).
    split; [|split; [done|]; split; [apply Hfin|]; split; [apply Hfin|]; split; [apply Hfin|]].
    + f_equal. rewrite !upd_set_mem, !upd_alter_comp. f_equal. apply upd_procs_eq.
      rewrite (alter_as_insert _ i _ p) by done. f_equal. exact (handled_proc n kstack p).
    + intros x. by apply put_words_same.
Qed.

Lemma can_exit_upd i g s e p :
  p_ofile (g p) = p_ofile p → p_cwd (g p) = p_cwd p → p_parent (g p) = p_parent p →
  can_exit i (World s e) p → can_exit i (World (upd_procs (alter g i) s) e) (g p).
Proof.
  intros Ho Hc Hpa [H1 H2 H3 H4 H5 H6 H7 H8 H9]. split; cbn [w_k] in *; try done.
  - by apply lookup_upd.
  - apply procs_ok_upd; [|done]. intros. apply length_alter.
  - by rewrite Ho.
  - by rewrite Hc.
  - by rewrite Hpa.
  - apply (fs_idle_procs _ (World s e) H9).
Qed.

(** Fields that delivery does not touch. *)
Lemma drop_fields n p :
  p_trapframe (drop_signals n p) = p_trapframe p ∧ p_parent (drop_signals n p) = p_parent p.
Proof. done. Qed.

(** The world [w'] after process [i] was ended by a signal, the signals [post]
    being left. *)
Record ended (i : nat) (s : kstate F) (e : list (kstate F → kstate F)) (p : proc) (post : list signal_t)
    (w' : world F) : Prop := {
  en_env : w_env w' = e;
  en_mach : ks_mach (w_k w') ≡ ks_mach s;
  en_self : ∃ q, ks_proc (w_k w') !! i = Some q ∧ p_state q = ZOMBIE ∧ p_xstate q = -1 ∧
    p_pid q = p_pid p ∧ p_ofile q = replicate NOFILE None ∧ p_cwd q = None ∧
    pending (p_signaling q) = post ∧ sg_in_handler (p_signaling q) = 0;
  en_others : ∀ j q, j ≠ i → ks_proc s !! j = Some q → ks_proc (w_k w') !! j =
    Some (heir i (ks_initproc s) (p_parent p) (has_child i (seq 0 NPROC) (ks_proc s)) j q)
}.

Lemma wp_handle_fatal kstack i s e p pre x post (Q : bool → world F → Prop) :
  can_exit i (World s e) p → sig_inv (p_signaling p) →
  pending (p_signaling p) = pre ++ x :: post →
  Forall (ignorable (p_signaling p)) pre → fatal (p_signaling p) x →
  p_killed p = 0 → p_state p ≠ ZOMBIE → page_ok (p_trapframe p) →
  (∀ w', ended i s e p post w' → Q true w') →
  wp (handle_signals kstack i) (World s e) Q.
Proof.
  intros Hce Hi Hpend Hall Hx Hk Hst Htf HQ. pose proof (ce_proc _ _ _ Hce) as Hp. cbn [w_k] in Hp.
  pose proof (length_pending _ Hi) as Hlen. rewrite Hpend, length_app in Hlen. cbn [length] in Hlen.
  pose proof (si_count _ Hi) as Hcnt.
  unfold handle_signals. wp_simpl. eapply wp_updp; [done|]. fold (set_inh 1). wp_simpl.
  pose proof (lookup_upd (set_inh 1) i s p Hp) as Hp1. eapply wp_getp; [exact Hp1|].
  change (sg_count (p_signaling (set_inh 1 p))) with (sg_count (p_signaling p)).
  unfold truthy at 1. destruct (Z.eqb_spec (sg_count (p_signaling p)) 0) as [Hz|Hz]; [lia|]. cbn [negb]. wp_simpl.
  apply wp_tf_load; [done|]. wp_simpl. eapply wp_updp; [exact Hp1|]. rewrite upd_alter_comp.
  set (g := (fun p : proc => p <| p_kstack := kstack |>) ∘ set_inh 1). wp_simpl. cbn [w_env].
  pose proof (lookup_upd g i s p Hp) as Hp2.
  destruct (loop_fuel (Z.of_nat (length pre)) (length e) ltac:(lia)) as [f ->]. rewrite Nat2Z.id.
  apply (wp_signal_loop_fatal pre x post f _ i _ _ _ _ e _ _ Hp2);
    [by apply sig_inv_inh|done|done|done|done|done| |].
  { apply can_exit_upd; [done|done|done|]. by apply can_exit_upd. }
  rewrite upd_alter_comp. set (h := drop_signals (S (length pre)) ∘ g).
  change (p_parent (g p)) with (p_parent p). intros [s2 e2] Hw. wp_simpl.
  change (ks_initproc (upd_procs (alter g i) s)) with (ks_initproc s) in Hw.
  assert (length (ks_proc s) = NPROC) as Hln by apply (ce_procs _ _ _ Hce).
  pose proof (ws_proc _ _ _ Hw) as Hps. cbn in Hps.
  assert (ks_proc s2 !! i = Some (zombie (-1) (closed (h p)))) as Hq.
  { rewrite Hps. apply lookup_exited_self; [by rewrite length_alter|apply (ce_self _ _ _ Hce)|].
    by rewrite list_lookup_alter_eq, Hp. }
  eapply wp_getp; [exact Hq|]. wp_simpl. apply wp_tf_store; [done|apply length_words|]. wp_simpl.
  eapply wp_updp; [exact Hq|]. wp_simpl. eapply wp_updp; [by apply lookup_upd|]. wp_simpl.
  rewrite upd_alter_comp. apply HQ. split; [exact (ws_env _ _ _ Hw)|exact (ws_mach _ _ _ Hw)| |].
  - eexists. split; [by apply lookup_upd|]. do 5 (split; [done|]). split; [|done].
    destruct (dequeues_inv (S (length pre)) ((p_signaling p) <| sg_in_handler := 1 |>)) as (_ & _ & _ & H4);
      [by apply sig_inv_inh|cbn; lia|].
    etransitivity; [exact H4|]. rewrite pending_inh, Hpend, <- Nat.add_1_r.
    by rewrite drop_app_add.
  - intros j q Hne Hj. cbn. rewrite list_lookup_alter_ne by done. rewrite Hps.
    rewrite (lookup_exited_other _ _ _ _ _ _ q); [|by rewrite length_alter|done|by rewrite list_lookup_alter_ne].
    by rewrite has_child_alter.
Qed.

(** A fatal signal (an uncatchable KILL, or one whose handler is TERMINATE)
    behind ignored ones ends the process: it becomes a zombie with status -1,
    its files and directory are released, its children go to init, its parent
    is woken, the signals behind stay queued, and it is not run. *)
Theorem handle_signals_fatal kstack i s e p pre x post :
  can_exit i (World s e) p → sig_inv (p_signaling p) →
  pending (p_signaling p) = pre ++ x :: post →
  Forall (ignorable (p_signaling p)) pre → fatal (p_signaling p) x →
  p_killed p = 0 → p_state p ≠ ZOMBIE → page_ok (p_trapframe p) →
  wp (handle_signals kstack i) (World s e) (fun dead w' => dead = true ∧
    w_env w' = e ∧ ks_mach (w_k w') ≡ ks_mach s ∧
    (∃ q, ks_proc (w_k w') !! i = Some q ∧ p_state q = ZOMBIE ∧ p_xstate q = -1 ∧
       p_pid q = p_pid p ∧ p_ofile q = replicate NOFILE None ∧ p_cwd q = None ∧
       pending (p_signaling q) = post ∧ sg_in_handler (p_signaling q) = 0) ∧
    ∀ j q, j ≠ i → ks_proc s !! j = Some q → ks_proc (w_k w') !! j =
      Some (heir i (ks_initproc s) (p_parent p) (has_child i (seq 0 NPROC) (ks_proc s)) j q)).
Proof.
  intros. eapply wp_handle_fatal; [done..|]. intros w' []. done.
Qed.

End signals.

(** ** Examples *)

#[local] Existing Instance small_image.

(** A file system whose operations have no effect the kernel sees. *)
Definition no_files : FileOps unit := {|
  filedup := fun f => ret f; fileclose := fun _ => ret tt; idup := fun i => ret i; iput := fun _ => ret tt;
  begin_op := ret tt; end_op := ret tt; namei := fun _ => ret (Some 0%nat); fsinit := fun _ => ret tt |}.
#[local] Existing Instance no_files.

Lemma wsame_refl {F} (w : world F) : wsame id w w.
Proof. by split. Qed.

Program Definition no_files_laws : FileLaws unit := {| fs_idle := fun _ => True |}.
Next Obligation. done. Qed.
Next Obligation. done. Qed.
Next Obligation. intros. split; [apply wsame_refl|done]. Qed.
Next Obligation. intros. split; [apply wsame_refl|done]. Qed.
Next Obligation. intros. split; [apply wsame_refl|done]. Qed.
Next Obligation. intros. split; [apply wsame_refl|done]. Qed.
#[local] Existing Instance no_files_laws.

(** Process 2 in slot 1 runs, with the signals [l] queued and ALARM ignored. *)
Definition queued (l : list signal_t) : signaling :=
  Signaling (l ++ replicate (512 - length l) (Signal 0 0 0)) [SIGNAL_HANDLER_IGNORE; SIGNAL_HANDLER_TERMINATE]
    0 0 (Z.of_nat (length l)) (Z.of_nat (length l)) 0.
Definition signaled (l : list signal_t) : proc :=
  proc0 <| p_state := RUNNING |> <| p_pid := 2 |> <| p_signaling := queued l |> <| p_parent := Some 0%nat |>
    <| p_trapframe := KERNBASE + 20 * 4096 |> <| p_cwd := Some 0%nat |>.
Definition sig_ks (p : proc) : kstate unit := upd_procs (<[1%nat := p]>) (table_ks (Some 1%nat)).

Lemma queued_inv l : (length l < 512)%nat → sig_inv (queued l).
Proof.
  intros Hl. split; cbn [queued sg_queue sg_handlers sg_read sg_write sg_count]; unfold MAX_SIGNALS; try lia.
  - rewrite length_app, length_replicate. lia.
  - reflexivity.
  - rewrite Z.mod_small; lia.
Qed.

Lemma signaled_exit l : can_exit 1 (World (sig_ks (signaled l)) []) (signaled l).
Proof.
  split; try done.
  - apply (procs_ok_upd _ (<[1%nat := signaled l]>)); [intros; apply length_insert|apply table_procs_ok].
  - by exists "wait_lock"%string.
Qed.

Lemma signaled_tf l : page_ok (p_trapframe (signaled l)).
Proof. split; [reflexivity|]. cbn. unfold PHYSTOP, KERNBASE. lia. Qed.

Lemma handle_signals_ignored_witness :
  wp (handle_signals 0 1) (World (sig_ks (signaled [Signal 0 2 0; Signal 0 7 1])) []) (fun dead w' =>
    dead = false ∧ (pending ∘ p_signaling) <$> ks_proc (w_k w') !! 1%nat = Some []).
Proof.
  eapply wp_mono.
  - apply (handle_signals_ignored 0 1 _ [] (signaled [Signal 0 2 0; Signal 0 7 1])).
    + reflexivity.
    + apply queued_inv. cbn. lia.
    + change (pending _) with [Signal 0 2 0; Signal 0 7 1].
      apply Forall_cons; split; [|apply Forall_cons; split; [|apply Forall_nil; exact I]]; left; split; vm_compute; done.
    + reflexivity.
    + discriminate.
    + apply signaled_tf.
    + intros a b H. change ((∅ : gmap Z Z) !! a = Some b) in H. by rewrite lookup_empty in H.
  - cbn beta. intros d w' (-> & p' & m' & -> & _ & Hp' & _). split; [reflexivity|]. cbn. by rewrite Hp'.
Defined.

Lemma handle_signals_fatal_witness :
  wp (handle_signals 0 1) (World (sig_ks (signaled [Signal 0 2 0; Signal SIGNAL_KILL 7 1; Signal 0 7 1])) [])
    (fun dead w' => dead = true ∧ p_state <$> ks_proc (w_k w') !! 1%nat = Some ZOMBIE).
Proof.
  eapply wp_mono.
  - apply (handle_signals_fatal 0 1 _ [] (signaled [Signal 0 2 0; Signal SIGNAL_KILL 7 1; Signal 0 7 1])
      [Signal 0 2 0] (Signal SIGNAL_KILL 7 1) [Signal 0 7 1]).
    + apply signaled_exit.
    + apply queued_inv. cbn. lia.
    + reflexivity.
    + apply Forall_cons; split; [|by apply Forall_nil]. left. split; vm_compute; done.
    + by right.
    + reflexivity.
    + discriminate.
    + apply signaled_tf.
  - cbn beta. intros d w' (-> & _ & _ & (q & Hq & Hz & _) & _). split; [reflexivity|]. rewrite Hq. cbn. by rewrite Hz.
Defined.
