(* ===== verification/Sched.v ===== *)
(** * Giving up the cpu (kernel/proc.c)

    [sched], [yield], [sleep], [exit] and the body of [scheduler].  The rest of
    the system acts between a switch and the return from it, as an arbitrary
    function on the kernel state; the theorems say what state the switch hands
    over, and what follows when the process is resumed the way the scheduler
    resumes it. *)

From Stdlib Require Import ZArith Lia.
From stdpp Require Import base gmap strings numbers list.
From S2P Require Import Prelude Spinlock Mem Kstring Kalloc Vm Proc ProcLife ProcFacts ProcOps SigQueue Exit Signals.
Local Open Scope xv6_scope.

(** ** A hart that runs a process and holds no lock *)

Definition depth (m : mach) : Z := match cpus m !! hid m with Some c => noff c | None => 0 end.

Record runs (i : nat) (m : mach) : Prop := {
  ru_ok : mach_ok m;
  ru_lock : lock_free (L_proc i) m;
  ru_cur : cur m = Some i;
  ru_depth : depth m = 0
}.

(** The machine with interrupts on or off. *)
Definition set_ie (ie : bool) (m : mach) : mach :=
  set_sstatus (if ie then Z.lor (sstatus m) SSTATUS_SIE else Z.land (sstatus m) (Z.lnot SSTATUS_SIE)) m.

Lemma sie_set_ie ie m : sie (set_ie ie m) = ie.
Proof.
  unfold sie, set_ie, set_sstatus, truthy. destruct ie; cbn [sstatus].
  - rewrite Z.land_comm, (Z.land_lor_distr_r SSTATUS_SIE), Z.land_diag. apply negb_true_iff, Z.eqb_neq. intros H.
    pose proof (f_equal (fun x => Z.testbit x 1) H) as Hb. cbn beta in Hb. by rewrite Z.lor_spec, orb_true_r in Hb.
  - apply (sie_off m).
Qed.

Lemma push_set_ie ie m : depth m = 0 →
  push (set_ie ie m) = on_mycpu (fun c => Cpu (c_proc c) (c_context c) (noff c) ie) (push m).
Proof.
  intros Hd. unfold push. rewrite sie_set_ie. unfold on_mycpu, set_ie, set_sstatus, hid. cbn.
  unfold depth, hid in Hd. f_equal.
  - apply Z.bits_inj'. intros n Hn. destruct ie; rewrite !Z.land_spec, ?Z.lor_spec, ?Z.lnot_spec by done;
      destruct (Z.testbit (sstatus m) n), (Z.testbit SSTATUS_SIE n); done.
  - rewrite list_alter_alter_eq. apply list_alter_ext; [|done]. intros c Hc. rewrite Hc in Hd.
    unfold compose. cbn. by rewrite Hd.
Qed.

Lemma acq_set_ie lk ie m : depth m = 0 →
  acq lk (set_ie ie m) = on_mycpu (fun c => Cpu (c_proc c) (c_context c) (noff c) ie) (acq lk m).
Proof. intros Hd. unfold acq. by rewrite push_set_ie. Qed.

Lemma mach_ok_set_ie ie m : depth m = 0 → mach_ok m → mach_ok (set_ie ie m).
Proof.
  intros Hd (H1 & c & Hc & H2 & H3). split; [done|]. exists c. split; [done|]. split; [done|].
  unfold depth in Hd. rewrite Hc in Hd. lia.
Qed.

Lemma runs_set_ie i ie m : runs i m → runs i (set_ie ie m).
Proof. intros [H1 H2 H3 H4]. split; [by apply mach_ok_set_ie|done|done|done]. Qed.

#[global] Instance depth_proper : Proper (equiv ==> eq) depth.
Proof.
  assert (∀ m, depth (norm m) = depth m) as Hn.
  { intros m. unfold depth. change (hid (norm m)) with (hid m). destruct (cpus m !! hid m) as [c|] eqn:E.
    - by rewrite (cpus_norm m c E).
    - unfold norm, on_mycpu; cbn. by rewrite list_lookup_alter_eq, E. }
  intros m m' H. rewrite <- (Hn m), <- (Hn m'). by rewrite H.
Qed.

#[global] Instance runs_proper i : Proper (equiv ==> iff) (runs i).
Proof.
  intros m m' H. split; intros [H1 H2 H3 H4]; split; by (rewrite <- H || rewrite H).
Qed.

Section switch.
Context `{KI : KernelImage} {F : Type}.
Implicit Types (s : kstate F) (ev : kstate F → kstate F).

(** ** The switch *)

(** Inside a nest equivalent states are equal. *)
Lemma kstate_nested s s' : nested (ks_mach s) → s' ≡ s → s' = s.
Proof.
  intros Hn [(Hm & H2 & H3) H4]. pose proof (nested_equiv _ _ Hn Hm) as H1.
  destruct s as [[]], s' as [[]]. unfold rest, ks_mach in *. cbn in *. congruence.
Qed.

Definition restore_intena (ie : bool) : M (world F) unit :=
  '(id, c') ← onw (lkm mycpu);
  onw (lkm (modify (set_cpu id (Cpu (c_proc c') (c_context c') (noff c') ie)))).

Lemma wp_restore ie i m s es Q :
  runs i m → ks_mach s = acq (L_proc i) m →
  Q tt (World (set_kmach (acq (L_proc i) (set_ie ie m)) s) es) → wp (restore_intena ie) (World s es) Q.
Proof.
  intros [Hok _ _ Hd] Hm HQ. pose proof Hok as (Htp & c & Hcpu & _).
  pose proof (cpus_push m c Hcpu) as Hpush. unfold restore_intena. wp_simpl. rewrite wp_lkm.
  eapply wp_mycpu; [by rewrite Hm|rewrite Hm; exact Hpush|]. rewrite set_kmach_id. wp_simpl.
  rewrite wp_lkm. wp_simpl. rewrite acq_set_ie in HQ by done. unfold on_mycpu in HQ.
  erewrite alter_as_insert in HQ by exact Hpush. rewrite Hm. exact HQ.
Qed.

(** [sched] with only the process lock held hands the state over as it is. *)
Lemma sched_switch i p s m ev es :
  runs i m → ks_mach s = acq (L_proc i) m → ks_proc s !! i = Some p → p_state p ≠ RUNNING →
  sched (World s (ev :: es)) = restore_intena (sie m) (World (ev s) es) ∧
  sched (World s []) = Blocked.
Proof.
  intros [Hok Hl Hc Hd] Hm Hp Hst. pose proof Hok as (Htp & c & Hcpu & Hn & Hoff).
  pose proof (cpus_push m c Hcpu) as Hpush. unfold depth in Hd. rewrite Hcpu in Hd.
  assert (∀ {B} (k : nat * cpu → M (world F) B) e, bind (onw (lkm mycpu)) k (World s e) =
     k (hid m, Cpu (c_proc c) (c_context c) (noff c + 1) (if noff c =? 0 then sie m else intena c)) (World s e)) as Hmy.
  { intros B k e. apply bind_ret, wp_eq. wp_simpl. rewrite wp_lkm.
    eapply wp_mycpu; [by rewrite Hm|rewrite Hm; exact Hpush|]. rewrite set_kmach_id. by rewrite Hm. }
  assert (∀ e, sched (World s e) = (swtch;; restore_intena (sie m)) (World s e)) as He.
  { intros e. unfold sched. rewrite (bind_ret _ _ _ (Some i) (World s e)).
    2:{ apply wp_eq. wp_simpl. apply wp_myproc_k; [rewrite Hm; by apply mach_ok_acq|].
        intros s' Hs'. rewrite (kstate_nested s s'); [|rewrite Hm; by apply nested_push|done].
        rewrite Hm, cur_acq, Hc. done. }
    cbn [deref]. erewrite bind_ret by reflexivity. rewrite (bind_ret _ _ _ true (World s e)).
    2:{ apply wp_eq. wp_simpl. rewrite wp_lkm. eapply wp_holding; [by rewrite Hm|rewrite Hm; exact Hpush|].
        rewrite set_kmach_id. split; [|done]. rewrite Hm. unfold lock_of; cbn. rewrite lookup_insert_eq.
        by apply bool_decide_true. }
    cbn [negb].
    erewrite bind_ret by reflexivity. rewrite Hmy. cbn beta iota zeta. cbn [noff]. rewrite Hd. cbn [Z.add Z.eqb negb].
    erewrite bind_ret by reflexivity. rewrite (bind_ret _ _ _ p (World s e)).
    2:{ apply wp_eq. wp_simpl. eapply wp_getp; [exact Hp|]. done. }
    rewrite bool_decide_false by done. erewrite bind_ret by reflexivity. rewrite (bind_ret _ _ _ false (World s e)).
    2:{ apply wp_eq. wp_simpl. rewrite wp_lkm. unfold intr_get. wp_simpl. rewrite set_kmach_id. rewrite Hm.
        split; [exact (sie_push m)|done]. }
    erewrite bind_ret by reflexivity. rewrite Hmy, Hd. done. }
  split; [by rewrite He|by rewrite He].
Qed.

Lemma wp_sched i p s m ev es m' Q :
  runs i m → ks_mach s = acq (L_proc i) m → ks_proc s !! i = Some p → p_state p ≠ RUNNING →
  runs i m' → ks_mach (ev s) = acq (L_proc i) m' →
  Q tt (World (set_kmach (acq (L_proc i) (set_ie (sie m) m')) (ev s)) es) →
  wp sched (World s (ev :: es)) Q.
Proof.
  intros Hr Hm Hp Hst Hr' Hm' HQ. unfold wp. destruct (sched_switch i p s m ev es) as [-> _]; [done..|].
  by eapply wp_restore.
Qed.

(** Releasing the process lock after a switch. *)
Lemma wp_rel_proc i m s Q :
  runs i m → ks_mach s = acq (L_proc i) m → (∀ s', s' ≡ set_kmach m s → Q tt s') →
  wp (lkm (release (L_proc i))) s Q.
Proof.
  intros [Hok Hl _ _] Hm HQ. apply (wp_rel (L_proc i) (set_kmach m s)); [done|done|by rewrite Hm|].
  intros s' Hs'. apply HQ. rewrite Hs'. by destruct s as [[]].
Qed.

(** ** Sleeping and yielding *)

Definition asleep (c : chan) (p : proc) : proc := p <| p_chan := c |> <| p_state := SLEEPING |>.
Definition awake (p : proc) : proc := p <| p_chan := C_null |>.
Definition yielded (p : proc) : proc := p <| p_state := RUNNABLE |>.

Lemma wp_sleep c lk i p m s ev es m' p' :
  runs i m → lock_free lk m → lk ≠ L_proc i → ks_mach s = acq lk m → ks_proc s !! i = Some p →
  let s1 := set_kmach (acq (L_proc i) m) (upd_procs (alter (asleep c) i) s) in
  runs i m' → lock_free lk m' → ks_mach (ev s1) = acq (L_proc i) m' → ks_proc (ev s1) !! i = Some p' →
  wp (sleep c lk) (World s (ev :: es)) (fun r w' =>
    r = sg_in_handler (p_signaling p') ∧
    w' = World (set_kmach (acq lk (set_ie (sie m) m')) (upd_procs (alter awake i) (ev s1))) es).
Proof.
  intros Hr Hl Hne Hm Hp s1 Hr' Hl' Hm' Hp'. pose proof Hr as [Hok Hlp Hc Hd].
  assert (nested (ks_mach s)) as Hnest by (rewrite Hm; by apply nested_push).
  unfold sleep. wp_simpl. apply wp_myproc_k; [rewrite Hm; by apply mach_ok_acq|]. intros s' Hs'.
  apply kstate_nested in Hs' as ->; [|done]. rewrite Hm, cur_acq, Hc. wp_simpl.
  apply wp_acq; [rewrite Hm; by apply mach_ok_acq|rewrite Hm; by apply lock_free_acq|]. wp_simpl.
  rewrite wp_lkm. change (ks_mach (set_kmach ?x s)) with x. rewrite Hm.
  apply wp_release_outer; [done|done|done|]. rewrite set_kmach_twice. wp_simpl.
  eapply wp_updp; [exact Hp|]. rewrite <- set_kmach_upd. fold (asleep c). wp_simpl.
  eapply (wp_sched i (asleep c p) s1); [exact Hr|done|by apply lookup_upd|done|exact Hr'|exact Hm'|]. wp_simpl.
  eapply (wp_getp _ p'); [exact Hp'|]. wp_simpl. eapply wp_updp; [exact Hp'|]. fold awake. wp_simpl.
  eapply wp_rel_proc; [by apply runs_set_ie|done|]. intros s2 Hs2. wp_simpl.
  assert (ks_mach s2 ≡ set_ie (sie m) m') as Hm2 by (by rewrite Hs2).
  apply wp_acq; [rewrite Hm2; by apply (runs_set_ie i)|by rewrite Hm2|]. wp_simpl.
  split; [done|]. f_equal. rewrite Hm2. apply kstate_nested; [by apply nested_push, (runs_set_ie i)|].
  rewrite Hs2, set_kmach_twice, <- set_kmach_upd. by rewrite set_kmach_twice.
Qed.

(** [sleep] hands over a state in which the process is asleep on the
    channel, its condition lock is free and its own lock is held.  Resumed, it
    takes the condition lock again, clears the channel, restores the thread's
    interrupt state, and reports whether it woke inside a signal handler.  (Why
    it takes its own lock before it gives up the other one is shown in
    SleepRace.v.) *)
Theorem sleep_correct c lk i p m s ev es m' p' :
  runs i m → lock_free lk m → lk ≠ L_proc i → ks_mach s = acq lk m → ks_proc s !! i = Some p →
  let s1 := set_kmach (acq (L_proc i) m) (upd_procs (alter (asleep c) i) s) in
  runs i m' → lock_free lk m' → ks_mach (ev s1) = acq (L_proc i) m' → ks_proc (ev s1) !! i = Some p' →
  wp (sleep c lk) (World s (ev :: es)) (fun r w' =>
    r = sg_in_handler (p_signaling p') ∧
    w' = World (set_kmach (acq lk (set_ie (sie m) m')) (upd_procs (alter awake i) (ev s1))) es).
Proof. apply wp_sleep. Qed.

(** [yield] hands over a runnable process with its lock held; resumed, it
    holds no lock and the thread's interrupt state is restored. *)
Theorem yield_correct i p m s ev es m' p' :
  runs i m → ks_mach s = m → ks_proc s !! i = Some p →
  let s1 := set_kmach (acq (L_proc i) m) (upd_procs (alter yielded i) s) in
  runs i m' → ks_mach (ev s1) = acq (L_proc i) m' → ks_proc (ev s1) !! i = Some p' →
  wp yield (World s (ev :: es)) (fun _ w' =>
    w_env w' = es ∧ w_k w' ≡ set_kmach (set_ie (sie m) m') (ev s1)).
Proof.
  intros Hr Hm Hp s1 Hr' Hm' Hp'. pose proof Hr as [Hok Hlp Hc Hd]. subst m.
  unfold yield. wp_simpl. apply wp_myproc_k; [done|]. intros s' Hs'. rewrite Hc. wp_simpl.
  apply wp_acq; [by rewrite Hs'|by rewrite Hs'|]. wp_simpl.
  eapply wp_updp; [by rewrite <- (ks_proc_proper _ _ Hs') in Hp|]. fold yielded.
  rewrite <- set_kmach_upd. assert (set_kmach (acq (L_proc i) (ks_mach s')) (upd_procs (alter yielded i) s') = s1) as ->.
  { apply kstate_nested; [by apply nested_push|]. unfold s1. rewrite Hs' at 1.
    apply set_kmach_equiv; [done|by rewrite Hs']. }
  wp_simpl. eapply (wp_sched i (yielded p) s1); [exact Hr|done|by apply lookup_upd|done|exact Hr'|exact Hm'|]. wp_simpl.
  eapply wp_rel_proc; [by apply runs_set_ie|done|]. intros s2 Hs2. split; [done|].
  cbn. by rewrite Hs2, set_kmach_twice.
Qed.

End switch.

(** ** Exit *)

Lemma bind_cong {S A B} (m : M S A) (k k' : A → M S B) s : (∀ a s, k a s = k' a s) → bind m k s = bind m k' s.
Proof. intros H. unfold bind. by destruct (m s). Qed.

Lemma bind_assoc {S A B C} (m : M S A) (k : A → M S B) (h : B → M S C) s :
  bind (bind m k) h s = bind m (fun a => bind (k a) h) s.
Proof. unfold bind. by destruct (m s). Qed.

Section exit.
Context `{KI : KernelImage} {F : Type} `{FO : FileOps F} `{FL : !FileLaws F}.
Implicit Types (s : kstate F) (ev : kstate F → kstate F).

(** [exit] up to the switch. *)
Definition exit_zombie (status : Z) : M (world F) unit :=
  i ← onw (lkm myproc); i ← deref i;
  init ← onw (gets ks_initproc);
  when (bool_decide (Some i = init)) (panic "init exiting");;
  close_files i;;
  drop_cwd i;;
  onw (lkm (acquire L_wait));;
  onw (reparent i);;
  p ← onw (getp i);
  onw (wakeup (parent_chan p));;
  onw (lkm (acquire (L_proc i)));;
  onw (updp i (fun p => p <| p_xstate := status |> <| p_state := ZOMBIE |>));;
  onw (lkm (release L_wait)).

Lemma exit_split status (w : world F) :
  exit status w = (exit_zombie status;; sched;; panic "zombie exit") w.
Proof.
  unfold exit, exit_zombie. repeat (rewrite bind_assoc; apply bind_cong; intros ? ?). done.
Qed.

Lemma can_exit_equiv i s s' e p : s' ≡ s → can_exit i (World s e) p → can_exit i (World s' e) p.
Proof.
  intros H [H1 H2 H3 H4 H5 H6 H7 H8 H9]. split; cbn [w_k] in *; try done; try by rewrite H.
  by eapply fs_idle_equiv.
Qed.

Lemma wp_exit_zombie status i s e p Q :
  can_exit i (World s e) p → lock_free (L_proc i) (ks_mach s) →
  (∀ s', wsame (exited i (ks_initproc s) (p_parent p) status)
           (World s e) (World (set_kmach (ks_mach s) s') e) →
     ks_mach s' = acq (L_proc i) (ks_mach s) → Q tt (World s' e)) →
  wp (exit_zombie status) (World s e) Q.
Proof.
  intros Hce0 Hlp HQ. pose proof (ce_procs _ _ _ Hce0) as Hok. cbn [w_k] in Hok.
  unfold exit_zombie. wp_simpl. apply wp_myproc_k; [apply Hok|]. intros s0 Hs0.
  pose proof (ce_cur _ _ _ Hce0) as Hcur. cbn [w_k] in Hcur. rewrite Hcur.
  pose proof (can_exit_equiv i s s0 e p Hs0 Hce0) as Hce. pose proof (ce_init _ _ _ Hce) as Hinit. cbn [w_k] in Hinit.
  wp_simpl. rewrite bool_decide_false by congruence. wp_simpl. rewrite <- wp_bind.
  apply (wp_depart i s0 e p); [done|]. intros s2 Hm2 [q Hq] Hw. wp_simpl.
  assert (mach_ok (ks_mach s0)) as Hok0 by (by rewrite Hs0; apply Hok).
  assert (ks_mach s2 = acq L_wait (ks_mach s)) as Hm2' by (rewrite Hm2; apply acq_proper; by rewrite Hs0).
  apply wp_acq; [rewrite Hm2'; by apply mach_ok_acq, Hok|rewrite Hm2'; by apply lock_free_acq|]. wp_simpl.
  eapply wp_updp; [exact Hq|]. wp_simpl. fold (zombie status). rewrite wp_lkm.
  change (ks_mach (upd_procs ?f (set_kmach ?x s2))) with x. rewrite Hm2'.
  apply wp_release_outer; [apply Hok|apply Hce0|done|]. rewrite set_kmach_upd, set_kmach_twice. apply HQ; [|done].
  rewrite set_kmach_upd, set_kmach_twice.
  eapply wsame_ext; [|eapply wsame_trans; [apply (wsame_equiv id s s0 e); by rewrite Hs0|eapply wsame_trans; [exact Hw|]]].
  2:{ apply wsame_equiv. instantiate (1 := alter (zombie status) i). apply upd_procs_proper. apply set_kmach_equiv; [by rewrite Hs0|done]. }
  unfold compose, id, exited. by rewrite Hs0.
Qed.

(** [exit] never returns.  The state it hands over has the process as a
    zombie with the given status, its files and directory released, its
    children given to init, its parent woken, [wait_lock] free again and its
    own lock held; if it were ever resumed it would panic. *)
Theorem exit_correct status i s ev es p :
  can_exit i (World s (ev :: es)) p → runs i (ks_mach s) →
  (∃ s1, ks_mach s1 = acq (L_proc i) (ks_mach s) ∧
     (∃ q, ks_proc s1 !! i = Some q ∧ p_state q = ZOMBIE ∧ p_xstate q = status ∧
        p_pid q = p_pid p ∧ p_ofile q = replicate NOFILE None ∧ p_cwd q = None) ∧
     (∀ j q, j ≠ i → ks_proc s !! j = Some q → ks_proc s1 !! j =
        Some (heir i (ks_initproc s) (p_parent p) (has_child i (seq 0 NPROC) (ks_proc s)) j q)) ∧
     exit status (World s (ev :: es)) =
       (restore_intena (sie (ks_mach s));; panic "zombie exit") (World (ev s1) es)) ∧
  ∀ w u w', exit status w ≠ Ret u w'.
Proof.
  intros Hce Hr. pose proof (ce_proc _ _ _ Hce) as Hp. cbn [w_k] in Hp.
  assert (length (ks_proc s) = NPROC) as Hln by apply (ce_procs _ _ _ Hce). split.
  - assert (wp (exit_zombie status) (World s (ev :: es)) (fun _ w1 => w_env w1 = ev :: es ∧
       ks_mach (w_k w1) = acq (L_proc i) (ks_mach s) ∧
       ks_proc (w_k w1) = exited i (ks_initproc s) (p_parent p) status (ks_proc s)))
      as ([] & [s1 e1] & Hex & He & Hm & Hps)%wp_inv.
    { eapply (wp_exit_zombie status i); [done|apply Hr|]. intros s' Hw Hm. split; [done|]. split; [done|].
      exact (ws_proc _ _ _ Hw). }
    cbn in He, Hm, Hps. subst e1. pose proof (lookup_exited_self i (ks_initproc s) (p_parent p) status _ p Hln
      (ce_self _ _ _ Hce) Hp) as Hq. rewrite <- Hps in Hq. exists s1. split; [done|]. split; [by eexists|]. split.
    + intros j q Hne Hj. rewrite Hps. by apply lookup_exited_other.
    + rewrite exit_split. rewrite (bind_ret _ _ _ tt (World s1 (ev :: es))) by done.
      destruct (sched_switch i _ s1 (ks_mach s) ev es Hr Hm Hq) as [Hsw _]; [done|].
      unfold bind at 1. rewrite Hsw. done.
  - intros w u w'. rewrite exit_split. unfold bind at 1. destruct (exit_zombie status w); try done.
    unfold bind. by destruct (sched s0).
Qed.

End exit.

(** ** One round of the scheduler *)

(** The hart runs process [o]. *)
Definition with_proc (o : option nat) (m : mach) : mach :=
  on_mycpu (fun c => Cpu o (c_context c) (noff c) (intena c)) m.

Lemma with_proc_acq o lk m : with_proc o (acq lk m) = acq lk (with_proc o m).
Proof.
  unfold with_proc, acq, push, on_mycpu, set_lock, set_sstatus, hid. cbn. f_equal.
  rewrite !list_alter_alter_eq. apply list_alter_ext; [|done]. done.
Qed.

Lemma with_proc_twice o o' m : with_proc o (with_proc o' m) = with_proc o m.
Proof.
  unfold with_proc, on_mycpu, hid. cbn. f_equal. rewrite list_alter_alter_eq. by apply list_alter_ext.
Qed.

Lemma with_proc_cpu o m c : cpus m !! hid m = Some c →
  cpus (with_proc o m) !! hid m = Some (Cpu o (c_context c) (noff c) (intena c)).
Proof. intros Hc. unfold with_proc, on_mycpu. cbn. by rewrite list_lookup_alter_eq, Hc. Qed.

Lemma with_proc_cur m : mach_ok m → with_proc (cur m) m = m.
Proof.
  intros (_ & c & Hc & _). unfold with_proc, on_mycpu, cur. rewrite Hc.
  erewrite alter_as_insert by done. destruct m as [t x cs ls]. cbn in *. f_equal. apply list_insert_id.
  rewrite Hc. by destruct c.
Qed.

Lemma mach_ok_with_proc o m : mach_ok m → mach_ok (with_proc o m).
Proof. intros (H1 & c & Hc & H2). split; [done|]. eexists. split; [exact (with_proc_cpu o m c Hc)|done]. Qed.

Lemma cur_with_proc o m : mach_ok m → cur (with_proc o m) = o.
Proof. intros (_ & c & Hc & _). unfold cur. change (hid (with_proc o m)) with (hid m). by erewrite with_proc_cpu. Qed.

#[global] Instance with_proc_proper o : Proper (equiv ==> equiv) (with_proc o).
Proof.
  assert (∀ m, norm (with_proc o m) = with_proc o (norm m)) as Hn.
  { intros m. unfold with_proc, norm, on_mycpu, hid. cbn. f_equal. rewrite !list_alter_alter_eq.
    by apply list_alter_ext. }
  intros m m' H. red. red. rewrite !Hn. f_equal. exact H.
Qed.

Section slots.
Context `{KI : KernelImage} {F : Type} `{FO : FileOps F} `{FL : !FileLaws F}.
Implicit Types (s : kstate F) (ev : kstate F → kstate F).

Lemma wp_set_cproc o s id Q :
  mach_ok (ks_mach s) → id = hid (ks_mach s) →
  Q tt (set_kmach (with_proc o (ks_mach s)) s) → wp (set_cproc id o) s Q.
Proof.
  intros (_ & c & Hc & _) -> HQ. unfold set_cproc. rewrite wp_lkm. wp_simpl. rewrite Hc.
  unfold with_proc, on_mycpu in HQ. by erewrite alter_as_insert in HQ.
Qed.

Lemma wp_handle_none kstack i s e p Q :
  ks_proc s !! i = Some p → sg_count (p_signaling p) = 0 →
  Q false (World (upd_procs (alter (set_inh 0) i) s) e) → wp (handle_signals kstack i) (World s e) Q.
Proof.
  intros Hp Hc HQ. unfold handle_signals. wp_simpl. eapply wp_updp; [done|]. fold (set_inh 1). wp_simpl.
  pose proof (lookup_upd (set_inh 1) i s p Hp) as Hp1. eapply wp_getp; [exact Hp1|].
  change (sg_count (p_signaling (set_inh 1 p))) with (sg_count (p_signaling p)). rewrite Hc.
  change (truthy 0) with false. wp_simpl. eapply wp_updp; [exact Hp1|]. fold (set_inh 0). wp_simpl. rewrite upd_alter_comp.
  rewrite (upd_procs_alter i _ (set_inh 0) s p Hp) by done. exact HQ.
Qed.

(** The chosen process, before the alarm is looked at. *)
Definition chosen (p : proc) : proc := p <| p_state := RUNNING |>.

(** The machine while the scheduler works on slot [i]. *)
Definition slot_mach (i : nat) (m : mach) : mach := acq (L_proc i) (with_proc (Some i) m).

Lemma wp_swtch ev es s Q : Q tt (World (ev s) es) → wp swtch (World s (ev :: es)) Q.
Proof. done. Qed.

(** The round of a runnable process, from the alarm on. *)
Lemma wp_slot_chosen kstack i s p e (Q : bool → world F → Prop) :
  procs_ok None s → ks_proc s !! i = Some p → p_state p = RUNNABLE →
  wp (when (truthy (p_alarm_set p) && (ks_ticks s <=? p_cycles_at_alarm p))
        (onw (updp i (fun p => p <| p_alarm_set := 0 |>));;
         onw (send_signal (Signal SIGNAL_ALARM (p_pid p) 0) (p_pid p));; ret tt);;
      dead ← handle_signals kstack i;
      when (negb dead) swtch;;
      onw (set_cproc (hid (ks_mach s)) None);;
      onw (lkm (release (L_proc i)));;
      ret true)
    (World (set_kmach (slot_mach i (ks_mach s)) (upd_procs (alter chosen i) s)) e) Q →
  wp (sched_slot (hid (ks_mach s)) kstack i) (World s e) Q.
Proof.
  intros Hok Hp Hst HQ. pose proof (po_mach _ _ Hok) as Hmok.
  assert (lock_free (L_proc i) (ks_mach s)) as Hl.
  { apply Hok; [|done]. rewrite <- (po_len _ _ Hok). by eapply lookup_lt_Some. }
  unfold sched_slot. wp_simpl. apply wp_acq; [done|done|]. wp_simpl.
  eapply wp_getp; [exact Hp|]. rewrite decide_True by done. wp_simpl.
  eapply wp_updp; [exact Hp|]. fold chosen. wp_simpl. apply wp_set_cproc; [by apply mach_ok_acq|done|].
  rewrite <- set_kmach_upd, set_kmach_twice. change (ks_mach (set_kmach ?x _)) with x. rewrite with_proc_acq.
  fold (slot_mach i (ks_mach s)). wp_simpl. rewrite wp_bind in HQ. eapply wp_mono; [exact HQ|].
  cbn beta. intros _ w Hw. rewrite wp_bind in Hw |- *. eapply wp_mono; [exact Hw|]. cbn beta. intros dead w1 Hw1.
  rewrite wp_bind in Hw1 |- *. eapply wp_mono; [exact Hw1|]. cbn beta. intros _ w2 Hw2.
  rewrite wp_bind in Hw2 |- *. eapply wp_mono; [exact Hw2|]. done.
Qed.

(** A runnable process with no signal queued is run: control passes to it
    with its lock held, and the cpu is the scheduler's again when it comes
    back.  If its alarm is overdue nothing has been signalled: the comparison
    looks for a deadline that lies ahead. *)
Theorem overdue_alarm_ignored kstack i s ev es p m' :
  procs_ok None s → ks_proc s !! i = Some p → p_state p = RUNNABLE → sg_count (p_signaling p) = 0 →
  p_alarm_set p = 1 → p_cycles_at_alarm p < ks_ticks s →
  let s1 := set_kmach (slot_mach i (ks_mach s)) (upd_procs (alter (set_inh 0 ∘ chosen) i) s) in
  mach_ok m' → lock_free (L_proc i) m' → hid m' = hid (ks_mach s) → ks_mach (ev s1) = acq (L_proc i) m' →
  wp (sched_slot (hid (ks_mach s)) kstack i) (World s (ev :: es)) (fun ran w' =>
    ran = true ∧ w_env w' = es ∧ w_k w' ≡ set_kmach (with_proc None m') (ev s1)).
Proof.
  intros Hok Hp Hst Hc Ha Hdl s1 Hok' Hl' Hh' Hm'.
  assert (lock_free (L_proc i) (ks_mach s)) as Hl.
  { apply Hok; [|done]. rewrite <- (po_len _ _ Hok). by eapply lookup_lt_Some. }
  pose proof (po_mach _ _ Hok) as Hmok. apply (wp_slot_chosen kstack i s p); [done|done|done|].
  rewrite Ha. change (truthy 1) with true. cbn [andb].
  assert ((ks_ticks s <=? p_cycles_at_alarm p) = false) as -> by lia. wp_simpl.
  eapply wp_handle_none; [by apply lookup_upd|done|]. wp_simpl.
  rewrite <- set_kmach_upd, upd_alter_comp.
  apply wp_swtch. fold s1. wp_simpl.
  apply wp_set_cproc; [rewrite Hm'; by apply mach_ok_acq|by rewrite Hm'|]. rewrite Hm', with_proc_acq. wp_simpl.
  apply (wp_rel (L_proc i) (set_kmach (with_proc None m') (ev s1))); [by apply mach_ok_with_proc|done|done|].
  intros s2 Hs2. wp_simpl. split; [done|]. split; [done|]. cbn. rewrite Hs2. by rewrite set_kmach_twice.
Qed.

Lemma procs_sig_upd g i s : (∀ p, p_signaling (g p) = p_signaling p) →
  procs_sig s → procs_sig (upd_procs (alter g i) s).
Proof.
  intros Hg Hs j q Hq. cbn in Hq. destruct (decide (j = i)) as [->|Hne].
  - rewrite list_lookup_alter_eq in Hq. destruct (ks_proc s !! i) as [p|] eqn:Hp; [|done].
    injection Hq as <-. rewrite Hg. by eapply Hs.
  - rewrite list_lookup_alter_ne in Hq by done. by eapply Hs.
Qed.

Lemma last_with_pid_alter g ps pid i p j q :
  (∀ p, p_pid (g p) = p_pid p) → last_with_pid ps pid i p → last_with_pid (alter g i ps) pid j q → j = i.
Proof.
  intros Hg (Hp & Hpid & Hlast) (Hq & Hqid & Hqlast). destruct (lt_eq_lt_dec j i) as [[Hlt| ->]|Hlt]; [|done|].
  - destruct (Hqlast i (g p)); [done|by rewrite list_lookup_alter_eq, Hp|by rewrite Hg].
  - rewrite list_lookup_alter_ne in Hq by lia. by destruct (Hlast j q).
Qed.

Definition alarm_off (p : proc) : proc := p <| p_alarm_set := 0 |>.

(** The alarm is delivered while its deadline still lies ahead: a runnable
    process whose ALARM handler is TERMINATE is ended in the first round after
    it set the alarm, without being run again. *)
Theorem alarm_fires_early kstack i s e p :
  procs_ok None s → procs_sig s → cur (ks_mach s) = None →
  can_exit i (World (set_kmach (slot_mach i (ks_mach s)) s) e) p →
  last_with_pid (ks_proc s) (p_pid p) i p → p_state p = RUNNABLE → p_killed p = 0 →
  pending (p_signaling p) = [] → page_ok (p_trapframe p) →
  sg_handlers (p_signaling p) !! Z.to_nat SIGNAL_ALARM = Some SIGNAL_HANDLER_TERMINATE →
  p_alarm_set p = 1 → ks_ticks s < p_cycles_at_alarm p →
  wp (sched_slot (hid (ks_mach s)) kstack i) (World s e) (fun ran w' =>
    ran = true ∧ w_env w' = e ∧ ks_mach (w_k w') ≡ ks_mach s ∧
    ∃ q, ks_proc (w_k w') !! i = Some q ∧ p_state q = ZOMBIE ∧ p_xstate q = -1).
Proof.
  intros Hok Hsig Hcur Hce Hlast Hst Hk Hpend Htf Hh Ha Hdl. pose proof (ce_proc _ _ _ Hce) as Hp. cbn in Hp.
  pose proof (Hsig i p Hp) as Hi. pose proof (length_pending _ Hi) as Hlen. rewrite Hpend in Hlen. cbn in Hlen.
  apply (wp_slot_chosen kstack i s p); [done|done|done|]. rewrite Ha. change (truthy 1) with true. cbn [andb].
  assert ((ks_ticks s <=? p_cycles_at_alarm p) = true) as -> by lia. wp_simpl. rewrite set_kmach_upd.
  set (s0 := set_kmach _ s) in *. eapply wp_updp; [by apply lookup_upd|]. fold alarm_off. rewrite upd_alter_comp. wp_simpl.
  set (g := alarm_off ∘ chosen). apply wp_send_signal.
  { split; [apply (ce_procs _ _ _ Hce)|]. split; [cbn; rewrite length_alter; apply Hok|].
    split; [by apply procs_sig_upd|]. cbn. done. }
  { intros H. by destruct (H i (g p) (lookup_upd g i s0 p Hp)). }
  2:{ intros j q Hj Hfull. pose proof (last_with_pid_alter g (ks_proc s) (p_pid p) i p j q ltac:(done) Hlast Hj) as ->.
      destruct Hj as (Hq & _). rewrite (lookup_upd g i s0 p Hp) in Hq. injection Hq as <-.
      change (sg_count (p_signaling (g p))) with (sg_count (p_signaling p)) in Hfull. unfold MAX_SIGNALS in *. lia. }
  intros j q s2 Hj _ Hs2. pose proof (last_with_pid_alter g (ks_proc s) (p_pid p) i p j q ltac:(done) Hlast Hj) as ->.
  rewrite upd_alter_comp in Hs2. set (sgn := Signal _ _ _) in Hs2. wp_simpl.
  destruct (push_signal_pending sgn (g p)) as [Hi2 Hpend2]; [done|cbn; unfold MAX_SIGNALS; lia|].
  change (pending (p_signaling (g p))) with (pending (p_signaling p)) in Hpend2. rewrite Hpend in Hpend2.
  assert (can_exit i (World s2 e) ((push_signal sgn ∘ g) p)) as Hce2.
  { apply (can_exit_equiv i (upd_procs (alter (push_signal sgn ∘ g) i) s0)); [done|]. by apply can_exit_upd. }
  eapply (wp_handle_fatal kstack i s2 e _ [] sgn []); [exact Hce2|exact Hi2|exact Hpend2|done| |done|by cbn|done|].
  { left. split; [done|]. exact Hh. }
  intros [s3 e3] [He3 Hm3 (q3 & Hq3 & Hz & Hx & _) _]. cbn in He3, Hm3, Hq3. subst e3. wp_simpl.
  assert (ks_mach s3 ≡ slot_mach i (ks_mach s)) as Hm3' by (by rewrite Hm3, Hs2).
  assert (lock_free (L_proc i) (ks_mach s)) as Hl.
  { apply Hok; [|done]. rewrite <- (po_len _ _ Hok). by eapply lookup_lt_Some. }
  pose proof (po_mach _ _ Hok) as Hmok. assert (mach_ok (with_proc (Some i) (ks_mach s))) as Hmok' by (by apply mach_ok_with_proc).
  apply wp_set_cproc; [rewrite Hm3'; by apply mach_ok_acq|by rewrite Hm3'|]. wp_simpl.
  apply (wp_rel (L_proc i) s); [done|done| |].
  { change (ks_mach (set_kmach ?x _)) with x. rewrite Hm3'. unfold slot_mach. rewrite with_proc_acq, with_proc_twice.
    rewrite <- Hcur, with_proc_cur; done. }
  intros s4 Hs4. wp_simpl. split; [done|]. split; [done|]. split; [cbn; by rewrite Hs4|].
  exists q3. cbn. by rewrite Hs4.
Qed.

End slots.

(** ** Examples *)

#[local] Existing Instance small_image.
#[local] Existing Instance no_files.
#[local] Existing Instance no_files_laws.

Lemma table_runs : runs 1 (table_mach (Some 1%nat)).
Proof. split; [apply table_mach_ok|by eexists|done|done]. Qed.

(** The scheduler runs the process again. *)
Definition resume : kstate unit → kstate unit := upd_procs (alter chosen 1%nat).

Lemma sleep_correct_witness :
  wp (sleep C_ticks L_wait)
    (World (set_kmach (acq L_wait (table_mach (Some 1%nat))) (sig_ks (signaled []))) [resume])
    (fun r w' => r = 0 ∧ p_chan <$> ks_proc (w_k w') !! 1%nat = Some C_null).
Proof.
  eapply wp_mono.
  - eapply (sleep_correct C_ticks L_wait 1 (signaled []) _ _ resume [] (table_mach (Some 1%nat)));
      [apply table_runs|by eexists|done|reflexivity|reflexivity|apply table_runs|by eexists|reflexivity|reflexivity].
  - cbn beta. intros r w' [-> ->]. split; reflexivity.
Defined.

Lemma yield_correct_witness :
  wp yield (World (sig_ks (signaled [])) [resume])
    (fun _ w' => p_state <$> ks_proc (w_k w') !! 1%nat = Some RUNNING).
Proof.
  eapply wp_mono.
  - eapply (yield_correct 1 (signaled []) _ _ resume [] (table_mach (Some 1%nat)));
      [apply table_runs|reflexivity|reflexivity|apply table_runs|reflexivity|reflexivity].
  - cbn beta. intros r w' [_ Hw]. by rewrite Hw.
Defined.

Lemma can_exit_env i (s : kstate unit) e e' p : can_exit i (World s e) p → can_exit i (World s e') p.
Proof. by intros []. Qed.

Lemma exit_correct_witness :
  exit 3 (World (sig_ks (signaled [])) [resume]) = Panic "zombie exit".
Proof.
  destruct (exit_correct 3 1 (sig_ks (signaled [])) resume [] (signaled [])) as [(s1 & Hm & (q & Hq & _) & _ & ->) _].
  - apply (can_exit_env _ _ []), signaled_exit.
  - apply table_runs.
  - assert (wp (restore_intena true) (World (resume s1) []) (fun _ _ => True)) as ([] & w & Hw & _)%wp_inv.
    { eapply (wp_restore true 1); [apply table_runs|exact Hm|exact I]. }
    erewrite bind_ret; [reflexivity|exact Hw].
Defined.

(** Slot 1 waits to run, its alarm set for tick [t]; the clock shows 100. *)
Definition alarmed (t : Z) : proc := (signaled []) <| p_state := RUNNABLE |> <| p_alarm_set := 1 |>
  <| p_cycles_at_alarm := t |>
  <| p_signaling ::= fun sg => sg <| sg_handlers := [SIGNAL_HANDLER_TERMINATE; SIGNAL_HANDLER_IGNORE] |> |>.
Definition alarm_ks (t : Z) : kstate unit := upd_procs (<[1%nat := alarmed t]>) (table_ks None).

Lemma alarm_procs_ok t : procs_ok None (alarm_ks t).
Proof. apply (procs_ok_upd _ (<[1%nat := alarmed t]>)); [intros; apply length_insert|apply table_procs_ok]. Qed.

Lemma overdue_alarm_ignored_witness :
  wp (sched_slot 0 0 1) (World (alarm_ks 50) [upd_procs (alter yielded 1%nat)]) (fun ran w' =>
    ran = true ∧ p_alarm_set <$> ks_proc (w_k w') !! 1%nat = Some 1).
Proof.
  eapply wp_mono.
  - eapply (overdue_alarm_ignored 0 1 (alarm_ks 50) (upd_procs (alter yielded 1%nat)) [] (alarmed 50)
      (with_proc (Some 1%nat) (table_mach None))); [apply alarm_procs_ok|reflexivity..| | | |reflexivity].
    + apply mach_ok_with_proc, table_mach_ok.
    + by eexists.
    + reflexivity.
  - cbn beta. intros ran w' (-> & _ & Hw). split; [reflexivity|]. by rewrite Hw.
Defined.

Lemma alarm_fires_early_witness :
  wp (sched_slot 0 0 1) (World (alarm_ks 150) []) (fun ran w' =>
    ran = true ∧ p_state <$> ks_proc (w_k w') !! 1%nat = Some ZOMBIE).
Proof.
  eapply wp_mono.
  - apply (alarm_fires_early 0 1 (alarm_ks 150) [] (alarmed 150)); try reflexivity.
    + apply alarm_procs_ok.
    + intros i p Hp. apply lookup_insert_cases in Hp as [[_ ->]|[_ Hp]]; [|by eapply table_sig].
      split; vm_compute; try done; split; done.
    + split; try done.
      * split; [apply mach_ok_acq, mach_ok_with_proc, table_mach_ok|reflexivity|].
        intros j Hj Hne. apply lock_free_acq; [congruence|]. exists "proc"%string.
        apply table_locks_free, elem_of_seq. lia.
      * by exists "wait_lock"%string.
    + split; [reflexivity|]. split; [reflexivity|]. intros j q Hj Hq.
      apply lookup_insert_cases in Hq as [[<- _]|[_ Hq]]; [lia|].
      destruct j as [|[|j]]; [lia|lia|]. change (replicate 62 proc0 !! j = Some q) in Hq.
      apply lookup_replicate in Hq as [-> _]. done.
    + apply (signaled_tf []).
  - cbn beta. intros ran w' (-> & _ & _ & q & Hq & Hz & _). split; [reflexivity|]. rewrite Hq. cbn. by rewrite Hz.
Defined.
