(* ===== verification/SleepRace.v ===== *)
(** * No lost wakeups: sleep and wakeup under interleaving
    (kernel/proc.c, sleeplock.c)

    Processes acquire and release one sleep lock, on any number of harts.  The
    code of [sleep] and [wakeup] is given as the sequence of its steps, at the
    granularity of lock operations and of stores to [p->chan] and [p->state];
    run without interruption it is the code of Proc.v, and here the processes'
    steps interleave.  The scheduler appears as the release of [p->lock] after a
    process has switched away, and its acquisition when the process, being
    runnable, is resumed. *)

From Stdlib Require Import ZArith Lia.
From stdpp Require Import base gmap strings numbers list functions relations.
From S2P Require Import Prelude Spinlock Mem Kstring Kalloc Vm Proc ProcFacts ProcOps Sched.
Local Open Scope xv6_scope.

(** ** The code *)

(** The steps of [sleep] and [wakeup]; [SetChan] and [SetState] are stores to the
    process that runs. *)
Inductive pact :=
| Acquire (l : lockid)
| Release (l : lockid)
| SetChan (c : chan)
| SetState (st : procstate)
| Sched
| Wake (j : nat) (c : chan).   (* if(p->state == SLEEPING && p->chan == chan) p->state = RUNNABLE *)

(** [sleep], up to its call of [sched] and after it. *)
Definition sleep_down (i : nat) (c : chan) (lk : lockid) : list pact :=
  [Acquire (L_proc i); Release lk; SetChan c; SetState SLEEPING; Sched].
Definition sleep_up (i : nat) (lk : lockid) : list pact :=
  [SetChan C_null; Release (L_proc i); Acquire lk].

(** One round of [wakeup], and all of them: every process but the caller. *)
Definition wake_round (c : chan) (j : nat) : list pact := [Acquire (L_proc j); Wake j c; Release (L_proc j)].
Definition other_procs (i : nat) : list nat := filter (fun j => j ≠ i) (seq 0 NPROC).
#[global] Arguments other_procs : simpl never.
Definition wakeup_code (i : nat) (c : chan) : list pact := flat_map (wake_round c) (other_procs i).

(** ** Alone: the code is that of Proc.v *)

Section alone.
Context `{KI : KernelImage} {F : Type}.

Definition run_pact (i : nat) (a : pact) : M (world F) unit :=
  match a with
  | Acquire l => onw (lkm (acquire l))
  | Release l => onw (lkm (release l))
  | SetChan c => onw (updp i (fun p => p <| p_chan := c |>))
  | SetState st => onw (updp i (fun p => p <| p_state := st |>))
  | Sched => sched
  | Wake j c => onw (p ← getp j; when (bool_decide (p_state p = SLEEPING ∧ p_chan p = c)) (updp j (fun p => p <| p_state := RUNNABLE |>)))
  end.

Definition run_code (i : nat) (l : list pact) : M (world F) unit := for_each l (run_pact i).

Lemma updp_twice i (f g : proc → proc) w :
  onw (updp (F := F) i (fun p => g (f p))) w = (onw (updp i f);; onw (updp i g)) w.
Proof.
  destruct w as [[? ps ? ? ? ? ? ?] e]. unfold onw, zoom, updp, getp, bind, get, modify, ret, fault. cbn.
  destruct (ps !! i) as [p|] eqn:Hp; [|done]. cbn. rewrite list_lookup_alter_eq, Hp. cbn. do 2 f_equal. unfold setf. cbn.
  by rewrite list_alter_alter_eq.
Qed.

(** [sleep] is the sequence of its steps, with the test of the signal handler in
    the middle. *)
Theorem sleep_steps c lk w : sleep (F := F) c lk w =
  (i ← onw (lkm myproc); i ← deref i;
   run_code i (sleep_down i c lk);;
   p ← onw (getp i);
   run_code i (sleep_up i lk);;
   ret (sg_in_handler (p_signaling p))) w.
Proof.
  unfold sleep, run_code, sleep_down, sleep_up. cbn [for_each run_pact].
  apply bind_cong. intros o w1. apply bind_cong. intros i w2.
  do 2 (etrans; [|symmetry; apply bind_assoc]; apply bind_cong; intros _ ?).
  etrans; [unfold bind at 1; rewrite (updp_twice i (fun p => p <| p_chan := c |>) (fun p => p <| p_state := SLEEPING |>)); apply bind_assoc|].
  do 2 (etrans; [|symmetry; apply bind_assoc]; apply bind_cong; intros _ ?).
  etrans; [|symmetry; apply bind_assoc]. apply bind_cong. intros _ w3.
  etrans; [|symmetry; apply (bind_ret (ret tt)); reflexivity]. apply bind_cong. intros p w4.
  do 3 (etrans; [|symmetry; apply bind_assoc]; apply bind_cong; intros _ ?). done.
Qed.

Lemma onw_bind {A B} (m : M (kstate F) A) (k : A → M (kstate F) B) w : onw (bind m k) w = bind (onw m) (fun x => onw (k x)) w.
Proof. destruct w as [s e]. unfold onw, zoom, bind. cbn. by destruct (m s). Qed.

Lemma bind_left {A B} (m m' : M (world F) A) (k : A → M (world F) B) w : m w = m' w → bind m k w = bind m' k w.
Proof. intros E. unfold bind. by rewrite E. Qed.

(** [wakeup] is the sequence of its rounds. *)
Theorem wakeup_steps c w i : onw (wakeup (F := F) c) w =
  for_each (seq 0 NPROC) (fun j =>
    me ← onw (lkm myproc); if decide (me = Some j) then ret tt else run_code i (wake_round c j)) w.
Proof.
  unfold wakeup. revert w. induction (seq 0 NPROC) as [|j l IH]; intros w; cbn [for_each]; [by destruct w|].
  assert (∀ me w', onw (if decide (me = Some j) then ret tt else
      lkm (acquire (L_proc j));; p ← getp j; when (bool_decide (p_state p = SLEEPING ∧ p_chan p = c))
        (updp (F := F) j (fun p => p <| p_state := RUNNABLE |>));; lkm (release (L_proc j))) w' =
    (if decide (me = Some j) then ret tt else run_code i (wake_round c j)) w') as E.
  { intros me w'. case_decide; [by destruct w'|]. rewrite onw_bind. unfold run_code, wake_round. cbn [for_each run_pact].
    apply bind_cong. intros _ w2. etrans; [|symmetry; unfold bind at 1; rewrite onw_bind; reflexivity].
    rewrite onw_bind. etrans; [|symmetry; apply bind_assoc]. apply bind_cong. intros p w3. rewrite onw_bind. apply bind_cong.
    intros _ w4. unfold bind. by destruct (onw _ w4) as [[]| | | | |]. }
  rewrite onw_bind. etrans; [apply bind_left; rewrite onw_bind; apply bind_cong, E|]. apply bind_cong. intros _ w'. apply IH.
Qed.

End alone.

(** ** Together *)

(** What a process has still to do.  [Resume] is the rest of [sched]: the
    scheduler goes over to the process.  [Loop] is the loop of [acquiresleep],
    [Put] stores the fields of the sleep lock. *)
Inductive act :=
| Do (a : pact)
| Resume
| Loop
| Put (v : Z) (pid : option nat).

Record race := Race {
  ra_lock : lockid → option nat;       (* which process, or the hart for it, has a spinlock *)
  ra_state : nat → procstate;          (* p->state *)
  ra_chan : nat → chan;                (* p->chan *)
  ra_locked : Z;                       (* lk->locked *)
  ra_pid : option nat;                 (* lk->pid *)
  ra_code : nat → list act
}.
#[global] Instance race_eta : Eta race := fun r =>
  Race (ra_lock r) (ra_state r) (ra_chan r) (ra_locked r) (ra_pid r) (ra_code r).

Section race.
(** The spinlock of the sleep lock, and the sleep lock as a channel. *)
Variables (lk : lockid) (c : chan).
Hypothesis lk_own : ∀ j, lk ≠ L_proc j.

Definition dos (l : list pact) : list act := Do <$> l.

Definition acquiresleep_code (i : nat) : list act :=
  [Do (Acquire lk); Loop; Put 1 (Some i); Do (Release lk)].
Definition releasesleep_code (i : nat) : list act :=
  [Do (Acquire lk); Put 0 None] ++ dos (wakeup_code i c) ++ [Do (Release lk)].

(** The next step of process [i]; [None] if it has to wait. *)
Definition act_step (i : nat) (st : race) : option race :=
  match ra_code st i with
  | [] => None
  | a :: k =>
    let go (st : race) := Some (st <| ra_code ::= <[i := k]> |>) in
    match a with
    | Do (Acquire l) => if decide (ra_lock st l = None) then go (st <| ra_lock ::= <[l := Some i]> |>) else None
    | Do (Release l) => if decide (ra_lock st l = Some i) then go (st <| ra_lock ::= <[l := None]> |>) else None
    | Do (SetChan c) => go (st <| ra_chan ::= <[i := c]> |>)
    | Do (SetState x) => go (st <| ra_state ::= <[i := x]> |>)
    | Do Sched => Some (st <| ra_lock ::= <[L_proc i := None]> |> <| ra_code ::= <[i := Resume :: k]> |>)
    | Resume =>
      if decide (ra_state st i = RUNNABLE ∧ ra_lock st (L_proc i) = None)
      then go (st <| ra_lock ::= <[L_proc i := Some i]> |> <| ra_state ::= <[i := RUNNING]> |>) else None
    | Do (Wake j c) =>
      go (if decide (ra_state st j = SLEEPING ∧ ra_chan st j = c) then st <| ra_state ::= <[j := RUNNABLE]> |> else st)
    | Loop =>
      if truthy (ra_locked st)
      then Some (st <| ra_code ::= <[i := dos (sleep_down i c lk) ++ dos (sleep_up i lk) ++ Loop :: k]> |>) else go st
    | Put v pid => go (st <| ra_locked := v |> <| ra_pid := pid |>)
    end
  end.

(** A process takes its next step, or calls one of the two functions; or [kill]
    makes a sleeping process runnable. *)
Inductive rstep : race → race → Prop :=
| r_act i st st' : act_step i st = Some st' → rstep st st'
| r_call i st code :
    (i < NPROC)%nat → ra_code st i = [] → code = acquiresleep_code i ∨ code = releasesleep_code i →
    rstep st (st <| ra_code ::= <[i := code]> |>)
| r_kill i st :
    ra_lock st (L_proc i) = None → ra_state st i = SLEEPING → rstep st (st <| ra_state ::= <[i := RUNNABLE]> |>).

(** No process is inside any of this. *)
Definition race_init (v : Z) : race := Race (fun _ => None) (fun _ => RUNNING) (fun _ => C_null) v None (fun _ => []).

(** Process [j] has the spinlock, has let go of the sleep lock, and has still
    to wake process [i]. *)
Definition will_wake (st : race) (j i : nat) : Prop :=
  ra_lock st lk = Some j ∧ Do (Wake i c) ∈ ra_code st j ∧ Put 0 None ∉ ra_code st j.

(** ** The invariant *)

Inductive pc :=
| P_idle | P_enter | P_loop
| P_lock | P_unlock | P_chan | P_state | P_sched | P_asleep | P_tidy | P_rel
| P_take | P_call | P_free | P_scan (js : list nat) | P_wake (j : nat) (js : list nat) | P_woke (j : nat) (js : list nat).

Definition rest (i : nat) : list act := [Loop; Put 1 (Some i); Do (Release lk)].
Definition rounds (js : list nat) : list act := dos (flat_map (wake_round c) js) ++ [Do (Release lk)].

Definition code_at (i : nat) (p : pc) : list act :=
  let down := dos (sleep_down i c lk) in
  let up := dos (sleep_up i lk) in
  match p with
  | P_idle => []
  | P_enter => Do (Acquire lk) :: rest i
  | P_loop => rest i
  | P_lock => down ++ up ++ rest i
  | P_unlock => drop 1 down ++ up ++ rest i
  | P_chan => drop 2 down ++ up ++ rest i
  | P_state => drop 3 down ++ up ++ rest i
  | P_sched => drop 4 down ++ up ++ rest i
  | P_asleep => Resume :: up ++ rest i
  | P_tidy => up ++ rest i
  | P_rel => drop 1 up ++ rest i
  | P_take => [Put 1 (Some i); Do (Release lk)]
  | P_call => releasesleep_code i
  | P_free => Put 0 None :: rounds (other_procs i)
  | P_scan js => rounds js
  | P_wake j js => Do (Wake j c) :: Do (Release (L_proc j)) :: rounds js
  | P_woke j js => Do (Release (L_proc j)) :: rounds js
  end.

(** The spinlocks it has there. *)
Definition held (i : nat) (p : pc) : list lockid :=
  match p with
  | P_idle | P_enter | P_asleep | P_call => []
  | P_loop | P_lock | P_take | P_free | P_scan _ => [lk]
  | P_unlock => [lk; L_proc i]
  | P_chan | P_state | P_sched | P_tidy | P_rel => [L_proc i]
  | P_wake j _ | P_woke j _ => [lk; L_proc j]
  end.

(** If the sleep lock is free, somebody will wake [i]. *)
Definition guard (st : race) (i : nat) : Prop := ra_locked st = 0 → ∃ j, will_wake st j i.

Definition here (st : race) (i : nat) (p : pc) : Prop :=
  match p with
  | P_lock | P_unlock => ra_locked st ≠ 0
  | P_chan => guard st i
  | P_state | P_sched => ra_chan st i = c ∧ guard st i
  | P_asleep => ra_state st i = SLEEPING → ra_chan st i = c ∧ guard st i
  | P_scan js => i ∉ js
  | P_wake j js | P_woke j js => j ≠ i ∧ i ∉ js
  | _ => True
  end ∧
  match p with P_sched | P_asleep => True | _ => ra_state st i ≠ SLEEPING end.

Record thread_ok (st : race) (i : nat) (p : pc) : Prop := {
  th_code : ra_code st i = code_at i p;
  th_lock : ∀ l, ra_lock st l = Some i ↔ l ∈ held i p;
  th_here : here st i p;
  th_lt : (i < NPROC)%nat ∨ p = P_idle
}.

Definition race_inv (st : race) : Prop := ∀ i, ∃ p, thread_ok st i p.

(** *** The threads that do not move *)

Lemma guard_keep st st' i k :
  (∀ j, j ≠ i → ra_code st' j = ra_code st j) → (∀ j, j ≠ i → ra_lock st lk = Some j → ra_lock st' lk = Some j) →
  (will_wake st i k → will_wake st' i k) → ra_locked st' = ra_locked st → guard st k → guard st' k.
Proof.
  intros Hc Hl Hi E Hg H0. rewrite E in H0. destruct (Hg H0) as (j & Hj). destruct (decide (j = i)) as [->|Hne]; [exists i; auto|].
  exists j. destruct Hj as (H1 & H2 & H3). unfold will_wake. rewrite Hc by done. auto.
Qed.

(** Process [i], at [p], takes a step. *)
Record moves (st st' : race) (i : nat) (p : pc) : Prop := {
  mv_code : ∀ j, j ≠ i → ra_code st' j = ra_code st j;
  mv_lock : ∀ j l, j ≠ i → ra_lock st' l = Some j ↔ ra_lock st l = Some j;
  mv_chan : ∀ j, j ≠ i → ra_chan st' j = ra_chan st j;
  mv_state : ∀ j, j ≠ i → ra_state st' j = ra_state st j ∨ (ra_state st' j ≠ SLEEPING ∧ ra_lock st (L_proc j) ≠ Some j);
  mv_locked : ra_locked st' = ra_locked st ∨ lk ∈ held i p;
  mv_guard : ∀ j, j ≠ i → (j < NPROC)%nat → ra_state st' j = ra_state st j →
    ra_lock st (L_proc j) = Some j ∨ (ra_state st j = SLEEPING ∧ ra_chan st j = c) → guard st j → guard st' j
}.

Lemma inv_moves st st' i p p' :
  race_inv st → thread_ok st i p → moves st st' i p → thread_ok st' i p' → race_inv st'.
Proof.
  intros Hinv Hi [M1 M2 M3 M4 M5 M6] Hi' k. destruct (decide (k = i)) as [->|Hk]; [by exists p'|].
  destruct (Hinv k) as [q [H1 H2 [H3 H3'] H4]]. exists q. split; [by rewrite M1|intros l; rewrite M2 by done; apply H2| |done].
  assert (lk ∈ held k q → ra_locked st' = ra_locked st) as Hlk.
  { intros Hin%H2. destruct M5 as [?|Hi2%(th_lock _ _ _ Hi)]; [done|congruence]. }
  specialize (M4 k Hk). assert (L_proc k ∈ held k q → ra_state st' k = ra_state st k) as Hst.
  { intros Hin%H2. destruct M4 as [?|[_ ?]]; done. }
  assert (∀ Hin : L_proc k ∈ held k q, q ≠ P_idle → guard st k → guard st' k) as Hgd.
  { intros Hin Hq. apply M6; [done|by destruct H4|by apply Hst|left; by apply H2]. }
  assert (ra_state st k ≠ SLEEPING → ra_state st' k ≠ SLEEPING) as Hns by (destruct M4 as [->|[? _]]; done).
  split; [|by destruct q; auto].
  destruct q; cbn [held] in *; try exact H3; try (rewrite Hlk by (by left); exact H3).
  - apply Hgd; [by left|discriminate|exact H3].
  - rewrite M3 by done. destruct H3 as [? H3]. split; [done|]. apply Hgd; [by left|discriminate|exact H3].
  - rewrite M3 by done. destruct H3 as [? H3]. split; [done|]. apply Hgd; [by left|discriminate|exact H3].
  - intros HS. destruct M4 as [E|[? _]]; [|done]. rewrite E in HS. destruct (H3 HS) as [? Hg]. rewrite M3 by done. split; [done|].
    destruct H4 as [H4|H4]; [|discriminate]. apply M6; auto.
Qed.

(** *** The process that moves *)

Lemma lock_acquired (f : lockid → option nat) i l0 (hs : list lockid) :
  (∀ l, f l = Some i ↔ l ∈ hs) → ∀ l, <[l0 := Some i]> f l = Some i ↔ l ∈ hs ++ [l0].
Proof.
  intros H l. rewrite elem_of_app, list_elem_of_singleton. destruct (decide (l0 = l)) as [->|Hne].
  - rewrite fn_lookup_insert. split; [by right|done].
  - rewrite fn_lookup_insert_ne by done. rewrite H. split; [by left|intros [?|?]; [done|congruence]].
Qed.

Lemma lock_released (f : lockid → option nat) i l0 (hs hs' : list lockid) :
  (∀ l, f l = Some i ↔ l ∈ hs) → (∀ l, l ∈ hs' ↔ l ∈ hs ∧ l ≠ l0) → ∀ l, <[l0 := None]> f l = Some i ↔ l ∈ hs'.
Proof.
  intros H H' l. rewrite H'. destruct (decide (l0 = l)) as [->|Hne].
  - rewrite fn_lookup_insert. split; [done|by intros [_ ?]].
  - rewrite fn_lookup_insert_ne by done. rewrite H. split; [by split|by intros [? _]].
Qed.

Lemma drop_only (l0 l : lockid) : l ∈ [] ↔ l ∈ [l0] ∧ l ≠ l0.
Proof. rewrite list_elem_of_singleton. split; [by intros ?%not_elem_of_nil|by intros [-> ?]]. Qed.

Lemma drop_first (l1 l2 : lockid) : l1 ≠ l2 → ∀ l, l ∈ [l2] ↔ l ∈ [l1; l2] ∧ l ≠ l1.
Proof.
  intros Hne l. rewrite !elem_of_cons, elem_of_nil. split; [intros [->|[]]; auto|intros [[?|[?|[]]] ?]; [done|by left]].
Qed.

Lemma drop_second (l1 l2 : lockid) : l1 ≠ l2 → ∀ l, l ∈ [l1] ↔ l ∈ [l1; l2] ∧ l ≠ l2.
Proof.
  intros Hne l. rewrite !elem_of_cons, elem_of_nil. split; [intros [->|[]]; auto|intros [[?|[?|[]]] ?]; [by left|done]].
Qed.

Lemma lock_others (f : lockid → option nat) i l0 (o : option nat) j l :
  (o = Some i ∧ f l0 = None ∨ o = None ∧ f l0 = Some i) → j ≠ i → <[l0 := o]> f l = Some j ↔ f l = Some j.
Proof.
  intros Ho Hj. destruct (decide (l0 = l)) as [->|Hne]; [rewrite fn_lookup_insert|by rewrite fn_lookup_insert_ne].
  destruct Ho as [[-> ->]|[-> ->]]; split; congruence.
Qed.

Lemma rounds_wake k js : Do (Wake k c) ∈ rounds js ↔ k ∈ js.
Proof.
  unfold rounds, dos. rewrite elem_of_app, list_elem_of_singleton, list_elem_of_fmap. split.
  - intros [(a & Ha & Hin)|H]; [|done]. injection Ha as <-. apply list_elem_of_In, in_flat_map in Hin as (j & Hj & Hin).
    apply list_elem_of_In in Hj. destruct Hin as [E|[E|[E|[]]]]; try discriminate. by injection E as <-.
  - intros Hk. left. eexists. split; [reflexivity|]. apply list_elem_of_In, in_flat_map. exists k.
    split; [by apply list_elem_of_In|]. cbn. auto.
Qed.

Lemma rounds_put v o js : Put v o ∉ rounds js.
Proof.
  unfold rounds, dos. rewrite elem_of_app, list_elem_of_singleton, list_elem_of_fmap. intros [(a & Ha & _)|H]; done.
Qed.

Lemma other_procs_elem i j : j ∈ other_procs i ↔ j ≠ i ∧ (j < NPROC)%nat.
Proof. unfold other_procs. rewrite list_elem_of_filter, elem_of_seq. lia. Qed.

(** Where a process that is pledged to wake [k] stands. *)
Lemma will_wake_at st i k p : thread_ok st i p → will_wake st i k →
  match p with P_scan js | P_woke _ js => k ∈ js | P_wake j js => k = j ∨ k ∈ js | _ => False end.
Proof.
  intros Hi (_ & Hw & Hp). rewrite (th_code _ _ _ Hi) in Hw, Hp. clear Hi.
  destruct p; cbn [code_at] in Hw, Hp.
  1-12: cbn in Hw; repeat (apply elem_of_cons in Hw as [Hw|Hw]; [discriminate|]); by apply not_elem_of_nil in Hw.
  - apply Hp. right. left.
  - apply Hp. left.
  - by apply rounds_wake.
  - apply elem_of_cons in Hw as [[= ->]|Hw]; [by left|]. apply elem_of_cons in Hw as [?|Hw]; [discriminate|]. right. by apply rounds_wake.
  - apply elem_of_cons in Hw as [?|Hw]; [discriminate|]. by apply rounds_wake.
Qed.

Lemma moves_intro st st' i p :
  (∀ j, j ≠ i → ra_code st' j = ra_code st j) → (∀ j l, j ≠ i → ra_lock st' l = Some j ↔ ra_lock st l = Some j) →
  (∀ j, j ≠ i → ra_chan st' j = ra_chan st j) → (∀ j, j ≠ i → ra_state st' j = ra_state st j) →
  ra_locked st' = ra_locked st → (∀ j, j ≠ i → will_wake st i j → will_wake st' i j) → moves st st' i p.
Proof.
  intros H1 H2 H3 H4 H5 H6. split; try done; [by left; apply H4|by left|].
  intros j Hj _ _ _. apply (guard_keep st st' i); [done| |by apply H6|done]. intros k Hk. by apply H2.
Qed.

(** A step of a process that is not waking others. *)
Lemma moves_alone st st' i p :
  thread_ok st i p → match p with P_scan _ | P_wake _ _ | P_woke _ _ => False | _ => True end →
  (∀ j, j ≠ i → ra_code st' j = ra_code st j) → (∀ j l, j ≠ i → ra_lock st' l = Some j ↔ ra_lock st l = Some j) →
  (∀ j, j ≠ i → ra_chan st' j = ra_chan st j) → (∀ j, j ≠ i → ra_state st' j = ra_state st j) →
  ra_locked st' = ra_locked st → moves st st' i p.
Proof.
  intros Hi Hp H1 H2 H3 H4 H5. apply moves_intro; [done..|]. intros j _ Hw%(will_wake_at _ _ _ _ Hi). by destruct p.
Qed.

(** A guard does not depend on what its process does. *)
Lemma guard_self st st' i p :
  thread_ok st i p → moves st st' i p → ra_locked st' = ra_locked st →
  match p with P_scan _ | P_wake _ _ | P_woke _ _ => False | _ => True end → guard st i → guard st' i.
Proof.
  intros Hi [M1 M2 _ _ _ _] E Hp. apply (guard_keep st st' i); [done|intros j Hj; by apply M2| |done].
  intros Hw%(will_wake_at _ _ _ _ Hi). by destruct p.
Qed.


(** The obligations of a step that are all alike. *)
Ltac elsewhere := intros; cbn; rewrite ?fn_lookup_insert_ne by congruence; done.
Ltac take_step H Hc := unfold act_step in H; rewrite Hc in H; cbn in H.

(** [acquiresleep], but for the sleep itself. *)
Lemma step_acquire st st' i p : race_inv st → thread_ok st i p →
  match p with P_enter | P_loop | P_take => True | _ => False end → act_step i st = Some st' → race_inv st'.
Proof.
  intros Hinv Hi Hp H. pose proof Hi as [Hc Hl [Hh Hns] Hlt]. destruct p; try done; take_step H Hc; destruct Hlt as [Hlt|]; try done.
  - case_decide as Hf; [|done]. injection H as <-. eapply (inv_moves _ _ i P_enter P_loop Hinv Hi).
    + eapply moves_alone; [exact Hi|done|elsewhere| |elsewhere..]. intros j l Hj. cbn. apply (lock_others _ i); [by left|done].
    + split; [cbn; by rewrite fn_lookup_insert|exact (lock_acquired _ _ _ _ Hl)|by split|by left].
  - destruct (truthy (ra_locked st)) eqn:Et; injection H as <-.
    + eapply (inv_moves _ _ i P_loop P_lock Hinv Hi).
      * eapply moves_alone; [exact Hi|done|elsewhere..].
      * split; [cbn; by rewrite fn_lookup_insert|exact Hl| |by left]. split; [by apply truthy_true|done].
    + eapply (inv_moves _ _ i P_loop P_take Hinv Hi).
      * eapply moves_alone; [exact Hi|done|elsewhere..].
      * split; [cbn; by rewrite fn_lookup_insert|exact Hl|by split|by left].
  - injection H as <-. eapply (inv_moves _ _ i P_take (P_scan []) Hinv Hi).
    + split; try elsewhere; [by left|right; by left].
    + split; [cbn; by rewrite fn_lookup_insert|exact Hl| |by left]. split; [by apply not_elem_of_nil|done].
Qed.

(** [sleep], up to the store of [p->state]. *)
Lemma step_down st st' i p : race_inv st → thread_ok st i p →
  match p with P_lock | P_unlock | P_chan | P_state => True | _ => False end → act_step i st = Some st' → race_inv st'.
Proof.
  intros Hinv Hi Hp H. pose proof Hi as [Hc Hl [Hh Hns] Hlt]. destruct p; try done; take_step H Hc; destruct Hlt as [Hlt|]; try done.
  - case_decide as Hf; [|done]. injection H as <-. eapply (inv_moves _ _ i P_lock P_unlock Hinv Hi).
    + eapply moves_alone; [exact Hi|done|elsewhere| |elsewhere..]. intros j l Hj. cbn. apply (lock_others _ i); [by left|done].
    + split; [cbn; by rewrite fn_lookup_insert|exact (lock_acquired _ _ _ _ Hl)|by split|by left].
  - case_decide as Hf; [|done]. injection H as <-. eapply (inv_moves _ _ i P_unlock P_chan Hinv Hi).
    + eapply moves_alone; [exact Hi|done|elsewhere| |elsewhere..]. intros j l Hj. cbn. apply (lock_others _ i); [by right|done].
    + split; [cbn; by rewrite fn_lookup_insert| |split; [|done]; by intros ?|by left].
      apply (lock_released _ _ _ _ _ Hl), drop_first, lk_own.
  - injection H as <-. assert (moves st (st <| ra_chan ::= <[i := c]> |> <| ra_code ::= <[i := code_at i P_state]> |>) i P_chan) as Hm.
    { eapply moves_alone; [exact Hi|done|elsewhere..]. }
    eapply (inv_moves _ _ i P_chan P_state Hinv Hi Hm).
    split; [cbn; by rewrite fn_lookup_insert|exact Hl| |by left]. split; [|done]. split; [cbn; by rewrite fn_lookup_insert|].
    by apply (guard_self _ _ _ _ Hi Hm).
  - injection H as <-. assert (moves st (st <| ra_state ::= <[i := SLEEPING]> |> <| ra_code ::= <[i := code_at i P_sched]> |>) i P_state) as Hm.
    { eapply moves_alone; [exact Hi|done|elsewhere..]. }
    eapply (inv_moves _ _ i P_state P_sched Hinv Hi Hm).
    split; [cbn; by rewrite fn_lookup_insert|exact Hl| |by left]. split; [|done]. destruct Hh as [Hch Hg]. split; [done|].
    by apply (guard_self _ _ _ _ Hi Hm).
Qed.

(** The rest of [sleep]. *)
Lemma step_up st st' i p : race_inv st → thread_ok st i p →
  match p with P_sched | P_asleep | P_tidy | P_rel => True | _ => False end → act_step i st = Some st' → race_inv st'.
Proof.
  intros Hinv Hi Hp H. pose proof Hi as [Hc Hl [Hh Hns] Hlt]. destruct p; try done; take_step H Hc; destruct Hlt as [Hlt|]; try done.
  - injection H as <-.
    assert (moves st (st <| ra_lock ::= <[L_proc i := None]> |> <| ra_code ::= <[i := code_at i P_asleep]> |>) i P_sched) as Hm.
    { eapply moves_alone; [exact Hi|done|elsewhere| |elsewhere..]. intros j l Hj. cbn. apply (lock_others _ i); [|done].
      right. split; [done|]. apply Hl. by left. }
    eapply (inv_moves _ _ i P_sched P_asleep Hinv Hi Hm).
    split; [cbn; by rewrite fn_lookup_insert| | |by left].
    + apply (lock_released _ _ _ _ _ Hl), drop_only.
    + split; [|done]. intros _. destruct Hh as [Hch Hg]. split; [done|]. by apply (guard_self _ _ _ _ Hi Hm).
  - case_decide as Hf; [|done]. destruct Hf as [Hf1 Hf2]. injection H as <-. eapply (inv_moves _ _ i P_asleep P_tidy Hinv Hi).
    + eapply moves_alone; [exact Hi|done|elsewhere| |elsewhere..]. intros j l Hj. cbn. apply (lock_others _ i); [by left|done].
    + split; [cbn; by rewrite fn_lookup_insert|exact (lock_acquired _ _ _ _ Hl)| |by left]. split; [done|]. cbn. by rewrite fn_lookup_insert.
  - injection H as <-. eapply (inv_moves _ _ i P_tidy P_rel Hinv Hi).
    + eapply moves_alone; [exact Hi|done|elsewhere..].
    + split; [cbn; by rewrite fn_lookup_insert|exact Hl|by split|by left].
  - case_decide as Hf; [|done]. injection H as <-. eapply (inv_moves _ _ i P_rel P_enter Hinv Hi).
    + eapply moves_alone; [exact Hi|done|elsewhere| |elsewhere..]. intros j l Hj. cbn. apply (lock_others _ i); [by right|done].
    + split; [cbn; by rewrite fn_lookup_insert| |by split|by left].
      apply (lock_released _ _ _ _ _ Hl), drop_only.
Qed.

(** [releasesleep] lets go of the sleep lock. *)
Lemma step_free st st' i p : race_inv st → thread_ok st i p →
  match p with P_call | P_free => True | _ => False end → act_step i st = Some st' → race_inv st'.
Proof.
  intros Hinv Hi Hp H. pose proof Hi as [Hc Hl [Hh Hns] Hlt]. destruct p; try done; destruct Hlt as [Hlt|]; try done.
  - unfold act_step in H. rewrite Hc in H. cbn [code_at] in H. unfold releasesleep_code in H. cbn [app] in H.
    case_decide as Hf; [|done]. injection H as <-. eapply (inv_moves _ _ i P_call P_free Hinv Hi).
    + eapply moves_alone; [exact Hi|done|elsewhere| |elsewhere..]. intros j l Hj. cbn [ra_lock setf race_eta].
      apply (lock_others _ i); [by left|done].
    + split; [apply fn_lookup_insert|exact (lock_acquired _ _ _ _ Hl)|by split|by left].
  - take_step H Hc. injection H as <-. eapply (inv_moves _ _ i P_free (P_scan (other_procs i)) Hinv Hi).
    + split; try elsewhere; [by left|right; by left|]. intros j Hj Hlt' _ _ _ _. exists i. split; [cbn; apply Hl; by left|].
      cbn [ra_code setf race_eta]. rewrite fn_lookup_insert. split; [apply rounds_wake; by apply other_procs_elem|apply rounds_put].
    + split; [apply fn_lookup_insert|exact Hl| |by left]. split; [|done]. by rewrite other_procs_elem; intros [? _].
Qed.

(** The store of [wakeup]. *)
Lemma moves_wake st i j js (woke := if decide (ra_state st j = SLEEPING ∧ ra_chan st j = c) then st <| ra_state ::= <[j := RUNNABLE]> |> else st) :
  thread_ok st i (P_wake j js) → moves st (woke <| ra_code ::= <[i := code_at i (P_woke j js)]> |>) i (P_wake j js).
Proof.
  intros Hi. pose proof Hi as [Hc Hl [[Hne Hjs] Hns] _]. assert (ra_lock st (L_proc j) = Some i) as Hj by (apply Hl; right; by left).
  unfold woke. clear woke. split; try (intros; case_decide; elsewhere).
  - intros k Hk. case_decide as Hs; [|by left]. cbn. destruct (decide (j = k)) as [->|Hjk].
    + right. rewrite fn_lookup_insert. split; [done|congruence].
    + left. by rewrite fn_lookup_insert_ne.
  - left. by case_decide.
  - intros k Hk Hlk Hst Hon. set (st' := _ <| ra_code ::= _ |>) in *. apply (guard_keep st st' i).
    + intros j' Hj'. unfold st'. case_decide; elsewhere.
    + intros j' Hj'. unfold st'. by case_decide.
    + intros Hw. pose proof (will_wake_at _ _ _ _ Hi Hw) as [->|Hkj].
      { exfalso. destruct Hon as [Hon|Hon]; [congruence|]. unfold st' in Hst. rewrite decide_True in Hst by done. cbn in Hst.
        rewrite fn_lookup_insert in Hst. destruct Hon. congruence. }
      split; [unfold st'; case_decide; apply Hl; by left|]. unfold st'. cbn [ra_code setf race_eta]. rewrite fn_lookup_insert.
      split; [right; by apply rounds_wake|]. apply not_elem_of_cons. split; [done|apply rounds_put].
    + unfold st'. by case_decide.
Qed.

(** [wakeup], and the end of both functions. *)
Lemma step_scan st st' i p : race_inv st → thread_ok st i p →
  match p with P_scan _ | P_wake _ _ | P_woke _ _ => True | _ => False end → act_step i st = Some st' → race_inv st'.
Proof.
  intros Hinv Hi Hp H. pose proof Hi as [Hc Hl [Hh Hns] Hlt]. destruct Hlt as [Hlt|Hlt]; [|by rewrite Hlt in Hp].
  destruct p as [| | | | | | | | | | | | | |[|j js]|j js|j js]; try done; take_step H Hc.
  - case_decide as Hf; [|done]. injection H as <-. eapply (inv_moves _ _ i (P_scan []) P_idle Hinv Hi).
    + apply moves_intro; try elsewhere; [intros j l Hj; apply (lock_others _ i); [by right|done]|].
      by intros j Hj ?%(will_wake_at _ _ _ _ Hi)%not_elem_of_nil.
    + split; [apply fn_lookup_insert| |by split|by right]. apply (lock_released _ _ _ _ _ Hl), drop_only.
  - case_decide as Hf; [|done]. injection H as <-. apply not_elem_of_cons in Hh as [Hne Hjs].
    eapply (inv_moves _ _ i (P_scan (j :: js)) (P_wake j js) Hinv Hi).
    + apply moves_intro; try elsewhere; [intros j' l Hj; apply (lock_others _ i); [by left|done]|].
      intros k Hk (_ & Hw & Hput). rewrite Hc in Hw, Hput. split; [apply (lock_acquired _ _ _ _ Hl); by left|].
      cbn [ra_code setf race_eta]. rewrite fn_lookup_insert. cbn in Hw, Hput. apply elem_of_cons in Hw as [?|Hw]; [done|].
      apply not_elem_of_cons in Hput as [_ Hput]. done.
    + split; [apply fn_lookup_insert|exact (lock_acquired _ _ _ _ Hl)| |by left]. by split; [split|].
  - injection H as <-. destruct Hh as [Hne Hjs]. eapply (inv_moves _ _ i (P_wake j js) (P_woke j js) Hinv Hi).
    + by apply moves_wake.
    + split; [apply fn_lookup_insert| | |by left].
      * case_decide; exact Hl.
      * split; [done|]. case_decide; [|done]. cbn. by rewrite fn_lookup_insert_ne.
  - case_decide as Hf; [|done]. injection H as <-. destruct Hh as [Hne Hjs].
    eapply (inv_moves _ _ i (P_woke j js) (P_scan js) Hinv Hi).
    + apply moves_intro; try elsewhere; [intros j' l Hj; apply (lock_others _ i); [by right|done]|].
      intros k Hk Hw. pose proof (will_wake_at _ _ _ _ Hi Hw) as Hkj. split.
      * apply (lock_released _ _ _ _ _ Hl (drop_second _ _ (lk_own j))). by left.
      * cbn [ra_code setf race_eta]. rewrite fn_lookup_insert. split; [by apply rounds_wake|apply rounds_put].
    + split; [apply fn_lookup_insert| |by split|by left]. apply (lock_released _ _ _ _ _ Hl), drop_second, lk_own.
Qed.

Lemma act_inv i st st' : race_inv st → act_step i st = Some st' → race_inv st'.
Proof.
  intros Hinv H. destruct (Hinv i) as [p Hi]. destruct p.
  { unfold act_step in H. by rewrite (th_code _ _ _ Hi) in H. }
  all: first [by eapply step_acquire|by eapply step_down|by eapply step_up|by eapply step_free|by eapply step_scan].
Qed.

(** A process calls one of the functions. *)
Lemma call_inv i st p : race_inv st → (i < NPROC)%nat → ra_code st i = [] → (p = P_enter ∨ p = P_call) →
  race_inv (st <| ra_code ::= <[i := code_at i p]> |>).
Proof.
  intros Hinv Hlt Hc Hp. destruct (Hinv i) as [q Hi]. assert (q = P_idle) as ->.
  { pose proof (th_code _ _ _ Hi) as E. rewrite Hc in E. destruct q as [| | | | | | | | | | | | | |[|? ?]| |]; done. }
  pose proof Hi as [_ Hl [_ Hns] _]. eapply (inv_moves _ _ i P_idle p Hinv Hi).
  - eapply moves_alone; [exact Hi|done|elsewhere..].
  - split; [apply fn_lookup_insert| |by destruct Hp as [-> | ->]|by left]. by destruct Hp as [-> | ->].
Qed.

Lemma kill_inv i st : race_inv st → ra_lock st (L_proc i) = None → race_inv (st <| ra_state ::= <[i := RUNNABLE]> |>).
Proof.
  intros Hinv Hfree k. destruct (Hinv k) as [p [H1 H2 [H3 H3'] H4]]. exists p. split; [done|done| |done].
  split; [|destruct (decide (i = k)) as [->|Hne]; cbn; [rewrite fn_lookup_insert|rewrite fn_lookup_insert_ne by done]; by destruct p].
  destruct p; try exact H3. cbn. destruct (decide (i = k)) as [->|Hne]; [by rewrite fn_lookup_insert|by rewrite fn_lookup_insert_ne].
Qed.

Lemma reach_inv v st : rtc rstep (race_init v) st → race_inv st.
Proof.
  intros H. assert (race_inv (race_init v)) as H0.
  { intros i. exists P_idle. split; [done| |done|by right]. intros l. split; [done|by intros ?%not_elem_of_nil]. }
  induction H as [|st st' st'' Hs _ IH]; [done|]. apply IH. destruct Hs as [i st st' Hs|i st code Hlt Hc [-> | ->]|i st Hl _].
  - by eapply act_inv.
  - by apply (call_inv i st P_enter); [..|left].
  - by apply (call_inv i st P_call); [..|right].
  - by apply kill_inv.
Qed.

(** ** The theorem *)

(** C33. No wakeup is lost.  Whatever way the steps of processes that acquire and
    release a sleep lock interleave: if a process is asleep while the lock is free,
    then it sleeps on the lock's channel, and another process, inside
    [releasesleep] and with the lock's spinlock, has yet to come to it in its
    [wakeup].  ([sleep] takes [p->lock] before it gives up the spinlock.) *)
Theorem no_lost_wakeup v st i :
  rtc rstep (race_init v) st → ra_state st i = SLEEPING → ra_lock st (L_proc i) = None → ra_locked st = 0 →
  ra_chan st i = c ∧ ∃ j, j ≠ i ∧ will_wake st j i.
Proof.
  intros Hr Hs Hl H0. destruct (reach_inv v st Hr i) as [p Hi]. pose proof Hi as [H1 H2 [H3 H3'] _].
  destruct p; try done; [destruct (H2 (L_proc i)) as [_ H]; rewrite H in Hl; [done|by left]|].
  destruct (H3 Hs) as [Hch Hg]. split; [done|]. destruct (Hg H0) as [j Hj]. exists j. split; [|done]. intros ->.
  exact (will_wake_at _ _ _ _ Hi Hj).
Qed.

(** The steps of the processes [l], in this order. *)
Fixpoint schedule (l : list nat) (st : race) : option race :=
  match l with
  | [] => Some st
  | i :: l => match act_step i st with Some st => schedule l st | None => None end
  end.

Lemma schedule_steps l st st' : schedule l st = Some st' → rtc rstep st st'.
Proof.
  revert st. induction l as [|i l IH]; intros st H; cbn in H; [by injection H as <-|].
  destruct (act_step i st) as [st1|] eqn:E; [|done]. eapply rtc_l; [by eapply r_act|by apply IH].
Qed.

End race.

(** ** An example *)

Definition buf0_lock : lockid := L_buf 0.
Definition buf0_chan : chan := C_sleeplk buf0_lock.

(** Process 0 waits for the lock of buffer 0; process 1 has just let go of it. *)
Definition race_before : race := (race_init 1) <| ra_code ::= <[0%nat := acquiresleep_code buf0_lock 0]> |>
  <| ra_code ::= <[1%nat := releasesleep_code buf0_lock buf0_chan 1]> |>.
Definition race_asleep : race := default race_before (schedule buf0_lock buf0_chan [0; 0; 0; 0; 0; 0; 0; 1; 1]%nat race_before).

Lemma no_lost_wakeup_witness : ∃ j, j ≠ 0%nat ∧ will_wake buf0_lock buf0_chan race_asleep j 0.
Proof.
  apply (no_lost_wakeup buf0_lock buf0_chan ltac:(done) 1 race_asleep 0); [|vm_compute; reflexivity..].
  apply rtc_l with ((race_init 1) <| ra_code ::= <[0%nat := acquiresleep_code buf0_lock 0]> |>).
  { apply r_call; [unfold NPROC; lia|done|by left]. }
  apply rtc_l with race_before.
  { apply r_call; [unfold NPROC; lia|done|by right]. }
  apply (schedule_steps _ _ [0; 0; 0; 0; 0; 0; 0; 1; 1]%nat). unfold race_asleep.
  destruct (schedule buf0_lock buf0_chan [0; 0; 0; 0; 0; 0; 0; 1; 1]%nat race_before) eqn:E; [done|]. by vm_compute in E.
Defined.
