(* ===== verification/FsState.v ===== *)
(** * The state of the file system and the devices
    (kernel/buf.h, fs.h, file.h, log.c, pipe.c, console.c, uart.c)

    The structures that these keep in static storage, and the disk and the
    serial port themselves.
    Pointers between them are indices; the disk remembers the sequence of its
    writes, so that crashes can be talked about. *)

From Stdlib Require Import ZArith Lia.
From stdpp Require Import base gmap strings numbers list.
From S2P Require Import Prelude Spinlock Mem Kstring Kalloc Vm Proc.
Local Open Scope xv6_scope.

(** ** Sizes (param.h, fs.h) *)

Definition BSIZE : Z := 1024.
Definition MAXOPBLOCKS : Z := 10.
Definition LOGSIZE : Z := MAXOPBLOCKS * 3.
Definition NBUF : nat := Z.to_nat (MAXOPBLOCKS * 3).
Definition NFILE : nat := 100.
Definition NINODE : nat := 50.
Definition NDEV : Z := 10.
Definition FSSIZE : Z := 2000.
Definition ROOTINO : Z := 1.
Definition FSMAGIC : Z := 270544960.                    (* 0x10203040 *)
Definition NDIRECT : Z := 12.
Definition NINDIRECT : Z := BSIZE / 4.
Definition MAXFILE : Z := NDIRECT + NINDIRECT.
Definition IPB : Z := BSIZE / 64.                       (* sizeof(struct dinode) = 64 *)
Definition BPB : Z := BSIZE * 8.
Definition DIRSIZ : Z := 14.
Definition T_DIR : Z := 1.
Definition T_FILE : Z := 2.
Definition T_DEVICE : Z := 3.
Definition PIPESIZE : Z := 512.

(** ** Structures *)

(** The spinlock inside a sleep lock is in the machine; a sleep lock is known
    by its spinlock. *)
Record sleeplock := Sleeplock {
  sl_locked : Z;
  sl_name : string;
  sl_pid : Z
}.
#[global] Instance sleeplock_eta : Eta sleeplock := fun r => Sleeplock (sl_locked r) (sl_name r) (sl_pid r).

Record buf := Buf {
  b_valid : Z;
  b_disk : Z;
  b_dev : Z;
  b_blockno : Z;
  b_lock : sleeplock;
  b_refcnt : Z;
  b_prev : nat;                (* buffer indices; NBUF is the list head *)
  b_next : nat;
  b_data : list Z
}.
#[global] Instance buf_eta : Eta buf := fun r =>
  Buf (b_valid r) (b_disk r) (b_dev r) (b_blockno r) (b_lock r) (b_refcnt r) (b_prev r) (b_next r) (b_data r).

Record logheader := Logheader {
  lh_n : Z;
  lh_block : list Z            (* LOGSIZE entries *)
}.
#[global] Instance logheader_eta : Eta logheader := fun r => Logheader (lh_n r) (lh_block r).

Record log := Log {
  log_start : Z;
  log_size : Z;
  log_outstanding : Z;
  log_committing : Z;
  log_dev : Z;
  log_lh : logheader
}.
#[global] Instance log_eta : Eta log := fun r =>
  Log (log_start r) (log_size r) (log_outstanding r) (log_committing r) (log_dev r) (log_lh r).

Record superblock := Superblock {
  sb_magic : Z;
  sb_size : Z;
  sb_nblocks : Z;
  sb_ninodes : Z;
  sb_nlog : Z;
  sb_logstart : Z;
  sb_inodestart : Z;
  sb_bmapstart : Z
}.
#[global] Instance superblock_eta : Eta superblock := fun r =>
  Superblock (sb_magic r) (sb_size r) (sb_nblocks r) (sb_ninodes r) (sb_nlog r) (sb_logstart r)
    (sb_inodestart r) (sb_bmapstart r).

Record inode := Inode {
  i_dev : Z;
  i_inum : Z;
  i_ref : Z;
  i_lock : sleeplock;
  i_valid : Z;
  i_type : Z;                  (* the fields of the disk inode *)
  i_major : Z;
  i_minor : Z;
  i_nlink : Z;
  i_size : Z;
  i_addrs : list Z             (* NDIRECT + 1 entries *)
}.
#[global] Instance inode_eta : Eta inode := fun r =>
  Inode (i_dev r) (i_inum r) (i_ref r) (i_lock r) (i_valid r) (i_type r) (i_major r) (i_minor r)
    (i_nlink r) (i_size r) (i_addrs r).

Inductive filetype := FD_NONE | FD_PIPE | FD_INODE | FD_DEVICE.
#[global] Instance filetype_eq_dec : EqDecision filetype.
Proof. solve_decision. Defined.

Record file := File {
  f_type : filetype;
  f_ref : Z;
  f_readable : Z;
  f_writable : Z;
  f_pipe : Z;                  (* address of the page, 0 if none *)
  f_ip : option nat;
  f_off : Z;
  f_major : Z
}.
#[global] Instance file_eta : Eta file := fun r =>
  File (f_type r) (f_ref r) (f_readable r) (f_writable r) (f_pipe r) (f_ip r) (f_off r) (f_major r).

Record pipe := Pipe {
  pi_data : list Z;            (* PIPESIZE bytes *)
  pi_nread : Z;
  pi_nwrite : Z;
  pi_readopen : Z;
  pi_writeopen : Z
}.
#[global] Instance pipe_eta : Eta pipe := fun r =>
  Pipe (pi_data r) (pi_nread r) (pi_nwrite r) (pi_readopen r) (pi_writeopen r).

(** The blocks on the disk and the writes that led to them. *)
Record disk := Disk {
  dk_blocks : gmap Z (list Z);
  dk_trace : list (Z * list Z)
}.
#[global] Instance disk_eta : Eta disk := fun r => Disk (dk_blocks r) (dk_trace r).

(** ** The disk driver's queues (virtio.h, virtio_disk.c) *)

Definition NUM : nat := 8.

(** What a descriptor points to. *)
Inductive dma := D_null | D_ops (i : nat) | D_data (b : nat) | D_status (i : nat).

Record virtq_desc := VirtqDesc {
  vq_addr : dma;
  vq_len : Z;
  vq_flags : Z;
  vq_next : Z
}.
#[global] Instance virtq_desc_eta : Eta virtq_desc := fun r =>
  VirtqDesc (vq_addr r) (vq_len r) (vq_flags r) (vq_next r).

Record virtio_blk_req := VirtioBlkReq {
  rq_type : Z;
  rq_reserved : Z;
  rq_sector : Z
}.

(** [struct disk disk], with the rings that the device shares.  The last two
    fields are the device's: whether it has been told of requests that it has
    not served yet, and its interrupt status register. *)
Record vdisk := Vdisk {
  vd_desc : list virtq_desc;           (* desc[NUM] *)
  vd_avail_ring : list Z;              (* avail->ring[NUM] *)
  vd_avail_idx : Z;                    (* avail->idx, uint16 *)
  vd_used_ring : list Z;               (* used->ring[NUM].id *)
  vd_used_dev : Z;                     (* used->idx, written by the device *)
  vd_free : list Z;                    (* free[NUM] *)
  vd_used_idx : Z;                     (* uint16 *)
  vd_info_b : list (option nat);       (* info[NUM].b *)
  vd_info_status : list Z;             (* info[NUM].status *)
  vd_ops : list virtio_blk_req;        (* ops[NUM] *)
  vd_notified : bool;
  vd_isr : Z                           (* InterruptStatus *)
}.
#[global] Instance vdisk_eta : Eta vdisk := fun r =>
  Vdisk (vd_desc r) (vd_avail_ring r) (vd_avail_idx r) (vd_used_ring r) (vd_used_dev r) (vd_free r)
    (vd_used_idx r) (vd_info_b r) (vd_info_status r) (vd_ops r) (vd_notified r) (vd_isr r).

(** ** The console and the serial port (console.c, uart.c, printf.c) *)

Definition INPUT_BUF_SIZE : Z := 128.
Definition UART_TX_BUF_SIZE : Z := 32.

(** [cons], the transmit ring of the UART, and the flags of printf.c.  The last
    three fields are the device: the bytes that have arrived, the bytes handed
    to it, and how many it can take before it has to send one. *)
Record console := Console {
  cn_buf : list Z;             (* cons.buf[INPUT_BUF_SIZE] *)
  cn_r : Z;                    (* uint *)
  cn_w : Z;
  cn_e : Z;
  ua_tx_buf : list Z;          (* uart_tx_buf[UART_TX_BUF_SIZE] *)
  ua_tx_w : Z;                 (* uint64 *)
  ua_tx_r : Z;
  pr_locking : Z;
  pr_panicked : Z;
  ua_in : list Z;
  ua_out : list Z;
  ua_room : nat
}.
#[global] Instance console_eta : Eta console := fun r =>
  Console (cn_buf r) (cn_r r) (cn_w r) (cn_e r) (ua_tx_buf r) (ua_tx_w r) (ua_tx_r r) (pr_locking r)
    (pr_panicked r) (ua_in r) (ua_out r) (ua_room r).

Record fsstate := FsState {
  fs_buf : list buf;           (* bcache.buf[NBUF], then bcache.head *)
  fs_log : log;
  fs_sb : superblock;
  fs_inode : list inode;       (* itable.inode[NINODE] *)
  fs_file : list file;         (* ftable.file[NFILE] *)
  fs_pipe : gmap Z pipe;       (* the pages that hold a pipe *)
  fs_disk : disk;
  fs_vdisk : vdisk;
  fs_con : console
}.
#[global] Instance fsstate_eta : Eta fsstate := fun r =>
  FsState (fs_buf r) (fs_log r) (fs_sb r) (fs_inode r) (fs_file r) (fs_pipe r) (fs_disk r) (fs_vdisk r)
    (fs_con r).

(** ** Access *)

Abbreviation KS := (kstate fsstate).
Abbreviation W := (world fsstate).

Definition updfs (f : fsstate → fsstate) : M KS unit := modify (fun s => s <| ks_fs ::= f |>).

Definition getb (b : nat) : M KS buf :=
  s ← get; match fs_buf (ks_fs s) !! b with Some x => ret x | None => fault (Z.of_nat b) end.
Definition updb (b : nat) (f : buf → buf) : M KS unit :=
  getb b;; updfs (fun fs => fs <| fs_buf ::= alter f b |>).

Definition getlog : M KS log := gets (fun s => fs_log (ks_fs s)).
Definition updlog (f : log → log) : M KS unit := updfs (fun fs => fs <| fs_log ::= f |>).

Definition geti (i : nat) : M KS inode :=
  s ← get; match fs_inode (ks_fs s) !! i with Some x => ret x | None => fault (Z.of_nat i) end.
Definition updi (i : nat) (f : inode → inode) : M KS unit :=
  geti i;; updfs (fun fs => fs <| fs_inode ::= alter f i |>).

Definition getf (i : nat) : M KS file :=
  s ← get; match fs_file (ks_fs s) !! i with Some x => ret x | None => fault (Z.of_nat i) end.
Definition updf (i : nat) (f : file → file) : M KS unit :=
  getf i;; updfs (fun fs => fs <| fs_file ::= alter f i |>).

Definition getpipe (pa : Z) : M KS pipe :=
  s ← get; match fs_pipe (ks_fs s) !! pa with Some x => ret x | None => fault pa end.
Definition updpipe (pa : Z) (f : pipe → pipe) : M KS unit :=
  getpipe pa;; updfs (fun fs => fs <| fs_pipe ::= alter f pa |>).

Definition getcon : M KS console := gets (fun s => fs_con (ks_fs s)).
Definition updcon (f : console → console) : M KS unit := updfs (fun fs => fs <| fs_con ::= f |>).

(** ** Words in a block *)

Definition get_at (off n : Z) (data : list Z) : Z := le_value (take (Z.to_nat n) (drop (Z.to_nat off) data)).
Definition put_bytes (off : Z) (bs data : list Z) : list Z :=
  take (Z.to_nat off) data ++ bs ++ drop (Z.to_nat off + length bs) data.
Definition put_at (off n v : Z) (data : list Z) : list Z := put_bytes off (le_bytes (Z.to_nat n) v) data.
