(* ===== verification/Sleeplock.v ===== *)
(** * Sleep locks (kernel/sleeplock.c) *)

From Stdlib Require Import ZArith Lia.
From stdpp Require Import base gmap strings numbers list.
From S2P Require Import Prelude Spinlock Mem Kstring Kalloc Vm Proc FsState.
Local Open Scope xv6_scope.

Definition sleeplock_of (lk : lockid) (fs : fsstate) : option sleeplock :=
  match lk with
  | L_buf i => b_lock <$> fs_buf fs !! i
  | L_inode i => i_lock <$> fs_inode fs !! i
  | _ => None
  end.

Definition set_sleeplock (lk : lockid) (l : sleeplock) (fs : fsstate) : fsstate :=
  match lk with
  | L_buf i => fs <| fs_buf ::= alter (fun b => b <| b_lock := l |>) i |>
  | L_inode i => fs <| fs_inode ::= alter (fun x => x <| i_lock := l |>) i |>
  | _ => fs
  end.

Section sleeplock.
Context `{KI : KernelImage}.

Definition getsl (lk : lockid) : M KS sleeplock :=
  s ← get; match sleeplock_of lk (ks_fs s) with Some l => ret l | None => fault 0 end.
Definition updsl (lk : lockid) (f : sleeplock → sleeplock) : M KS unit :=
  l ← getsl lk; updfs (set_sleeplock lk (f l)).

(** [myproc()->pid] *)
Definition mypid : M KS Z := i ← lkm myproc; i ← deref i; p ← getp i; ret (p_pid p).

Definition initsleeplock (lk : lockid) (name : string) : M KS unit :=
  lkm (initlock lk "sleep lock");;
  updsl lk (fun l => l <| sl_name := name |> <| sl_locked := 0 |> <| sl_pid := 0 |>).

(** [while (lk->locked) sleep(lk, &lk->lk);]: every round sleeps. *)
Fixpoint acquiresleep_loop (fuel : nat) (lk : lockid) : M W unit :=
  match fuel with
  | O => out_of_fuel
  | S fuel =>
    l ← onw (getsl lk);
    if truthy (sl_locked l) then sleep (C_sleeplk lk) lk;; acquiresleep_loop fuel lk else ret tt
  end.

Definition acquiresleep (lk : lockid) : M W unit :=
  onw (lkm (acquire lk));;
  w ← get;
  acquiresleep_loop (S (length (w_env w))) lk;;
  onw (updsl lk (fun l => l <| sl_locked := 1 |>));;
  pid ← onw mypid;
  onw (updsl lk (fun l => l <| sl_pid := pid |>));;
  onw (lkm (release lk)).

Definition releasesleep (lk : lockid) : M KS unit :=
  lkm (acquire lk);;
  updsl lk (fun l => l <| sl_locked := 0 |> <| sl_pid := 0 |>);;
  wakeup (C_sleeplk lk);;
  lkm (release lk).

Definition holdingsleep (lk : lockid) : M KS bool :=
  lkm (acquire lk);;
  l ← getsl lk;
  r ← (if truthy (sl_locked l) then pid ← mypid; ret (sl_pid l =? pid) else ret false);
  lkm (release lk);;
  ret r.

End sleeplock.
