(* ===== verification/Bio.v ===== *)
(** * The buffer cache (kernel/bio.c)

    The cache is an array of buffers on a doubly linked list, the most recently
    used first.  The disk driver is reached through the class [DiskOps]. *)

From Stdlib Require Import ZArith Lia.
From stdpp Require Import base gmap strings numbers list.
From S2P Require Import Prelude Spinlock Mem Kstring Kalloc Vm Proc FsState Sleeplock.
Local Open Scope xv6_scope.

(** [virtio_disk_rw(b, write)] of the disk driver. *)
Class DiskOps := { virtio_disk_rw : nat → bool → M W unit }.

Section bio.
Context `{KI : KernelImage} `{DO : DiskOps}.

(** Put buffer [b] at the front of the list. *)
Definition bpush (b : nat) : M KS unit :=
  h ← getb NBUF;
  updb b (fun x => x <| b_next := b_next h |>);;
  updb b (fun x => x <| b_prev := NBUF |>).

Definition blink (b : nat) : M KS unit :=
  h ← getb NBUF;
  updb (b_next h) (fun x => x <| b_prev := b |>);;
  updb NBUF (fun x => x <| b_next := b |>).

Definition binit : M KS unit :=
  lkm (initlock L_bcache "bcache");;
  updb NBUF (fun x => x <| b_prev := NBUF |>);;
  updb NBUF (fun x => x <| b_next := NBUF |>);;
  for_each (seq 0 NBUF) (fun b =>
    bpush b;;
    initsleeplock (L_buf b) "buffer";;
    blink b).

(** [for(b = start; b != &bcache.head; b = step(b)) if(test(b)) ...] *)
Fixpoint bfind (fuel : nat) (step : buf → nat) (test : buf → bool) (b : nat) : M KS (option nat) :=
  if decide (b = NBUF) then ret None else
  match fuel with
  | O => out_of_fuel
  | S fuel => x ← getb b; if test x then ret (Some b) else bfind fuel step test (step x)
  end.

Definition bget (dev blockno : Z) : M W nat :=
  onw (lkm (acquire L_bcache));;
  h ← onw (getb NBUF);
  hit ← onw (bfind NBUF b_next (fun x => (b_dev x =? dev) && (b_blockno x =? blockno)) (b_next h));
  match hit with
  | Some b =>
    onw (updb b (fun x => x <| b_refcnt ::= fun n => u32 (n + 1) |>));;
    onw (lkm (release L_bcache));;
    acquiresleep (L_buf b);;
    ret b
  | None =>
    h ← onw (getb NBUF);
    victim ← onw (bfind NBUF b_prev (fun x => b_refcnt x =? 0) (b_prev h));
    match victim with
    | Some b =>
      onw (updb b (fun x => x <| b_dev := dev |> <| b_blockno := blockno |> <| b_valid := 0 |>
                              <| b_refcnt := 1 |>));;
      onw (lkm (release L_bcache));;
      acquiresleep (L_buf b);;
      ret b
    | None => panic "bget: no buffers"
    end
  end.

Definition bread (dev blockno : Z) : M W nat :=
  b ← bget dev blockno;
  x ← onw (getb b);
  when (negb (truthy (b_valid x)))
    (virtio_disk_rw b false;;
     onw (updb b (fun x => x <| b_valid := 1 |>)));;
  ret b.

Definition bwrite (b : nat) : M W unit :=
  h ← onw (holdingsleep (L_buf b));
  when (negb h) (panic "bwrite");;
  virtio_disk_rw b true.

Definition brelse (b : nat) : M KS unit :=
  h ← holdingsleep (L_buf b);
  when (negb h) (panic "brelse");;
  releasesleep (L_buf b);;
  lkm (acquire L_bcache);;
  updb b (fun x => x <| b_refcnt ::= fun n => u32 (n - 1) |>);;
  x ← getb b;
  when (b_refcnt x =? 0)
    (updb (b_next x) (fun y => y <| b_prev := b_prev x |>);;
     x ← getb b;
     updb (b_prev x) (fun y => y <| b_next := b_next x |>);;
     bpush b;;
     blink b);;
  lkm (release L_bcache).

Definition bpin (b : nat) : M KS unit :=
  lkm (acquire L_bcache);;
  updb b (fun x => x <| b_refcnt ::= fun n => u32 (n + 1) |>);;
  lkm (release L_bcache).

Definition bunpin (b : nat) : M KS unit :=
  lkm (acquire L_bcache);;
  updb b (fun x => x <| b_refcnt ::= fun n => u32 (n - 1) |>);;
  lkm (release L_bcache).

End bio.
