(* ===== verification/Log.v ===== *)
(** * The write-ahead log (kernel/log.c) *)

From Stdlib Require Import ZArith Lia.
From stdpp Require Import base gmap strings numbers list.
From S2P Require Import Prelude Spinlock Mem Kstring Kalloc Vm Proc FsState Sleeplock Bio.
Local Open Scope xv6_scope.

Section log.
Context `{KI : KernelImage} `{DO : DiskOps}.

(** [log.lh.block[i]] *)
Definition lh_get (i : Z) (lh : logheader) : option Z :=
  if i <? 0 then None else lh_block lh !! Z.to_nat i.

Definition lh_set (i v : Z) : M KS unit :=
  l ← getlog;
  match lh_get i (log_lh l) with
  | Some _ => updlog (fun l => l <| log_lh ::= fun lh => lh <| lh_block ::= <[Z.to_nat i := v]> |> |>)
  | None => fault i
  end.

(** A round past the end of [block] faults, so [LOGSIZE + 1] rounds are
    enough for the loops over the header. *)
Definition log_rounds : nat := S (Z.to_nat LOGSIZE).

Fixpoint install_trans_loop (fuel : nat) (recovering : bool) (tail : Z) : M W unit :=
  match fuel with
  | O => out_of_fuel
  | S fuel =>
    l ← onw getlog;
    if negb (tail <? lh_n (log_lh l)) then ret tt else
    lbuf ← bread (log_dev l) (u32 (log_start l + tail + 1));
    l ← onw getlog;
    dst ← deref (lh_get tail (log_lh l));
    dbuf ← bread (log_dev l) (u32 dst);
    lb ← onw (getb lbuf);
    onw (updb dbuf (fun x => x <| b_data := b_data lb |>));;
    bwrite dbuf;;
    when (negb recovering) (onw (bunpin dbuf));;
    onw (brelse lbuf);;
    onw (brelse dbuf);;
    install_trans_loop fuel recovering (tail + 1)
  end.

Definition install_trans (recovering : bool) : M W unit := install_trans_loop log_rounds recovering 0.

Fixpoint read_head_loop (fuel : nat) (buf : nat) (i : Z) : M KS unit :=
  match fuel with
  | O => out_of_fuel
  | S fuel =>
    l ← getlog;
    if negb (i <? lh_n (log_lh l)) then ret tt else
    b ← getb buf;
    lh_set i (i32 (get_at (4 + 4 * i) 4 (b_data b)));;
    read_head_loop fuel buf (i + 1)
  end.

Definition read_head : M W unit :=
  l ← onw getlog;
  buf ← bread (log_dev l) (u32 (log_start l));
  b ← onw (getb buf);
  onw (updlog (fun l => l <| log_lh ::= fun lh => lh <| lh_n := i32 (get_at 0 4 (b_data b)) |> |>));;
  onw (read_head_loop log_rounds buf 0);;
  onw (brelse buf).

Fixpoint write_head_loop (fuel : nat) (buf : nat) (i : Z) : M KS unit :=
  match fuel with
  | O => out_of_fuel
  | S fuel =>
    l ← getlog;
    if negb (i <? lh_n (log_lh l)) then ret tt else
    v ← deref (lh_get i (log_lh l));
    updb buf (fun x => x <| b_data ::= put_at (4 + 4 * i) 4 v |>);;
    write_head_loop fuel buf (i + 1)
  end.

Definition write_head : M W unit :=
  l ← onw getlog;
  buf ← bread (log_dev l) (u32 (log_start l));
  l ← onw getlog;
  onw (updb buf (fun x => x <| b_data ::= put_at 0 4 (lh_n (log_lh l)) |>));;
  onw (write_head_loop log_rounds buf 0);;
  bwrite buf;;
  onw (brelse buf).

Definition clear_head : M KS unit :=
  updlog (fun l => l <| log_lh ::= fun lh => lh <| lh_n := 0 |> |>).

Definition recover_from_log : M W unit :=
  read_head;;
  install_trans true;;
  onw clear_head;;
  write_head.

Definition initlog (dev : Z) (sb : superblock) : M W unit :=
  when (BSIZE <=? 4 + 4 * LOGSIZE) (panic "initlog: too big logheader");;
  onw (lkm (initlock L_log "log"));;
  onw (updlog (fun l => l <| log_start := i32 (sb_logstart sb) |> <| log_size := i32 (sb_nlog sb) |>
                          <| log_dev := dev |>));;
  recover_from_log.

Fixpoint begin_op_loop (fuel : nat) : M W unit :=
  match fuel with
  | O => out_of_fuel
  | S fuel =>
    l ← onw getlog;
    if truthy (log_committing l) then sleep C_log L_log;; begin_op_loop fuel
    else if LOGSIZE <? lh_n (log_lh l) + (log_outstanding l + 1) * MAXOPBLOCKS then
      sleep C_log L_log;; begin_op_loop fuel
    else
      onw (updlog (fun l => l <| log_outstanding ::= fun n => n + 1 |>));;
      onw (lkm (release L_log))
  end.

Definition begin_op : M W unit :=
  onw (lkm (acquire L_log));;
  w ← get;
  begin_op_loop (S (length (w_env w))).

Fixpoint write_log_loop (fuel : nat) (tail : Z) : M W unit :=
  match fuel with
  | O => out_of_fuel
  | S fuel =>
    l ← onw getlog;
    if negb (tail <? lh_n (log_lh l)) then ret tt else
    to ← bread (log_dev l) (u32 (log_start l + tail + 1));
    l ← onw getlog;
    src ← deref (lh_get tail (log_lh l));
    from ← bread (log_dev l) (u32 src);
    fb ← onw (getb from);
    onw (updb to (fun x => x <| b_data := b_data fb |>));;
    bwrite to;;
    onw (brelse from);;
    onw (brelse to);;
    write_log_loop fuel (tail + 1)
  end.

Definition write_log : M W unit := write_log_loop log_rounds 0.

Definition commit : M W unit :=
  l ← onw getlog;
  when (0 <? lh_n (log_lh l))
    (write_log;;
     write_head;;
     install_trans false;;
     onw clear_head;;
     write_head).

Definition end_op : M W unit :=
  onw (lkm (acquire L_log));;
  onw (updlog (fun l => l <| log_outstanding ::= fun n => n - 1 |>));;
  l ← onw getlog;
  when (truthy (log_committing l)) (panic "log.committing");;
  do_commit ← (if log_outstanding l =? 0 then
      onw (updlog (fun l => l <| log_committing := 1 |>));; ret true
    else onw (wakeup C_log);; ret false);
  onw (lkm (release L_log));;
  when do_commit
    (commit;;
     onw (lkm (acquire L_log));;
     onw (updlog (fun l => l <| log_committing := 0 |>));;
     onw (wakeup C_log);;
     onw (lkm (release L_log))).

(** The first position of the header that holds the block, or [n]. *)
Fixpoint log_find (fuel : nat) (lh : logheader) (blockno i : Z) : M KS Z :=
  match fuel with
  | O => out_of_fuel
  | S fuel =>
    if negb (i <? lh_n lh) then ret i else
    v ← deref (lh_get i lh);
    if u32 v =? blockno then ret i else log_find fuel lh blockno (i + 1)
  end.

Definition log_write (b : nat) : M KS unit :=
  lkm (acquire L_log);;
  l ← getlog;
  let lh := log_lh l in
  when ((LOGSIZE <=? lh_n lh) || (log_size l - 1 <=? lh_n lh)) (panic "too big a transaction");;
  when (log_outstanding l <? 1) (panic "log_write outside of trans");;
  x ← getb b;
  i ← log_find log_rounds lh (b_blockno x) 0;
  lh_set i (i32 (b_blockno x));;
  when (i =? lh_n lh)
    (bpin b;;
     updlog (fun l => l <| log_lh ::= fun lh => lh <| lh_n ::= fun n => n + 1 |> |>));;
  lkm (release L_log).

End log.
