(* ===== verification/FsFacts.v ===== *)
(** * Sleep locks: specifications, and the frame of file system code

    File system code runs in a process that holds no spinlock between calls
    ([quiet]).  Apart from the file system's own state an operation changes
    only what [frame] allows: it may wake processes. *)

From Stdlib Require Import ZArith Lia.
From stdpp Require Import base gmap strings numbers list.
From S2P Require Import Prelude Spinlock Mem Kstring Kalloc Vm Proc ProcLife ProcFacts ProcOps Exit Sched FsState Sleeplock.
Local Open Scope xv6_scope.

(** The locks of static storage. *)
Definition kernel_lock (lk : lockid) : bool :=
  match lk with
  | L_proc i => bool_decide (i < NPROC)%nat
  | L_buf i => bool_decide (i < NBUF)%nat
  | L_inode i => bool_decide (i < NINODE)%nat
  | L_pipe _ => false
  | _ => true
  end.

(** Processes woken up. *)
Definition woke (p p' : proc) : Prop :=
  p' = p ∨ (p_state p = SLEEPING ∧ p' = p <| p_state := RUNNABLE |>).
Definition woken : list proc → list proc → Prop := Forall2 woke.

#[global] Instance woken_refl : Reflexive woken.
Proof. intros ps. apply Forall_Forall2_diag, Forall_true. by left. Qed.

Lemma woke_trans p1 p2 p3 : woke p1 p2 → woke p2 p3 → woke p1 p3.
Proof. intros [->|[H ->]] [->|[H' ->]]; [by left|by right|by right|done]. Qed.

#[global] Instance woken_trans : Transitive woken.
Proof.
  intros ps1 ps2 ps3 H. revert ps3. induction H as [|p1 p2 ps1 ps2 H _ IH]; intros ps3 H'.
  - inversion H'. constructor.
  - inversion H' as [|? p3 ? ps3' Hp Hps]; subst. constructor; [by eapply woke_trans|by apply IH].
Qed.

Lemma woken_wake c me ps : woken ps (imap (wake c me) ps).
Proof.
  apply Forall2_same_length_lookup. split; [by rewrite length_imap|]. intros i p p' Hp Hp'.
  rewrite list_lookup_imap, Hp in Hp'. injection Hp' as <-. unfold wake.
  case_decide as H; [right|by left]. split; [apply H|done].
Qed.

Lemma woken_lookup ps ps' i p : woken ps ps' → ps !! i = Some p →
  ∃ p', ps' !! i = Some p' ∧ woke p p'.
Proof. intros H Hp. destruct (Forall2_lookup_l _ _ _ _ _ H Hp) as (p' & ? & ?). eauto. Qed.

Section frame.
Context `{KI : KernelImage}.
Implicit Types s : KS.

(** Change of the file system's state. *)
Definition fsk (g : fsstate → fsstate) (s : KS) : KS := s <| ks_fs ::= g |>.

(** Change of memory. *)
Definition with_mem (m : gmap Z Z) (s : KS) : KS := s <| ks_k ::= set_mem m |>.

Record frame (s s' : KS) : Prop := {
  fr_mach : ks_mach s' ≡ ks_mach s;
  fr_mem : k_mem (ks_k s') = k_mem (ks_k s);
  fr_free : k_freelist (ks_k s') = k_freelist (ks_k s);
  fr_procs : woken (ks_proc s) (ks_proc s');
  fr_init : ks_initproc s' = ks_initproc s;
  fr_pid : ks_nextpid s' = ks_nextpid s;
  fr_ticks : ks_ticks s' = ks_ticks s;
  fr_stacks : ks_stacks s' = ks_stacks s;
  fr_first : ks_first s' = ks_first s
}.

#[global] Instance frame_refl : Reflexive frame.
Proof. intros s. by split. Qed.

#[global] Instance frame_trans : Transitive frame.
Proof.
  intros s1 s2 s3 [A1 A2 A3 A4 A5 A6 A7 A8 A9] [B1 B2 B3 B4 B5 B6 B7 B8 B9].
  split; try congruence; by etrans.
Qed.

Lemma frame_equiv s s' : s' ≡ s → frame s s' ∧ ks_fs s' = ks_fs s.
Proof.
  intros [(H1 & H2 & H3) H4]. unfold rest in H4. injection H4 as E1 E2 E3 E4 E5 E6 E7.
  split; [|done]. split; try done. by rewrite E1.
Qed.

Lemma frame_fsk g s : frame s (fsk g s).
Proof. by split. Qed.

#[global] Instance fsk_proper g : Proper (equiv ==> equiv) (fsk g).
Proof. intros s s' [H1 H2]. split; [done|]. unfold rest, fsk in *; cbn in *. congruence. Qed.

#[global] Instance ks_fs_proper : Proper ((≡@{KS}) ==> eq) ks_fs.
Proof. intros s s' [_ H]. by injection H. Qed.

(** Process [i] runs, holds no spinlock, and nobody else holds one. *)
Record quiet (i : nat) (s : KS) : Prop := {
  qu_runs : runs i (ks_mach s);
  qu_free : ∀ lk, kernel_lock lk → lock_free lk (ks_mach s);
  qu_len : length (ks_proc s) = NPROC;
  qu_me : ∃ p, ks_proc s !! i = Some p ∧ p_state p = RUNNING ∧ p_chan p = C_null
}.

Lemma quiet_lt i s : quiet i s → (i < NPROC)%nat.
Proof. intros [_ _ H (p & Hp & _)]. rewrite <- H. by eapply lookup_lt_Some. Qed.

Lemma quiet_frame i s s' : frame s s' → quiet i s → quiet i s'.
Proof.
  intros Hf [H1 H2 H3 (p & Hp & Hr & Hc)]. pose proof (fr_mach _ _ Hf) as Hm. split; [by rewrite Hm| | |].
  - intros lk. rewrite Hm. apply H2.
  - by rewrite <- (Forall2_length _ _ _ (fr_procs _ _ Hf)).
  - destruct (woken_lookup _ _ _ _ (fr_procs _ _ Hf) Hp) as (p' & Hp' & [->|[? _]]); [by exists p|congruence].
Qed.

Lemma quiet_procs i lk s : quiet i s → (∀ j, lk ≠ L_proc j) →
  procs_ok (Some i) (set_kmach (acq lk (ks_mach s)) s).
Proof.
  intros [H1 H2 H3 _] Hlk. apply procs_ok_acq; [done|]. split; [apply H1|done|].
  intros j Hj _. apply H2. cbn. by apply bool_decide_spec.
Qed.

Lemma procs_ok_fsk me g s : procs_ok me s → procs_ok me (fsk g s).
Proof. by intros []. Qed.

(** The pid of the running process. *)
Definition pid_of (i : nat) (s : KS) : Z := match ks_proc s !! i with Some p => p_pid p | None => 0 end.

Lemma pid_of_frame i s s' : frame s s' → pid_of i s' = pid_of i s.
Proof.
  intros Hf. unfold pid_of. destruct (ks_proc s !! i) as [p|] eqn:Hp.
  - destruct (woken_lookup _ _ _ _ (fr_procs _ _ Hf) Hp) as (p' & -> & [->|[_ ->]]); done.
  - apply lookup_ge_None in Hp. rewrite (Forall2_length _ _ _ (fr_procs _ _ Hf)) in Hp.
    by rewrite lookup_ge_None_2.
Qed.

(** ** Rules *)

Lemma wp_updfs g s Q : Q tt (fsk g s) → wp (updfs g) s Q.
Proof. done. Qed.

Lemma wp_getb b x s Q : fs_buf (ks_fs s) !! b = Some x → Q x s → wp (getb b) s Q.
Proof. intros Hb HQ. unfold getb. wp_simpl. by rewrite Hb. Qed.

Definition upd_buf (b : nat) (f : buf → buf) (fs : fsstate) : fsstate := fs <| fs_buf ::= alter f b |>.

Lemma wp_updb b f x s Q :
  fs_buf (ks_fs s) !! b = Some x → Q tt (fsk (upd_buf b f) s) → wp (updb b f) s Q.
Proof. intros Hb HQ. unfold updb. wp_simpl. eapply wp_getb; [done|]. exact HQ. Qed.

Lemma wp_getsl lk l s Q : sleeplock_of lk (ks_fs s) = Some l → Q l s → wp (getsl lk) s Q.
Proof. intros Hl HQ. unfold getsl. wp_simpl. by rewrite Hl. Qed.

Lemma wp_updsl lk f l s Q :
  sleeplock_of lk (ks_fs s) = Some l → Q tt (fsk (set_sleeplock lk (f l)) s) → wp (updsl lk f) s Q.
Proof. intros Hl HQ. unfold updsl. wp_simpl. eapply wp_getsl; [done|]. exact HQ. Qed.

(** [mypid] inside a critical section. *)
Lemma wp_mypid i lk s0 s Q :
  quiet i s0 → ks_mach s = acq lk (ks_mach s0) → ks_proc s = ks_proc s0 → Q (pid_of i s0) s → wp mypid s Q.
Proof.
  intros [[Hok _ Hc _] _ Hl (p & Hpi & _)] Hm Hp HQ. unfold mypid. wp_simpl.
  apply wp_myproc_k; [rewrite Hm; by apply mach_ok_acq|]. intros s' Hs'.
  rewrite (kstate_nested s s'); [|rewrite Hm; by apply nested_push|done].
  rewrite Hm, cur_acq, Hc. wp_simpl.
  eapply wp_getp; [by rewrite Hp|]. wp_simpl. unfold pid_of in HQ. by rewrite Hpi in HQ.
Qed.

(** A critical section, from its end: the body changed the file system by [g]
    and may have woken processes. *)
Lemma wp_rel_frame i lk s0 s Q :
  quiet i s0 → kernel_lock lk → ks_mach s ≡ acq lk (ks_mach s0) → frame s0 (set_kmach (ks_mach s0) s) →
  (∀ s', frame s0 s' → ks_fs s' = ks_fs s → Q tt s') → wp (lkm (release lk)) s Q.
Proof.
  intros Hq Hlk Hm Hf HQ. apply (wp_rel lk s0); [apply Hq|by apply Hq|done|]. intros s' Hs'.
  destruct (frame_equiv _ _ Hs') as [Hf' Hfs]. apply HQ; [by etrans|]. rewrite Hfs. by destruct s as [[]].
Qed.

(** [s] lies inside a critical section of [lk] that began at [s0]. *)
Record insec (lk : lockid) (s0 s : KS) : Prop := {
  is_mach : ks_mach s = acq lk (ks_mach s0);
  is_frame : frame s0 (set_kmach (ks_mach s0) s)
}.

Lemma insec_start lk s0 : insec lk s0 (set_kmach (acq lk (ks_mach s0)) s0).
Proof. split; [done|]. rewrite set_kmach_twice, set_kmach_id. done. Qed.

Lemma insec_fsk lk s0 g s : insec lk s0 s → insec lk s0 (fsk g s).
Proof. intros [H1 H2]. split; [done|]. etrans; [exact H2|]. by split. Qed.

(** The hart runs [me] and every lock is free. *)
Record calm (me : option nat) (s : KS) : Prop := {
  cl_ok : mach_ok (ks_mach s);
  cl_cur : cur (ks_mach s) = me;
  cl_free : ∀ lk, kernel_lock lk → lock_free lk (ks_mach s);
  cl_len : length (ks_proc s) = NPROC
}.

Lemma quiet_calm i s : quiet i s → calm (Some i) s.
Proof. intros [[H1 _ H2 _] H3 H4 _]. by split. Qed.

Lemma insec_nested lk s0 s : mach_ok (ks_mach s0) → insec lk s0 s → nested (ks_mach s).
Proof. intros Hq [-> _]. by apply nested_push. Qed.

Lemma insec_procs me lk s0 s : calm me s0 → (∀ j, lk ≠ L_proc j) → insec lk s0 s → procs_ok me s.
Proof.
  intros [H1 H2 H3 H4] Hlk [Hm Hf]. split.
  - rewrite Hm. by apply mach_ok_acq.
  - rewrite <- H4. symmetry. apply (Forall2_length _ _ _ (fr_procs _ _ Hf)).
  - intros j Hj Hne. rewrite Hm. apply lock_free_acq; [by intros ->; eapply Hlk|]. apply H3. cbn. by apply bool_decide_spec.
Qed.

Lemma wp_wakeup_sec me lk s0 s c Q :
  calm me s0 → (∀ j, lk ≠ L_proc j) → insec lk s0 s →
  (∀ s', insec lk s0 s' → s' = upd_procs (imap (wake c me)) s → Q tt s') → wp (wakeup c) s Q.
Proof.
  intros Hq Hlk Hs HQ. pose proof Hs as [Hm Hf].
  assert (cur (ks_mach s) = me) as Hc by (rewrite Hm, cur_acq; apply Hq).
  apply wp_wakeup; [rewrite Hc; by eapply insec_procs|]. rewrite Hc. intros s' Hs'.
  apply kstate_nested in Hs'; [|apply (insec_nested lk s0 s); [apply Hq|done]].
  apply HQ; [|done]. subst s'. split; [done|]. etrans; [exact Hf|]. split; try done. apply woken_wake.
Qed.

Lemma wp_end_sec me lk s0 s Q :
  calm me s0 → kernel_lock lk → insec lk s0 s →
  (∀ s', frame s0 s' → ks_fs s' = ks_fs s → ks_proc s' = ks_proc s → Q tt s') → wp (lkm (release lk)) s Q.
Proof.
  intros [H1 H2 H3 H4] Hlk [Hm Hf] HQ. apply (wp_rel lk s0); [done|by apply H3|by rewrite Hm|]. intros s' Hs'.
  destruct (frame_equiv _ _ Hs') as [Hf' Hfs].
  apply HQ; [by etrans|rewrite Hfs; by destruct s as [[]]|rewrite Hs'; by destruct s as [[]]].
Qed.

(** ** Sleep locks *)

Lemma sleeplock_proc lk fs l j : sleeplock_of lk fs = Some l → lk ≠ L_proc j.
Proof. by destruct lk. Qed.

Lemma sleeplock_set lk l l' fs : sleeplock_of lk fs = Some l →
  sleeplock_of lk (set_sleeplock lk l' fs) = Some l'.
Proof.
  destruct lk; try done; cbn; rewrite list_lookup_alter_eq; [destruct (fs_buf fs !! i)|destruct (fs_inode fs !! i)]; done.
Qed.

Lemma set_sleeplock_twice lk l l' fs : set_sleeplock lk l (set_sleeplock lk l' fs) = set_sleeplock lk l fs.
Proof.
  destruct lk; try done; unfold set_sleeplock, setf; cbn; rewrite list_alter_alter_eq; done.
Qed.

Lemma fsk_comp g h s : fsk g (fsk h s) = fsk (g ∘ h) s.
Proof. done. Qed.

Lemma fsk_ext g h s : g (ks_fs s) = h (ks_fs s) → fsk g s = fsk h s.
Proof. intros H. unfold fsk, setf. cbn. by rewrite H. Qed.

Lemma wp_holdingsleep i lk l s Q :
  quiet i s → kernel_lock lk → sleeplock_of lk (ks_fs s) = Some l →
  (∀ s', frame s s' → ks_fs s' = ks_fs s → Q (truthy (sl_locked l) && (sl_pid l =? pid_of i s)) s') →
  wp (holdingsleep lk) s Q.
Proof.
  intros Hq Hlk Hl HQ. unfold holdingsleep. wp_simpl. apply wp_acq; [apply Hq|by apply Hq|]. wp_simpl.
  eapply wp_getsl; [exact Hl|]. destruct (truthy (sl_locked l)); wp_simpl.
  - apply (wp_mypid i lk s); [done|done|done|]. wp_simpl.
    apply (wp_rel_frame i lk s); [done|done|done|by split|]. intros s' Hf Hfs. wp_simpl. by apply HQ.
  - apply (wp_rel_frame i lk s); [done|done|done|by split|]. intros s' Hf Hfs. wp_simpl. by apply HQ.
Qed.

Lemma wp_releasesleep i lk l s Q :
  quiet i s → kernel_lock lk → sleeplock_of lk (ks_fs s) = Some l →
  (∀ s', frame s s' → ks_fs s' = set_sleeplock lk (Sleeplock 0 (sl_name l) 0) (ks_fs s) → Q tt s') →
  wp (releasesleep lk) s Q.
Proof.
  intros Hq Hlk Hl HQ. assert (∀ j, lk ≠ L_proc j) as Hne by (intros; by eapply sleeplock_proc).
  unfold releasesleep. wp_simpl. apply wp_acq; [apply Hq|by apply Hq|]. wp_simpl.
  eapply wp_updsl; [exact Hl|]. wp_simpl.
  apply quiet_calm in Hq as Hcalm.
  apply (wp_wakeup_sec (Some i) lk s); [done|done|apply insec_fsk, insec_start|]. intros s2 Hs2 E. wp_simpl.
  apply (wp_end_sec (Some i) lk s); [done|done|done|]. intros s' Hf Hfs _. apply HQ; [done|]. by rewrite Hfs, E.
Qed.

Lemma wp_acquiresleep i lk l s e Q :
  quiet i s → kernel_lock lk → sleeplock_of lk (ks_fs s) = Some l → sl_locked l = 0 →
  (∀ s', frame s s' → ks_fs s' = set_sleeplock lk (Sleeplock 1 (sl_name l) (pid_of i s)) (ks_fs s) →
     Q tt (World s' e)) →
  wp (acquiresleep lk) (World s e) Q.
Proof.
  intros Hq Hlk Hl Hfree HQ. unfold acquiresleep. wp_simpl. apply wp_acq; [apply Hq|by apply Hq|]. wp_simpl.
  cbn [w_env acquiresleep_loop]. wp_simpl. eapply wp_getsl; [exact Hl|]. rewrite Hfree. change (truthy 0) with false. cbn iota. wp_simpl.
  eapply wp_updsl; [exact Hl|]. wp_simpl. apply (wp_mypid i lk s); [done|done|done|]. wp_simpl.
  eapply wp_updsl; [eapply sleeplock_set; exact Hl|]. rewrite fsk_comp. wp_simpl.
  apply (wp_rel_frame i lk s); [done|done|done|by split|].
  intros s' Hf Hfs. apply HQ; [done|]. rewrite Hfs. cbn. apply set_sleeplock_twice.
Qed.

End frame.

Lemma wp_getlog s Q : wp getlog s Q = Q (fs_log (ks_fs s)) s.
Proof. done. Qed.

Definition upd_log (f : log → log) (fs : fsstate) : fsstate := fs <| fs_log ::= f |>.

Lemma wp_updlog f s Q : wp (updlog f) s Q = Q tt (fsk (upd_log f) s).
Proof. done. Qed.

#[export] Hint Rewrite @wp_getlog @wp_updlog : wpdb.
