(* ===== verification/Sample.v ===== *)
(** * Sample states

    The concrete states the examples run on: a machine on which every lock is
    free, a process table, and the address space of a process with one page. *)

From Stdlib Require Import ZArith Lia.
From stdpp Require Import base gmap strings numbers list.
From S2P Require Import Prelude Spinlock Mem Kstring Kalloc Vm PageTable VmFacts Uvm UvmAlloc CopyUser Proc ProcLife ProcFacts ProcOps Exit Signals Sched FsState Sleeplock FsFacts.
Local Open Scope xv6_scope.

#[local] Existing Instance small_image.

(** ** A machine with every lock free *)

Definition all_locks : list lockid :=
  [L_kmem; L_pid; L_wait; L_ticks; L_bcache; L_log; L_itable; L_ftable; L_cons; L_pr; L_uart_tx; L_vdisk; L_pipe (page_no 4)]
  ++ (L_proc <$> seq 0 NPROC) ++ (L_buf <$> seq 0 NBUF) ++ (L_inode <$> seq 0 NINODE).

Lemma all_locks_in lk : kernel_lock lk → lk ∈ all_locks.
Proof.
  intros Hlk. unfold all_locks. rewrite !elem_of_app, !list_elem_of_fmap.
  destruct lk; try (left; set_solver); try (destruct Hlk); right.
  - left. exists i. apply bool_decide_unpack in Hlk. rewrite elem_of_seq. split; [done|lia].
  - right. left. exists i. apply bool_decide_unpack in Hlk. rewrite elem_of_seq. split; [done|lia].
  - right. right. exists i. apply bool_decide_unpack in Hlk. rewrite elem_of_seq. split; [done|lia].
Qed.

Definition free_locks (l : list lockid) : gmap lockid spinlock :=
  foldr (fun lk m => <[lk := Spinlock 0 "lock" None]> m) ∅ l.

Lemma free_locks_lookup lk l : lk ∈ l → free_locks l !! lk = Some (Spinlock 0 "lock" None).
Proof.
  induction l as [|lk' l IH]; intros Hin; [by apply not_elem_of_nil in Hin|]. cbn [free_locks foldr].
  destruct (decide (lk' = lk)) as [->|Hne]; [apply lookup_insert_eq|]. rewrite lookup_insert_ne by done.
  apply IH. by apply elem_of_cons in Hin as [?|?].
Qed.

(** Hart 0 runs the process in slot 0. *)
Definition fs_mach : mach :=
  Mach 0 2 (<[0%nat := Cpu (Some 0%nat) context0 0 false]> (replicate 8 (Cpu None context0 0 false))) (free_locks all_locks).

Lemma fs_mach_free lk : kernel_lock lk → lock_free lk fs_mach.
Proof. intros Hlk. exists "lock"%string. by apply free_locks_lookup, all_locks_in. Qed.

Definition fs_ks (fs : fsstate) : KS :=
  KState (Kst fs_mach ∅ 0) table_procs (Some 0%nat) 3 100 (replicate 64 0) 0 fs.

Lemma fs_ks_quiet fs : quiet 0 (fs_ks fs).
Proof.
  split; [split|apply fs_mach_free|done|].
  - split; [cbn; lia|]. eexists. split; [reflexivity|]. cbn. split; [lia|lia].
  - by apply fs_mach_free.
  - done.
  - done.
  - eexists. split; [reflexivity|]. done.
Qed.

(** Nothing typed, nothing to send. *)
Definition idle_console : console :=
  Console (replicate (Z.to_nat INPUT_BUF_SIZE) 0) 0 0 0 (replicate (Z.to_nat UART_TX_BUF_SIZE) 0) 0 0 1 0 [] [] 1.

(** A file system nobody has used, with console [c]. *)
Definition con_fs (c : console) : fsstate :=
  FsState [] (Log 2 30 0 0 ROOTDEV (Logheader 0 [])) (Superblock FSMAGIC 60 20 10 30 2 32 34) [] [] ∅ (Disk ∅ [])
    (Vdisk [] [] 0 [] 0 [] 0 [] [] [] false 0) c.

(** ** A user address space *)

(** Three tables, at pages 0 to 2 past the kernel; page 3 is mapped at 0. *)
Definition user_tbl : tbl := {[ (2%nat, 0) := page_no 0; (1%nat, 0) := page_no 1; (0%nat, 0) := page_no 2 ]}.
Definition user_mem : gmap Z Z :=
  store64 (store64 (store64 (write_bytes ∅ (page_no 3) [104; 105; 33])
    (page_no 0) (node_pte (page_no 1))) (page_no 1) (node_pte (page_no 2)))
    (page_no 2) (Z.lor (PA2PTE (page_no 3)) 23).

Lemma user_tbl_lookup l p c : user_tbl !! (l, p) = Some c →
  p = 0 ∧ ((l = 2%nat ∧ c = page_no 0) ∨ (l = 1%nat ∧ c = page_no 1) ∨ (l = 0%nat ∧ c = page_no 2)).
Proof.
  unfold user_tbl. rewrite !lookup_insert_Some, lookup_singleton_Some. naive_solver.
Qed.

Lemma page_no_ok i : (i < 100)%nat → page_ok (page_no i).
Proof.
  intros H. unfold page_ok, page_no. change PHYSTOP with (2147483648 + 134217728).
  change kend with (2147483648 + 16 * 4096). change KERNBASE with 2147483648.
  split; [|lia]. apply Z.mod_divide; [lia|]. exists (524288 + 20 + Z.of_nat i). lia.
Qed.

Lemma user_mem_empty k : (k < 3)%nat → ∀ i, 1 ≤ i < 512 → Z.land (load64 user_mem (page_no k + 8 * i)) PTE_V = 0.
Proof.
  intros Hk i Hi.
  assert (forallb (fun i => Z.land (load64 user_mem (page_no k + 8 * i)) PTE_V =? 0) (seqZ 1 511) = true) as H.
  { destruct k as [|[|[|k]]]; [by vm_compute..|lia]. }
  rewrite forallb_forall in H. apply Z.eqb_eq, H, list_elem_of_In, elem_of_seqZ. lia.
Qed.

Lemma user_pt_rep : pt_rep user_mem (page_no 0) user_tbl.
Proof.
  split.
  - done.
  - intros l p c H. apply user_tbl_lookup in H. lia.
  - intros l p c H Hl. apply user_tbl_lookup in H as [-> [[-> _]|[[-> _]|[-> _]]]]; [lia|by eexists..].
  - intros [l p] c H. apply user_tbl_lookup in H as [_ [[_ ->]|[[_ ->]|[_ ->]]]]; apply page_no_ok; lia.
  - intros [l p] [l' p'] c H H'. apply user_tbl_lookup in H, H'. unfold page_no in *.
    destruct H as [-> H], H' as [-> H']. f_equal. lia.
  - intros l p pt i H Hi. apply user_tbl_lookup in H as [-> H].
    destruct (user_tbl !! (l, 0 * 512 + i)) as [c|] eqn:Ec.
    + apply user_tbl_lookup in Ec as [Ei Ec]. assert (i = 0) as -> by lia.
      destruct H as [[? ->]|[[? ->]|[? ->]]], Ec as [[? ->]|[[? ->]|[? ->]]]; try lia; by vm_compute.
    + assert (i ≠ 0) as Hne. { intros ->. destruct H as [[El _]|[[El _]|[El _]]]; simplify_eq; by vm_compute in Ec. }
      destruct H as [[El ->]|[[El ->]|[El ->]]]; simplify_eq; apply user_mem_empty; lia.
Qed.

(** Process 0 has this address space. *)
Definition user_ks (fs : fsstate) : KS :=
  KState (Kst fs_mach user_mem 0) (alter (fun p => p <| p_pagetable := page_no 0 |>) 0%nat table_procs)
    (Some 0%nat) 3 100 (replicate 64 0) 0 fs.

Lemma user_ks_quiet fs : quiet 0 (user_ks fs).
Proof.
  split; [split|apply fs_mach_free|done|].
  - split; [cbn; lia|]. eexists. split; [reflexivity|]. cbn. split; [lia|lia].
  - by apply fs_mach_free.
  - done.
  - done.
  - eexists. split; [reflexivity|]. done.
Qed.

Lemma user_uaddr va : 0 ≤ va < 4096 → uaddr user_mem user_tbl va = page_no 3.
Proof. intros H. rewrite (uaddr_page _ _ va 0) by zlia. by vm_compute. Qed.

Lemma page_3_target : target_ok user_tbl (page_no 3).
Proof.
  split; [by vm_compute|]. intros x Hx c [[l p] Hc] H. apply user_tbl_lookup in Hc as [_ Hc]. unfold page_no in *. lia.
Qed.
