(* ===== verification/CritSec.v ===== *)
(** * Critical sections of a process

    [inside lk i own m s]: process [i] holds [lk] and no other lock, on a machine
    that is [m] without it; [own] is the lock of the structure it works on.  In
    the section it may sleep, exchange the lock for its own, and come back.  The
    file also has the user memory that such code reads and writes byte by
    byte. *)

From Stdlib Require Import ZArith Lia.
From stdpp Require Import base gmap strings numbers list.
From S2P Require Import Prelude Spinlock Mem Kstring Kalloc Vm PageTable VmFacts Uvm UvmAlloc CopyUser Proc ProcLife ProcFacts ProcOps Exit Sched FsState Sleeplock FsFacts.
Local Open Scope xv6_scope.

(** ** User memory, byte by byte *)

Lemma uread_lookup m T va n bs j b : uread m T va n = (true, bs) → bs !! j = Some b →
  uread m T (va + Z.of_nat j) 1 = (true, [b]).
Proof.
  revert va bs j. induction n as [|n IH]; intros va bs j H Hj; cbn [uread] in H; [by injection H as <-|].
  destruct (uaddr m T va =? 0) eqn:E; [done|].
  destruct (uread m T (va + 1) n) as [ok bs'] eqn:Er. injection H as -> <-. destruct j as [|j].
  - injection Hj as <-. cbn. rewrite Z.add_0_r. by rewrite E.
  - rewrite <- (IH _ _ j Er Hj). f_equal. lia.
Qed.

Lemma uread_length m T va n bs : uread m T va n = (true, bs) → length bs = n.
Proof.
  revert va bs. induction n as [|n IH]; intros va bs H; cbn [uread] in H; [by injection H as <-|].
  destruct (uaddr m T va =? 0); [done|]. destruct (uread m T (va + 1) n) as [ok bs'] eqn:Er.
  injection H as -> <-. cbn. by rewrite (IH _ _ Er).
Qed.

Section critsec.
Context `{KI : KernelImage}.
Implicit Types s : KS.

(** Process [i] is inside a critical section of [lk] on the machine [m]; no
    other lock is held. *)
Record inside (lk : lockid) (i : nat) (own : lockid) (m : mach) (s : KS) : Prop := {
  in_runs : runs i m;
  in_free : ∀ lk, kernel_lock lk → lock_free lk m;
  in_own : lock_free own m;
  in_ne : ∀ j, own ≠ L_proc j;
  in_len : length (ks_proc s) = NPROC;
  in_lt : (i < NPROC)%nat;
  in_mach : ks_mach s = acq lk m
}.

Lemma inside_nested lk i own m s : inside lk i own m s → nested (ks_mach s).
Proof. intros H. rewrite (in_mach _ _ _ _ _ H). by apply nested_push, H. Qed.

Lemma inside_ok lk i own m s : inside lk i own m s → mach_ok (ks_mach s).
Proof. intros H. rewrite (in_mach _ _ _ _ _ H). by apply mach_ok_acq, H. Qed.

Lemma inside_proc i own m s : inside own i own m s → lock_free (L_proc i) (ks_mach s).
Proof. intros H. rewrite (in_mach _ _ _ _ _ H). apply lock_free_acq; [apply H|apply (in_runs _ _ _ _ _ H)]. Qed.

Lemma inside_fsk lk i own m g s : inside lk i own m s → inside lk i own m (fsk g s).
Proof. by intros []. Qed.

Lemma inside_upd lk i own m f s : (∀ ps, length (f ps) = length ps) →
  inside lk i own m s → inside lk i own m (upd_procs f s).
Proof. intros Hf []. split; try done. cbn. by rewrite Hf. Qed.

(** Outside of every section. *)
Record ready (i : nat) (s : KS) : Prop := {
  ry_runs : runs i (ks_mach s);
  ry_free : ∀ lk, kernel_lock lk → lock_free lk (ks_mach s);
  ry_len : length (ks_proc s) = NPROC;
  ry_lt : (i < NPROC)%nat
}.

Lemma quiet_ready i s : quiet i s → ready i s.
Proof. intros Hq. pose proof (quiet_lt _ _ Hq). destruct Hq as [H1 H2 H3 _]. by split. Qed.

Lemma ready_equiv i s s' : s' ≡ s → ready i s → ready i s'.
Proof.
  intros E [H1 H2 H3 H4]. assert (ks_mach s' ≡ ks_mach s) as Em by (by rewrite E). split.
  - by rewrite Em.
  - intros lk Hlk. rewrite Em. by apply H2.
  - by rewrite (ks_proc_proper _ _ E).
  - done.
Qed.

Lemma inside_ready lk i own m s s' : inside lk i own m s → s' ≡ set_kmach m s → ready i s'.
Proof. intros [] E. eapply ready_equiv; [exact E|]. by split. Qed.

(** Entering and leaving. *)
Lemma wp_enter i own s Q :
  ready i s → lock_free own (ks_mach s) → (∀ j, own ≠ L_proc j) →
  (inside own i own (ks_mach s) (set_kmach (acq own (ks_mach s)) s) →
   Q tt (set_kmach (acq own (ks_mach s)) s)) →
  wp (lkm (acquire own)) s Q.
Proof.
  intros [H1 H2 H3 H4] Hl Hne HQ. apply wp_acq; [apply H1|done|]. apply HQ. by split.
Qed.

Lemma wp_leave i own m s Q :
  inside own i own m s → (∀ s', s' ≡ set_kmach m s → Q tt s') → wp (lkm (release own)) s Q.
Proof.
  intros Hs HQ. apply (wp_rel own (set_kmach m s)); [apply Hs|apply (in_own _ _ _ _ _ Hs)|by rewrite (in_mach _ _ _ _ _ Hs)|].
  intros s' Hs'. apply HQ. exact Hs'.
Qed.

Lemma wp_killed_in i own m s p Q :
  inside own i own m s → ks_proc s !! i = Some p → Q (p_killed p) s → wp (killed i) s Q.
Proof.
  intros Hs Hp HQ. apply (wp_killed i p); [by eapply inside_ok|by eapply inside_proc|done|].
  intros s' Hs'. apply kstate_nested in Hs' as ->; [done|by eapply inside_nested].
Qed.

Lemma wp_wakeup_in c i own m s Q :
  inside own i own m s →
  (inside own i own m (upd_procs (imap (wake c (Some i))) s) →
   Q tt (upd_procs (imap (wake c (Some i))) s)) → wp (wakeup c) s Q.
Proof.
  intros Hs HQ. assert (cur (ks_mach s) = Some i) as Hc.
  { rewrite (in_mach _ _ _ _ _ Hs), cur_acq. apply Hs. }
  apply wp_wakeup; rewrite Hc.
  - split; [by eapply inside_ok|apply Hs|]. intros j Hj _. rewrite (in_mach _ _ _ _ _ Hs).
    apply lock_free_acq; [apply Hs|]. apply (in_free _ _ _ _ _ Hs). cbn. by apply bool_decide_spec.
  - intros s' Hs'. apply kstate_nested in Hs' as ->; [|exact (inside_nested _ _ _ _ _ Hs)].
    apply HQ, inside_upd; [|done]. intros ps. apply length_imap.
Qed.

(** Asleep, and back. *)
Definition parked (c : chan) (i : nat) (m : mach) (s : KS) : KS :=
  set_kmach (acq (L_proc i) m) (upd_procs (alter (asleep c) i) s).
Definition resumed (lk : lockid) (i : nat) (m : mach) (s : KS) : KS :=
  set_kmach (acq lk m) (upd_procs (alter awake i) s).

Lemma inside_parked c i own m s : inside own i own m s → inside (L_proc i) i own m (parked c i m s).
Proof. intros []. split; try done. cbn. by rewrite length_alter. Qed.

Lemma wp_sleep_val c i own m s ev es m' p' Q :
  inside own i own m s → inside (L_proc i) i own m' (ev (parked c i m s)) →
  ks_proc (ev (parked c i m s)) !! i = Some p' →
  (let m2 := set_ie (sie m) m' in let s2 := resumed own i m2 (ev (parked c i m s)) in
   inside own i own m2 s2 → Q (sg_in_handler (p_signaling p')) (World s2 es)) →
  wp (sleep c own) (World s (ev :: es)) Q.
Proof.
  intros Hs Hs' Hp' HQ.
  destruct (lookup_lt_is_Some_2 (ks_proc s) i) as [p Hp].
  { rewrite (in_len _ _ _ _ _ Hs). apply Hs. }
  eapply wp_mono; [apply (wp_sleep c own i p m s ev es m' p'); try done; try apply (in_own _ _ _ _ _ Hs); try apply (in_own _ _ _ _ _ Hs'); try apply Hs; try apply Hs'|].
  intros r w [-> ->]. apply HQ. destruct Hs' as [H1 H2 H3 H4 H5 H6 H7].
  split; try done; [by apply runs_set_ie|]. cbn. by rewrite length_alter.
Qed.

Lemma wp_sleep_in c i own m s ev es m' Q :
  inside own i own m s → inside (L_proc i) i own m' (ev (parked c i m s)) →
  (∀ r, let m2 := set_ie (sie m) m' in let s2 := resumed own i m2 (ev (parked c i m s)) in
     inside own i own m2 s2 → Q r (World s2 es)) →
  wp (sleep c own) (World s (ev :: es)) Q.
Proof.
  intros Hs Hs' HQ. destruct (lookup_lt_is_Some_2 (ks_proc (ev (parked c i m s))) i) as [p' Hp'].
  { rewrite (in_len _ _ _ _ _ Hs'). apply Hs'. }
  eapply wp_sleep_val; [done|done|done|]. apply HQ.
Qed.

(** Process [i] sleeps on [c]; no other process does. *)
Definition sleeps_on (c : chan) (i : nat) (s : KS) : Prop :=
  ∃ p, ks_proc s !! i = Some p ∧ p_state p = SLEEPING ∧ p_chan p = c.
Definition none_asleep (c : chan) (i : nat) (s : KS) : Prop :=
  ∀ j p, j ≠ i → ks_proc s !! j = Some p → p_state p = SLEEPING → p_chan p ≠ c.

Lemma sleeps_parked c i own m s : inside own i own m s → sleeps_on c i (parked c i m s).
Proof.
  intros H. destruct (lookup_lt_is_Some_2 (ks_proc s) i) as [p Hp]; [rewrite (in_len _ _ _ _ _ H); apply H|].
  exists (asleep c p). cbn. by rewrite list_lookup_alter_eq, Hp.
Qed.

Lemma none_asleep_wake c i s : none_asleep c i (upd_procs (imap (wake c (Some i))) s).
Proof.
  intros j p Hj Hp. cbn in Hp. rewrite list_lookup_imap in Hp. destruct (ks_proc s !! j) as [q|]; [|done]. injection Hp as <-.
  unfold wake. case_decide as H; [done|]. intros H1 H2. apply H. split; [congruence|done].
Qed.

Lemma none_asleep_parked c c' i m s : none_asleep c i s → none_asleep c i (parked c' i m s).
Proof. intros H j p Hj Hp. cbn in Hp. rewrite list_lookup_alter_ne in Hp by done. by apply (H j). Qed.

(** A section seen as one of any caller. *)
Lemma inside_insec lk i own m s : inside lk i own m s → calm (Some i) (set_kmach m s) ∧ insec lk (set_kmach m s) s.
Proof.
  intros [H1 H2 H3 H4 H5 H6 H7]. split; [split; [apply H1|apply H1|done|done]|]. split; [done|]. reflexivity.
Qed.

Lemma insec_inside lk i own m s s' : inside lk i own m s → insec lk (set_kmach m s) s' → inside lk i own m s'.
Proof.
  intros [H1 H2 H3 H4 H5 H6 H7] [E1 E2]. split; try done. rewrite <- H5. symmetry. exact (Forall2_length _ _ _ (fr_procs _ _ E2)).
Qed.

(** The process that runs. *)
Lemma wp_me_ready {A} i s e (K : nat → M W A) Q :
  ready i s → (∀ s', s' ≡ s → ready i s' → wp (K i) (World s' e) Q) →
  wp (me ← onw (lkm myproc); me ← deref me; K me) (World s e) Q.
Proof.
  intros Hq HQ. wp_simpl. apply wp_myproc_k; [apply Hq|]. intros s' Hs'.
  rewrite (ru_cur _ _ (ry_runs _ _ Hq)). wp_simpl. apply HQ; [done|]. by eapply ready_equiv.
Qed.

Lemma wp_me {A} i s e (K : nat → M W A) Q :
  quiet i s → (∀ s', s' ≡ s → quiet i s' → wp (K i) (World s' e) Q) →
  wp (me ← onw (lkm myproc); me ← deref me; K me) (World s e) Q.
Proof.
  intros Hq HQ. apply (wp_me_ready i); [by apply quiet_ready|]. intros s' Hs' _. apply HQ; [done|].
  eapply quiet_frame; [|exact Hq]. by apply frame_equiv.
Qed.

(** The bytes [bs] lie at [addr] in the memory of process [i]. *)
Definition sends (i : nat) (T : tbl) (addr : Z) (bs : list Z) (s : KS) : Prop :=
  ∃ p, ks_proc s !! i = Some p ∧ p_killed p = 0 ∧ pt_rep (k_mem (ks_k s)) (p_pagetable p) T ∧
    user_ram (k_mem (ks_k s)) T addr (Z.of_nat (length bs)) ∧
    uread (k_mem (ks_k s)) T addr (length bs) = (true, bs).

Lemma sends_alter i T addr bs f s :
  (∀ p, p_killed (f p) = p_killed p ∧ p_pagetable (f p) = p_pagetable p) →
  sends i T addr bs s → sends i T addr bs (upd_procs (alter f i) s).
Proof.
  intros Hf (p & Hp & Hk & Hr & Hu). destruct (Hf p) as [E1 E2]. exists (f p).
  split; [cbn; by rewrite list_lookup_alter_eq, Hp|]. by rewrite E1, E2.
Qed.

Lemma sends_wake i T addr bs c s :
  sends i T addr bs s → sends i T addr bs (upd_procs (imap (wake c (Some i))) s).
Proof.
  intros (p & Hp & H). exists p. split; [|done]. cbn. rewrite list_lookup_imap, Hp. cbn.
  unfold wake. by rewrite decide_False by (by intros [? _]).
Qed.

Lemma sends_equiv i T addr bs s s' : s' ≡ s → sends i T addr bs s → sends i T addr bs s'.
Proof.
  intros H. unfold sends. rewrite (ks_proc_proper _ _ H).
  by rewrite (fr_mem _ _ (proj1 (frame_equiv _ _ H))).
Qed.

Lemma wp_copyin_byte i T addr bs j b p s Q :
  sends i T addr bs s → ks_proc s !! i = Some p → bs !! j = Some b →
  0 ≤ addr → addr + Z.of_nat (length bs) ≤ 2 ^ 64 → Q (0, [b]) s →
  wp (onk (copyin (p_pagetable p) (u64 (addr + Z.of_nat j)) 1)) s Q.
Proof.
  intros (p' & Hp' & _ & Hr & Hram & Hu) Hp Hj H0 Hmax HQ. simplify_eq.
  pose proof (lookup_lt_Some _ _ _ Hj). unfold onk. rewrite wp_zoom.
  assert (u64 (addr + Z.of_nat j) = addr + Z.of_nat j) as -> by zlia.
  apply (wp_copyin _ _ _ _ T); [done| |lia|].
  - intros a Ha. apply Hram. lia.
  - change (Z.to_nat 1) with 1%nat. rewrite (uread_lookup _ _ _ _ _ j b Hu Hj).
    by replace (s <| ks_k := ks_k s |>) with s by (by destruct s).
Qed.

(** The [n] bytes at [addr] of process [i], translated by the table in [m0],
    are where [copyout] may store. *)
Definition receives (i : nat) (T : tbl) (m0 : gmap Z Z) (addr : Z) (n : nat) (s : KS) : Prop :=
  ∃ p, ks_proc s !! i = Some p ∧ pt_rep m0 (p_pagetable p) T ∧ same_tbl T m0 (k_mem (ks_k s)) ∧
    ∀ va, addr ≤ va < addr + Z.of_nat n → uaddr m0 T va ≠ 0 → target_ok T (uaddr m0 T va).

Lemma inside_mem lk i own m mem s : inside lk i own m s → inside lk i own m (with_mem mem s).
Proof. by intros []. Qed.

Lemma wp_copyout_byte i T m0 addr n j b p s Q :
  receives i T m0 addr n s → ks_proc s !! i = Some p → (j < n)%nat → 0 ≤ b < 256 →
  0 ≤ addr → addr + Z.of_nat n ≤ 2 ^ 64 →
  (uaddr m0 T (addr + Z.of_nat j) = 0 → Q (-1) s) →
  (uaddr m0 T (addr + Z.of_nat j) ≠ 0 →
   let m' := <[ubyte m0 T (addr + Z.of_nat j) := b]> (k_mem (ks_k s)) in
   receives i T m0 addr n (with_mem m' s) → Q 0 (with_mem m' s)) →
  wp (onk (copyout (p_pagetable p) (u64 (addr + Z.of_nat j)) [b])) s Q.
Proof.
  intros (p' & Hp' & Hr & Hst & Hok) Hp Hj Hb H0 Hmax HQ1 HQ2. simplify_eq. unfold onk. rewrite wp_zoom.
  assert (u64 (addr + Z.of_nat j) = addr + Z.of_nat j) as -> by zlia. set (va := addr + Z.of_nat j) in *.
  apply (wp_copyout_loop _ _ _ _ m0 _ T); [done|done|by constructor|lia|done| |].
  { intros a Ha. apply Hok. cbn in Ha. lia. }
  cbn [uwrite]. destruct (Z.eqb_spec (uaddr m0 T va) 0) as [E|E].
  - specialize (HQ1 E). rewrite kst_mem_id. by replace (s <| ks_k := ks_k s |>) with s by (by destruct s).
  - apply HQ2; [done|]. exists p'. split; [done|]. split; [done|]. split; [|done].
    intros c x Hc Hx. cbn. rewrite lookup_insert_ne; [by eapply Hst|]. intros <-.
    destruct (Hok va ltac:(lia) E) as [_ Hout]. eapply Hout; [|exact Hc|exact Hx].
    unfold ubyte. zlia.
Qed.

Lemma receives_equiv i T m0 addr n s s' : s' ≡ s → receives i T m0 addr n s → receives i T m0 addr n s'.
Proof.
  intros H. unfold receives. rewrite (ks_proc_proper _ _ H).
  by rewrite (fr_mem _ _ (proj1 (frame_equiv _ _ H))).
Qed.

End critsec.
