(* ===== verification/BioFacts.v ===== *)
(** * The buffer cache: specification (kernel/bio.c)

    The cache implements an abstract store of blocks ([bstore]): for each block
    its contents on disk and as the kernel sees it, how many references are
    held, and whether the running process has it locked.  The linked list and
    the recycling of buffers are invisible there.  The disk driver is known
    through the class [DiskLaws]. *)

From Stdlib Require Import ZArith Lia.
From stdpp Require Import base gmap strings numbers list.
From S2P Require Import Prelude Spinlock Mem Kstring Kalloc Vm Proc ProcFacts ProcOps Sched FsState Sleeplock FsFacts Bio.
Local Open Scope xv6_scope.

(** ** The list of buffers *)

Definition nx (bs : list buf) (i : nat) : option nat := b_next <$> bs !! i.
Definition pv (bs : list buf) (i : nat) : option nat := b_prev <$> bs !! i.

(** [x], then the nodes of [l], then [y], linked both ways. *)
Fixpoint chain (bs : list buf) (x : nat) (l : list nat) (y : nat) : Prop :=
  match l with
  | [] => nx bs x = Some y ∧ pv bs y = Some x
  | z :: l => nx bs x = Some z ∧ pv bs z = Some x ∧ chain bs z l y
  end.

Definition ring (bs : list buf) (l : list nat) : Prop := chain bs NBUF l NBUF.

Lemma chain_app bs x l1 z l2 y :
  chain bs x (l1 ++ z :: l2) y ↔ chain bs x l1 z ∧ chain bs z l2 y.
Proof. revert x. induction l1 as [|w l1 IH]; intros x; cbn; [tauto|]. rewrite IH. tauto. Qed.

Lemma chain_frame bs bs' x l y :
  (∀ i, i ∈ x :: l → nx bs' i = nx bs i) → (∀ i, i ∈ l ++ [y] → pv bs' i = pv bs i) →
  chain bs x l y → chain bs' x l y.
Proof.
  revert x. induction l as [|z l IH]; intros x Hn Hp; cbn.
  - intros [H1 H2]. rewrite Hn, Hp by (by left). done.
  - intros (H1 & H2 & H3). rewrite Hn, Hp by (by left). split; [done|]. split; [done|].
    apply IH; [| |done].
    + intros i Hi. apply Hn. by right.
    + intros i Hi. apply Hp. by right.
Qed.

(** The end of a chain is moved from [y] to [n]. *)
Lemma chain_retarget bs bs' x l y n :
  NoDup (x :: l) → (∀ i, i ∈ x :: l → Some i ≠ last (x :: l) → nx bs' i = nx bs i) →
  (∀ i, i ∈ l → pv bs' i = pv bs i) →
  (∀ p, last (x :: l) = Some p → nx bs' p = Some n ∧ pv bs' n = Some p) →
  chain bs x l y → chain bs' x l n.
Proof.
  revert x. induction l as [|z l IH]; intros x Hnd Hn Hp Hlast; cbn [chain].
  - intros _. by apply Hlast.
  - intros (H1 & H2 & H3). apply NoDup_cons in Hnd as [Hx Hnd]. split.
    { rewrite Hn; [done|by left|]. change (last (x :: z :: l)) with (last (z :: l)). intros Heq.
      apply Hx. apply last_Some_elem_of. done. }
    split; [rewrite Hp; [done|by left]|]. apply IH; [done| | |done|done].
    + intros i Hi Hl. apply Hn; [by right|done].
    + intros i Hi. apply Hp. by right.
Qed.

Definition set_next (i n : nat) : list buf → list buf := alter (fun x => x <| b_next := n |>) i.
Definition set_prev (i n : nat) : list buf → list buf := alter (fun x => x <| b_prev := n |>) i.

Lemma nx_set_next i n bs j : is_Some (bs !! i) →
  nx (set_next i n bs) j = if decide (i = j) then Some n else nx bs j.
Proof.
  intros [x Hx]. unfold nx, set_next. case_decide as H; [subst|by rewrite list_lookup_alter_ne].
  by rewrite list_lookup_alter_eq, Hx.
Qed.

Lemma nx_set_prev i n bs j : nx (set_prev i n bs) j = nx bs j.
Proof.
  unfold nx, set_prev. destruct (decide (i = j)) as [->|]; [|by rewrite list_lookup_alter_ne].
  rewrite list_lookup_alter_eq. by destruct (bs !! j).
Qed.

Lemma pv_set_prev i n bs j : is_Some (bs !! i) →
  pv (set_prev i n bs) j = if decide (i = j) then Some n else pv bs j.
Proof.
  intros [x Hx]. unfold pv, set_prev. case_decide as H; [subst|by rewrite list_lookup_alter_ne].
  by rewrite list_lookup_alter_eq, Hx.
Qed.

Lemma pv_set_next i n bs j : pv (set_next i n bs) j = pv bs j.
Proof.
  unfold pv, set_next. destruct (decide (i = j)) as [->|]; [|by rewrite list_lookup_alter_ne].
  rewrite list_lookup_alter_eq. by destruct (bs !! j).
Qed.

Lemma nx_is_Some bs i n : nx bs i = Some n → is_Some (bs !! i).
Proof. unfold nx. by destruct (bs !! i). Qed.

Lemma set_next_is_Some i n bs j : is_Some (set_next i n bs !! j) ↔ is_Some (bs !! j).
Proof. unfold set_next. by rewrite !lookup_lt_is_Some, length_alter. Qed.

Lemma set_prev_is_Some i n bs j : is_Some (set_prev i n bs !! j) ↔ is_Some (bs !! j).
Proof. unfold set_prev. by rewrite !lookup_lt_is_Some, length_alter. Qed.

Lemma chain_last bs x l y : chain bs x l y → pv bs y = last (x :: l).
Proof.
  revert x. induction l as [|z l IH]; intros x; cbn [chain]; [by intros [_ ->]|].
  intros (_ & _ & H). rewrite last_cons_cons. by apply IH.
Qed.

Lemma chain_head bs x l y : chain bs x l y → nx bs x = head (l ++ [y]).
Proof. destruct l; cbn; naive_solver. Qed.

Lemma chain_nodes bs x l y i : chain bs x l y → i ∈ x :: l → is_Some (bs !! i).
Proof.
  revert x. induction l as [|z l IH]; intros x; cbn [chain].
  - intros [H _] ->%list_elem_of_singleton. by eapply nx_is_Some.
  - intros (H & _ & Hc) [->|Hi]%elem_of_cons; [by eapply nx_is_Some|by eapply IH].
Qed.

(** Taking [b] out. *)
Lemma ring_unlink bs l1 b l2 :
  NoDup (NBUF :: l1 ++ b :: l2) → ring bs (l1 ++ b :: l2) →
  ∃ p n, pv bs b = Some p ∧ nx bs b = Some n ∧ p ≠ b ∧ n ≠ b ∧ is_Some (bs !! p) ∧ is_Some (bs !! n) ∧
    ring (set_next p n (set_prev n p bs)) (l1 ++ l2).
Proof.
  intros Hnd Hr. assert (is_Some (bs !! NBUF)) as HH by (eapply chain_nodes; [exact Hr|by left]).
  apply chain_app in Hr as [H1 H2].
  pose proof (chain_last _ _ _ _ H1) as Hp. pose proof (chain_head _ _ _ _ H2) as Hn.
  destruct (last (NBUF :: l1)) as [p|] eqn:Hlast; [|by apply last_None in Hlast].
  destruct (head (l2 ++ [NBUF])) as [n|] eqn:Hhead; [|by destruct l2].
  exists p, n. split; [done|]. split; [done|].
  assert (p ∈ NBUF :: l1) as Hpin by (by apply last_Some_elem_of).
  assert (n ∈ l2 ++ [NBUF]) as Hnin by (destruct l2; cbn in *; injection Hhead as <-; by left).
  rewrite app_comm_cons in Hnd. apply NoDup_app in Hnd as (Hnd1 & Hd & Hnd2). apply NoDup_cons in Hnd2 as [Hb Hnd2].
  assert (∀ i, i ∈ NBUF :: l1 → i ≠ b ∧ i ∉ l2) as Hsep.
  { intros i Hi. pose proof (Hd i Hi) as Hx. rewrite elem_of_cons in Hx. tauto. }
  assert (n ≠ b) as Hnb.
  { apply elem_of_app in Hnin as [Hi|Hi%list_elem_of_singleton]; [by intros ->|].
    subst. by apply (Hsep NBUF); left. }
  assert (is_Some (bs !! p)) as HSp by (eapply chain_nodes; [exact H1|done]).
  assert (is_Some (bs !! n)) as HSn.
  { apply elem_of_app in Hnin as [Hi|Hi%list_elem_of_singleton]; [|by subst].
    eapply chain_nodes; [exact H2|by right]. }
  split; [by apply (Hsep p)|]. split; [done|]. split; [done|]. split; [done|]. set (bs' := set_next p n _).
  assert (∀ i, nx bs' i = if decide (p = i) then Some n else nx bs i) as Hnx.
  { intros i. unfold bs'. rewrite nx_set_next by (by apply set_prev_is_Some). by rewrite nx_set_prev. }
  assert (∀ i, pv bs' i = if decide (n = i) then Some p else pv bs i) as Hpv.
  { intros i. unfold bs'. rewrite pv_set_next. by rewrite pv_set_prev. }
  assert (chain bs' NBUF l1 n) as Hc1.
  { eapply chain_retarget; [done| | | |exact H1].
    - intros i Hi Hne. rewrite Hnx, decide_False; [done|]. intros ->. by apply Hne.
    - intros i Hi. rewrite Hpv, decide_False; [done|]. intros ->.
      apply elem_of_app in Hnin as [Hi2|Hi2%list_elem_of_singleton].
      + by apply (Hsep i); [right|].
      + subst. by apply NoDup_cons in Hnd1 as [? _].
    - intros q [= <-]%(eq_trans (eq_sym Hlast)). rewrite Hnx, Hpv, !decide_True; done. }
  unfold ring. destruct l2 as [|z l2]; cbn in Hhead; injection Hhead as <-; [by rewrite app_nil_r|].
  rewrite chain_app. split; [done|]. destruct H2 as (_ & _ & H2). apply NoDup_cons in Hnd2 as [Hz Hnd2].
  eapply chain_frame; [| |exact H2].
  - intros i Hi. rewrite Hnx, decide_False; [done|]. intros ->. by apply (Hsep i).
  - intros i Hi. rewrite Hpv, decide_False; [done|]. intros ->.
    apply elem_of_app in Hi as [Hi|Hi%list_elem_of_singleton]; [done|]. subst.
    apply (Hsep NBUF); by left.
Qed.

(** Putting [b] in front. *)
Lemma ring_push bs l b n :
  b ∉ NBUF :: l → NoDup (NBUF :: l) → is_Some (bs !! b) → ring bs l → nx bs NBUF = Some n →
  is_Some (bs !! n) ∧ n ≠ b ∧
  ring (set_next NBUF b (set_prev n b (set_prev b NBUF (set_next b n bs)))) (b :: l).
Proof.
  intros Hb Hnd HSb Hr Hn. assert (is_Some (bs !! NBUF)) as HH by (by eapply nx_is_Some).
  pose proof (chain_head _ _ _ _ Hr) as Hhead. rewrite Hn in Hhead.
  assert (n ∈ NBUF :: l) as Hnin by (destruct l; cbn in Hhead; injection Hhead as ->; set_solver).
  assert (is_Some (bs !! n)) as HSn by (eapply chain_nodes; [exact Hr|done]).
  assert (n ≠ b) as Hne by (by intros ->). split; [done|]. split; [done|]. set (bs' := set_next NBUF b _).
  assert (b ≠ NBUF) as HbN by set_solver.
  assert (∀ i, nx bs' i = if decide (NBUF = i) then Some b else if decide (b = i) then Some n else nx bs i) as Hnx.
  { intros i. unfold bs'. rewrite nx_set_next; [|by rewrite !set_prev_is_Some, set_next_is_Some].
    rewrite !nx_set_prev, nx_set_next; done. }
  assert (∀ i, pv bs' i = if decide (n = i) then Some b else if decide (b = i) then Some NBUF else pv bs i) as Hpv.
  { intros i. unfold bs'. rewrite pv_set_next, pv_set_prev; [|by rewrite set_prev_is_Some, set_next_is_Some].
    rewrite pv_set_prev; [|by rewrite set_next_is_Some]. by rewrite pv_set_next. }
  unfold ring. cbn [chain]. rewrite Hnx, Hpv, decide_True by done.
  rewrite (decide_False (P := n = b)), decide_True by done. split; [done|]. split; [done|].
  apply NoDup_cons in Hnd as [HN Hnd].
  destruct l as [|z l]; cbn [chain app head] in *; injection Hhead as ->.
  - rewrite Hnx, Hpv, decide_False, !decide_True by done. done.
  - destruct Hr as (_ & _ & Hr). apply NoDup_cons in Hnd as [Hz Hnd].
    rewrite Hnx, Hpv, decide_False, !decide_True by done. split; [done|]. split; [done|].
    eapply chain_frame; [| |exact Hr].
    + intros i Hi. rewrite Hnx, !decide_False; [done| |]; intros <-; [by apply Hb; right|done].
    + intros i Hi. apply elem_of_app in Hi. rewrite list_elem_of_singleton in Hi.
      rewrite Hpv, !decide_False; [done| |]; intros <-; destruct Hi as [Hi|Hi].
      * apply Hb. by do 2 right.
      * done.
      * done.
      * apply HN. rewrite Hi. by left.
Qed.

(** ** Searching the list *)

(** The nodes of [l], each leading to the next by [step], the last to the head. *)
Fixpoint path (step : buf → nat) (bs : list buf) (l : list nat) : Prop :=
  match l with
  | [] => True
  | b :: l => b ≠ NBUF ∧ (∃ x, bs !! b = Some x ∧ step x = hd NBUF l) ∧ path step bs l
  end.

Lemma chain_path bs x l : NBUF ∉ l → chain bs x l NBUF → path b_next bs l ∧ nx bs x = Some (hd NBUF l).
Proof.
  revert x. induction l as [|z l IH]; intros x Hl; cbn [chain path hd]; [naive_solver|].
  intros (Hn & _ & Hc). split; [|done]. apply not_elem_of_cons in Hl as [Hz Hl].
  destruct (IH z Hl Hc) as [Hp Hnz]. split; [done|]. split; [|done].
  unfold nx in Hnz. destruct (bs !! z) as [y|]; [|done]. injection Hnz as Hy. by exists y.
Qed.

Lemma chain_rpath bs l y : NBUF ∉ l → chain bs NBUF l y → path b_prev bs (reverse l) ∧ pv bs y = Some (hd NBUF (reverse l)).
Proof.
  revert y. induction l as [|z l IH] using rev_ind; intros y Hl Hc.
  { cbn in Hc. by destruct Hc. }
  apply chain_app in Hc as [Hc [_ Hy]]. rewrite reverse_snoc. cbn [path hd].
  rewrite elem_of_app, list_elem_of_singleton in Hl. destruct (IH z) as [Hp Hz]; [tauto|done|].
  split; [|done]. split; [naive_solver|]. split; [|done].
  unfold pv in Hz. destruct (bs !! z) as [x|]; [|done]. injection Hz as Hx. by exists x.
Qed.

Definition passes (test : buf → bool) (bs : list buf) (b : nat) : bool :=
  match bs !! b with Some x => test x | None => false end.

Lemma wp_bfind `{KI : KernelImage} fuel step test l (s : KS) Q :
  path step (fs_buf (ks_fs s)) l → (length l ≤ fuel)%nat →
  Q (List.find (passes test (fs_buf (ks_fs s))) l) s → wp (bfind fuel step test (hd NBUF l)) s Q.
Proof.
  revert l Q. induction fuel as [|fuel IH]; intros l Q Hp Hlen HQ; destruct l as [|b l]; cbn [length] in Hlen; try lia.
  - done.
  - done.
  - cbn [path] in Hp. destruct Hp as (Hb & (x & Hx & Hs) & Hp). cbn [bfind hd]. rewrite decide_False by done.
    wp_simpl. eapply wp_getb; [done|]. cbn [List.find] in HQ. unfold passes in HQ at 1. rewrite Hx in HQ.
    destruct (test x); wp_simpl; [done|]. rewrite Hs. apply IH; [done|lia|done].
Qed.

(** ** The disk driver's promise *)

Definition disk_put (bn : Z) (d : list Z) (fs : fsstate) : fsstate :=
  fs <| fs_disk ::= fun k => Disk (<[bn := d]> (dk_blocks k)) (dk_trace k ++ [(bn, d)]) |>.

(** A buffer handed to the driver is locked by the caller. *)
Definition owned (pid : Z) (x : buf) : Prop := sl_locked (b_lock x) = 1 ∧ sl_pid (b_lock x) = pid.

(** With no request under way ([disk_idle]) and an environment in which [n]
    more requests are served, a request returns after the transfer of exactly
    one block.  Sector numbers are 32 bits wide and a block has two sectors,
    hence the bound. *)
Class DiskLaws `{KI : KernelImage} `{DO : DiskOps} := {
  disk_idle : vdisk → Prop;
  disk_ready : nat → list (KS → KS) → Prop;
  disk_ready_S : ∀ n e, disk_ready (S n) e → disk_ready n e;
  disk_read_law : ∀ i n s e b x d,
    quiet i s → disk_idle (fs_vdisk (ks_fs s)) → disk_ready (S n) e → (b < NBUF)%nat →
    fs_buf (ks_fs s) !! b = Some x → owned (pid_of i s) x →
    dk_blocks (fs_disk (ks_fs s)) !! b_blockno x = Some d → 0 ≤ b_blockno x < 2 ^ 31 →
    wp (virtio_disk_rw b false) (World s e) (fun _ w' =>
      disk_ready n (w_env w') ∧ frame s (w_k w') ∧ ∃ v, disk_idle v ∧
      ks_fs (w_k w') = (upd_buf b (fun x => x <| b_disk := 0 |> <| b_data := d |>) (ks_fs s)) <| fs_vdisk := v |>);
  disk_write_law : ∀ i n s e b x,
    quiet i s → disk_idle (fs_vdisk (ks_fs s)) → disk_ready (S n) e → (b < NBUF)%nat →
    fs_buf (ks_fs s) !! b = Some x → owned (pid_of i s) x →
    is_Some (dk_blocks (fs_disk (ks_fs s)) !! b_blockno x) → 0 ≤ b_blockno x < 2 ^ 31 →
    wp (virtio_disk_rw b true) (World s e) (fun _ w' =>
      disk_ready n (w_env w') ∧ frame s (w_k w') ∧ ∃ v, disk_idle v ∧
      ks_fs (w_k w') = (disk_put (b_blockno x) (b_data x)
        (upd_buf b (fun x => x <| b_disk := 0 |>) (ks_fs s))) <| fs_vdisk := v |>)
}.

(** ** The abstract store *)

Record bstore := Bstore {
  bs_disk : gmap Z (list Z);
  bs_mem : gmap Z (list Z);
  bs_refs : gmap Z Z;
  bs_locked : gset Z
}.
#[global] Instance bstore_eta : Eta bstore := fun r => Bstore (bs_disk r) (bs_mem r) (bs_refs r) (bs_locked r).

Definition refs (a : bstore) (bn : Z) : Z := default 0 (bs_refs a !! bn).
Definition set_refs (bn n : Z) (a : bstore) : bstore :=
  a <| bs_refs ::= if decide (n = 0) then delete bn else <[bn := n]> |>.

Lemma refs_set bn n a bn' : refs (set_refs bn n a) bn' = if decide (bn = bn') then n else refs a bn'.
Proof.
  unfold refs, set_refs. cbn. case_decide as H1; case_decide as H2; subst;
    rewrite ?lookup_delete_eq, ?lookup_delete_ne, ?lookup_insert_eq, ?lookup_insert_ne by done; done.
Qed.

Definition block_ok (d : list Z) : Prop := length d = Z.to_nat BSIZE ∧ Forall (fun b => 0 ≤ b < 256) d.

(** A buffer of the root device. *)
Record cached (pid : Z) (a : bstore) (x : buf) : Prop := {
  ca_refs : b_refcnt x = refs a (b_blockno x);
  ca_lock : sl_locked (b_lock x) = if decide (b_blockno x ∈ bs_locked a) then 1 else 0;
  ca_pid : b_blockno x ∈ bs_locked a → sl_pid (b_lock x) = pid;
  ca_data : bs_mem a !! b_blockno x = if truthy (b_valid x) then Some (b_data x) else bs_disk a !! b_blockno x
}.

Definition buf_rep (pid : Z) (a : bstore) (x : buf) : Prop :=
  (b_dev x = ROOTDEV ∧ cached pid a x) ∨
  (b_dev x ≠ ROOTDEV ∧ b_refcnt x = 0 ∧ sl_locked (b_lock x) = 0).

(** Buffer [b] is the one for block [bn]. *)
Definition holds_block (fs : fsstate) (b : nat) (bn : Z) : Prop :=
  (b < NBUF)%nat ∧ ∃ x, fs_buf fs !! b = Some x ∧ b_dev x = ROOTDEV ∧ b_blockno x = bn.

Record cache_rep (pid : Z) (fs : fsstate) (a : bstore) : Prop := {
  cr_len : length (fs_buf fs) = S NBUF;
  cr_ring : ∃ l, l ≡ₚ seq 0 NBUF ∧ ring (fs_buf fs) l;
  cr_buf : ∀ b x, (b < NBUF)%nat → fs_buf fs !! b = Some x → buf_rep pid a x;
  cr_uniq : ∀ b b' bn, holds_block fs b bn → holds_block fs b' bn → b = b';
  cr_refs : ∀ bn n, bs_refs a !! bn = Some n → 0 < n ∧ ∃ b, holds_block fs b bn;
  cr_clean : ∀ bn, bs_refs a !! bn = None → bs_mem a !! bn = bs_disk a !! bn;
  cr_locked : ∀ bn, bn ∈ bs_locked a → is_Some (bs_refs a !! bn);
  cr_disk : dk_blocks (fs_disk fs) = bs_disk a;
  cr_dom : ∀ bn, is_Some (bs_mem a !! bn) ↔ is_Some (bs_disk a !! bn);
  cr_size : map_Forall (fun _ d => block_ok d) (bs_mem a) ∧ map_Forall (fun _ d => block_ok d) (bs_disk a);
  cr_num : ∀ bn, is_Some (bs_disk a !! bn) → 0 ≤ bn < 2 ^ 31
}.

(** ** One buffer changes *)

(** [a] and [a'] differ at most in block [bn]. *)
Definition agree_except (bn : Z) (a a' : bstore) : Prop := ∀ bn', bn' ≠ bn →
  bs_refs a' !! bn' = bs_refs a !! bn' ∧ bs_mem a' !! bn' = bs_mem a !! bn' ∧
  bs_disk a' !! bn' = bs_disk a !! bn' ∧ (bn' ∈ bs_locked a' ↔ bn' ∈ bs_locked a).

Lemma cached_agree pid a a' bn x :
  agree_except bn a a' → b_blockno x ≠ bn → cached pid a x → cached pid a' x.
Proof.
  intros Ha Hne [H1 H2 H3 H4]. destruct (Ha _ Hne) as (A1 & A2 & A3 & A4). split.
  - unfold refs. by rewrite A1.
  - rewrite H2. by apply decide_ext.
  - intros H. by apply H3, A4.
  - by rewrite A2, A3.
Qed.

(** Block [bn] alone is in a consistent state. *)
Record block_state (a : bstore) (bn : Z) : Prop := {
  bk_refs : ∀ n, bs_refs a !! bn = Some n → 0 < n;
  bk_clean : bs_refs a !! bn = None → bs_mem a !! bn = bs_disk a !! bn;
  bk_locked : bn ∈ bs_locked a → is_Some (bs_refs a !! bn);
  bk_dom : is_Some (bs_mem a !! bn) ↔ is_Some (bs_disk a !! bn);
  bk_mem : ∀ d, bs_mem a !! bn = Some d → block_ok d;
  bk_disk : ∀ d, bs_disk a !! bn = Some d → block_ok d;
  bk_num : is_Some (bs_disk a !! bn) → 0 ≤ bn < 2 ^ 31
}.

Lemma cache_rep_block pid fs a bn : cache_rep pid fs a → block_state a bn.
Proof.
  intros [_ _ _ _ H1 H2 H3 _ H4 [H5 H6] H7]. split; try done.
  - intros n Hn. by apply (H1 bn n).
  - by apply H2.
  - by apply H3.
  - intros d. apply H5.
  - intros d. apply H6.
  - apply H7.
Qed.

Lemma ring_frame bs b y x l :
  bs !! b = Some x → b_next y = b_next x → b_prev y = b_prev x → ring bs l → ring (<[b := y]> bs) l.
Proof.
  intros Hx Hn Hp. apply chain_frame; intros i _; unfold nx, pv;
    (destruct (decide (i = b)) as [->|Hne]; [|by rewrite list_lookup_insert_ne]);
    rewrite list_lookup_insert_eq, Hx by (by eapply lookup_lt_Some); cbn; congruence.
Qed.

Lemma holds_insert fs fs' b x y b' bn :
  fs_buf fs !! b = Some x → fs_buf fs' = <[b := y]> (fs_buf fs) → b' ≠ b →
  holds_block fs' b' bn ↔ holds_block fs b' bn.
Proof. intros Hx Hfs Hne. unfold holds_block. by rewrite Hfs, list_lookup_insert_ne. Qed.

Lemma holds_self fs fs' b x y bn :
  (b < NBUF)%nat → fs_buf fs !! b = Some x → fs_buf fs' = <[b := y]> (fs_buf fs) →
  holds_block fs' b bn ↔ b_dev y = ROOTDEV ∧ b_blockno y = bn.
Proof.
  intros Hb Hx Hfs. unfold holds_block. rewrite Hfs, list_lookup_insert_eq by (by eapply lookup_lt_Some).
  split; [naive_solver|]. intros [H1 H2]. split; [done|]. by exists y.
Qed.

Lemma cache_rep_upd pid fs fs' a a' b x y bn :
  cache_rep pid fs a → (b < NBUF)%nat → fs_buf fs !! b = Some x → fs_buf fs' = <[b := y]> (fs_buf fs) →
  b_next y = b_next x → b_prev y = b_prev x → b_dev y = ROOTDEV → b_blockno y = bn →
  (∀ b', holds_block fs b' bn → b' = b) →
  (b_dev x = ROOTDEV → b_blockno x ≠ bn → refs a (b_blockno x) = 0) →
  agree_except bn a a' → cached pid a' y → block_state a' bn →
  dk_blocks (fs_disk fs') = bs_disk a' → cache_rep pid fs' a'.
Proof.
  intros Hr Hb Hx Hfs Hn Hp Hdev Hbn Hu Hev Ha Hy Hbk Hdk.
  pose proof Hr as [R1 R2 R3 R4 R5 R6 R7 R8 R9 [R10 R11] R12].
  assert (∀ b' bn', holds_block fs' b' bn' → (b' = b ∧ bn' = bn) ∨ (b' ≠ b ∧ holds_block fs b' bn' ∧ bn' ≠ bn)) as Hh.
  { intros b' bn' Hh. destruct (decide (b' = b)) as [->|Hne].
    - left. split; [done|]. apply (holds_self fs fs' b x y) in Hh; [|done..]. by destruct Hh; congruence.
    - right. apply (holds_insert fs fs' b x y) in Hh; [|done..]. split; [done|]. split; [done|].
      intros ->. by apply Hne, Hu. }
  split.
  - by rewrite Hfs, length_insert.
  - destruct R2 as (l & Hl & Hring). exists l. split; [done|]. rewrite Hfs. by eapply ring_frame.
  - intros b' x' Hb' Hx'. rewrite Hfs in Hx'. apply lookup_insert_cases in Hx' as [[<- ->]|[Hne Hx']]; [by left|].
    destruct (R3 b' x' Hb' Hx') as [[Hd Hc]|?]; [|by right]. left. split; [done|].
    eapply cached_agree; [done| |done]. intros He. apply Hne. symmetry. apply Hu. split; [done|]. by exists x'.
  - intros b1 b2 bn' H1%Hh H2%Hh. destruct H1 as [[E1 F1]|(N1 & H1 & F1)], H2 as [[E2 F2]|(N2 & H2 & F2)];
      [congruence|congruence|congruence|by eapply R4].
  - intros bn' n Hrf. destruct (decide (bn' = bn)) as [->|Hne].
    + split; [by eapply bk_refs|]. exists b. by apply (holds_self fs fs' b x y).
    + destruct (Ha _ Hne) as (A1 & _). rewrite A1 in Hrf. destruct (R5 _ _ Hrf) as (Hpos & b' & Hhb).
      split; [done|]. exists b'. apply (holds_insert fs fs' b x y); [done|done| |done]. intros ->.
      destruct Hhb as (_ & x' & Hx' & Hd & Hbn'). rewrite Hx in Hx'. injection Hx' as <-.
      specialize (Hev Hd). unfold refs in Hev. rewrite Hbn', Hrf in Hev. cbn in Hev. specialize (Hev Hne). lia.
  - intros bn' Hrf. destruct (decide (bn' = bn)) as [->|Hne]; [by eapply bk_clean|].
    destruct (Ha _ Hne) as (A1 & A2 & A3 & _). rewrite A2, A3. apply R6. by rewrite <- A1.
  - intros bn' Hl. destruct (decide (bn' = bn)) as [->|Hne]; [by eapply bk_locked|].
    destruct (Ha _ Hne) as (A1 & _ & _ & A4). rewrite A1. by apply R7, A4.
  - done.
  - intros bn'. destruct (decide (bn' = bn)) as [->|Hne]; [by eapply bk_dom|].
    destruct (Ha _ Hne) as (_ & A2 & A3 & _). rewrite A2, A3. apply R9.
  - split; intros bn' d Hd; destruct (decide (bn' = bn)) as [->|Hne].
    + exact (bk_mem _ _ Hbk d Hd).
    + destruct (Ha _ Hne) as (_ & A2 & _). rewrite A2 in Hd. by eapply R10.
    + exact (bk_disk _ _ Hbk d Hd).
    + destruct (Ha _ Hne) as (_ & _ & A3 & _). rewrite A3 in Hd. by eapply R11.
  - intros bn'. destruct (decide (bn' = bn)) as [->|Hne]; [apply (bk_num _ _ Hbk)|].
    destruct (Ha _ Hne) as (_ & _ & -> & _). apply R12.
Qed.
