(* ===== verification/BioOps.v ===== *)
(** * The buffer cache refines the block store (kernel/bio.c)

    One rule per operation, in terms of the abstract store of BioFacts.v. *)

From Stdlib Require Import ZArith Lia.
From stdpp Require Import base gmap strings numbers list.
From S2P Require Import Prelude Spinlock Mem Kstring Kalloc Vm Proc ProcFacts ProcOps Sched FsState Sleeplock FsFacts Bio BioFacts.
Local Open Scope xv6_scope.

Section bio.
Context `{KI : KernelImage} `{DO : DiskOps} `{DL : !DiskLaws}.
Implicit Types (w : W) (a : bstore).

(** Process [i] works on the file system; [n] more disk transfers are served. *)
Record at_fs (i n : nat) (w : W) (a : bstore) : Prop := {
  af_quiet : quiet i (w_k w);
  af_rep : cache_rep (pid_of i (w_k w)) (ks_fs (w_k w)) a;
  af_idle : disk_idle (fs_vdisk (ks_fs (w_k w)));
  af_ready : disk_ready n (w_env w)
}.

(** What the cache leaves alone. *)
Record kept (fs fs' : fsstate) : Prop := {
  kp_log : fs_log fs' = fs_log fs;
  kp_sb : fs_sb fs' = fs_sb fs;
  kp_inode : fs_inode fs' = fs_inode fs;
  kp_file : fs_file fs' = fs_file fs;
  kp_pipe : fs_pipe fs' = fs_pipe fs
}.

(** A stretch of execution that writes [tr] to the disk. *)
Record fstep (tr : list (Z * list Z)) (w w' : W) : Prop := {
  ft_frame : frame (w_k w) (w_k w');
  ft_kept : kept (ks_fs (w_k w)) (ks_fs (w_k w'));
  ft_trace : dk_trace (fs_disk (ks_fs (w_k w'))) = dk_trace (fs_disk (ks_fs (w_k w))) ++ tr
}.

Lemma fstep_refl w : fstep [] w w.
Proof. split; [done|by split|by rewrite app_nil_r]. Qed.

Lemma fstep_trans tr tr' w1 w2 w3 : fstep tr w1 w2 → fstep tr' w2 w3 → fstep (tr ++ tr') w1 w3.
Proof.
  intros [A1 [K1 K2 K3 K4 K5] A3] [B1 [L1 L2 L3 L4 L5] B3].
  split; [by etrans|split; congruence|]. by rewrite B3, A3, app_assoc.
Qed.

(** Buffer [b] has the contents of block [bn]. *)
Definition loaded (fs : fsstate) (b : nat) (bn : Z) : Prop :=
  (b < NBUF)%nat ∧ ∃ x, fs_buf fs !! b = Some x ∧ b_dev x = ROOTDEV ∧ b_blockno x = bn ∧ truthy (b_valid x).

Lemma loaded_holds fs b bn : loaded fs b bn → holds_block fs b bn.
Proof. intros (Hb & x & Hx & H1 & H2 & _). split; [done|]. by exists x. Qed.

(** Buffers of referenced blocks stay. *)
Definition stable_fs (a : bstore) (fs fs' : fsstate) : Prop := ∀ b bn,
  is_Some (bs_refs a !! bn) → loaded fs b bn → loaded fs' b bn.
Definition stable (a : bstore) (w w' : W) : Prop := stable_fs a (ks_fs (w_k w)) (ks_fs (w_k w')).

Definition lock_block (bn : Z) (a : bstore) : bstore := a <| bs_locked ::= fun l => {[bn]} ∪ l |>.
Definition unlock_block (bn : Z) (a : bstore) : bstore := a <| bs_locked ::= fun l => l ∖ {[bn]} |>.

(** ** Updates of one buffer *)

Lemma upd_buf_buf b f fs x : fs_buf fs !! b = Some x → fs_buf (upd_buf b f fs) = <[b := f x]> (fs_buf fs).
Proof. intros Hx. unfold upd_buf. cbn. by apply alter_as_insert. Qed.

Lemma upd_buf_lookup b f fs x : fs_buf fs !! b = Some x → fs_buf (upd_buf b f fs) !! b = Some (f x).
Proof. intros Hx. unfold upd_buf. cbn. by rewrite list_lookup_alter_eq, Hx. Qed.

Lemma upd_buf_comp b f g fs : upd_buf b f (upd_buf b g fs) = upd_buf b (f ∘ g) fs.
Proof. unfold upd_buf, setf. cbn. by rewrite list_alter_alter_eq. Qed.

Lemma stable_upd a b y fs fs' x :
  fs_buf fs !! b = Some x → fs_buf fs' = <[b := y]> (fs_buf fs) →
  (∀ bn, is_Some (bs_refs a !! bn) → b_dev x = ROOTDEV → b_blockno x = bn →
     b_dev y = ROOTDEV ∧ b_blockno y = bn ∧ (truthy (b_valid x) → truthy (b_valid y))) →
  stable_fs a fs fs'.
Proof.
  intros Hx Hfs Hy b' bn Hr (Hb' & x' & Hx' & H1 & H2 & H3). split; [done|]. rewrite Hfs.
  destruct (decide (b' = b)) as [->|Hne].
  - rewrite Hx in Hx'. injection Hx' as <-. rewrite list_lookup_insert_eq by (by eapply lookup_lt_Some).
    destruct (Hy bn Hr H1 H2) as (Y1 & Y2 & Y3). exists y. auto.
  - rewrite list_lookup_insert_ne by done. by exists x'.
Qed.

(** ** [bget] *)

Lemma refs_pos pid fs a bn : cache_rep pid fs a → 0 ≤ refs a bn ∧ (refs a bn = 0 → bs_refs a !! bn = None).
Proof.
  intros Hr. unfold refs. destruct (bs_refs a !! bn) as [n|] eqn:E; cbn; [|done].
  destruct (cr_refs _ _ _ Hr bn n E) as [? _]. lia.
Qed.

Lemma rep_dev pid fs a b x : cache_rep pid fs a → (b < NBUF)%nat → fs_buf fs !! b = Some x →
  b_refcnt x ≠ 0 → b_dev x = ROOTDEV.
Proof. intros Hr Hb Hx Hne. destruct (cr_buf _ _ _ Hr b x Hb Hx) as [[? _]|(_ & ? & _)]; done. Qed.

(** If every buffer is in use, so are [NBUF] blocks. *)
Lemma free_buffer pid fs a l :
  cache_rep pid fs a → l ≡ₚ seq 0 NBUF → (size (bs_refs a) < NBUF)%nat →
  ∃ b, b ∈ l ∧ passes (fun x => b_refcnt x =? 0) (fs_buf fs) b = true.
Proof.
  intros Hr Hl Hsz. destruct (decide (Exists (fun b => passes (fun x => b_refcnt x =? 0) (fs_buf fs) b = true) l)) as [He|He].
  { apply Exists_exists in He. naive_solver. }
  exfalso. assert (∀ b, (b < NBUF)%nat → ∃ x, fs_buf fs !! b = Some x ∧ b_refcnt x ≠ 0) as Hall.
  { intros b Hb. destruct (lookup_lt_is_Some_2 (fs_buf fs) b) as [x Hx]; [rewrite (cr_len _ _ _ Hr); lia|].
    exists x. split; [done|]. intros H0. apply He. apply Exists_exists. exists b.
    split; [rewrite Hl; apply elem_of_seq; lia|]. unfold passes. rewrite Hx. by apply Z.eqb_eq. }
  set (bnos := (fun b => match fs_buf fs !! b with Some x => b_blockno x | None => 0 end) <$> seq 0 NBUF).
  assert (NoDup bnos) as Hnd.
  { apply NoDup_fmap_2_strong; [|apply NoDup_seq]. intros b1 b2 H1%elem_of_seq H2%elem_of_seq Heq.
    destruct (Hall b1) as (x1 & Hx1 & N1); [lia|]. destruct (Hall b2) as (x2 & Hx2 & N2); [lia|].
    rewrite Hx1, Hx2 in Heq. eapply (cr_uniq _ _ _ Hr _ _ (b_blockno x1)).
    - split; [lia|]. exists x1. split; [done|]. split; [|done]. eapply rep_dev; [done| |done|done]. lia.
    - split; [lia|]. exists x2. split; [done|]. split; [|done]. eapply rep_dev; [done| |done|done]. lia. }
  assert ((list_to_set bnos : gset Z) ⊆ dom (bs_refs a)) as Hsub.
  { intros bn Hbn. apply elem_of_list_to_set, list_elem_of_fmap in Hbn as (b & -> & Hb%elem_of_seq).
    destruct (Hall b) as (x & Hx & N); [lia|]. rewrite Hx.
    destruct (cr_buf _ _ _ Hr b x ltac:(lia) Hx) as [[_ Hc]|(_ & ? & _)]; [|done].
    rewrite (ca_refs _ _ _ Hc) in N. apply elem_of_dom. unfold refs in N.
    destruct (bs_refs a !! b_blockno x); [by eexists|done]. }
  apply subseteq_size in Hsub. rewrite size_list_to_set, size_dom in Hsub by done.
  unfold bnos in Hsub. rewrite length_fmap, length_seq in Hsub. lia.
Qed.

(** The two ways [bget] ends: the buffer is claimed under [bcache.lock], then
    locked. *)
Lemma wp_take i s e b f x (Q : nat → W → Prop) :
  quiet i s → (b < NBUF)%nat → fs_buf (ks_fs s) !! b = Some x → b_lock (f x) = b_lock x →
  sl_locked (b_lock x) = 0 →
  (∀ s', frame s s' →
     ks_fs s' = upd_buf b (fun y => (f y) <| b_lock := Sleeplock 1 (sl_name (b_lock x)) (pid_of i s) |>) (ks_fs s) →
     Q b (World s' e)) →
  wp (onw (updb b f);; onw (lkm (release L_bcache));; acquiresleep (L_buf b);; ret b)
    (World (set_kmach (acq L_bcache (ks_mach s)) s) e) Q.
Proof.
  intros Hq Hb Hx Hlk Hfree HQ. wp_simpl. eapply wp_updb; [exact Hx|]. wp_simpl.
  apply (wp_rel_frame i L_bcache s); [done|done|done|by split|]. intros s1 Hf1 Hfs1. cbn in Hfs1. wp_simpl.
  assert (sleeplock_of (L_buf b) (ks_fs s1) = Some (b_lock x)) as Hsl.
  { rewrite Hfs1. cbn. rewrite list_lookup_alter_eq, Hx. cbn. by rewrite Hlk. }
  apply (wp_acquiresleep i (L_buf b) (b_lock x)); [by eapply quiet_frame|by apply bool_decide_spec|done|done|].
  intros s2 Hf2 Hfs2. wp_simpl. apply HQ; [by etrans|]. rewrite Hfs2, Hfs1, (pid_of_frame _ _ _ Hf1).
  exact (upd_buf_comp b _ f (ks_fs s)).
Qed.

Lemma kept_upd_buf b f fs : kept fs (upd_buf b f fs).
Proof. by split. Qed.

(** The world after one buffer changed. *)
Lemma at_fs_upd i n s e s' a a' b f x :
  at_fs i n (World s e) a → (b < NBUF)%nat → fs_buf (ks_fs s) !! b = Some x → frame s s' →
  ks_fs s' = upd_buf b f (ks_fs s) →
  (∀ fs', fs_buf fs' = <[b := f x]> (fs_buf (ks_fs s)) → fs_disk fs' = fs_disk (ks_fs s) →
     cache_rep (pid_of i s) fs' a') →
  at_fs i n (World s' e) a' ∧ fstep [] (World s e) (World s' e).
Proof.
  intros [A1 A2 A3 A4] Hb Hx Hf Hfs Hrep. cbn [w_k w_env] in *. split.
  - split; cbn [w_k w_env]; [by eapply quiet_frame| |by rewrite Hfs|done]. rewrite (pid_of_frame _ _ _ Hf).
    apply Hrep; rewrite Hfs; [by apply upd_buf_buf|done].
  - split; cbn [w_k]; [done|rewrite Hfs; apply kept_upd_buf|]. rewrite Hfs. by rewrite app_nil_r.
Qed.

(** The store in which [bn] has one more reference and is locked. *)
Definition got (bn : Z) (a : bstore) : bstore := lock_block bn (set_refs bn (refs a bn + 1) a).

Lemma got_agree bn a : agree_except bn a (got bn a).
Proof.
  intros bn' Hne. unfold got, lock_block, set_refs. cbn.
  split; [case_decide; [by rewrite lookup_delete_ne|by rewrite lookup_insert_ne]|].
  split; [done|]. split; [done|]. rewrite elem_of_union, elem_of_singleton. tauto.
Qed.

Lemma got_refs pid fs a bn : cache_rep pid fs a → bs_refs (got bn a) !! bn = Some (refs a bn + 1).
Proof.
  intros Hr. destruct (refs_pos _ _ _ bn Hr) as [? _]. unfold got, lock_block, set_refs. cbn.
  rewrite decide_False by lia. apply lookup_insert_eq.
Qed.

Lemma got_block pid fs a bn : cache_rep pid fs a → block_state (got bn a) bn.
Proof.
  intros Hr. destruct (cache_rep_block _ _ _ bn Hr) as [B1 B2 B3 B4 B5 B6].
  pose proof (got_refs _ _ _ bn Hr) as Hg. destruct (refs_pos _ _ _ bn Hr) as [? _].
  split; try done.
  - intros n Hn. rewrite Hg in Hn. injection Hn as <-. lia.
  - by rewrite Hg.
Qed.

Lemma got_locked bn a : bn ∈ bs_locked (got bn a).
Proof. unfold got, lock_block. cbn. set_solver. Qed.

Lemma ring_bound (l : list nat) : l ≡ₚ seq 0 NBUF → NoDup l ∧ (NBUF ∉ l) ∧ length l = NBUF ∧ ∀ b, b ∈ l ↔ (b < NBUF)%nat.
Proof.
  intros Hl. assert (∀ b, b ∈ l ↔ (b < NBUF)%nat) as Hm.
  { intros b. rewrite Hl, elem_of_seq. lia. }
  split; [rewrite Hl; apply NoDup_seq|]. split; [rewrite Hm; lia|]. split; [|done].
  rewrite Hl. apply length_seq.
Qed.

(** The rest of [bget] once the block is found in buffer [b] ... *)
Lemma wp_bget_hit i n s e a bn b x (Q : nat → W → Prop) :
  at_fs i n (World s e) a → (b < NBUF)%nat → fs_buf (ks_fs s) !! b = Some x → b_dev x = ROOTDEV → b_blockno x = bn →
  bn ∉ bs_locked a → refs a bn + 1 < 2 ^ 32 →
  (∀ b s', at_fs i n (World s' e) (got bn a) → fstep [] (World s e) (World s' e) →
     stable a (World s e) (World s' e) → holds_block (ks_fs s') b bn → Q b (World s' e)) →
  wp (onw (updb b (fun x => x <| b_refcnt ::= fun n => u32 (n + 1) |>));;
      onw (lkm (release L_bcache));; acquiresleep (L_buf b);; ret b)
    (World (set_kmach (acq L_bcache (ks_mach s)) s) e) Q.
Proof.
  intros Hat Hb Hx Hd Hbn Hnl Hbound HQ. pose proof Hat as [Hq Hr _ _]. cbn [w_k] in Hq, Hr.
  destruct (cr_buf _ _ _ Hr b x Hb Hx) as [[_ [C1 C2 C3 C4]]|(? & _)]; [|done]. rewrite Hbn in *.
  rewrite decide_False in C2 by done. eapply (wp_take i s e b _ x); [done|done|done|done|done|]. intros s' Hf Hfs.
  edestruct (at_fs_upd i n s e s' a (got bn a) b _ x Hat Hb Hx Hf Hfs) as [Hat' Hst]; [|].
  2:{ apply (HQ b s'); [done|done| |].
      - eapply stable_upd; [exact Hx|cbn [w_k]; rewrite Hfs; by apply upd_buf_buf|]. done.
      - split; [done|]. eexists. rewrite Hfs. split; [by apply upd_buf_lookup|]. done. }
  intros fs' Hb' Hdk. eapply (cache_rep_upd _ (ks_fs s) fs' a _ b x _ bn); try done.
  - intros b' Hh'. eapply (cr_uniq _ _ _ Hr); [done|]. split; [done|]. by exists x.
  - apply got_agree.
  - split; cbn.
    + rewrite Hbn, C1. unfold refs at 2. rewrite (got_refs _ _ _ bn Hr). cbn. apply Z.mod_small.
      destruct (refs_pos _ _ _ bn Hr). lia.
    + rewrite Hbn. rewrite decide_True; [done|apply got_locked].
    + done.
    + by rewrite Hbn.
  - by eapply got_block.
  - rewrite Hdk. apply Hr.
Qed.

Lemma unused_unlocked pid fs a b x : cache_rep pid fs a → (b < NBUF)%nat → fs_buf fs !! b = Some x →
  b_refcnt x = 0 → sl_locked (b_lock x) = 0 ∧ (b_dev x = ROOTDEV → bs_refs a !! b_blockno x = None).
Proof.
  intros Hr Hb Hx H0. destruct (cr_buf _ _ _ Hr b x Hb Hx) as [[_ [C1 C2 _ _]]|(? & _ & ?)]; [|done].
  destruct (refs_pos _ _ _ (b_blockno x) Hr) as [_ Hrp].
  assert (bs_refs a !! b_blockno x = None) as Hn by (apply Hrp; congruence). split; [|done].
  rewrite C2. apply decide_False. intros [k Hk]%(cr_locked _ _ _ Hr). congruence.
Qed.

(** ... and once the unused buffer [b] is chosen for it. *)
Lemma wp_bget_miss i n s e a bn b x (Q : nat → W → Prop) :
  at_fs i n (World s e) a → (b < NBUF)%nat → fs_buf (ks_fs s) !! b = Some x → b_refcnt x = 0 →
  (∀ b', ¬ holds_block (ks_fs s) b' bn) → bs_refs a !! bn = None →
  (∀ b s', at_fs i n (World s' e) (got bn a) → fstep [] (World s e) (World s' e) →
     stable a (World s e) (World s' e) → holds_block (ks_fs s') b bn → Q b (World s' e)) →
  wp (onw (updb b (fun x => x <| b_dev := ROOTDEV |> <| b_blockno := bn |> <| b_valid := 0 |> <| b_refcnt := 1 |>));;
      onw (lkm (release L_bcache));; acquiresleep (L_buf b);; ret b)
    (World (set_kmach (acq L_bcache (ks_mach s)) s) e) Q.
Proof.
  intros Hat Hb Hx H0 Hno Hrf HQ. pose proof Hat as [Hq Hr _ _]. cbn [w_k] in Hq, Hr.
  destruct (unused_unlocked _ _ _ _ _ Hr Hb Hx H0) as [Hfree Hunref].
  eapply (wp_take i s e b _ x); [done|done|done|done|done|]. intros s' Hf Hfs.
  edestruct (at_fs_upd i n s e s' a (got bn a) b _ x Hat Hb Hx Hf Hfs) as [Hat' Hst]; [|].
  2:{ apply (HQ b s'); [done|done| |].
      - eapply stable_upd; [exact Hx|cbn [w_k]; rewrite Hfs; by apply upd_buf_buf|].
        intros bn' [k Hk] Hd Hbn'. specialize (Hunref Hd). congruence.
      - split; [done|]. eexists. rewrite Hfs. split; [by apply upd_buf_lookup|]. done. }
  intros fs' Hb' Hdk. eapply (cache_rep_upd _ (ks_fs s) fs' a _ b x _ bn); try done.
  - intros b' Hh'. by destruct (Hno b').
  - intros Hd _. unfold refs. by rewrite (Hunref Hd).
  - apply got_agree.
  - split; cbn.
    + unfold refs at 1. rewrite (got_refs _ _ _ bn Hr). unfold refs. by rewrite Hrf.
    + rewrite decide_True; [done|apply got_locked].
    + done.
    + by apply Hr.
  - by eapply got_block.
  - rewrite Hdk. apply Hr.
Qed.

Lemma wp_bget i n s e a bn (Q : nat → W → Prop) :
  at_fs i n (World s e) a → bn ∉ bs_locked a →
  (is_Some (bs_refs a !! bn) ∨ (size (bs_refs a) < NBUF)%nat) → refs a bn + 1 < 2 ^ 32 →
  (∀ b s', at_fs i n (World s' e) (got bn a) → fstep [] (World s e) (World s' e) →
     stable a (World s e) (World s' e) → holds_block (ks_fs s') b bn → Q b (World s' e)) →
  wp (bget ROOTDEV bn) (World s e) Q.
Proof.
  intros Hat Hnl Hroom Hbound HQ. pose proof Hat as [Hq Hr _ _]. cbn [w_k] in Hq, Hr.
  destruct (cr_ring _ _ _ Hr) as (l & Hl & Hring). destruct (ring_bound l Hl) as (Hnd & HN & Hlen & Hmem).
  destruct (chain_path _ _ _ HN Hring) as [Hpath Hhd]. destruct (chain_rpath _ _ _ HN Hring) as [Hrpath Htl].
  unfold nx, pv in Hhd, Htl. destruct (fs_buf (ks_fs s) !! NBUF) as [h|] eqn:Hh; [|done].
  injection Hhd as Hhd. injection Htl as Htl.
  unfold bget. wp_simpl. apply wp_acq; [apply Hq|by apply Hq|]. wp_simpl.
  eapply wp_getb; [exact Hh|]. wp_simpl. rewrite Hhd. apply wp_bfind; [exact Hpath|lia|].
  cbn [ks_fs set_kmach setf]. destruct (List.find _ l) as [b|] eqn:Hfind.
  - apply find_some in Hfind as [Hb%list_elem_of_In%Hmem Ht]. unfold passes in Ht.
    destruct (fs_buf (ks_fs s) !! b) as [x|] eqn:Hx; [|done].
    apply andb_true_iff in Ht as [Hd%Z.eqb_eq Hbn%Z.eqb_eq]. by eapply wp_bget_hit.
  - assert (∀ b', ¬ holds_block (ks_fs s) b' bn) as Hno.
    { intros b' (Hb' & x & Hx & H1 & H2). pose proof (find_none _ _ Hfind b' ltac:(by apply list_elem_of_In, Hmem)) as Ht.
      unfold passes in Ht. rewrite Hx, H1, H2, !Z.eqb_refl in Ht. done. }
    assert (bs_refs a !! bn = None) as Hrf.
    { destruct (bs_refs a !! bn) as [k|] eqn:E; [|done].
      destruct (cr_refs _ _ _ Hr bn k E) as (_ & b' & Hb'). by destruct (Hno b'). }
    rewrite Hrf in Hroom. destruct Hroom as [[? ?]|Hroom]; [done|].
    wp_simpl. eapply wp_getb; [exact Hh|]. wp_simpl. rewrite Htl.
    apply wp_bfind; [exact Hrpath|rewrite length_reverse; lia|]. cbn [ks_fs set_kmach setf].
    destruct (free_buffer _ _ _ (reverse l) Hr) as (b0 & Hb0 & Ht0); [by rewrite reverse_Permutation|done|].
    destruct (List.find _ (reverse l)) as [b|] eqn:Hfind2.
    2:{ pose proof (find_none _ _ Hfind2 b0 ltac:(by apply list_elem_of_In)). congruence. }
    apply find_some in Hfind2 as [Hb%list_elem_of_In Ht]. rewrite elem_of_reverse in Hb. apply Hmem in Hb.
    unfold passes in Ht. destruct (fs_buf (ks_fs s) !! b) as [x|] eqn:Hx; [|done]. apply Z.eqb_eq in Ht.
    by eapply wp_bget_miss.
Qed.

(** ** [bread] *)

(** A buffer of a referenced block is replaced by one with the same identity. *)
Lemma loaded_self fs b bn x : (b < NBUF)%nat → fs_buf fs !! b = Some x → b_dev x = ROOTDEV → b_blockno x = bn →
  truthy (b_valid x) → loaded fs b bn.
Proof. intros. split; [done|]. by exists x. Qed.

Lemma holds_buf pid fs a b bn : cache_rep pid fs a → holds_block fs b bn →
  ∃ x, (b < NBUF)%nat ∧ fs_buf fs !! b = Some x ∧ b_dev x = ROOTDEV ∧ b_blockno x = bn ∧ cached pid a x.
Proof.
  intros Hr (Hb & x & Hx & H1 & H2). exists x. destruct (cr_buf _ _ _ Hr b x Hb Hx) as [[_ ?]|(? & _)]; done.
Qed.

Lemma at_fs_weaken i n w a : at_fs i (S n) w a → at_fs i n w a.
Proof. intros [H1 H2 H3 H4]. split; try done. by apply disk_ready_S. Qed.

Lemma at_fs_le i n n' w a : (n' ≤ n)%nat → at_fs i n w a → at_fs i n' w a.
Proof. induction 1 as [|n H IH]; [done|]. intros Hat. by apply IH, at_fs_weaken. Qed.

Lemma wp_bread i n s e a bn (Q : nat → W → Prop) :
  at_fs i (S n) (World s e) a → is_Some (bs_disk a !! bn) → bn ∉ bs_locked a →
  (is_Some (bs_refs a !! bn) ∨ (size (bs_refs a) < NBUF)%nat) → refs a bn + 1 < 2 ^ 32 →
  (∀ b w', at_fs i n w' (got bn a) → fstep [] (World s e) w' →
     stable a (World s e) w' → loaded (ks_fs (w_k w')) b bn → Q b w') →
  wp (bread ROOTDEV bn) (World s e) Q.
Proof.
  intros Hat [d Hd] Hnl Hroom Hbound HQ. unfold bread. wp_simpl. eapply wp_bget; [exact Hat|done|done|done|].
  intros b s1 Hat1 Hst1 Hstab1 Hh1. pose proof Hat1 as [Hq1 Hr1 Hid1 Hrd1]. cbn [w_k w_env] in *.
  destruct (holds_buf _ _ _ _ _ Hr1 Hh1) as (x & Hb & Hx & Hdev & Hbn & [C1 C2 C3 C4]).
  wp_simpl. eapply wp_getb; [done|]. rewrite Hbn in *. rewrite decide_True in C2 by apply got_locked.
  destruct (truthy (b_valid x)) eqn:Hv; cbn [negb]; wp_simpl.
  { apply HQ; [by apply at_fs_weaken|done|done|]. eapply loaded_self; [done..|by rewrite Hv]. }
  eapply wp_mono.
  { apply (disk_read_law i n s1 e b x d); [done|done|done|done|done|split; [done|apply C3, got_locked]| |].
    - rewrite (cr_disk _ _ _ Hr1), Hbn. exact Hd.
    - rewrite Hbn. apply (cr_num _ _ _ Hr1). by exists d. }
  cbn beta. intros _ [s2 e2] (Hrd2 & Hf2 & v & Hid2 & Hfs2). cbn [w_k w_env] in *. wp_simpl.
  assert (fs_buf (ks_fs s2) !! b = Some (x <| b_disk := 0 |> <| b_data := d |>)) as Hx2.
  { rewrite Hfs2. cbn. by rewrite list_lookup_alter_eq, Hx. }
  eapply wp_updb; [exact Hx2|]. wp_simpl. set (s3 := fsk _ s2).
  set (y := x <| b_disk := 0 |> <| b_data := d |> <| b_valid := 1 |>).
  assert (fs_buf (ks_fs s3) = <[b := y]> (fs_buf (ks_fs s1))) as Hb3.
  { unfold s3. cbn. rewrite (alter_as_insert _ _ _ _ Hx2), Hfs2. cbn.
    rewrite (alter_as_insert _ _ _ _ Hx), list_insert_insert_eq. done. }
  assert (frame s1 s3) as Hf3 by (etrans; [exact Hf2|apply frame_fsk]).
  apply HQ.
  - split; cbn [w_k w_env]; [by eapply quiet_frame| |by unfold s3; cbn; rewrite Hfs2|done].
    rewrite (pid_of_frame _ _ _ Hf3). eapply (cache_rep_upd _ (ks_fs s1) (ks_fs s3) _ _ b x y bn); try done.
    + intros b' Hh'. by eapply (cr_uniq _ _ _ Hr1).
    + split; cbn; rewrite ?Hbn; try done; [by rewrite decide_True by apply got_locked|].
      exact (eq_trans C4 Hd).
    + by eapply cache_rep_block.
    + unfold s3. cbn. rewrite Hfs2. cbn. apply Hr1.
  - eapply (fstep_trans [] []); [exact Hst1|]. split; cbn [w_k]; [done| |].
    + unfold s3. cbn. rewrite Hfs2. by split.
    + unfold s3. cbn. rewrite Hfs2, app_nil_r. done.
  - intros b' bn' Hrf Hld. assert (loaded (ks_fs s1) b' bn') as Hl1 by (by apply Hstab1).
    eapply (stable_upd (got bn a) b y (ks_fs s1)); [done|done| | |done].
    + intros bn'' _ _ E. split; [done|]. split; [exact E|done].
    + destruct (decide (bn' = bn)) as [->|Hne]; [by rewrite (got_refs _ _ _ bn (af_rep _ _ _ _ Hat))|].
      by destruct (got_agree bn a bn' Hne) as [-> _].
  - eapply (loaded_self _ b bn y); [done| |done|done|done]. cbn [w_k]. rewrite Hb3.
    apply list_lookup_insert_eq. by eapply lookup_lt_Some.
Qed.

(** ** Contents *)

Lemma loaded_data pid fs a b bn : cache_rep pid fs a → loaded fs b bn →
  ∃ x, (b < NBUF)%nat ∧ fs_buf fs !! b = Some x ∧ b_dev x = ROOTDEV ∧ b_blockno x = bn ∧ truthy (b_valid x) ∧
    cached pid a x ∧ bs_mem a !! bn = Some (b_data x).
Proof.
  intros Hr Hl. destruct (holds_buf _ _ _ _ _ Hr (loaded_holds _ _ _ Hl)) as (x & Hb & Hx & H1 & H2 & Hc).
  destruct Hl as (_ & x' & Hx' & _ & _ & Hv). rewrite Hx in Hx'. injection Hx' as <-.
  exists x. do 6 (split; [done|]). pose proof (ca_data _ _ _ Hc) as Hd. rewrite H2 in Hd.
  destruct (truthy (b_valid x)); done.
Qed.

Definition put_mem (bn : Z) (d : list Z) (a : bstore) : bstore := a <| bs_mem ::= <[bn := d]> |>.
Definition put_disk (bn : Z) (d : list Z) (a : bstore) : bstore := a <| bs_disk ::= <[bn := d]> |>.

(** Changing the data of a referenced block. *)
Lemma wp_set_data i n s e a b bn g d (Q : unit → KS → Prop) :
  at_fs i n (World s e) a → loaded (ks_fs s) b bn → is_Some (bs_refs a !! bn) → bs_mem a !! bn = Some d →
  block_ok (g d) →
  (∀ s', at_fs i n (World s' e) (put_mem bn (g d) a) → fstep [] (World s e) (World s' e) →
     stable a (World s e) (World s' e) → Q tt s') →
  wp (updb b (fun x => x <| b_data ::= g |>)) s Q.
Proof.
  intros Hat Hl Hrf Hd Hok HQ. pose proof Hat as [Hq Hr _ _]. cbn [w_k] in *.
  destruct (loaded_data _ _ _ _ _ Hr Hl) as (x & Hb & Hx & Hdev & Hbn & Hv & [C1 C2 C3 C4] & Hd').
  rewrite Hd in Hd'. injection Hd' as ->. rewrite Hbn in *. eapply wp_updb; [exact Hx|].
  edestruct (at_fs_upd i n s e (fsk (upd_buf b (fun x => x <| b_data ::= g |>)) s) a (put_mem bn (g (b_data x)) a) b _ x
    Hat Hb Hx (frame_fsk _ s) eq_refl) as [Hat' Hst].
  2:{ apply HQ; [done|done|]. eapply stable_upd; [exact Hx|by apply upd_buf_buf|]. done. }
  intros fs' Hb' Hdk. eapply (cache_rep_upd _ (ks_fs s) fs' a _ b x _ bn); try done.
  - intros b' Hh'. eapply (cr_uniq _ _ _ Hr); [done|by apply loaded_holds].
  - intros bn' Hne. cbn. by rewrite lookup_insert_ne.
  - split; cbn; rewrite ?Hbn; try done. rewrite lookup_insert_eq. by destruct (truthy (b_valid x)).
  - destruct (cache_rep_block _ _ _ bn Hr) as [B1 B2 B3 B4 B5 B6]. destruct Hrf as [k Hk].
    assert (bs_mem (put_mem bn (g (b_data x)) a) !! bn = Some (g (b_data x))) as Hm by apply lookup_insert_eq.
    split; rewrite ?Hm; try done.
    + intros Hn. cbn in Hn. congruence.
    + rewrite Hd in B4. split; intros _; [by apply B4|done].
    + intros d' [= <-]. done.
  - rewrite Hdk. apply Hr.
Qed.

(** ** [bwrite] *)

Lemma wp_bwrite i n s e a b bn d (Q : unit → W → Prop) :
  at_fs i (S n) (World s e) a → loaded (ks_fs s) b bn → bn ∈ bs_locked a → bs_mem a !! bn = Some d →
  (∀ w', at_fs i n w' (put_disk bn d a) → fstep [(bn, d)] (World s e) w' → stable a (World s e) w' → Q tt w') →
  wp (bwrite b) (World s e) Q.
Proof.
  intros Hat Hl Hlk Hd HQ. pose proof Hat as [Hq Hr Hid Hrd]. cbn [w_k w_env] in *.
  destruct (loaded_data _ _ _ _ _ Hr Hl) as (x & Hb & Hx & Hdev & Hbn & Hv & [C1 C2 C3 C4] & Hd').
  rewrite Hd in Hd'. injection Hd' as ->. rewrite Hbn in *. rewrite decide_True in C2 by done.
  unfold bwrite. wp_simpl.
  apply (wp_holdingsleep i (L_buf b) (b_lock x)); [done|by apply bool_decide_spec|cbn; by rewrite Hx|].
  intros s1 Hf1 Hfs1. rewrite C2, (C3 Hlk), Z.eqb_refl. change (negb (truthy 1 && true)) with false. wp_simpl.
  assert (bs_disk a !! bn <> None) as Hdk.
  { pose proof (cr_dom _ _ _ Hr bn) as Hdom. rewrite Hd in Hdom. destruct Hdom as [[? ->] _]; done. }
  eapply wp_mono.
  { apply (disk_write_law i n s1 e b x); [by eapply quiet_frame|by rewrite Hfs1|done|done|by rewrite Hfs1| | |].
    - rewrite (pid_of_frame _ _ _ Hf1). split; [done|by apply C3].
    - rewrite Hfs1, (cr_disk _ _ _ Hr), Hbn. by destruct (bs_disk a !! bn).
    - rewrite Hbn. apply (cr_num _ _ _ Hr). by destruct (bs_disk a !! bn). }
  cbn beta. intros [] [s2 e2] (Hrd2 & Hf2 & v & Hid2 & Hfs2). cbn [w_k w_env] in *. rewrite Hfs1, Hbn in Hfs2.
  assert (frame s s2) as Hf by (by etrans).
  assert (fs_buf (ks_fs s2) = <[b := x <| b_disk := 0 |>]> (fs_buf (ks_fs s))) as Hb2.
  { rewrite Hfs2. cbn. by apply alter_as_insert. }
  apply HQ.
  - split; cbn [w_k w_env]; [by eapply quiet_frame| |by rewrite Hfs2|done]. rewrite (pid_of_frame _ _ _ Hf).
    eapply (cache_rep_upd _ (ks_fs s) (ks_fs s2) a _ b x _ bn); try done.
    + intros b' Hh'. eapply (cr_uniq _ _ _ Hr); [done|by apply loaded_holds].
    + intros bn' Hne. cbn. by rewrite lookup_insert_ne.
    + split; cbn; rewrite ?Hbn; [done|by rewrite decide_True|done|]. by destruct (truthy (b_valid x)).
    + destruct (cache_rep_block _ _ _ bn Hr) as [B1 B2 B3 B4 B5 B6 B7]. destruct (B3 Hlk) as [k Hk].
      assert (bs_disk (put_disk bn (b_data x) a) !! bn = Some (b_data x)) as Hm by apply lookup_insert_eq.
      split; rewrite ?Hm; try done; [intros d' [= <-]; by apply B5|]. intros _. apply B7. by destruct (bs_disk a !! bn).
    + rewrite Hfs2. cbn. by rewrite (cr_disk _ _ _ Hr).
  - split; cbn [w_k]; [done|by rewrite Hfs2; split|]. by rewrite Hfs2.
  - eapply stable_upd; [exact Hx|exact Hb2|]. done.
Qed.

(** ** Reference counts *)

Lemma set_refs_agree bn n a : agree_except bn a (set_refs bn n a).
Proof.
  intros bn' Hne. unfold set_refs. cbn.
  split; [case_decide; [by rewrite lookup_delete_ne|by rewrite lookup_insert_ne]|done].
Qed.

(** The count of a cached block changes to [k], which is positive. *)
Lemma count_upd i n s e s' a b bn f k :
  at_fs i n (World s e) a → holds_block (ks_fs s) b bn → (∀ x, b_refcnt x = refs a bn → f x = x <| b_refcnt := k |>) →
  0 < k → frame s s' → ks_fs s' = upd_buf b f (ks_fs s) →
  at_fs i n (World s' e) (set_refs bn k a) ∧ fstep [] (World s e) (World s' e) ∧ stable a (World s e) (World s' e).
Proof.
  intros Hat Hh Hfx Hk Hf Hfs. pose proof Hat as [Hq Hr _ _]. cbn [w_k] in *.
  destruct (holds_buf _ _ _ _ _ Hr Hh) as (x & Hb & Hx & Hdev & Hbn & [C1 C2 C3 C4]). rewrite Hbn in *.
  edestruct (at_fs_upd i n s e s' a (set_refs bn k a) b f x Hat Hb Hx Hf Hfs) as [Hat' Hst].
  2:{ split; [done|]. split; [done|]. eapply stable_upd; [exact Hx|cbn [w_k]; rewrite Hfs; by apply upd_buf_buf|].
      rewrite (Hfx x C1). done. }
  rewrite (Hfx x C1). intros fs' Hb' Hdk. eapply (cache_rep_upd _ (ks_fs s) fs' a _ b x _ bn); try done.
  - intros b' Hh'. by eapply (cr_uniq _ _ _ Hr).
  - apply set_refs_agree.
  - split; cbn; rewrite ?Hbn; try done. rewrite refs_set. by rewrite decide_True.
  - destruct (cache_rep_block _ _ _ bn Hr) as [B1 B2 B3 B4 B5 B6].
    assert (bs_refs (set_refs bn k a) !! bn = Some k) as Hm.
    { unfold set_refs. cbn. rewrite decide_False by lia. apply lookup_insert_eq. }
    split; rewrite ?Hm; try done. by intros n' [= <-].
  - rewrite Hdk. apply Hr.
Qed.

(** [bpin] and [bunpin]. *)
Lemma wp_count i n s e a b bn f k (Q : unit → KS → Prop) :
  at_fs i n (World s e) a → holds_block (ks_fs s) b bn → (∀ x, b_refcnt x = refs a bn → f x = x <| b_refcnt := k |>) →
  0 < k →
  (∀ s', at_fs i n (World s' e) (set_refs bn k a) → fstep [] (World s e) (World s' e) →
     stable a (World s e) (World s' e) → Q tt s') →
  wp (lkm (acquire L_bcache);; updb b f;; lkm (release L_bcache)) s Q.
Proof.
  intros Hat Hh Hfx Hk HQ. pose proof (af_quiet _ _ _ _ Hat) as Hq. cbn [w_k] in *.
  destruct (holds_buf _ _ _ _ _ (af_rep _ _ _ _ Hat) Hh) as (x & Hb & Hx & _).
  wp_simpl. apply wp_acq; [apply Hq|by apply Hq|]. wp_simpl. eapply wp_updb; [exact Hx|].
  apply (wp_rel_frame i L_bcache s); [done|done|done|by split|]. intros s' Hf Hfs.
  edestruct (count_upd i n s e s') as (H1 & H2 & H3); [exact Hat|exact Hh|exact Hfx|done|done|done|]. by apply HQ.
Qed.

Lemma wp_bpin i n s e a b bn (Q : unit → KS → Prop) :
  at_fs i n (World s e) a → holds_block (ks_fs s) b bn → refs a bn + 1 < 2 ^ 32 →
  (∀ s', at_fs i n (World s' e) (set_refs bn (refs a bn + 1) a) → fstep [] (World s e) (World s' e) →
     stable a (World s e) (World s' e) → Q tt s') →
  wp (bpin b) s Q.
Proof.
  intros Hat Hh Hbound HQ. destruct (refs_pos _ _ _ bn (af_rep _ _ _ _ Hat)) as [Hp _].
  eapply (wp_count i n s e a b bn _ (refs a bn + 1)); [exact Hat|exact Hh| |by lia|exact HQ].
  intros x Hx. unfold setf. cbn. rewrite Hx. unfold u32. by rewrite Z.mod_small by lia.
Qed.

Lemma wp_bunpin i n s e a b bn (Q : unit → KS → Prop) :
  at_fs i n (World s e) a → holds_block (ks_fs s) b bn → 1 < refs a bn < 2 ^ 32 →
  (∀ s', at_fs i n (World s' e) (set_refs bn (refs a bn - 1) a) → fstep [] (World s e) (World s' e) →
     stable a (World s e) (World s' e) → Q tt s') →
  wp (bunpin b) s Q.
Proof.
  intros Hat Hh Hbound HQ.
  eapply (wp_count i n s e a b bn _ (refs a bn - 1)); [exact Hat|exact Hh| |by lia|exact HQ].
  intros x Hx. unfold setf. cbn. rewrite Hx. unfold u32. by rewrite Z.mod_small by lia.
Qed.

(** ** [brelse] *)

(** The buffers without their links. *)
Definition nolinks : list buf → list buf := fmap (fun x => x <| b_prev := 0%nat |> <| b_next := 0%nat |>).

Lemma nolinks_next i n bs : nolinks (set_next i n bs) = nolinks bs.
Proof.
  unfold nolinks, set_next. apply list_eq. intros j. rewrite !list_lookup_fmap.
  destruct (decide (j = i)) as [->|Hne]; [|by rewrite list_lookup_alter_ne].
  rewrite list_lookup_alter_eq. by destruct (bs !! i) as [[]|].
Qed.

Lemma nolinks_prev i n bs : nolinks (set_prev i n bs) = nolinks bs.
Proof.
  unfold nolinks, set_prev. apply list_eq. intros j. rewrite !list_lookup_fmap.
  destruct (decide (j = i)) as [->|Hne]; [|by rewrite list_lookup_alter_ne].
  rewrite list_lookup_alter_eq. by destruct (bs !! i) as [[]|].
Qed.

Lemma nolinks_lookup bs bs' i x : nolinks bs' = nolinks bs → bs' !! i = Some x →
  ∃ p n, bs !! i = Some (x <| b_prev := p |> <| b_next := n |>).
Proof.
  intros H Hx. assert (nolinks bs !! i = Some (x <| b_prev := 0%nat |> <| b_next := 0%nat |>)) as Hy.
  { rewrite <- H. unfold nolinks. by rewrite list_lookup_fmap, Hx. }
  unfold nolinks in Hy. rewrite list_lookup_fmap in Hy. destruct (bs !! i) as [y|]; [|done].
  exists (b_prev y), (b_next y). destruct x, y. unfold setf in *. cbn in *. injection Hy. by intros; subst.
Qed.

(** The order of the list does not matter to the store. *)
Lemma cache_rep_relink pid fs fs' a l :
  cache_rep pid fs a → nolinks (fs_buf fs') = nolinks (fs_buf fs) → fs_disk fs' = fs_disk fs →
  l ≡ₚ seq 0 NBUF → ring (fs_buf fs') l → cache_rep pid fs' a.
Proof.
  intros [R1 R2 R3 R4 R5 R6 R7 R8 R9 R10] Hnl Hdk Hl Hring.
  assert (∀ b bn, holds_block fs' b bn ↔ holds_block fs b bn) as Hh.
  { intros b bn. unfold holds_block. split; intros (Hb & x & Hx & H1 & H2); (split; [done|]).
    - destruct (nolinks_lookup _ _ _ _ Hnl Hx) as (p & n & Hy). eexists. split; [exact Hy|]. done.
    - destruct (nolinks_lookup _ _ _ _ (eq_sym Hnl) Hx) as (p & n & Hy). eexists. split; [exact Hy|]. done. }
  split; try done.
  - pose proof (f_equal length Hnl) as Hlen. unfold nolinks in Hlen. rewrite !length_fmap in Hlen. by rewrite Hlen.
  - by exists l.
  - intros b x Hb Hx. destruct (nolinks_lookup _ _ _ _ Hnl Hx) as (p & n & Hy). specialize (R3 b _ Hb Hy).
    destruct R3 as [[? [C1 C2 C3 C4]]|?]; [left|by right]. split; [done|]. by split.
  - intros b b' bn. rewrite !Hh. apply R4.
  - intros bn n Hn. destruct (R5 bn n Hn) as (? & b & Hb). split; [done|]. exists b. by apply Hh.
  - by rewrite Hdk.
Qed.

(** The state with other buffers. *)
Definition with_bufs (bs : list buf) (s : KS) : KS := fsk (fun fs => fs <| fs_buf := bs |>) s.

Lemma with_bufs_id s : with_bufs (fs_buf (ks_fs s)) s = s.
Proof. by destruct s as [[] ? ? ? ? ? ? []]. Qed.

Lemma wp_set_next i n s Q : is_Some (fs_buf (ks_fs s) !! i) →
  Q tt (with_bufs (set_next i n (fs_buf (ks_fs s))) s) → wp (updb i (fun x => x <| b_next := n |>)) s Q.
Proof. intros [x Hx] HQ. by eapply wp_updb. Qed.

Lemma wp_set_prev i n s Q : is_Some (fs_buf (ks_fs s) !! i) →
  Q tt (with_bufs (set_prev i n (fs_buf (ks_fs s))) s) → wp (updb i (fun x => x <| b_prev := n |>)) s Q.
Proof. intros [x Hx] HQ. by eapply wp_updb. Qed.

Lemma wp_push b l s (Q : unit → KS → Prop) :
  b ∉ NBUF :: l → NoDup (NBUF :: l) → is_Some (fs_buf (ks_fs s) !! b) → ring (fs_buf (ks_fs s)) l →
  (∀ bs', nolinks bs' = nolinks (fs_buf (ks_fs s)) → ring bs' (b :: l) → Q tt (with_bufs bs' s)) →
  wp (bpush b;; blink b) s Q.
Proof.
  intros Hb Hnd HS Hr HQ. pose proof (chain_head _ _ _ _ Hr) as Hn.
  destruct (nx (fs_buf (ks_fs s)) NBUF) as [n|] eqn:En; [|by destruct l].
  destruct (ring_push _ _ _ _ Hb Hnd HS Hr En) as (HSn & Hnb & Hring).
  assert (b ≠ NBUF) as HbN by (intros ->; apply Hb; by left).
  unfold nx in En. destruct (fs_buf (ks_fs s) !! NBUF) as [h|] eqn:Hh; [|done]. injection En as En.
  unfold bpush, blink. wp_simpl. eapply wp_getb; [exact Hh|]. wp_simpl. rewrite En. apply wp_set_next; [done|]. wp_simpl.
  apply wp_set_prev; [cbn; by apply set_next_is_Some|]. wp_simpl.
  eapply (wp_getb NBUF h).
  { cbn. unfold set_prev, set_next. by rewrite !list_lookup_alter_ne. }
  wp_simpl. rewrite En. apply wp_set_prev; [cbn; by apply set_prev_is_Some, set_next_is_Some|]. wp_simpl.
  apply wp_set_next; [cbn; apply set_prev_is_Some, set_prev_is_Some, set_next_is_Some; by rewrite Hh|].
  apply (HQ (set_next NBUF b (set_prev n b (set_prev b NBUF (set_next b n (fs_buf (ks_fs s))))))); [|exact Hring].
  by rewrite nolinks_next, !nolinks_prev, nolinks_next.
Qed.

Lemma wp_unlink {A} b l1 l2 x s (k : M KS A) (Q : A → KS → Prop) :
  NoDup (NBUF :: l1 ++ b :: l2) → ring (fs_buf (ks_fs s)) (l1 ++ b :: l2) → fs_buf (ks_fs s) !! b = Some x →
  (∀ bs', nolinks bs' = nolinks (fs_buf (ks_fs s)) → ring bs' (l1 ++ l2) → wp k (with_bufs bs' s) Q) →
  wp (updb (b_next x) (fun y => y <| b_prev := b_prev x |>);;
      x ← getb b;
      updb (b_prev x) (fun y => y <| b_next := b_next x |>);; k) s Q.
Proof.
  intros Hnd Hr Hx HQ. destruct (ring_unlink _ _ _ _ Hnd Hr) as (p & n & Hp & Hn & Hpb & Hnb & HSp & HSn & Hring).
  unfold pv in Hp. unfold nx in Hn. rewrite Hx in Hp, Hn. injection Hp as Hp. injection Hn as Hn.
  wp_simpl. rewrite Hp, Hn. apply wp_set_prev; [done|]. wp_simpl. eapply (wp_getb b x).
  { cbn. unfold set_prev. by rewrite list_lookup_alter_ne. }
  rewrite Hp, Hn. wp_simpl. apply wp_set_next; [cbn; by apply set_prev_is_Some|]. 
  apply (HQ (set_next p n (set_prev n p (fs_buf (ks_fs s))))); [|exact Hring]. by rewrite nolinks_next, nolinks_prev.
Qed.

(** The store after the release of [bn]. *)
Definition released (bn : Z) (a : bstore) : bstore := unlock_block bn (set_refs bn (refs a bn - 1) a).

Lemma released_agree bn a : agree_except bn a (released bn a).
Proof.
  intros bn' Hne. destruct (set_refs_agree bn (refs a bn - 1) a bn' Hne) as (H1 & H2 & H3 & H4).
  unfold released, unlock_block. cbn. split; [exact H1|]. split; [done|]. split; [done|]. set_solver.
Qed.

Lemma released_refs bn a : refs (released bn a) bn = refs a bn - 1.
Proof.
  change (refs (set_refs bn (refs a bn - 1) a) bn = refs a bn - 1). rewrite refs_set. by rewrite decide_True.
Qed.

Lemma released_block pid fs a bn : cache_rep pid fs a → 0 < refs a bn →
  (1 < refs a bn ∨ bs_mem a !! bn = bs_disk a !! bn) → block_state (released bn a) bn.
Proof.
  intros Hr Hpos Hcl. destruct (cache_rep_block _ _ _ bn Hr) as [B1 B2 B3 B4 B5 B6]. split; try done.
  - intros n Hn. pose proof (released_refs bn a) as H. unfold refs at 1 in H. rewrite Hn in H. cbn in H.
    cbn in Hn. unfold set_refs in Hn. cbn in Hn. case_decide; [by rewrite lookup_delete_eq in Hn|]. lia.
  - intros Hn. destruct Hcl as [Hk|?]; [|done]. pose proof (released_refs bn a) as H.
    unfold refs at 1 in H. rewrite Hn in H. cbn in H. lia.
  - intros Hl. unfold released, unlock_block in Hl. cbn in Hl. set_solver.
Qed.

(** The fields of the buffer itself. *)
Lemma released_rep pid fs fs' a b bn x :
  cache_rep pid fs a → (b < NBUF)%nat → fs_buf fs !! b = Some x → b_dev x = ROOTDEV → b_blockno x = bn →
  0 < refs a bn < 2 ^ 32 → (1 < refs a bn ∨ bs_mem a !! bn = bs_disk a !! bn) →
  fs_buf fs' = <[b := x <| b_lock := Sleeplock 0 (sl_name (b_lock x)) 0 |> <| b_refcnt ::= fun n => u32 (n - 1) |>]> (fs_buf fs) →
  fs_disk fs' = fs_disk fs → cache_rep pid fs' (released bn a).
Proof.
  intros Hr Hb Hx Hdev Hbn Hk Hcl Hfs Hdk. assert (holds_block fs b bn) as Hh by (split; [done|]; by exists x).
  destruct (cr_buf _ _ _ Hr b x Hb Hx) as [[_ [C1 C2 C3 C4]]|(? & _)]; [|done]. rewrite Hbn in *.
  eapply (cache_rep_upd _ fs fs' a _ b x _ bn); try done.
  - intros b' Hh'. by eapply (cr_uniq _ _ _ Hr).
  - apply released_agree.
  - split; cbn; rewrite ?Hbn; try done.
    + rewrite released_refs, C1. unfold u32. apply Z.mod_small. lia.
    + rewrite decide_False; [done|]. set_solver.
    + set_solver.
  - eapply released_block; [exact Hr|lia|exact Hcl].
  - rewrite Hdk. apply Hr.
Qed.

Lemma loaded_relink fs fs' b bn : nolinks (fs_buf fs') = nolinks (fs_buf fs) → loaded fs b bn → loaded fs' b bn.
Proof.
  intros Hnl (Hb & x & Hx & H). split; [done|].
  destruct (nolinks_lookup _ _ _ _ (eq_sym Hnl) Hx) as (p & n & Hy). eexists. split; [exact Hy|]. exact H.
Qed.

(** The end of [brelse], with the list in a new order. *)
Lemma wp_brelse_end i n s e a bn b x y s2 s3 bs l (Q : unit → KS → Prop) :
  at_fs i n (World s e) a → fs_buf (ks_fs s) !! b = Some x → frame s s2 → kept (ks_fs s) (ks_fs s3) →
  fs_buf (ks_fs s3) = <[b := y]> (fs_buf (ks_fs s)) → fs_disk (ks_fs s3) = fs_disk (ks_fs s) →
  fs_vdisk (ks_fs s3) = fs_vdisk (ks_fs s) →
  b_dev y = b_dev x → b_blockno y = b_blockno x → b_valid y = b_valid x →
  ks_mach s3 = acq L_bcache (ks_mach s2) → frame s2 (set_kmach (ks_mach s2) s3) →
  cache_rep (pid_of i s) (ks_fs s3) (released bn a) →
  nolinks bs = nolinks (fs_buf (ks_fs s3)) → l ≡ₚ seq 0 NBUF → ring bs l →
  (∀ s', at_fs i n (World s' e) (released bn a) → fstep [] (World s e) (World s' e) →
     stable a (World s e) (World s' e) → Q tt s') →
  wp (lkm (release L_bcache)) (with_bufs bs s3) Q.
Proof.
  intros Hat Hx Hf [K1 K2 K3 K4 K5] Hb3 Hdk Hvd Y1 Y2 Y3 Hm Hf3 Hr3 Hnl Hl Hring HQ.
  pose proof Hat as [Hq Hr Hid Hrd]. cbn [w_k w_env] in *.
  assert (quiet i s2) as Hq2 by (by eapply quiet_frame).
  apply (wp_rel_frame i L_bcache s2); [done|done|change (ks_mach (with_bufs bs s3)) with (ks_mach s3); by rewrite Hm| |].
  { destruct Hf3. by split. }
  intros s' Hf' Hfs'. assert (frame s s') as Hfs by (by etrans). apply HQ.
  - split; cbn [w_k w_env]; [by eapply quiet_frame| |by rewrite Hfs'; cbn; rewrite Hvd|done].
    rewrite (pid_of_frame _ _ _ Hfs), Hfs'. by eapply (cache_rep_relink _ (ks_fs s3)).
  - split; cbn [w_k]; [done|by rewrite Hfs'; split|]. rewrite Hfs'. cbn. by rewrite Hdk, app_nil_r.
  - intros b' bn' Hrf Hld. cbn [w_k] in *. rewrite Hfs'. apply (loaded_relink (ks_fs s3)); [exact Hnl|].
    eapply (stable_upd a b y (ks_fs s)); [done|done| |done|done]. intros bn'' _ H1 H2. by rewrite Y1, Y2, Y3.
Qed.

Lemma wp_brelse i n s e a b bn (Q : unit → KS → Prop) :
  at_fs i n (World s e) a → holds_block (ks_fs s) b bn → bn ∈ bs_locked a → refs a bn < 2 ^ 32 →
  (1 < refs a bn ∨ bs_mem a !! bn = bs_disk a !! bn) →
  (∀ s', at_fs i n (World s' e) (released bn a) → fstep [] (World s e) (World s' e) →
     stable a (World s e) (World s' e) → Q tt s') →
  wp (brelse b) s Q.
Proof.
  intros Hat Hh Hlk Hbound Hcl HQ. pose proof Hat as [Hq Hr Hid Hrd]. cbn [w_k w_env] in *.
  destruct (holds_buf _ _ _ _ _ Hr Hh) as (x & Hb & Hx & Hdev & Hbn & [C1 C2 C3 C4]). rewrite Hbn in *.
  rewrite decide_True in C2 by done.
  assert (0 < refs a bn < 2 ^ 32) as Hk.
  { destruct (cr_locked _ _ _ Hr bn Hlk) as [k Hk]. unfold refs in *. rewrite Hk in *. cbn in *.
    destruct (cr_refs _ _ _ Hr bn k Hk). lia. }
  unfold brelse. wp_simpl.
  apply (wp_holdingsleep i (L_buf b) (b_lock x)); [done|by apply bool_decide_spec|cbn; by rewrite Hx|].
  intros s1 Hf1 Hfs1. rewrite C2, (C3 Hlk), Z.eqb_refl. change (negb (truthy 1 && true)) with false. wp_simpl.
  apply (wp_releasesleep i (L_buf b) (b_lock x));
    [by eapply quiet_frame|by apply bool_decide_spec|cbn; by rewrite Hfs1, Hx|].
  intros s2 Hf2 Hfs2. rewrite Hfs1 in Hfs2. wp_simpl. assert (frame s s2) as Hf by (by etrans).
  assert (quiet i s2) as Hq2 by (by eapply quiet_frame).
  apply wp_acq; [apply Hq2|by apply Hq2|]. wp_simpl.
  set (x1 := x <| b_lock := Sleeplock 0 (sl_name (b_lock x)) 0 |>).
  assert (fs_buf (ks_fs s2) !! b = Some x1) as Hx1.
  { rewrite Hfs2. cbn. by rewrite list_lookup_alter_eq, Hx. }
  eapply wp_updb; [exact Hx1|]. wp_simpl. set (s3 := fsk _ _). set (y := x1 <| b_refcnt ::= fun n => u32 (n - 1) |>).
  assert (fs_buf (ks_fs s3) = <[b := y]> (fs_buf (ks_fs s))) as Hb3.
  { unfold s3. cbn. rewrite (alter_as_insert _ _ _ _ Hx1), Hfs2. cbn.
    by rewrite (alter_as_insert _ _ _ _ Hx), list_insert_insert_eq. }
  assert (fs_buf (ks_fs s3) !! b = Some y) as Hy by (rewrite Hb3; apply list_lookup_insert_eq; by eapply lookup_lt_Some).
  assert (fs_disk (ks_fs s3) = fs_disk (ks_fs s)) as Hdk3 by (unfold s3; cbn; by rewrite Hfs2).
  assert (cache_rep (pid_of i s) (ks_fs s3) (released bn a)) as Hr3 by (by eapply released_rep).
  eapply wp_getb; [exact Hy|]. wp_simpl.
  assert (∀ bs l, nolinks bs = nolinks (fs_buf (ks_fs s3)) → l ≡ₚ seq 0 NBUF → ring bs l →
    wp (lkm (release L_bcache)) (with_bufs bs s3) Q) as Hend.
  { intros bs l Hnl Hl Hring. eapply (wp_brelse_end i n s e a bn b x y s2 s3 bs l); try done.
    - unfold s3. cbn. rewrite Hfs2. by split.
    - unfold s3. cbn. by rewrite Hfs2. }
  destruct (cr_ring _ _ _ Hr3) as (l & Hl & Hring). destruct (ring_bound l Hl) as (Hnd & HN & _ & Hmem).
  destruct (b_refcnt y =? 0); wp_simpl.
  - destruct (list_elem_of_split l b) as (l1 & l2 & ->); [by apply Hmem|].
    assert (NoDup (NBUF :: l1 ++ b :: l2)) as Hnd' by (by apply NoDup_cons).
    rewrite <- wp_bind. apply (wp_unlink b l1 l2 y s3); [done|done|done|]. intros bs1 Hnl1 Hr1.
    rewrite <- Permutation_middle in Hl, Hnd. apply NoDup_cons in Hnd as [Hb12 Hnd12].
    assert (is_Some (bs1 !! b)) as HS.
    { apply lookup_lt_is_Some. pose proof (f_equal length Hnl1) as Hlen. unfold nolinks in Hlen.
      rewrite !length_fmap in Hlen. rewrite Hlen. by eapply lookup_lt_Some. }
    apply (wp_push b (l1 ++ l2)); [| |exact HS|exact Hr1|].
    + intros [->|?]%elem_of_cons; [lia|done].
    + apply NoDup_cons. split; [|done]. intros HNin. apply HN.
      rewrite <- Permutation_middle. by right.
    + intros bs2 Hnl2 Hr2. apply (Hend bs2 (b :: l1 ++ l2)); [|done|done]. by etrans.
  - rewrite <- (with_bufs_id s3). by eapply Hend.
Qed.

End bio.
