(* ===== verification/LogFacts.v ===== *)
(** * The log: what its routines do to the disk (kernel/log.c)

    In terms of the block store: [write_log] copies the logged blocks to the
    log, [write_head] commits, [install_trans] copies them home. *)

From Stdlib Require Import ZArith Lia.
From stdpp Require Import base gmap strings numbers list.
From S2P Require Import Prelude Spinlock Mem Kstring Kalloc Vm Proc ProcFacts ProcOps Sched FsState Sleeplock FsFacts Bio BioFacts BioOps Log.
Local Open Scope xv6_scope.

(** ** Words in a block *)

Lemma length_put_bytes off bs data :
  0 ≤ off → off + Z.of_nat (length bs) ≤ Z.of_nat (length data) → length (put_bytes off bs data) = length data.
Proof. intros H1 H2. unfold put_bytes. rewrite !length_app, length_take, length_drop. lia. Qed.

Lemma put_bytes_in off bs data k :
  0 ≤ off → off + Z.of_nat (length bs) ≤ Z.of_nat (length data) → (k < length bs)%nat →
  put_bytes off bs data !! (Z.to_nat off + k)%nat = bs !! k.
Proof.
  intros H1 H2 Hk. unfold put_bytes. rewrite lookup_app_r by (rewrite length_take; lia).
  rewrite length_take, Nat.min_l by lia. rewrite lookup_app_l by lia. f_equal. lia.
Qed.

Lemma put_bytes_out off bs data k :
  0 ≤ off → off + Z.of_nat (length bs) ≤ Z.of_nat (length data) →
  (k < Z.to_nat off ∨ Z.to_nat off + length bs ≤ k)%nat →
  put_bytes off bs data !! k = data !! k.
Proof.
  intros H1 H2 [Hk|Hk]; unfold put_bytes.
  - rewrite lookup_app_l by (rewrite length_take; lia). by rewrite lookup_take_lt.
  - rewrite lookup_app_r by (rewrite length_take; lia). rewrite length_take, Nat.min_l by lia.
    rewrite lookup_app_r by lia. rewrite lookup_drop. f_equal. lia.
Qed.

Lemma get_at_ext off n data data' :
  (∀ k, (Z.to_nat off ≤ k < Z.to_nat off + Z.to_nat n)%nat → data' !! k = data !! k) →
  get_at off n data' = get_at off n data.
Proof.
  intros H. unfold get_at. f_equal. apply list_eq. intros k.
  destruct (decide (k < Z.to_nat n)%nat) as [Hk|Hk].
  - rewrite !lookup_take_lt, !lookup_drop by done. apply H. lia.
  - by rewrite !lookup_take_ge by lia.
Qed.

Lemma get_put_same off n v data :
  0 ≤ off → 0 ≤ n → off + n ≤ Z.of_nat (length data) → get_at off n (put_at off n v data) = v mod 256 ^ n.
Proof.
  intros H1 H2 H3. pose proof (le_value_bytes (Z.to_nat n) v) as Hv. rewrite Z2Nat.id in Hv by done. rewrite <- Hv.
  unfold get_at, put_at. f_equal. apply list_eq. intros k.
  pose proof (length_le_bytes (Z.to_nat n) v) as Hl.
  destruct (decide (k < Z.to_nat n)%nat) as [Hk|Hk].
  - rewrite lookup_take_lt, lookup_drop by done. apply put_bytes_in; rewrite ?Hl; lia.
  - rewrite lookup_take_ge, lookup_ge_None_2; [done|lia|lia].
Qed.

Lemma get_put_other off n v data off' n' :
  0 ≤ off → 0 ≤ n → off + n ≤ Z.of_nat (length data) → 0 ≤ off' → 0 ≤ n' → (off' + n' ≤ off ∨ off + n ≤ off') →
  get_at off' n' (put_at off n v data) = get_at off' n' data.
Proof.
  intros H1 H2 H3 H4 H5 H6. apply get_at_ext. intros k Hk. pose proof (length_le_bytes (Z.to_nat n) v) as Hl.
  unfold put_at. apply put_bytes_out; rewrite ?Hl; lia.
Qed.

Lemma block_ok_put off n v d : 0 ≤ off → 0 ≤ n → off + n ≤ BSIZE → block_ok d → block_ok (put_at off n v d).
Proof.
  intros H1 H2 H3 [Hl Hb]. pose proof (length_le_bytes (Z.to_nat n) v) as Hlb. unfold BSIZE in *. split.
  - unfold put_at. rewrite length_put_bytes; rewrite ?Hlb; [done|lia|lia].
  - unfold put_at, put_bytes. rewrite !Forall_app. split; [by apply Forall_take|].
    split; [apply le_bytes_range|by apply Forall_drop].
Qed.

(** ** The header block *)

Definition head_n (d : list Z) : Z := i32 (get_at 0 4 d).
Definition head_block (d : list Z) (k : nat) : Z := i32 (get_at (4 + 4 * Z.of_nat k) 4 d).

Fixpoint enc_blocks (k : nat) (hs d : list Z) : list Z :=
  match hs with
  | [] => d
  | h :: hs => enc_blocks (S k) hs (put_at (4 + 4 * Z.of_nat k) 4 h d)
  end.
Definition enc_head (hs d : list Z) : list Z := enc_blocks 0 hs (put_at 0 4 (Z.of_nat (length hs)) d).

Lemma block_ok_enc k hs d : (k + length hs ≤ 255)%nat → block_ok d → block_ok (enc_blocks k hs d).
Proof.
  revert k d. induction hs as [|h hs IH]; intros k d Hl Hd; cbn [enc_blocks length] in *; [done|].
  apply IH; [lia|]. apply block_ok_put; [lia|lia|unfold BSIZE; lia|done].
Qed.

Lemma enc_blocks_get k hs d off n :
  (k + length hs ≤ 255)%nat → block_ok d → 0 ≤ off → 0 ≤ n → off + n ≤ 4 + 4 * Z.of_nat k →
  get_at off n (enc_blocks k hs d) = get_at off n d.
Proof.
  revert k d. induction hs as [|h hs IH]; intros k d Hl Hd H1 H2 H3; cbn [enc_blocks length] in *; [done|].
  rewrite IH; [|lia|apply block_ok_put; [lia|lia|unfold BSIZE; lia|done]|lia|lia|lia].
  apply get_put_other; try lia. destruct Hd as [-> _]. unfold BSIZE. lia.
Qed.

Lemma enc_blocks_nth k hs d j h :
  (k + length hs ≤ 255)%nat → block_ok d → hs !! j = Some h →
  get_at (4 + 4 * Z.of_nat (k + j)) 4 (enc_blocks k hs d) = h mod 2 ^ 32.
Proof.
  revert k d j. induction hs as [|h' hs IH]; intros k d j Hl Hd Hj; cbn [enc_blocks length] in *; [done|].
  assert (block_ok (put_at (4 + 4 * Z.of_nat k) 4 h' d)) as Hd'
    by (apply block_ok_put; [lia|lia|unfold BSIZE; lia|done]).
  destruct j as [|j]; cbn in Hj.
  - injection Hj as ->. rewrite Nat.add_0_r, enc_blocks_get; [|lia|done|lia|lia|lia].
    rewrite get_put_same; [done|lia|lia|]. destruct Hd as [-> _]. unfold BSIZE. lia.
  - replace (k + S j)%nat with (S k + j)%nat by lia. apply IH; [lia|done|done].
Qed.

(** What is written to the header can be read from it. *)
Lemma enc_head_decode hs d :
  (length hs ≤ 30)%nat → block_ok d → Forall (fun h => 0 ≤ h < 2 ^ 31) hs →
  head_n (enc_head hs d) = Z.of_nat (length hs) ∧
  ∀ k h, hs !! k = Some h → head_block (enc_head hs d) k = h.
Proof.
  intros Hl Hd Hh. assert (block_ok (put_at 0 4 (Z.of_nat (length hs)) d)) as Hd'
    by (apply block_ok_put; [lia|lia|unfold BSIZE; lia|done]).
  unfold head_n, head_block, enc_head. split.
  - rewrite enc_blocks_get; [|lia|done|lia|lia|lia]. rewrite get_put_same; [zlia|lia|lia|].
    destruct Hd as [-> _]. unfold BSIZE. lia.
  - intros k h Hk. rewrite (enc_blocks_nth 0 hs _ k h); [|lia|done|done].
    rewrite Forall_forall in Hh. specialize (Hh h ltac:(by eapply list_elem_of_lookup_2)). zlia.
Qed.

(** ** The store *)

Lemma put_mem_twice bn d d' a : put_mem bn d (put_mem bn d' a) = put_mem bn d a.
Proof. unfold put_mem, setf. cbn. by rewrite insert_insert_eq. Qed.

Lemma put_mem_same bn d a : bs_mem a !! bn = Some d → put_mem bn d a = a.
Proof. intros H. unfold put_mem, setf. rewrite insert_id by done. by destruct a. Qed.

Definition counts (a : bstore) : Prop := ∀ bn n, bs_refs a !! bn = Some n → 0 < n.

Lemma rep_counts pid fs a : cache_rep pid fs a → counts a.
Proof. intros Hr bn n Hn. by apply (cr_refs _ _ _ Hr bn n). Qed.

Lemma counts_refs a bn : counts a → 0 ≤ refs a bn ∧ (refs a bn = 0 → bs_refs a !! bn = None).
Proof.
  intros H. unfold refs. specialize (H bn). destruct (bs_refs a !! bn) as [n|]; cbn; [|done].
  specialize (H n eq_refl). split; [lia|lia].
Qed.

Lemma refs_got bn a bn' : refs (got bn a) bn' = if decide (bn = bn') then refs a bn + 1 else refs a bn'.
Proof. apply (refs_set bn (refs a bn + 1) a bn'). Qed.

Lemma locked_got bn a bn' : bn' ∈ bs_locked (got bn a) ↔ bn' = bn ∨ bn' ∈ bs_locked a.
Proof. unfold got, lock_block. cbn. set_solver. Qed.

Lemma counts_got bn a : counts a → counts (got bn a).
Proof.
  intros H bn' n. unfold got, lock_block, set_refs. cbn. destruct (counts_refs a bn H) as [Hp _].
  rewrite decide_False by lia. rewrite lookup_insert_Some. intros [[<- <-]|[_ Hn]]; [lia|by eapply H].
Qed.

Lemma released_got a bn : counts a → bn ∉ bs_locked a → released bn (got bn a) = a.
Proof.
  intros Hr Hn. destruct (counts_refs a bn Hr) as [Hp Hz].
  pose proof (refs_got bn a bn) as Hg. rewrite decide_True in Hg by done.
  unfold released, unlock_block, got, lock_block in *. rewrite Hg. unfold set_refs, setf. cbn.
  rewrite (decide_False (P := refs a bn + 1 = 0)) by lia.
  replace (refs a bn + 1 - 1) with (refs a bn) by lia. destruct a as [dk m r l]. cbn in *.
  f_equal; [|set_solver]. case_decide as H0.
  - rewrite delete_insert_eq. by apply delete_id, Hz.
  - rewrite insert_insert_eq. unfold refs in *. cbn in *. destruct (r !! bn) as [k|] eqn:E; [|done].
    cbn. by apply insert_id.
Qed.

Lemma refs_released bn a bn' : refs (released bn a) bn' = if decide (bn = bn') then refs a bn - 1 else refs a bn'.
Proof. apply (refs_set bn (refs a bn - 1) a bn'). Qed.

Lemma locked_released bn a bn' : bn' ∈ bs_locked (released bn a) ↔ bn' ≠ bn ∧ bn' ∈ bs_locked a.
Proof. unfold released, unlock_block. cbn. set_solver. Qed.

Lemma counts_set bn n a : 0 ≤ n → counts a → counts (set_refs bn n a).
Proof.
  intros Hn H bn' n'. unfold set_refs. cbn. case_decide.
  - rewrite lookup_delete_Some. intros [_ H']. by eapply H.
  - rewrite lookup_insert_Some. intros [[<- <-]|[_ H']]; [lia|by eapply H].
Qed.

Lemma bstore_eq a a' : counts a → counts a' → bs_disk a = bs_disk a' → bs_mem a = bs_mem a' →
  (∀ bn, refs a bn = refs a' bn) → (∀ bn, bn ∈ bs_locked a ↔ bn ∈ bs_locked a') → a = a'.
Proof.
  intros Hc Hc' Hd Hm Hr Hl. destruct a as [dk m r l], a' as [dk' m' r' l']. cbn in *. subst. f_equal.
  - apply map_eq. intros bn. specialize (Hr bn). pose proof (Hc bn) as H1. pose proof (Hc' bn) as H2.
    unfold refs in Hr. cbn in *. destruct (r !! bn) as [n|], (r' !! bn) as [n'|]; cbn in *; [congruence| | |done].
    + specialize (H1 n eq_refl). lia.
    + specialize (H2 n' eq_refl). lia.
  - by apply set_eq.
Qed.

Definition stored (bn : Z) (d : list Z) (a : bstore) : bstore := put_disk bn d (put_mem bn d a).

(** [log] describes a log at [start] with the transaction's blocks [hs]. *)
Record log_is (start : Z) (hs : list Z) (l : log) : Prop := {
  li_dev : log_dev l = ROOTDEV;
  li_start : log_start l = start;
  li_n : lh_n (log_lh l) = Z.of_nat (length hs);
  li_len : length (lh_block (log_lh l)) = Z.to_nat LOGSIZE;
  li_take : take (length hs) (lh_block (log_lh l)) = hs
}.

Lemma lh_get_is start hs l k h : log_is start hs l → hs !! k = Some h → lh_get (Z.of_nat k) (log_lh l) = Some h.
Proof.
  intros Hl Hk. unfold lh_get. destruct (Z.ltb_spec (Z.of_nat k) 0); [lia|]. rewrite Nat2Z.id.
  rewrite <- (li_take _ _ _ Hl) in Hk. by apply lookup_take_Some in Hk as [? _].
Qed.

Section log.
Context `{KI : KernelImage} `{DO : DiskOps} `{DL : !DiskLaws}.
Implicit Types (w : W) (a : bstore).

(** A block that can be read: on the disk, free, with room for its count and,
    if it is not in use, with at least [k] buffers free. *)
Record readable (k : nat) (a : bstore) (bn : Z) : Prop := {
  rd_num : 0 ≤ bn < 2 ^ 31;
  rd_disk : is_Some (bs_disk a !! bn);
  rd_free : bn ∉ bs_locked a;
  rd_room : is_Some (bs_refs a !! bn) ∨ (size (bs_refs a) + k ≤ NBUF)%nat;
  rd_refs : refs a bn + 1 < 2 ^ 32
}.

Lemma wp_read i n s e a bn (Q : nat → W → Prop) :
  at_fs i (S n) (World s e) a → readable 1 a bn →
  (∀ b w', at_fs i n w' (got bn a) → fstep [] (World s e) w' →
     stable a (World s e) w' → loaded (ks_fs (w_k w')) b bn → Q b w') →
  wp (bread ROOTDEV (u32 bn)) (World s e) Q.
Proof.
  intros Hat [H1 H2 H3 H4 H5] HQ. replace (u32 bn) with bn by (unfold u32; rewrite Z.mod_small; lia). apply (wp_bread i n s e a bn); try done.
  destruct H4; [by left|right; lia].
Qed.

Lemma fstep_log tr w w' start hs : fstep tr w w' →
  log_is start hs (fs_log (ks_fs (w_k w))) → log_is start hs (fs_log (ks_fs (w_k w'))).
Proof. intros [_ [-> _ _ _ _] _]. done. Qed.

Lemma wp_write_head_loop i n s e a start hs buf pre rest d fuel (Q : unit → KS → Prop) :
  at_fs i n (World s e) a → loaded (ks_fs s) buf start → is_Some (bs_refs a !! start) →
  bs_mem a !! start = Some d → block_ok d → log_is start hs (fs_log (ks_fs s)) →
  hs = pre ++ rest → (length hs ≤ 30)%nat → (length rest < fuel)%nat →
  (∀ s', at_fs i n (World s' e) (put_mem start (enc_blocks (length pre) rest d) a) →
     fstep [] (World s e) (World s' e) → loaded (ks_fs s') buf start → Q tt s') →
  wp (write_head_loop fuel buf (Z.of_nat (length pre))) s Q.
Proof.
  revert s a pre d fuel. induction rest as [|h rest IH];
    intros s a pre d fuel Hat Hld Hrf Hm Hd Hlg Hhs Hlen Hf HQ; (destruct fuel as [|fuel]; [cbn in Hf; lia|]);
    cbn [write_head_loop]; wp_simpl; rewrite (li_n _ _ _ Hlg), Hhs, length_app; cbn [length].
  - rewrite (proj2 (Z.ltb_ge _ _)) by lia. cbn [negb]. wp_simpl. apply HQ; [|apply fstep_refl|done].
    cbn [enc_blocks]. by rewrite put_mem_same.
  - rewrite (proj2 (Z.ltb_lt _ _)) by lia. cbn [negb].
    rewrite (lh_get_is _ _ _ (length pre) h Hlg) by (rewrite Hhs; by apply list_lookup_middle).
    wp_simpl. cbn in Hf. rewrite Hhs, length_app in Hlen. cbn in Hlen.
    assert (block_ok (put_at (4 + 4 * Z.of_nat (length pre)) 4 h d)) as Hok
      by (apply block_ok_put; [lia|lia|unfold BSIZE; lia|done]).
    apply (wp_set_data i n s e a buf start _ d); [done|done|done|done|exact Hok|].
    intros s1 Hat1 Hst1 Hstab1.
    replace (Z.of_nat (length pre) + 1) with (Z.of_nat (length (pre ++ [h]))) by (rewrite length_app; cbn; lia).
    eapply (IH s1 _ (pre ++ [h]) (put_at (4 + 4 * Z.of_nat (length pre)) 4 h d)).
    + exact Hat1.
    + by apply Hstab1.
    + done.
    + cbn. apply lookup_insert_eq.
    + exact Hok.
    + exact (fstep_log _ _ _ _ _ Hst1 Hlg).
    + by rewrite <- app_assoc.
    + rewrite Hhs, length_app. cbn. lia.
    + lia.
    + intros s2 Hat2 Hst2 Hld2. apply HQ; [|by eapply (fstep_trans [] [])|done].
      rewrite put_mem_twice in Hat2. cbn [enc_blocks]. rewrite length_app, Nat.add_1_r in Hat2. exact Hat2.
Qed.

Lemma wp_write_head i n s e a start hs d (Q : unit → W → Prop) :
  at_fs i (S (S n)) (World s e) a → log_is start hs (fs_log (ks_fs s)) → (length hs ≤ 30)%nat →
  readable 1 a start → bs_mem a !! start = Some d →
  (∀ w', at_fs i n w' (stored start (enc_head hs d) a) → fstep [(start, enc_head hs d)] (World s e) w' → Q tt w') →
  wp write_head (World s e) Q.
Proof.
  intros Hat Hlg Hlen Hrd Hm HQ. unfold write_head. wp_simpl. rewrite (li_dev _ _ _ Hlg), (li_start _ _ _ Hlg).
  eapply wp_read; [exact Hat|exact Hrd|]. intros buf [s1 e1] Hat1 Hst1 _ Hld1. cbn [w_k] in *. wp_simpl.
  pose proof (fstep_log _ _ _ _ _ Hst1 Hlg : log_is start hs (fs_log (ks_fs s1))) as Hlg1.
  rewrite (li_n _ _ _ Hlg1). pose proof (af_rep _ _ _ _ Hat) as Hr. pose proof (af_rep _ _ _ _ Hat1) as Hr1.
  cbn [w_k] in *.
  assert (block_ok d) as Hd by (eapply (bk_mem _ _ (cache_rep_block _ _ _ start Hr)); done).
  assert (block_ok (put_at 0 4 (Z.of_nat (length hs)) d)) as Hok
    by (apply block_ok_put; [lia|lia|unfold BSIZE; lia|done]).
  pose proof (got_refs _ _ _ start Hr) as Hrf.
  apply (wp_set_data i (S n) s1 e1 (got start a) buf start _ d); [done|done|by eexists|done|exact Hok|].
  intros s2 Hat2 Hst2 Hstab2. wp_simpl.
  eapply (wp_write_head_loop i (S n) s2 e1 _ start hs buf [] hs); [exact Hat2| | | |exact Hok| |done|done| |].
  { apply Hstab2; [by eexists|done]. }
  { by eexists. }
  { cbn. apply lookup_insert_eq. }
  { exact (fstep_log _ _ _ _ _ Hst2 Hlg1). }
  { change log_rounds with 31%nat. lia. }
  intros s3 Hat3 Hst3 Hld3. rewrite put_mem_twice in Hat3. wp_simpl.
  eapply (wp_bwrite i n s3 e1 _ buf start); [exact Hat3|done|apply got_locked|cbn; apply lookup_insert_eq|].
  intros [s4 e4] Hat4 Hst4 Hstab4. cbn [w_k] in *. wp_simpl.
  assert (loaded (ks_fs s4) buf start) as Hld4.
  { apply Hstab4; [by eexists|done]. }
  pose proof (refs_got start a start) as Hrf'. rewrite decide_True in Hrf' by done.
  eapply (wp_brelse i n s4 e4 _ buf start); [exact Hat4|by apply loaded_holds|apply got_locked| | |].
  { pose proof (rd_refs _ _ _ Hrd). change (refs (got start a) start < 2 ^ 32). lia. }
  { right. cbn. by rewrite !lookup_insert_eq. }
  intros s5 Hat5 Hst5 _. apply HQ.
  - change (released start _) with (stored start (enc_head hs d) (released start (got start a))) in Hat5.
    rewrite (released_got a start (rep_counts _ _ _ Hr) (rd_free _ _ _ Hrd)) in Hat5. exact Hat5.
  - eapply (fstep_trans [] [_]); [exact Hst1|]. eapply (fstep_trans [] [_]); [exact Hst2|].
    eapply (fstep_trans [] [_]); [exact Hst3|]. by eapply (fstep_trans [_] []).
Qed.

(** ** Readiness of the blocks of a transaction *)

Lemma readable_weaken k k' a bn : (k' ≤ k)%nat → readable k a bn → readable k' a bn.
Proof. intros Hk [H1 H2 H3 [H4|H4] H5]; split; try done; [by left|right; lia]. Qed.

Lemma readable_got k pid fs a bn bn' :
  cache_rep pid fs a → bn' ≠ bn → readable (S k) a bn' → readable k (got bn a) bn'.
Proof.
  intros Hr Hne [H1 H2 H3 H4 H5]. destruct (got_agree bn a bn' Hne) as (A1 & _ & _ & A4). split.
  - done.
  - done.
  - by rewrite A4.
  - rewrite A1. destruct H4 as [?|H4]; [by left|right]. destruct (refs_pos _ _ _ bn Hr) as [Hp _].
    unfold got, lock_block, set_refs. cbn. rewrite decide_False by lia.
    rewrite map_size_insert. destruct (bs_refs a !! bn); cbn; lia.
  - unfold refs. by rewrite A1.
Qed.

Lemma readable_stored k bn d a bn' : readable k a bn' → readable k (stored bn d a) bn'.
Proof. intros [H1 H2 H3 H4 H5]. split; try done. cbn. apply lookup_insert_is_Some'. by right. Qed.

Lemma size_set_refs bn n a : is_Some (bs_refs a !! bn) → (size (bs_refs (set_refs bn n a)) ≤ size (bs_refs a))%nat.
Proof.
  intros [m Hm]. unfold set_refs. cbn. case_decide.
  - rewrite map_size_delete, Hm. cbn. lia.
  - rewrite map_size_insert, Hm. done.
Qed.

Lemma readable_set_refs k bn n a bn' :
  bn' ≠ bn → is_Some (bs_refs a !! bn) → readable k a bn' → readable k (set_refs bn n a) bn'.
Proof.
  intros Hne Hs [H1 H2 H3 H4 H5]. destruct (set_refs_agree bn n a bn' Hne) as (A1 & _ & _ & A4). split.
  - done.
  - done.
  - by rewrite A4.
  - rewrite A1. destruct H4 as [?|H4]; [by left|right]. pose proof (size_set_refs bn n a Hs). lia.
  - unfold refs. by rewrite A1.
Qed.

(** The log's own blocks are used by the log alone; the others are outside. *)
Record lready (start : Z) (hs : list Z) (a : bstore) : Prop := {
  lr_log : ∀ k, 0 ≤ k < LOGSIZE → readable 1 a (start + k) ∧ bs_refs a !! (start + k) = None;
  lr_home : ∀ h, h ∈ hs → readable 2 a h ∧ ¬ (start ≤ h < start + LOGSIZE);
  lr_nodup : NoDup hs
}.

Lemma lready_stored start hs bn d a : lready start hs a → lready start hs (stored bn d a).
Proof.
  intros [H1 H2 H3]. split; [|intros h Hh; split; [by apply readable_stored, H2|by apply H2]|done].
  intros k Hk. split; [by apply readable_stored, H1|by apply (H1 k)].
Qed.

Lemma lready_tail start h hs a : lready start (h :: hs) a → lready start hs a ∧ h ∉ hs.
Proof.
  intros [H1 H2 H3]. apply NoDup_cons in H3 as [H3 H4]. split; [|done]. split; [done| |done].
  intros h' Hh'. apply H2. by right.
Qed.

Lemma lready_refs start h n hs a :
  lready start (h :: hs) a → is_Some (bs_refs a !! h) → lready start hs (set_refs h n a).
Proof.
  intros Hl Hs. destruct (lr_home _ _ _ Hl h ltac:(by left)) as [_ Hout].
  destruct (lready_tail _ _ _ _ Hl) as [[H1 H2 H3] Hn]. split; [| |done].
  - intros k Hk. assert (start + k ≠ h) as Hne by lia. split; [by apply readable_set_refs, H1|].
    destruct (set_refs_agree h n a (start + k) Hne) as (-> & _). by apply H1.
  - intros h' Hh'. split; [|by apply H2]. apply readable_set_refs; [by intros ->|done|by apply H2].
Qed.

Lemma lready_log start hs a k : lready start hs a → 0 ≤ k → k + 1 < LOGSIZE → readable 1 a (start + k + 1).
Proof. intros Hl H0 Hk. replace (start + k + 1) with (start + (k + 1)) by lia. apply Hl. lia. Qed.

(** ** Copying a block *)

Lemma wp_copy_block i n s e a src dst bs bd d (K : M W unit) (Q : unit → W → Prop) :
  at_fs i (S n) (World s e) a → loaded (ks_fs s) src bs → loaded (ks_fs s) dst bd → bd ∈ bs_locked a →
  bs_mem a !! bs = Some d →
  (∀ w', at_fs i n w' (stored bd d a) → fstep [(bd, d)] (World s e) w' → stable a (World s e) w' → wp K w' Q) →
  wp (x ← onw (getb src); onw (updb dst (fun y => y <| b_data := b_data x |>));; bwrite dst;; K) (World s e) Q.
Proof.
  intros Hat Hs Hd Hlk Hm HQ. pose proof (af_rep _ _ _ _ Hat) as Hr. cbn [w_k] in Hr.
  destruct (loaded_data _ _ _ _ _ Hr Hs) as (x & Hb & Hx & Hdev & Hbn & Hv & _ & Hd').
  rewrite Hm in Hd'. injection Hd' as ->. wp_simpl. eapply wp_getb; [exact Hx|]. wp_simpl.
  destruct (loaded_data _ _ _ _ _ Hr Hd) as (y & _ & _ & _ & _ & _ & _ & Hmd).
  pose proof (cr_locked _ _ _ Hr bd Hlk) as Hrf.
  apply (wp_set_data i (S n) s e a dst bd (fun _ => b_data x) (b_data y)); [done|done|done|done| |].
  { by eapply (bk_mem _ _ (cache_rep_block _ _ _ bs Hr)). }
  intros s1 Hat1 Hst1 Hstab1. wp_simpl.
  apply (wp_bwrite i n s1 e (put_mem bd (b_data x) a) dst bd (b_data x)); [done|by apply Hstab1|done|cbn; apply lookup_insert_eq|].
  intros w' Hat2 Hst2 Hstab2. apply HQ; [done|by eapply (fstep_trans [] [_])|].
  intros b bn Hbn' Hld. apply Hstab2; [done|by apply Hstab1].
Qed.

(** One round of the loops over the header begins by reading the block of the
    log and the home block. *)
Lemma wp_read_pair i n s e a start hs k h (K : nat → nat → M W unit) (Q : unit → W → Prop) :
  at_fs i (S (S n)) (World s e) a → log_is start hs (fs_log (ks_fs s)) → hs !! k = Some h →
  readable 1 a (start + Z.of_nat k + 1) → readable 2 a h → h ≠ start + Z.of_nat k + 1 →
  (∀ tb hb w', at_fs i n w' (got h (got (start + Z.of_nat k + 1) a)) → fstep [] (World s e) w' →
     loaded (ks_fs (w_k w')) tb (start + Z.of_nat k + 1) → loaded (ks_fs (w_k w')) hb h → wp (K tb hb) w' Q) →
  wp (bread ROOTDEV (u32 (start + Z.of_nat k + 1))) (World s e) (fun tb w1 =>
    wp (l ← onw getlog; v ← deref (lh_get (Z.of_nat k) (log_lh l)); hb ← bread (log_dev l) (u32 v); K tb hb) w1 Q).
Proof.
  intros Hat Hlg Hk Ht Hh Hne HQ. set (t := start + Z.of_nat k + 1) in *.
  pose proof (af_rep _ _ _ _ Hat) as Hr. cbn [w_k] in Hr.
  eapply wp_read; [exact Hat|exact Ht|]. intros tb [s1 e1] Hat1 Hst1 _ Hld1. cbn [w_k] in *. wp_simpl.
  pose proof (fstep_log _ _ _ _ _ Hst1 Hlg : log_is start hs (fs_log (ks_fs s1))) as Hlg1.
  rewrite (lh_get_is _ _ _ k h Hlg1 Hk). wp_simpl. rewrite (li_dev _ _ _ Hlg1).
  eapply wp_read; [exact Hat1|by eapply readable_got|]. intros hb w2 Hat2 Hst2 Hstab2 Hld2.
  apply HQ; [done|by eapply (fstep_trans [] [])| |done]. apply Hstab2; [|done].
  by rewrite (got_refs _ _ _ t Hr).
Qed.

(** ** [write_log] *)

Fixpoint log_writes (t : Z) (ds : list (list Z)) : list (Z * list Z) :=
  match ds with [] => [] | d :: ds => (t, d) :: log_writes (t + 1) ds end.
Definition store_all (tr : list (Z * list Z)) (a : bstore) : bstore := foldl (fun a p => stored p.1 p.2 a) a tr.

(** The cached contents of the blocks [hs]. *)
Definition contents (a : bstore) : list Z → list (list Z) → Prop := Forall2 (fun h d => bs_mem a !! h = Some d).

Lemma contents_stored a bn d hs ds : bn ∉ hs → contents a hs ds → contents (stored bn d a) hs ds.
Proof.
  intros Hn H. induction H as [|h d' hs ds Hd _ IH]; [constructor|]. apply not_elem_of_cons in Hn as [Hne Hn].
  constructor; [|by apply IH]. cbn. by rewrite lookup_insert_ne.
Qed.

(** The end of a round of [write_log]. *)
Lemma wp_log_block i n s e a t h tb hb d (K : M W unit) (Q : unit → W → Prop) :
  at_fs i (S n) (World s e) (got h (got t a)) → counts a → h ≠ t →
  loaded (ks_fs s) tb t → loaded (ks_fs s) hb h →
  bs_mem a !! h = Some d → 0 < refs a h → readable 1 a t → readable 2 a h →
  (∀ w', at_fs i n w' (stored t d a) → fstep [(t, d)] (World s e) w' → wp K w' Q) →
  wp (fb ← onw (getb hb); onw (updb tb (fun x => x <| b_data := b_data fb |>));; bwrite tb;;
      onw (brelse hb);; onw (brelse tb);; K) (World s e) Q.
Proof.
  intros Hat Hc Hne Htb Hhb Hd Hpin [_ _ Ht1 _ Ht2] [_ _ Hh1 _ Hh2] HQ.
  assert (t ∈ bs_locked (got h (got t a))) as Htl by (apply locked_got; right; apply got_locked).
  eapply (wp_copy_block i _ s e _ hb tb h t d); [exact Hat|exact Hhb|exact Htb|exact Htl|exact Hd|].
  intros [s3 e3] Hat3 Hst3 Hstab3. cbn [w_k] in *. wp_simpl.
  assert (∀ bn, bn ∈ bs_locked (got h (got t a)) → is_Some (bs_refs (got h (got t a)) !! bn)) as Hlk
    by (intros bn; apply (cr_locked _ _ _ (af_rep _ _ _ _ Hat))).
  assert (refs (got h (got t a)) h = refs a h + 1) as Rh.
  { rewrite refs_got, decide_True, refs_got, decide_False by done. done. }
  eapply (wp_brelse i n s3 e3 _ hb h); [exact Hat3|apply loaded_holds, Hstab3, Hhb; apply Hlk, got_locked| | | |].
  { apply got_locked. }
  { change (refs (got h (got t a)) h < 2 ^ 32). lia. }
  { left. change (1 < refs (got h (got t a)) h). lia. }
  intros s4 Hat4 Hst4 Hstab4. wp_simpl.
  change (released h _) with (stored t d (released h (got h (got t a)))) in Hat4.
  rewrite (released_got (got t a) h) in Hat4;
    [|by apply counts_got|by rewrite locked_got; intros [?|?]].
  assert (refs (got t a) t = refs a t + 1) as Rt by (by rewrite refs_got, decide_True).
  eapply (wp_brelse i n s4 e3 _ tb t); [exact Hat4| | | | |].
  { apply loaded_holds, Hstab4, Hstab3; [|by apply Hlk|done]. by apply Hlk. }
  { apply got_locked. }
  { change (refs (got t a) t < 2 ^ 32). lia. }
  { right. cbn. by rewrite !lookup_insert_eq. }
  intros s5 Hat5 Hst5 _.
  change (released t _) with (stored t d (released t (got t a))) in Hat5. rewrite released_got in Hat5 by done.
  apply HQ; [exact Hat5|]. eapply (fstep_trans [_] []); [exact Hst3|]. by eapply (fstep_trans [] []).
Qed.

Lemma wp_write_log_loop i n s e a start hs pre rest ds fuel (Q : unit → W → Prop) :
  at_fs i (3 * length rest + n) (World s e) a → log_is start hs (fs_log (ks_fs s)) → lready start rest a →
  contents a rest ds → (∀ h, h ∈ rest → 0 < refs a h) →
  hs = pre ++ rest → Z.of_nat (length hs) < LOGSIZE → (length rest < fuel)%nat →
  (∀ w', at_fs i n w' (store_all (log_writes (start + Z.of_nat (length pre) + 1) ds) a) →
     fstep (log_writes (start + Z.of_nat (length pre) + 1) ds) (World s e) w' → Q tt w') →
  wp (write_log_loop fuel (Z.of_nat (length pre))) (World s e) Q.
Proof.
  revert s e a pre ds fuel. induction rest as [|h rest IH];
    intros s e a pre ds fuel Hat Hlg Hl Hds Hpin Hhs Hlen Hf HQ; (destruct fuel as [|fuel]; [cbn in Hf; lia|]);
    cbn [write_log_loop]; wp_simpl; rewrite (li_n _ _ _ Hlg), Hhs, length_app; cbn [length].
  - rewrite (proj2 (Z.ltb_ge _ _)) by lia. cbn [negb]. wp_simpl. inversion Hds; subst. apply HQ; [exact Hat|apply fstep_refl].
  - rewrite (proj2 (Z.ltb_lt _ _)) by lia. cbn [negb]. wp_simpl.
    apply Forall2_cons_inv_l in Hds as (d & ds' & Hd & Hds & ->).
    pose proof Hlen as Hlen'. rewrite Hhs, length_app in Hlen'. cbn in Hf, Hlen'.
    rewrite (li_dev _ _ _ Hlg), (li_start _ _ _ Hlg).
    replace (3 * length (h :: rest) + n)%nat with (S (S (S (3 * length rest + n)))) in Hat by (cbn; lia).
    pose proof (rep_counts _ _ _ (af_rep _ _ _ _ Hat)) as Hc.
    assert (readable 1 a (start + Z.of_nat (length pre) + 1)) as Ht by (apply (lready_log _ _ _ _ Hl); lia).
    destruct (lr_home _ _ _ Hl h ltac:(by left)) as [Hh Hout].
    assert (h ≠ start + Z.of_nat (length pre) + 1) as Hne by lia.
    eapply (wp_read_pair i _ s e a start hs (length pre) h);
      [exact Hat|exact Hlg|rewrite Hhs; by apply list_lookup_middle|exact Ht|exact Hh|exact Hne|].
    intros tb hb [s1 e1] Hat1 Hst1 Htb Hhb. set (t := start + Z.of_nat (length pre) + 1) in *. cbn [w_k] in *.
    eapply (wp_log_block i _ s1 e1 a t h tb hb d); [exact Hat1|done|done|done|done|done|by apply Hpin; left|done|done|].
    intros [s2 e2] Hat2 Hst2.
    replace (Z.of_nat (length pre) + 1) with (Z.of_nat (length (pre ++ [h]))) by (rewrite length_app; cbn; lia).
    eapply (IH s2 e2 (stored t d a) (pre ++ [h]) ds'); [exact Hat2| | | | |by rewrite <- app_assoc|done|lia|].
    + exact (fstep_log _ _ _ _ _ Hst2 (fstep_log _ _ _ _ _ Hst1 Hlg)).
    + apply lready_stored. by eapply lready_tail.
    + apply contents_stored; [|exact Hds]. intros Ht'. destruct (lr_home _ _ _ Hl t ltac:(by right)) as [_ []]. lia.
    + intros h' Hh'. apply Hpin. by right.
    + replace (start + Z.of_nat (length (pre ++ [h])) + 1) with (t + 1) by (rewrite length_app; cbn; lia).
      intros w' Hat3 Hst3. apply HQ; [exact Hat3|]. eapply (fstep_trans [] (_ :: _)); [exact Hst1|].
      by eapply (fstep_trans [_] _).
Qed.

(** ** [install_trans] *)

(** The count that [log_write] added is taken back, except in recovery. *)
Definition unpin (recovering : bool) (bn : Z) (a : bstore) : bstore :=
  if recovering then a else set_refs bn (refs a bn - 1) a.

Lemma install_eq recovering a t h d :
  counts a → h ≠ t → t ∉ bs_locked a → h ∉ bs_locked a → (recovering = false → 0 < refs a h) →
  released h (released t (unpin recovering h (stored h d (got h (got t a))))) = stored h d (unpin recovering h a).
Proof.
  intros Hc Hne Ht Hh Hpin. destruct (counts_refs a t Hc) as [Pt _], (counts_refs a h Hc) as [Ph _].
  assert (∀ bn, refs (stored h d (got h (got t a))) bn =
    refs a bn + (if decide (h = bn) then 1 else 0) + (if decide (t = bn) then 1 else 0)) as Rg.
  { intros bn. change (refs (got h (got t a)) bn = refs a bn + (if decide (h = bn) then 1 else 0) +
      (if decide (t = bn) then 1 else 0)). rewrite !refs_got. repeat case_decide; subst; try done; lia. }
  assert (counts (stored h d (got h (got t a)))) as Cg by (by apply counts_got, counts_got).
  apply bstore_eq.
  - unfold released at 1. apply counts_set; [|unfold released; apply counts_set].
    + rewrite refs_released. destruct recovering; cbn [unpin]; rewrite ?refs_set, !Rg;
        repeat case_decide; subst; try done; lia.
    + destruct recovering; cbn [unpin]; rewrite ?refs_set, !Rg; repeat case_decide; subst; try done; lia.
    + destruct recovering; cbn [unpin]; [done|]. apply counts_set; [|done]. rewrite Rg.
      repeat case_decide; subst; try done; lia.
  - destruct recovering; cbn [unpin]; [done|]. apply (counts_set h (refs a h - 1) a); [|done]. specialize (Hpin eq_refl). lia.
  - by destruct recovering.
  - by destruct recovering.
  - intros bn. rewrite !refs_released. change (refs (stored h d (unpin recovering h a)) bn) with (refs (unpin recovering h a) bn).
    destruct recovering; cbn [unpin]; rewrite ?refs_set, ?Rg; repeat case_decide; subst; try done; lia.
  - intros bn. rewrite !locked_released. assert (bn ∈ bs_locked (unpin recovering h (stored h d (got h (got t a)))) ↔
      bn ∈ bs_locked (got h (got t a))) as -> by (by destruct recovering).
    assert (bs_locked (stored h d (unpin recovering h a)) = bs_locked a) as -> by (by destruct recovering).
    rewrite !locked_got. naive_solver.
Qed.

Lemma wp_unpin recovering i n s e a b bn (K : M W unit) (Q : unit → W → Prop) :
  at_fs i n (World s e) a → loaded (ks_fs s) b bn → (recovering = false → 1 < refs a bn) → refs a bn < 2 ^ 32 →
  (∀ s', at_fs i n (World s' e) (unpin recovering bn a) → fstep [] (World s e) (World s' e) →
     stable a (World s e) (World s' e) → wp K (World s' e) Q) →
  wp (when (negb recovering) (onw (bunpin b));; K) (World s e) Q.
Proof.
  intros Hat Hld H1 H2 HQ. destruct recovering; cbn [negb unpin] in *; wp_simpl.
  - apply HQ; [done|apply fstep_refl|by intros ??].
  - apply (wp_bunpin i n s e a b bn); [done|by apply loaded_holds|split; [by apply H1|done]|exact HQ].
Qed.

(** The end of a round of [install_trans]. *)
Lemma wp_install_block recovering i n s e a t h tb hb d (K : M W unit) (Q : unit → W → Prop) :
  at_fs i (S n) (World s e) (got h (got t a)) → counts a → h ≠ t →
  loaded (ks_fs s) tb t → loaded (ks_fs s) hb h → bs_mem a !! t = Some d → bs_disk a !! t = Some d →
  (recovering = false → 0 < refs a h) → readable 1 a t → readable 2 a h →
  (∀ w', at_fs i n w' (stored h d (unpin recovering h a)) → fstep [(h, d)] (World s e) w' → wp K w' Q) →
  wp (lb ← onw (getb tb); onw (updb hb (fun x => x <| b_data := b_data lb |>));; bwrite hb;;
      when (negb recovering) (onw (bunpin hb));; onw (brelse tb);; onw (brelse hb);; K) (World s e) Q.
Proof.
  intros Hat Hc Hne Htb Hhb Hd Hdk Hpin [_ _ Ht1 _ Ht2] [_ _ Hh1 _ Hh2] HQ.
  assert (t ∈ bs_locked (got h (got t a))) as Htl by (apply locked_got; right; apply got_locked).
  assert (refs (got h (got t a)) h = refs a h + 1) as Rh
    by (rewrite refs_got, decide_True, refs_got, decide_False by done; done).
  assert (refs (got h (got t a)) t = refs a t + 1) as Rt
    by (rewrite refs_got, decide_False, refs_got, decide_True by done; done).
  assert (∀ bn, bn ∈ bs_locked (got h (got t a)) → is_Some (bs_refs (got h (got t a)) !! bn)) as Hlk
    by (intros bn; apply (cr_locked _ _ _ (af_rep _ _ _ _ Hat))).
  eapply (wp_copy_block i _ s e _ tb hb t h d); [exact Hat|exact Htb|exact Hhb|apply got_locked|exact Hd|].
  intros [s3 e3] Hat3 Hst3 Hstab3. cbn [w_k] in *.
  apply (wp_unpin recovering i n s3 e3 (stored h d (got h (got t a))) hb h); [done| | | |].
  { apply Hstab3; [by apply Hlk, got_locked|done]. }
  { intros Hrec. change (1 < refs (got h (got t a)) h). specialize (Hpin Hrec). lia. }
  { change (refs (got h (got t a)) h < 2 ^ 32). lia. }
  intros s4 Hat4 Hst4 Hstab4. wp_simpl. set (a4 := unpin recovering h (stored h d (got h (got t a)))) in *.
  assert (bs_locked a4 = bs_locked (got h (got t a))) as L4 by (by unfold a4; destruct recovering).
  assert (∀ bn, bn ∈ bs_locked a4 → is_Some (bs_refs a4 !! bn)) as Hlk4
    by (intros bn; apply (cr_locked _ _ _ (af_rep _ _ _ _ Hat4))).
  assert (∀ bn, refs a4 bn ≤ refs (got h (got t a)) bn) as R4.
  { intros bn. unfold a4. destruct recovering; cbn [unpin]; [done|]. rewrite refs_set.
    change (refs (stored h d (got h (got t a)))) with (refs (got h (got t a))). case_decide; subst; lia. }
  eapply (wp_brelse i n s4 e3 a4 tb t); [exact Hat4| | | | |].
  { apply loaded_holds, Hstab4; [by apply Hlk|]. apply Hstab3; [by apply Hlk|done]. }
  { by rewrite L4. }
  { specialize (R4 t). lia. }
  { right. unfold a4. destruct recovering; cbn; by rewrite !lookup_insert_ne, Hd, Hdk. }
  intros s5 Hat5 Hst5 Hstab5. wp_simpl.
  eapply (wp_brelse i n s5 e3 _ hb h); [exact Hat5| | | | |].
  { apply loaded_holds, Hstab5; [apply Hlk4; rewrite L4; apply got_locked|]. apply Hstab4; [by apply Hlk, got_locked|].
    apply Hstab3; [by apply Hlk, got_locked|done]. }
  { rewrite locked_released, L4. split; [done|apply got_locked]. }
  { rewrite refs_released, decide_False by done. specialize (R4 h). lia. }
  { right. unfold a4. destruct recovering; cbn; by rewrite !lookup_insert_eq. }
  intros s6 Hat6 Hst6 _. unfold a4 in Hat6. rewrite install_eq in Hat6 by done.
  apply HQ; [exact Hat6|]. eapply (fstep_trans [_] []); [exact Hst3|]. eapply (fstep_trans [] []); [exact Hst4|].
  by eapply (fstep_trans [] []).
Qed.

Definition install (recovering : bool) (tr : list (Z * list Z)) (a : bstore) : bstore :=
  foldl (fun a p => stored p.1 p.2 (unpin recovering p.1 a)) a tr.

Lemma lready_unpin recovering start h hs d a :
  lready start (h :: hs) a → (recovering = false → 0 < refs a h) → counts a →
  lready start hs (stored h d (unpin recovering h a)).
Proof.
  intros Hl Hpin Hc. apply lready_stored. destruct recovering; cbn [unpin]; [by eapply lready_tail|].
  apply lready_refs; [done|]. destruct (counts_refs a h Hc) as [_ Hz]. specialize (Hpin eq_refl).
  unfold refs in Hpin. destruct (bs_refs a !! h); cbn in *; [by eexists|lia].
Qed.

Lemma wp_install_trans_loop recovering i n s e a start hs pre rest ds fuel (Q : unit → W → Prop) :
  at_fs i (3 * length rest + n) (World s e) a → log_is start hs (fs_log (ks_fs s)) → lready start rest a →
  contents a (seqZ (start + Z.of_nat (length pre) + 1) (Z.of_nat (length ds))) ds → length ds = length rest →
  (recovering = false → ∀ h, h ∈ rest → 0 < refs a h) →
  hs = pre ++ rest → Z.of_nat (length hs) < LOGSIZE → (length rest < fuel)%nat →
  (∀ w', at_fs i n w' (install recovering (zip rest ds) a) → fstep (zip rest ds) (World s e) w' → Q tt w') →
  wp (install_trans_loop fuel recovering (Z.of_nat (length pre))) (World s e) Q.
Proof.
  revert s e a pre ds fuel. induction rest as [|h rest IH];
    intros s e a pre ds fuel Hat Hlg Hl Hds Hdl Hpin Hhs Hlen Hf HQ; (destruct fuel as [|fuel]; [cbn in Hf; lia|]);
    cbn [install_trans_loop]; wp_simpl; rewrite (li_n _ _ _ Hlg), Hhs, length_app; cbn [length].
  - rewrite (proj2 (Z.ltb_ge _ _)) by lia. cbn [negb]. wp_simpl. apply HQ; [exact Hat|apply fstep_refl].
  - rewrite (proj2 (Z.ltb_lt _ _)) by lia. cbn [negb]. wp_simpl. destruct ds as [|d ds]; [done|].
    rewrite seqZ_cons in Hds by (cbn; lia). apply Forall2_cons_1 in Hds as [Hd Hds].
    pose proof Hlen as Hlen'. rewrite Hhs, length_app in Hlen'. cbn in Hf, Hlen', Hdl.
    rewrite (li_dev _ _ _ Hlg), (li_start _ _ _ Hlg).
    replace (3 * length (h :: rest) + n)%nat with (S (S (S (3 * length rest + n)))) in Hat by (cbn; lia).
    pose proof (af_rep _ _ _ _ Hat) as Hr. pose proof (rep_counts _ _ _ Hr) as Hc.
    assert (readable 1 a (start + Z.of_nat (length pre) + 1)) as Ht by (apply (lready_log _ _ _ _ Hl); lia).
    destruct (lr_home _ _ _ Hl h ltac:(by left)) as [Hh Hout].
    assert (h ≠ start + Z.of_nat (length pre) + 1) as Hne by lia.
    assert (bs_disk a !! (start + Z.of_nat (length pre) + 1) = Some d) as Hdk.
    { rewrite <- Hd. symmetry. apply (cr_clean _ _ _ Hr).
      replace (start + Z.of_nat (length pre) + 1) with (start + (Z.of_nat (length pre) + 1)) by lia. apply Hl. lia. }
    eapply (wp_read_pair i _ s e a start hs (length pre) h);
      [exact Hat|exact Hlg|rewrite Hhs; by apply list_lookup_middle|exact Ht|exact Hh|exact Hne|].
    intros tb hb [s1 e1] Hat1 Hst1 Htb Hhb. set (t := start + Z.of_nat (length pre) + 1) in *. cbn [w_k] in *.
    eapply (wp_install_block recovering i _ s1 e1 a t h tb hb d); [exact Hat1|done..|by intros ?; apply Hpin; [|left]|done|done|].
    intros [s2 e2] Hat2 Hst2.
    replace (Z.of_nat (length pre) + 1) with (Z.of_nat (length (pre ++ [h]))) by (rewrite length_app; cbn; lia).
    eapply (IH s2 e2 (stored h d (unpin recovering h a)) (pre ++ [h]) ds);
      [exact Hat2| | | |lia| |by rewrite <- app_assoc|done|lia|].
    + exact (fstep_log _ _ _ _ _ Hst2 (fstep_log _ _ _ _ _ Hst1 Hlg)).
    + apply lready_unpin; [done|by intros ?; apply Hpin; [|left]|done].
    + apply contents_stored.
      * rewrite elem_of_seqZ, length_app. cbn. lia.
      * replace (start + Z.of_nat (length (pre ++ [h])) + 1) with (Z.succ t) by (rewrite length_app; cbn; lia).
        replace (Z.of_nat (length ds)) with (Z.pred (Z.of_nat (length (d :: ds)))) by (cbn; lia).
        destruct recovering; exact Hds.
    + intros Hrec h' Hh'. destruct (lready_tail _ _ _ _ Hl) as [_ Hnin]. destruct recovering; [done|].
      change (0 < refs (set_refs h (refs a h - 1) a) h'). rewrite refs_set, decide_False by (by intros ->).
      apply Hpin; [done|by right].
    + intros w' Hat3 Hst3. apply HQ; [exact Hat3|]. eapply (fstep_trans [] (_ :: _)); [exact Hst1|].
      by eapply (fstep_trans [_] _).
Qed.

(** ** Changes of the log's own record *)

(** Like [fstep], but the in-memory log may change. *)
Record lstep (tr : list (Z * list Z)) (w w' : W) : Prop := {
  lt_frame : frame (w_k w) (w_k w');
  lt_sb : fs_sb (ks_fs (w_k w')) = fs_sb (ks_fs (w_k w));
  lt_inode : fs_inode (ks_fs (w_k w')) = fs_inode (ks_fs (w_k w));
  lt_file : fs_file (ks_fs (w_k w')) = fs_file (ks_fs (w_k w));
  lt_pipe : fs_pipe (ks_fs (w_k w')) = fs_pipe (ks_fs (w_k w));
  lt_trace : dk_trace (fs_disk (ks_fs (w_k w'))) = dk_trace (fs_disk (ks_fs (w_k w))) ++ tr
}.

Lemma fstep_lstep tr w w' : fstep tr w w' → lstep tr w w'.
Proof. intros [H1 [H2 H3 H4 H5 H6] H7]. by split. Qed.

Lemma lstep_trans tr tr' w1 w2 w3 : lstep tr w1 w2 → lstep tr' w2 w3 → lstep (tr ++ tr') w1 w3.
Proof.
  intros [A1 A2 A3 A4 A5 A6] [B1 B2 B3 B4 B5 B6].
  split; try congruence; [by etrans|]. by rewrite B6, A6, app_assoc.
Qed.

Lemma at_fs_log i n s e a f : at_fs i n (World s e) a → at_fs i n (World (fsk (upd_log f) s) e) a.
Proof.
  intros [H1 H2 H3 H4]. split; [by apply (quiet_frame i s); [apply frame_fsk|]| |done|done].
  destruct H2 as [R1 R2 R3 R4 R5 R6 R7 R8 R9 R10]. by split.
Qed.

Lemma lstep_log s e f : lstep [] (World s e) (World (fsk (upd_log f) s) e).
Proof. split; cbn; [apply frame_fsk|done..|by rewrite app_nil_r]. Qed.

Definition head_is (d hs : list Z) : Prop :=
  head_n d = Z.of_nat (length hs) ∧ ∀ k h, hs !! k = Some h → head_block d k = h.

(** The header that the end of a commit writes lists nothing. *)
Lemma head_erased hs d : (length hs ≤ 30)%nat → block_ok d → head_is (enc_head [] (enc_head hs d)) [].
Proof.
  intros Hl Hd. apply (enc_head_decode [] (enc_head hs d)); [cbn; lia| |done]. apply block_ok_enc; [cbn; lia|].
  apply block_ok_put; [lia|lia|unfold BSIZE; lia|done].
Qed.

(** ** [read_head] *)

Fixpoint fill (k : nat) (hs bl : list Z) : list Z :=
  match hs with [] => bl | h :: hs => fill (S k) hs (<[k := h]> bl) end.

Lemma fill_spec k hs bl : (k + length hs ≤ length bl)%nat →
  length (fill k hs bl) = length bl ∧ take (k + length hs) (fill k hs bl) = take k bl ++ hs.
Proof.
  revert k bl. induction hs as [|h hs IH]; intros k bl Hl; cbn [fill length] in *.
  - by rewrite Nat.add_0_r, app_nil_r.
  - destruct (IH (S k) (<[k := h]> bl)) as [IH1 IH2]; [by rewrite length_insert; lia|].
    rewrite length_insert in IH1. split; [done|]. rewrite Nat.add_succ_r, <- Nat.add_succ_l, IH2.
    rewrite (take_S_r _ k h) by (apply list_lookup_insert_eq; lia).
    by rewrite take_insert_ge, <- app_assoc by lia.
Qed.

Definition set_blocks (k : nat) (hs : list Z) (l : log) : log :=
  l <| log_lh ::= fun lh => lh <| lh_block ::= fill k hs |> |>.

Lemma fsk_id g s : g (ks_fs s) = ks_fs s → fsk g s = s.
Proof. intros H. destruct s. unfold fsk, setf. cbn in *. by rewrite H. Qed.

Lemma wp_read_head_loop s buf x d hs pre rest fuel (Q : unit → KS → Prop) :
  fs_buf (ks_fs s) !! buf = Some x → b_data x = d → head_is d hs →
  lh_n (log_lh (fs_log (ks_fs s))) = Z.of_nat (length hs) →
  length (lh_block (log_lh (fs_log (ks_fs s)))) = Z.to_nat LOGSIZE → (length hs ≤ Z.to_nat LOGSIZE)%nat →
  hs = pre ++ rest → (length rest < fuel)%nat →
  Q tt (fsk (upd_log (set_blocks (length pre) rest)) s) →
  wp (read_head_loop fuel buf (Z.of_nat (length pre))) s Q.
Proof.
  revert s pre fuel. induction rest as [|h rest IH]; intros s pre fuel Hx Hd Hh Hn Hlen Hhl Hhs Hf HQ;
    (destruct fuel as [|fuel]; [cbn in Hf; lia|]); cbn [read_head_loop]; wp_simpl;
    rewrite Hn, Hhs, length_app; cbn [length].
  - rewrite (proj2 (Z.ltb_ge _ _)) by lia. cbn [negb]. wp_simpl.
    rewrite fsk_id in HQ; [done|]. by destruct (ks_fs s) as [? [? ? ? ? ? []] ? ? ? ? ? ?].
  - rewrite (proj2 (Z.ltb_lt _ _)) by lia. cbn [negb]. wp_simpl. eapply wp_getb; [exact Hx|]. wp_simpl.
    rewrite Hd. change (i32 (get_at (4 + 4 * Z.of_nat (length pre)) 4 d)) with (head_block d (length pre)).
    rewrite (proj2 Hh (length pre) h) by (rewrite Hhs; by apply list_lookup_middle).
    unfold lh_set. wp_simpl. unfold lh_get. destruct (Z.ltb_spec (Z.of_nat (length pre)) 0); [lia|].
    rewrite Nat2Z.id. pose proof Hhl as Hhl'. rewrite Hhs, length_app in Hhl'. cbn in Hhl', Hf.
    destruct (lookup_lt_is_Some_2 (lh_block (log_lh (fs_log (ks_fs s)))) (length pre)) as [v Hv]; [lia|].
    rewrite Hv. wp_simpl.
    replace (Z.of_nat (length pre) + 1) with (Z.of_nat (length (pre ++ [h]))) by (rewrite length_app; cbn; lia).
    apply IH; cbn; [done|done|done|done|by rewrite length_insert|done|by rewrite <- app_assoc|lia|].
    rewrite length_app, Nat.add_1_r. exact HQ.
Qed.

Lemma wp_read_head i n s e a start d hs (Q : unit → W → Prop) :
  at_fs i (S n) (World s e) a → log_dev (fs_log (ks_fs s)) = ROOTDEV → log_start (fs_log (ks_fs s)) = start →
  length (lh_block (log_lh (fs_log (ks_fs s)))) = Z.to_nat LOGSIZE → (length hs ≤ Z.to_nat LOGSIZE)%nat →
  readable 1 a start → bs_refs a !! start = None → bs_mem a !! start = Some d → head_is d hs →
  (∀ w', at_fs i n w' a → lstep [] (World s e) w' → log_is start hs (fs_log (ks_fs (w_k w'))) → Q tt w') →
  wp read_head (World s e) Q.
Proof.
  intros Hat Hdev Hst Hlen Hhl Hrd Hnr Hm Hh HQ. unfold read_head. wp_simpl. rewrite Hdev, Hst.
  eapply wp_read; [exact Hat|exact Hrd|]. intros buf [s1 e1] Hat1 Hst1 _ Hld1. cbn [w_k] in *. wp_simpl.
  pose proof (af_rep _ _ _ _ Hat) as Hr. pose proof (af_rep _ _ _ _ Hat1) as Hr1. cbn [w_k] in *.
  destruct (loaded_data _ _ _ _ _ Hr1 Hld1) as (x & _ & Hx & _ & _ & _ & _ & Hd).
  change (bs_mem (got start a) !! start) with (bs_mem a !! start) in Hd. rewrite Hm in Hd. injection Hd as ->.
  pose proof (kp_log _ _ (ft_kept _ _ _ Hst1)) as Hlog. cbn in Hlog.
  eapply wp_getb; [exact Hx|]. wp_simpl. set (s2 := fsk _ s1).
  eapply (wp_read_head_loop s2 buf x (b_data x) hs [] hs); [exact Hx|done|exact Hh|apply Hh| |done|done| |].
  { unfold s2. cbn. by rewrite Hlog. }
  { change log_rounds with (S (Z.to_nat LOGSIZE)). lia. }
  wp_simpl. set (s3 := fsk _ s2).
  assert (at_fs i n (World s3 e1) (got start a)) as Hat3 by (by apply at_fs_log, at_fs_log).
  eapply (wp_brelse i n s3 e1 _ buf start); [exact Hat3|exact (loaded_holds _ _ _ Hld1)|apply got_locked| | |].
  { rewrite refs_got, decide_True by done. apply Hrd. }
  { right. by apply (cr_clean _ _ _ Hr). }
  intros s4 Hat4 Hst4 _. rewrite released_got in Hat4 by (apply Hrd || by eapply rep_counts).
  apply HQ; [done| |].
  - eapply (lstep_trans [] []); [by apply fstep_lstep|]. eapply (lstep_trans [] []); [apply lstep_log|].
    eapply (lstep_trans [] []); [apply lstep_log|]. by apply fstep_lstep.
  - apply (fstep_log _ _ _ _ _ Hst4). unfold s3, s2. cbn. rewrite Hlog.
    destruct (fill_spec 0 hs (lh_block (log_lh (fs_log (ks_fs s))))) as [F1 F2]; [cbn; lia|].
    split; cbn; [done|done|apply Hh|by rewrite F1|exact F2].
Qed.

End log.
