(* ===== verification/LogCommit.v ===== *)
(** * Commit and crash recovery (kernel/log.c)

    [commit] writes the transaction to the log, then the header, then the home
    blocks, then the empty header.  A crash leaves the disk after some prefix
    of these writes; [recover_from_log] then installs all of the transaction
    or none of it. *)

From Stdlib Require Import ZArith Lia.
From stdpp Require Import base gmap strings numbers list.
From S2P Require Import Prelude Spinlock Mem Kstring Kalloc Vm Proc ProcFacts ProcOps Sched FsState Sleeplock FsFacts Bio BioFacts BioOps Log LogFacts.
Local Open Scope xv6_scope.

(** ** Writes *)

Fixpoint replay (tr : list (Z * list Z)) (d : gmap Z (list Z)) : gmap Z (list Z) :=
  match tr with [] => d | p :: tr => replay tr (<[p.1 := p.2]> d) end.

Lemma replay_app tr tr' d : replay (tr ++ tr') d = replay tr' (replay tr d).
Proof. revert d. induction tr as [|p tr IH]; intros d; [done|apply IH]. Qed.

Lemma replay_out tr d bn : bn ∉ tr.*1 → replay tr d !! bn = d !! bn.
Proof.
  revert d. induction tr as [|[t x] tr IH]; intros d Hn; [done|]. cbn in *.
  apply not_elem_of_cons in Hn as [Hne Hn]. rewrite IH by done. by rewrite lookup_insert_ne.
Qed.

Lemma replay_in tr d bn x : NoDup tr.*1 → (bn, x) ∈ tr → replay tr d !! bn = Some x.
Proof.
  revert d. induction tr as [|[t y] tr IH]; intros d Hnd Hin; [by apply elem_of_nil in Hin|]. cbn in *.
  apply NoDup_cons in Hnd as [Hn Hnd]. apply elem_of_cons in Hin as [[= -> ->]|Hin]; [|by apply IH].
  rewrite replay_out by done. apply lookup_insert_eq.
Qed.

Lemma log_writes_fst t ds : (log_writes t ds).*1 = seqZ t (Z.of_nat (length ds)).
Proof.
  revert t. induction ds as [|d ds IH]; intros t; [done|]. cbn [log_writes fmap list_fmap fst length].
  rewrite (seqZ_cons t) by lia. f_equal. rewrite IH. f_equal; lia.
Qed.

Lemma log_writes_nth t ds k d : ds !! k = Some d → (t + Z.of_nat k, d) ∈ log_writes t ds.
Proof.
  revert t k. induction ds as [|d' ds IH]; intros t [|k] Hk; [done|done| |]; cbn in *.
  - injection Hk as ->. rewrite Z.add_0_r. by left.
  - right. replace (t + Z.of_nat (S k)) with (t + 1 + Z.of_nat k) by lia. by apply IH.
Qed.

Lemma log_writes_length t ds : length (log_writes t ds) = length ds.
Proof. revert t. induction ds as [|d ds IH]; intros t; cbn; [done|by rewrite IH]. Qed.

(** The log region after the log has been written. *)
Lemma replay_log_contents t ds d k x :
  ds !! k = Some x → replay (log_writes t ds) d !! (t + Z.of_nat k) = Some x.
Proof.
  intros Hk. apply replay_in; [rewrite log_writes_fst; apply NoDup_seqZ|by apply log_writes_nth].
Qed.

(** ** The store *)

Lemma store_all_spec tr a :
  bs_disk (store_all tr a) = replay tr (bs_disk a) ∧ bs_mem (store_all tr a) = replay tr (bs_mem a) ∧
  bs_refs (store_all tr a) = bs_refs a ∧ bs_locked (store_all tr a) = bs_locked a.
Proof.
  revert a. induction tr as [|[t x] tr IH]; intros a; [done|].
  destruct (IH (stored t x a)) as (H1 & H2 & H3 & H4). done.
Qed.

Lemma install_spec recovering tr a :
  bs_disk (install recovering tr a) = replay tr (bs_disk a) ∧ bs_mem (install recovering tr a) = replay tr (bs_mem a) ∧
  bs_locked (install recovering tr a) = bs_locked a.
Proof.
  revert a. induction tr as [|[t x] tr IH]; intros a; [done|].
  destruct (IH (stored t x (unpin recovering t a))) as (H1 & H2 & H3). by destruct recovering.
Qed.

(** Installing drops the counts of the transaction's blocks. *)
Lemma install_refs recovering tr a bn : NoDup tr.*1 →
  refs (install recovering tr a) bn =
    if recovering then refs a bn else refs a bn - (if decide (bn ∈ tr.*1) then 1 else 0).
Proof.
  revert a. induction tr as [|[t x] tr IH]; intros a Hnd.
  { cbn. destruct recovering; [done|]. rewrite decide_False by apply not_elem_of_nil. lia. }
  cbn in Hnd. apply NoDup_cons in Hnd as [Hn Hnd].
  change (install recovering ((t, x) :: tr) a) with (install recovering tr (stored t x (unpin recovering t a))).
  rewrite IH by done. destruct recovering; [done|].
  change (refs (stored t x (unpin false t a)) bn) with (refs (set_refs t (refs a t - 1) a) bn).
  rewrite refs_set. cbn [fst fmap list_fmap].
  destruct (decide (t = bn)) as [->|Hne].
  - rewrite decide_False by done. rewrite decide_True by (by left). lia.
  - destruct (decide (bn ∈ tr.*1)) as [Hin|Hin].
    + rewrite decide_True by (by right). done.
    + rewrite decide_False; [done|]. intros [->|?]%elem_of_cons; done.
Qed.

Lemma lready_store_all `{DO : DiskOps} start hs tr a : lready start hs a → lready start hs (store_all tr a).
Proof. revert a. induction tr as [|p tr IH]; intros a Hl; [done|]. by apply IH, lready_stored. Qed.

Lemma counts_unpin recovering bn d a : counts a → (recovering = false → 0 < refs a bn) →
  counts (stored bn d (unpin recovering bn a)).
Proof.
  intros Hc Hpin. destruct recovering; [done|]. apply (counts_set bn (refs a bn - 1) a); [|done].
  specialize (Hpin eq_refl). lia.
Qed.

Lemma lready_install recovering start hs ds a :
  lready start hs a → counts a → (recovering = false → ∀ h, h ∈ hs → 0 < refs a h) → length ds = length hs →
  lready start [] (install recovering (zip hs ds) a).
Proof.
  revert a ds. induction hs as [|h hs IH]; intros a [|d ds] Hl Hc Hpin Hlen; [done|done|done|].
  change (install recovering (zip (h :: hs) (d :: ds)) a)
    with (install recovering (zip hs ds) (stored h d (unpin recovering h a))).
  assert (recovering = false → 0 < refs a h) as Hp by (intros ?; apply Hpin; [done|by left]).
  destruct (lready_tail _ _ _ _ Hl) as [_ Hn].
  apply IH; [by apply lready_unpin|by apply counts_unpin| |by injection Hlen].
  intros Hrec h' Hh'. destruct recovering; [done|].
  change (0 < refs (set_refs h (refs a h - 1) a) h'). rewrite refs_set, decide_False by (by intros ->).
  apply Hpin; [done|by right].
Qed.

Section commit.
Context `{KI : KernelImage} `{DO : DiskOps} `{DL : !DiskLaws}.
Implicit Types (w : W) (a : bstore).

(** The order of the disk writes of a commit. *)
Definition commit_trace (start : Z) (hs : list Z) (ds : list (list Z)) (d0 : list Z) : list (Z * list Z) :=
  log_writes (start + 1) ds ++ [(start, enc_head hs d0)] ++ zip hs ds ++ [(start, enc_head [] (enc_head hs d0))].

(** The log is about to commit the blocks [hs] with contents [ds]. *)
Record committing (i : nat) (w : W) (a : bstore) (start : Z) (hs : list Z) (ds : list (list Z)) (d0 : list Z) : Prop := {
  cm_log : log_is start hs (fs_log (ks_fs (w_k w)));
  cm_ready : lready start hs a;
  cm_len : Z.of_nat (length hs) < LOGSIZE;
  cm_data : contents a hs ds;
  cm_pin : ∀ h, h ∈ hs → 0 < refs a h;
  cm_head : bs_mem a !! start = Some d0
}.

Lemma contents_length a hs ds : contents a hs ds → length ds = length hs.
Proof. intros H. symmetry. by eapply Forall2_length. Qed.

Lemma lready_start start hs a : lready start hs a → readable 1 a start ∧ bs_refs a !! start = None ∧ start ∉ hs.
Proof.
  intros Hl. destruct (lr_log _ _ _ Hl 0) as [H1 H2]; [done|]. rewrite Z.add_0_r in *. split; [done|]. split; [done|].
  intros Hin. destruct (lr_home _ _ _ Hl start Hin) as [_ []]. unfold LOGSIZE, MAXOPBLOCKS. lia.
Qed.

Lemma contents_log_writes t ds a : contents (store_all (log_writes t ds) a) (seqZ t (Z.of_nat (length ds))) ds.
Proof.
  apply Forall2_same_length_lookup. split; [by rewrite length_seqZ, Nat2Z.id|].
  intros k bn d Hbn Hd. apply lookup_seqZ in Hbn as [-> _].
  destruct (store_all_spec (log_writes t ds) a) as (_ & -> & _). by apply replay_log_contents.
Qed.

Lemma elem_zip_fst (hs : list Z) (ds : list (list Z)) bn : bn ∈ (zip hs ds).*1 → bn ∈ hs.
Proof.
  intros [[h d] [-> Hin]]%list_elem_of_fmap. by apply elem_of_zip_l in Hin.
Qed.

(** The effect of [clear_head]. *)
Definition empty_log (l : log) : log := l <| log_lh ::= fun lh => lh <| lh_n := 0 |> |>.

(** The store once the header is on the disk. *)
Definition log_written (start : Z) (hs : list Z) (ds : list (list Z)) (d0 : list Z) (a : bstore) : bstore :=
  stored start (enc_head hs d0) (store_all (log_writes (start + 1) ds) a).

Lemma log_written_spec start hs ds d0 a (a2 := log_written start hs ds d0 a)
  (tr := log_writes (start + 1) ds ++ [(start, enc_head hs d0)]) :
  bs_disk a2 = replay tr (bs_disk a) ∧ bs_mem a2 = replay tr (bs_mem a) ∧
  bs_refs a2 = bs_refs a ∧ bs_locked a2 = bs_locked a ∧
  contents a2 (seqZ (start + 1) (Z.of_nat (length ds))) ds ∧ (lready start hs a → lready start hs a2).
Proof.
  destruct (store_all_spec (log_writes (start + 1) ds) a) as (D1 & M1 & R1 & L1). unfold a2, tr, log_written.
  rewrite !replay_app. cbn. rewrite D1, M1. do 4 (split; [done|]). split.
  - apply contents_stored; [|apply contents_log_writes]. rewrite elem_of_seqZ. lia.
  - intros Hl. by apply lready_stored, lready_store_all.
Qed.

Lemma wp_log_phase i n s e a start hs ds d0 (K : M W unit) (Q : unit → W → Prop) :
  at_fs i (3 * length hs + S (S n)) (World s e) a → committing i (World s e) a start hs ds d0 →
  (∀ w', at_fs i n w' (log_written start hs ds d0 a) →
     fstep (log_writes (start + 1) ds ++ [(start, enc_head hs d0)]) (World s e) w' → wp K w' Q) →
  wp (write_log;; write_head;; K) (World s e) Q.
Proof.
  intros Hat [Hlg Hl Hlen Hd Hpin Hm] HQ. cbn [w_k] in *. unfold write_log. wp_simpl.
  assert ((length hs ≤ 30)%nat) as Hlen30 by (unfold LOGSIZE, MAXOPBLOCKS in Hlen; lia).
  apply (wp_write_log_loop i _ s e a start hs [] hs ds _ _ Hat);
    [done|done|done|done|done|done|change log_rounds with 31%nat; lia|].
  cbn [length]. rewrite Z.add_0_r. intros [s1 e1] Hat1 Hst1. wp_simpl.
  destruct (store_all_spec (log_writes (start + 1) ds) a) as (_ & M1 & _ & _).
  pose proof (lready_store_all start hs (log_writes (start + 1) ds) a Hl) as Hl1.
  eapply (wp_write_head i _ s1 e1 _ start hs d0 _ Hat1);
    [exact (fstep_log _ _ _ _ _ Hst1 Hlg)|done|apply (lready_start _ _ _ Hl1)| |].
  { rewrite M1, replay_out; [done|]. rewrite log_writes_fst, elem_of_seqZ. lia. }
  intros w2 Hat2 Hst2. apply HQ; [exact Hat2|]. by eapply fstep_trans.
Qed.

Lemma wp_commit i n w a start hs ds d0 (Q : unit → W → Prop) :
  at_fs i (6 * length hs + 4 + n) w a → committing i w a start hs ds d0 → hs ≠ [] →
  (∀ w' a', at_fs i n w' a' → lstep (commit_trace start hs ds d0) w w' →
     fs_log (ks_fs (w_k w')) = empty_log (fs_log (ks_fs (w_k w))) →
     bs_disk a' = replay (commit_trace start hs ds d0) (bs_disk a) →
     bs_mem a' = replay (commit_trace start hs ds d0) (bs_mem a) →
     (∀ bn, refs a' bn = refs a bn - (if decide (bn ∈ hs) then 1 else 0)) → bs_locked a' = bs_locked a → Q tt w') →
  wp commit w Q.
Proof.
  destruct w as [s e]. intros Hat Hcm Hne HQ. pose proof Hcm as [Hlg Hl Hlen Hd Hpin Hm]. cbn [w_k] in *.
  assert ((length hs ≤ 30)%nat) as Hlen30 by (unfold LOGSIZE, MAXOPBLOCKS in Hlen; lia).
  pose proof (contents_length _ _ _ Hd) as Hdl. unfold commit. wp_simpl. rewrite (li_n _ _ _ Hlg).
  rewrite (proj2 (Z.ltb_lt _ _)) by (destruct hs; [done|cbn; lia]). rewrite when_true.
  replace (6 * length hs + 4 + n)%nat with (3 * length hs + S (S (3 * length hs + S (S n))))%nat in Hat by lia.
  destruct (lready_start _ _ _ Hl) as (_ & _ & Hnin). eapply wp_log_phase; [exact Hat|exact Hcm|].
  destruct (log_written_spec start hs ds d0 a) as (D2 & M2 & R2 & L2 & C2 & Hl2). specialize (Hl2 Hl).
  set (a2 := log_written start hs ds d0 a) in *. intros [s2 e2] Hat2 Hst2. wp_simpl.
  assert (∀ h, h ∈ hs → 0 < refs a2 h) as Hpin2 by (intros h Hh; unfold refs; rewrite R2; by apply Hpin).
  pose proof (fstep_log _ _ _ _ _ Hst2 Hlg : log_is start hs (fs_log (ks_fs s2))) as Hlg2.
  apply (wp_install_trans_loop false i _ s2 e2 a2 start hs [] hs ds _ _ Hat2);
    [done|done|cbn [length]; by rewrite Z.add_0_r|done|done|done|done|change log_rounds with 31%nat; lia|].
  set (a3 := install false _ a2). intros [s3 e3] Hat3 Hst3. wp_simpl.
  destruct (install_spec false (zip hs ds) a2) as (D3 & M3 & L3). fold a3 in D3, M3, L3.
  pose proof (fstep_log _ _ _ _ _ Hst3 Hlg2 : log_is start hs (fs_log (ks_fs s3))) as Hlg3.
  pose proof (lready_install false start hs ds a2 Hl2 (rep_counts _ _ _ (af_rep _ _ _ _ Hat2)) (fun _ => Hpin2) Hdl) as Hl3.
  apply (wp_write_head i n _ e3 a3 start [] (enc_head hs d0) _ (at_fs_log _ _ _ _ _ _ Hat3));
    [by destruct Hlg3|cbn; lia|apply (lready_start _ _ _ Hl3)| |].
  { rewrite M3, replay_out; [apply lookup_insert_eq|]. by intros ?%elem_zip_fst. }
  intros w' Hat4 Hst4. apply (HQ w' _ Hat4).
  - unfold commit_trace. rewrite app_assoc. eapply lstep_trans; [by apply fstep_lstep|].
    eapply lstep_trans; [by apply fstep_lstep|]. eapply (lstep_trans [] _); [apply lstep_log|by apply fstep_lstep].
  - pose proof (kp_log _ _ (ft_kept _ _ _ Hst2)) as E2. pose proof (kp_log _ _ (ft_kept _ _ _ Hst3)) as E3.
    rewrite (kp_log _ _ (ft_kept _ _ _ Hst4)). cbn in *. by rewrite E3, E2.
  - unfold commit_trace. rewrite app_assoc, (replay_app (_ ++ _)), replay_app, <- ?D2, <- ?M2. cbn. by rewrite D3.
  - unfold commit_trace. rewrite app_assoc, (replay_app (_ ++ _)), replay_app, <- ?D2, <- ?M2. cbn. by rewrite M3.
  - intros bn. change (refs a3 bn = refs a bn - (if decide (bn ∈ hs) then 1 else 0)). unfold a3.
    rewrite install_refs; rewrite fst_zip by lia; [|apply Hl]. unfold refs at 1. by rewrite R2.
  - cbn. by rewrite L3.
Qed.

(** ** Recovery *)

Lemma wp_recover i n w a start hs ds d (Q : unit → W → Prop) :
  at_fs i (3 * length hs + 3 + n) w a →
  log_dev (fs_log (ks_fs (w_k w))) = ROOTDEV → log_start (fs_log (ks_fs (w_k w))) = start →
  length (lh_block (log_lh (fs_log (ks_fs (w_k w))))) = Z.to_nat LOGSIZE → Z.of_nat (length hs) < LOGSIZE →
  lready start hs a → bs_mem a !! start = Some d → head_is d hs →
  length ds = length hs → contents a (seqZ (start + 1) (Z.of_nat (length ds))) ds →
  (∀ w' a', at_fs i n w' a' → lstep (zip hs ds ++ [(start, enc_head [] d)]) w w' →
     log_is start [] (fs_log (ks_fs (w_k w'))) →
     bs_disk a' = replay (zip hs ds ++ [(start, enc_head [] d)]) (bs_disk a) →
     (∀ bn, refs a' bn = refs a bn) → bs_locked a' = bs_locked a → Q tt w') →
  wp recover_from_log w Q.
Proof.
  destruct w as [s e]. intros Hat Hdev Hst Hbl Hlen Hl Hm Hh Hdl Hc HQ. cbn [w_k] in *.
  assert ((length hs ≤ Z.to_nat LOGSIZE)%nat) as Hlen30 by lia.
  destruct (lready_start _ _ _ Hl) as (Hrd & Hnr & Hnin). unfold recover_from_log. wp_simpl.
  replace (3 * length hs + 3 + n)%nat with (S (3 * length hs + S (S n)))%nat in Hat by lia.
  eapply (wp_read_head i _ s e a start d hs); [exact Hat|done|done|done|done|done|done|done|done|].
  intros [s1 e1] Hat1 Hst1 Hlg1. cbn [w_k] in *. wp_simpl.
  apply (wp_install_trans_loop true i _ s1 e1 a start hs [] hs ds _ _ Hat1);
    [done|done|cbn [length]; by rewrite Z.add_0_r|done|done|done|done|change log_rounds with (S (Z.to_nat LOGSIZE)); lia|].
  set (a2 := install true _ a). intros [s2 e2] Hat2 Hst2. wp_simpl.
  destruct (install_spec true (zip hs ds) a) as (D2 & M2 & L2). fold a2 in D2, M2, L2.
  assert (lready start [] a2) as Hl2 by (apply lready_install; [done|eapply rep_counts, Hat|done|done]).
  pose proof (fstep_log _ _ _ _ _ Hst2 Hlg1 : log_is start hs (fs_log (ks_fs s2))) as Hlg2.
  assert (log_is start [] (empty_log (fs_log (ks_fs s2)))) as Hlg3 by (destruct Hlg2; by split).
  apply (wp_write_head i n _ e2 a2 start [] d _ (at_fs_log _ _ _ _ _ _ Hat2));
    [exact Hlg3|cbn; lia|apply (lready_start _ _ _ Hl2)| |].
  { rewrite M2, replay_out; [done|]. by intros ?%elem_zip_fst. }
  intros w' Hat3 Hst3. apply (HQ w' _ Hat3).
  - eapply (lstep_trans [] _); [done|]. eapply lstep_trans; [by apply fstep_lstep|].
    eapply (lstep_trans [] _); [apply lstep_log|by apply fstep_lstep].
  - exact (fstep_log _ _ _ _ _ Hst3 Hlg3).
  - rewrite replay_app. cbn. by rewrite D2.
  - intros bn. change (refs a2 bn = refs a bn). unfold a2. rewrite install_refs; [done|].
    rewrite fst_zip by lia. apply Hl.
  - exact L2.
Qed.

(** ** Crashes *)

Definition outside (start bn : Z) : Prop := ¬ (start ≤ bn < start + LOGSIZE).

Lemma replay_cong tr d1 d2 bn : (bn ∉ tr.*1 → d1 !! bn = d2 !! bn) → replay tr d1 !! bn = replay tr d2 !! bn.
Proof.
  revert d1 d2. induction tr as [|[t x] tr IH]; intros d1 d2 H; cbn.
  - apply H. apply not_elem_of_nil.
  - apply IH. intros Hn. destruct (decide (t = bn)) as [->|Hne]; [by rewrite !lookup_insert_eq|].
    rewrite !lookup_insert_ne by done. apply H. cbn. by intros [->|?]%elem_of_cons.
Qed.

Lemma prefix_app_cases {A} (p l1 l2 : list A) : p `prefix_of` l1 ++ l2 →
  p `prefix_of` l1 ∨ ∃ q, p = l1 ++ q ∧ q `prefix_of` l2.
Proof.
  intros [k Hk]. symmetry in Hk. apply app_eq_inv in Hk as [(q & -> & ->)|(q & -> & ->)].
  - right. exists q. split; [done|by exists k].
  - left. by exists q.
Qed.

Lemma prefix_fst (p l : list (Z * list Z)) bn : p `prefix_of` l → bn ∈ p.*1 → bn ∈ l.*1.
Proof. intros [k ->] Hin. rewrite fmap_app. apply elem_of_app. by left. Qed.

(** The transaction: blocks [hs] outside the log, contents [ds]. *)
Record txn (start : Z) (hs : list Z) (ds : list (list Z)) (d0 : list Z) (D : gmap Z (list Z)) : Prop := {
  tx_len : length ds = length hs;
  tx_room : Z.of_nat (length hs) < LOGSIZE;
  tx_out : ∀ h, h ∈ hs → outside start h;
  tx_num : Forall (fun h => 0 ≤ h < 2 ^ 31) hs;
  tx_ok : block_ok d0;
  tx_empty : head_is d0 [];
  tx_head : D !! start = Some d0
}.

Lemma start_region start : ¬ outside start start.
Proof. unfold outside, LOGSIZE, MAXOPBLOCKS. lia. Qed.

Section crash.
Context (start : Z) (hs : list Z) (ds : list (list Z)) (d0 : list Z) (D : gmap Z (list Z)).
Context (T : txn start hs ds d0 D).

Lemma log_addr bn : bn ∈ (log_writes (start + 1) ds).*1 → ¬ outside start bn ∧ bn ≠ start.
Proof. destruct T. rewrite log_writes_fst, elem_of_seqZ. unfold outside. lia. Qed.

Lemma home_addr q bn : q `prefix_of` zip hs ds → bn ∈ q.*1 → bn ∈ hs.
Proof. intros Hq Hin. eapply elem_zip_fst, prefix_fst; done. Qed.

(** Crash before the header is written: nothing happened. *)
Lemma crash_before p : p `prefix_of` log_writes (start + 1) ds →
  replay p D !! start = Some d0 ∧ ∀ bn, outside start bn → replay p D !! bn = D !! bn.
Proof.
  intros Hp. split; [|intros bn Hbn]; (rewrite replay_out; [first [done|apply T]|]);
    intros Hin%(prefix_fst _ _ _ Hp)%log_addr; by destruct Hin.
Qed.

(** Crash after it, while the home blocks are written. *)
Lemma crash_after q (C := replay (log_writes (start + 1) ds ++ (start, enc_head hs d0) :: q) D) :
  q `prefix_of` zip hs ds →
  C !! start = Some (enc_head hs d0) ∧ (∀ k x, ds !! k = Some x → C !! (start + 1 + Z.of_nat k) = Some x) ∧
  ∀ bn, outside start bn → replay (zip hs ds) C !! bn = replay (zip hs ds) D !! bn.
Proof.
  intros Hq. unfold C. rewrite replay_app. cbn. assert (∀ bn, ¬ outside start bn → bn ∉ q.*1) as Hn.
  { intros bn Hbn Hin. apply Hbn. by eapply (tx_out _ _ _ _ _ T), home_addr. }
  split; [|split].
  - rewrite replay_out by (apply Hn, start_region). apply lookup_insert_eq.
  - intros k x Hk. pose proof (lookup_lt_Some _ _ _ Hk). pose proof (tx_len _ _ _ _ _ T). pose proof (tx_room _ _ _ _ _ T).
    rewrite replay_out by (apply Hn; unfold outside; lia). rewrite lookup_insert_ne by lia. by apply replay_log_contents.
  - intros bn Hbn. apply replay_cong. rewrite fst_zip by (by rewrite (tx_len _ _ _ _ _ T)). intros Hh.
    rewrite replay_out by (by intros ?%home_addr). rewrite lookup_insert_ne by (intros ->; by apply (start_region bn)).
    apply replay_out. by intros [? _]%log_addr.
Qed.

Lemma crash_prefix p : p `prefix_of` commit_trace start hs ds d0 →
  ∃ hs' ds' d', (hs' = [] ∧ ds' = [] ∨ hs' = hs ∧ ds' = ds) ∧ replay p D !! start = Some d' ∧ head_is d' hs' ∧
    (∀ k x, ds' !! k = Some x → replay p D !! (start + 1 + Z.of_nat k) = Some x) ∧
    ((∀ bn, outside start bn → replay (zip hs' ds') (replay p D) !! bn = D !! bn) ∨
     (∀ bn, outside start bn → replay (zip hs' ds') (replay p D) !! bn = replay (zip hs ds) D !! bn)).
Proof.
  pose proof T as [T1 T2 T3 T4 T5 T6 T7]. assert ((length hs ≤ 30)%nat) as Hlen by (unfold LOGSIZE, MAXOPBLOCKS in T2; lia).
  pose proof (enc_head_decode hs d0 Hlen T5 T4) as Hdec.
  unfold commit_trace. cbn [app]. intros [Hp|(q & -> & Hq)]%prefix_app_cases.
  { destruct (crash_before p Hp) as [H1 H2]. exists [], [], d0. split; [by left|]. do 3 (split; [done|]). by left. }
  destruct q as [|[t x] q].
  { rewrite app_nil_r. destruct (crash_before (log_writes (start + 1) ds) (reflexivity _)) as [H1 H2].
    exists [], [], d0. split; [by left|]. do 3 (split; [done|]). by left. }
  apply prefix_cons_inv_1 in Hq as Hx. apply prefix_cons_inv_2 in Hq. injection Hx as -> ->.
  apply prefix_app_cases in Hq as [Hq|(q2 & -> & Hq2)].
  { destruct (crash_after q Hq) as (H1 & H2 & H3). exists hs, ds, (enc_head hs d0).
    split; [by right|]. do 3 (split; [done|]). by right. }
  destruct (crash_after (zip hs ds) (reflexivity _)) as (H1 & H2 & H3). destruct q2 as [|[t x] q2].
  { rewrite app_nil_r. exists hs, ds, (enc_head hs d0). split; [by right|]. do 3 (split; [done|]). by right. }
  apply prefix_cons_inv_1 in Hq2 as Hx. apply prefix_cons_inv_2, prefix_nil_inv in Hq2. injection Hx as -> ->. subst q2.
  rewrite app_comm_cons, app_assoc, replay_app. exists [], [], (enc_head [] (enc_head hs d0)). cbn [replay fst snd].
  split; [by left|]. split; [apply lookup_insert_eq|]. split; [|split; [done|right]].
  - by apply head_erased.
  - intros bn Hbn. cbn [zip zip_with replay]. rewrite lookup_insert_ne by (intros ->; by apply (start_region bn)).
    destruct (crash_after [] (prefix_nil _)) as (_ & _ & H4). rewrite <- (H4 bn Hbn), <- replay_app, <- app_assoc. done.
Qed.

End crash.

(** The machine comes up with disk [D] and an empty cache; [initlog] has set
    the log's place. *)
Record rebooted (i n : nat) (v : W) (b : bstore) (start : Z) (D : gmap Z (list Z)) : Prop := {
  rb_at : at_fs i n v b;
  rb_disk : bs_disk b = D;
  rb_refs : bs_refs b = ∅;
  rb_locked : bs_locked b = ∅;
  rb_dev : log_dev (fs_log (ks_fs (w_k v))) = ROOTDEV;
  rb_start : log_start (fs_log (ks_fs (w_k v))) = start;
  rb_len : length (lh_block (log_lh (fs_log (ks_fs (w_k v))))) = Z.to_nat LOGSIZE
}.

Definition blocks (w : W) : gmap Z (list Z) := dk_blocks (fs_disk (ks_fs (w_k w))).

Lemma at_fs_blocks i n w a : at_fs i n w a → blocks w = bs_disk a.
Proof. intros H. apply (af_rep _ _ _ _ H). Qed.

Lemma replay_is_Some tr D bn : is_Some (D !! bn) → is_Some (replay tr D !! bn).
Proof.
  revert D. induction tr as [|[t x] tr IH]; intros D H; [done|]. cbn. apply IH, lookup_insert_is_Some'. by right.
Qed.

(** The blocks of the transaction are readable in the empty cache. *)
Lemma rebooted_lready i n v b start D hs a p :
  rebooted i n v b start D → lready start hs a → D = replay p (bs_disk a) → lready start hs b.
Proof.
  intros [_ R2 R3 R4 _ _ _] [L1 L2 L3] HD.
  assert (∀ k bn, readable k a bn → (k ≤ 2)%nat → readable k b bn) as Hrd.
  { intros k bn [H1 H2 H3 H4 H5] Hk. split; [done|rewrite R2, HD; by apply replay_is_Some|by rewrite R4| |].
    - right. rewrite R3, map_size_empty. change NBUF with 30%nat. lia.
    - unfold refs. rewrite R3. done. }
  split; [|intros h Hh; split; [by apply Hrd; [apply L2|]|by apply L2]|done].
  intros k Hk. split; [apply Hrd; [by apply L1|lia]|by rewrite R3].
Qed.

Lemma committing_txn i n w a start hs ds d0 :
  at_fs i n w a → committing i w a start hs ds d0 → head_is d0 [] → txn start hs ds d0 (bs_disk a).
Proof.
  intros Hat [Hlg Hl Hlen Hd Hpin Hm] H0. pose proof (af_rep _ _ _ _ Hat) as Hr.
  split; [by eapply contents_length|done|intros h Hh; by apply Hl| | |done|].
  - apply Forall_forall. intros h Hh. by apply (lr_home _ _ _ Hl h Hh).
  - by eapply (bk_mem _ _ (cache_rep_block _ _ _ start Hr)).
  - rewrite <- Hm. symmetry. apply (cr_clean _ _ _ Hr). by apply (lready_start _ _ _ Hl).
Qed.

(** What the home blocks hold once the transaction is installed. *)
Lemma replay_new a hs ds bn : contents a hs ds → NoDup hs →
  replay (zip hs ds) (bs_disk a) !! bn = if decide (bn ∈ hs) then bs_mem a !! bn else bs_disk a !! bn.
Proof.
  intros Hc Hnd. pose proof (contents_length _ _ _ Hc) as Hl. case_decide as Hin.
  - apply list_elem_of_lookup in Hin as [k Hk]. destruct (Forall2_lookup_l _ _ _ _ _ Hc Hk) as (d & Hd & ->).
    apply replay_in; [by rewrite fst_zip by lia|]. apply list_elem_of_lookup. exists k.
    by rewrite lookup_zip_Some.
  - apply replay_out. by rewrite fst_zip by lia.
Qed.

Lemma wp_recover_crash i n w a start hs ds d0 p j m v b :
  at_fs i n w a → committing i w a start hs ds d0 → head_is d0 [] →
  p `prefix_of` commit_trace start hs ds d0 → rebooted j m v b start (replay p (bs_disk a)) →
  (3 * length hs + 3 ≤ m)%nat →
  wp recover_from_log v (fun _ v' => log_is start [] (fs_log (ks_fs (w_k v'))) ∧
    ((∀ bn, outside start bn → blocks v' !! bn = bs_disk a !! bn) ∨
     (∀ bn, outside start bn → blocks v' !! bn = if decide (bn ∈ hs) then bs_mem a !! bn else bs_disk a !! bn))).
Proof.
  intros Hat Hcm H0 Hp Hrb Hm. pose proof (committing_txn _ _ _ _ _ _ _ _ Hat Hcm H0) as T.
  destruct (crash_prefix _ _ _ _ _ T p Hp) as (hs' & ds' & d' & Hcase & Hst & Hh & Hds & Hout).
  assert (length ds' = length hs' ∧ (length hs' ≤ length hs)%nat ∧ lready start hs' a) as (Hl' & Hle & Hlr).
  { destruct Hcase as [[-> ->]|[-> ->]]; [|by split; [apply T|split; [|apply Hcm]]].
    split; [done|]. split; [cbn; lia|]. split; [apply Hcm| |constructor]. by intros h ?%elem_of_nil. }
  pose proof Hrb as [R1 R2 R3 R4 R5 R6 R7]. pose proof (rebooted_lready _ _ _ _ _ _ _ _ _ Hrb Hlr eq_refl) as Hlb.
  assert (bs_mem b = bs_disk b) as Hmb.
  { apply map_eq. intros bn. apply (cr_clean _ _ _ (af_rep _ _ _ _ R1)). by rewrite R3. }
  eapply (wp_recover j 0 v b start hs' ds' d'); [eapply at_fs_le; [|exact R1]; lia|done|done|done| |done| |done|done| |].
  - pose proof (tx_room _ _ _ _ _ T). lia.
  - by rewrite Hmb, R2.
  - apply Forall2_same_length_lookup. split; [by rewrite length_seqZ, Nat2Z.id|]. intros k bn x Hbn Hx.
    apply lookup_seqZ in Hbn as [-> _]. rewrite Hmb, R2. by apply Hds.
  - intros v' b' Hat' _ Hlg' Hd' _ _. split; [done|]. rewrite (at_fs_blocks _ _ _ _ Hat'), Hd', replay_app, R2. cbn.
    destruct Hout as [Hout|Hout]; [left|right]; intros bn Hbn;
      (rewrite lookup_insert_ne by (intros ->; by apply (start_region bn))); rewrite Hout by done; [done|].
    apply replay_new; apply Hcm.
Qed.

End commit.
