(* ===== verification/LogOps.v ===== *)
(** * Transactions (kernel/log.c)

    [begin_op], [log_write] and [end_op]: a block written in a transaction is
    pinned in the cache and listed in the header, once; the last [end_op]
    commits. *)

From Stdlib Require Import ZArith Lia.
From stdpp Require Import base gmap strings numbers list.
From S2P Require Import Prelude Spinlock Mem Kstring Kalloc Vm Proc ProcFacts ProcOps Sched FsState Sleeplock FsFacts Bio BioFacts BioOps Log LogFacts LogCommit.
Local Open Scope xv6_scope.

(** The first position of [bn], or the length. *)
Fixpoint find_pos (bn : Z) (hs : list Z) : nat :=
  match hs with [] => O | h :: hs => if h =? bn then O else S (find_pos bn hs) end.

Lemma find_pos_spec bn hs :
  (find_pos bn hs ≤ length hs)%nat ∧ (bn ∈ hs → hs !! find_pos bn hs = Some bn) ∧ (bn ∉ hs → find_pos bn hs = length hs).
Proof.
  induction hs as [|h hs (IH1 & IH2 & IH3)]; cbn.
  - split; [lia|]. split; [by intros ?%elem_of_nil|done].
  - destruct (Z.eqb_spec h bn) as [->|Hne].
    + split; [lia|]. split; [done|]. intros []. by left.
    + split; [lia|]. split.
      * intros [->|Hin]%elem_of_cons; [done|]. by apply IH2.
      * intros Hn. f_equal. apply IH3. intros ?. apply Hn. by right.
Qed.

Section ops.
Context `{KI : KernelImage} `{DO : DiskOps} `{DL : !DiskLaws}.
Implicit Types (w : W) (a : bstore) (s : KS).

Lemma wp_log_find fuel l start hs pre rest bn s (Q : Z → KS → Prop) :
  log_is start hs l → hs = pre ++ rest → Forall (fun h => 0 ≤ h < 2 ^ 31) hs → (length rest < fuel)%nat →
  Q (Z.of_nat (length pre + find_pos bn rest)) s → wp (log_find fuel (log_lh l) bn (Z.of_nat (length pre))) s Q.
Proof.
  intros Hl. revert pre fuel. induction rest as [|h rest IH]; intros pre fuel Hhs Hr Hf HQ;
    (destruct fuel as [|fuel]; [cbn in Hf; lia|]); cbn [log_find]; rewrite (li_n _ _ _ Hl).
  - rewrite (proj2 (Z.ltb_ge _ _)) by (rewrite Hhs, length_app; cbn; lia). cbn [negb find_pos] in *. wp_simpl.
    by rewrite Nat.add_0_r in HQ.
  - rewrite (proj2 (Z.ltb_lt _ _)) by (rewrite Hhs, length_app; cbn; lia). cbn [negb].
    rewrite (lh_get_is _ _ _ (length pre) h Hl) by (rewrite Hhs; by apply list_lookup_middle). wp_simpl.
    rewrite Forall_forall in Hr. pose proof (Hr h ltac:(rewrite Hhs; set_solver)) as Hh.
    replace (u32 h) with h by (unfold u32; rewrite Z.mod_small; lia). cbn [find_pos] in HQ.
    destruct (Z.eqb_spec h bn) as [->|Hne]; wp_simpl; [by rewrite Nat.add_0_r in HQ|].
    replace (Z.of_nat (length pre) + 1) with (Z.of_nat (length (pre ++ [h]))) by (rewrite length_app; cbn; lia).
    apply IH; [by rewrite <- app_assoc|by apply Forall_forall|cbn in Hf; lia|].
    rewrite length_app. cbn. by rewrite <- Nat.add_assoc.
Qed.

(** The record after [bn] has been listed. *)
Definition listed (hs : list Z) (bn : Z) (l : log) : log :=
  if decide (bn ∈ hs) then l
  else l <| log_lh ::= fun lh => Logheader (lh_n lh + 1) (<[length hs := bn]> (lh_block lh)) |>.
Definition listing (hs : list Z) (bn : Z) : list Z := if decide (bn ∈ hs) then hs else hs ++ [bn].

Lemma listed_is start hs bn l : log_is start hs l → Z.of_nat (length hs) < LOGSIZE →
  log_is start (listing hs bn) (listed hs bn l).
Proof.
  intros Hl Hn. unfold listed, listing. case_decide; [done|]. destruct Hl as [L1 L2 L3 L4 L5].
  split; cbn; [done|done|rewrite length_app; cbn; lia|by rewrite length_insert|].
  rewrite length_app, Nat.add_1_r, (take_S_r _ _ bn) by (apply list_lookup_insert_eq; lia).
  by rewrite take_insert_ge, L5 by lia.
Qed.

Lemma set_kmach_fsk m g s : set_kmach m (fsk g s) = fsk g (set_kmach m s).
Proof. by destruct s as [[]]. Qed.

(** [bpin] inside another critical section. *)
Lemma wp_bpin_nested b x s (Q : unit → KS → Prop) :
  mach_ok (ks_mach s) → nested (ks_mach s) → lock_free L_bcache (ks_mach s) → fs_buf (ks_fs s) !! b = Some x →
  Q tt (fsk (upd_buf b (fun x => x <| b_refcnt ::= fun n => u32 (n + 1) |>)) s) → wp (bpin b) s Q.
Proof.
  intros Hok Hn Hl Hx HQ. unfold bpin. wp_simpl. apply wp_acq; [done|done|]. wp_simpl.
  eapply wp_updb; [exact Hx|]. apply (wp_rel L_bcache s); [done|done|done|]. intros s' Hs'.
  apply kstate_nested in Hs'; [|by destruct s as [[]]]. subst s'.
  by rewrite set_kmach_fsk, set_kmach_twice, set_kmach_id.
Qed.

(** The log's lock is held; the buffers are unchanged. *)
Lemma wp_lh_set k v s (Q : unit → KS → Prop) :
  (k < length (lh_block (log_lh (fs_log (ks_fs s)))))%nat →
  Q tt (fsk (upd_log (fun l => l <| log_lh ::= fun lh => lh <| lh_block ::= <[k := v]> |> |>)) s) →
  wp (lh_set (Z.of_nat k) v) s Q.
Proof.
  intros Hk HQ. unfold lh_set, lh_get. wp_simpl. destruct (Z.ltb_spec (Z.of_nat k) 0); [lia|]. rewrite Nat2Z.id.
  destruct (lookup_lt_is_Some_2 _ _ Hk) as [x Hx]. rewrite Hx. wp_simpl. exact HQ.
Qed.

(** What [log_write] does to the file system's state. *)
Definition log_written_fs (hs : list Z) (b : nat) (bn : Z) (fs : fsstate) : fsstate :=
  if decide (bn ∈ hs) then fs
  else upd_buf b (fun x => x <| b_refcnt ::= fun n => u32 (n + 1) |>) (upd_log (listed hs bn) fs).

Lemma wp_log_write_fs i s start hs b x (Q : unit → KS → Prop) :
  quiet i s → log_is start hs (fs_log (ks_fs s)) → Forall (fun h => 0 ≤ h < 2 ^ 31) hs →
  fs_buf (ks_fs s) !! b = Some x → 0 ≤ b_blockno x < 2 ^ 31 →
  Z.of_nat (length hs) < LOGSIZE → Z.of_nat (length hs) < log_size (fs_log (ks_fs s)) - 1 →
  1 ≤ log_outstanding (fs_log (ks_fs s)) →
  (∀ s', frame s s' → ks_fs s' = log_written_fs hs b (b_blockno x) (ks_fs s) → Q tt s') →
  wp (log_write b) s Q.
Proof.
  intros Hq Hlg Hr Hx Hbn Hn Hsz Hout HQ. unfold log_write. wp_simpl. apply wp_acq; [apply Hq|by apply Hq|].
  pose proof (insec_start L_log s) as Hs1. set (s1 := set_kmach _ s) in *. change (ks_fs s) with (ks_fs s1) in *. clearbody s1.
  wp_simpl. set (l := fs_log (ks_fs s1)) in *. rewrite (li_n _ _ _ Hlg).
  rewrite (proj2 (Z.leb_gt _ _)), (proj2 (Z.leb_gt _ _)) by lia. cbn [orb]. wp_simpl.
  rewrite (proj2 (Z.ltb_ge _ _)) by lia. wp_simpl. eapply wp_getb; [exact Hx|]. wp_simpl.
  eapply (wp_log_find log_rounds l start hs [] hs); [done|done|done|change log_rounds with (S (Z.to_nat LOGSIZE)); lia|].
  cbn [length plus]. destruct (find_pos_spec (b_blockno x) hs) as (P1 & P2 & P3). set (k := find_pos _ hs) in *. wp_simpl.
  pose proof (li_len _ _ _ Hlg) as Hbl. apply wp_lh_set; [fold l; lia|]. wp_simpl.
  replace (i32 (b_blockno x)) with (b_blockno x) by zlia. unfold log_written_fs, listed in HQ.
  destruct (decide (b_blockno x ∈ hs)) as [Hin|Hin].
  - specialize (P2 Hin). pose proof (lookup_lt_Some _ _ _ P2) as Hlt. rewrite (proj2 (Z.eqb_neq _ _)) by lia. wp_simpl.
    rewrite fsk_id.
    + eapply (wp_end_sec (Some i) L_log s); [by apply quiet_calm|done|done|]. intros s' Hf Hfs _. by apply HQ.
    + rewrite <- (li_take _ _ _ Hlg) in P2. apply lookup_take_Some in P2 as [P2 _].
      unfold upd_log, setf. fold l. cbn. rewrite list_insert_id by done. by destruct (ks_fs s1) as [? [? ? ? ? ? []]].
  - rewrite (P3 Hin) in *. rewrite Z.eqb_refl. wp_simpl.
    apply (wp_bpin_nested b x); [| | |exact Hx|].
    + cbn. change (mach_ok (ks_mach s1)). rewrite (is_mach _ _ _ Hs1). apply mach_ok_acq, Hq.
    + apply (insec_nested L_log s); [apply Hq|by apply insec_fsk].
    + cbn. change (lock_free L_bcache (ks_mach s1)). rewrite (is_mach _ _ _ Hs1). apply lock_free_acq; [done|by apply Hq].
    + wp_simpl. eapply (wp_end_sec (Some i) L_log s); [by apply quiet_calm|done|by do 3 apply insec_fsk|].
      intros s' Hf Hfs _. apply HQ; [done|]. rewrite Hfs. done.
Qed.

Lemma wp_log_write i n s e a start hs b bn (Q : unit → KS → Prop) :
  at_fs i n (World s e) a → log_is start hs (fs_log (ks_fs s)) → Forall (fun h => 0 ≤ h < 2 ^ 31) hs →
  holds_block (ks_fs s) b bn → 0 ≤ bn < 2 ^ 31 → refs a bn + 1 < 2 ^ 32 →
  Z.of_nat (length hs) < LOGSIZE → Z.of_nat (length hs) < log_size (fs_log (ks_fs s)) - 1 →
  1 ≤ log_outstanding (fs_log (ks_fs s)) →
  (∀ s', at_fs i n (World s' e) (if decide (bn ∈ hs) then a else set_refs bn (refs a bn + 1) a) →
     lstep [] (World s e) (World s' e) → stable a (World s e) (World s' e) →
     fs_log (ks_fs s') = listed hs bn (fs_log (ks_fs s)) → Q tt s') →
  wp (log_write b) s Q.
Proof.
  intros Hat Hlg Hr Hh Hbn Hrf Hn Hsz Hout HQ. pose proof (af_rep _ _ _ _ Hat) as Hrep. cbn [w_k] in Hrep.
  destruct (holds_buf _ _ _ _ _ Hrep Hh) as (x & Hb & Hx & Hdev & Ebn & _).
  destruct (refs_pos _ _ _ bn Hrep) as [Hp _]. rewrite <- Ebn in Hbn.
  eapply (wp_log_write_fs i s start hs b x); [apply (af_quiet _ _ _ _ Hat)|done..|]. intros s' Hf Hfs.
  rewrite Ebn in *. unfold log_written_fs, listed in *. destruct (decide (bn ∈ hs)) as [Hin|Hin].
  - apply HQ; [| | |by rewrite Hfs].
    + destruct Hat as [A1 A2 A3 A4]. split; cbn [w_k w_env] in *; [by eapply quiet_frame| |by rewrite Hfs|done].
      by rewrite (pid_of_frame _ _ _ Hf), Hfs.
    + split; cbn; [done|by rewrite Hfs..|by rewrite Hfs, app_nil_r].
    + intros b' bn' _ Hl. cbn [w_k]. by rewrite Hfs.
  - set (g := fun l : log => _) in Hfs. pose proof (at_fs_log _ _ _ _ _ g Hat) as Hat1.
    edestruct (count_upd i n (fsk (upd_log g) s) e s' a b bn) with (k := refs a bn + 1) as (H1 & H2 & H3); [exact Hat1|exact Hh| |lia|by destruct Hf|exact Hfs|].
    { intros y Hy. unfold setf. cbn. rewrite Hy. unfold u32. by rewrite Z.mod_small by lia. }
    apply HQ; [done| |done|by rewrite Hfs]. eapply (lstep_trans [] []); [apply (lstep_log s e g)|by apply fstep_lstep].
Qed.

(** A critical section that changes the log's record only. *)
Lemma log_section i n s e s' a f :
  at_fs i n (World s e) a → frame s s' → ks_fs s' = upd_log f (ks_fs s) →
  at_fs i n (World s' e) a ∧ lstep [] (World s e) (World s' e) ∧ stable a (World s e) (World s' e).
Proof.
  intros Hat Hf Hfs. destruct (at_fs_log _ _ _ _ _ f Hat) as [A1 A2 A3 A4]. cbn [w_k w_env] in *. split; [|split].
  - split; cbn [w_k w_env]; [eapply quiet_frame; [exact Hf|apply (af_quiet _ _ _ _ Hat)]| |by rewrite Hfs|done].
    by rewrite (pid_of_frame _ _ _ Hf), Hfs.
  - split; cbn; [done|by rewrite Hfs..|by rewrite Hfs, app_nil_r].
  - intros b bn _ Hl. cbn [w_k]. by rewrite Hfs.
Qed.

(** ** [begin_op] *)

Lemma wp_begin_op i n s e a (Q : unit → W → Prop) :
  at_fs i n (World s e) a → log_committing (fs_log (ks_fs s)) = 0 →
  lh_n (log_lh (fs_log (ks_fs s))) + (log_outstanding (fs_log (ks_fs s)) + 1) * MAXOPBLOCKS ≤ LOGSIZE →
  (∀ s', at_fs i n (World s' e) a → lstep [] (World s e) (World s' e) → stable a (World s e) (World s' e) →
     fs_log (ks_fs s') = (fun l => l <| log_outstanding ::= fun n => n + 1 |>) (fs_log (ks_fs s)) → Q tt (World s' e)) →
  wp begin_op (World s e) Q.
Proof.
  intros Hat Hc Hroom HQ. pose proof (af_quiet _ _ _ _ Hat) as Hq. cbn [w_k] in Hq. unfold begin_op. wp_simpl.
  apply wp_acq; [apply Hq|by apply Hq|]. wp_simpl. cbn [w_env begin_op_loop]. wp_simpl.
  change (ks_fs (set_kmach _ s)) with (ks_fs s). rewrite Hc. change (truthy 0) with false. cbn iota.
  rewrite (proj2 (Z.ltb_ge _ _)) by done. wp_simpl.
  eapply (wp_end_sec (Some i) L_log s); [by apply quiet_calm|done|apply insec_fsk, insec_start|]. intros s' Hf Hfs _.
  destruct (log_section _ _ _ _ s' _ _ Hat Hf Hfs) as (H1 & H2 & H3). apply HQ; [done..|]. by rewrite Hfs.
Qed.

(** ** [end_op] *)

Definition op_ended (l : log) : log := l <| log_outstanding ::= fun n => n - 1 |>.

(** Other operations are still under way: nothing is written. *)
Lemma wp_end_op_more i n s e a (Q : unit → W → Prop) :
  at_fs i n (World s e) a → log_committing (fs_log (ks_fs s)) = 0 → log_outstanding (fs_log (ks_fs s)) ≠ 1 →
  (∀ s', at_fs i n (World s' e) a → lstep [] (World s e) (World s' e) →
     fs_log (ks_fs s') = op_ended (fs_log (ks_fs s)) → Q tt (World s' e)) →
  wp end_op (World s e) Q.
Proof.
  intros Hat Hc Hout HQ. pose proof (af_quiet _ _ _ _ Hat) as Hq. cbn [w_k] in Hq. unfold end_op. wp_simpl.
  apply wp_acq; [apply Hq|by apply Hq|]. wp_simpl.
  change (log_committing (fs_log _)) with (log_committing (fs_log (ks_fs s))).
  change (log_outstanding (fs_log _)) with (log_outstanding (fs_log (ks_fs s)) - 1). rewrite Hc. change (truthy 0) with false. wp_simpl. rewrite (proj2 (Z.eqb_neq _ _)) by lia. wp_simpl.
  eapply (wp_wakeup_sec (Some i) L_log s); [by apply quiet_calm|done|apply insec_fsk, insec_start|]. intros s2 Hs2 ->. wp_simpl.
  eapply (wp_end_sec (Some i) L_log s); [by apply quiet_calm|done|done|]. intros s' Hf Hfs _. wp_simpl.
  destruct (log_section i n s e s' a op_ended Hat Hf Hfs) as (H1 & H2 & H3). apply HQ; [done|done|]. by rewrite Hfs.
Qed.

(** The last one commits. *)
Lemma wp_end_op_last i n s e a start hs ds d0 (Q : unit → W → Prop) :
  at_fs i (6 * length hs + 4 + n) (World s e) a → committing i (World s e) a start hs ds d0 → hs ≠ [] →
  log_committing (fs_log (ks_fs s)) = 0 → log_outstanding (fs_log (ks_fs s)) = 1 →
  (∀ w' a', at_fs i n w' a' → lstep (commit_trace start hs ds d0) (World s e) w' →
     fs_log (ks_fs (w_k w')) = empty_log (op_ended (fs_log (ks_fs s))) →
     bs_disk a' = replay (commit_trace start hs ds d0) (bs_disk a) →
     bs_mem a' = replay (commit_trace start hs ds d0) (bs_mem a) →
     (∀ bn, refs a' bn = refs a bn - (if decide (bn ∈ hs) then 1 else 0)) → bs_locked a' = bs_locked a → Q tt w') →
  wp end_op (World s e) Q.
Proof.
  intros Hat Hcm Hne Hc Hout HQ. pose proof (af_quiet _ _ _ _ Hat) as Hq. cbn [w_k] in Hq. unfold end_op. wp_simpl.
  apply wp_acq; [apply Hq|by apply Hq|]. wp_simpl.
  change (log_committing (fs_log _)) with (log_committing (fs_log (ks_fs s))).
  change (log_outstanding (fs_log _)) with (log_outstanding (fs_log (ks_fs s)) - 1). rewrite Hc. change (truthy 0) with false. wp_simpl. rewrite Hout. change (1 - 1 =? 0) with true. cbn iota. wp_simpl.
  eapply (wp_end_sec (Some i) L_log s); [by apply quiet_calm|done|apply insec_fsk, insec_fsk, insec_start|].
  set (g := fun l : log => op_ended l <| log_committing := 1 |>). intros s1 Hf1 Hfs1 _. wp_simpl.
  destruct (log_section _ _ _ _ s1 _ g Hat Hf1 Hfs1) as (Hat1 & Hst1 & _).
  eapply (wp_commit i n _ a start hs ds d0); [exact Hat1| |done|].
  { destruct Hcm as [M1 M2 M3 M4 M5 M6]. split; try done. cbn [w_k]. rewrite Hfs1. by destruct M1. }
  intros [s2 e2] a2 Hat2 Hst2 Hlog2 D2 M2 R2 L2. cbn [w_k] in *. wp_simpl.
  pose proof (af_quiet _ _ _ _ Hat2) as Hq2. cbn [w_k] in Hq2.
  apply wp_acq; [apply Hq2|by apply Hq2|]. wp_simpl.
  eapply (wp_wakeup_sec (Some i) L_log s2); [by apply quiet_calm|done|apply insec_fsk, insec_start|]. intros s3 Hs3 ->. wp_simpl.
  eapply (wp_end_sec (Some i) L_log s2); [by apply quiet_calm|done|done|]. intros s4 Hf4 Hfs4 _.
  destruct (log_section _ _ _ _ s4 _ (fun l => l <| log_committing := 0 |>) Hat2 Hf4 Hfs4) as (Hat4 & Hst4 & _).
  apply (HQ (World s4 e2) a2 Hat4); try done.
  - rewrite <- (app_nil_r (commit_trace start hs ds d0)). eapply (lstep_trans [] (_ ++ [])); [exact Hst1|by eapply lstep_trans].
  - cbn [w_k]. rewrite Hfs4. cbn. rewrite Hlog2, Hfs1. cbn. destruct (fs_log (ks_fs s)) as [? ? ? c ? ?]. cbn in *. by subst c.
Qed.

(** ** A transaction that writes one block *)

Definition transact (bn : Z) (d : list Z) : M W unit :=
  begin_op;;
  b ← bread ROOTDEV (u32 bn);
  onw (updb b (fun x => x <| b_data := d |>));;
  onw (log_write b);;
  onw (brelse b);;
  end_op.

(** The store before the commit: the block is changed and pinned. *)
Definition pinned (bn : Z) (d : list Z) (a : bstore) : bstore := set_refs bn (refs a bn + 1) (put_mem bn d a).

Lemma pinned_eq bn d a : counts a → bn ∉ bs_locked a →
  released bn (set_refs bn (refs a bn + 1 + 1) (put_mem bn d (got bn a))) = pinned bn d a.
Proof.
  intros Hc Hn. destruct (counts_refs a bn Hc) as [Hp _]. apply bstore_eq; try done.
  - unfold released. apply counts_set; [rewrite refs_set, decide_True by done; lia|]. apply counts_set; [lia|].
    apply (counts_got bn a Hc).
  - apply counts_set; [lia|done].
  - intros bn'. rewrite refs_released. unfold pinned. rewrite !refs_set.
    change (refs (put_mem bn d (got bn a)) bn') with (refs (got bn a) bn'). change (refs (put_mem bn d a)) with (refs a).
    rewrite refs_got. repeat case_decide; subst; try done; lia.
  - intros bn'. rewrite locked_released. change (bs_locked (pinned bn d a)) with (bs_locked a).
    change (bs_locked (set_refs bn (refs a bn + 1 + 1) (put_mem bn d (got bn a)))) with (bs_locked (got bn a)).
    rewrite locked_got. naive_solver.
Qed.

Lemma pinned_ready start bn d a :
  counts a → lready start [bn] a → (size (bs_refs a) + 2 ≤ NBUF)%nat → refs a bn + 2 < 2 ^ 32 → is_Some (bs_disk a !! bn) →
  lready start [bn] (pinned bn d a).
Proof.
  intros Hc [H1 H2 H3] Hsz Hrf Hd. destruct (counts_refs a bn Hc) as [Hp _].
  destruct (H2 bn ltac:(by left)) as [[B1 B2 B3 B4 B5] Hout].
  assert (bs_refs (pinned bn d a) !! bn = Some (refs a bn + 1)) as Hbn.
  { unfold pinned, set_refs. cbn. rewrite decide_False by lia. apply lookup_insert_eq. }
  split; [| |done].
  - intros k Hk. destruct (H1 k Hk) as [[C1 C2 C3 C4 C5] C6]. assert (start + k ≠ bn) as Hne by lia.
    destruct (set_refs_agree bn (refs a bn + 1) (put_mem bn d a) (start + k) Hne) as (A1 & _).
    split; [split; try done|by unfold pinned; rewrite A1].
    + right. unfold pinned, set_refs. cbn. rewrite decide_False by lia. rewrite map_size_insert.
      destruct (bs_refs a !! bn); cbn; lia.
    + unfold refs. unfold pinned. by rewrite A1.
  - intros h ->%list_elem_of_singleton. split; [split; try done|done].
    + left. by rewrite Hbn.
    + unfold refs. rewrite Hbn. cbn. lia.
Qed.

(** The store after a logged change of block [bn]. *)
Definition tx_put (hs : list Z) (bn : Z) (d : list Z) (a : bstore) : bstore :=
  if decide (bn ∈ hs) then put_mem bn d a else pinned bn d a.

Lemma tx_put_eq hs bn d a : counts a → bn ∉ bs_locked a →
  released bn (if decide (bn ∈ hs) then put_mem bn d (got bn a)
               else set_refs bn (refs a bn + 1 + 1) (put_mem bn d (got bn a))) = tx_put hs bn d a.
Proof.
  intros Hc Hn. unfold tx_put. case_decide; [|by apply pinned_eq].
  change (released bn (put_mem bn d (got bn a))) with (put_mem bn d (released bn (got bn a))). by rewrite released_got.
Qed.

(** A buffer at hand is changed, logged and released. *)
Lemma wp_log_update {A} i n s e a start hs bn b g d (K : M W A) (Q : A → W → Prop) :
  at_fs i n (World s e) (got bn a) → loaded (ks_fs s) b bn → counts a → bn ∉ bs_locked a → 0 ≤ bn < 2 ^ 31 →
  bs_mem a !! bn = Some d → block_ok (g d) → refs a bn + 2 < 2 ^ 32 → (bn ∈ hs → is_Some (bs_refs a !! bn)) →
  log_is start hs (fs_log (ks_fs s)) → Forall (fun h => 0 ≤ h < 2 ^ 31) hs → Z.of_nat (length hs) < LOGSIZE →
  Z.of_nat (length hs) < log_size (fs_log (ks_fs s)) - 1 → 1 ≤ log_outstanding (fs_log (ks_fs s)) →
  (∀ s', at_fs i n (World s' e) (tx_put hs bn (g d) a) → lstep [] (World s e) (World s' e) →
     fs_log (ks_fs s') = listed hs bn (fs_log (ks_fs s)) → wp K (World s' e) Q) →
  wp (onw (updb b (fun x => x <| b_data ::= g |>));; onw (log_write b);; onw (brelse b);; K) (World s e) Q.
Proof.
  intros Hat Hld Hct Hnl Hbn Hd Hg Hrf Hpin Hlg Hr Hn Hsz Hout HQ. wp_simpl.
  destruct (counts_refs a bn Hct) as [Hp0 _].
  assert (refs (put_mem bn (g d) (got bn a)) bn = refs a bn + 1) as Rg.
  { etrans; [apply (refs_got bn a bn)|]. by rewrite decide_True. }
  assert (is_Some (bs_refs (got bn a) !! bn)) as Hrs.
  { unfold got, lock_block, set_refs. cbn. rewrite decide_False by lia. rewrite lookup_insert_eq. by eexists. }
  apply (wp_set_data i n s e _ b bn g d _ Hat Hld Hrs); [done|done|]. intros s3 Hat3 Hst3 Hstab3. wp_simpl.
  pose proof (Hstab3 b bn Hrs Hld) as Hld3. cbn [w_k] in Hld3.
  pose proof (kp_log _ _ (ft_kept _ _ _ Hst3)) as Hlog3. cbn [w_k] in Hlog3. rewrite <- Hlog3 in Hlg, Hsz, Hout.
  eapply (wp_log_write i n s3 e _ start hs b bn _ Hat3 Hlg); [done|by apply loaded_holds|done|lia|done|done|done|].
  rewrite Rg. intros s4 Hat4 Hst4 Hstab4 Hlog4. wp_simpl. pose proof (Hstab4 b bn Hrs Hld3) as Hld4. cbn [w_k] in Hld4.
  assert (1 < refs (if decide (bn ∈ hs) then put_mem bn (g d) (got bn a)
    else set_refs bn (refs a bn + 1 + 1) (put_mem bn (g d) (got bn a))) bn < 2 ^ 32) as Hrel.
  { case_decide as Hin; [rewrite Rg|by rewrite refs_set, decide_True by done; lia].
    destruct (Hpin Hin) as [k Hk]. specialize (Hct bn k Hk). unfold refs in *. rewrite Hk in *. cbn in *. lia. }
  eapply (wp_brelse i n s4 e _ b bn _ Hat4); [by apply loaded_holds| |lia|left; lia|].
  { case_decide; apply got_locked. }
  rewrite tx_put_eq by done. intros s5 Hat5 Hst5 _. wp_simpl. apply HQ; [done| |].
  - eapply (lstep_trans [] []); [by apply fstep_lstep|]. eapply (lstep_trans [] []); [exact Hst4|by apply fstep_lstep].
  - rewrite (kp_log _ _ (ft_kept _ _ _ Hst5) : fs_log (ks_fs s5) = _). cbn [w_k]. by rewrite Hlog4, Hlog3.
Qed.

(** The body of the transaction. *)
Lemma wp_tx_write i n s e a start bn d (K : M W unit) (Q : unit → W → Prop) :
  at_fs i (S n) (World s e) a → log_is start [] (fs_log (ks_fs s)) → readable 1 a bn →
  1 ≤ log_outstanding (fs_log (ks_fs s)) → 1 < log_size (fs_log (ks_fs s)) → refs a bn + 2 < 2 ^ 32 → block_ok d →
  (∀ w', at_fs i n w' (pinned bn d a) → lstep [] (World s e) w' →
     fs_log (ks_fs (w_k w')) = listed [] bn (fs_log (ks_fs s)) → wp K w' Q) →
  wp (b ← bread ROOTDEV (u32 bn); onw (updb b (fun x => x <| b_data := d |>));; onw (log_write b);; onw (brelse b);; K)
    (World s e) Q.
Proof.
  intros Hat Hlg Hrd Hout Hsz Hrf Hd HQ. rewrite wp_bind. pose proof (rep_counts _ _ _ (af_rep _ _ _ _ Hat)) as Hct.
  pose proof Hrd as [B1 B2 B3 B4 B5]. apply (wp_read i _ s e a bn _ Hat Hrd).
  intros b [s2 e2] Hat2 Hst2 _ Hld2. cbn [w_k] in *.
  destruct (loaded_data _ _ _ _ _ (af_rep _ _ _ _ Hat2) Hld2) as (x & _ & _ & _ & _ & _ & _ & Hmx).
  pose proof (kp_log _ _ (ft_kept _ _ _ Hst2)) as Hlog2. cbn [w_k] in Hlog2.
  eapply (wp_log_update i n s2 e2 a start [] bn b (fun _ => d) (b_data x));
    [exact Hat2|done|done|done|done|exact Hmx|done|done|by intros ?%elem_of_nil|by rewrite Hlog2|done| |by rewrite Hlog2; cbn; lia|by rewrite Hlog2|].
  { unfold LOGSIZE, MAXOPBLOCKS. cbn. lia. }
  intros s3 Hat3 Hst3 Hlog3. apply HQ; [exact Hat3| |].
  - eapply (lstep_trans [] []); [by apply fstep_lstep|done].
  - cbn [w_k]. by rewrite Hlog3, Hlog2.
Qed.

Lemma wp_transact i n s e a start bn d d0 (Q : unit → W → Prop) :
  at_fs i (11 + n) (World s e) a → log_is start [] (fs_log (ks_fs s)) →
  log_committing (fs_log (ks_fs s)) = 0 → log_outstanding (fs_log (ks_fs s)) = 0 → 1 < log_size (fs_log (ks_fs s)) →
  lready start [bn] a → (size (bs_refs a) + 2 ≤ NBUF)%nat → refs a bn + 2 < 2 ^ 32 →
  bs_mem a !! start = Some d0 → block_ok d →
  (∀ w' a', at_fs i n w' a' → lstep (commit_trace start [bn] [d] d0) (World s e) w' →
     log_is start [] (fs_log (ks_fs (w_k w'))) → log_outstanding (fs_log (ks_fs (w_k w'))) = 0 →
     bs_disk a' = replay (commit_trace start [bn] [d] d0) (bs_disk a) →
     (∀ bn', refs a' bn' = refs a bn') → bs_locked a' = bs_locked a → Q tt w') →
  wp (transact bn d) (World s e) Q.
Proof.
  intros Hat Hlg Hc Hout Hsz Hl Hroom Hrf Hm Hd HQ. unfold transact. rewrite wp_bind.
  pose proof (rep_counts _ _ _ (af_rep _ _ _ _ Hat)) as Hct. destruct (counts_refs a bn Hct) as [Hp0 _].
  destruct (lr_home _ _ _ Hl bn ltac:(by left)) as [Hrd Hbout].
  apply (wp_begin_op i _ s e a _ Hat Hc); [rewrite (li_n _ _ _ Hlg), Hout; cbn; unfold LOGSIZE, MAXOPBLOCKS; lia|].
  intros s1 Hat1 Hst1 _ Hlog1. replace (11 + n)%nat with (S (10 + n)) in Hat1 by lia.
  eapply (wp_tx_write i _ s1 e a start bn d _ _ Hat1); [rewrite Hlog1; by destruct Hlg| |rewrite Hlog1; cbn; lia|by rewrite Hlog1|done|done|].
  { eapply readable_weaken; [|exact Hrd]. lia. }
  intros [s2 e2] Hat2 Hst2 Hlog2. cbn [w_k] in *. rewrite Hlog1 in Hlog2. unfold listed in Hlog2.
  rewrite (decide_False (P := bn ∈ [])) in Hlog2 by apply not_elem_of_nil.
  eapply (wp_end_op_last i n s2 e2 _ start [bn] [d] d0); [exact Hat2| |done|by rewrite Hlog2|by rewrite Hlog2; cbn; lia|].
  { assert (start ≠ bn) by (intros ->; apply Hbout; unfold LOGSIZE, MAXOPBLOCKS; lia). destruct Hlg as [L1 L2 L3 L4 L5]. split; cbn [w_k].
    - rewrite Hlog2. split; cbn; [done|done|rewrite L3; done|by rewrite length_insert|].
      destruct (lh_block _); cbn in L4 |- *; [done|by rewrite take_0].
    - apply pinned_ready; try done. apply Hrd.
    - cbn. unfold LOGSIZE, MAXOPBLOCKS. lia.
    - constructor; [|constructor]. cbn. apply lookup_insert_eq.
    - intros h ->%list_elem_of_singleton. unfold pinned. rewrite refs_set, decide_True by done. lia.
    - cbn. by rewrite lookup_insert_ne. }
  intros w' a' Hat' Hst' Hlog' D' M' R' L'. apply (HQ w' a' Hat').
  - eapply (lstep_trans [] _); [exact Hst1|]. by eapply (lstep_trans [] _).
  - rewrite Hlog', Hlog2. destruct Hlg as [L1 L2 L3 L4 L5]. split; cbn; [done|done|done|by rewrite length_insert|done].
  - rewrite Hlog', Hlog2. cbn. lia.
  - exact D'.
  - intros bn'. rewrite R'. unfold pinned. rewrite refs_set. change (refs (put_mem bn d a)) with (refs a).
    repeat case_decide; subst; try done; try lia; set_solver.
  - exact L'.
Qed.

End ops.
