(* ===== verification/Virtio.v ===== *)
(** * The disk driver (kernel/virtio_disk.c)

    The descriptor table and the two rings that the driver shares with the
    device.  The device itself is not part of the kernel: what it does with a
    request happens in the environment while the driver sleeps; what the driver
    tells it through its registers is in [vd_notified] and [vd_isr]. *)

From Stdlib Require Import ZArith Lia.
From stdpp Require Import base gmap strings numbers list.
From S2P Require Import Prelude Spinlock Mem Kstring Kalloc Vm Proc FsState.
Local Open Scope xv6_scope.

Definition VRING_DESC_F_NEXT : Z := 1.
Definition VRING_DESC_F_WRITE : Z := 2.
Definition VIRTIO_BLK_T_IN : Z := 0.
Definition VIRTIO_BLK_T_OUT : Z := 1.

(** [sizeof(struct virtio_blk_req)] *)
Definition REQSIZE : Z := 16.

Section virtio.
Context `{KI : KernelImage}.

Definition getvd : M KS vdisk := gets (fun s => fs_vdisk (ks_fs s)).
Definition updvd (f : vdisk → vdisk) : M KS unit := updfs (fun fs => fs <| fs_vdisk ::= f |>).

(** [*R(VIRTIO_MMIO_QUEUE_NOTIFY) = q]: the device looks at the ring of queue
    [q]; its requests are in queue 0. *)
Definition queue_notify (q : Z) : M KS unit :=
  updvd (fun v => v <| vd_notified := (q =? 0) || vd_notified v |>).

(** [*R(VIRTIO_MMIO_INTERRUPT_STATUS)] *)
Definition interrupt_status : M KS Z := v ← getvd; ret (vd_isr v).

(** [*R(VIRTIO_MMIO_INTERRUPT_ACK) = x] clears the bits [x] of the status. *)
Definition interrupt_ack (x : Z) : M KS unit :=
  updvd (fun v => v <| vd_isr ::= fun s => Z.land s (Z.lnot x) |>).

(** An array element; an index outside the array faults. *)
Definition arr {A} (l : list A) (i : Z) : M KS A :=
  if i <? 0 then fault i else deref (l !! Z.to_nat i).

(** [disk.desc[i].field = ...] *)
Definition upd_desc (i : Z) (f : virtq_desc → virtq_desc) : M KS unit :=
  v ← getvd; arr (vd_desc v) i;;
  updvd (fun v => v <| vd_desc ::= alter f (Z.to_nat i) |>).

Definition alloc_desc : M KS Z :=
  r ← for_until (seq 0 NUM) (fun i =>
    v ← getvd; f ← arr (vd_free v) (Z.of_nat i);
    if truthy f then
      updvd (fun v => v <| vd_free ::= <[i := 0]> |>);; ret (Some (Z.of_nat i))
    else ret None);
  ret (match r with Some i => i | None => -1 end).

Definition free_desc (i : Z) : M KS unit :=
  when (Z.of_nat NUM <=? i) (panic "free_desc 1");;
  v ← getvd; f ← arr (vd_free v) i;
  when (truthy f) (panic "free_desc 2");;
  upd_desc i (fun _ => VirtqDesc D_null 0 0 0);;
  updvd (fun v => v <| vd_free ::= <[Z.to_nat i := 1]> |>);;
  wakeup C_disk_free.

(** A descriptor is freed in every round, and freeing one twice panics. *)
Fixpoint free_chain_loop (fuel : nat) (i : Z) : M KS unit :=
  match fuel with
  | O => out_of_fuel
  | S fuel =>
    v ← getvd; d ← arr (vd_desc v) i;
    let flag := vq_flags d in
    let nxt := vq_next d in
    free_desc i;;
    if truthy (Z.land flag VRING_DESC_F_NEXT) then free_chain_loop fuel nxt else ret tt
  end.
Definition free_chain (i : Z) : M KS unit := free_chain_loop (S NUM) i.

(** [idx] holds the descriptors allocated so far; [None] is the result -1. *)
Fixpoint alloc3_loop (n : nat) (idx : list Z) : M KS (option (list Z)) :=
  match n with
  | O => ret (Some idx)
  | S n =>
    i ← alloc_desc;
    if i <? 0 then for_each idx free_desc;; ret None
    else alloc3_loop n (idx ++ [i])
  end.
Definition alloc3_desc : M KS (option (list Z)) := alloc3_loop 3 [].

(** [while(1){ if(alloc3_desc(idx) == 0) break; sleep(...); }] *)
Fixpoint alloc3_wait (fuel : nat) : M W (list Z) :=
  match fuel with
  | O => out_of_fuel
  | S fuel =>
    r ← onw alloc3_desc;
    match r with
    | Some idx => ret idx
    | None => sleep C_disk_free L_vdisk;; alloc3_wait fuel
    end
  end.

(** [while(b->disk == 1) sleep(b, &disk.vdisk_lock);] *)
Fixpoint wait_done (fuel : nat) (b : nat) : M W unit :=
  match fuel with
  | O => out_of_fuel
  | S fuel =>
    x ← onw (getb b);
    if b_disk x =? 1 then sleep (C_buf b) L_vdisk;; wait_done fuel b else ret tt
  end.

(** The part of [virtio_disk_rw] that describes the request to the device. *)
Definition submit (b : nat) (write : bool) (sector i0 i1 i2 : Z) : M KS unit :=
  v ← getvd; arr (vd_ops v) i0;;
  updvd (fun v => v <| vd_ops ::= <[Z.to_nat i0 :=
    VirtioBlkReq (if write then VIRTIO_BLK_T_OUT else VIRTIO_BLK_T_IN) 0 sector]> |>);;
  upd_desc i0 (fun _ => VirtqDesc (D_ops (Z.to_nat i0)) REQSIZE VRING_DESC_F_NEXT i1);;
  upd_desc i1 (fun _ => VirtqDesc (D_data b) BSIZE
    (Z.lor (if write then 0 else VRING_DESC_F_WRITE) VRING_DESC_F_NEXT) i2);;
  v ← getvd; arr (vd_info_status v) i0;;
  updvd (fun v => v <| vd_info_status ::= <[Z.to_nat i0 := 0xff]> |>);;
  upd_desc i2 (fun _ => VirtqDesc (D_status (Z.to_nat i0)) 1 VRING_DESC_F_WRITE 0);;
  updb b (fun x => x <| b_disk := 1 |>);;
  v ← getvd; arr (vd_info_b v) i0;;
  updvd (fun v => v <| vd_info_b ::= <[Z.to_nat i0 := Some b]> |>);;
  updvd (fun v => v <| vd_avail_ring ::= <[Z.to_nat (vd_avail_idx v mod Z.of_nat NUM) := i0]> |>);;
  updvd (fun v => v <| vd_avail_idx ::= fun n => u16 (n + 1) |>);;
  queue_notify 0.

Definition virtio_disk_rw (b : nat) (write : bool) : M W unit :=
  x ← onw (getb b);
  let sector := u32 (b_blockno x * (BSIZE / 512)) in
  onw (lkm (acquire L_vdisk));;
  w ← get;
  idx ← alloc3_wait (S (length (w_env w)));
  i0 ← onw (arr idx 0); i1 ← onw (arr idx 1); i2 ← onw (arr idx 2);
  onw (submit b write sector i0 i1 i2);;
  w ← get;
  wait_done (S (length (w_env w))) b;;
  onw (v ← getvd; arr (vd_info_b v) i0;;
       updvd (fun v => v <| vd_info_b ::= <[Z.to_nat i0 := None]> |>));;
  onw (free_chain i0);;
  onw (lkm (release L_vdisk)).

Fixpoint intr_loop (fuel : nat) : M KS unit :=
  match fuel with
  | O => out_of_fuel
  | S fuel =>
    v ← getvd;
    if vd_used_idx v =? vd_used_dev v then ret tt else
    id ← arr (vd_used_ring v) (vd_used_idx v mod Z.of_nat NUM);
    st ← arr (vd_info_status v) id;
    when (negb (st =? 0)) (panic "virtio_disk_intr status");;
    b ← arr (vd_info_b v) id; b ← deref b;
    updb b (fun x => x <| b_disk := 0 |>);;
    wakeup (C_buf b);;
    updvd (fun v => v <| vd_used_idx ::= fun n => u16 (n + 1) |>);;
    intr_loop fuel
  end.

(** The two indices are 16-bit counters, so their distance bounds the rounds. *)
Definition virtio_disk_intr : M KS unit :=
  lkm (acquire L_vdisk);;
  st ← interrupt_status;
  interrupt_ack (Z.land st 0x3);;
  v ← getvd;
  intr_loop (S (Z.to_nat (u16 (vd_used_dev v - vd_used_idx v))));;
  lkm (release L_vdisk).

End virtio.
