(* ===== verification/VirtioFacts.v ===== *)
(** * The disk driver keeps the promise of [DiskLaws] (kernel/virtio_disk.c)

    A request is written to the descriptor table and offered in the ring, the
    caller sleeps, the device transfers the block, the interrupt handler wakes
    the caller, and the descriptors are freed again.  The device is given by
    the class [BlkDevice]. *)

From Stdlib Require Import ZArith Lia.
From stdpp Require Import base gmap strings numbers list.
From S2P Require Import Prelude Spinlock Mem Kstring Kalloc Vm Proc ProcFacts ProcOps Sched FsState Sleeplock FsFacts Virtio Bio BioFacts.
Local Open Scope xv6_scope.

(** ** The device *)

(** The chain of descriptors at [hd] asks for a transfer between buffer [b] and
    the disk at [sector]. *)
Definition chain_at (v : vdisk) (hd : nat) (write : bool) (sector : Z) (b st : nat) : Prop :=
  ∃ k n1 n2,
    vd_desc v !! hd = Some (VirtqDesc (D_ops k) REQSIZE VRING_DESC_F_NEXT n1) ∧
    vd_ops v !! k = Some (VirtioBlkReq (if write then VIRTIO_BLK_T_OUT else VIRTIO_BLK_T_IN) 0 sector) ∧
    vd_desc v !! Z.to_nat n1 = Some (VirtqDesc (D_data b) BSIZE
      (Z.lor (if write then 0 else VRING_DESC_F_WRITE) VRING_DESC_F_NEXT) n2) ∧
    vd_desc v !! Z.to_nat n2 = Some (VirtqDesc (D_status st) 1 VRING_DESC_F_WRITE 0).

(** The device has been notified, and the request at [hd] is the next one that
    it has not used yet. *)
Definition offered (v : vdisk) (hd : nat) : Prop :=
  vd_notified v = true ∧
  vd_avail_idx v ≠ vd_used_dev v ∧
  vd_avail_ring v !! Z.to_nat (vd_used_dev v mod Z.of_nat NUM) = Some (Z.of_nat hd).

(** The device reports success, adds [hd] to the used ring and sets the bit for
    the used ring in its interrupt status; when it has served all requests in
    the ring it waits for the next notification. *)
Definition used (hd st : nat) (v : vdisk) : vdisk :=
  v <| vd_info_status ::= <[st := 0]> |>
    <| vd_used_ring ::= <[Z.to_nat (vd_used_dev v mod Z.of_nat NUM) := Z.of_nat hd]> |>
    <| vd_used_dev ::= fun n => u16 (n + 1) |>
    <| vd_notified := negb (vd_avail_idx v =? u16 (vd_used_dev v + 1)) |>
    <| vd_isr ::= fun s => Z.lor s 1 |>.

(** The driver acknowledges what it has seen. *)
Definition acked (v : vdisk) : vdisk := v <| vd_isr ::= fun s => Z.land s (Z.lnot (Z.land s 3)) |>.

Definition upd_vd (f : vdisk → vdisk) (fs : fsstate) : fsstate := fs <| fs_vdisk ::= f |>.

Class BlkDevice := { blk_device : fsstate → option fsstate }.

(** A device that has been notified completes the next request of the ring
    (VIRTIO, sections 2.6 and 5.2). *)
Class BlkLaws `{BD : BlkDevice} := {
  blk_read_law : ∀ fs hd bn b st d,
    offered (fs_vdisk fs) hd → chain_at (fs_vdisk fs) hd false (2 * bn) b st → dk_blocks (fs_disk fs) !! bn = Some d →
    blk_device fs = Some (upd_vd (used hd st) (upd_buf b (fun x => x <| b_data := d |>) fs));
  blk_write_law : ∀ fs hd bn b st x,
    offered (fs_vdisk fs) hd → chain_at (fs_vdisk fs) hd true (2 * bn) b st → fs_buf fs !! b = Some x →
    is_Some (dk_blocks (fs_disk fs) !! bn) →
    blk_device fs = Some (upd_vd (used hd st) (disk_put bn (b_data x) fs))
}.

(** ** Rules *)

Section rules.
Context `{KI : KernelImage}.
Implicit Types s : KS.

Lemma wp_getvd s Q : wp getvd s Q = Q (fs_vdisk (ks_fs s)) s.
Proof. done. Qed.

Lemma wp_updvd f s Q : wp (updvd f) s Q = Q tt (fsk (upd_vd f) s).
Proof. done. Qed.

Lemma wp_arr {A} (l : list A) i x s Q : 0 ≤ i → l !! Z.to_nat i = Some x → Q x s → wp (arr l i) s Q.
Proof.
  intros Hi Hx HQ. unfold arr. destruct (Z.ltb_spec i 0); [lia|]. by rewrite Hx.
Qed.

Lemma wp_arr_in {A} (l : list A) i s Q : 0 ≤ i → (Z.to_nat i < length l)%nat → (∀ x, Q x s) → wp (arr l i) s Q.
Proof. intros Hi Hl HQ. destruct (lookup_lt_is_Some_2 l (Z.to_nat i) Hl) as [x Hx]. by eapply wp_arr. Qed.

Lemma alter_const {A} (y : A) k l : (k < length l)%nat → alter (fun _ => y) k l = <[k := y]> l.
Proof. intros H. destruct (lookup_lt_is_Some_2 l k H) as [x Hx]. by rewrite (alter_as_insert _ _ _ _ Hx). Qed.

Lemma wp_upd_desc i d s Q : 0 ≤ i → (Z.to_nat i < length (vd_desc (fs_vdisk (ks_fs s))))%nat →
  Q tt (fsk (upd_vd (fun v => v <| vd_desc ::= <[Z.to_nat i := d]> |>)) s) → wp (upd_desc i (fun _ => d)) s Q.
Proof.
  intros Hi Hd HQ. unfold upd_desc. rewrite wp_bind, wp_getvd, wp_bind. apply wp_arr_in; [done|done|]. intros x.
  rewrite wp_updvd. erewrite fsk_ext; [exact HQ|]. unfold upd_vd, setf. cbn. by rewrite alter_const.
Qed.

End rules.

#[export] Hint Rewrite @wp_getvd @wp_updvd : wpdb.

(** ** Descriptors *)

(** The arrays have [NUM] entries. *)
Record vd_shape (v : vdisk) : Prop := {
  vs_desc : length (vd_desc v) = NUM;
  vs_ring : length (vd_avail_ring v) = NUM;
  vs_used : length (vd_used_ring v) = NUM;
  vs_info : length (vd_info_b v) = NUM;
  vs_status : length (vd_info_status v) = NUM;
  vs_ops : length (vd_ops v) = NUM
}.

(** No request is under way, and every interrupt has been acknowledged. *)
Record vd_idle (v : vdisk) : Prop := {
  vi_shape : vd_shape v;
  vi_free : vd_free v = replicate NUM 1;
  vi_avail : vd_avail_idx v = vd_used_dev v;
  vi_seen : vd_used_idx v = vd_used_dev v;
  vi_num : 0 ≤ vd_used_dev v < 65536;
  vi_isr : vd_isr v = 0
}.

Section driver.
Context `{KI : KernelImage}.
Implicit Types s : KS.

(** [alloc_desc] takes the first free descriptor. *)
Lemma wp_alloc_desc k s Q :
  (k < NUM)%nat → (∀ j, (j < k)%nat → vd_free (fs_vdisk (ks_fs s)) !! j = Some 0) →
  vd_free (fs_vdisk (ks_fs s)) !! k = Some 1 →
  Q (Z.of_nat k) (fsk (upd_vd (fun v => v <| vd_free ::= <[k := 0]> |>)) s) → wp alloc_desc s Q.
Proof.
  intros Hk H0 H1 HQ. unfold alloc_desc. wp_simpl. replace NUM with (k + S (NUM - S k))%nat by lia.
  rewrite seq_app. cbn [seq plus]. set (rest := seq _ (NUM - S k)). clearbody rest.
  assert (∀ l, (∀ j, j ∈ l → (j < k)%nat) → wp (for_until (l ++ k :: rest) (fun i =>
    v ← getvd; f ← arr (vd_free v) (Z.of_nat i);
    if truthy f then updvd (fun v => v <| vd_free ::= <[i := 0]> |>);; ret (Some (Z.of_nat i)) else ret None)) s
    (fun r s' => Q (match r with Some i => i | None => -1 end) s')) as Hl; [|apply Hl; intros j Hj; apply elem_of_seq in Hj; lia].
  induction l as [|j l IH]; intros Hl; cbn [app for_until]; wp_simpl.
  - eapply wp_arr; [lia|by rewrite Nat2Z.id|]. change (truthy 1) with true. cbn iota. wp_simpl. exact HQ.
  - eapply wp_arr; [lia|rewrite Nat2Z.id; apply H0, Hl; by left|]. change (truthy 0) with false. cbn iota. wp_simpl.
    apply IH. intros j' Hj'. apply Hl. by right.
Qed.

(** With all descriptors free the request gets the first three. *)
Lemma wp_alloc3_idle s Q :
  vd_idle (fs_vdisk (ks_fs s)) →
  Q (Some [0; 1; 2]) (fsk (upd_vd (fun v => v <| vd_free := [0; 0; 0; 1; 1; 1; 1; 1] |>)) s) → wp alloc3_desc s Q.
Proof.
  intros [_ Hf _ _ _ _] HQ. unfold alloc3_desc. cbn [alloc3_loop]. wp_simpl.
  apply (wp_alloc_desc 0); [unfold NUM; lia|lia|by rewrite Hf|]. change (Z.of_nat 0 <? 0) with false. cbn iota. wp_simpl.
  apply (wp_alloc_desc 1); [unfold NUM; lia| |cbn; by rewrite Hf|].
  { intros [|j] Hj; [cbn; by rewrite Hf|lia]. }
  change (Z.of_nat 1 <? 0) with false. cbn iota. wp_simpl.
  apply (wp_alloc_desc 2); [unfold NUM; lia| |cbn; by rewrite Hf|].
  { intros [|[|j]] Hj; [cbn; by rewrite Hf|cbn; by rewrite Hf|lia]. }
  change (Z.of_nat 2 <? 0) with false. cbn iota. wp_simpl. rewrite !fsk_comp.
  erewrite fsk_ext; [exact HQ|]. destruct (ks_fs s) as [? ? ? ? ? ? ? v]. cbn in *. destruct v. cbn in *. subst. done.
Qed.

(** Freeing a descriptor that is in use. *)
Lemma wp_free_desc me s0 s k Q :
  calm me s0 → insec L_vdisk s0 s → (k < NUM)%nat → length (vd_desc (fs_vdisk (ks_fs s))) = NUM →
  vd_free (fs_vdisk (ks_fs s)) !! k = Some 0 →
  (∀ s', insec L_vdisk s0 s' →
     ks_fs s' = upd_vd (fun v => v <| vd_desc ::= <[k := VirtqDesc D_null 0 0 0]> |> <| vd_free ::= <[k := 1]> |>) (ks_fs s) →
     Q tt s') →
  wp (free_desc (Z.of_nat k)) s Q.
Proof.
  intros Hc Hs Hk Hd Hf HQ. unfold free_desc. rewrite (proj2 (Z.leb_gt _ _)) by lia. wp_simpl.
  eapply wp_arr; [lia|by rewrite Nat2Z.id|]. change (truthy 0) with false. wp_simpl.
  apply wp_upd_desc; [lia|by rewrite Nat2Z.id, Hd|]. wp_simpl. rewrite fsk_comp.
  apply (wp_wakeup_sec me L_vdisk s0); [done|done|by apply insec_fsk|]. intros s' Hs' ->. apply HQ; [done|].
  cbn. by rewrite Nat2Z.id.
Qed.

(** The request as the driver writes it, in descriptors 0, 1 and 2. *)
Definition submitted (b : nat) (write : bool) (sector : Z) (v : vdisk) : vdisk :=
  v <| vd_ops ::= <[0%nat := VirtioBlkReq (if write then VIRTIO_BLK_T_OUT else VIRTIO_BLK_T_IN) 0 sector]> |>
    <| vd_desc ::= fun l => <[2%nat := VirtqDesc (D_status 0) 1 VRING_DESC_F_WRITE 0]>
         (<[1%nat := VirtqDesc (D_data b) BSIZE (Z.lor (if write then 0 else VRING_DESC_F_WRITE) VRING_DESC_F_NEXT) 2]>
         (<[0%nat := VirtqDesc (D_ops 0) REQSIZE VRING_DESC_F_NEXT 1]> l)) |>
    <| vd_info_status ::= <[0%nat := 0xff]> |>
    <| vd_info_b ::= <[0%nat := Some b]> |>
    <| vd_avail_ring ::= <[Z.to_nat (vd_avail_idx v mod Z.of_nat NUM) := 0]> |>
    <| vd_avail_idx ::= fun n => u16 (n + 1) |>
    <| vd_notified := true |>.

Lemma wp_submit b write sector x s Q :
  vd_shape (fs_vdisk (ks_fs s)) → fs_buf (ks_fs s) !! b = Some x →
  Q tt (fsk (fun fs => upd_buf b (fun x => x <| b_disk := 1 |>) (upd_vd (submitted b write sector) fs)) s) →
  wp (submit b write sector 0 1 2) s Q.
Proof.
  intros [S1 S2 S3 S4 S5 S6] Hx HQ. unfold NUM in *. unfold submit, queue_notify. wp_simpl.
  apply wp_arr_in; [lia|lia|]. intros _. wp_simpl.
  apply wp_upd_desc; [lia|cbn; lia|]. wp_simpl. apply wp_upd_desc; [lia|cbn; rewrite length_insert; lia|]. wp_simpl.
  apply wp_arr_in; [lia|cbn; lia|]. intros _. wp_simpl.
  apply wp_upd_desc; [lia|cbn; rewrite !length_insert; lia|]. wp_simpl.
  eapply wp_updb; [exact Hx|]. wp_simpl. apply wp_arr_in; [lia|cbn; lia|]. intros _. wp_simpl.
  exact HQ.
Qed.


(** One finished request: the handler marks its buffer and wakes the sleepers. *)
Lemma wp_intr_rounds me s0 s hd b x (n := vd_used_idx (fs_vdisk (ks_fs s))) Q :
  calm me s0 → insec L_vdisk s0 s → fs_buf (ks_fs s) !! b = Some x → 0 ≤ n < 65536 →
  vd_used_dev (fs_vdisk (ks_fs s)) = u16 (n + 1) →
  vd_used_ring (fs_vdisk (ks_fs s)) !! Z.to_nat (n mod Z.of_nat NUM) = Some (Z.of_nat hd) →
  vd_info_status (fs_vdisk (ks_fs s)) !! hd = Some 0 → vd_info_b (fs_vdisk (ks_fs s)) !! hd = Some (Some b) →
  (∀ s', insec L_vdisk s0 s' → ks_proc s' = imap (wake (C_buf b) me) (ks_proc s) →
     ks_fs s' = upd_vd (fun v => v <| vd_used_idx ::= fun n => u16 (n + 1) |>)
       (upd_buf b (fun x => x <| b_disk := 0 |>) (ks_fs s)) → Q tt s') →
  wp (intr_loop 2) s Q.
Proof.
  intros Hc Hs Hx Hn Hdev Hring Hst Hb HQ.
  cbn [intr_loop]. wp_simpl. fold n. rewrite (proj2 (Z.eqb_neq n _)) by (rewrite Hdev; zlia). wp_simpl.
  eapply wp_arr; [apply Z.mod_pos_bound; unfold NUM; lia|exact Hring|]. wp_simpl.
  eapply wp_arr; [lia|by rewrite Nat2Z.id|]. cbn [Z.eqb negb]. wp_simpl.
  eapply wp_arr; [lia|by rewrite Nat2Z.id|]. wp_simpl. eapply wp_updb; [exact Hx|]. wp_simpl.
  apply (wp_wakeup_sec me L_vdisk s0); [done|done|by apply insec_fsk|]. intros s2 Hs2 ->. wp_simpl.
  cbn [fsk upd_vd upd_procs setf ks_fs fs_vdisk vd_used_idx vd_used_dev]. cbn. fold n. rewrite Hdev, Z.eqb_refl. wp_simpl.
  apply HQ; [by apply insec_fsk|done|done].
Qed.

Lemma wp_intr me s hd b x Q :
  calm me s → fs_buf (ks_fs s) !! b = Some x → 0 ≤ vd_used_idx (fs_vdisk (ks_fs s)) < 65536 →
  vd_used_dev (fs_vdisk (ks_fs s)) = u16 (vd_used_idx (fs_vdisk (ks_fs s)) + 1) →
  vd_used_ring (fs_vdisk (ks_fs s)) !! Z.to_nat (vd_used_idx (fs_vdisk (ks_fs s)) mod Z.of_nat NUM) = Some (Z.of_nat hd) →
  vd_info_status (fs_vdisk (ks_fs s)) !! hd = Some 0 → vd_info_b (fs_vdisk (ks_fs s)) !! hd = Some (Some b) →
  (∀ s', frame s s' → ks_proc s' = imap (wake (C_buf b) me) (ks_proc s) →
     ks_fs s' = upd_vd (fun v => (acked v) <| vd_used_idx ::= fun n => u16 (n + 1) |>)
       (upd_buf b (fun x => x <| b_disk := 0 |>) (ks_fs s)) → Q tt s') →
  wp virtio_disk_intr s Q.
Proof.
  intros Hc Hx Hn Hdev Hring Hst Hb HQ. unfold virtio_disk_intr, interrupt_status, interrupt_ack. wp_simpl.
  apply wp_acq; [apply Hc|by apply Hc|]. wp_simpl.
  match goal with |- context [Z.to_nat ?d] => replace (Z.to_nat d) with 1%nat end.
  2:{ change (1%nat = Z.to_nat (u16 (vd_used_dev (fs_vdisk (ks_fs s)) - vd_used_idx (fs_vdisk (ks_fs s))))). rewrite Hdev.
      assert (u16 (u16 (vd_used_idx (fs_vdisk (ks_fs s)) + 1) - vd_used_idx (fs_vdisk (ks_fs s))) = 1) as -> by zlia. done. }
  eapply (wp_intr_rounds me s _ hd b x); [done|apply insec_fsk, insec_start|done..|]. intros s2 Hs2 Hp2 Hfs2. wp_simpl.
  eapply (wp_end_sec me L_vdisk s); [done|done|done|]. intros s' Hf Hfs Hp. apply HQ; [done|by rewrite Hp|by rewrite Hfs].
Qed.

(** Freeing the chain of a submitted request. *)
Lemma wp_free_chain3 me s0 s k0 k1 k2 Q (v := fs_vdisk (ks_fs s)) :
  calm me s0 → insec L_vdisk s0 s → length (vd_desc v) = NUM →
  (k0 < NUM)%nat → (k1 < NUM)%nat → (k2 < NUM)%nat → k0 ≠ k1 → k0 ≠ k2 → k1 ≠ k2 →
  vd_free v !! k0 = Some 0 → vd_free v !! k1 = Some 0 → vd_free v !! k2 = Some 0 →
  (∃ d, vd_desc v !! k0 = Some d ∧ truthy (Z.land (vq_flags d) VRING_DESC_F_NEXT) = true ∧ vq_next d = Z.of_nat k1) →
  (∃ d, vd_desc v !! k1 = Some d ∧ truthy (Z.land (vq_flags d) VRING_DESC_F_NEXT) = true ∧ vq_next d = Z.of_nat k2) →
  (∃ d, vd_desc v !! k2 = Some d ∧ truthy (Z.land (vq_flags d) VRING_DESC_F_NEXT) = false) →
  (∀ s', insec L_vdisk s0 s' →
     ks_fs s' = upd_vd (fun v => v <| vd_desc ::= fun l => <[k2 := VirtqDesc D_null 0 0 0]>
       (<[k1 := VirtqDesc D_null 0 0 0]> (<[k0 := VirtqDesc D_null 0 0 0]> l)) |>
       <| vd_free ::= fun l => <[k2 := 1]> (<[k1 := 1]> (<[k0 := 1]> l)) |>) (ks_fs s) → Q tt s') →
  wp (free_chain (Z.of_nat k0)) s Q.
Proof.
  intros Hc Hs Hd L0 L1 L2 N1 N2 N3 F0 F1 F2 (d0 & D0 & G0 & X0) (d1 & D1 & G1 & X1) (d2 & D2 & G2) HQ.
  unfold free_chain. change (S NUM) with 9%nat. unfold v in *. cbn [free_chain_loop]. wp_simpl.
  eapply wp_arr; [lia|by rewrite Nat2Z.id|]. wp_simpl. apply (wp_free_desc me s0); [done..|].
  intros s1 Hs1 E1. rewrite G0, X0. wp_simpl.
  eapply wp_arr; [lia|rewrite Nat2Z.id, E1; cbn; by rewrite list_lookup_insert_ne|]. wp_simpl.
  apply (wp_free_desc me s0); [done|done|done|by rewrite E1; cbn; rewrite length_insert|by rewrite E1; cbn; rewrite list_lookup_insert_ne|].
  intros s2 Hs2 E2. rewrite E1 in E2. rewrite G1, X1. wp_simpl.
  eapply wp_arr; [lia|rewrite Nat2Z.id, E2; cbn; by rewrite !list_lookup_insert_ne|]. wp_simpl.
  apply (wp_free_desc me s0); [done|done|done|by rewrite E2; cbn; rewrite !length_insert|by rewrite E2; cbn; rewrite !list_lookup_insert_ne|].
  intros s3 Hs3 E3. rewrite E2 in E3. rewrite G2. wp_simpl. apply HQ; [done|]. rewrite E3. done.
Qed.

End driver.

(** ** Waiting for the device *)

Section wait.
Context `{KI : KernelImage} `{BD : BlkDevice}.
Implicit Types (s : KS) (ev : KS → KS).

(** The hart has left the sleeping process, the device is done, and its
    interrupt arrives in the scheduler. *)
Definition interrupted (i : nat) (fs : fsstate) (s : KS) : KS :=
  set_kmach (with_proc None (rel (L_proc i) (ks_mach s))) (fsk (fun _ => fs) s).

(** While the process sleeps the device completes its request, the handler
    runs, and the scheduler resumes the process.  The device raises no interrupt
    while an earlier one has not been acknowledged. *)
Definition serves ev : Prop := ∀ i s fs s',
  cur (ks_mach s) = Some i → vd_isr (fs_vdisk (ks_fs s)) = 0 → blk_device (ks_fs s) = Some fs →
  virtio_disk_intr (interrupted i fs s) = Ret tt s' →
  ev s = set_kmach (ks_mach s) (upd_procs (alter chosen i) s').

Lemma set_ie_id m : set_ie (sie m) m = m.
Proof.
  destruct m as [tp st cs lk]. unfold set_ie, set_sstatus, sie. cbn [sstatus]. f_equal.
  apply Z.bits_inj'. intros n Hn. unfold truthy. destruct (Z.eqb_spec (Z.land st SSTATUS_SIE) 0) as [H|H]; cbn [negb].
  - rewrite Z.land_spec, Z.lnot_spec by done. pose proof (f_equal (fun x => Z.testbit x n) H) as Hb. cbn beta in Hb.
    rewrite Z.land_spec, Z.bits_0 in Hb. destruct (Z.testbit st n), (Z.testbit SSTATUS_SIE n); done.
  - rewrite Z.lor_spec. change SSTATUS_SIE with (2 ^ 1) in *. rewrite Z.pow2_bits_eqb by done.
    destruct (Z.eqb_spec 1 n) as [<-|]; [|by rewrite orb_false_r]. rewrite orb_true_r.
    destruct (Z.testbit st 1) eqn:E; [done|]. destruct H. apply Z.bits_inj'. intros k Hk.
    rewrite Z.land_spec, Z.pow2_bits_eqb, Z.bits_0 by done. destruct (Z.eqb_spec 1 k) as [<-|]; [by rewrite E|apply andb_false_r].
Qed.

Lemma interrupted_calm i s0 s fs :
  quiet i s0 → ks_mach s = acq (L_proc i) (ks_mach s0) → length (ks_proc s) = NPROC → calm None (interrupted i fs s).
Proof.
  intros [[H1 H1' _ _] H2 H3 _] Hm Hl. unfold interrupted. rewrite Hm, rel_acq by done.
  assert (norm (ks_mach s0) ≡ ks_mach s0) as Hn by apply norm_equiv.
  split; [apply mach_ok_with_proc; by rewrite Hn|apply cur_with_proc; by rewrite Hn| |done].
  intros lk Hlk. change (lock_free lk (norm (ks_mach s0))). rewrite Hn. by apply H2.
Qed.

(** The sleeper is itself again; others may have been woken. *)
Lemma woken_sleeper c i p ps :
  ps !! i = Some p → p_state p = RUNNING → p_chan p = C_null →
  woken ps (alter awake i (alter chosen i (imap (wake c None) (alter (asleep c) i ps)))).
Proof.
  intros Hp Hst Hch. apply Forall2_same_length_lookup. split; [by rewrite !length_alter, length_imap, length_alter|].
  intros j q q' Hq Hq'. destruct (decide (i = j)) as [<-|Hne].
  - left. rewrite !list_lookup_alter_eq, list_lookup_imap, list_lookup_alter_eq, Hp in Hq'. cbn in Hq'.
    rewrite Hp in Hq. injection Hq as <-. injection Hq' as <-. unfold wake.
    rewrite decide_True by done. destruct p. cbn in *. by subst.
  - rewrite !list_lookup_alter_ne, list_lookup_imap, list_lookup_alter_ne, Hq in Hq' by done. injection Hq' as <-.
    unfold wake. case_decide as H; [right|by left]. split; [apply H|done].
Qed.

Lemma wp_wait_done i s0 s ev es b x x1 hd fs1 (Q : unit → W → Prop) :
  quiet i s0 → insec L_vdisk s0 s → fs_buf (ks_fs s) !! b = Some x → b_disk x = 1 → serves ev →
  ks_proc s = ks_proc s0 → vd_isr (fs_vdisk (ks_fs s)) = 0 → blk_device (ks_fs s) = Some fs1 →
  fs_buf fs1 !! b = Some x1 → 0 ≤ vd_used_idx (fs_vdisk fs1) < 65536 →
  vd_used_dev (fs_vdisk fs1) = u16 (vd_used_idx (fs_vdisk fs1) + 1) →
  vd_used_ring (fs_vdisk fs1) !! Z.to_nat (vd_used_idx (fs_vdisk fs1) mod Z.of_nat NUM) = Some (Z.of_nat hd) →
  vd_info_status (fs_vdisk fs1) !! hd = Some 0 → vd_info_b (fs_vdisk fs1) !! hd = Some (Some b) →
  (∀ s', insec L_vdisk s0 s' →
     ks_fs s' = upd_vd (fun v => (acked v) <| vd_used_idx ::= fun n => u16 (n + 1) |>) (upd_buf b (fun x => x <| b_disk := 0 |>) fs1) →
     Q tt (World s' es)) →
  wp (wait_done (S (S (length es))) b) (World s (ev :: es)) Q.
Proof.
  intros Hq Hs Hx Hdk Hev Hps Hisr Hblk Hx1 Hn Hdev Hring Hst Hb HQ. pose proof Hq as [Hru Hfr Hlen (p & Hp & Hpr & Hpc)].
  cbn [wait_done]. wp_simpl. eapply wp_getb; [exact Hx|]. rewrite Hdk. cbn [Z.eqb Pos.eqb]. wp_simpl.
  set (m := ks_mach s0) in *. set (s1 := set_kmach (acq (L_proc i) m) (upd_procs (alter (asleep (C_buf b)) i) s)).
  assert (calm None (interrupted i fs1 s1)) as Hcalm.
  { apply (interrupted_calm i s0); [done|done|]. cbn. by rewrite length_alter, Hps. }
  assert (wp virtio_disk_intr (interrupted i fs1 s1) (fun _ s' => frame (interrupted i fs1 s1) s' ∧
    ks_proc s' = imap (wake (C_buf b) None) (ks_proc s1) ∧ ks_fs s' = upd_vd (fun v => (acked v) <| vd_used_idx ::= fun n => u16 (n + 1) |>)
      (upd_buf b (fun x => x <| b_disk := 0 |>) fs1))) as ([] & s2 & Hs2 & Hf2 & Hp2 & Hfs2)%wp_inv
    by (by eapply (wp_intr None _ hd b x1)).
  assert (cur (ks_mach s1) = Some i) as Hcur by (etrans; [apply cur_acq|apply Hru]).
  pose proof (Hev i s1 fs1 s2 Hcur Hisr Hblk Hs2) as E. change (ks_mach s1) with (acq (L_proc i) m) in E.
  eapply wp_mono; [eapply (wp_sleep (C_buf b) L_vdisk i p m s ev es m)|].
  { exact Hru. } { by apply Hfr. } { done. } { apply Hs. } { by rewrite Hps. } { exact Hru. } { by apply Hfr. }
  { fold s1. by rewrite E. }
  { fold s1. rewrite E. cbn. rewrite Hp2. cbn. rewrite list_lookup_alter_eq, list_lookup_imap, list_lookup_alter_eq, Hps, Hp. done. }
  fold s1. rewrite E, set_ie_id. cbn beta. intros r w' [_ ->].
  assert (fs_buf (ks_fs s2) !! b = Some (x1 <| b_disk := 0 |>)) as Hx2 by (rewrite Hfs2; cbn; by rewrite list_lookup_alter_eq, Hx1).
  wp_simpl. eapply wp_getb; [exact Hx2|]. cbn [b_disk setf buf_eta Z.eqb]. wp_simpl.
  apply HQ; [|exact Hfs2]. split; [done|].
  destruct Hf2 as [A1 A2 A3 A4 A5 A6 A7 A8 A9]. destruct (is_frame _ _ _ Hs) as [B1 B2 B3 B4 B5 B6 B7 B8 B9].
  cbn in *. split; cbn; try congruence.
  rewrite Hp2, Hps. by eapply woken_sleeper.
Qed.

(** ** One request *)

(** The file system's state when the request has been offered. *)
Definition offer (b : nat) (write : bool) (sector : Z) (fs : fsstate) : fsstate :=
  upd_buf b (fun x => x <| b_disk := 1 |>)
    (upd_vd (submitted b write sector) (upd_vd (fun v => v <| vd_free := [0; 0; 0; 1; 1; 1; 1; 1] |>) fs)).

Lemma submitted_shape b write sector v : vd_shape v → vd_shape (submitted b write sector v).
Proof. intros [S1 S2 S3 S4 S5 S6]. split; cbn; rewrite ?length_insert; done. Qed.

Lemma offer_offered b write sector fs : vd_idle (fs_vdisk fs) →
  offered (fs_vdisk (offer b write sector fs)) 0 ∧ chain_at (fs_vdisk (offer b write sector fs)) 0 write sector b 0.
Proof.
  intros [[S1 S2 S3 S4 S5 S6] _ Ha _ Hn _]. unfold NUM in *. split.
  - split; [done|]. split; cbn; rewrite Ha; [zlia|]. apply list_lookup_insert_eq. rewrite S2.
    pose proof (Z.mod_pos_bound (vd_used_dev (fs_vdisk fs)) 8 ltac:(lia)). change (Z.of_nat NUM) with 8. lia.
  - exists 0%nat, 1, 2. cbn. split; [|split; [|split]].
    + rewrite !list_lookup_insert_ne by lia. apply list_lookup_insert_eq. lia.
    + apply list_lookup_insert_eq. lia.
    + change (Z.to_nat 1) with 1%nat. rewrite list_lookup_insert_ne by lia. apply list_lookup_insert_eq. rewrite length_insert. lia.
    + change (Z.to_nat 2) with 2%nat. apply list_lookup_insert_eq. rewrite !length_insert. lia.
Qed.

(** The driver's state when the descriptors are free again. *)
Lemma freed_idle b write sector v (u := used 0 0 (submitted b write sector (v <| vd_free := [0; 0; 0; 1; 1; 1; 1; 1] |>))) :
  vd_idle v →
  vd_idle ((acked u) <| vd_used_idx ::= fun n => u16 (n + 1) |> <| vd_info_b ::= <[0%nat := None]> |>
    <| vd_desc ::= fun l => <[2%nat := VirtqDesc D_null 0 0 0]> (<[1%nat := VirtqDesc D_null 0 0 0]> (<[0%nat := VirtqDesc D_null 0 0 0]> l)) |>
    <| vd_free ::= fun l => <[2%nat := 1]> (<[1%nat := 1]> (<[0%nat := 1]> l)) |>).
Proof.
  intros [[S1 S2 S3 S4 S5 S6] Hf Ha Hu Hn Hi]. split; [split; cbn; by rewrite ?length_insert|done| | | |]; cbn.
  - by rewrite Ha.
  - by rewrite Hu.
  - unfold u16. zlia.
  - by rewrite Hi.
Qed.

Lemma upd_vd_chain b f g h j k fs :
  upd_vd f (upd_vd g (upd_vd h (upd_buf b k (upd_vd j fs)))) = (upd_buf b k fs) <| fs_vdisk := f (g (h (j (fs_vdisk fs)))) |>.
Proof. done. Qed.

Lemma wp_request i s0 ev es b x write sub (T : fsstate → fsstate) (Q : unit → W → Prop) :
  sub = offer b write (u32 (b_blockno x * 2)) (ks_fs s0) →
  quiet i s0 → vd_idle (fs_vdisk (ks_fs s0)) → serves ev → fs_buf (ks_fs s0) !! b = Some x →
  blk_device sub = Some (upd_vd (used 0 0) (T sub)) → fs_vdisk (T sub) = fs_vdisk sub → is_Some (fs_buf (T sub) !! b) →
  (∀ s' v, frame s0 s' → vd_idle v → ks_fs s' = (upd_buf b (fun x => x <| b_disk := 0 |>) (T sub)) <| fs_vdisk := v |> →
     Q tt (World s' es)) →
  wp (Virtio.virtio_disk_rw b write) (World s0 (ev :: es)) Q.
Proof.
  intros Esub Hq Hid Hev Hx Hblk HT [x1 Hx1] HQ. pose proof Hid as [Hsh Hf Ha Hu Hn Hi]. pose proof Hsh as [S1 S2 S3 S4 S5 S6].
  pose proof (quiet_calm _ _ Hq) as Hcalm.
  unfold Virtio.virtio_disk_rw. wp_simpl. eapply wp_getb; [exact Hx|]. wp_simpl.
  apply wp_acq; [apply Hq|by apply Hq|]. wp_simpl. cbn [w_env length alloc3_wait]. wp_simpl.
  apply wp_alloc3_idle; [exact Hid|]. wp_simpl. eapply wp_arr; [lia|done|]. wp_simpl. eapply wp_arr; [lia|done|]. wp_simpl.
  eapply wp_arr; [lia|done|]. wp_simpl.
  apply (wp_submit b write _ x); [by destruct Hsh|exact Hx|]. wp_simpl. rewrite fsk_comp. set (s1 := fsk _ _).
  assert (ks_fs s1 = sub) as E1 by (by rewrite Esub). cbn [w_env length].
  eapply (wp_wait_done i s0 s1 ev es b (x <| b_disk := 1 |>) x1 0 (upd_vd (used 0 0) (T sub)));
    [done|apply insec_fsk, insec_start| |done|done|done|by rewrite E1, Esub|by rewrite E1|exact Hx1| | | | | |].
  { rewrite E1, Esub. cbn. by rewrite list_lookup_alter_eq, Hx. }
  { cbn. rewrite HT, Esub. cbn. rewrite Hu. exact Hn. }
  { cbn. rewrite HT, Esub. cbn. by rewrite Hu. }
  { cbn. rewrite HT, Esub. cbn. rewrite Hu. apply list_lookup_insert_eq. rewrite S3. unfold NUM.
    pose proof (Z.mod_pos_bound (vd_used_dev (fs_vdisk (ks_fs s0))) 8 ltac:(lia)). change (Z.of_nat 8) with 8. change (Z.of_nat NUM) with 8. lia. }
  { cbn. rewrite HT, Esub. cbn. apply list_lookup_insert_eq. rewrite length_insert, S5. unfold NUM. lia. }
  { cbn. rewrite HT, Esub. cbn. apply list_lookup_insert_eq. rewrite S4. unfold NUM. lia. }
  intros s2 Hs2 E2. wp_simpl. unfold NUM in *.
  apply wp_arr_in; [lia|rewrite E2; cbn; rewrite HT, Esub; cbn; rewrite length_insert; lia|]. intros _. wp_simpl.
  change 0 with (Z.of_nat 0) at 1.
  apply (wp_free_chain3 (Some i) s0 _ 0 1 2); try done; [by apply insec_fsk|..]; unfold NUM; try lia; try (cbn; rewrite E2; cbn; rewrite HT, Esub).
  { cbn. by rewrite !length_insert. }
  { done. } { done. } { done. }
  { eexists. split; [cbn; rewrite !list_lookup_insert_ne, list_lookup_insert_eq by (rewrite ?length_insert; lia); done|done]. }
  { eexists. split; [cbn; rewrite list_lookup_insert_ne, list_lookup_insert_eq by (rewrite ?length_insert; lia); done|by destruct write]. }
  { eexists. split; [cbn; rewrite list_lookup_insert_eq by (rewrite ?length_insert; lia); done|done]. }
  intros s3 Hs3 E3. wp_simpl. eapply (wp_end_sec (Some i) L_vdisk s0); [done|done|done|].
  intros s4 Hf4 Hfs4 _. eapply HQ; [done|apply (freed_idle b write (u32 (b_blockno x * 2)) _ Hid)|].
  rewrite Hfs4, E3. cbn [fsk setf ks_fs kstate_eta]. rewrite E2, upd_vd_chain, HT, Esub. cbn beta. change (Z.to_nat 0) with 0%nat.
  reflexivity.
Qed.

End wait.

(** ** The promise *)

#[export] Instance virtio_disk `{KI : KernelImage} : DiskOps := {| Bio.virtio_disk_rw := Virtio.virtio_disk_rw |}.

Section laws.
Context `{KI : KernelImage} `{BL : BlkLaws}.

(** The environment serves at least [n] more requests. *)
Definition served (n : nat) (e : list (KS → KS)) : Prop := ∃ evs es, e = evs ++ es ∧ length evs = n ∧ Forall serves evs.

Lemma served_S n e : served (S n) e → served n e.
Proof.
  intros (evs & es & -> & Hl & Hs). exists (take n evs), (drop n evs ++ es).
  rewrite app_assoc, take_drop, length_take. split; [done|]. split; [lia|]. by apply Forall_take.
Qed.

Lemma served_cons n e : served (S n) e → ∃ ev es, e = ev :: es ∧ serves ev ∧ served n es.
Proof.
  intros ([|ev evs] & es & -> & Hl & Hs); [done|]. apply Forall_cons in Hs as [H1 H2].
  exists ev, (evs ++ es). split; [done|]. split; [done|]. exists evs, es. cbn in Hl. auto with lia.
Qed.

Lemma sector_of bn : 0 ≤ bn < 2 ^ 31 → u32 (bn * 2) = 2 * bn.
Proof. intros H. unfold u32. rewrite Z.mod_small; lia. Qed.

Lemma vd_upd_buf b f fs : fs_vdisk (upd_buf b f fs) = fs_vdisk fs.
Proof. by destruct fs. Qed.

Lemma vd_disk_put bn d fs : fs_vdisk (disk_put bn d fs) = fs_vdisk fs.
Proof. by destruct fs. Qed.

Lemma virtio_read i n s e b x d :
  quiet i s → vd_idle (fs_vdisk (ks_fs s)) → served (S n) e → (b < NBUF)%nat →
  fs_buf (ks_fs s) !! b = Some x → owned (pid_of i s) x →
  dk_blocks (fs_disk (ks_fs s)) !! b_blockno x = Some d → 0 ≤ b_blockno x < 2 ^ 31 →
  wp (Virtio.virtio_disk_rw b false) (World s e) (fun _ w' =>
    served n (w_env w') ∧ frame s (w_k w') ∧ ∃ v, vd_idle v ∧
    ks_fs (w_k w') = (upd_buf b (fun x => x <| b_disk := 0 |> <| b_data := d |>) (ks_fs s)) <| fs_vdisk := v |>).
Proof.
  intros Hq Hid Hrd Hb Hx Hown Hd Hbn. destruct (served_cons _ _ Hrd) as (ev & es & -> & Hev & Hes).
  destruct (offer_offered b false (u32 (b_blockno x * 2)) (ks_fs s) Hid) as [Ho Hc].
  eapply (wp_request i s ev es b x false _ (upd_buf b (fun x => x <| b_data := d |>))); [reflexivity|exact Hq|exact Hid|exact Hev|exact Hx| |apply vd_upd_buf| |].
  - rewrite (sector_of _ Hbn) in *. by apply (blk_read_law _ _ (b_blockno x)).
  - cbn. by rewrite !list_lookup_alter_eq, Hx.
  - intros s' v Hf Hv Hfs. split; [done|]. split; [done|]. exists v. split; [done|]. cbn [w_k]. rewrite Hfs.
    unfold offer, upd_buf, upd_vd, setf. cbn. rewrite !list_alter_alter_eq. done.
Qed.

Lemma virtio_write i n s e b x :
  quiet i s → vd_idle (fs_vdisk (ks_fs s)) → served (S n) e → (b < NBUF)%nat →
  fs_buf (ks_fs s) !! b = Some x → owned (pid_of i s) x →
  is_Some (dk_blocks (fs_disk (ks_fs s)) !! b_blockno x) → 0 ≤ b_blockno x < 2 ^ 31 →
  wp (Virtio.virtio_disk_rw b true) (World s e) (fun _ w' =>
    served n (w_env w') ∧ frame s (w_k w') ∧ ∃ v, vd_idle v ∧
    ks_fs (w_k w') = (disk_put (b_blockno x) (b_data x) (upd_buf b (fun x => x <| b_disk := 0 |>) (ks_fs s))) <| fs_vdisk := v |>).
Proof.
  intros Hq Hid Hrd Hb Hx Hown Hd Hbn. destruct (served_cons _ _ Hrd) as (ev & es & -> & Hev & Hes).
  destruct (offer_offered b true (u32 (b_blockno x * 2)) (ks_fs s) Hid) as [Ho Hc].
  eapply (wp_request i s ev es b x true _ (disk_put (b_blockno x) (b_data x))); [reflexivity|exact Hq|exact Hid|exact Hev|exact Hx| |apply vd_disk_put| |].
  - rewrite (sector_of _ Hbn) in *.
    pose proof (blk_write_law _ _ (b_blockno x) _ _ (x <| b_disk := 1 |>) Ho Hc) as Hw.
    change (b_data (x <| b_disk := 1 |>)) with (b_data x) in Hw. apply Hw; [|exact Hd].
    cbn. by rewrite list_lookup_alter_eq, Hx.
  - cbn. by rewrite list_lookup_alter_eq, Hx.
  - intros s' v Hf Hv Hfs. split; [done|]. split; [done|]. exists v. split; [done|]. cbn [w_k]. rewrite Hfs.
    unfold offer, upd_buf, upd_vd, disk_put, setf. cbn. rewrite !list_alter_alter_eq. done.
Qed.

#[export] Instance virtio_laws : DiskLaws := {|
  disk_idle := vd_idle; disk_ready := served; disk_ready_S := served_S;
  disk_read_law := virtio_read; disk_write_law := virtio_write
|}.

End laws.
