(* ===== verification/Storage.v ===== *)
(** * The storage stack

    Theorems on the disk driver, the buffer cache and the log together, each
    with an example: a small disk with a log, served by a device that completes
    one request at a time. *)

From Stdlib Require Import ZArith Lia.
From stdpp Require Import base gmap strings numbers list.
From S2P Require Import Prelude Spinlock Mem Kstring Kalloc Vm Proc ProcFacts ProcOps Signals Sched FsState Sleeplock FsFacts Sample Virtio Bio BioFacts BioOps Log LogFacts LogCommit LogOps VirtioFacts.
Local Open Scope xv6_scope.

(** ** Theorems *)

Section driver.
Context `{KI : KernelImage} `{BL : BlkLaws}.

(** C7. [virtio_disk_rw] transfers exactly one block between the buffer and the
    disk, marks the buffer as done, and returns with all its descriptors free
    again, whatever state the rings were left in by earlier requests; nothing
    else changes but that processes may have been woken.  The device serves only
    requests it has been notified of, and interrupts only when its last interrupt
    has been acknowledged, as it is again in the end. *)
Theorem virtio_disk_rw_correct i n s e b x d (write : bool) :
  quiet i s → vd_idle (fs_vdisk (ks_fs s)) → served (S n) e → (b < NBUF)%nat →
  fs_buf (ks_fs s) !! b = Some x → owned (pid_of i s) x →
  dk_blocks (fs_disk (ks_fs s)) !! b_blockno x = Some d → 0 ≤ b_blockno x < 2 ^ 31 →
  wp (Virtio.virtio_disk_rw b write) (World s e) (fun _ w' =>
    served n (w_env w') ∧ frame s (w_k w') ∧ ∃ v, vd_idle v ∧
    ks_fs (w_k w') = (if write
      then disk_put (b_blockno x) (b_data x) (upd_buf b (fun x => x <| b_disk := 0 |>) (ks_fs s))
      else upd_buf b (fun x => x <| b_disk := 0 |> <| b_data := d |>) (ks_fs s)) <| fs_vdisk := v |>).
Proof.
  intros Hq Hid Hrd Hb Hx Hown Hd Hbn.
  destruct write; [by apply (virtio_write i n s e b x); try done; exists d|by apply (virtio_read i n s e b x d)].
Qed.

End driver.

Section storage.
Context `{KI : KernelImage} `{DO : DiskOps} `{DL : !DiskLaws}.
Implicit Types (w : W) (a : bstore).

(** C12. [bread] implements a read of the abstract block store: the buffer it
    returns is locked by the caller and holds the block's current contents,
    the block has one more reference, no other block changes, and nothing is
    written to the disk.  The buffer may have been in the cache, or recycled
    from the least recently used one. *)
Theorem bread_refines i n w a bn :
  at_fs i (S n) w a → is_Some (bs_disk a !! bn) → bn ∉ bs_locked a →
  (is_Some (bs_refs a !! bn) ∨ (size (bs_refs a) < NBUF)%nat) → refs a bn + 1 < 2 ^ 32 →
  wp (bread ROOTDEV bn) w (fun b w' =>
    at_fs i n w' (lock_block bn (set_refs bn (refs a bn + 1) a)) ∧ fstep [] w w' ∧
    ∃ x, fs_buf (ks_fs (w_k w')) !! b = Some x ∧ b_blockno x = bn ∧ bs_mem a !! bn = Some (b_data x)).
Proof.
  destruct w as [s e]. intros Hat Hd Hnl Hroom Hb. eapply (wp_bread i n s e a bn); try done.
  intros b w' Hat' Hst _ Hld. split; [done|]. split; [done|].
  destruct (loaded_data _ _ _ _ _ (af_rep _ _ _ _ Hat') Hld) as (x & _ & Hx & _ & Hbn & _ & _ & Hm). by exists x.
Qed.

(** C2. [commit] is atomic across crashes.  It writes the log, the header, the
    home blocks and the empty header, in this order; whatever prefix of these
    writes has reached the disk when the machine stops, recovery at the next
    boot succeeds and leaves every block outside the log with its contents
    from before the transaction, or every block with those from after it. *)
Theorem commit_crash_atomic i n w a start hs ds d0 :
  at_fs i (6 * length hs + 4 + n) w a → committing i w a start hs ds d0 → hs ≠ [] → head_is d0 [] →
  wp commit w (fun _ w' => ∃ tr,
    dk_trace (fs_disk (ks_fs (w_k w'))) = dk_trace (fs_disk (ks_fs (w_k w))) ++ tr ∧ blocks w' = replay tr (blocks w) ∧
    ∀ p, p `prefix_of` tr → ∀ j m v b, rebooted j m v b start (replay p (blocks w)) → (3 * length hs + 3 ≤ m)%nat →
      wp recover_from_log v (fun _ v' => log_is start [] (fs_log (ks_fs (w_k v'))) ∧
        ((∀ bn, outside start bn → blocks v' !! bn = blocks w !! bn) ∨
         (∀ bn, outside start bn → blocks v' !! bn = if decide (bn ∈ hs) then bs_mem a !! bn else blocks w !! bn)))).
Proof.
  intros Hat Hcm Hne H0. apply (wp_commit i n w a start hs ds d0); [done|done|done|].
  intros w' a' Hat' Hst _ Hd _ _ _. exists (commit_trace start hs ds d0). split; [apply Hst|].
  rewrite (at_fs_blocks _ _ _ _ Hat'), (at_fs_blocks _ _ _ _ Hat). split; [done|].
  intros p Hp j m v b Hrb Hm. by eapply (wp_recover_crash i).
Qed.

(** C6. A transaction that changes one block: once [end_op] has returned the
    new contents are on the disk at home, all other blocks outside the log are
    as before, the log is empty again, in memory and by its header on the disk (so
    that a recovery has nothing to install), and no buffer is left pinned. *)
Theorem transaction_durable i n w a start bn d d0 (l := fs_log (ks_fs (w_k w))) :
  at_fs i (11 + n) w a → log_is start [] l → log_committing l = 0 → log_outstanding l = 0 → 1 < log_size l →
  lready start [bn] a → (size (bs_refs a) + 2 ≤ NBUF)%nat → refs a bn + 2 < 2 ^ 32 →
  bs_mem a !! start = Some d0 → block_ok d →
  wp (begin_op;; b ← bread ROOTDEV (u32 bn); onw (updb b (fun x => x <| b_data := d |>));;
      onw (log_write b);; onw (brelse b);; end_op) w (fun _ w' =>
    log_is start [] (fs_log (ks_fs (w_k w'))) ∧ log_outstanding (fs_log (ks_fs (w_k w'))) = 0 ∧
    (∃ dh, blocks w' !! start = Some dh ∧ head_is dh []) ∧
    (∀ bn', outside start bn' → blocks w' !! bn' = if decide (bn' = bn) then Some d else blocks w !! bn') ∧
    ∃ a', at_fs i n w' a' ∧ ∀ bn', refs a' bn' = refs a bn').
Proof.
  destruct w as [s e]. intros Hat Hlg Hc Ho Hs Hl Hsz Hrf Hm Hd.
  apply (wp_transact i n s e a start bn d d0 _ Hat); try done.
  intros w' a' Hat' _ Hlg' Ho' HD HR _. split; [done|]. split; [done|]. split; [|split; [|by exists a']].
  { exists (enc_head [] (enc_head [bn] d0)). rewrite (at_fs_blocks _ _ _ _ Hat'), HD. split; [apply lookup_insert_eq|].
    apply head_erased; [cbn; lia|]. exact (proj1 (cr_size _ _ _ (af_rep _ _ _ _ Hat)) start d0 Hm). }
  intros bn' Hbn'. rewrite (at_fs_blocks _ _ _ _ Hat'), (at_fs_blocks _ _ _ _ Hat), HD. unfold commit_trace. cbn.
  assert (start ≠ bn') by (intros ->; by apply (start_region bn')). rewrite lookup_insert_ne by done.
  destruct (decide (bn' = bn)) as [->|Hne]; [apply lookup_insert_eq|]. rewrite !lookup_insert_ne; [done|..]; try done.
  unfold outside, LOGSIZE, MAXOPBLOCKS in Hbn'. lia.
Qed.

(** [log_write] lists a block in the transaction's header and pins its
    buffer; a block that is listed already is absorbed: neither the header nor
    its count changes.  Nothing is written to the disk. *)
Theorem log_write_correct i n s e a start hs b bn (l := fs_log (ks_fs s)) :
  at_fs i n (World s e) a → log_is start hs l → Forall (fun h => 0 ≤ h < 2 ^ 31) hs →
  holds_block (ks_fs s) b bn → 0 ≤ bn < 2 ^ 31 → refs a bn + 1 < 2 ^ 32 →
  Z.of_nat (length hs) < LOGSIZE → Z.of_nat (length hs) < log_size l - 1 → 1 ≤ log_outstanding l →
  wp (log_write b) s (fun _ s' =>
    log_is start (if decide (bn ∈ hs) then hs else hs ++ [bn]) (fs_log (ks_fs s')) ∧
    at_fs i n (World s' e) (if decide (bn ∈ hs) then a else set_refs bn (refs a bn + 1) a) ∧
    lstep [] (World s e) (World s' e)).
Proof.
  intros Hat Hlg Hr Hh Hbn Hrf Hn Hsz Hout. apply (wp_log_write i n s e a start hs b bn); try done.
  intros s' Hat' Hst _ Hlog. split; [|done]. rewrite Hlog. by apply listed_is.
Qed.

End storage.

(** ** A device *)

Definition blk_step (fs : fsstate) : option fsstate :=
  let v := fs_vdisk fs in
  if negb (vd_notified v) || (vd_avail_idx v =? vd_used_dev v) then None else
  vd_avail_ring v !! Z.to_nat (vd_used_dev v mod Z.of_nat NUM) ≫= fun hd =>
  vd_desc v !! Z.to_nat hd ≫= fun d0 =>
  match vq_addr d0 with
  | D_ops k =>
    vd_ops v !! k ≫= fun r => vd_desc v !! Z.to_nat (vq_next d0) ≫= fun d1 =>
    vd_desc v !! Z.to_nat (vq_next d1) ≫= fun d2 =>
    match vq_addr d1, vq_addr d2 with
    | D_data b, D_status st =>
      if rq_type r =? VIRTIO_BLK_T_IN then
        dk_blocks (fs_disk fs) !! (rq_sector r / 2) ≫= fun d =>
        Some (upd_vd (used (Z.to_nat hd) st) (upd_buf b (fun x => x <| b_data := d |>) fs))
      else
        fs_buf fs !! b ≫= fun x =>
        Some (upd_vd (used (Z.to_nat hd) st) (disk_put (rq_sector r / 2) (b_data x) fs))
    | _, _ => None
    end
  | _ => None
  end.

#[export] Instance blk : BlkDevice := {| blk_device := blk_step |}.

#[export] Instance blk_laws : BlkLaws.
Proof.
  split.
  - intros fs hd bn b st d (Hno & Ho1 & Ho2) (k & n1 & n2 & H1 & H2 & H3 & H4) Hd. cbn. unfold blk_step.
    rewrite Hno, (proj2 (Z.eqb_neq _ _)) by done. cbn [negb orb]. rewrite Ho2. cbn [mbind option_bind]. rewrite Nat2Z.id, H1.
    cbn [mbind option_bind vq_addr vq_next]. rewrite H2, H3. cbn [mbind option_bind vq_addr vq_next]. rewrite H4.
    cbn [mbind option_bind vq_addr rq_type rq_sector Z.eqb VIRTIO_BLK_T_IN].
    replace (2 * bn / 2) with bn by (rewrite Z.mul_comm, Z.div_mul; lia). by rewrite Hd.
  - intros fs hd bn b st x (Hno & Ho1 & Ho2) (k & n1 & n2 & H1 & H2 & H3 & H4) Hx Hd. cbn. unfold blk_step.
    rewrite Hno, (proj2 (Z.eqb_neq _ _)) by done. cbn [negb orb]. rewrite Ho2. cbn [mbind option_bind]. rewrite Nat2Z.id, H1.
    cbn [mbind option_bind vq_addr vq_next]. rewrite H2, H3. cbn [mbind option_bind vq_addr vq_next]. rewrite H4.
    cbn [mbind option_bind vq_addr rq_type rq_sector]. change (VIRTIO_BLK_T_OUT =? VIRTIO_BLK_T_IN) with false. cbn iota.
    replace (2 * bn / 2) with bn by (rewrite Z.mul_comm, Z.div_mul; lia). by rewrite Hx.
Qed.

#[local] Existing Instance small_image.

(** The device completes the request, its interrupt is handled, and the
    scheduler resumes the sleeper. *)
Definition serve (s : KS) : KS :=
  match cur (ks_mach s), blk_device (ks_fs s) with
  | Some i, Some fs =>
    if negb (vd_isr (fs_vdisk (ks_fs s)) =? 0) then s else
    match virtio_disk_intr (interrupted i fs s) with
    | Ret _ s' => set_kmach (ks_mach s) (upd_procs (alter chosen i) s')
    | _ => s
    end
  | _, _ => s
  end.

Lemma serve_serves : serves serve.
Proof. intros i s fs s' Hc Hs Hb Hi. unfold serve. by rewrite Hc, Hb, Hs, Hi. Qed.

Lemma served_replicate n : served n (replicate n serve).
Proof.
  exists (replicate n serve), []. rewrite app_nil_r, length_replicate. split; [done|]. split; [done|].
  apply Forall_replicate, serve_serves.
Qed.

(** ** A small disk *)

Definition zero_block : list Z := replicate 1024 0.
Definition new_block : list Z := replicate 1024 7.

(** The log is at blocks 2 to 31; block 40 is a data block. *)
Definition small_disk : gmap Z (list Z) := gset_to_gmap zero_block (list_to_set (40 :: seqZ 2 30)).

Lemma small_disk_lookup bn : small_disk !! bn = if decide (bn = 40 ∨ 2 ≤ bn < 32) then Some zero_block else None.
Proof.
  unfold small_disk. rewrite lookup_gset_to_gmap. case_decide as H.
  - rewrite option_guard_True; [done|]. rewrite list_to_set_cons, elem_of_union, elem_of_singleton, elem_of_list_to_set, elem_of_seqZ. lia.
  - rewrite option_guard_False; [done|]. rewrite list_to_set_cons, elem_of_union, elem_of_singleton, elem_of_list_to_set, elem_of_seqZ. lia.
Qed.

Definition unused_buf (b : nat) : buf :=
  Buf 0 0 0 0 (Sleeplock 0 "buffer" 0) 0 (if decide (b = 0%nat) then NBUF else (b - 1)%nat) (b + 1)%nat zero_block.
(** Buffer 0 holds block 40 with contents that are not on the disk yet. *)
Definition dirty_buf : buf := Buf 1 0 ROOTDEV 40 (Sleeplock 0 "buffer" 0) 1 NBUF 1 new_block.
Definition head_buf : buf := Buf 0 0 0 0 (Sleeplock 0 "" 0) 0 29 0 zero_block.

Definition bufs (first : buf) : list buf := first :: (unused_buf <$> seq 1 29) ++ [head_buf].

Definition idle_vdisk : vdisk :=
  Vdisk (replicate 8 (VirtqDesc D_null 0 0 0)) (replicate 8 0) 0 (replicate 8 0) 0 (replicate 8 1) 0
    (replicate 8 None) (replicate 8 0) (replicate 8 (VirtioBlkReq 0 0 0)) false 0.

Lemma idle_vdisk_idle : vd_idle idle_vdisk.
Proof. split; [by split|done|done|done|cbn; lia|done]. Qed.

Definition small_fs (first : buf) (n : Z) (blocks : list Z) (disk : gmap Z (list Z)) : fsstate :=
  FsState (bufs first) (Log 2 30 0 0 ROOTDEV (Logheader n blocks)) (Superblock FSMAGIC 60 20 10 30 2 32 34) [] [] ∅
    (Disk disk []) idle_vdisk idle_console.

Lemma bufs_ring first : b_prev first = NBUF → b_next first = 1%nat → ring (bufs first) (seq 0 30).
Proof.
  intros H1 H2. unfold ring. cbn [seq chain]. unfold nx, pv. cbn [bufs lookup list_lookup].
  change NBUF with 30%nat in *. cbn. rewrite H1, H2. repeat split.
Qed.

Lemma bufs_lookup first b x : (b < NBUF)%nat → bufs first !! b = Some x →
  (b = 0%nat ∧ x = first) ∨ (b ≠ 0%nat ∧ x = unused_buf b).
Proof.
  change NBUF with 30%nat. intros Hb Hx. destruct b as [|b]; cbn in Hx; [left; by injection Hx|right].
  split; [done|]. change (((unused_buf <$> seq 1 29) ++ [head_buf]) !! b = Some x) in Hx.
  rewrite lookup_app_l in Hx by (rewrite length_fmap, length_seq; lia).
  rewrite list_lookup_fmap, lookup_seq_lt in Hx by lia. by injection Hx.
Qed.

Lemma zero_ok : block_ok zero_block.
Proof. split; [done|]. apply Forall_replicate. lia. Qed.
Lemma new_ok : block_ok new_block.
Proof. split; [done|]. apply Forall_replicate. lia. Qed.

(** An empty cache over any disk. *)
Lemma empty_cache pid n blocks disk :
  map_Forall (fun bn d => block_ok d ∧ 0 ≤ bn < 2 ^ 31) disk →
  cache_rep pid (small_fs (unused_buf 0) n blocks disk) (Bstore disk disk ∅ ∅).
Proof.
  intros Hd. assert (∀ b bn, ¬ holds_block (small_fs (unused_buf 0) n blocks disk) b bn) as Hh.
  { intros b bn (Hb & x & Hx & Hdev & _). apply bufs_lookup in Hx as [[_ ->]|[_ ->]]; done. }
  split; try done.
  - exists (seq 0 30). split; [done|]. by apply bufs_ring.
  - intros b x Hb Hx. right. apply bufs_lookup in Hx as [[_ ->]|[_ ->]]; done.
  - intros b b' bn H. by destruct (Hh b bn).
  - split; intros bn d Hbn; by apply (Hd bn d).
  - intros bn [d Hbn]. by apply (Hd bn d).
Qed.

Definition dirty : bstore := Bstore small_disk (<[40 := new_block]> small_disk) {[40 := 1]} ∅.

Lemma dirty_cache pid n blocks : cache_rep pid (small_fs dirty_buf n blocks small_disk) dirty.
Proof.
  assert (∀ b bn, holds_block (small_fs dirty_buf n blocks small_disk) b bn → b = 0%nat ∧ bn = 40) as Hh.
  { intros b bn (Hb & x & Hx & Hdev & Hbn). apply bufs_lookup in Hx as [[-> ->]|[_ ->]]; done. }
  assert (∀ bn d, small_disk !! bn = Some d → block_ok d ∧ 0 ≤ bn < 2 ^ 31) as Hd.
  { intros bn d. rewrite small_disk_lookup. case_decide; [|done]. intros [= <-]. split; [apply zero_ok|lia]. }
  split; try done.
  - exists (seq 0 30). split; [done|]. by apply bufs_ring.
  - intros b x Hb Hx. apply bufs_lookup in Hx as [[-> ->]|[_ ->]]; [left|by right|done]. split; [done|]. by split.
  - by intros b b' bn [-> _]%Hh [-> _]%Hh.
  - intros bn k Hk. cbn in Hk. apply lookup_singleton_Some in Hk as [<- <-]. split; [lia|]. exists 0%nat. split; [change NBUF with 30%nat; lia|].
    by exists dirty_buf.
  - intros bn Hn. cbn in *. rewrite lookup_insert_ne; [done|]. intros <-. by rewrite lookup_singleton_eq in Hn.
  - intros bn. cbn. rewrite lookup_insert_is_Some. destruct (decide (40 = bn)) as [<-|].
    + rewrite small_disk_lookup, decide_True by lia. split; [by eexists|by left].
    + split; [intros [?|[_ ?]]; done|by right].
  - split; intros bn d; cbn; [rewrite lookup_insert_Some; intros [[_ <-]|[_ H]]; [apply new_ok|by apply (Hd bn)]|by apply Hd].
  - intros bn [d Hbn]. by apply (Hd bn d).
Qed.

(** ** Examples *)

Definition small_world (first : buf) (n : Z) (blocks : list Z) (disk : gmap Z (list Z)) (k : nat) : W :=
  World (fs_ks (small_fs first n blocks disk)) (replicate k serve).

Lemma small_at first n blocks disk k a :
  cache_rep 1 (small_fs first n blocks disk) a → at_fs 0 k (small_world first n blocks disk k) a.
Proof. intros Hr. split; [apply fs_ks_quiet|exact Hr|apply idle_vdisk_idle|apply served_replicate]. Qed.

Lemma small_disk_ok : map_Forall (fun bn d => block_ok d ∧ 0 ≤ bn < 2 ^ 31) small_disk.
Proof. intros bn d. rewrite small_disk_lookup. case_decide; [|done]. intros [= <-]. split; [apply zero_ok|lia]. Qed.

(** Blocks of the example can be read. *)
Lemma small_readable k a bn : bs_disk a = small_disk → bs_locked a = ∅ → (bn = 40 ∨ 2 ≤ bn < 32) →
  (size (bs_refs a) + k ≤ NBUF)%nat → refs a bn + 1 < 2 ^ 32 → readable k a bn.
Proof.
  intros Hd Hl Hbn Hs Hr. split; [lia| |by rewrite Hl|by right|done]. rewrite Hd, small_disk_lookup, decide_True by done. by eexists.
Qed.

Lemma small_lready hs a : bs_disk a = small_disk → bs_locked a = ∅ → (size (bs_refs a) ≤ 1)%nat →
  (∀ bn, bn ≠ 40 → bs_refs a !! bn = None) → refs a 40 + 1 < 2 ^ 32 → (hs = [] ∨ hs = [40]) → lready 2 hs a.
Proof.
  intros Hd Hl Hs Hr Hr40 Hhs. split.
  - intros k Hk. unfold LOGSIZE, MAXOPBLOCKS in Hk. split; [|apply Hr; lia].
    apply small_readable; [done|done|lia|change NBUF with 30%nat; lia|]. unfold refs. rewrite Hr by lia. cbn. lia.
  - intros h Hh. assert (h = 40) as -> by (destruct Hhs as [-> | ->]; set_solver). split; [|unfold LOGSIZE, MAXOPBLOCKS; lia].
    apply small_readable; [done|done|lia|change NBUF with 30%nat; lia|done].
  - destruct Hhs as [-> | ->]; [constructor|apply NoDup_singleton].
Qed.

Lemma zero_head : head_is zero_block [].
Proof. split; [by vm_compute|done]. Qed.

Lemma virtio_disk_rw_correct_witness :
  wp (Virtio.virtio_disk_rw 0 true)
    (World (fs_ks (small_fs (dirty_buf <| b_lock := Sleeplock 1 "buffer" 1 |>) 0 [] small_disk)) [serve])
    (fun _ w' => dk_blocks (fs_disk (ks_fs (w_k w'))) !! 40 = Some new_block).
Proof.
  eapply wp_mono.
  - eapply (virtio_disk_rw_correct 0 0 _ [serve] 0 _ zero_block true);
      [apply fs_ks_quiet|apply idle_vdisk_idle|apply (served_replicate 1)|change NBUF with 30%nat; lia|reflexivity|done| |cbn; lia].
    change (small_disk !! 40 = Some zero_block). by rewrite small_disk_lookup.
  - cbn beta. intros r w' (_ & _ & v & _ & Hfs). rewrite Hfs. change (<[40 := new_block]> small_disk !! 40 = Some new_block).
    apply lookup_insert_eq.
Defined.

Lemma bread_refines_witness :
  wp (bread ROOTDEV 40) (small_world dirty_buf 0 [] small_disk 1) (fun b w' =>
    ∃ x, fs_buf (ks_fs (w_k w')) !! b = Some x ∧ b_data x = new_block).
Proof.
  eapply wp_mono.
  - eapply (bread_refines 0 0 _ dirty 40); [apply small_at, dirty_cache| |set_solver|left; by eexists|by vm_compute].
    change (is_Some (small_disk !! 40)). rewrite small_disk_lookup. by eexists.
  - cbn beta. intros b w' (_ & _ & x & Hx & _ & Hm). exists x. split; [done|]. by injection Hm.
Defined.

Lemma commit_crash_atomic_witness :
  wp commit (small_world dirty_buf 1 (40 :: replicate 29 0) small_disk 10) (fun _ w' =>
    wp recover_from_log (small_world (unused_buf 0) 0 (replicate 30 0) small_disk 6) (fun _ v' =>
      log_is 2 [] (fs_log (ks_fs (w_k v'))))).
Proof.
  eapply wp_mono.
  - eapply (commit_crash_atomic 0 0 _ dirty 2 [40] [new_block] zero_block); [apply small_at, dirty_cache| |done|apply zero_head].
    split; [by split|apply small_lready; try done; [|by right]|cbn; unfold LOGSIZE, MAXOPBLOCKS; lia| | |].
    + intros bn Hbn. cbn. by rewrite lookup_singleton_ne.
    + constructor; [|constructor]. cbn. apply lookup_insert_eq.
    + by intros h ->%list_elem_of_singleton.
    + cbn. by rewrite lookup_insert_ne, small_disk_lookup.
  - cbn beta. intros r w' (tr & _ & _ & Hrec). eapply wp_mono.
    + apply (Hrec [] (prefix_nil _) 0%nat 6%nat _ (Bstore small_disk small_disk ∅ ∅)); [|cbn; lia].
      split; try done. apply small_at, empty_cache, small_disk_ok.
    + cbn beta. by intros r' v' [H _].
Defined.

Lemma transaction_durable_witness :
  wp (begin_op;; b ← bread ROOTDEV (u32 40); onw (updb b (fun x => x <| b_data := new_block |>));;
      onw (log_write b);; onw (brelse b);; end_op) (small_world (unused_buf 0) 0 (replicate 30 0) small_disk 11) (fun _ w' =>
    blocks w' !! 40 = Some new_block).
Proof.
  eapply wp_mono.
  - apply (transaction_durable 0 0 _ (Bstore small_disk small_disk ∅ ∅) 2 40 new_block zero_block);
      [apply small_at, empty_cache, small_disk_ok|by split|done|done|cbn; lia| |by apply Nat.leb_le|by vm_compute| |apply new_ok].
    + apply small_lready; try done; [by apply Nat.leb_le|by right].
    + cbn. by rewrite small_disk_lookup.
  - cbn beta. intros r w' (_ & _ & _ & H & _). rewrite H; [done|]. unfold outside, LOGSIZE, MAXOPBLOCKS. lia.
Defined.

Definition with_log (n out : Z) (blocks : list Z) (w : W) : W :=
  World (fsk (upd_log (fun l => Log (log_start l) (log_size l) out 0 (log_dev l) (Logheader n blocks))) (w_k w)) (w_env w).

Lemma log_write_correct_witness :
  wp (log_write 0) (w_k (with_log 0 1 (replicate 30 0) (small_world dirty_buf 0 [] small_disk 0))) (fun _ s' =>
    log_is 2 [40] (fs_log (ks_fs s'))).
Proof.
  eapply wp_mono.
  - eapply (log_write_correct 0 0 _ [] dirty 2 [] 0 40);
      [apply (at_fs_log 0 0 _ [] dirty), (small_at dirty_buf 0 [] small_disk 0), dirty_cache|by split|constructor| |lia|by vm_compute|..];
      try (cbn; unfold LOGSIZE, MAXOPBLOCKS; lia).
    split; [change NBUF with 30%nat; lia|]. by exists dirty_buf.
  - cbn beta. by intros r s' [H _].
Defined.
