(* ===== verification/Fs.v ===== *)
(** * The file system (kernel/fs.c)

    Block allocator, inodes, file contents, directories and path names, on top
    of the buffer cache and the log.  An inode pointer is an index of [itable];
    a path is the list of its bytes, whose end stands for the terminating nul.
    What the functions print on the console is left out. *)

From Stdlib Require Import ZArith Lia.
From stdpp Require Import base gmap strings numbers list.
From S2P Require Import Prelude Spinlock Mem Kstring Kalloc Vm Proc FsState Sleeplock Bio Log.
Local Open Scope xv6_scope.

(** ** Layout (fs.h) *)

Definition IBLOCK (i : Z) (sb : superblock) : Z := u32 (i / IPB + sb_inodestart sb).
Definition BBLOCK (b : Z) (sb : superblock) : Z := u32 (b / BPB + sb_bmapstart sb).

(** [sizeof(struct dinode)], [sizeof(struct dirent)] *)
Definition DINODESIZE : Z := 64.
Definition DIRENTSIZE : Z := 16.

(** The superblock as it lies in block 1. *)
Definition read_superblock (d : list Z) : superblock :=
  Superblock (get_at 0 4 d) (get_at 4 4 d) (get_at 8 4 d) (get_at 12 4 d) (get_at 16 4 d) (get_at 20 4 d)
    (get_at 24 4 d) (get_at 28 4 d).

(** [ip->addrs[i] = dip->addrs[i]] and back, for all [NDIRECT + 1] entries. *)
Definition get_addrs (off : Z) (d : list Z) : list Z :=
  (fun k => get_at (off + 12 + 4 * Z.of_nat k) 4 d) <$> seq 0 (Z.to_nat NDIRECT + 1).
Definition put_addrs (off : Z) (addrs d : list Z) : list Z :=
  foldl (fun d p => put_at (off + 12 + 4 * Z.of_nat p.1) 4 p.2 d) d (imap pair addrs).

Record stat := Stat {
  st_dev : Z;
  st_ino : Z;
  st_type : Z;
  st_nlink : Z;
  st_size : Z
}.

(** Where [readi] copies to and [writei] copies from: a user or kernel address,
    or a local variable of the caller. *)
Inductive target := T_addr (user : bool) (dst : Z) | T_local.
Inductive source := S_addr (user : bool) (src : Z) | S_local (bytes : list Z).

Section fs.
Context `{KI : KernelImage} `{DO : DiskOps}.

Definition getsb : M KS superblock := gets (fun s => fs_sb (ks_fs s)).

Definition readsb (dev : Z) : M W superblock :=
  bp ← bread dev 1;
  x ← onw (getb bp);
  onw (brelse bp);;
  ret (read_superblock (b_data x)).

Definition fsinit (dev : Z) : M W unit :=
  sb ← readsb dev;
  onw (updfs (fun fs => fs <| fs_sb := sb |>));;
  when (negb (sb_magic sb =? FSMAGIC)) (panic "invalid file system");;
  initlog dev sb.

Definition bzero (dev bno : Z) : M W unit :=
  bp ← bread dev (u32 bno);
  onw (updb bp (fun x => x <| b_data := replicate (Z.to_nat BSIZE) 0 |>));;
  onw (log_write bp);;
  onw (brelse bp).

(** ** Blocks *)

(** The first position [bi] from which [bp] has a clear bit, below [BPB] and
    below block [size]; [n] positions are left. *)
Fixpoint balloc_scan (n : nat) (data : list Z) (b bi size : Z) : option Z :=
  match n with
  | O => None
  | S n =>
    if u32 (b + bi) <? size then
      if Z.land (get_at (bi / 8) 1 data) (Z.shiftl 1 (bi mod 8)) =? 0 then Some bi
      else balloc_scan n data b (bi + 1) size
    else None
  end.

Fixpoint balloc_loop (fuel : nat) (dev b : Z) : M W Z :=
  match fuel with
  | O => out_of_fuel
  | S fuel =>
    sb ← onw getsb;
    if negb (b <? sb_size sb) then ret 0 else
    bp ← bread dev (BBLOCK b sb);
    x ← onw (getb bp);
    match balloc_scan (Z.to_nat BPB) (b_data x) b 0 (sb_size sb) with
    | Some bi =>
      let m := Z.shiftl 1 (bi mod 8) in
      onw (updb bp (fun x => x <| b_data ::= fun d => put_at (bi / 8) 1 (Z.lor (get_at (bi / 8) 1 d) m) d |>));;
      onw (log_write bp);;
      onw (brelse bp);;
      bzero dev (b + bi);;
      ret (b + bi)
    | None =>
      onw (brelse bp);;
      balloc_loop fuel dev (b + BPB)
    end
  end.

(** [sb.size] is 32 bits wide, which bounds the rounds. *)
Definition balloc (dev : Z) : M W Z :=
  sb ← onw getsb;
  balloc_loop (S (S (Z.to_nat (sb_size sb / BPB)))) dev 0.

Definition bfree (dev b : Z) : M W unit :=
  sb ← onw getsb;
  bp ← bread dev (BBLOCK b sb);
  let bi := b mod BPB in
  let m := Z.shiftl 1 (bi mod 8) in
  x ← onw (getb bp);
  when (Z.land (get_at (bi / 8) 1 (b_data x)) m =? 0) (panic "freeing free block");;
  onw (updb bp (fun x => x <| b_data ::= fun d => put_at (bi / 8) 1 (Z.land (get_at (bi / 8) 1 d) (Z.lnot m)) d |>));;
  onw (log_write bp);;
  onw (brelse bp).

(** ** Inodes *)

Definition iinit : M KS unit :=
  lkm (initlock L_itable "itable");;
  for_each (seq 0 NINODE) (fun i => initsleeplock (L_inode i) "inode").

(** The search of [iget]: the entry that holds the inode, or the first empty
    one. *)
Fixpoint iget_scan (l : list nat) (dev inum : Z) (empty : option nat) : M KS (nat + option nat) :=
  match l with
  | [] => ret (inr empty)
  | i :: l =>
    ip ← geti i;
    if (0 <? i_ref ip) && (i_dev ip =? dev) && (i_inum ip =? inum) then ret (inl i)
    else iget_scan l dev inum
           (match empty with None => if i_ref ip =? 0 then Some i else None | Some _ => empty end)
  end.

Definition iget (dev inum : Z) : M KS nat :=
  lkm (acquire L_itable);;
  r ← iget_scan (seq 0 NINODE) dev inum None;
  match r with
  | inl i =>
    updi i (fun ip => ip <| i_ref ::= fun n => i32 (n + 1) |>);;
    lkm (release L_itable);;
    ret i
  | inr None => panic "iget: no inodes"
  | inr (Some i) =>
    updi i (fun ip => ip <| i_dev := dev |> <| i_inum := inum |> <| i_ref := 1 |> <| i_valid := 0 |>);;
    lkm (release L_itable);;
    ret i
  end.

(** The loop ends at [sb.ninodes]. *)
Fixpoint ialloc_loop (fuel : nat) (dev type inum : Z) : M W (option nat) :=
  match fuel with
  | O => out_of_fuel
  | S fuel =>
    sb ← onw getsb;
    if negb (inum <? sb_ninodes sb) then ret None else
    bp ← bread dev (IBLOCK inum sb);
    x ← onw (getb bp);
    let off := (inum mod IPB) * DINODESIZE in
    if i16 (get_at off 2 (b_data x)) =? 0 then
      onw (updb bp (fun x => x <| b_data ::= fun d =>
        put_at off 2 type (put_bytes off (replicate (Z.to_nat DINODESIZE) 0) d) |>));;
      onw (log_write bp);;
      onw (brelse bp);;
      i ← onw (iget dev inum);
      ret (Some i)
    else
      onw (brelse bp);;
      ialloc_loop fuel dev type (inum + 1)
  end.
Definition ialloc (dev type : Z) : M W (option nat) :=
  sb ← onw getsb;
  ialloc_loop (S (Z.to_nat (sb_ninodes sb))) dev type 1.

(** The on-disk inode at [off] from the copy in memory. *)
Definition put_dinode (off : Z) (ip : inode) (d : list Z) : list Z :=
  put_addrs off (i_addrs ip)
    (put_at (off + 8) 4 (i_size ip) (put_at (off + 6) 2 (i_nlink ip)
    (put_at (off + 4) 2 (i_minor ip) (put_at (off + 2) 2 (i_major ip) (put_at off 2 (i_type ip) d))))).

Definition iupdate (i : nat) : M W unit :=
  ip ← onw (geti i);
  sb ← onw getsb;
  bp ← bread (i_dev ip) (IBLOCK (i_inum ip) sb);
  ip ← onw (geti i);
  onw (updb bp (fun x => x <| b_data ::= put_dinode ((i_inum ip mod IPB) * DINODESIZE) ip |>));;
  onw (log_write bp);;
  onw (brelse bp).

Definition idup (i : nat) : M KS nat :=
  lkm (acquire L_itable);;
  updi i (fun ip => ip <| i_ref ::= fun n => i32 (n + 1) |>);;
  lkm (release L_itable);;
  ret i.

Definition ilock (o : option nat) : M W unit :=
  match o with
  | None => panic "ilock"
  | Some i =>
    ip ← onw (geti i);
    when (i_ref ip <? 1) (panic "ilock");;
    acquiresleep (L_inode i);;
    ip ← onw (geti i);
    when (i_valid ip =? 0)
      (sb ← onw getsb;
       bp ← bread (i_dev ip) (IBLOCK (i_inum ip) sb);
       x ← onw (getb bp);
       let d := b_data x in
       let off := (i_inum ip mod IPB) * DINODESIZE in
       onw (updi i (fun ip => ip <| i_type := i16 (get_at off 2 d) |> <| i_major := i16 (get_at (off + 2) 2 d) |>
         <| i_minor := i16 (get_at (off + 4) 2 d) |> <| i_nlink := i16 (get_at (off + 6) 2 d) |>
         <| i_size := get_at (off + 8) 4 d |> <| i_addrs := get_addrs off d |>));;
       onw (brelse bp);;
       onw (updi i (fun ip => ip <| i_valid := 1 |>));;
       ip ← onw (geti i);
       when (i_type ip =? 0) (panic "ilock: no type"))
  end.

Definition iunlock (o : option nat) : M W unit :=
  match o with
  | None => panic "iunlock"
  | Some i =>
    h ← onw (holdingsleep (L_inode i));
    bad ← (if negb h then ret true else ip ← onw (geti i); ret (i_ref ip <? 1));
    when bad (panic "iunlock");;
    onw (releasesleep (L_inode i))
  end.

(** ** Contents *)

Definition itrunc (i : nat) : M W unit :=
  for_each (seq 0 (Z.to_nat NDIRECT)) (fun k =>
    ip ← onw (geti i); a ← deref (i_addrs ip !! k);
    when (truthy a)
      (bfree (i_dev ip) a;;
       onw (updi i (fun ip => ip <| i_addrs ::= <[k := 0]> |>))));;
  ip ← onw (geti i); a ← deref (i_addrs ip !! Z.to_nat NDIRECT);
  when (truthy a)
    (bp ← bread (i_dev ip) a;
     for_each (seq 0 (Z.to_nat NINDIRECT)) (fun j =>
       x ← onw (getb bp);
       let aj := get_at (4 * Z.of_nat j) 4 (b_data x) in
       when (truthy aj) (bfree (i_dev ip) aj));;
     onw (brelse bp);;
     bfree (i_dev ip) a;;
     onw (updi i (fun ip => ip <| i_addrs ::= <[Z.to_nat NDIRECT := 0]> |>)));;
  onw (updi i (fun ip => ip <| i_size := 0 |>));;
  iupdate i.

Definition iput (i : nat) : M W unit :=
  onw (lkm (acquire L_itable));;
  ip ← onw (geti i);
  when ((i_ref ip =? 1) && truthy (i_valid ip) && (i_nlink ip =? 0))
    (acquiresleep (L_inode i);;
     onw (lkm (release L_itable));;
     itrunc i;;
     onw (updi i (fun ip => ip <| i_type := 0 |>));;
     iupdate i;;
     onw (updi i (fun ip => ip <| i_valid := 0 |>));;
     onw (releasesleep (L_inode i));;
     onw (lkm (acquire L_itable)));;
  onw (updi i (fun ip => ip <| i_ref ::= fun n => i32 (n - 1) |>));;
  onw (lkm (release L_itable)).

Definition iunlockput (i : nat) : M W unit :=
  iunlock (Some i);;
  iput i.

Definition bmap (i : nat) (bn : Z) : M W Z :=
  ip ← onw (geti i);
  if bn <? NDIRECT then
    addr ← deref (i_addrs ip !! Z.to_nat bn);
    if addr =? 0 then
      addr ← balloc (i_dev ip);
      if addr =? 0 then ret 0 else
      onw (updi i (fun ip => ip <| i_addrs ::= <[Z.to_nat bn := addr]> |>));;
      ret addr
    else ret addr
  else
    let bn := bn - NDIRECT in
    if bn <? NINDIRECT then
      addr ← deref (i_addrs ip !! Z.to_nat NDIRECT);
      addr ← (if addr =? 0 then
                addr ← balloc (i_dev ip);
                when (truthy addr) (onw (updi i (fun ip => ip <| i_addrs ::= <[Z.to_nat NDIRECT := addr]> |>)));;
                ret addr
              else ret addr);
      if addr =? 0 then ret 0 else
      bp ← bread (i_dev ip) addr;
      x ← onw (getb bp);
      let addr := get_at (4 * bn) 4 (b_data x) in
      addr ← (if addr =? 0 then
                addr ← balloc (i_dev ip);
                when (truthy addr)
                  (onw (updb bp (fun x => x <| b_data ::= put_at (4 * bn) 4 addr |>));;
                   onw (log_write bp));;
                ret addr
              else ret addr);
      onw (brelse bp);;
      ret addr
    else panic "bmap: out of range".

Definition stati (i : nat) : M KS stat :=
  ip ← geti i;
  ret (Stat (i32 (i_dev ip)) (i_inum ip) (i_type ip) (i_nlink ip) (i_size ip)).

(** [either_copyout(user_dst, dst, bytes, m)], where a local variable takes the
    bytes as they come. *)
Definition copy_to (t : target) (done : list Z) (bytes : list Z) : M KS (Z * list Z) :=
  match t with
  | T_addr user dst => r ← either_copyout user (u64 (dst + Z.of_nat (length done))) bytes; ret (r, done ++ bytes)
  | T_local => ret (0, done ++ bytes)
  end.

(** The bytes copied so far are [tot] in number.  The result -1 is that of a
    failed copy.  Every round copies at least a byte. *)
Fixpoint readi_loop (fuel : nat) (i : nat) (t : target) (bytes : list Z) (off n : Z) : M W (Z * list Z) :=
  match fuel with
  | O => out_of_fuel
  | S fuel =>
    let tot := Z.of_nat (length bytes) in
    if negb (tot <? n) then ret (tot, bytes) else
    addr ← bmap i (off / BSIZE);
    if addr =? 0 then ret (tot, bytes) else
    ip ← onw (geti i);
    bp ← bread (i_dev ip) addr;
    x ← onw (getb bp);
    let m := Z.min (n - tot) (BSIZE - off mod BSIZE) in
    '(r, bytes') ← onw (copy_to t bytes (take (Z.to_nat m) (drop (Z.to_nat (off mod BSIZE)) (b_data x))));
    onw (brelse bp);;
    if r =? -1 then ret (-1, bytes) else readi_loop fuel i t bytes' (off + m) n
  end.

(** The result, and what a local destination holds. *)
Definition readi (i : nat) (t : target) (off n : Z) : M W (Z * list Z) :=
  ip ← onw (geti i);
  if (i_size ip <? off) || (u32 (off + n) <? off) then ret (0, []) else
  let n := if i_size ip <? u32 (off + n) then i_size ip - off else n in
  '(tot, bytes) ← readi_loop (S (Z.to_nat n)) i t [] off n;
  ret (i32 tot, bytes).

(** [either_copyin(dst, user_src, src, m)] at position [tot] of the source. *)
Definition copy_from (src : source) (tot m : Z) : M KS (Z * list Z) :=
  match src with
  | S_addr user a => either_copyin user (u64 (a + tot)) m
  | S_local bytes => ret (0, take (Z.to_nat m) (drop (Z.to_nat tot) bytes))
  end.

(** Returns [tot] and [off]. *)
Fixpoint writei_loop (fuel : nat) (i : nat) (src : source) (tot off n : Z) : M W (Z * Z) :=
  match fuel with
  | O => out_of_fuel
  | S fuel =>
    if negb (tot <? n) then ret (tot, off) else
    addr ← bmap i (off / BSIZE);
    if addr =? 0 then ret (tot, off) else
    ip ← onw (geti i);
    bp ← bread (i_dev ip) addr;
    let m := Z.min (n - tot) (BSIZE - off mod BSIZE) in
    '(r, bytes) ← onw (copy_from src tot m);
    onw (updb bp (fun x => x <| b_data ::= put_bytes (off mod BSIZE) bytes |>));;
    if r =? -1 then onw (brelse bp);; ret (tot, off)
    else
      onw (log_write bp);;
      onw (brelse bp);;
      writei_loop fuel i src (tot + m) (off + m) n
  end.

Definition writei (i : nat) (src : source) (off n : Z) : M W Z :=
  ip ← onw (geti i);
  if (i_size ip <? off) || (u32 (off + n) <? off) then ret (-1) else
  if MAXFILE * BSIZE <? u32 (off + n) then ret (-1) else
  '(tot, off) ← writei_loop (S (Z.to_nat n)) i src 0 off n;
  ip ← onw (geti i);
  when (i_size ip <? off) (onw (updi i (fun ip => ip <| i_size := off |>)));;
  iupdate i;;
  ret (i32 tot).

(** ** Directories *)

Definition namecmp (s t : list Z) : option Z := strncmp s t (Z.to_nat DIRSIZ).

(** [struct dirent] *)
Definition de_inum (de : list Z) : Z := get_at 0 2 de.
Definition de_name (de : list Z) : list Z := drop 2 de.

(** The loop advances by one entry in every round.  Returns the inode and the
    offset of the entry. *)
Fixpoint dirlookup_loop (fuel : nat) (dp : nat) (name : list Z) (off : Z) : M W (option (nat * Z)) :=
  match fuel with
  | O => out_of_fuel
  | S fuel =>
    d ← onw (geti dp);
    if negb (off <? i_size d) then ret None else
    '(r, de) ← readi dp T_local off DIRENTSIZE;
    when (negb (r =? DIRENTSIZE)) (panic "dirlookup read");;
    if de_inum de =? 0 then dirlookup_loop fuel dp name (off + DIRENTSIZE) else
    c ← deref (namecmp name (de_name de));
    if c =? 0 then
      d ← onw (geti dp);
      i ← onw (iget (i_dev d) (de_inum de));
      ret (Some (i, off))
    else dirlookup_loop fuel dp name (off + DIRENTSIZE)
  end.

Definition dirlookup (dp : nat) (name : list Z) : M W (option (nat * Z)) :=
  d ← onw (geti dp);
  when (negb (i_type d =? T_DIR)) (panic "dirlookup not DIR");;
  dirlookup_loop (S (S (Z.to_nat (i_size d / DIRENTSIZE)))) dp name 0.

(** The offset of the first empty entry, or the end, and the entry read last. *)
Fixpoint dirlink_loop (fuel : nat) (dp : nat) (off : Z) (de : list Z) : M W (Z * list Z) :=
  match fuel with
  | O => out_of_fuel
  | S fuel =>
    d ← onw (geti dp);
    if negb (off <? i_size d) then ret (off, de) else
    '(r, de) ← readi dp T_local off DIRENTSIZE;
    when (negb (r =? DIRENTSIZE)) (panic "dirlink read");;
    if de_inum de =? 0 then ret (off, de) else dirlink_loop fuel dp (off + DIRENTSIZE) de
  end.

Definition dirlink (dp : nat) (name : list Z) (inum : Z) : M W Z :=
  r ← dirlookup dp name;
  match r with
  | Some (i, _) => iput i;; ret (-1)
  | None =>
    d ← onw (geti dp);
    '(off, de) ← dirlink_loop (S (S (Z.to_nat (i_size d / DIRENTSIZE)))) dp 0 (replicate (Z.to_nat DIRENTSIZE) 0);
    nm ← deref (strncpy (de_name de) name (Z.to_nat DIRSIZ));
    r ← writei dp (S_local (le_bytes 2 inum ++ nm)) off DIRENTSIZE;
    ret (if r =? DIRENTSIZE then 0 else -1)
  end.

(** ** Paths *)

Definition SLASH : Z := 47.

(** [while ( *path == '/') path++;] *)
Fixpoint skip_slashes (path : list Z) : list Z :=
  match path with
  | c :: rest => if c =? SLASH then skip_slashes rest else path
  | [] => []
  end.

(** [while ( *path != '/' && *path != 0) path++;] *)
Fixpoint skip_name (path : list Z) : list Z :=
  match path with
  | c :: rest => if (c =? SLASH) || (c =? 0) then path else skip_name rest
  | [] => []
  end.

(** The rest of the path and the contents of [name]; [None] is the null
    pointer. *)
Definition skipelem (path name : list Z) : option (list Z * list Z) :=
  let path := skip_slashes path in
  if hd 0 path =? 0 then None else
  let s := path in
  let path := skip_name path in
  let len := (length s - length path)%nat in
  let name := if DIRSIZ <=? Z.of_nat len then put_bytes 0 (take (Z.to_nat DIRSIZ) s) name
              else <[len := 0]> (put_bytes 0 (take len s) name) in
  Some (skip_slashes path, name).

(** Every round takes at least one byte off the path. *)
Fixpoint namex_loop (fuel : nat) (ip : nat) (path : list Z) (nameiparent : bool) (name : list Z) : M W (option nat * list Z) :=
  match fuel with
  | O => out_of_fuel
  | S fuel =>
    match skipelem path name with
    | None =>
      if nameiparent then iput ip;; ret (None, name) else ret (Some ip, name)
    | Some (path, name) =>
      ilock (Some ip);;
      x ← onw (geti ip);
      if negb (i_type x =? T_DIR) then iunlockput ip;; ret (None, name) else
      if nameiparent && (hd 0 path =? 0) then iunlock (Some ip);; ret (Some ip, name) else
      r ← dirlookup ip name;
      match r with
      | None => iunlockput ip;; ret (None, name)
      | Some (next, _) => iunlockput ip;; namex_loop fuel next path nameiparent name
      end
    end
  end.

Definition namex (path : list Z) (nameiparent : bool) (name : list Z) : M W (option nat * list Z) :=
  ip ← (if hd 0 path =? SLASH then onw (iget ROOTDEV ROOTINO)
        else i ← onw (lkm myproc); i ← deref i; p ← onw (getp i); c ← deref (p_cwd p); onw (idup c));
  namex_loop (S (length path)) ip path nameiparent name.

Definition namei (path : list Z) : M W (option nat) :=
  '(r, _) ← namex path false (replicate (Z.to_nat DIRSIZ) 0); ret r.

(** The parent's inode and the final element. *)
Definition nameiparent (path name : list Z) : M W (option nat * list Z) := namex path true name.

End fs.
