(* ===== verification/Pipe.v ===== *)
(** * Pipes (kernel/pipe.c)

    A pipe lives in a page of its own; it is known by the page's address, and
    its lock is [L_pipe] of that address.  [pipealloc] is with the file table
    it allocates from, in File.v. *)

From Stdlib Require Import ZArith Lia.
From stdpp Require Import base gmap strings numbers list.
From S2P Require Import Prelude Spinlock Mem Kstring Kalloc Vm Proc FsState.
Local Open Scope xv6_scope.

Section pipe.
Context `{KI : KernelImage}.

Definition pipeclose (pi : Z) (writable : Z) : M KS unit :=
  lkm (acquire (L_pipe pi));;
  (if truthy writable then
     updpipe pi (fun p => p <| pi_writeopen := 0 |>);;
     wakeup (C_nread pi)
   else
     updpipe pi (fun p => p <| pi_readopen := 0 |>);;
     wakeup (C_nwrite pi));;
  p ← getpipe pi;
  if (pi_readopen p =? 0) && (pi_writeopen p =? 0) then
    lkm (release (L_pipe pi));;
    updfs (fun fs => fs <| fs_pipe ::= delete pi |>);;
    onk (kfree pi)
  else lkm (release (L_pipe pi)).

(** Every round stores a byte or sleeps.  The result -1 returns at once;
    otherwise the number of bytes. *)
Fixpoint pipewrite_loop (fuel : nat) (me : nat) (pi addr n i : Z) : M W (option Z) :=
  match fuel with
  | O => out_of_fuel
  | S fuel =>
    if negb (i <? n) then ret (Some i) else
    p ← onw (getpipe pi);
    dead ← (if pi_readopen p =? 0 then ret true else k ← onw (killed me); ret (truthy k));
    if dead : bool then onw (lkm (release (L_pipe pi)));; ret None else
    p ← onw (getpipe pi);
    if pi_nwrite p =? u32 (pi_nread p + PIPESIZE) then
      onw (wakeup (C_nread pi));;
      sleep (C_nwrite pi) (L_pipe pi);;
      pipewrite_loop fuel me pi addr n i
    else
      pr ← onw (getp me);
      '(r, bs) ← onw (onk (copyin (p_pagetable pr) (u64 (addr + i)) 1));
      if r =? -1 then ret (Some i) else
      ch ← deref (bs !! 0%nat);
      onw (updpipe pi (fun p => p <| pi_data ::= <[Z.to_nat (pi_nwrite p mod PIPESIZE) := ch]> |>
                                  <| pi_nwrite ::= fun n => u32 (n + 1) |>));;
      pipewrite_loop fuel me pi addr n (i + 1)
  end.

Definition pipewrite (pi addr n : Z) : M W Z :=
  me ← onw (lkm myproc); me ← deref me;
  onw (lkm (acquire (L_pipe pi)));;
  w ← get;
  r ← pipewrite_loop (S (Z.to_nat n + length (w_env w))) me pi addr n 0;
  match r with
  | None => ret (-1)
  | Some i =>
    onw (wakeup (C_nread pi));;
    onw (lkm (release (L_pipe pi)));;
    ret i
  end.

(** [while(pi->nread == pi->nwrite && pi->writeopen) ...]; [false]: killed. *)
Fixpoint piperead_wait (fuel : nat) (me : nat) (pi : Z) : M W bool :=
  match fuel with
  | O => out_of_fuel
  | S fuel =>
    p ← onw (getpipe pi);
    if (pi_nread p =? pi_nwrite p) && truthy (pi_writeopen p) then
      k ← onw (killed me);
      if truthy k then onw (lkm (release (L_pipe pi)));; ret false else
      sleep (C_nread pi) (L_pipe pi);;
      piperead_wait fuel me pi
    else ret true
  end.

Fixpoint piperead_loop (fuel : nat) (me : nat) (pi addr n i : Z) : M KS Z :=
  match fuel with
  | O => out_of_fuel
  | S fuel =>
    if negb (i <? n) then ret i else
    p ← getpipe pi;
    if pi_nread p =? pi_nwrite p then ret i else
    ch ← deref (pi_data p !! Z.to_nat (pi_nread p mod PIPESIZE));
    updpipe pi (fun p => p <| pi_nread ::= fun n => u32 (n + 1) |>);;
    pr ← getp me;
    r ← onk (copyout (p_pagetable pr) (u64 (addr + i)) [ch]);
    if r =? -1 then ret i else piperead_loop fuel me pi addr n (i + 1)
  end.

Definition piperead (pi addr n : Z) : M W Z :=
  me ← onw (lkm myproc); me ← deref me;
  onw (lkm (acquire (L_pipe pi)));;
  w ← get;
  ok ← piperead_wait (S (length (w_env w))) me pi;
  if negb ok then ret (-1) else
  i ← onw (piperead_loop (S (Z.to_nat n)) me pi addr n 0);
  onw (wakeup (C_nwrite pi));;
  onw (lkm (release (L_pipe pi)));;
  ret i.

End pipe.
