(* ===== verification/File.v ===== *)
(** * Open files (kernel/file.c, and pipealloc of kernel/pipe.c) *)

From Stdlib Require Import ZArith Lia.
From stdpp Require Import base gmap strings numbers list.
From S2P Require Import Prelude Spinlock Mem Kstring Kalloc Vm Proc FsState Sleeplock Bio Log Fs Pipe.
Local Open Scope xv6_scope.

(** [devsw[]]: what the device with a major number does on reads and writes;
    [None] is a null function pointer. *)
Class DevSwitch := {
  dev_read : Z → option (bool → Z → Z → M W Z);
  dev_write : Z → option (bool → Z → Z → M W Z)
}.

(** [struct stat] as it lies in memory; the padding before [size] is whatever
    the stack held. *)
Definition stat_bytes (pad : list Z) (st : stat) : list Z :=
  le_bytes 4 (st_dev st) ++ le_bytes 4 (st_ino st) ++ le_bytes 2 (st_type st) ++ le_bytes 2 (st_nlink st)
  ++ pad ++ le_bytes 8 (st_size st).

Section file.
Context `{KI : KernelImage} `{DO : DiskOps} `{DS : DevSwitch}.

Definition fileinit : M KS unit := lkm (initlock L_ftable "ftable").

Definition filealloc : M KS (option nat) :=
  lkm (acquire L_ftable);;
  r ← for_until (seq 0 NFILE) (fun i =>
    f ← getf i;
    if f_ref f =? 0 then
      updf i (fun f => f <| f_ref := 1 |>);;
      lkm (release L_ftable);;
      ret (Some i)
    else ret None);
  match r with
  | Some i => ret (Some i)
  | None => lkm (release L_ftable);; ret None
  end.

Definition filedup (i : nat) : M KS nat :=
  lkm (acquire L_ftable);;
  f ← getf i;
  when (f_ref f <? 1) (panic "filedup");;
  updf i (fun f => f <| f_ref ::= fun n => i32 (n + 1) |>);;
  lkm (release L_ftable);;
  ret i.

Definition fileclose (i : nat) : M W unit :=
  onw (lkm (acquire L_ftable));;
  f ← onw (getf i);
  when (f_ref f <? 1) (onw (panic "fileclose"));;
  onw (updf i (fun f => f <| f_ref ::= fun n => n - 1 |>));;
  ff ← onw (getf i);
  if 0 <? f_ref ff then onw (lkm (release L_ftable)) else
  onw (updf i (fun f => f <| f_ref := 0 |> <| f_type := FD_NONE |>));;
  onw (lkm (release L_ftable));;
  match f_type ff with
  | FD_PIPE => onw (pipeclose (f_pipe ff) (f_writable ff))
  | FD_INODE | FD_DEVICE =>
    begin_op;;
    ip ← deref (f_ip ff);
    iput ip;;
    end_op
  | FD_NONE => ret tt
  end.

Definition filestat (pad : list Z) (i : nat) (addr : Z) : M W Z :=
  me ← onw (lkm myproc); me ← deref me;
  f ← onw (getf i);
  match f_type f with
  | FD_INODE | FD_DEVICE =>
    ilock (f_ip f);;
    ip ← deref (f_ip f);
    st ← onw (stati ip);
    iunlock (f_ip f);;
    p ← onw (getp me);
    r ← onw (onk (copyout (p_pagetable p) addr (stat_bytes pad st)));
    ret (if r <? 0 then -1 else 0)
  | _ => ret (-1)
  end.

Definition fileread (i : nat) (addr n : Z) : M W Z :=
  f ← onw (getf i);
  if f_readable f =? 0 then ret (-1) else
  match f_type f with
  | FD_PIPE => piperead (f_pipe f) addr n
  | FD_DEVICE =>
    if (f_major f <? 0) || (NDEV <=? f_major f) then ret (-1) else
    match dev_read (f_major f) with
    | None => ret (-1)
    | Some read => read true addr n
    end
  | FD_INODE =>
    ilock (f_ip f);;
    ip ← deref (f_ip f);
    f ← onw (getf i);
    '(r, _) ← readi ip (T_addr true addr) (f_off f) (u32 n);
    when (0 <? r) (onw (updf i (fun f => f <| f_off ::= fun o => u32 (o + r) |>)));;
    iunlock (f_ip f);;
    ret r
  | FD_NONE => panic "fileread"
  end.

(** The bytes that fit one transaction. *)
Definition filewrite_max : Z := (MAXOPBLOCKS - 1 - 1 - 2) / 2 * BSIZE.

(** Every round writes at least a byte, or is the last. *)
Fixpoint filewrite_loop (fuel : nat) (i : nat) (addr n k : Z) : M W Z :=
  match fuel with
  | O => out_of_fuel
  | S fuel =>
    if negb (k <? n) then ret k else
    let n1 := Z.min (n - k) filewrite_max in
    begin_op;;
    f ← onw (getf i);
    ilock (f_ip f);;
    ip ← deref (f_ip f);
    f ← onw (getf i);
    r ← writei ip (S_addr true (u64 (addr + k))) (f_off f) n1;
    when (0 <? r) (onw (updf i (fun f => f <| f_off ::= fun o => u32 (o + r) |>)));;
    iunlock (f_ip f);;
    end_op;;
    if negb (r =? n1) then ret k else filewrite_loop fuel i addr n (k + r)
  end.

Definition filewrite (i : nat) (addr n : Z) : M W Z :=
  f ← onw (getf i);
  if f_writable f =? 0 then ret (-1) else
  match f_type f with
  | FD_PIPE => pipewrite (f_pipe f) addr n
  | FD_DEVICE =>
    if (f_major f <? 0) || (NDEV <=? f_major f) then ret (-1) else
    match dev_write (f_major f) with
    | None => ret (-1)
    | Some write => write true addr n
    end
  | FD_INODE =>
    k ← filewrite_loop (S (Z.to_nat n)) i addr n 0;
    ret (if k =? n then n else -1)
  | FD_NONE => panic "filewrite"
  end.

(** [bad:] of [pipealloc]. *)
Definition pipealloc_bad (pi : Z) (f0 f1 : option nat) : M W (option (nat * nat)) :=
  when (truthy pi) (onw (onk (kfree pi)));;
  match f0 with Some i => fileclose i | None => ret tt end;;
  match f1 with Some i => fileclose i | None => ret tt end;;
  ret None.

(** The two ends; [None] is the result -1.  [kalloc] has filled the page with
    5s. *)
Definition pipealloc : M W (option (nat * nat)) :=
  f0 ← onw filealloc;
  f1 ← (match f0 with Some _ => onw filealloc | None => ret None end);
  match f0, f1 with
  | Some i0, Some i1 =>
    pi ← onw (onk kalloc);
    if pi =? 0 then pipealloc_bad 0 f0 f1 else
    onw (updfs (fun fs => fs <| fs_pipe ::= <[pi := Pipe (replicate (Z.to_nat PIPESIZE) 5) 0 0 1 1]> |>));;
    onw (lkm (initlock (L_pipe pi) "pipe"));;
    onw (updf i0 (fun f => f <| f_type := FD_PIPE |> <| f_readable := 1 |> <| f_writable := 0 |> <| f_pipe := pi |>));;
    onw (updf i1 (fun f => f <| f_type := FD_PIPE |> <| f_readable := 0 |> <| f_writable := 1 |> <| f_pipe := pi |>));;
    ret (Some (i0, i1))
  | _, _ => pipealloc_bad 0 f0 f1
  end.

End file.
