(* ===== verification/Console.v ===== *)
(** * The serial port, the console and kernel printing
    (kernel/uart.c, console.c, printf.c, and procdump of proc.c)

    The UART's registers are modelled by what the driver uses of them: the line
    status, the receive register and the transmit register. *)

From Stdlib Require Import ZArith Lia.
From stdpp Require Import base gmap strings numbers list.
From S2P Require Import Prelude Numeral Spinlock Mem Kstring Kalloc Vm Proc ProcLife FsState Sleeplock Bio Log Fs Pipe File.
Local Open Scope xv6_scope.

Definition LSR_RX_READY : Z := 1.
Definition LSR_TX_IDLE : Z := 32.
Definition BACKSPACE : Z := 256.
Definition CONSOLE : Z := 1.
(** [C(x)], control-x. *)
Definition C (x : Z) : Z := x - 64.

(** A format that ends a line. *)
Definition cline (s : string) : list Z := removelast (cstring s) ++ [10; 0].

Section console.
Context `{KI : KernelImage}.

(** ** Registers *)

(** [ReadReg(LSR)] *)
Definition read_LSR : M KS Z :=
  c ← getcon;
  ret (Z.lor (match ua_in c with [] => 0 | _ => LSR_RX_READY end) (if decide (ua_room c = 0%nat) then 0 else LSR_TX_IDLE)).

(** [ReadReg(RHR)] *)
Definition read_RHR : M KS Z :=
  c ← getcon;
  updcon (fun c => c <| ua_in ::= tail |>);;
  ret (hd 0 (ua_in c)).

(** [WriteReg(THR, v)] *)
Definition write_THR (v : Z) : M KS unit :=
  updcon (fun c => c <| ua_out ::= fun out => out ++ [u8 v] |> <| ua_room ::= pred |>).

(** ** Output that does not wait for interrupts *)

(** [while((ReadReg(LSR) & LSR_TX_IDLE) == 0);]  The UART sends what it holds
    without any help, and then has room. *)
Fixpoint wait_tx_idle (fuel : nat) : M KS unit :=
  match fuel with
  | O => out_of_fuel
  | S fuel =>
    lsr ← read_LSR;
    if Z.land lsr LSR_TX_IDLE =? 0 then updcon (fun c => c <| ua_room ::= S |>);; wait_tx_idle fuel
    else ret tt
  end.

Definition uartputc_sync (c : Z) : M KS unit :=
  lkm push_off;;
  con ← getcon;
  if truthy (pr_panicked con) then spin else
  wait_tx_idle 2;;
  write_THR c;;
  lkm pop_off.

Definition consputc (c : Z) : M KS unit :=
  if c =? BACKSPACE then uartputc_sync 8;; uartputc_sync 32;; uartputc_sync 8
  else uartputc_sync c.

(** ** Printing *)

Definition digits : list Z := removelast (cstring "0123456789abcdef").

(** The loop is that of Numeral.v. *)
Definition printint_buf (xx base : Z) (sign : bool) : option (list Z) := int_buf digits xx base sign.

(** Storing past [buf[16]] is a fault. *)
Definition printint (xx base : Z) (sign : bool) : M KS unit :=
  match printint_buf xx base sign with
  | None => fault 0
  | Some buf => if decide (length buf ≤ 16)%nat then for_each (rev buf) consputc else fault 16
  end.

Fixpoint printptr_loop (n : nat) (x : Z) : M KS unit :=
  match n with
  | O => ret tt
  | S n => d ← deref (digits !! Z.to_nat (Z.shiftr x 60)); consputc d;; printptr_loop n (u64 (Z.shiftl x 4))
  end.

Definition printptr (x : Z) : M KS unit := consputc 48;; consputc 120;; printptr_loop 16 x.

(** [for(; *s; s++) consputc( *s);] *)
Fixpoint print_str (s : list Z) : M KS unit :=
  match s with
  | [] => fault 0
  | c :: s => if c =? 0 then ret tt else consputc c;; print_str s
  end.

(** The arguments after the format; taking one of another type is undefined. *)
Inductive arg := A_int (x : Z) | A_ptr (x : Z) | A_str (s : option (list Z)).

Fixpoint printf_loop (fmt : list Z) (args : list arg) : M KS unit :=
  match fmt with
  | [] => fault 0
  | c :: fmt =>
    if c =? 0 then ret tt else
    if negb (c =? 37) then consputc c;; printf_loop fmt args else
    match fmt with
    | [] => fault 0
    | c :: fmt =>
      if c =? 0 then ret tt else
      if c =? 100 then                                              (* 'd' *)
        match args with A_int x :: args => printint x 10 true;; printf_loop fmt args | _ => fault 0 end
      else if c =? 120 then                                         (* 'x' *)
        match args with A_int x :: args => printint x 16 true;; printf_loop fmt args | _ => fault 0 end
      else if c =? 112 then                                         (* 'p' *)
        match args with A_ptr x :: args => printptr x;; printf_loop fmt args | _ => fault 0 end
      else if c =? 115 then                                         (* 's' *)
        match args with
        | A_str s :: args => print_str (default (cstring "(null)") s);; printf_loop fmt args
        | _ => fault 0
        end
      else if c =? 37 then consputc 37;; printf_loop fmt args
      else consputc 37;; consputc c;; printf_loop fmt args
    end
  end.

Definition printf (fmt : option (list Z)) (args : list arg) : M KS unit :=
  c ← getcon;
  let locking := truthy (pr_locking c) in
  when locking (lkm (acquire L_pr));;
  match fmt with
  | None => panic "null fmt"
  | Some fmt =>
    printf_loop fmt args;;
    when locking (lkm (release L_pr))
  end.

Definition printfinit : M KS unit :=
  lkm (initlock L_pr "pr");;
  updcon (fun c => c <| pr_locking := 1 |>).

(** ** The process list *)

Definition state_name (st : procstate) : list Z :=
  cstring (match st with
           | UNUSED => "unused" | USED => "used" | SLEEPING => "sleep " | RUNNABLE => "runble"
           | RUNNING => "run   " | ZOMBIE => "zombie"
           end)%string.

Definition procdump : M KS unit :=
  printf (Some [10; 0]) [];;
  for_each (seq 0 NPROC) (fun i =>
    p ← getp i;
    if decide (p_state p = UNUSED) then ret tt else
    printf (Some (cstring "%d %s %s")) [A_int (p_pid p); A_str (Some (state_name (p_state p))); A_str (Some (p_name p))];;
    printf (Some [10; 0]) []).

(** ** Buffered output *)

(** Every round sends a byte. *)
Fixpoint uartstart_loop (fuel : nat) : M KS unit :=
  match fuel with
  | O => out_of_fuel
  | S fuel =>
    con ← getcon;
    if ua_tx_w con =? ua_tx_r con then ret tt else
    lsr ← read_LSR;
    if Z.land lsr LSR_TX_IDLE =? 0 then ret tt else
    c ← deref (ua_tx_buf con !! Z.to_nat (ua_tx_r con mod UART_TX_BUF_SIZE));
    updcon (fun con => con <| ua_tx_r ::= fun r => u64 (r + 1) |>);;
    wakeup C_uart_tx_r;;
    write_THR c;;
    uartstart_loop fuel
  end.

Definition uartstart : M KS unit :=
  con ← getcon;
  uartstart_loop (S (Z.to_nat (u64 (ua_tx_w con - ua_tx_r con)))).

Fixpoint uartputc_wait (fuel : nat) : M W unit :=
  match fuel with
  | O => out_of_fuel
  | S fuel =>
    con ← onw getcon;
    if ua_tx_w con =? u64 (ua_tx_r con + UART_TX_BUF_SIZE) then
      sleep C_uart_tx_r L_uart_tx;; uartputc_wait fuel
    else ret tt
  end.

Definition uartputc (c : Z) : M W unit :=
  onw (lkm (acquire L_uart_tx));;
  con ← onw getcon;
  if truthy (pr_panicked con) then spin else
  w ← get;
  uartputc_wait (S (length (w_env w)));;
  onw (updcon (fun con => con <| ua_tx_buf ::= <[Z.to_nat (ua_tx_w con mod UART_TX_BUF_SIZE) := u8 c]> |>
                              <| ua_tx_w ::= fun w => u64 (w + 1) |>));;
  onw uartstart;;
  onw (lkm (release L_uart_tx)).

(** One round per byte, then the result [i]. *)
Fixpoint consolewrite_loop (fuel : nat) (user_src : bool) (src n i : Z) : M W Z :=
  match fuel with
  | O => out_of_fuel
  | S fuel =>
    if negb (i <? n) then ret i else
    '(r, bs) ← onw (either_copyin user_src (u64 (src + i)) 1);
    if r =? -1 then ret i else
    c ← deref (bs !! 0%nat);
    uartputc c;;
    consolewrite_loop fuel user_src src n (i + 1)
  end.

Definition consolewrite (user_src : bool) (src n : Z) : M W Z :=
  consolewrite_loop (S (Z.to_nat n)) user_src src n 0.

(** ** Input *)

(** Wait for input: [false] if the process was killed, with the lock released. *)
Fixpoint consoleread_wait (fuel : nat) : M W bool :=
  match fuel with
  | O => out_of_fuel
  | S fuel =>
    con ← onw getcon;
    if negb (cn_r con =? cn_w con) then ret true else
    me ← onw (lkm myproc); me ← deref me;
    k ← onw (killed me);
    if truthy k then onw (lkm (release L_cons));; ret false
    else sleep C_cons_r L_cons;; consoleread_wait fuel
  end.

(** [Some n]: the loop is left with [n]; [None]: return -1. *)
Fixpoint consoleread_loop (fuel : nat) (user_dst : bool) (dst n target : Z) : M W (option Z) :=
  match fuel with
  | O => out_of_fuel
  | S fuel =>
    if negb (0 <? n) then ret (Some n) else
    w ← get;
    ok ← consoleread_wait (S (length (w_env w)));
    if negb ok then ret None else
    con ← onw getcon;
    c ← deref (cn_buf con !! Z.to_nat (cn_r con mod INPUT_BUF_SIZE));
    onw (updcon (fun con => con <| cn_r ::= fun r => u32 (r + 1) |>));;
    if c =? C 68 then
      when (u32 n <? target) (onw (updcon (fun con => con <| cn_r ::= fun r => u32 (r - 1) |>)));;
      ret (Some n)
    else
    r ← onw (either_copyout user_dst dst [c]);
    if r =? -1 then ret (Some n) else
    if c =? 10 then ret (Some (n - 1))
    else consoleread_loop fuel user_dst (u64 (dst + 1)) (n - 1) target
  end.

Definition consoleread (user_dst : bool) (dst n : Z) : M W Z :=
  let target := u32 n in
  onw (lkm (acquire L_cons));;
  r ← consoleread_loop (S (Z.to_nat n)) user_dst dst n target;
  match r with
  | None => ret (-1)
  | Some n => onw (lkm (release L_cons));; ret (i32 (target - n))
  end.

(** The loop of control-U. *)
Fixpoint kill_line (fuel : nat) : M KS unit :=
  match fuel with
  | O => out_of_fuel
  | S fuel =>
    con ← getcon;
    if cn_e con =? cn_w con then ret tt else
    c ← deref (cn_buf con !! Z.to_nat (u32 (cn_e con - 1) mod INPUT_BUF_SIZE));
    if c =? 10 then ret tt else
    updcon (fun con => con <| cn_e ::= fun e => u32 (e - 1) |>);;
    consputc BACKSPACE;;
    kill_line fuel
  end.

(** [switch(c)] *)
Definition consoleintr_switch (c : Z) : M KS unit :=
  if c =? C 80 then procdump                                        (* 'P' *)
  else if c =? C 85 then                                            (* 'U' *)
    con ← getcon;
    kill_line (S (Z.to_nat (u32 (cn_e con - cn_w con))))
  else if (c =? C 72) || (c =? 127) then                            (* 'H' *)
    con ← getcon;
    if cn_e con =? cn_w con then ret tt else
    updcon (fun con => con <| cn_e ::= fun e => u32 (e - 1) |>);;
    consputc BACKSPACE
  else
    con ← getcon;
    if negb (c =? 0) && (u32 (cn_e con - cn_r con) <? INPUT_BUF_SIZE) then
      let c := if c =? 13 then 10 else c in
      consputc c;;
      updcon (fun con => con <| cn_buf ::= <[Z.to_nat (cn_e con mod INPUT_BUF_SIZE) := u8 c]> |>
                             <| cn_e ::= fun e => u32 (e + 1) |>);;
      con ← getcon;
      when ((c =? 10) || (c =? C 68) || (u32 (cn_e con - cn_r con) =? INPUT_BUF_SIZE))
        (updcon (fun con => con <| cn_w := cn_e con |>);;
         wakeup C_cons_r)
    else ret tt.

Definition consoleintr (c : Z) : M KS unit :=
  lkm (acquire L_cons);;
  consoleintr_switch c;;
  lkm (release L_cons).

Definition uartgetc : M KS Z :=
  lsr ← read_LSR;
  if truthy (Z.land lsr 1) then read_RHR else ret (-1).

(** Every round takes a byte off the receiver. *)
Fixpoint uartintr_loop (fuel : nat) : M KS unit :=
  match fuel with
  | O => out_of_fuel
  | S fuel =>
    c ← uartgetc;
    if c =? -1 then ret tt else consoleintr c;; uartintr_loop fuel
  end.

Definition uartintr : M KS unit :=
  con ← getcon;
  uartintr_loop (S (length (ua_in con)));;
  lkm (acquire L_uart_tx);;
  uartstart;;
  lkm (release L_uart_tx).

End console.

(** [devsw[]] after [consoleinit]. *)
#[global] Instance console_devsw `{KI : KernelImage} : DevSwitch := {
  dev_read major := if major =? CONSOLE then Some consoleread else None;
  dev_write major := if major =? CONSOLE then Some consolewrite else None
}.
