(* ===== verification/Exec.v ===== *)
(** * Loading programs (kernel/exec.c, elf.h) *)

From Stdlib Require Import ZArith Lia.
From stdpp Require Import base gmap strings numbers list.
From S2P Require Import Prelude Spinlock Mem Kstring Kalloc Vm Proc ProcLife FsState Sleeplock Bio Log Fs.
Local Open Scope xv6_scope.

Definition MAXARG : Z := 32.

(** ** Headers *)

Definition ELF_MAGIC : Z := 1179403647.                 (* 0x464C457F *)
Definition ELF_PROG_LOAD : Z := 1.

(** [struct elfhdr] and [struct proghdr], as byte arrays. *)
Definition ELFHDRSIZE : Z := 64.
Definition elf_magic (h : list Z) : Z := get_at 0 4 h.
Definition elf_entry (h : list Z) : Z := get_at 24 8 h.
Definition elf_phoff (h : list Z) : Z := get_at 32 8 h.
Definition elf_phnum (h : list Z) : Z := get_at 56 2 h.

Definition PROGHDRSIZE : Z := 56.
Definition ph_type (h : list Z) : Z := get_at 0 4 h.
Definition ph_flags (h : list Z) : Z := get_at 4 4 h.
Definition ph_off (h : list Z) : Z := get_at 8 8 h.
Definition ph_vaddr (h : list Z) : Z := get_at 16 8 h.
Definition ph_filesz (h : list Z) : Z := get_at 32 8 h.
Definition ph_memsz (h : list Z) : Z := get_at 40 8 h.

Definition flags2perm (flags : Z) : Z :=
  let perm := if truthy (Z.land flags 1) then PTE_X else 0 in
  if truthy (Z.land flags 2) then Z.lor perm PTE_W else perm.

(** The part of [path] after the last slash. *)
Fixpoint last_elem (s last : list Z) : list Z :=
  match s with
  | [] => last
  | c :: s => last_elem s (if c =? SLASH then s else last)
  end.

Section exec.
Context `{KI : KernelImage} `{DO : DiskOps}.

(** ** Segments *)

(** One round per page. *)
Fixpoint loadseg_loop (fuel : nat) (pagetable va : Z) (ip : nat) (offset sz i : Z) : M W Z :=
  match fuel with
  | O => out_of_fuel
  | S fuel =>
    if negb (i <? sz) then ret 0 else
    pa ← onw (onk (walkaddr pagetable (u64 (va + i))));
    when (pa =? 0) (panic "loadseg: address should exist");;
    let n := if u32 (sz - i) <? PGSIZE then u32 (sz - i) else PGSIZE in
    '(r, _) ← readi ip (T_addr false pa) (u32 (offset + i)) n;
    if negb (u32 r =? n) then ret (-1) else loadseg_loop fuel pagetable va ip offset sz (u32 (i + PGSIZE))
  end.

Definition loadseg (pagetable va : Z) (ip : nat) (offset sz : Z) : M W Z :=
  loadseg_loop (S (S (Z.to_nat (sz / PGSIZE)))) pagetable va ip offset sz 0.

(** The program headers from number [i] on, [n] of them left: whether all went
    well, and the size so far. *)
Fixpoint load_program (n : nat) (ip : nat) (pagetable off sz : Z) : M W (bool * Z) :=
  match n with
  | O => ret (true, sz)
  | S n =>
    '(r, ph) ← readi ip T_local (u32 off) PROGHDRSIZE;
    if negb (r =? PROGHDRSIZE) then ret (false, sz) else
    if negb (ph_type ph =? ELF_PROG_LOAD) then load_program n ip pagetable (i32 (off + PROGHDRSIZE)) sz else
    if ph_memsz ph <? ph_filesz ph then ret (false, sz) else
    if u64 (ph_vaddr ph + ph_memsz ph) <? ph_vaddr ph then ret (false, sz) else
    if negb (ph_vaddr ph mod PGSIZE =? 0) then ret (false, sz) else
    sz1 ← onw (onk (uvmalloc pagetable sz (u64 (ph_vaddr ph + ph_memsz ph)) (flags2perm (ph_flags ph))));
    if sz1 =? 0 then ret (false, sz) else
    r ← loadseg pagetable (ph_vaddr ph) ip (u32 (ph_off ph)) (u32 (ph_filesz ph));
    if r <? 0 then ret (false, sz1) else
    load_program n ip pagetable (i32 (off + PROGHDRSIZE)) sz1
  end.

(** ** Arguments *)

(** [strlen] of a string in memory, which ends within a page. *)
Fixpoint strlen_mem (fuel : nat) (s : Z) : M kst Z :=
  match fuel with
  | O => out_of_fuel
  | S fuel => c ← ld8 s; if c =? 0 then ret 0 else n ← strlen_mem fuel (s + 1); ret (n + 1)
  end.

(** Push the strings of [argv], [argc] of them done; [None] is [goto bad].
    Returns the stack pointer and the addresses of the strings. *)
Fixpoint push_strings (fuel : nat) (pagetable : Z) (argv : list Z) (argc : nat) (sp stackbase : Z) (ustack : list Z)
    : M kst (option (Z * list Z)) :=
  match fuel with
  | O => out_of_fuel
  | S fuel =>
    s ← deref (argv !! argc);
    if s =? 0 then ret (Some (sp, ustack)) else
    if MAXARG <=? Z.of_nat argc then ret None else
    len ← strlen_mem (Z.to_nat PGSIZE) s;
    let sp := u64 (sp - (len + 1)) in
    let sp := u64 (sp - sp mod 16) in
    if sp <? stackbase then ret None else
    bs ← copy_to_kernel s (Z.to_nat (len + 1));
    r ← copyout pagetable sp bs;
    if r <? 0 then ret None else
    push_strings fuel pagetable argv (S argc) sp stackbase (ustack ++ [sp])
  end.

(** Push the array of the addresses, with a null pointer at its end. *)
Definition push_argv (pagetable sp stackbase : Z) (ustack : list Z) : M kst (option Z) :=
  let argc := Z.of_nat (length ustack) in
  (* ustack[argc] = 0 with argc == MAXARG is past the array *)
  when (MAXARG <=? argc) (fault argc);;
  let sp := u64 (sp - (argc + 1) * 8) in
  let sp := u64 (sp - sp mod 16) in
  if sp <? stackbase then ret None else
  r ← copyout pagetable sp (concat (le_bytes 8 <$> (ustack ++ [0])));
  if r <? 0 then ret None else ret (Some sp).

(** ** [exec] *)

(** [bad:] *)
Definition exec_bad (pagetable sz : Z) (ip : option nat) : M W Z :=
  when (truthy pagetable) (onw (onk (proc_freepagetable pagetable sz)));;
  (match ip with Some i => iunlockput i;; end_op | None => ret tt end);;
  ret (-1).

(** From the end of the loading on: the stack, the arguments, and the switch to
    the new image. *)
Definition exec_commit (path : list Z) (argv : list Z) (entry pagetable sz : Z) : M W Z :=
  i ← onw (lkm myproc); i ← deref i;
  p ← onw (getp i);
  let oldsz := p_sz p in
  let sz := PGROUNDUP sz in
  sz1 ← onw (onk (uvmalloc pagetable sz (u64 (sz + 2 * PGSIZE)) PTE_W));
  if sz1 =? 0 then exec_bad pagetable sz None else
  let sz := sz1 in
  onw (onk (uvmclear pagetable (u64 (sz - 2 * PGSIZE))));;
  let stackbase := u64 (sz - PGSIZE) in
  r ← onw (onk (push_strings (S (S (Z.to_nat MAXARG))) pagetable argv 0 sz stackbase []));
  match r with
  | None => exec_bad pagetable sz None
  | Some (sp, ustack) =>
    r ← onw (onk (push_argv pagetable sp stackbase ustack));
    match r with
    | None => exec_bad pagetable sz None
    | Some sp =>
      onw (onk (st64 (p_trapframe p + TF_a1) sp));;
      onw (set_name i (last_elem path path ++ [0]));;
      let oldpagetable := p_pagetable p in
      onw (updp i (fun p => p <| p_pagetable := pagetable |> <| p_sz := sz |>));;
      onw (onk (st64 (p_trapframe p + TF_epc) entry));;
      onw (onk (st64 (p_trapframe p + TF_sp) sp));;
      onw (onk (proc_freepagetable oldpagetable oldsz));;
      ret (i32 (Z.of_nat (length ustack)))
    end
  end.

Definition exec (path : list Z) (argv : list Z) : M W Z :=
  i ← onw (lkm myproc); i ← deref i;
  begin_op;;
  r ← namei path;
  match r with
  | None => end_op;; ret (-1)
  | Some ip =>
    ilock (Some ip);;
    '(r, elf) ← readi ip T_local 0 ELFHDRSIZE;
    if negb (r =? ELFHDRSIZE) then exec_bad 0 0 (Some ip) else
    if negb (elf_magic elf =? ELF_MAGIC) then exec_bad 0 0 (Some ip) else
    p ← onw (getp i);
    pagetable ← onw (onk (proc_pagetable p));
    if pagetable =? 0 then exec_bad 0 0 (Some ip) else
    '(ok, sz) ← load_program (Z.to_nat (elf_phnum elf)) ip pagetable (i32 (elf_phoff elf)) 0;
    if negb ok then exec_bad pagetable sz (Some ip) else
    iunlockput ip;;
    end_op;;
    exec_commit path argv (elf_entry elf) pagetable sz
  end.

End exec.
