(* ===== verification/Syscall.v ===== *)
(** * System calls: arguments, and the calls on processes
    (kernel/syscall.c, sysproc.c)

    The arguments of a call are registers saved in the trapframe; pointers among
    them are user addresses.  A result is kept as an integer that the 64-bit
    register holds modulo 2^64. *)

From Stdlib Require Import ZArith Lia.
From stdpp Require Import base gmap strings numbers list.
From S2P Require Import Prelude Spinlock Mem Kstring Kalloc Vm Proc ProcLife FsState Sleeplock Bio Log Fs Pipe File Console.
Local Open Scope xv6_scope.

Definition TF_a2 : Z := 128.
Definition TF_a3 : Z := 136.
Definition TF_a4 : Z := 144.
Definition TF_a5 : Z := 152.
Definition TF_a7 : Z := 168.

(** The file system as processes use it. *)
#[global] Instance kernel_files `{KI : KernelImage} `{DO : DiskOps} : FileOps fsstate := {
  ProcLife.filedup i := onw (File.filedup i);
  ProcLife.fileclose := File.fileclose;
  ProcLife.idup i := onw (Fs.idup i);
  ProcLife.iput := Fs.iput;
  ProcLife.begin_op := Log.begin_op;
  ProcLife.end_op := Log.end_op;
  ProcLife.namei := Fs.namei;
  ProcLife.fsinit := Fs.fsinit
}.

Section syscall.
Context `{KI : KernelImage} `{DO : DiskOps}.

(** ** Arguments *)

(** The process that runs, and its slot. *)
Definition myprocp : M KS (nat * proc) :=
  i ← lkm myproc; i ← deref i;
  p ← getp i;
  ret (i, p).

(** [None] is the result -1. *)
Definition fetchaddr (addr : Z) : M KS (option Z) :=
  '(_, p) ← myprocp;
  if (p_sz p <=? addr) || (p_sz p <? u64 (addr + 8)) then ret None else
  '(r, bs) ← onk (copyin (p_pagetable p) addr 8);
  if negb (r =? 0) then ret None else ret (Some (le_value bs)).

(** The result, and what was stored in [buf]. *)
Definition fetchstr (addr max : Z) : M KS (Z * list Z) :=
  '(_, p) ← myprocp;
  '(r, buf) ← onk (copyinstr (p_pagetable p) addr max);
  if r <? 0 then ret (-1, buf) else ret (i32 (Z.of_nat (length (cstr buf))), buf).

Definition argraw (n : Z) : M KS Z :=
  '(_, p) ← myprocp;
  if n =? 0 then onk (ld64 (p_trapframe p + TF_a0))
  else if n =? 1 then onk (ld64 (p_trapframe p + TF_a1))
  else if n =? 2 then onk (ld64 (p_trapframe p + TF_a2))
  else if n =? 3 then onk (ld64 (p_trapframe p + TF_a3))
  else if n =? 4 then onk (ld64 (p_trapframe p + TF_a4))
  else if n =? 5 then onk (ld64 (p_trapframe p + TF_a5))
  else panic "argraw".

Definition argint (n : Z) : M KS Z := x ← argraw n; ret (i32 x).
Definition argaddr (n : Z) : M KS Z := argraw n.
Definition argstr (n max : Z) : M KS (Z * list Z) := addr ← argaddr n; fetchstr addr max.

(** ** Processes *)

Definition sys_exit : M W Z :=
  n ← onw (argint 0);
  exit n;;
  ret 0.

Definition sys_getpid : M W Z := '(_, p) ← onw myprocp; ret (p_pid p).

Definition sys_fork : M W Z := fork.

Definition sys_wait : M W Z := p ← onw (argaddr 0); wait p.

Definition sys_sbrk : M W Z :=
  n ← onw (argint 0);
  '(_, p) ← onw myprocp;
  let addr := p_sz p in
  r ← onw (growproc n);
  if r <? 0 then ret (-1) else ret addr.

(** Every further round sleeps; [None] is [return -1], with the lock released.
    The comparison is unsigned. *)
Fixpoint sys_sleep_loop (fuel : nat) (ticks0 n : Z) : M W (option unit) :=
  match fuel with
  | O => out_of_fuel
  | S fuel =>
    ticks ← onw (gets ks_ticks);
    if negb (u32 (ticks - ticks0) <? u32 n) then ret (Some tt) else
    me ← onw (lkm myproc); me ← deref me;
    k ← onw (killed me);
    if truthy k then onw (lkm (release L_ticks));; ret None else
    r ← sleep C_ticks L_ticks;
    if truthy r then ret (Some tt) else sys_sleep_loop fuel ticks0 n
  end.

Definition sys_sleep : M W Z :=
  n ← onw (argint 0);
  onw (lkm (acquire L_ticks));;
  ticks0 ← onw (gets ks_ticks);
  w ← get;
  r ← sys_sleep_loop (S (length (w_env w))) ticks0 n;
  match r with
  | None => ret (-1)
  | Some _ => onw (lkm (release L_ticks));; ret 0
  end.

Definition sys_kill : M W Z := pid ← onw (argint 0); onw (kill pid).

Definition sys_uptime : M W Z :=
  onw (lkm (acquire L_ticks));;
  xticks ← onw (gets ks_ticks);
  onw (lkm (release L_ticks));;
  ret xticks.

Definition sys_yield : M W Z :=
  onw (lkm intr_off);;
  yield;;
  ret 0.

(** ** Signals *)

Definition sys_send_signal : M W Z :=
  '(_, p) ← onw myprocp;
  a0 ← onw (onk (ld64 (p_trapframe p + TF_a0)));
  a2 ← onw (onk (ld64 (p_trapframe p + TF_a2)));
  a1 ← onw (onk (ld64 (p_trapframe p + TF_a1)));
  onw (send_signal (Signal (i32 a0) (p_pid p) a2) (i32 a1)).

Definition sys_set_signal_handler : M W Z :=
  '(_, p) ← onw myprocp;
  a0 ← onw (onk (ld64 (p_trapframe p + TF_a0)));
  a1 ← onw (onk (ld64 (p_trapframe p + TF_a1)));
  onw (set_signal_handler (i32 a0) a1).

Definition sys_alarm : M W Z :=
  '(i, p) ← onw myprocp;
  a0 ← onw (onk (ld64 (p_trapframe p + TF_a0)));
  onw (alarm i (u32 a0)).

End syscall.
