(* ===== verification/SysFile.v ===== *)
(** * System calls on files, and the dispatch of calls (kernel/sysfile.c, syscall.c) *)

From Stdlib Require Import ZArith Lia.
From stdpp Require Import base gmap strings numbers list.
From S2P Require Import Prelude Spinlock Mem Kstring Kalloc Vm Proc ProcLife FsState Sleeplock Bio Log Fs Pipe File Console Exec Syscall.
Local Open Scope xv6_scope.

Definition MAXPATH : Z := 128.
Definition O_RDONLY : Z := 0.
Definition O_WRONLY : Z := 1.
Definition O_RDWR : Z := 2.
Definition O_CREATE : Z := 512.                         (* 0x200 *)
Definition O_TRUNC : Z := 1024.                         (* 0x400 *)

(** The names of a directory and its parent. *)
Definition DOT : list Z := [46; 0].
Definition DOTDOT : list Z := [46; 46; 0].

(** [char name[DIRSIZ]] on the stack, which [nameiparent] fills. *)
Definition name_buf : list Z := replicate (Z.to_nat DIRSIZ) 0.

Section sysfile.
Context `{KI : KernelImage} `{DO : DiskOps}.

(** ** Descriptors *)

(** The descriptor and the file; [None] is the result -1. *)
Definition argfd (n : Z) : M KS (option (Z * nat)) :=
  fd ← argint n;
  if (fd <? 0) || (Z.of_nat NOFILE <=? fd) then ret None else
  '(_, p) ← myprocp;
  match p_ofile p !! Z.to_nat fd with
  | Some (Some f) => ret (Some (fd, f))
  | _ => ret None
  end.

Definition fdalloc (f : nat) : M KS Z :=
  '(i, _) ← myprocp;
  r ← for_until (seq 0 NOFILE) (fun fd =>
    p ← getp i;
    match p_ofile p !! fd with
    | Some None => updp i (fun p => p <| p_ofile ::= <[fd := Some f]> |>);; ret (Some (Z.of_nat fd))
    | _ => ret None
    end);
  ret (default (-1) r).

(** [myproc()->ofile[fd] = 0] *)
Definition clear_fd (i : nat) (fd : Z) : M KS unit :=
  updp i (fun p => p <| p_ofile ::= <[Z.to_nat fd := None]> |>).

Definition sys_dup : M W Z :=
  r ← onw (argfd 0);
  match r with
  | None => ret (-1)
  | Some (_, f) =>
    fd ← onw (fdalloc f);
    if fd <? 0 then ret (-1) else
    onw (filedup f);;
    ret fd
  end.

Definition sys_read : M W Z :=
  p ← onw (argaddr 1);
  n ← onw (argint 2);
  r ← onw (argfd 0);
  match r with None => ret (-1) | Some (_, f) => fileread f p n end.

Definition sys_write : M W Z :=
  p ← onw (argaddr 1);
  n ← onw (argint 2);
  r ← onw (argfd 0);
  match r with None => ret (-1) | Some (_, f) => filewrite f p n end.

Definition sys_close : M W Z :=
  r ← onw (argfd 0);
  match r with
  | None => ret (-1)
  | Some (fd, f) =>
    '(i, _) ← onw myprocp;
    onw (clear_fd i fd);;
    fileclose f;;
    ret 0
  end.

(** [pad] is what the padding of the structure held. *)
Definition sys_fstat (pad : list Z) : M W Z :=
  st ← onw (argaddr 1);
  r ← onw (argfd 0);
  match r with None => ret (-1) | Some (_, f) => filestat pad f st end.

(** ** Directory entries *)

(** [bad:] of [sys_link]. *)
Definition sys_link_bad (ip : nat) : M W Z :=
  ilock (Some ip);;
  onw (updi ip (fun ip => ip <| i_nlink ::= fun n => i16 (n - 1) |>));;
  iupdate ip;;
  iunlockput ip;;
  end_op;;
  ret (-1).

Definition sys_link : M W Z :=
  '(r, old) ← onw (argstr 0 MAXPATH);
  if r <? 0 then ret (-1) else
  '(r, new) ← onw (argstr 1 MAXPATH);
  if r <? 0 then ret (-1) else
  begin_op;;
  r ← namei (cstr old);
  match r with
  | None => end_op;; ret (-1)
  | Some ip =>
    ilock (Some ip);;
    x ← onw (geti ip);
    if i_type x =? T_DIR then iunlockput ip;; end_op;; ret (-1) else
    onw (updi ip (fun ip => ip <| i_nlink ::= fun n => i16 (n + 1) |>));;
    iupdate ip;;
    iunlock (Some ip);;
    '(r, name) ← nameiparent (cstr new) name_buf;
    match r with
    | None => sys_link_bad ip
    | Some dp =>
      ilock (Some dp);;
      d ← onw (geti dp); x ← onw (geti ip);
      fails ← (if negb (i_dev d =? i_dev x) then ret true
               else r ← dirlink dp name (i_inum x); ret (r <? 0));
      if fails : bool then iunlockput dp;; sys_link_bad ip else
      iunlockput dp;;
      iput ip;;
      end_op;;
      ret 0
    end
  end.

(** Every round goes on to the next entry; the comparison with the size is
    unsigned. *)
Fixpoint isdirempty_loop (fuel : nat) (dp : nat) (off : Z) : M W Z :=
  match fuel with
  | O => out_of_fuel
  | S fuel =>
    d ← onw (geti dp);
    if negb (u32 off <? i_size d) then ret 1 else
    '(r, de) ← readi dp T_local (u32 off) DIRENTSIZE;
    when (negb (r =? DIRENTSIZE)) (panic "isdirempty: readi");;
    if truthy (de_inum de) then ret 0 else isdirempty_loop fuel dp (i32 (off + DIRENTSIZE))
  end.

Definition isdirempty (dp : nat) : M W Z :=
  d ← onw (geti dp);
  isdirempty_loop (S (S (Z.to_nat (i_size d / DIRENTSIZE)))) dp (2 * DIRENTSIZE).

(** [bad:] of [sys_unlink]. *)
Definition sys_unlink_bad (dp : nat) : M W Z :=
  iunlockput dp;;
  end_op;;
  ret (-1).

(** The rest of [sys_unlink], with entry [off] of [dp] found to name [ip]. *)
Definition sys_unlink_entry (dp ip : nat) (off : Z) : M W Z :=
  ilock (Some ip);;
  x ← onw (geti ip);
  when (i_nlink x <? 1) (panic "unlink: nlink < 1");;
  full ← (if i_type x =? T_DIR then e ← isdirempty ip; ret (e =? 0) else ret false);
  if full : bool then iunlockput ip;; sys_unlink_bad dp else
  r ← writei dp (S_local (replicate (Z.to_nat DIRENTSIZE) 0)) off DIRENTSIZE;
  when (negb (r =? DIRENTSIZE)) (panic "unlink: writei");;
  x ← onw (geti ip);
  when (i_type x =? T_DIR)
    (onw (updi dp (fun ip => ip <| i_nlink ::= fun n => i16 (n - 1) |>));;
     iupdate dp);;
  iunlockput dp;;
  onw (updi ip (fun ip => ip <| i_nlink ::= fun n => i16 (n - 1) |>));;
  iupdate ip;;
  iunlockput ip;;
  end_op;;
  ret 0.

Definition sys_unlink : M W Z :=
  '(r, path) ← onw (argstr 0 MAXPATH);
  if r <? 0 then ret (-1) else
  begin_op;;
  '(r, name) ← nameiparent (cstr path) name_buf;
  match r with
  | None => end_op;; ret (-1)
  | Some dp =>
    ilock (Some dp);;
    c1 ← deref (namecmp name DOT);
    c2 ← deref (namecmp name DOTDOT);
    if (c1 =? 0) || (c2 =? 0) then sys_unlink_bad dp else
    r ← dirlookup dp name;
    match r with
    | None => sys_unlink_bad dp
    | Some (ip, off) => sys_unlink_entry dp ip off
    end
  end.

(** ** New files *)

(** [fail:] of [create]. *)
Definition create_fail (dp ip : nat) : M W (option nat) :=
  onw (updi ip (fun ip => ip <| i_nlink := 0 |>));;
  iupdate ip;;
  iunlockput ip;;
  iunlockput dp;;
  ret None.

(** The entries of a new directory; whether one failed. *)
Definition create_dots (dp ip : nat) : M W bool :=
  x ← onw (geti ip);
  r ← dirlink ip DOT (i_inum x);
  if r <? 0 then ret true else
  d ← onw (geti dp);
  r ← dirlink ip DOTDOT (i_inum d);
  ret (r <? 0).

(** The inode is returned locked. *)
Definition create (path : list Z) (type major minor : Z) : M W (option nat) :=
  '(r, name) ← nameiparent path name_buf;
  match r with
  | None => ret None
  | Some dp =>
    ilock (Some dp);;
    r ← dirlookup dp name;
    match r with
    | Some (ip, _) =>
      iunlockput dp;;
      ilock (Some ip);;
      x ← onw (geti ip);
      if (type =? T_FILE) && ((i_type x =? T_FILE) || (i_type x =? T_DEVICE)) then ret (Some ip) else
      iunlockput ip;;
      ret None
    | None =>
      d ← onw (geti dp);
      r ← ialloc (i_dev d) type;
      match r with
      | None => iunlockput dp;; ret None
      | Some ip =>
        ilock (Some ip);;
        onw (updi ip (fun ip => ip <| i_major := major |> <| i_minor := minor |> <| i_nlink := 1 |>));;
        iupdate ip;;
        fails ← (if type =? T_DIR then create_dots dp ip else ret false);
        if fails : bool then create_fail dp ip else
        x ← onw (geti ip);
        r ← dirlink dp name (i_inum x);
        if r <? 0 then create_fail dp ip else
        when (type =? T_DIR)
          (onw (updi dp (fun ip => ip <| i_nlink ::= fun n => i16 (n + 1) |>));;
           iupdate dp);;
        iunlockput dp;;
        ret (Some ip)
      end
    end
  end.

(** What [sys_open] does once it has the inode, which is locked. *)
Definition sys_open_inode (ip : nat) (omode : Z) : M W Z :=
  x ← onw (geti ip);
  if (i_type x =? T_DEVICE) && ((i_major x <? 0) || (NDEV <=? i_major x)) then
    iunlockput ip;; end_op;; ret (-1)
  else
  f ← onw filealloc;
  match f with
  | None => iunlockput ip;; end_op;; ret (-1)
  | Some f =>
    fd ← onw (fdalloc f);
    if fd <? 0 then fileclose f;; iunlockput ip;; end_op;; ret (-1) else
    (if i_type x =? T_DEVICE
     then onw (updf f (fun f => f <| f_type := FD_DEVICE |> <| f_major := i_major x |>))
     else onw (updf f (fun f => f <| f_type := FD_INODE |> <| f_off := 0 |>)));;
    onw (updf f (fun f => f <| f_ip := Some ip |>
      <| f_readable := if truthy (Z.land omode O_WRONLY) then 0 else 1 |>
      <| f_writable := if truthy (Z.land omode O_WRONLY) || truthy (Z.land omode O_RDWR) then 1 else 0 |>));;
    when (truthy (Z.land omode O_TRUNC) && (i_type x =? T_FILE)) (itrunc ip);;
    iunlock (Some ip);;
    end_op;;
    ret fd
  end.

Definition sys_open : M W Z :=
  omode ← onw (argint 1);
  '(n, path) ← onw (argstr 0 MAXPATH);
  if n <? 0 then ret (-1) else
  begin_op;;
  if truthy (Z.land omode O_CREATE) then
    r ← create (cstr path) T_FILE 0 0;
    match r with
    | None => end_op;; ret (-1)
    | Some ip => sys_open_inode ip omode
    end
  else
    r ← namei (cstr path);
    match r with
    | None => end_op;; ret (-1)
    | Some ip =>
      ilock (Some ip);;
      x ← onw (geti ip);
      if (i_type x =? T_DIR) && negb (omode =? O_RDONLY) then iunlockput ip;; end_op;; ret (-1)
      else sys_open_inode ip omode
    end.

(** The last steps of [sys_mkdir] and [sys_mknod]. *)
Definition created (r : option nat) : M W Z :=
  match r with
  | None => end_op;; ret (-1)
  | Some ip => iunlockput ip;; end_op;; ret 0
  end.

Definition sys_mkdir : M W Z :=
  begin_op;;
  '(n, path) ← onw (argstr 0 MAXPATH);
  if n <? 0 then created None else
  r ← create (cstr path) T_DIR 0 0;
  created r.

Definition sys_mknod : M W Z :=
  begin_op;;
  major ← onw (argint 1);
  minor ← onw (argint 2);
  '(n, path) ← onw (argstr 0 MAXPATH);
  if n <? 0 then created None else
  r ← create (cstr path) T_DEVICE (i16 major) (i16 minor);
  created r.

Definition sys_chdir : M W Z :=
  '(i, _) ← onw myprocp;
  begin_op;;
  '(n, path) ← onw (argstr 0 MAXPATH);
  if n <? 0 then end_op;; ret (-1) else
  r ← namei (cstr path);
  match r with
  | None => end_op;; ret (-1)
  | Some ip =>
    ilock (Some ip);;
    x ← onw (geti ip);
    if negb (i_type x =? T_DIR) then iunlockput ip;; end_op;; ret (-1) else
    iunlock (Some ip);;
    p ← onw (getp i);
    cwd ← deref (p_cwd p);
    iput cwd;;
    end_op;;
    onw (updp i (fun p => p <| p_cwd := Some ip |>));;
    ret 0
  end.

(** ** Programs *)

(** Free the strings of [argv], up to its first null pointer. *)
Fixpoint free_argv (argv : list Z) : M kst unit :=
  match argv with
  | [] => ret tt
  | a :: argv => if a =? 0 then ret tt else kfree a;; free_argv argv
  end.

(** Copy the strings from [uargv] on into pages of their own, with [i] done:
    whether all went well, and [argv]. *)
Fixpoint fetch_argv (fuel : nat) (uargv : Z) (i : nat) (argv : list Z) : M KS (bool * list Z) :=
  match fuel with
  | O => out_of_fuel
  | S fuel =>
    if MAXARG <=? Z.of_nat i then ret (false, argv) else
    r ← fetchaddr (u64 (uargv + 8 * Z.of_nat i));
    match r with
    | None => ret (false, argv)
    | Some uarg =>
      if uarg =? 0 then ret (true, <[i := 0]> argv) else
      a ← onk kalloc;
      let argv := <[i := a]> argv in
      if a =? 0 then ret (false, argv) else
      '(r, buf) ← fetchstr uarg PGSIZE;
      onk (copy_from_kernel a buf);;
      if r <? 0 then ret (false, argv) else fetch_argv fuel uargv (S i) argv
    end
  end.

(** A round per argument. *)
Definition sys_exec : M W Z :=
  uargv ← onw (argaddr 1);
  '(n, path) ← onw (argstr 0 MAXPATH);
  if n <? 0 then ret (-1) else
  '(ok, argv) ← onw (fetch_argv (S (Z.to_nat MAXARG)) uargv 0 (replicate (Z.to_nat MAXARG) 0));
  if ok : bool then
    r ← exec (cstr path) argv;
    onw (onk (free_argv argv));;
    ret r
  else onw (onk (free_argv argv));; ret (-1).

(** ** Pipes *)

(** Undo [sys_pipe]: the descriptors that were allocated, and the files. *)
Definition sys_pipe_bad (i : nat) (fds : list Z) (rf wf : nat) : M W Z :=
  for_each fds (fun fd => onw (clear_fd i fd));;
  fileclose rf;;
  fileclose wf;;
  ret (-1).

Definition sys_pipe : M W Z :=
  '(i, _) ← onw myprocp;
  fdarray ← onw (argaddr 0);
  r ← pipealloc;
  match r with
  | None => ret (-1)
  | Some (rf, wf) =>
    fd0 ← onw (fdalloc rf);
    if fd0 <? 0 then sys_pipe_bad i [] rf wf else
    fd1 ← onw (fdalloc wf);
    if fd1 <? 0 then sys_pipe_bad i [fd0] rf wf else
    p ← onw (getp i);
    r ← onw (onk (copyout (p_pagetable p) fdarray (le_bytes 4 fd0)));
    if r <? 0 then sys_pipe_bad i [fd0; fd1] rf wf else
    r ← onw (onk (copyout (p_pagetable p) (u64 (fdarray + 4)) (le_bytes 4 fd1)));
    if r <? 0 then sys_pipe_bad i [fd0; fd1] rf wf else
    ret 0
  end.

(** ** Dispatch *)

(** The array [syscalls], at the numbers of syscall.h; entry 0 is null. *)
Definition syscalls (pad : list Z) : list (option (M W Z)) := [
  None; Some sys_fork; Some sys_exit; Some sys_wait; Some sys_pipe; Some sys_read; Some sys_kill;
  Some sys_exec; Some (sys_fstat pad); Some sys_chdir; Some sys_dup; Some sys_getpid; Some sys_sbrk;
  Some sys_sleep; Some sys_uptime; Some sys_open; Some sys_write; Some sys_mknod; Some sys_unlink;
  Some sys_link; Some sys_mkdir; Some sys_close; Some sys_yield; Some sys_send_signal;
  Some sys_set_signal_handler; Some sys_alarm
].

Definition unknown_fmt : list Z := cline "%d %s: unknown sys call %d".

Definition syscall (pad : list Z) : M W unit :=
  '(i, p) ← onw myprocp;
  a7 ← onw (onk (ld64 (p_trapframe p + TF_a7)));
  let num := i32 a7 in
  match (if 0 <? num then syscalls pad !! Z.to_nat num else None) with
  | Some (Some call) =>
    r ← call;
    p ← onw (getp i);
    when (negb (truthy (sg_in_handler (p_signaling p))))
      (onw (onk (st64 (p_trapframe p + TF_a0) (u64 (i32 r)))))
  | _ =>
    onw (printf (Some unknown_fmt) [A_int (p_pid p); A_str (Some (p_name p)); A_int num]);;
    onw (onk (st64 (p_trapframe p + TF_a0) (u64 (-1))))
  end.

End sysfile.
