(* ===== verification/Trap.v ===== *)
(** * Traps (kernel/trap.c, plic.c, and forkret of proc.c)

    The control registers a trap is described by belong to the hart and are
    not saved by [swtch]: whatever runs between two instructions of a process
    that lets others run may have changed them ([Others]). *)

From Stdlib Require Import ZArith Lia.
From stdpp Require Import base gmap strings numbers list.
From S2P Require Import Prelude Spinlock Mem Kstring Kalloc Vm Proc ProcLife FsState Sleeplock Bio Log Virtio Fs Pipe File Console Exec Syscall SysFile.
Local Open Scope xv6_scope.

Definition UART0_IRQ : Z := 10.
Definition VIRTIO0_IRQ : Z := 1.
Definition SSTATUS_SPP : Z := 256.                      (* bit 8 *)
Definition SSTATUS_SPIE : Z := 32.                      (* bit 5 *)
Definition SATP_SV39 : Z := 8 * 2 ^ 60.
Definition MAKE_SATP (pagetable : Z) : Z := Z.lor SATP_SV39 (Z.shiftr pagetable 12).

(** What a recognised interrupt stores in [scause]. *)
Definition SCAUSE_ECALL : Z := 8.
Definition SCAUSE_INTR : Z := 2 ^ 63.
Definition SCAUSE_TIMER : Z := 2 ^ 63 + 1.

Definition TF_kernel_satp : Z := 0.
Definition TF_kernel_sp : Z := 8.
Definition TF_kernel_trap : Z := 16.
Definition TF_kernel_hartid : Z := 32.

(** The registers of the hart, and of the interrupt controller for it: the
    interrupts it has to report, the first one first, and those completed, the
    last one first. *)
Record hart := Hart {
  h_stvec : Z;
  h_sepc : Z;
  h_scause : Z;
  h_stval : Z;
  h_satp : Z;
  h_sip : Z;
  plic_pending : list Z;
  plic_completed : list Z;
  h_userret : option (Z * Z)   (* the jump to userret: the address and the argument *)
}.
#[global] Instance hart_eta : Eta hart := fun r =>
  Hart (h_stvec r) (h_sepc r) (h_scause r) (h_stval r) (h_satp r) (h_sip r) (plic_pending r) (plic_completed r)
    (h_userret r).

Record trapst := Trapst {
  t_w : W;
  t_h : hart
}.
#[global] Instance trapst_eta : Eta trapst := fun r => Trapst (t_w r) (t_h r).

(** The addresses of the assembly entry points and of [usertrap]. *)
Class TrapImage := {
  kernelvec : Z;
  uservec : Z;
  userret : Z;
  usertrap_addr : Z
}.

(** What the traps of other processes leave in the registers. *)
Class Others := others : W → hart → hart.

Section trap.
Context `{KI : KernelImage} `{DO : DiskOps} `{TI : TrapImage} `{OT : Others}.

Definition ont {A} (m : M W A) : M trapst A := zoom t_w (fun w t => t <| t_w := w |>) m.
Definition geth : M trapst hart := gets t_h.
Definition updh (f : hart → hart) : M trapst unit := modify (fun t => t <| t_h ::= f |>).

(** A call that others may run during. *)
Definition switching {A} (m : M W A) : M trapst A :=
  a ← ont m;
  t ← get;
  updh (others (t_w t));;
  ret a.

Definition r_sstatus : M trapst Z := ont (onw (lkm (gets sstatus))).
Definition w_sstatus (x : Z) : M trapst unit := ont (onw (lkm (modify (set_sstatus x)))).

Definition trapinit : M trapst unit := ont (onw (lkm (initlock L_ticks "time"))).
Definition trapinithart : M trapst unit := updh (fun h => h <| h_stvec := kernelvec |>).

(** ** The interrupt controller *)

(** With nothing to report the answer is 0. *)
Definition plic_claim : M trapst Z :=
  h ← geth;
  updh (fun h => h <| plic_pending ::= tail |>);;
  ret (i32 (hd 0 (plic_pending h))).

Definition plic_complete (irq : Z) : M trapst unit := updh (fun h => h <| plic_completed ::= cons (u32 irq) |>).

(** ** Devices *)

Definition clockintr : M KS unit :=
  lkm (acquire L_ticks);;
  modify (fun s => s <| ks_ticks ::= fun t => u32 (t + 1) |>);;
  wakeup C_ticks;;
  lkm (release L_ticks).

Definition devintr : M trapst Z :=
  h ← geth;
  let scause := h_scause h in
  if truthy (Z.land scause SCAUSE_INTR) && (Z.land scause 255 =? 9) then
    irq ← plic_claim;
    (if irq =? UART0_IRQ then ont (onw uartintr)
     else if irq =? VIRTIO0_IRQ then ont (onw virtio_disk_intr)
     else when (truthy irq) (ont (onw (printf (Some (cline "unexpected interrupt irq=%d")) [A_int irq]))));;
    when (truthy irq) (plic_complete irq);;
    ret 1
  else if scause =? SCAUSE_TIMER then
    id ← ont (onw (lkm cpuid));
    when (id =? 0) (ont (onw clockintr));;
    updh (fun h => h <| h_sip ::= fun x => Z.land x (Z.lnot 2) |>);;
    ret 2
  else ret 0.

(** ** Traps from the kernel *)

Definition kerneltrap : M trapst unit :=
  h ← geth;
  let sepc := h_sepc h in
  sstatus ← r_sstatus;
  let scause := h_scause h in
  when (Z.land sstatus SSTATUS_SPP =? 0) (panic "kerneltrap: not from supervisor mode");;
  ie ← ont (onw (lkm intr_get));
  when ie (panic "kerneltrap: interrupts enabled");;
  which_dev ← devintr;
  when (which_dev =? 0)
    (ont (onw (printf (Some (cline "scause %p")) [A_ptr scause]));;
     h ← geth;
     ont (onw (printf (Some (cline "sepc=%p stval=%p")) [A_ptr (h_sepc h); A_ptr (h_stval h)]));;
     panic "kerneltrap");;
  running ← (if which_dev =? 2 then
               me ← ont (onw (lkm myproc));
               match me with
               | Some i => p ← ont (onw (getp i)); ret (bool_decide (p_state p = RUNNING))
               | None => ret false
               end
             else ret false);
  when running (switching yield);;
  updh (fun h => h <| h_sepc := sepc |>);;
  w_sstatus sstatus.

(** ** Traps from user space *)

(** The last call jumps to [userret] in the trampoline page, with the page table
    as its argument. *)
Definition usertrapret : M trapst unit :=
  '(i, p) ← ont (onw myprocp);
  ont (onw (lkm intr_off));;
  updh (fun h => h <| h_stvec := u64 (TRAMPOLINE + (uservec - trampoline)) |>);;
  let tf := p_trapframe p in
  h ← geth;
  ont (onw (onk (st64 (tf + TF_kernel_satp) (h_satp h))));;
  ont (onw (onk (st64 (tf + TF_kernel_sp) (u64 (p_kstack p + PGSIZE)))));;
  ont (onw (onk (st64 (tf + TF_kernel_trap) usertrap_addr)));;
  id ← ont (onw (lkm (gets tp)));
  ont (onw (onk (st64 (tf + TF_kernel_hartid) id)));;
  x ← r_sstatus;
  w_sstatus (Z.lor (Z.land x (Z.lnot SSTATUS_SPP)) SSTATUS_SPIE);;
  epc ← ont (onw (onk (ld64 (tf + TF_epc))));
  updh (fun h => h <| h_sepc := epc |>);;
  let satp := MAKE_SATP (p_pagetable p) in
  let trampoline_userret := u64 (TRAMPOLINE + (userret - trampoline)) in
  updh (fun h => h <| h_userret := Some (trampoline_userret, satp) |>).

Definition unexpected_fmt1 : list Z := cline "usertrap(): unexpected scause %p pid=%d".
Definition unexpected_fmt2 : list Z := cline "            sepc=%p stval=%p".

Definition usertrap (pad : list Z) : M trapst unit :=
  x ← r_sstatus;
  when (negb (Z.land x SSTATUS_SPP =? 0)) (panic "usertrap: not from user mode");;
  updh (fun h => h <| h_stvec := kernelvec |>);;
  '(i, p) ← ont (onw myprocp);
  h ← geth;
  ont (onw (onk (st64 (p_trapframe p + TF_epc) (h_sepc h))));;
  which_dev ←
    (if h_scause h =? SCAUSE_ECALL then
       k ← ont (onw (killed i));
       when (truthy k) (switching (exit (-1)));;
       epc ← ont (onw (onk (ld64 (p_trapframe p + TF_epc))));
       ont (onw (onk (st64 (p_trapframe p + TF_epc) (u64 (epc + 4)))));;
       ont (onw (lkm intr_on));;
       switching (syscall pad);;
       ret 0
     else
       which_dev ← devintr;
       if truthy which_dev then ret which_dev else
       ont (onw (printf (Some unexpected_fmt1) [A_ptr (h_scause h); A_int (p_pid p)]));;
       h ← geth;
       ont (onw (printf (Some unexpected_fmt2) [A_ptr (h_sepc h); A_ptr (h_stval h)]));;
       ont (onw (setkilled i));;
       ret 0);
  k ← ont (onw (killed i));
  when (truthy k) (switching (exit (-1)));;
  when (which_dev =? 2) (switching yield);;
  usertrapret.

(** ** The first return of a process *)

Definition forkret : M trapst unit :=
  '(i, _) ← ont (onw myprocp);
  ont (onw (lkm (release (L_proc i))));;
  first ← ont (onw (gets ks_first));
  when (truthy first)
    (ont (onw (modify (fun s => s <| ks_first := 0 |>)));;
     switching (fsinit ROOTDEV));;
  usertrapret.

End trap.
