(* ===== verification/SysFacts.v ===== *)
(** * Arguments of system calls

    What the argument functions of syscall.c return: the registers a process
    had when it trapped, out of its trapframe. *)

From Stdlib Require Import ZArith Lia.
From stdpp Require Import base gmap strings numbers list.
From S2P Require Import Prelude Spinlock Mem Kstring Kalloc Vm PageTable VmFacts Uvm UvmAlloc CopyUser Proc ProcLife ProcFacts ProcOps Exit Signals Sched FsState Sleeplock Bio Log FsFacts Sample CritSec Fs Pipe File Console Exec Syscall SysFile.
Local Open Scope xv6_scope.

Section sysfacts.
Context `{KI : KernelImage}.
Implicit Types s : KS.

Lemma wp_myprocp i s p Q :
  ready i s → ks_proc s !! i = Some p → (∀ s', s' ≡ s → ready i s' → Q (i, p) s') → wp myprocp s Q.
Proof.
  intros Hr Hp HQ. unfold myprocp. wp_simpl. apply wp_myproc_k; [apply Hr|]. intros s' Hs'.
  rewrite (ru_cur _ _ (ry_runs _ _ Hr)). wp_simpl.
  eapply wp_getp; [by rewrite (ks_proc_proper _ _ Hs')|]. wp_simpl. apply HQ; [done|]. by eapply ready_equiv.
Qed.

(** The saved argument registers of a process are in memory. *)
Definition args_ok (p : proc) : Prop := in_ram (p_trapframe p + TF_a0) 48 = true.

Lemma ks_mem_proper s s' : s' ≡ s → k_mem (ks_k s') = k_mem (ks_k s).
Proof. intros H. exact (fr_mem _ _ (proj1 (frame_equiv _ _ H))). Qed.

Lemma wp_ld64_k a s Q : in_ram a 8 = true → Q (load64 (k_mem (ks_k s)) a) s → wp (onk (ld64 a)) s Q.
Proof. intros Ha HQ. unfold onk. rewrite wp_zoom. apply wp_ld64; [done|]. by destruct s. Qed.

Lemma wp_argraw i s p n Q :
  ready i s → ks_proc s !! i = Some p → args_ok p → 0 ≤ n < 6 →
  (∀ s', s' ≡ s → ready i s' → Q (load64 (k_mem (ks_k s)) (p_trapframe p + TF_a0 + 8 * n)) s') → wp (argraw n) s Q.
Proof.
  intros Hr Hp Ha Hn HQ. unfold argraw. wp_simpl. apply (wp_myprocp i s p); [done|done|]. intros s' Hs' Hr'.
  specialize (HQ s' Hs' Hr'). rewrite <- (ks_mem_proper _ _ Hs') in HQ.
  unfold args_ok, TF_a0, TF_a1, TF_a2, TF_a3, TF_a4, TF_a5 in *.
  assert (n = 0 ∨ n = 1 ∨ n = 2 ∨ n = 3 ∨ n = 4 ∨ n = 5) as [->|[->|[->|[->|[->| ->]]]]] by lia; cbn [Z.eqb Pos.eqb];
    (apply wp_ld64_k; [by eapply in_ram_sub; [exact Ha|lia|lia]|]); by rewrite <- Z.add_assoc in HQ.
Qed.

Lemma wp_argint i s p n Q :
  ready i s → ks_proc s !! i = Some p → args_ok p → 0 ≤ n < 6 →
  (∀ s', s' ≡ s → ready i s' → Q (i32 (load64 (k_mem (ks_k s)) (p_trapframe p + TF_a0 + 8 * n))) s') → wp (argint n) s Q.
Proof. intros Hr Hp Ha Hn HQ. unfold argint. wp_simpl. by eapply wp_argraw. Qed.

End sysfacts.

(** ** A process in a system call *)

#[local] Existing Instance small_image.

(** Process 0 runs with [x] in the status register, its trapframe at page 5 past
    the kernel, and memory [m]. *)
Definition trap_proc : proc := proc0 <| p_state := RUNNING |> <| p_pid := 1 |> <| p_trapframe := page_no 5 |>.
Definition trap_ks (x : Z) (m : gmap Z Z) : KS :=
  KState (Kst (set_sstatus x fs_mach) m 0) (alter (fun p => p <| p_trapframe := page_no 5 |>) 0%nat table_procs)
    (Some 0%nat) 3 100 (replicate 64 0) 0 (con_fs idle_console).

Lemma trap_ks_ready x m : ready 0 (trap_ks x m).
Proof.
  split; [split|intros lk Hlk; apply (fs_mach_free lk Hlk)|done|by apply Nat.ltb_lt].
  - split; [cbn; lia|]. eexists. split; [reflexivity|]. cbn. split; [lia|lia].
  - by apply (fs_mach_free (L_proc 0)).
  - done.
  - done.
Qed.

Lemma trap_args_ok : args_ok trap_proc.
Proof. by vm_compute. Qed.
