(* ===== verification/Clock.v ===== *)
(** * The clock (clockintr of kernel/trap.c, sys_sleep and sys_uptime of sysproc.c)

    A clock interrupt advances [ticks] and wakes the processes that wait for
    it; [sys_sleep] returns after the number of interrupts it was asked for. *)

From Stdlib Require Import ZArith Lia.
From stdpp Require Import base gmap strings numbers list.
From S2P Require Import Prelude Spinlock Mem Kstring Kalloc Vm PageTable VmFacts Uvm UvmAlloc CopyUser Proc ProcLife ProcFacts ProcOps Exit Signals Sched FsState Sleeplock Bio Log FsFacts Sample CritSec Fs Pipe File Console Exec Syscall SysFile SysFacts Trap.
Local Open Scope xv6_scope.

Section clock.
Context `{KI : KernelImage} `{DO : DiskOps}.
Implicit Types s : KS.

Definition set_ticks (t : Z) (s : KS) : KS := s <| ks_ticks := t |>.

Lemma wp_clockintr me s Q :
  calm me s →
  (∀ s', s' ≡ upd_procs (imap (wake C_ticks me)) (set_ticks (u32 (ks_ticks s + 1)) s) → Q tt s') →
  wp clockintr s Q.
Proof.
  intros Hcalm HQ. set (s0 := set_ticks (u32 (ks_ticks s + 1)) s).
  assert (calm me s0) as Hc0 by (by destruct Hcalm).
  unfold clockintr. wp_simpl. apply wp_acq; [apply Hcalm|by apply Hcalm|]. wp_simpl.
  change (wp (wakeup C_ticks) (set_kmach (acq L_ticks (ks_mach s0)) s0) (fun _ s' => wp (lkm (release L_ticks)) s' Q)).
  apply (wp_wakeup_sec me L_ticks s0); [done|done|apply insec_start|]. intros s2 Hs2 ->.
  apply (wp_rel L_ticks s0); [apply Hc0|by apply Hc0|by rewrite (is_mach _ _ _ Hs2)|].
  intros s' Hs'. apply HQ. etrans; [exact Hs'|]. by destruct s as [[]].
Qed.

(** What the rest of the system does between a process falling asleep and its
    next turn, when nothing but a clock interrupt happens: the scheduler gives
    up its lock, the interrupt comes, and the scheduler chooses it again. *)
Definition clock_turn (i : nat) : M KS unit :=
  '(id, _) ← lkm mycpu;
  set_cproc id None;;
  lkm (release (L_proc i));;
  clockintr;;
  lkm (acquire (L_proc i));;
  p ← getp i;
  when (bool_decide (p_state p = RUNNABLE))
    (updp i (fun p => p <| p_state := RUNNING |>);;
     set_cproc id (Some i)).
Definition clock_event (i : nat) (s : KS) : KS := match clock_turn i s with Ret _ s' => s' | _ => s end.

(** The fields of a process a nap leaves alone. *)
Definition nap_frame (p p' : proc) : Prop :=
  p_killed p' = p_killed p ∧ p_signaling p' = p_signaling p ∧ p_trapframe p' = p_trapframe p ∧ p_pid p' = p_pid p.

Lemma clock_event_wakes i own m s p :
  inside (L_proc i) i own m s → ks_proc s !! i = Some p → p_state p = SLEEPING → p_chan p = C_ticks →
  ∃ m' p', inside (L_proc i) i own m' (clock_event i s) ∧ ks_ticks (clock_event i s) = u32 (ks_ticks s + 1) ∧
    ks_proc (clock_event i s) !! i = Some p' ∧ nap_frame p p' ∧ k_mem (ks_k (clock_event i s)) = k_mem (ks_k s).
Proof.
  intros Hs Hp Hsl Hch. pose proof (in_runs _ _ _ _ _ Hs) as Hr. pose proof Hr as [Hok Hlp Hc Hd].
  pose proof Hok as (Htp & c & Hcpu & _). pose proof (in_mach _ _ _ _ _ Hs) as Hm.
  assert (wp (clock_turn i) s (fun _ s' => ∃ m' p', inside (L_proc i) i own m' s' ∧ ks_ticks s' = u32 (ks_ticks s + 1) ∧
    ks_proc s' !! i = Some p' ∧ nap_frame p p' ∧ k_mem (ks_k s') = k_mem (ks_k s))) as H; [|unfold wp in H; unfold clock_event; by destruct (clock_turn i s)].
  unfold clock_turn. wp_simpl. rewrite wp_lkm.
  eapply wp_mycpu; [by rewrite Hm|rewrite Hm; exact (cpus_push m c Hcpu)|]. rewrite set_kmach_id. wp_simpl.
  apply wp_set_cproc; [by eapply inside_ok|by rewrite Hm|]. rewrite Hm, with_proc_acq. wp_simpl.
  apply (wp_rel (L_proc i) (set_kmach (with_proc None m) s)); [by apply mach_ok_with_proc|done|done|].
  intros s1 Hs1. change (set_kmach _ (set_kmach _ s)) with (set_kmach (with_proc None m) s) in Hs1. wp_simpl.
  assert (ks_mach s1 ≡ with_proc None m) as Hm1 by (by rewrite Hs1).
  apply (wp_clockintr None).
  { split; rewrite ?Hm1; [by apply mach_ok_with_proc|by apply cur_with_proc| |by rewrite (ks_proc_proper _ _ Hs1); apply Hs].
    intros lk Hlk. rewrite Hm1. exact (in_free _ _ _ _ _ Hs lk Hlk). }
  intros s2 Hs2. wp_simpl. assert (ks_mach s2 ≡ with_proc None m) as Hm2 by (by rewrite Hs2).
  assert (ks_proc s2 = imap (wake C_ticks None) (ks_proc s)) as Ep2.
  { rewrite (ks_proc_proper _ _ Hs2). cbn. by rewrite (ks_proc_proper _ _ Hs1). }
  apply wp_acq; [rewrite Hm2; by apply mach_ok_with_proc|by rewrite Hm2|]. wp_simpl.
  eapply (wp_getp _ (p <| p_state := RUNNABLE |>)).
  { cbn. rewrite Ep2, list_lookup_imap, Hp. cbn. f_equal. unfold wake. by rewrite decide_True. }
  rewrite bool_decide_true by done. wp_simpl.
  eapply wp_updp; [cbn; rewrite Ep2, list_lookup_imap, Hp; reflexivity|]. wp_simpl.
  assert (with_proc (Some i) (ks_mach s2) ≡ m) as Hm3.
  { rewrite Hm2, with_proc_twice, <- Hc. by rewrite with_proc_cur. }
  apply wp_set_cproc; [cbn; rewrite Hm2; by apply mach_ok_acq, mach_ok_with_proc|change (hid m = hid (ks_mach s2)); by rewrite (hid_proper _ _ Hm2)|].
  cbn [ks_mach]. exists (with_proc (Some i) (ks_mach s2)). eexists.
  split; [|split; [|split; [cbn; by rewrite list_lookup_alter_eq, Ep2, list_lookup_imap, Hp|split]]].
  - destruct Hs as [H1 H2 H3 H4 H5 H6 H7]. split; [by rewrite Hm3|intros lk Hlk; rewrite Hm3; by apply H2|by rewrite Hm3|done| |done|].
    + cbn. by rewrite length_alter, Ep2, length_imap.
    + exact (with_proc_acq (Some i) (L_proc i) (ks_mach s2)).
  - cbn. rewrite (ks_ticks_proper _ _ Hs2). cbn. by rewrite (ks_ticks_proper _ _ Hs1).
  - unfold nap_frame, wake. by case_decide.
  - destruct (frame_equiv _ _ Hs2) as [Hf2 _]. destruct (frame_equiv _ _ Hs1) as [Hf1 _]. cbn.
    rewrite (fr_mem _ _ Hf2). cbn. by rewrite (fr_mem _ _ Hf1).
Qed.

Lemma inside_me lk i own m s : inside lk i own m s → wp (lkm myproc) s (fun r s' => r = Some i ∧ s' = s).
Proof.
  intros Hs. apply wp_myproc_k; [by eapply inside_ok|]. intros s' Hs'.
  apply kstate_nested in Hs' as ->; [|by eapply inside_nested].
  rewrite (in_mach _ _ _ _ _ Hs), cur_acq. split; [apply Hs|done].
Qed.

(** [k] more interrupts wanted, [k] still to come. *)
Lemma wp_sys_sleep_loop i t0 n e : ∀ k fuel m s p,
  inside L_ticks i L_ticks m s → ks_proc s !! i = Some p → p_killed p = 0 → sg_in_handler (p_signaling p) = 0 →
  0 ≤ n < 2 ^ 31 → u32 (ks_ticks s - t0) + Z.of_nat k = n → (k < fuel)%nat →
  wp (sys_sleep_loop fuel t0 n) (World s (replicate k (clock_event i) ++ e)) (fun r w' => ∃ m' p',
    r = Some tt ∧ w_env w' = e ∧ inside L_ticks i L_ticks m' (w_k w') ∧
    u32 (ks_ticks (w_k w') - t0) = n ∧ ks_proc (w_k w') !! i = Some p' ∧ nap_frame p p').
Proof.
  induction k as [|k IH]; intros fuel m s p Hs Hp Hk Hh Hn Ht Hf; (destruct fuel as [|fuel]; [lia|]);
    cbn [sys_sleep_loop]; wp_simpl; rewrite (u32_small n) by lia.
  - destruct (Z.ltb_spec (u32 (ks_ticks s - t0)) n); [lia|]. cbn [negb]. wp_simpl. exists m, p.
    split; [done|]. split; [done|]. split; [done|]. split; [cbn; lia|]. by split.
  - destruct (Z.ltb_spec (u32 (ks_ticks s - t0)) n); [|lia]. cbn [negb]. wp_simpl.
    eapply wp_mono; [by eapply inside_me|]. intros r s' [-> ->]. wp_simpl.
    eapply wp_killed_in; [done|done|]. rewrite Hk. change (truthy 0) with false. cbn iota. wp_simpl.
    destruct (clock_event_wakes i L_ticks m (parked C_ticks i m s) (asleep C_ticks p)) as (m1 & p1 & H1 & H2 & H3 & H4 & _);
      [by apply inside_parked|by apply lookup_upd|done|done|].
    cbn [replicate app]. eapply (wp_sleep_val _ _ _ _ _ _ _ m1 p1); [done|done|done|]. intros m2 s2 Hs2.
    destruct H4 as (E1 & E2 & E3 & E4). rewrite E2. cbn. rewrite Hh. change (truthy 0) with false. cbn iota.
    eapply wp_mono; [apply (IH fuel m2 s2 (awake p1)); [done|by apply lookup_upd|by cbn; rewrite E1|by cbn; rewrite E2|done| |lia]|].
    + change (ks_ticks s2) with (ks_ticks (clock_event i (parked C_ticks i m s))). rewrite H2. cbn. zlia.
    + intros r w' (m' & p' & G1 & G2 & G3 & G4 & G5 & G6). exists m', p'. do 5 (split; [done|]).
      destruct G6 as (F1 & F2 & F3 & F4). unfold nap_frame. cbn in *. by rewrite F1, F2, F3, F4.
Qed.

(** ** Without a wakeup *)

Lemma sleep_blocked c i own m s : inside own i own m s → sleep c own (World s []) = Blocked.
Proof.
  intros Hs. destruct (lookup_lt_is_Some_2 (ks_proc s) i) as [p Hp]; [rewrite (in_len _ _ _ _ _ Hs); apply Hs|].
  pose proof (in_runs _ _ _ _ _ Hs) as Hr. pose proof (in_mach _ _ _ _ _ Hs) as Hm. unfold sleep.
  apply blocked_bind. wp_simpl. eapply wp_mono; [by eapply inside_me|]. intros r s' [-> ->].
  apply blocked_bind. cbn [deref]. wp_simpl. apply blocked_bind. wp_simpl.
  apply wp_acq; [by eapply inside_ok|by eapply inside_proc|]. apply blocked_bind. wp_simpl.
  rewrite wp_lkm. change (ks_mach (set_kmach ?x s)) with x. rewrite Hm.
  apply wp_release_outer; [apply Hr|apply (in_own _ _ _ _ _ Hs)|apply (in_ne _ _ _ _ _ Hs)|]. rewrite set_kmach_twice.
  apply blocked_bind. wp_simpl. eapply wp_updp; [exact Hp|]. rewrite <- set_kmach_upd. fold (asleep c).
  fold (parked c i m s). unfold bind.
  destruct (sched_switch i (asleep c p) (parked c i m s) m id [] Hr) as [_ ->]; [done|by apply lookup_upd|done|done].
Qed.

Lemma sys_sleep_loop_blocked i t0 n : ∀ k fuel m s p,
  inside L_ticks i L_ticks m s → ks_proc s !! i = Some p → p_killed p = 0 → sg_in_handler (p_signaling p) = 0 →
  0 ≤ n < 2 ^ 31 → u32 (ks_ticks s - t0) + Z.of_nat k < n → (k < fuel)%nat →
  sys_sleep_loop fuel t0 n (World s (replicate k (clock_event i))) = Blocked.
Proof.
  induction k as [|k IH]; intros fuel m s p Hs Hp Hk Hh Hn Ht Hf; (destruct fuel as [|fuel]; [lia|]);
    cbn [sys_sleep_loop]; apply blocked_bind; wp_simpl; rewrite (u32_small n) by lia;
    (destruct (Z.ltb_spec (u32 (ks_ticks s - t0)) n); [|lia]); cbn [negb]; apply blocked_bind; wp_simpl;
    (eapply wp_mono; [by eapply inside_me|]); intros r s' [-> ->]; apply blocked_bind; cbn [deref]; wp_simpl;
    apply blocked_bind; wp_simpl; (eapply wp_killed_in; [done|done|]); rewrite Hk; change (truthy 0) with false; cbn iota.
  - unfold bind. by rewrite (sleep_blocked _ i _ m).
  - destruct (clock_event_wakes i L_ticks m (parked C_ticks i m s) (asleep C_ticks p)) as (m1 & p1 & H1 & H2 & H3 & H4 & _);
      [by apply inside_parked|by apply lookup_upd|done|done|].
    apply blocked_bind. cbn [replicate]. eapply (wp_sleep_val _ _ _ _ _ _ _ m1 p1); [done|done|done|]. intros m2 s2 Hs2.
    destruct H4 as (E1 & E2 & E3 & E4). rewrite E2. cbn. rewrite Hh. change (truthy 0) with false. cbn iota.
    apply (IH fuel m2 s2 (awake p1)); [done|by apply lookup_upd|by cbn; rewrite E1|by cbn; rewrite E2|done| |lia].
    change (ks_ticks s2) with (ks_ticks (clock_event i (parked C_ticks i m s))). rewrite H2. cbn. zlia.
Qed.

(** ** Theorems *)

(** C23. A process that asks to sleep for [n] clock ticks is given back the cpu
    by the [n]th clock interrupt and not before: with fewer it stays asleep. *)
Theorem sys_sleep_correct i p s n e :
  ready i s → ks_proc s !! i = Some p → args_ok p → p_killed p = 0 → sg_in_handler (p_signaling p) = 0 →
  i32 (load64 (k_mem (ks_k s)) (p_trapframe p + TF_a0)) = Z.of_nat n →
  wp sys_sleep (World s (replicate n (clock_event i) ++ e)) (fun r w' =>
    r = 0 ∧ w_env w' = e ∧ u32 (ks_ticks (w_k w') - ks_ticks s) = Z.of_nat n ∧ ready i (w_k w')) ∧
  ∀ k, (k < n)%nat → sys_sleep (World s (replicate k (clock_event i))) = Blocked.
Proof.
  intros Hr Hp Ha Hk Hh Hn. assert (Z.of_nat n < 2 ^ 31) as Hn31.
  { rewrite <- Hn. unfold i32. zlia. }
  assert (p_trapframe p + TF_a0 + 8 * 0 = p_trapframe p + TF_a0) as E0 by lia.
  assert (∀ s', s' ≡ s → ready i s' → wp (lkm (acquire L_ticks)) s' (fun _ s1 =>
    inside L_ticks i L_ticks (ks_mach s') s1 ∧ ks_ticks s1 = ks_ticks s ∧ ks_proc s1 !! i = Some p)) as Henter.
  { intros s' Hs' Hr'. apply (wp_enter i); [done|by apply Hr'|done|]. intros Hin. split; [done|].
    cbn. by rewrite (ks_ticks_proper _ _ Hs'), (ks_proc_proper _ _ Hs'). }
  split.
  - unfold sys_sleep. wp_simpl. apply (wp_argint i s p); [done|done|done|lia|]. intros s' Hs' Hr'. rewrite E0, Hn. wp_simpl.
    eapply wp_mono; [by apply Henter|]. intros _ s1 (Hin & Et & Hp1). wp_simpl. cbn [w_env]. rewrite Et.
    eapply wp_mono; [apply (wp_sys_sleep_loop i (ks_ticks s) (Z.of_nat n) e n _ (ks_mach s') s1 p); try done|].
    + lia.
    + rewrite Et, Z.sub_diag. done.
    + rewrite length_app, length_replicate. lia.
    + intros r [s2 e2] (m' & p' & -> & He & Hin' & Ht & _). cbn in *. subst e2. wp_simpl.
      eapply wp_leave; [exact Hin'|]. intros s3 Hs3. wp_simpl. split; [done|]. split; [done|]. cbn.
      rewrite (ks_ticks_proper _ _ Hs3). split; [exact Ht|]. by eapply inside_ready.
  - intros k Hlt. unfold sys_sleep. apply blocked_bind. wp_simpl.
    apply (wp_argint i s p); [done|done|done|lia|]. intros s' Hs' Hr'. rewrite E0, Hn. apply blocked_bind. wp_simpl.
    eapply wp_mono; [by apply Henter|]. intros _ s1 (Hin & Et & Hp1). apply blocked_bind. wp_simpl.
    apply blocked_bind. wp_simpl. rewrite Et. unfold bind. cbn [w_env].
    rewrite (sys_sleep_loop_blocked i (ks_ticks s) (Z.of_nat n) k _ (ks_mach s') s1 p); try done.
    + lia.
    + rewrite Et, Z.sub_diag. change (u32 0) with 0. lia.
    + rewrite length_replicate. lia.
Qed.

End clock.

(** ** Example *)

#[local] Existing Instance small_image.

Lemma sys_sleep_correct_witness :
  wp sys_sleep (World (trap_ks 2 (store64 ∅ (page_no 5 + TF_a0) 2)) [clock_event 0; clock_event 0]) (fun r w' =>
    r = 0 ∧ u32 (ks_ticks (w_k w') - 100) = 2).
Proof.
  destruct (sys_sleep_correct 0 trap_proc (trap_ks 2 (store64 ∅ (page_no 5 + TF_a0) 2)) 2 []) as [H _];
    [apply trap_ks_ready|reflexivity|apply trap_args_ok|reflexivity|reflexivity|vm_compute; reflexivity|].
  eapply wp_mono; [exact H|]. intros r w' (H1 & _ & H2 & _). exact (conj H1 H2).
Defined.
