(* ===== verification/TrapFacts.v ===== *)
(** * Interrupts, system calls and the return to user space

    [kerneltrap] is transparent to the code it interrupts, and [usertrap]
    carries the result of a system call back to the user program. *)

From Stdlib Require Import ZArith Lia.
From stdpp Require Import base gmap strings numbers list.
From S2P Require Import Prelude Spinlock Mem Kstring Kalloc Vm PageTable VmFacts Uvm UvmAlloc CopyUser Proc ProcLife ProcFacts ProcOps Exit Signals Sched FsState Sleeplock Bio Log FsFacts Sample CritSec Fs Pipe File Console Exec Syscall SysFile SysFacts Trap Clock.
Local Open Scope xv6_scope.

Section trapfacts.
Context `{KI : KernelImage} `{DO : DiskOps} `{TI : TrapImage} `{OT : Others}.
Implicit Types (s : KS) (h : hart).

Lemma wp_ont {A} (m : M W A) w h Q : wp (ont m) (Trapst w h) Q = wp m w (fun a w' => Q a (Trapst w' h)).
Proof. unfold ont. by rewrite wp_zoom. Qed.

Lemma wp_updh f w h Q : wp (updh f) (Trapst w h) Q = Q tt (Trapst w (f h)).
Proof. done. Qed.

Lemma wp_geth w h Q : wp geth (Trapst w h) Q = Q h (Trapst w h).
Proof. done. Qed.

Lemma wp_switching {A} (m : M W A) w h Q :
  wp (switching m) (Trapst w h) Q = wp m w (fun a w' => Q a (Trapst w' (others w' h))).
Proof. unfold switching. rewrite wp_bind, wp_ont. done. Qed.

#[local] Hint Rewrite @wp_ont @wp_updh @wp_geth @wp_switching : wpdb.

Lemma wp_r_sstatus s e h Q :
  wp r_sstatus (Trapst (World s e) h) Q = Q (sstatus (ks_mach s)) (Trapst (World s e) h).
Proof. unfold r_sstatus. wp_simpl. rewrite wp_lkm. wp_simpl. by rewrite set_kmach_id. Qed.

Lemma wp_w_sstatus x s e h Q :
  wp (w_sstatus x) (Trapst (World s e) h) Q =
  Q tt (Trapst (World (set_kmach (set_sstatus x (ks_mach s)) s) e) h).
Proof. unfold w_sstatus. wp_simpl. by rewrite wp_lkm. Qed.

#[local] Hint Rewrite @wp_r_sstatus @wp_w_sstatus : wpdb.

(** ** The timer *)

(** The state after a timer interrupt: hart 0 keeps the time. *)
Definition clocked (me : option nat) (s : KS) : KS :=
  if i32 (tp (ks_mach s)) =? 0 then upd_procs (imap (wake C_ticks me)) (set_ticks (u32 (ks_ticks s + 1)) s) else s.

Lemma wp_devintr_timer me s e h Q :
  calm me s → h_scause h = SCAUSE_TIMER →
  (∀ s', s' ≡ clocked me s → Q 2 (Trapst (World s' e) (h <| h_sip ::= fun x => Z.land x (Z.lnot 2) |>))) →
  wp devintr (Trapst (World s e) h) Q.
Proof.
  intros Hc Hs HQ. unfold devintr. wp_simpl. rewrite Hs. change (truthy _ && _) with false. cbn iota.
  change (SCAUSE_TIMER =? SCAUSE_TIMER) with true. cbn iota. wp_simpl.
  rewrite wp_lkm. unfold cpuid. wp_simpl. rewrite set_kmach_id. unfold clocked in HQ.
  destruct (i32 (tp (ks_mach s)) =? 0); wp_simpl; [|by apply HQ].
  apply (wp_clockintr me); [done|]. intros s' Hs'. wp_simpl. by apply HQ.
Qed.

(** ** Traps from the kernel *)

Lemma ready_calm i s : ready i s → calm (Some i) s.
Proof. intros [[H1 H2 H3 H4] H5 H6 H7]. by split. Qed.

Lemma clocked_mach me s : ks_mach (clocked me s) = ks_mach s.
Proof. unfold clocked. by case_match. Qed.

Lemma clocked_lookup i j s p :
  ks_proc s !! i = Some p → p_state p = RUNNING → ks_proc (clocked j s) !! i = Some p.
Proof.
  intros Hp Hr. unfold clocked. case_match; [|done]. cbn. rewrite list_lookup_imap, Hp. cbn. f_equal.
  unfold wake. rewrite decide_False; [done|]. intros (_ & ? & _). congruence.
Qed.

Lemma clocked_len me s : length (ks_proc (clocked me s)) = length (ks_proc s).
Proof. unfold clocked. case_match; [|done]. cbn. apply length_imap. Qed.

Lemma ready_clocked i me s s' : ready i s → s' ≡ clocked me s → ready i s'.
Proof.
  intros [H1 H2 H3 H4] E. eapply ready_equiv; [exact E|]. split; rewrite ?clocked_mach; [done|done|by rewrite clocked_len|done].
Qed.

(** What a process that gives up the cpu hands over. *)
Definition given_up (i : nat) (s : KS) : KS := set_kmach (acq (L_proc i) (ks_mach s)) (upd_procs (alter yielded i) s).

Lemma given_up_equiv i s s' : mach_ok (ks_mach s) → s' ≡ s → given_up i s' = given_up i s.
Proof.
  intros Hok E. assert (ks_mach s' ≡ ks_mach s) as Em by (by rewrite E).
  apply kstate_nested; [by apply nested_push|]. apply set_kmach_equiv; [by rewrite (acq_proper (L_proc i) _ _ Em)|by rewrite E].
Qed.

(** C5. A timer interrupt in kernel code of process [i] is invisible to that
    code: it counts the tick, lets others run, and returns with the program
    counter and the status register of the interrupted code, whatever traps
    happened in between. *)
Theorem kerneltrap_timer i p s h ev es m' p' :
  ready i s → ks_proc s !! i = Some p → p_state p = RUNNING → h_scause h = SCAUSE_TIMER →
  truthy (Z.land (sstatus (ks_mach s)) SSTATUS_SPP) = true → sie (ks_mach s) = false →
  let s1 := given_up i (clocked (Some i) s) in
  runs i m' → ks_mach (ev s1) = acq (L_proc i) m' → ks_proc (ev s1) !! i = Some p' →
  wp kerneltrap (Trapst (World s (ev :: es)) h) (fun _ t =>
    h_sepc (t_h t) = h_sepc h ∧ sstatus (ks_mach (w_k (t_w t))) = sstatus (ks_mach s) ∧
    w_env (t_w t) = es ∧ ks_proc (w_k (t_w t)) = ks_proc (ev s1) ∧ ks_ticks (w_k (t_w t)) = ks_ticks (ev s1)).
Proof.
  intros Hr Hp Hrun Hs Hspp Hsie s1 Hr' Hm' Hp'. unfold kerneltrap. wp_simpl.
  unfold truthy in Hspp. apply negb_true_iff in Hspp. rewrite Hspp. wp_simpl. rewrite wp_lkm. unfold intr_get. wp_simpl.
  rewrite set_kmach_id. fold (sie (ks_mach s)). rewrite Hsie. wp_simpl.
  eapply (wp_devintr_timer (Some i)); [by apply ready_calm|done|]. intros s2 Hs2. change (2 =? 0) with false.
  wp_simpl. change (2 =? 2) with true. cbn iota. wp_simpl.
  pose proof (ready_clocked _ _ _ _ Hr Hs2) as Hr2.
  assert (ks_proc s2 !! i = Some p) as Hp2 by (rewrite (ks_proc_proper _ _ Hs2); by apply clocked_lookup).
  apply wp_myproc_k; [apply Hr2|]. intros s3 Hs3. rewrite (ru_cur _ _ (ry_runs _ _ Hr2)). wp_simpl.
  pose proof (ready_equiv _ _ _ Hs3 Hr2) as Hr3. rewrite <- (ks_proc_proper _ _ Hs3) in Hp2.
  eapply wp_getp; [exact Hp2|]. wp_simpl. rewrite bool_decide_true by done. wp_simpl.
  assert (given_up i s3 = s1) as E3.
  { unfold s1. apply given_up_equiv; [rewrite clocked_mach; apply Hr|]. by rewrite Hs3, Hs2. }
  eapply wp_mono; [apply (yield_correct i p (ks_mach s3) s3 ev es m' p'); [apply Hr3|done|done|..]|].
  - exact Hr'.
  - fold (given_up i s3). by rewrite E3.
  - fold (given_up i s3). by rewrite E3.
  - intros _ [s4 e4] [He Hs4]. cbn in He, Hs4. subst e4. fold (given_up i s3) in Hs4. rewrite E3 in Hs4.
    wp_simpl. cbn. split; [done|]. split; [done|]. split; [done|].
    by rewrite (ks_proc_proper _ _ Hs4), (ks_ticks_proper _ _ Hs4).
Qed.

(** ** The return to user space *)

Lemma sstatus_equiv (m m' : mach) : m ≡ m' → sstatus m = sstatus m'.
Proof. intros H. exact (f_equal sstatus H). Qed.
Lemma tp_equiv (m m' : mach) : m ≡ m' → tp m = tp m'.
Proof. intros H. exact (f_equal tp H). Qed.

(** What [uservec] will need, in the trapframe of [p]. *)
Definition put_kernel (p : proc) (satp hartid : Z) (m : gmap Z Z) : gmap Z Z :=
  let tf := p_trapframe p in
  store64 (store64 (store64 (store64 m (tf + TF_kernel_satp) satp) (tf + TF_kernel_sp) (u64 (p_kstack p + PGSIZE)))
    (tf + TF_kernel_trap) usertrap_addr) (tf + TF_kernel_hartid) hartid.

(** Supervisor registers for the return: user mode next, interrupts on there. *)
Definition user_sstatus (x : Z) : Z := Z.lor (Z.land (Z.land x (Z.lnot SSTATUS_SIE)) (Z.lnot SSTATUS_SPP)) SSTATUS_SPIE.

Definition returning (p : proc) (epc : Z) (h : hart) : hart :=
  h <| h_stvec := u64 (TRAMPOLINE + (uservec - trampoline)) |> <| h_sepc := epc |>
    <| h_userret := Some (u64 (TRAMPOLINE + (userret - trampoline)), MAKE_SATP (p_pagetable p)) |>.

Lemma wp_st64_k a v s Q : writable a 8 = true → Q tt (with_mem (store64 (k_mem (ks_k s)) a v) s) → wp (onk (st64 a v)) s Q.
Proof. intros Ha HQ. unfold onk. rewrite wp_zoom. apply wp_st64; [done|]. by destruct s as [[]]. Qed.

Lemma tf_writable tf o : writable tf 288 = true → 0 ≤ o → o + 8 ≤ 288 → writable (tf + o) 8 = true.
Proof. intros Hw H1 H2. eapply writable_sub; [exact Hw|lia|lia]. Qed.

Lemma wp_usertrapret i p s e h Q :
  ready i s → ks_proc s !! i = Some p → writable (p_trapframe p) 288 = true →
  (∀ s', ks_proc s' = ks_proc s → ks_fs s' = ks_fs s →
     k_mem (ks_k s') = put_kernel p (h_satp h) (tp (ks_mach s)) (k_mem (ks_k s)) →
     sstatus (ks_mach s') = user_sstatus (sstatus (ks_mach s)) →
     Q tt (Trapst (World s' e) (returning p (load64 (k_mem (ks_k s)) (p_trapframe p + TF_epc)) h))) →
  wp usertrapret (Trapst (World s e) h) Q.
Proof.
  intros Hr Hp Hw HQ. unfold usertrapret. wp_simpl. apply (wp_myprocp i s p); [done|done|]. intros s1 Hs1 _. wp_simpl.
  rewrite wp_lkm. unfold intr_off. wp_simpl. set (s2 := set_kmach _ s1).
  assert (∀ o, 0 ≤ o → o + 8 ≤ 288 → writable (p_trapframe p + o) 8 = true) as Ho.
  { intros o. by apply tf_writable. }
  do 3 (apply wp_st64_k; [apply Ho; by vm_compute|]; wp_simpl).
  rewrite wp_lkm. wp_simpl. rewrite set_kmach_id. apply wp_st64_k; [apply Ho; by vm_compute|]. wp_simpl.
  apply wp_ld64_k; [apply writable_ram, Ho; by vm_compute|]. wp_simpl.
  assert (k_mem (ks_k s2) = k_mem (ks_k s)) as Em by (exact (ks_mem_proper _ _ Hs1)).
  assert (sstatus (ks_mach s1) = sstatus (ks_mach s)) as Ess by (apply sstatus_equiv; by rewrite Hs1).
  assert (tp (ks_mach s1) = tp (ks_mach s)) as Etp by (apply tp_equiv; by rewrite Hs1).
  cbn [ks_k k_mem]. match goal with |- context [load64 ?m (p_trapframe p + TF_epc)] =>
    replace (load64 m (p_trapframe p + TF_epc)) with (load64 (k_mem (ks_k s)) (p_trapframe p + TF_epc)) end.
  - apply HQ.
    + cbn. exact (ks_proc_proper _ _ Hs1).
    + cbn. exact (ks_fs_proper _ _ Hs1).
    + unfold put_kernel. cbn. rewrite <- Etp. cbn in Em. rewrite Em. done.
    + cbn. unfold user_sstatus. by rewrite Ess.
  - unfold TF_kernel_satp, TF_kernel_sp, TF_kernel_trap, TF_kernel_hartid, TF_epc. cbn.
    rewrite !load_store64_disjoint by lia. cbn in Em. by rewrite Em.
Qed.

(** ** System calls *)

(** The state a system call of [p] runs in: the saved program counter is past
    the trapping instruction, and interrupts are on. *)
Definition entered (p : proc) (epc : Z) (s : KS) : KS :=
  set_kmach (set_ie true (ks_mach s))
    (with_mem (store64 (store64 (k_mem (ks_k s)) (p_trapframe p + TF_epc) epc) (p_trapframe p + TF_epc) (u64 (epc + 4))) s).

Lemma with_mem_equiv m s s' : s' ≡ s → with_mem m s' ≡ with_mem m s.
Proof. intros [(H1 & H2 & H3) H4]. by split. Qed.

Lemma ready_with_mem i m s : ready i s → ready i (with_mem m s).
Proof. by intros []. Qed.

Lemma set_ie_equiv b (m m' : mach) : m ≡ m' → set_ie b m ≡ set_ie b m'.
Proof.
  assert (∀ m, norm (set_ie b m) = norm (set_ie b (norm m))) as Hn.
  { intros x. unfold norm. rewrite !sie_set_ie. unfold set_ie, on_mycpu, set_sstatus, hid. cbn. f_equal.
    rewrite !list_alter_alter_eq. apply list_alter_ext; [|done]. intros c _. unfold compose. cbn. by case_match. }
  intros H. red. red. rewrite (Hn m), (Hn m'). by rewrite H.
Qed.

(** The call that register [a7] names, for process [p] with memory [m]. *)
Definition calls (pad : list Z) (p : proc) (m : gmap Z Z) (call : M W Z) : Prop :=
  let num := i32 (load64 m (p_trapframe p + TF_a7)) in 0 < num ∧ syscalls pad !! Z.to_nat num = Some (Some call).

Lemma wp_syscall pad i p s e call R Q :
  ready i s → ks_proc s !! i = Some p → writable (p_trapframe p) 288 = true → calls pad p (k_mem (ks_k s)) call →
  (∀ s', s' ≡ s → wp call (World s' e) (R : Z → W → Prop)) →
  (∀ r s' e' , R r (World s' e') → ∃ p', ks_proc s' !! i = Some p' ∧ sg_in_handler (p_signaling p') = 0 ∧
     writable (p_trapframe p') 288 = true ∧
     Q tt (World (with_mem (store64 (k_mem (ks_k s')) (p_trapframe p' + TF_a0) (u64 (i32 r))) s') e')) →
  wp (syscall pad) (World s e) Q.
Proof.
  intros Hr Hp Hw [Hpos Hcall] Hc HQ. unfold syscall. wp_simpl. apply (wp_myprocp i s p); [done|done|].
  intros s1 Hs1 Hr1. wp_simpl. apply wp_ld64_k; [by apply writable_ram, tf_writable|]. rewrite (ks_mem_proper _ _ Hs1).
  destruct (Z.ltb_spec 0 (i32 (load64 (k_mem (ks_k s)) (p_trapframe p + TF_a7)))); [|lia]. rewrite Hcall. wp_simpl.
  eapply wp_mono; [by apply Hc|]. intros r [s2 e2] HR. destruct (HQ _ _ _ HR) as (p' & Hp' & Hh & Hw' & HQ'). wp_simpl.
  eapply wp_getp; [exact Hp'|]. wp_simpl. rewrite Hh. change (truthy 0) with false. cbn [negb]. wp_simpl.
  apply wp_st64_k; [by apply tf_writable|]. exact HQ'.
Qed.

Lemma wp_intr_on s Q : Q tt (set_kmach (set_ie true (ks_mach s)) s) → wp (lkm intr_on) s Q.
Proof. intros HQ. rewrite wp_lkm. exact HQ. Qed.

(** What the user program gets back from a call with result [r] that ended in
    [s]. *)
Definition resumes (p : proc) (r : Z) (s : KS) (e : list (KS → KS)) (t : trapst) : Prop :=
  w_env (t_w t) = e ∧
  h_sepc (t_h t) = load64 (k_mem (ks_k s)) (p_trapframe p + TF_epc) ∧
  h_stvec (t_h t) = u64 (TRAMPOLINE + (uservec - trampoline)) ∧
  h_userret (t_h t) = Some (u64 (TRAMPOLINE + (userret - trampoline)), MAKE_SATP (p_pagetable p)) ∧
  load64 (k_mem (ks_k (w_k (t_w t)))) (p_trapframe p + TF_a0) = u64 (i32 r) ∧
  load64 (k_mem (ks_k (w_k (t_w t)))) (p_trapframe p + TF_kernel_sp) = u64 (p_kstack p + PGSIZE) ∧
  sstatus (ks_mach (w_k (t_w t))) = user_sstatus (sstatus (ks_mach s)).

Lemma wp_user_return i p r s e h Q :
  ready i s → ks_proc s !! i = Some p → p_killed p = 0 → writable (p_trapframe p) 288 = true →
  (∀ t, resumes p r s e t → Q tt t) →
  wp (k ← ont (onw (killed i)); when (truthy k) (switching (exit (-1)));; when (0 =? 2) (switching yield);; usertrapret)
    (Trapst (World (with_mem (store64 (k_mem (ks_k s)) (p_trapframe p + TF_a0) (u64 (i32 r))) s) e) h) Q.
Proof.
  intros Hr Hp Hk Hw HQ. set (s5 := with_mem _ s). wp_simpl.
  apply (wp_killed i p); [apply Hr|apply Hr|done|]. intros s6 Hs6. rewrite Hk. change (truthy 0) with false.
  wp_simpl. change (0 =? 2) with false. wp_simpl.
  apply (wp_usertrapret i p); [by eapply ready_equiv; [exact Hs6|apply ready_with_mem]|by rewrite (ks_proc_proper _ _ Hs6)|done|].
  intros s7 Ep Ef Em Ess. apply HQ. unfold resumes. cbn [t_w t_h w_env w_k]. rewrite Em, Ess.
  rewrite (ks_mem_proper _ _ Hs6). split; [done|].
  split; [cbn; by rewrite load_store64_disjoint by (unfold TF_epc, TF_a0; lia)|]. split; [done|]. split; [done|].
  unfold put_kernel, TF_kernel_satp, TF_kernel_sp, TF_kernel_trap, TF_kernel_hartid, TF_a0. cbn [k_mem ks_k s5].
  split; [|split].
  - rewrite !load_store64_disjoint by lia. cbn. rewrite load_store64_same; [done|unfold u64; zlia].
  - rewrite !(load_store64_disjoint _ _ (p_trapframe p + 8)) by lia. rewrite load_store64_same; [done|unfold u64; zlia].
  - f_equal. apply sstatus_equiv. by rewrite Hs6.
Qed.

(** C3. A system call from user space runs the function that [a7] names, with
    interrupts on, and returns to the instruction after the trap, or to wherever
    the call set the saved program counter: in user mode, with the result of the
    call, as a 32-bit integer, in [a0], and with the page table the call left. *)
Theorem usertrap_syscall pad i p s e h call R :
  ready i s → ks_proc s !! i = Some p → writable (p_trapframe p) 288 = true → p_killed p = 0 →
  Z.land (sstatus (ks_mach s)) SSTATUS_SPP = 0 → h_scause h = SCAUSE_ECALL → 0 ≤ h_sepc h < 2 ^ 64 →
  calls pad p (k_mem (ks_k s)) call →
  (∀ s1, s1 ≡ entered p (h_sepc h) s → wp call (World s1 e) (fun r w => ∃ p',
     R r w p' ∧ ready i (w_k w) ∧ ks_proc (w_k w) !! i = Some p' ∧ p_killed p' = 0 ∧
     sg_in_handler (p_signaling p') = 0 ∧ writable (p_trapframe p') 288 = true)) →
  wp (usertrap pad) (Trapst (World s e) h) (fun _ t => ∃ r w p',
    R r w p' ∧ resumes p' r (w_k w) (w_env w) t).
Proof.
  intros Hr Hp Hw Hk Hspp Hsc Hepc Hcall Hc. unfold usertrap. wp_simpl. rewrite Hspp. change (0 =? 0) with true. cbn [negb].
  wp_simpl. apply (wp_myprocp i s p); [done|done|]. intros s1 Hs1 Hr1. wp_simpl.
  apply wp_st64_k; [by apply tf_writable|]. wp_simpl. cbn [h_scause h_sepc setf]. rewrite Hsc. change (SCAUSE_ECALL =? SCAUSE_ECALL) with true. cbn iota.
  wp_simpl. rewrite (ks_mem_proper _ _ Hs1). set (m1 := store64 (k_mem (ks_k s)) _ _).
  apply (wp_killed i p); [apply Hr1|apply Hr1|by cbn; rewrite (ks_proc_proper _ _ Hs1)|]. intros s2 Hs2. rewrite Hk.
  change (truthy 0) with false. wp_simpl. apply wp_ld64_k; [by apply writable_ram, tf_writable|].
  assert (k_mem (ks_k s2) = m1) as Em2 by (rewrite (ks_mem_proper _ _ Hs2); done). rewrite Em2.
  replace (load64 m1 (p_trapframe p + TF_epc)) with (h_sepc h) by (symmetry; by apply load_store64_same).
  wp_simpl. apply wp_st64_k; [by apply tf_writable|]. rewrite Em2. wp_simpl. apply wp_intr_on. wp_simpl.
  set (s3 := set_kmach _ _). assert (s3 ≡ entered p (h_sepc h) s) as Hs3.
  { assert (s2 ≡ with_mem m1 s) as E2 by (rewrite Hs2; by apply with_mem_equiv).
    apply set_kmach_equiv; [|exact (with_mem_equiv _ _ _ E2)].
    apply set_ie_equiv. change (ks_mach s2 ≡ ks_mach s). by rewrite E2. }
  assert (ready i s3) as Hr3.
  { eapply ready_equiv; [exact Hs3|]. destruct Hr as [H1 H2 H3 H4]. split; [by apply runs_set_ie|done|done|done]. }
  eapply (wp_syscall pad i p s3 e call).
  - done.
  - cbn. by rewrite (ks_proc_proper _ _ Hs2), <- Hp, <- (ks_proc_proper _ _ Hs1).
  - done.
  - unfold calls in *. change (k_mem (ks_k s3)) with (store64 m1 (p_trapframe p + TF_epc) (u64 (h_sepc h + 4))).
    unfold m1. by rewrite !load_store64_disjoint by (unfold TF_epc, TF_a7; lia).
  - intros s4 Hs4. apply Hc. by rewrite Hs4.
  - intros r s4 e4 (p' & HR & Hr4 & Hp4 & Hk4 & Hh4 & Hw4). cbn [w_k] in *. exists p'. do 3 (split; [done|]). rewrite wp_ret.
    apply (wp_user_return i p' r s4); [done|done|done|done|]. intros t Ht. by exists r, (World s4 e4), p'.
Qed.

End trapfacts.

(** ** Examples *)

#[local] Existing Instance small_image.
#[local] Instance small_traps : TrapImage := {|
  kernelvec := KERNBASE + 256; uservec := KERNBASE + 6 * 4096; userret := KERNBASE + 6 * 4096 + 156;
  usertrap_addr := KERNBASE + 512 |}.
(** Others trap as well. *)
#[local] Instance busy_hart : Others := fun _ h => h <| h_sepc := 0 |> <| h_scause := SCAUSE_TIMER |>.
#[local] Instance no_disk : DiskOps := {| Bio.virtio_disk_rw := fun _ _ => ret tt |}.

Definition trap_hart (cause : Z) : hart := Hart 0 4096 cause 0 0 2 [] [] None.

Lemma kerneltrap_timer_witness :
  wp kerneltrap (Trapst (World (trap_ks SSTATUS_SPP ∅) [id]) (trap_hart SCAUSE_TIMER)) (fun _ t =>
    h_sepc (t_h t) = 4096 ∧ ks_ticks (w_k (t_w t)) = 101).
Proof.
  eapply wp_mono.
  - apply (kerneltrap_timer 0 trap_proc (trap_ks SSTATUS_SPP ∅) (trap_hart SCAUSE_TIMER) id [] (set_sstatus SSTATUS_SPP fs_mach)
      (yielded trap_proc)); [apply trap_ks_ready|reflexivity..|apply (ry_runs _ _ (trap_ks_ready SSTATUS_SPP ∅))|reflexivity|reflexivity].
  - intros _ t (H1 & _ & _ & _ & H2). split; [exact H1|]. rewrite H2. reflexivity.
Defined.

Definition getpid_mem : gmap Z Z := store64 ∅ (page_no 5 + TF_a7) 11.

Lemma usertrap_syscall_witness :
  wp (usertrap []) (Trapst (World (trap_ks 0 getpid_mem) []) (trap_hart SCAUSE_ECALL)) (fun _ t =>
    ∃ s, resumes trap_proc 1 s [] t).
Proof.
  eapply wp_mono.
  - apply (usertrap_syscall [] 0 trap_proc (trap_ks 0 getpid_mem) [] (trap_hart SCAUSE_ECALL) sys_getpid
      (fun r w p' => r = 1 ∧ p' = trap_proc ∧ w_env w = []));
      [apply trap_ks_ready|reflexivity|reflexivity|reflexivity|reflexivity|reflexivity|cbn; lia| |].
    { unfold calls. replace (i32 _) with 11 by (vm_compute; reflexivity). split; [lia|reflexivity]. }
    intros s1 Hs1. unfold sys_getpid. wp_simpl.
    assert (ready 0 s1) as Hr1.
    { eapply ready_equiv; [exact Hs1|]. destruct (trap_ks_ready 0 getpid_mem) as [H1 H2 H3 H4].
      split; [by apply runs_set_ie|done|done|done]. }
    apply (wp_myprocp 0 s1 trap_proc); [done|by rewrite (ks_proc_proper _ _ Hs1)|]. intros s2 Hs2 Hr2. wp_simpl.
    exists trap_proc. split; [done|]. split; [done|]. split; [|done].
    cbn. by rewrite (ks_proc_proper _ _ Hs2), (ks_proc_proper _ _ Hs1).
  - intros _ t (r & [s e] & p' & (-> & -> & He) & H). cbn in He. subst e. by exists s.
Defined.
