(* ===== verification/Boot.v ===== *)
(** * Initialisation

    [uart.c]: [uartinit], [console.c]: [consoleinit], [plic.c]: [plicinit] and
    [plicinithart], [virtio_disk.c]: [virtio_disk_init], [vm.c]: [kvminit] and
    [kvminithart], and [main.c].  Stores to device registers are kept as a
    trace, the last one first; what a load from one gives is a function of the
    trace ([Devices]). *)

From Stdlib Require Import ZArith Lia.
From stdpp Require Import base gmap strings numbers list.
From S2P Require Import Prelude Spinlock Mem Kstring Kalloc Vm Proc ProcLife Kvm FsState Sleeplock Bio Log Virtio Fs File Console Syscall SysFile Trap.
Local Open Scope xv6_scope.

Record bootst := Bootst {
  b_t : trapst;
  b_kernel_pagetable : Z;      (* kernel_pagetable of vm.c *)
  b_started : Z;               (* started of main.c *)
  b_mmio : list (Z * Z)
}.
#[global] Instance bootst_eta : Eta bootst := fun r =>
  Bootst (b_t r) (b_kernel_pagetable r) (b_started r) (b_mmio r).

Class Devices := mmio_read : list (Z * Z) → Z → Z.

Section boot.
Context `{KI : KernelImage} `{DO : DiskOps} `{TI : TrapImage} `{OT : Others} `{DV : Devices}.

Definition onb {A} (m : M trapst A) : M bootst A := zoom b_t (fun t b => b <| b_t := t |>) m.
Definition bks {A} (m : M KS A) : M bootst A := onb (ont (onw m)).
Definition wreg (a v : Z) : M bootst unit := modify (fun b => b <| b_mmio ::= cons (a, v) |>).
Definition rreg (a : Z) : M bootst Z := gets (fun b => mmio_read (b_mmio b) a).

(** ** uart.c and console.c *)

Definition IER : Z := 1.
Definition IER_RX_ENABLE : Z := Z.shiftl 1 0.
Definition IER_TX_ENABLE : Z := Z.shiftl 1 1.
Definition FCR : Z := 2.
Definition FCR_FIFO_ENABLE : Z := Z.shiftl 1 0.
Definition FCR_FIFO_CLEAR : Z := Z.shiftl 3 1.
Definition LCR : Z := 3.
Definition LCR_EIGHT_BITS : Z := Z.shiftl 3 0.
Definition LCR_BAUD_LATCH : Z := Z.shiftl 1 7.

Definition WriteReg (reg v : Z) : M bootst unit := wreg (UART0 + reg) (u8 v).

Definition uartinit : M bootst unit :=
  WriteReg IER 0;;
  WriteReg LCR LCR_BAUD_LATCH;;
  WriteReg 0 3;;
  WriteReg 1 0;;
  WriteReg LCR LCR_EIGHT_BITS;;
  WriteReg FCR (Z.lor FCR_FIFO_ENABLE FCR_FIFO_CLEAR);;
  WriteReg IER (Z.lor IER_TX_ENABLE IER_RX_ENABLE);;
  bks (lkm (initlock L_uart_tx "uart")).

(** The device switch is a constant of the model ([console_devsw]). *)
Definition consoleinit : M bootst unit :=
  bks (lkm (initlock L_cons "cons"));;
  uartinit.

(** ** vm.c *)

Definition kvminit : M bootst unit :=
  pt ← bks kvmmake;
  modify (fun b => b <| b_kernel_pagetable := pt |>).

Definition kvminithart : M bootst unit :=
  b ← get;
  onb (updh (fun h => h <| h_satp := MAKE_SATP (b_kernel_pagetable b) |>)).

(** ** plic.c *)

Definition PLIC_SENABLE (hart : Z) : Z := PLIC + 8320 + hart * 256.          (* 0x2080, 0x100 *)
Definition PLIC_SPRIORITY (hart : Z) : Z := PLIC + 2101248 + hart * 8192.    (* 0x201000, 0x2000 *)

Definition plicinit : M bootst unit :=
  wreg (PLIC + UART0_IRQ * 4) 1;;
  wreg (PLIC + VIRTIO0_IRQ * 4) 1.

Definition plicinithart : M bootst unit :=
  hart ← bks (lkm cpuid);
  wreg (PLIC_SENABLE hart) (Z.lor (Z.shiftl 1 UART0_IRQ) (Z.shiftl 1 VIRTIO0_IRQ));;
  wreg (PLIC_SPRIORITY hart) 0.

(** ** virtio_disk.c *)

Definition VIRTIO_MMIO_MAGIC_VALUE : Z := 0.
Definition VIRTIO_MMIO_VERSION : Z := 4.
Definition VIRTIO_MMIO_DEVICE_ID : Z := 8.
Definition VIRTIO_MMIO_VENDOR_ID : Z := 12.
Definition VIRTIO_MMIO_DEVICE_FEATURES : Z := 16.
Definition VIRTIO_MMIO_DRIVER_FEATURES : Z := 32.
Definition VIRTIO_MMIO_QUEUE_SEL : Z := 48.
Definition VIRTIO_MMIO_QUEUE_NUM_MAX : Z := 52.
Definition VIRTIO_MMIO_QUEUE_NUM : Z := 56.
Definition VIRTIO_MMIO_QUEUE_READY : Z := 68.
Definition VIRTIO_MMIO_STATUS : Z := 112.
Definition VIRTIO_MMIO_QUEUE_DESC_LOW : Z := 128.
Definition VIRTIO_MMIO_QUEUE_DESC_HIGH : Z := 132.
Definition VIRTIO_MMIO_DRIVER_DESC_LOW : Z := 144.
Definition VIRTIO_MMIO_DRIVER_DESC_HIGH : Z := 148.
Definition VIRTIO_MMIO_DEVICE_DESC_LOW : Z := 160.
Definition VIRTIO_MMIO_DEVICE_DESC_HIGH : Z := 164.

Definition VIRTIO_CONFIG_S_ACKNOWLEDGE : Z := 1.
Definition VIRTIO_CONFIG_S_DRIVER : Z := 2.
Definition VIRTIO_CONFIG_S_DRIVER_OK : Z := 4.
Definition VIRTIO_CONFIG_S_FEATURES_OK : Z := 8.

Definition VIRTIO_BLK_F_RO : Z := 5.
Definition VIRTIO_BLK_F_SCSI : Z := 7.
Definition VIRTIO_BLK_F_CONFIG_WCE : Z := 11.
Definition VIRTIO_BLK_F_MQ : Z := 12.
Definition VIRTIO_F_ANY_LAYOUT : Z := 27.
Definition VIRTIO_RING_F_INDIRECT_DESC : Z := 28.
Definition VIRTIO_RING_F_EVENT_IDX : Z := 29.

(** [*R(r)] as a value and as the target of a store. *)
Definition rR (r : Z) : M bootst Z := v ← rreg (VIRTIO0 + r); ret (u32 v).
Definition wR (r v : Z) : M bootst unit := wreg (VIRTIO0 + r) (u32 v).

(** [features &= ~(1 << f)] *)
Definition without (features f : Z) : Z := Z.land features (Z.lnot (Z.shiftl 1 f)).

(** The rings are the contents of the three pages: zero. *)
Definition clear_rings (v : vdisk) : vdisk :=
  v <| vd_desc := replicate NUM (VirtqDesc D_null 0 0 0) |>
    <| vd_avail_ring := replicate NUM 0 |> <| vd_avail_idx := 0 |>
    <| vd_used_ring := replicate NUM 0 |> <| vd_used_dev := 0 |>.

Definition virtio_disk_init : M bootst unit :=
  let status := 0 in
  bks (lkm (initlock L_vdisk "virtio_disk"));;
  magic ← rR VIRTIO_MMIO_MAGIC_VALUE;
  version ← rR VIRTIO_MMIO_VERSION;
  device ← rR VIRTIO_MMIO_DEVICE_ID;
  vendor ← rR VIRTIO_MMIO_VENDOR_ID;
  when (negb (magic =? 1953655158) || negb (version =? 2) || negb (device =? 2) || negb (vendor =? 1431127377))
    (panic "could not find virtio disk");;
  wR VIRTIO_MMIO_STATUS status;;
  let status := Z.lor status VIRTIO_CONFIG_S_ACKNOWLEDGE in
  wR VIRTIO_MMIO_STATUS status;;
  let status := Z.lor status VIRTIO_CONFIG_S_DRIVER in
  wR VIRTIO_MMIO_STATUS status;;
  features ← rR VIRTIO_MMIO_DEVICE_FEATURES;
  let features := without features VIRTIO_BLK_F_RO in
  let features := without features VIRTIO_BLK_F_SCSI in
  let features := without features VIRTIO_BLK_F_CONFIG_WCE in
  let features := without features VIRTIO_BLK_F_MQ in
  let features := without features VIRTIO_F_ANY_LAYOUT in
  let features := without features VIRTIO_RING_F_EVENT_IDX in
  let features := without features VIRTIO_RING_F_INDIRECT_DESC in
  wR VIRTIO_MMIO_DRIVER_FEATURES features;;
  let status := Z.lor status VIRTIO_CONFIG_S_FEATURES_OK in
  wR VIRTIO_MMIO_STATUS status;;
  status ← rR VIRTIO_MMIO_STATUS;
  when (negb (truthy (Z.land status VIRTIO_CONFIG_S_FEATURES_OK))) (panic "virtio disk FEATURES_OK unset");;
  wR VIRTIO_MMIO_QUEUE_SEL 0;;
  ready ← rR VIRTIO_MMIO_QUEUE_READY;
  when (truthy ready) (panic "virtio disk should not be ready");;
  max ← rR VIRTIO_MMIO_QUEUE_NUM_MAX;
  when (max =? 0) (panic "virtio disk has no queue 0");;
  when (max <? Z.of_nat NUM) (panic "virtio disk max queue too short");;
  desc ← bks (onk kalloc);
  avail ← bks (onk kalloc);
  used ← bks (onk kalloc);
  when ((desc =? 0) || (avail =? 0) || (used =? 0)) (panic "virtio disk kalloc");;
  bks (onk (memset desc 0 PGSIZE));;
  bks (onk (memset avail 0 PGSIZE));;
  bks (onk (memset used 0 PGSIZE));;
  bks (updvd clear_rings);;
  wR VIRTIO_MMIO_QUEUE_NUM (Z.of_nat NUM);;
  wR VIRTIO_MMIO_QUEUE_DESC_LOW desc;;
  wR VIRTIO_MMIO_QUEUE_DESC_HIGH (Z.shiftr desc 32);;
  wR VIRTIO_MMIO_DRIVER_DESC_LOW avail;;
  wR VIRTIO_MMIO_DRIVER_DESC_HIGH (Z.shiftr avail 32);;
  wR VIRTIO_MMIO_DEVICE_DESC_LOW used;;
  wR VIRTIO_MMIO_DEVICE_DESC_HIGH (Z.shiftr used 32);;
  wR VIRTIO_MMIO_QUEUE_READY 1;;
  for_each (seq 0 NUM) (fun i => bks (updvd (fun v => v <| vd_free ::= <[i := 1]> |>)));;
  let status := Z.lor status VIRTIO_CONFIG_S_DRIVER_OK in
  wR VIRTIO_MMIO_STATUS status.

(** ** main.c *)

Definition booting_fmt : list Z := cline "xv6 kernel is booting".
Definition starting_fmt : list Z := cline "hart %d starting".

(** [rounds] is the number of passes of the scheduler's endless loop. *)
Definition main (rounds : nat) : M bootst unit :=
  id ← bks (lkm cpuid);
  (if id =? 0 then
     consoleinit;;
     bks printfinit;;
     bks (printf (Some [10]) []);;
     bks (printf (Some booting_fmt) []);;
     bks (printf (Some [10]) []);;
     bks (onk kinit);;
     kvminit;;
     kvminithart;;
     bks procinit;;
     onb trapinit;;
     onb trapinithart;;
     plicinit;;
     plicinithart;;
     bks binit;;
     bks iinit;;
     bks fileinit;;
     virtio_disk_init;;
     onb (ont userinit);;
     modify (fun b => b <| b_started := 1 |>)
   else
     b ← get;
     when (b_started b =? 0) spin;;
     bks (printf (Some starting_fmt) [A_int id]);;
     when (negb (id =? 1)) spin;;
     kvminithart;;
     onb trapinithart;;
     plicinithart);;
  onb (switching (scheduler rounds)).

End boot.
