(* ===== verification/Asm.v ===== *)
(** * Assembly code (kernel/trampoline.S, kernelvec.S, swtch.S, entry.S) and
    the code that runs in machine mode (kernel/start.c)

    Each file is a list of instructions, run by a small interpreter over the
    registers of a hart and physical memory.  Addresses go through the page
    table that [satp] names: the translation is that of the hardware. *)

From Stdlib Require Import ZArith Lia.
From stdpp Require Import base gmap strings numbers list.
From S2P Require Import Prelude Spinlock Mem.
Local Open Scope xv6_scope.

(** ** The hart *)

Inductive reg :=
| Ra | Sp | Gp | Tp | T0 | T1 | T2 | S0 | S1 | A0 | A1 | A2 | A3 | A4 | A5 | A6 | A7
| S2 | S3 | S4 | S5 | S6 | S7 | S8 | S9 | S10 | S11 | T3 | T4 | T5 | T6.
#[global] Instance reg_eq_dec : EqDecision reg.
Proof. solve_decision. Defined.

Inductive csr :=
| Sscratch | Satp | Sip | Sie | Mscratch | Mstatus | Mepc | Medeleg | Mideleg | Mie | Mtvec
| Mhartid | Pmpaddr0 | Pmpcfg0.
#[global] Instance csr_eq_dec : EqDecision csr.
Proof. solve_decision. Defined.

Record astate := AState {
  a_regs : reg → Z;
  a_csrs : csr → Z;
  a_mem : gmap Z Z
}.
#[global] Instance astate_eta : Eta astate := fun r => AState (a_regs r) (a_csrs r) (a_mem r).

Definition upd {A} `{EqDecision A} (x : A) (v : Z) (f : A → Z) (y : A) : Z := if decide (y = x) then v else f y.

Inductive insn :=
| SD (rs : reg) (off : Z) (rb : reg)
| LD (rd : reg) (off : Z) (rb : reg)
| LI (rd : reg) (v : Z)                     (* li, la *)
| ADDI (rd rs : reg) (v : Z)
| ADD (rd rs rt : reg)
| MUL (rd rs rt : reg)
| CSRR (rd : reg) (c : csr)
| CSRW (c : csr) (rs : reg)
| CSRRW (rd : reg) (c : csr) (rs : reg)
| SFENCE_VMA
| JR (rs : reg)
| RET
| SRET
| MRET
| CALL (f : string)
| ECALL.

(** Where a block of code leaves to. *)
Inductive leave := To (a : Z) | Returned | Sreturned | Mreturned | Called (f : string) | Trapped.

Section asm.
(** The physical address behind a virtual one, for a value of [satp]. *)
Context (mmu : Z → Z → option Z).

Definition getr (r : reg) : M astate Z := gets (fun s => a_regs s r).
Definition setr (r : reg) (v : Z) : M astate unit := modify (fun s => s <| a_regs ::= upd r (u64 v) |>).
Definition getc (c : csr) : M astate Z := gets (fun s => a_csrs s c).
Definition setc (c : csr) (v : Z) : M astate unit := modify (fun s => s <| a_csrs ::= upd c (u64 v) |>).

Definition paddr (va : Z) : M astate Z :=
  satp ← getc Satp;
  match mmu satp (u64 va) with Some a => ret a | None => fault va end.

Definition step (x : insn) : M astate (option leave) :=
  match x with
  | SD rs off rb => a ← getr rb; a ← paddr (a + off); v ← getr rs;
      modify (fun s => s <| a_mem ::= fun m => store64 m a v |>);; ret None
  | LD rd off rb => a ← getr rb; a ← paddr (a + off); m ← gets a_mem; setr rd (load64 m a);; ret None
  | LI rd v => setr rd v;; ret None
  | ADDI rd rs v => a ← getr rs; setr rd (a + v);; ret None
  | ADD rd rs rt => a ← getr rs; b ← getr rt; setr rd (a + b);; ret None
  | MUL rd rs rt => a ← getr rs; b ← getr rt; setr rd (a * b);; ret None
  | CSRR rd c => v ← getc c; setr rd v;; ret None
  | CSRW c rs => v ← getr rs; setc c v;; ret None
  | CSRRW rd c rs => v ← getr rs; old ← getc c; setc c v;; setr rd old;; ret None
  | SFENCE_VMA => ret None
  | JR rs => a ← getr rs; ret (Some (To a))
  | RET => ret (Some Returned)
  | SRET => ret (Some Sreturned)
  | MRET => ret (Some Mreturned)
  | CALL f => ret (Some (Called f))
  | ECALL => ret (Some Trapped)
  end.

(** Run until control leaves the block. *)
Fixpoint run (code : list insn) : M astate (option leave) :=
  match code with
  | [] => ret None
  | x :: code => l ← step x; match l with None => run code | Some l => ret (Some l) end
  end.

(** ** trampoline.S *)

(** Runs of stores and loads of registers. *)
Definition sds (rb : reg) (frame : list (reg * Z)) : list insn := map (fun '(r, off) => SD r off rb) frame.
Definition lds (rb : reg) (frame : list (reg * Z)) : list insn := map (fun '(r, off) => LD r off rb) frame.

Definition uservec_code : list insn :=
  [CSRW Sscratch A0; LI A0 TRAPFRAME] ++
  sds A0 [(Ra, 40); (Sp, 48); (Gp, 56); (Tp, 64); (T0, 72); (T1, 80); (T2, 88); (S0, 96); (S1, 104);
    (A1, 120); (A2, 128); (A3, 136); (A4, 144); (A5, 152); (A6, 160); (A7, 168);
    (S2, 176); (S3, 184); (S4, 192); (S5, 200); (S6, 208); (S7, 216); (S8, 224); (S9, 232);
    (S10, 240); (S11, 248); (T3, 256); (T4, 264); (T5, 272); (T6, 280)] ++
  [CSRR T0 Sscratch; SD T0 112 A0;
   LD Sp 8 A0; LD Tp 32 A0; LD T0 16 A0; LD T1 0 A0;
   SFENCE_VMA; CSRW Satp T1; SFENCE_VMA;
   JR T0].

Definition userret_code : list insn :=
  [SFENCE_VMA; CSRW Satp A0; SFENCE_VMA; LI A0 TRAPFRAME] ++
  lds A0 [(Ra, 40); (Sp, 48); (Gp, 56); (Tp, 64); (T0, 72); (T1, 80); (T2, 88); (S0, 96); (S1, 104);
    (A1, 120); (A2, 128); (A3, 136); (A4, 144); (A5, 152); (A6, 160); (A7, 168);
    (S2, 176); (S3, 184); (S4, 192); (S5, 200); (S6, 208); (S7, 216); (S8, 224); (S9, 232);
    (S10, 240); (S11, 248); (T3, 256); (T4, 264); (T5, 272); (T6, 280)] ++
  [LD A0 112 A0; SRET].

(** ** kernelvec.S *)

Definition kernelvec_code : list insn :=
  [ADDI Sp Sp (-256)] ++
  sds Sp [(Ra, 0); (Sp, 8); (Gp, 16); (Tp, 24); (T0, 32); (T1, 40); (T2, 48); (S0, 56); (S1, 64);
    (A0, 72); (A1, 80); (A2, 88); (A3, 96); (A4, 104); (A5, 112); (A6, 120); (A7, 128);
    (S2, 136); (S3, 144); (S4, 152); (S5, 160); (S6, 168); (S7, 176); (S8, 184); (S9, 192);
    (S10, 200); (S11, 208); (T3, 216); (T4, 224); (T5, 232); (T6, 240)] ++
  [CALL "kerneltrap"].

(** What follows the call. *)
Definition kernelvec_return : list insn :=
  lds Sp [(Ra, 0); (Sp, 8); (Gp, 16); (T0, 32); (T1, 40); (T2, 48); (S0, 56); (S1, 64);
    (A0, 72); (A1, 80); (A2, 88); (A3, 96); (A4, 104); (A5, 112); (A6, 120); (A7, 128);
    (S2, 136); (S3, 144); (S4, 152); (S5, 160); (S6, 168); (S7, 176); (S8, 184); (S9, 192);
    (S10, 200); (S11, 208); (T3, 216); (T4, 224); (T5, 232); (T6, 240)] ++
  [ADDI Sp Sp 256; SRET].

Definition timervec_code : list insn :=
  [CSRRW A0 Mscratch A0; SD A1 0 A0; SD A2 8 A0; SD A3 16 A0;
   LD A1 24 A0; LD A2 32 A0; LD A3 0 A1; ADD A3 A3 A2; SD A3 0 A1;
   LI A1 2; CSRW Sip A1;
   LD A3 16 A0; LD A2 8 A0; LD A1 0 A0; CSRRW A0 Mscratch A0;
   MRET].

(** ** swtch.S *)

Definition swtch_code : list insn :=
  sds A0 [(Ra, 0); (Sp, 8); (S0, 16); (S1, 24); (S2, 32); (S3, 40); (S4, 48); (S5, 56); (S6, 64);
    (S7, 72); (S8, 80); (S9, 88); (S10, 96); (S11, 104)] ++
  lds A1 [(Ra, 0); (Sp, 8); (S0, 16); (S1, 24); (S2, 32); (S3, 40); (S4, 48); (S5, 56); (S6, 64);
    (S7, 72); (S8, 80); (S9, 88); (S10, 96); (S11, 104)] ++
  [RET].

(** ** signal.S *)

Definition signalret_code : list insn := [LI A7 22; ECALL].

(** ** entry.S and start.c *)

Context (stack0 timer_scratch main_addr timervec : Z).

Definition entry_code : list insn :=
  [LI Sp stack0; LI A0 (1024 * 4); CSRR A1 Mhartid; ADDI A1 A1 1; MUL A0 A0 A1; ADD Sp Sp A0; CALL "start"].

Definition MSTATUS_MPP_MASK : Z := 3 * 2 ^ 11.
Definition MSTATUS_MPP_S : Z := 2 ^ 11.
Definition MSTATUS_MIE : Z := 2 ^ 3.
Definition SIE_SEIE : Z := 2 ^ 9.
Definition SIE_STIE : Z := 2 ^ 5.
Definition SIE_SSIE : Z := 2 ^ 1.
Definition MIE_MTIE : Z := 2 ^ 7.
Definition CLINT : Z := 33554432.                       (* 0x2000000 *)
Definition CLINT_MTIMECMP (hartid : Z) : Z := CLINT + 16384 + 8 * hartid.
Definition CLINT_MTIME : Z := CLINT + 49144.            (* 0xBFF8 *)

(** Loads and stores of C code in machine mode, where addresses are physical. *)
Definition pld (a : Z) : M astate Z := gets (fun s => load64 (a_mem s) a).
Definition pst (a v : Z) : M astate unit := modify (fun s => s <| a_mem ::= fun m => store64 m a (u64 v) |>).

Definition timerinit : M astate unit :=
  x ← getc Mhartid;
  let id := i32 x in
  let interval := 1000000 in
  t ← pld CLINT_MTIME;
  pst (CLINT_MTIMECMP id) (t + interval);;
  let scratch := timer_scratch + 40 * id in
  pst (scratch + 24) (CLINT_MTIMECMP id);;
  pst (scratch + 32) interval;;
  setc Mscratch scratch;;
  setc Mtvec timervec;;
  x ← getc Mstatus; setc Mstatus (Z.lor x MSTATUS_MIE);;
  x ← getc Mie; setc Mie (Z.lor x MIE_MTIE).

Definition start : M astate leave :=
  x ← getc Mstatus;
  setc Mstatus (Z.lor (Z.land x (Z.lnot MSTATUS_MPP_MASK)) MSTATUS_MPP_S);;
  setc Mepc main_addr;;
  setc Satp 0;;
  setc Medeleg 65535;;
  setc Mideleg 65535;;
  x ← getc Sie; setc Sie (Z.lor (Z.lor (Z.lor x SIE_SEIE) SIE_STIE) SIE_SSIE);;
  setc Pmpaddr0 18014398509481983;;
  setc Pmpcfg0 15;;
  timerinit;;
  id ← getc Mhartid;
  setr Tp (i32 id);;
  ret Mreturned.

End asm.
