(* ===== verification/AsmFacts.v ===== *)
(** * Saving and restoring registers

    What the assembly files promise the C code: the registers of user space,
    of interrupted kernel code and of a process that is switched out come back
    as they were, and timer interrupts are invisible to the code they hit. *)

From Stdlib Require Import ZArith Lia.
From stdpp Require Import base gmap strings numbers list.
From S2P Require Import Prelude Spinlock Mem Asm.
Local Open Scope xv6_scope.

(** ** Frames *)

(** Registers at offsets from [pa]. *)
Definition put_frame (pa : Z) (frame : list (reg * Z)) (f : reg → Z) (m : gmap Z Z) : gmap Z Z :=
  foldl (fun m x => store64 m (pa + snd x) (f (fst x))) m frame.
Definition get_frame (pa : Z) (frame : list (reg * Z)) (m : gmap Z Z) (f : reg → Z) : reg → Z :=
  foldl (fun f x => upd (fst x) (u64 (load64 m (pa + snd x))) f) f frame.

(** The slots of a frame of [n] bytes lie in it and do not overlap. *)
Definition slots (n : Z) (offs : list Z) : bool :=
  forallb (fun o => (0 <=? o) && (o + 8 <=? n) && (o mod 8 =? 0)) offs && bool_decide (NoDup offs).
Definition frame_ok (n : Z) (frame : list (reg * Z)) : bool :=
  slots n frame.*2 && bool_decide (NoDup frame.*1).

Lemma slots_in n offs o : slots n offs = true → o ∈ offs → 0 ≤ o ∧ o + 8 ≤ n ∧ o mod 8 = 0.
Proof.
  unfold slots. intros [Hf _]%andb_prop Ho. rewrite forallb_forall in Hf.
  specialize (Hf o ltac:(by apply list_elem_of_In)). lia.
Qed.

Lemma slots_cons n o offs : slots n (o :: offs) = true → o ∉ offs ∧ slots n offs = true.
Proof.
  unfold slots. cbn. intros [[_ H1]%andb_prop H2%bool_decide_eq_true]%andb_prop.
  apply NoDup_cons in H2 as [H2 H3]. split; [done|]. rewrite H1. by apply bool_decide_eq_true.
Qed.

Lemma u64_small x : 0 ≤ x < 2 ^ 64 → u64 x = x.
Proof. apply Z.mod_small. Qed.

Lemma load_put_frame_out pa frame f m a :
  (∀ o, o ∈ frame.*2 → a + 8 ≤ pa + o ∨ pa + o + 8 ≤ a) → load64 (put_frame pa frame f m) a = load64 m a.
Proof.
  revert m. induction frame as [|[r o] frame IH]; intros m Ha; cbn; [done|].
  unfold put_frame in IH. rewrite IH by (intros; apply Ha; cbn; by right).
  apply load_store64_disjoint. specialize (Ha o ltac:(cbn; by left)). cbn. lia.
Qed.

Lemma aligned_apart o o' : o mod 8 = 0 → o' mod 8 = 0 → o ≠ o' → o + 8 ≤ o' ∨ o' + 8 ≤ o.
Proof. intros. zlia. Qed.

Lemma load_put_frame n pa frame f m r o :
  slots n frame.*2 = true → (r, o) ∈ frame → 0 ≤ f r < 2 ^ 64 → load64 (put_frame pa frame f m) (pa + o) = f r.
Proof.
  revert m. induction frame as [|[r' o'] frame IH]; intros m Hs Hin Hr; [by apply not_elem_of_nil in Hin|].
  destruct (slots_cons _ _ _ Hs) as [Hn Hs'].
  cbn. destruct (decide ((r, o) ∈ frame)) as [Hf|Hf]; [by apply IH|].
  apply elem_of_cons in Hin as [[= -> ->]|?]; [|done].
  fold (put_frame pa frame f (store64 m (pa + o') (f r'))).
  rewrite load_put_frame_out; [by apply load_store64_same|].
  intros o Ho.
  destruct (slots_in _ _ o Hs') as (_ & _ & ?); [done|].
  destruct (slots_in _ _ o' Hs ltac:(cbn; by left)) as (_ & _ & ?).
  assert (o ≠ o') by (by intros ->). pose proof (aligned_apart o o'). lia.
Qed.

Lemma mem_ok_put_frame pa frame f m : mem_ok m → mem_ok (put_frame pa frame f m).
Proof. revert m. induction frame as [|x frame IH]; intros m Hm; cbn; [done|]. apply IH. by apply mem_ok_store64. Qed.

Lemma upd_eq {A} `{EqDecision A} (x : A) v f : upd x v f x = v.
Proof. unfold upd. by rewrite decide_True. Qed.
Lemma upd_ne {A} `{EqDecision A} (x y : A) v f : y ≠ x → upd x v f y = f y.
Proof. intros. unfold upd. by rewrite decide_False. Qed.

Lemma get_frame_out pa frame m f r : r ∉ frame.*1 → get_frame pa frame m f r = f r.
Proof.
  revert f. induction frame as [|[r' o] frame IH]; intros f Hr; cbn; [done|]. cbn in Hr.
  apply not_elem_of_cons in Hr as [H1 H2]. unfold get_frame in IH. rewrite IH by done. by apply upd_ne.
Qed.

Lemma get_frame_in pa frame m f r o :
  NoDup frame.*1 → mem_ok m → (r, o) ∈ frame → get_frame pa frame m f r = load64 m (pa + o).
Proof.
  revert f. induction frame as [|[r' o'] frame IH]; intros f Hn Hm Hin; [by apply not_elem_of_nil in Hin|].
  cbn in Hn. apply NoDup_cons in Hn as [Hr Hn]. apply elem_of_cons in Hin as [[= -> ->]|Hin]; [|by apply IH].
  cbn. fold (get_frame pa frame m (upd r' (u64 (load64 m (pa + o'))) f)).
  rewrite get_frame_out, upd_eq by done. apply Z.mod_small, (load64_range m (pa + o') Hm).
Qed.

Section run.
Context (mmu : Z → Z → option Z).

(** [n] bytes from the virtual address [va] on are at [pa]. *)
Definition maps (satp va pa n : Z) : Prop :=
  0 ≤ va ∧ va + n ≤ 2 ^ 64 ∧ ∀ i, 0 ≤ i < n → mmu satp (va + i) = Some (pa + i).

Lemma wp_paddr satp va pa n off s Q :
  a_csrs s Satp = satp → maps satp va pa n → 0 ≤ off < n → Q (pa + off) s → wp (paddr mmu (va + off)) s Q.
Proof.
  intros Hs (H0 & H1 & Hm) Ho HQ. unfold paddr, getc. wp_simpl. rewrite Hs.
  unfold u64. rewrite Z.mod_small by lia. by rewrite Hm.
Qed.

Lemma wp_run_cons x code s Q :
  wp (step mmu x) s (fun l s' => match l with None => wp (run mmu code) s' Q | Some l => Q (Some l) s' end) →
  wp (run mmu (x :: code)) s Q.
Proof. intros H. cbn [run]. wp_simpl. eapply wp_mono; [exact H|]. by intros [l|] s'. Qed.

Lemma wp_sds rb satp va pa n frame code s Q :
  a_csrs s Satp = satp → maps satp va pa n → a_regs s rb = va → slots n frame.*2 = true →
  wp (run mmu code) (s <| a_mem ::= put_frame pa frame (a_regs s) |>) Q →
  wp (run mmu (sds rb frame ++ code)) s Q.
Proof.
  intros Hs Hm Hb Hf HQ. assert (∀ o, o ∈ frame.*2 → 0 ≤ o ∧ o + 8 ≤ n) as Ho.
  { intros o Hin. by destruct (slots_in _ _ _ Hf Hin) as (? & ? & _). }
  clear Hf. revert s Hs Hb HQ. induction frame as [|[r o] frame IH]; intros s Hs Hb HQ; cbn [sds map app]; [by destruct s|].
  destruct (Ho o ltac:(cbn; by left)) as [H1 H2].
  apply wp_run_cons. cbn [step]. unfold getr. wp_simpl. rewrite Hb. eapply wp_paddr; [done|done|lia|]. wp_simpl.
  apply IH; [|done|done|].
  - intros o' Ho'. apply Ho. cbn. by right.
  - exact HQ.
Qed.

(** The base register may be among those loaded if its slot holds its value. *)
Lemma wp_lds rb satp va pa n frame code s Q :
  a_csrs s Satp = satp → maps satp va pa n → a_regs s rb = va → slots n frame.*2 = true →
  (∀ o, (rb, o) ∈ frame → u64 (load64 (a_mem s) (pa + o)) = va) →
  wp (run mmu code) (s <| a_regs ::= get_frame pa frame (a_mem s) |>) Q →
  wp (run mmu (lds rb frame ++ code)) s Q.
Proof.
  intros Hs Hm Hb Hf Hrb HQ. assert (∀ o, o ∈ frame.*2 → 0 ≤ o ∧ o + 8 ≤ n) as Ho.
  { intros o Hin. by destruct (slots_in _ _ _ Hf Hin) as (? & ? & _). }
  clear Hf. revert s Hs Hb Hrb HQ.
  induction frame as [|[r o] frame IH]; intros s Hs Hb Hrb HQ; cbn [lds map app]; [by destruct s|].
  destruct (Ho o ltac:(cbn; by left)) as [H1 H2].
  apply wp_run_cons. cbn [step]. unfold getr, setr. wp_simpl. rewrite Hb.
  eapply wp_paddr; [done|done|lia|]. wp_simpl. apply IH; [|done| | |exact HQ].
  - intros o' Ho'. apply Ho. cbn. by right.
  - cbn. destruct (decide (rb = r)) as [->|Hne]; [rewrite upd_eq; apply Hrb; by left|by rewrite upd_ne].
  - intros o' Ho'. apply Hrb. by right.
Qed.

End run.

Ltac asm_state := cbn [a_regs a_csrs a_mem setf]; rewrite ?upd_eq; repeat (rewrite upd_ne by done); rewrite ?upd_eq.
Ltac asm_step := apply wp_run_cons; cbn [step]; unfold getr, setr, getc, setc; wp_simpl; asm_state.

Section trampoline.
Context (mmu : Z → Z → option Z).

(** ** The trampoline *)

(** The field of [struct trapframe] a register is saved in. *)
Definition tf_slot (r : reg) : Z :=
  match r with
  | Ra => 40 | Sp => 48 | Gp => 56 | Tp => 64 | T0 => 72 | T1 => 80 | T2 => 88 | S0 => 96 | S1 => 104
  | A0 => 112 | A1 => 120 | A2 => 128 | A3 => 136 | A4 => 144 | A5 => 152 | A6 => 160 | A7 => 168
  | S2 => 176 | S3 => 184 | S4 => 192 | S5 => 200 | S6 => 208 | S7 => 216 | S8 => 224 | S9 => 232
  | S10 => 240 | S11 => 248 | T3 => 256 | T4 => 264 | T5 => 272 | T6 => 280
  end.

Lemma tf_slot_range r : 40 ≤ tf_slot r ∧ tf_slot r + 8 ≤ 288 ∧ tf_slot r mod 8 = 0.
Proof. destruct r; (split; [cbn; lia|split; [cbn; lia|reflexivity]]). Qed.

Lemma tf_slot_a0 r : r ≠ A0 → tf_slot r + 8 ≤ 112 ∨ 112 + 8 ≤ tf_slot r.
Proof. destruct r; cbn; lia || congruence. Qed.

(** Every register but [a0], in the order of the trapframe. *)
Definition user_regs : list reg :=
  [Ra; Sp; Gp; Tp; T0; T1; T2; S0; S1; A1; A2; A3; A4; A5; A6; A7; S2; S3; S4; S5; S6; S7; S8; S9; S10; S11;
   T3; T4; T5; T6].
Definition user_frame : list (reg * Z) := (fun r => (r, tf_slot r)) <$> user_regs.

Lemma user_frame_in r : r ≠ A0 → (r, tf_slot r) ∈ user_frame.
Proof.
  intros Hr. apply list_elem_of_fmap. exists r. split; [done|].
  apply (list_elem_of_lookup_2 _ (Z.to_nat ((if tf_slot r <? 112 then tf_slot r - 40 else tf_slot r - 48) / 8))).
  destruct r; reflexivity || congruence.
Qed.

Lemma user_frame_a0 : A0 ∉ user_frame.*1.
Proof. by apply (bool_decide_unpack _). Qed.

Lemma user_frame_nodup : NoDup user_frame.*1.
Proof. apply (bool_decide_unpack _). vm_compute. exact I. Qed.

Definition regs_ok (s : astate) : Prop := ∀ r, 0 ≤ a_regs s r < 2 ^ 64.

Lemma wp_uservec s tf :
  maps mmu (a_csrs s Satp) TRAPFRAME tf 288 → regs_ok s → mem_ok (a_mem s) →
  wp (run mmu uservec_code) s (fun l s' =>
    l = Some (To (load64 (a_mem s) (tf + 16))) ∧ a_csrs s' Satp = load64 (a_mem s) tf ∧
    a_regs s' Sp = load64 (a_mem s) (tf + 8) ∧ a_regs s' Tp = load64 (a_mem s) (tf + 32) ∧
    mem_ok (a_mem s') ∧ (∀ r, load64 (a_mem s') (tf + tf_slot r) = a_regs s r) ∧
    ∀ a, a + 8 ≤ tf + 40 ∨ tf + 288 ≤ a → load64 (a_mem s') a = load64 (a_mem s) a).
Proof.
  intros Hm Hr Hok. unfold uservec_code. cbn [app]. asm_step. asm_step.
  eapply (wp_sds mmu A0); [asm_state; reflexivity|exact Hm|asm_state; reflexivity|reflexivity|]. asm_state.
  match goal with |- context [put_frame tf ?l] => change l with user_frame end.
  assert (slots 288 user_frame.*2 = true) as Hf by reflexivity.
  asm_step. asm_step. eapply wp_paddr; [asm_state; reflexivity|exact Hm|lia|]. wp_simpl. asm_state.
  do 4 (asm_step; eapply wp_paddr; [asm_state; reflexivity|exact Hm|lia|]; wp_simpl; asm_state).
  do 4 asm_step. rewrite !(u64_small (a_regs s A0)) by apply Hr.
  set (f := upd A0 (u64 TRAPFRAME) (a_regs s)). set (m2 := store64 _ _ _).
  assert (mem_ok m2) as Hok2 by (apply mem_ok_store64; by apply mem_ok_put_frame).
  assert (∀ a, a + 8 ≤ tf + 40 ∨ tf + 288 ≤ a → load64 m2 a = load64 (a_mem s) a) as Hout.
  { intros a Ha. unfold m2. rewrite load_store64_disjoint by lia. apply load_put_frame_out.
    intros o ([r o'] & -> & (r' & [= -> ->] & _)%list_elem_of_fmap)%list_elem_of_fmap.
    cbn. pose proof (tf_slot_range r'). lia. }
  asm_state. rewrite !(u64_small (load64 m2 _)) by (by apply load64_range).
  rewrite !Hout, Z.add_0_r by lia. do 5 (split; [done|]). split; [|exact Hout].
  intros r. destruct (decide (r = A0)) as [->|Hne]; [by apply load_store64_same|].
  unfold m2. pose proof (tf_slot_a0 r Hne). rewrite load_store64_disjoint by lia.
  rewrite (load_put_frame 288 tf user_frame f _ r); [by apply upd_ne|done|by apply user_frame_in|].
  unfold f. rewrite upd_ne by done. apply Hr.
Qed.

Lemma wp_userret s tf :
  maps mmu (u64 (a_regs s A0)) TRAPFRAME tf 288 → mem_ok (a_mem s) →
  wp (run mmu userret_code) s (fun l s' =>
    l = Some Sreturned ∧ a_csrs s' Satp = u64 (a_regs s A0) ∧ a_mem s' = a_mem s ∧
    ∀ r, a_regs s' r = load64 (a_mem s) (tf + tf_slot r)).
Proof.
  intros Hm Hok. unfold userret_code. cbn [app]. do 4 asm_step.
  eapply (wp_lds mmu A0); [asm_state; reflexivity|exact Hm|asm_state; reflexivity|reflexivity| |].
  { change (∀ o, (A0, o) ∈ user_frame → u64 (load64 (a_mem s) (tf + o)) = TRAPFRAME).
    intros o Ho. destruct user_frame_a0. apply list_elem_of_fmap. by exists (A0, o). }
  match goal with |- context [get_frame tf ?l] => change l with user_frame end. asm_state.
  asm_step. rewrite get_frame_out, upd_eq by apply user_frame_a0.
  eapply wp_paddr; [asm_state; reflexivity|exact Hm|lia|]. wp_simpl. asm_state. asm_step.
  split; [done|]. split; [done|]. split; [done|]. intros r.
  destruct (decide (r = A0)) as [->|Hne].
  - rewrite upd_eq. by apply u64_small, load64_range.
  - rewrite upd_ne by done. apply get_frame_in; [apply user_frame_nodup|done|by apply user_frame_in].
Qed.

(** ** Traps from the kernel *)

(** The frame [kernelvec] pushes has the registers in the order of the
    trapframe. *)
Definition kv_slot (r : reg) : Z := tf_slot r - 40.
Definition all_regs : list reg :=
  [Ra; Sp; Gp; Tp; T0; T1; T2; S0; S1; A0; A1; A2; A3; A4; A5; A6; A7; S2; S3; S4; S5; S6; S7; S8; S9; S10; S11;
   T3; T4; T5; T6].
Definition kernel_frame (rs : list reg) : list (reg * Z) := (fun r => (r, kv_slot r)) <$> rs.

Lemma all_regs_in r : r ∈ all_regs.
Proof. apply (list_elem_of_lookup_2 _ (Z.to_nat (kv_slot r / 8))). by destruct r. Qed.

Lemma kernel_frame_in r rs : r ∈ rs → (r, kv_slot r) ∈ kernel_frame rs.
Proof. intros Hr. apply list_elem_of_fmap. by exists r. Qed.

Lemma kernel_frame_inv r o rs : (r, o) ∈ kernel_frame rs → o = kv_slot r ∧ r ∈ rs.
Proof. by intros (r' & [= -> ->] & ?)%list_elem_of_fmap. Qed.

Lemma kernel_frame_regs rs : (kernel_frame rs).*1 = rs.
Proof. unfold kernel_frame. rewrite <- list_fmap_compose. apply list_fmap_id. Qed.

Lemma wp_kernelvec s pa :
  maps mmu (a_csrs s Satp) (a_regs s Sp - 256) pa 256 → regs_ok s → mem_ok (a_mem s) →
  wp (run mmu kernelvec_code) s (fun l s' =>
    l = Some (Called "kerneltrap") ∧ a_csrs s' = a_csrs s ∧ mem_ok (a_mem s') ∧
    a_regs s' Sp = a_regs s Sp - 256 ∧ (∀ r, r ≠ Sp → a_regs s' r = a_regs s r) ∧
    (∀ r, load64 (a_mem s') (pa + kv_slot r) = a_regs s' r) ∧
    ∀ a, a + 8 ≤ pa ∨ pa + 256 ≤ a → load64 (a_mem s') a = load64 (a_mem s) a).
Proof.
  intros Hm Hr Hok. pose proof Hm as (H0 & _). unfold kernelvec_code. cbn [app]. asm_step.
  replace (u64 (a_regs s Sp + -256)) with (a_regs s Sp - 256) by (rewrite u64_small; specialize (Hr Sp); lia).
  assert (slots 256 (kernel_frame all_regs).*2 = true) as Hf by reflexivity.
  eapply (wp_sds mmu Sp); [asm_state; reflexivity|exact Hm|asm_state; reflexivity|exact Hf|].
  match goal with |- context [put_frame pa ?l] => change l with (kernel_frame all_regs) end. asm_state.
  asm_step. set (f := upd Sp _ _). split; [done|]. split; [done|]. split; [by apply mem_ok_put_frame|].
  split; [done|]. split; [intros r Hne; by apply upd_ne|]. split.
  - intros r. apply (load_put_frame 256); [done|apply kernel_frame_in, all_regs_in|].
    unfold f, upd. pose proof (Hr r). pose proof (Hr Sp). case_decide; lia.
  - intros a Ha. apply load_put_frame_out. intros o Ho. destruct (slots_in _ _ _ Hf Ho). lia.
Qed.

Lemma wp_kernelvec_return s pa sp :
  maps mmu (a_csrs s Satp) sp pa 256 → a_regs s Sp = sp → mem_ok (a_mem s) → sp + 256 < 2 ^ 64 →
  load64 (a_mem s) (pa + kv_slot Sp) = sp →
  wp (run mmu kernelvec_return) s (fun l s' =>
    l = Some Sreturned ∧ a_regs s' Sp = sp + 256 ∧ a_regs s' Tp = a_regs s Tp ∧
    ∀ r, r ≠ Sp → r ≠ Tp → a_regs s' r = load64 (a_mem s) (pa + kv_slot r)).
Proof.
  intros Hm Hsp Hok Hmax Hld. pose proof Hm as (H0 & _). unfold kernelvec_return.
  set (rs := filter (fun r => r ≠ Tp) all_regs).
  eapply (wp_lds mmu Sp); [reflexivity|exact Hm|done|reflexivity| |].
  { change (∀ o, (Sp, o) ∈ kernel_frame rs → u64 (load64 (a_mem s) (pa + o)) = sp).
    intros o [-> _]%kernel_frame_inv. rewrite Hld. apply u64_small. lia. }
  match goal with |- context [get_frame pa ?l] => change l with (kernel_frame rs) end. asm_state.
  assert (∀ r f, r ≠ Tp → get_frame pa (kernel_frame rs) (a_mem s) f r = load64 (a_mem s) (pa + kv_slot r)) as Hg.
  { intros r f Hne. apply get_frame_in; [|done|].
    - rewrite kernel_frame_regs. apply NoDup_filter, (bool_decide_unpack _). vm_compute. exact I.
    - apply kernel_frame_in, list_elem_of_filter. split; [done|apply all_regs_in]. }
  asm_step. rewrite Hg, Hld by done. asm_step. rewrite u64_small by lia.
  split; [done|]. split; [done|]. split; [|intros; rewrite upd_ne by done; by apply Hg].
  rewrite get_frame_out; [done|]. rewrite kernel_frame_regs. by intros [? _]%list_elem_of_filter.
Qed.

(** ** Context switches *)

(** The field of [struct context] a callee-saved register is saved in. *)
Definition ctx_slot (r : reg) : option Z :=
  match r with
  | Ra => Some 0 | Sp => Some 8 | S0 => Some 16 | S1 => Some 24 | S2 => Some 32 | S3 => Some 40
  | S4 => Some 48 | S5 => Some 56 | S6 => Some 64 | S7 => Some 72 | S8 => Some 80 | S9 => Some 88
  | S10 => Some 96 | S11 => Some 104
  | _ => None
  end.
Definition ctx_frame : list (reg * Z) :=
  omap (fun r => (fun o => (r, o)) <$> ctx_slot r) [Ra; Sp; S0; S1; S2; S3; S4; S5; S6; S7; S8; S9; S10; S11].

Lemma ctx_frame_in r o : ctx_slot r = Some o → (r, o) ∈ ctx_frame.
Proof.
  intros H. apply (list_elem_of_lookup_2 _ (Z.to_nat (o / 8))). destruct r; try discriminate H; by injection H as <-.
Qed.

Lemma ctx_frame_inv r : r ∈ ctx_frame.*1 → is_Some (ctx_slot r).
Proof.
  intros ([? o] & -> & (r' & _ & H)%list_elem_of_omap)%list_elem_of_fmap. cbn.
  destruct (ctx_slot r') eqn:E; cbn in H; [|done]. injection H as -> ->. eauto.
Qed.

Lemma wp_swtch_code s old po new pn :
  a_regs s A0 = old → a_regs s A1 = new → maps mmu (a_csrs s Satp) old po 112 → maps mmu (a_csrs s Satp) new pn 112 →
  po + 112 ≤ pn ∨ pn + 112 ≤ po → regs_ok s → mem_ok (a_mem s) →
  wp (run mmu swtch_code) s (fun l s' =>
    l = Some Returned ∧ a_csrs s' = a_csrs s ∧ mem_ok (a_mem s') ∧
    (∀ r, a_regs s' r = match ctx_slot r with Some o => load64 (a_mem s) (pn + o) | None => a_regs s r end) ∧
    (∀ r o, ctx_slot r = Some o → load64 (a_mem s') (po + o) = a_regs s r) ∧
    ∀ a, a + 8 ≤ po ∨ po + 112 ≤ a → load64 (a_mem s') a = load64 (a_mem s) a).
Proof.
  intros H0 H1 Hmo Hmn Hd Hr Hok. unfold swtch_code.
  assert (slots 112 ctx_frame.*2 = true) as Hf by reflexivity.
  eapply (wp_sds mmu A0); [done|exact Hmo|done|exact Hf|].
  eapply (wp_lds mmu A1); [done|exact Hmn|done|exact Hf| |].
  { change (∀ o, (A1, o) ∈ ctx_frame → u64 (load64 (put_frame po ctx_frame (a_regs s) (a_mem s)) (pn + o)) = new).
    intros o Ho. destruct (ctx_frame_inv A1) as [? ?]; [|done]. apply list_elem_of_fmap. by exists (A1, o). }
  match goal with |- context [get_frame pn ?l] => change l with ctx_frame end.
  asm_step. match goal with |- context [put_frame po ?l] => change l with ctx_frame end.
  assert (∀ a, a + 8 ≤ po ∨ po + 112 ≤ a →
    load64 (put_frame po ctx_frame (a_regs s) (a_mem s)) a = load64 (a_mem s) a) as Hout.
  { intros a Ha. apply load_put_frame_out. intros o Ho. destruct (slots_in _ _ _ Hf Ho). lia. }
  assert (mem_ok (put_frame po ctx_frame (a_regs s) (a_mem s))) as Hok' by by apply mem_ok_put_frame.
  split; [done|]. split; [done|]. split; [done|]. split; [|split; [|exact Hout]].
  - intros r. destruct (ctx_slot r) as [o|] eqn:Ho.
    + apply ctx_frame_in in Ho. assert (0 ≤ o ∧ o + 8 ≤ 112) as [? ?].
      { destruct (slots_in _ _ o Hf) as (? & ? & _); [apply list_elem_of_fmap; by exists (r, o)|done]. }
      rewrite (get_frame_in _ _ _ _ r o); [|apply (bool_decide_unpack _); vm_compute; exact I|done|done].
      apply Hout. lia.
    + apply get_frame_out. intros [? ?]%ctx_frame_inv. congruence.
  - intros r o Ho. apply (load_put_frame 112); [done|by apply ctx_frame_in|apply Hr].
Qed.

End trampoline.

(** ** Machine mode *)

(** In machine mode addresses are physical. *)
Definition bare (satp va : Z) : option Z := Some va.

Lemma bare_maps satp a n : 0 ≤ a → a + n ≤ 2 ^ 64 → maps bare satp a a n.
Proof. done. Qed.

(** What [timerinit] leaves for [timervec]: the scratch area [scr] names the
    comparison register [cmp] and the interval. *)
Definition timer_ok (scr cmp : Z) (s : astate) : Prop :=
  a_csrs s Mscratch = scr ∧ load64 (a_mem s) (scr + 24) = cmp ∧ load64 (a_mem s) (scr + 32) = 1000000.

(** An address range that does not wrap, and the comparison register outside
    the scratch area. *)
Definition timer_layout (scr cmp : Z) : Prop :=
  0 ≤ scr ∧ scr + 40 ≤ 2 ^ 64 ∧ 0 ≤ cmp ∧ cmp + 8 ≤ 2 ^ 64 ∧ (cmp + 8 ≤ scr ∨ scr + 40 ≤ cmp).

Lemma wp_bare_paddr va s Q : 0 ≤ va < 2 ^ 64 → Q va s → wp (paddr bare va) s Q.
Proof. intros Hv HQ. unfold paddr, getc, bare. wp_simpl. by rewrite u64_small. Qed.

Ltac asm_mem := asm_step; apply wp_bare_paddr; [lia|]; wp_simpl; asm_state.

Lemma wp_timervec scr cmp s :
  timer_layout scr cmp → timer_ok scr cmp s → regs_ok s → mem_ok (a_mem s) →
  wp (run bare timervec_code) s (fun l s' =>
    l = Some Mreturned ∧ (∀ r, a_regs s' r = a_regs s r) ∧
    a_csrs s' Sip = 2 ∧ (∀ c, c ≠ Sip → a_csrs s' c = a_csrs s c) ∧
    timer_ok scr cmp s' ∧ mem_ok (a_mem s') ∧
    load64 (a_mem s') cmp = u64 (load64 (a_mem s) cmp + 1000000) ∧
    ∀ a, (a + 8 ≤ scr ∨ scr + 24 ≤ a) → (a + 8 ≤ cmp ∨ cmp + 8 ≤ a) → load64 (a_mem s') a = load64 (a_mem s) a).
Proof.
  intros (L1 & L2 & L3 & L4 & L5) (E1 & E2 & E3) Hr Hok. unfold timervec_code.
  pose proof (Hr A0) as Ha0. asm_step. rewrite E1. rewrite !u64_small by (apply Hr || lia).
  do 3 (asm_step; apply wp_bare_paddr; [lia|]; wp_simpl; asm_state).
  set (m1 := store64 (store64 (store64 (a_mem s) (scr + 0) (a_regs s A1)) (scr + 8) (a_regs s A2)) (scr + 16) (a_regs s A3)).
  assert (mem_ok m1) as Hok1 by (repeat apply mem_ok_store64; done).
  assert (∀ a, (a + 8 ≤ scr ∨ scr + 24 ≤ a) → load64 m1 a = load64 (a_mem s) a) as Hout.
  { intros a Ha. unfold m1. by rewrite !load_store64_disjoint by lia. }
  assert (load64 m1 scr = a_regs s A1) as V1.
  { unfold m1. rewrite Z.add_0_r, !(load_store64_disjoint _ _ scr) by lia. apply load_store64_same, Hr. }
  assert (load64 m1 (scr + 8) = a_regs s A2) as V2.
  { unfold m1. rewrite (load_store64_disjoint _ _ (scr + 8)) by lia. apply load_store64_same, Hr. }
  assert (load64 m1 (scr + 16) = a_regs s A3) as V3 by apply load_store64_same, Hr.
  match goal with |- wp ?c _ ?Q =>
    change (wp c (AState (upd A0 scr (a_regs s)) (upd Mscratch (a_regs s A0) (a_csrs s)) m1) Q) end.
  clearbody m1.
  asm_mem. rewrite Hout, E2, (u64_small cmp) by lia. asm_mem. rewrite Hout, E3 by lia.
  asm_mem. rewrite Z.add_0_r, Hout by lia. asm_step. asm_mem. rewrite Z.add_0_r. do 2 asm_step.
  set (v := u64 (u64 (load64 (a_mem s) cmp) + u64 1000000)). set (m2 := store64 m1 cmp v).
  assert (v = u64 (load64 (a_mem s) cmp + 1000000)) as Hv.
  { unfold v. rewrite (u64_small (load64 _ _)) by (by apply load64_range). done. }
  assert (∀ a, (a + 8 ≤ cmp ∨ cmp + 8 ≤ a) → load64 m2 a = load64 m1 a) as Hout2.
  { intros a Ha. by apply load_store64_disjoint. }
  assert (load64 m2 cmp = v) as Hcmp by (apply load_store64_same; unfold v, u64; apply Z.mod_pos_bound; lia).
  assert (mem_ok m2) as Hok2 by by apply mem_ok_store64.
  match goal with |- wp ?c _ ?Q => change (wp c (AState (upd A1 2 (upd A3 v (upd A3 (u64 (load64 (a_mem s) cmp))
    (upd A2 1000000 (upd A1 cmp (upd A0 scr (a_regs s))))))) (upd Sip 2 (upd Mscratch (a_regs s A0) (a_csrs s))) m2) Q) end.
  clearbody m2 v.
  asm_mem. rewrite Hout2, V3 by lia. asm_mem. rewrite Hout2, V2 by lia.
  asm_mem. rewrite Z.add_0_r, Hout2, V1 by lia. do 2 asm_step.
  repeat match goal with |- context [u64 (upd A1 ?x ?f A0)] => change (upd A1 x f A0) with scr end.
  rewrite !u64_small by (apply Hr || lia).
  split; [done|]. split.
  { intros r. unfold upd. by destruct r. }
  split; [done|]. split.
  { intros c Hc. rewrite (u64_small scr) by lia. unfold upd. repeat case_decide; congruence. }
  split; [split; [cbn; by rewrite upd_eq, (u64_small scr) by lia|]; cbn; rewrite !Hout2, !Hout by lia; done|].
  split; [done|]. split; [congruence|]. intros a Ha Hb. by rewrite Hout2, Hout.
Qed.
