(* ===== verification/Machine.v ===== *)
(** * What the assembly code and machine mode promise

    Registers survive a trap from user space, a trap from the kernel and a
    context switch; the boot code gives every hart a stack of its own and a
    timer that keeps ticking without being noticed. *)

From Stdlib Require Import ZArith Lia Btauto.
From stdpp Require Import base gmap strings numbers list.
From S2P Require Import Prelude Spinlock Mem Asm AsmFacts.
Local Open Scope xv6_scope.

Definition NCPU : Z := 8.

Section machine.
Context (mmu : Z → Z → option Z).

(** C4. A trap from user space enters [usertrap] on the kernel stack, with the
    kernel page table and the hart's number from the trapframe, after every user
    register, [a0] included, has been saved there.  Whatever the kernel does, the
    return gives every register the value that its slot has by then: a slot that
    the kernel left alone gives the register back, and a result that it stored
    for [a0] arrives. *)
Theorem trampoline_roundtrip s tf :
  maps mmu (a_csrs s Satp) TRAPFRAME tf 288 → regs_ok s → mem_ok (a_mem s) → 0 ≤ a_csrs s Satp < 2 ^ 64 →
  wp (run mmu uservec_code) s (fun l s1 =>
    l = Some (To (load64 (a_mem s) (tf + 16))) ∧ a_csrs s1 Satp = load64 (a_mem s) tf ∧
    a_regs s1 Sp = load64 (a_mem s) (tf + 8) ∧ a_regs s1 Tp = load64 (a_mem s) (tf + 32) ∧
    mem_ok (a_mem s1) ∧ (∀ r, load64 (a_mem s1) (tf + tf_slot r) = a_regs s r) ∧
    ∀ s2, mem_ok (a_mem s2) → a_regs s2 A0 = a_csrs s Satp →
      wp (run mmu userret_code) s2 (fun l s3 =>
        l = Some Sreturned ∧ a_csrs s3 Satp = a_csrs s Satp ∧
        (∀ r, a_regs s3 r = load64 (a_mem s2) (tf + tf_slot r)) ∧
        ∀ r, load64 (a_mem s2) (tf + tf_slot r) = load64 (a_mem s1) (tf + tf_slot r) → a_regs s3 r = a_regs s r)).
Proof.
  intros Hm Hr Hok Hsat. eapply wp_mono; [by apply (wp_uservec mmu s tf)|].
  intros l s1 (-> & H1 & H2 & H3 & Hok1 & Hsv & _). do 6 (split; [done|]). intros s2 Hok2 Ha0.
  eapply wp_mono; [apply (wp_userret mmu s2 tf); [by rewrite Ha0, u64_small|done]|].
  intros l s3 (-> & H4 & _ & Hld). rewrite Ha0, u64_small in H4 by done. split; [done|]. split; [done|].
  split; [exact Hld|]. intros r Hkeep. by rewrite Hld, Hkeep, Hsv.
Qed.

(** An interrupt of kernel code calls [kerneltrap] with the interrupted
    registers pushed below the stack; if the call returns with the same stack
    pointer, page table and frame, every register is as it was before the
    interrupt, except that [tp] stays that of the hart it returns on. *)
Theorem kernelvec_roundtrip s pa :
  maps mmu (a_csrs s Satp) (a_regs s Sp - 256) pa 256 → regs_ok s → mem_ok (a_mem s) →
  wp (run mmu kernelvec_code) s (fun l s1 =>
    l = Some (Called "kerneltrap") ∧ mem_ok (a_mem s1) ∧ a_csrs s1 Satp = a_csrs s Satp ∧
    (∀ a, a + 8 ≤ pa ∨ pa + 256 ≤ a → load64 (a_mem s1) a = load64 (a_mem s) a) ∧
    ∀ s2, mem_ok (a_mem s2) → a_regs s2 Sp = a_regs s1 Sp → a_csrs s2 Satp = a_csrs s Satp →
      (∀ r, load64 (a_mem s2) (pa + kv_slot r) = load64 (a_mem s1) (pa + kv_slot r)) →
      wp (run mmu kernelvec_return) s2 (fun l s3 =>
        l = Some Sreturned ∧ a_regs s3 Tp = a_regs s2 Tp ∧ ∀ r, r ≠ Tp → a_regs s3 r = a_regs s r)).
Proof.
  intros Hm Hr Hok. eapply wp_mono; [by apply (wp_kernelvec mmu s pa)|].
  intros l s1 (-> & Hc & Hok1 & Hsp & Hregs & Hsv & Hout). split; [done|]. split; [done|]. split; [by rewrite Hc|]. split; [done|].
  intros s2 Hok2 Hsp2 Hsat Hkeep.
  eapply wp_mono; [apply (wp_kernelvec_return mmu s2 pa (a_regs s Sp - 256)); [by rewrite Hsat|congruence|done| |]|].
  - specialize (Hr Sp). lia.
  - by rewrite Hkeep, Hsv.
  - intros l s3 (-> & H1 & H2 & H3). split; [done|]. split; [done|]. intros r Hne.
    destruct (decide (r = Sp)) as [->|Hsp']; [lia|]. rewrite H3 by done. by rewrite Hkeep, Hsv, Hregs.
Qed.

(** [swtch] continues the context it loads; and a context that was switched
    away from goes on with the registers it had ([ra], [sp], [s0] to [s11])
    when a later [swtch], on any hart, loads it again. *)
Theorem swtch_roundtrip s old po new pn :
  a_regs s A0 = old → a_regs s A1 = new → maps mmu (a_csrs s Satp) old po 112 → maps mmu (a_csrs s Satp) new pn 112 →
  po + 112 ≤ pn ∨ pn + 112 ≤ po → regs_ok s → mem_ok (a_mem s) →
  wp (run mmu swtch_code) s (fun l s1 =>
    l = Some Returned ∧ mem_ok (a_mem s1) ∧ (∀ r o, ctx_slot r = Some o → a_regs s1 r = load64 (a_mem s) (pn + o)) ∧
    (∀ r, ctx_slot r = None → a_regs s1 r = a_regs s r) ∧
    ∀ s2 other pq, regs_ok s2 → mem_ok (a_mem s2) → a_regs s2 A0 = other → a_regs s2 A1 = old →
      maps mmu (a_csrs s2 Satp) other pq 112 → maps mmu (a_csrs s2 Satp) old po 112 →
      pq + 112 ≤ po ∨ po + 112 ≤ pq →
      (∀ r o, ctx_slot r = Some o → load64 (a_mem s2) (po + o) = load64 (a_mem s1) (po + o)) →
      wp (run mmu swtch_code) s2 (fun l s3 =>
        l = Some Returned ∧ ∀ r o, ctx_slot r = Some o → a_regs s3 r = a_regs s r)).
Proof.
  intros H0 H1 Hmo Hmn Hd Hr Hok. eapply wp_mono; [by apply (wp_swtch_code mmu s old po new pn)|].
  intros l s1 (-> & _ & Hok1 & Hregs & Hsv & _). split; [done|]. split; [done|].
  split; [intros r o Ho; by rewrite Hregs, Ho|]. split; [intros r Ho; by rewrite Hregs, Ho|].
  intros s2 other pq Hr2 Hok2 G0 G1 Gm Gmo Gd Hkeep.
  eapply wp_mono; [by apply (wp_swtch_code mmu s2 other pq old po)|].
  intros l s3 (-> & _ & _ & Hregs3 & _). split; [done|]. intros r o Ho. rewrite Hregs3, Ho, (Hkeep r o Ho).
  by apply Hsv.
Qed.

End machine.

(** ** Boot *)

Section boot.
Context (stack0 timer_scratch main_addr timervec : Z).

(** The scratch areas and the device do not overlap, and all addresses are
    64-bit. *)
Definition boot_layout : Prop :=
  0 ≤ stack0 ∧ stack0 + 4096 * NCPU < 2 ^ 64 ∧ 0 ≤ main_addr < 2 ^ 64 ∧ 0 ≤ timervec < 2 ^ 64 ∧
  CLINT + 49152 ≤ timer_scratch ∧ timer_scratch + 40 * NCPU ≤ 2 ^ 64.

Lemma timer_layout_boot id :
  boot_layout → 0 ≤ id < NCPU → timer_layout (timer_scratch + 40 * id) (CLINT_MTIMECMP id).
Proof. unfold boot_layout, timer_layout, CLINT_MTIMECMP, CLINT, NCPU. lia. Qed.

Lemma wp_timerinit id s Q :
  boot_layout → a_csrs s Mhartid = id → 0 ≤ id < NCPU → mem_ok (a_mem s) →
  (∀ s', a_regs s' = a_regs s → timer_ok (timer_scratch + 40 * id) (CLINT_MTIMECMP id) s' → mem_ok (a_mem s') →
     load64 (a_mem s') (CLINT_MTIMECMP id) = u64 (load64 (a_mem s) CLINT_MTIME + 1000000) →
     a_csrs s' Mtvec = timervec → a_csrs s' Mstatus = u64 (Z.lor (a_csrs s Mstatus) MSTATUS_MIE) →
     a_csrs s' Mie = u64 (Z.lor (a_csrs s Mie) MIE_MTIE) →
     (∀ c, c ∉ [Mscratch; Mtvec; Mstatus; Mie] → a_csrs s' c = a_csrs s c) → Q tt s') →
  wp (timerinit timer_scratch timervec) s Q.
Proof.
  intros HL Hid Hr Hok HQ. pose proof (timer_layout_boot id HL Hr) as (L1 & L2 & L3 & L4 & L5).
  unfold boot_layout, NCPU in *. unfold timerinit, getc, setc, pld, pst. wp_simpl. rewrite Hid, i32_small by lia.
  apply HQ; asm_state; [done|split; [|split]; asm_state|by repeat apply mem_ok_store64| |apply u64_small; lia|done|done|].
  - apply u64_small. lia.
  - rewrite load_store64_disjoint, load_store64_same, u64_small by (rewrite ?u64_small; lia). done.
  - rewrite load_store64_same; done.
  - rewrite !load_store64_disjoint by lia. apply load_store64_same. apply Z.mod_pos_bound. lia.
  - intros c Hc. rewrite !not_elem_of_cons in Hc. destruct Hc as (? & ? & ? & ? & _). by rewrite !upd_ne.
Qed.

Lemma land_u64 x m : 0 ≤ m < 2 ^ 64 → Z.land (u64 x) m = Z.land x m.
Proof.
  intros Hm. change (u64 x) with (x mod 2 ^ 64). rewrite <- Z.land_ones, <- Z.land_assoc, (Z.land_comm (Z.ones 64)), Z.land_ones by lia.
  by rewrite Z.mod_small.
Qed.

Lemma mpp_supervisor x :
  Z.land (u64 (Z.lor (u64 (Z.lor (Z.land x (Z.lnot MSTATUS_MPP_MASK)) MSTATUS_MPP_S)) MSTATUS_MIE)) MSTATUS_MPP_MASK =
  MSTATUS_MPP_S.
Proof.
  rewrite land_u64 by done. rewrite Z.land_lor_distr_l, land_u64 by done. rewrite Z.land_lor_distr_l, <- Z.land_assoc.
  rewrite (Z.land_comm (Z.lnot _)), Z.land_lnot_diag, Z.land_0_r. done.
Qed.

(** A bit that was set stays set. *)
Lemma lor_u64 x m : 0 ≤ m < 2 ^ 64 → Z.land (u64 (Z.lor x m)) m = m.
Proof. intros Hm. rewrite land_u64, Z.land_lor_distr_l, Z.land_diag by done. apply Z.bits_inj'. intros n Hn. rewrite Z.lor_spec, Z.land_spec. btauto. Qed.

(** Timer interrupts are on, those of the supervisor are delegated to it and on,
    and it may access all of memory. *)
Record interrupts_on (s : astate) : Prop := {
  io_mie : Z.land (a_csrs s Mstatus) MSTATUS_MIE = MSTATUS_MIE;
  io_timer : Z.land (a_csrs s Mie) MIE_MTIE = MIE_MTIE;
  io_deleg : a_csrs s Medeleg = 65535 ∧ a_csrs s Mideleg = 65535;
  io_sie : let all := Z.lor (Z.lor SIE_SEIE SIE_STIE) SIE_SSIE in Z.land (a_csrs s Sie) all = all;
  io_pmp : a_csrs s Pmpaddr0 = 18014398509481983 ∧ a_csrs s Pmpcfg0 = 15
}.

Lemma wp_start id s :
  boot_layout → a_csrs s Mhartid = id → 0 ≤ id < NCPU → mem_ok (a_mem s) →
  wp (start timer_scratch main_addr timervec) s (fun l s2 =>
    l = Mreturned ∧ a_csrs s2 Mepc = main_addr ∧ Z.land (a_csrs s2 Mstatus) MSTATUS_MPP_MASK = MSTATUS_MPP_S ∧
    a_csrs s2 Satp = 0 ∧ a_regs s2 Tp = id ∧ a_regs s2 Sp = a_regs s Sp ∧ a_csrs s2 Mtvec = timervec ∧
    timer_ok (timer_scratch + 40 * id) (CLINT_MTIMECMP id) s2 ∧
    load64 (a_mem s2) (CLINT_MTIMECMP id) = u64 (load64 (a_mem s) CLINT_MTIME + 1000000) ∧ interrupts_on s2).
Proof.
  intros HL Hid Hr Hok. unfold start, getc, setc, setr. wp_simpl.
  eapply wp_timerinit; [done|asm_state; done|done|done|]. intros s2 Er Ht Hok2 Hc Hv Hms Hmie Hcs. wp_simpl.
  asm_state. revert Hc Hms Hmie Hcs. asm_state. rewrite Er. asm_state. intros Hc Hms Hmie Hcs.
  split; [done|]. rewrite (Hcs Mepc), (Hcs Satp), (Hcs Mhartid) by (by apply (bool_decide_unpack _)).
  rewrite Hms. asm_state.
  destruct HL as (_ & _ & H1 & _). unfold NCPU in *.
  split; [by apply u64_small|]. split; [apply mpp_supervisor|]. split; [done|].
  split; [asm_state; rewrite Hid, i32_small, u64_small by lia; done|]. do 4 (split; [done|]).
  split; asm_state; [rewrite Hms; by apply lor_u64|rewrite Hmie; by apply lor_u64| | |];
    rewrite !Hcs by (by apply (bool_decide_unpack _)); asm_state; [done| |done].
  rewrite <- (Z.lor_assoc _ SIE_SEIE), <- (Z.lor_assoc _ (Z.lor SIE_SEIE SIE_STIE)). by apply lor_u64.
Qed.

(** C24. Hart [id] comes out of [_entry] and [start] in supervisor mode at [main],
    on a stack of its own, with its number in [tp] and paging off.  Timer
    interrupts are enabled and the first one is due; those for the supervisor are
    enabled and delegated to it.  Every timer interrupt after that moves the next
    one by the interval and asks for a software interrupt, and restores every
    register it used. *)
Theorem boot_correct id s :
  boot_layout → a_csrs s Mhartid = id → 0 ≤ id < NCPU → mem_ok (a_mem s) →
  wp (run bare (entry_code stack0)) s (fun l s1 =>
    l = Some (Called "start") ∧ a_regs s1 Sp = stack0 + 4096 * (id + 1) ∧
    wp (start timer_scratch main_addr timervec) s1 (fun l s2 =>
      l = Mreturned ∧ a_csrs s2 Mepc = main_addr ∧ Z.land (a_csrs s2 Mstatus) MSTATUS_MPP_MASK = MSTATUS_MPP_S ∧
      a_csrs s2 Satp = 0 ∧ a_regs s2 Tp = id ∧ a_regs s2 Sp = a_regs s1 Sp ∧ a_csrs s2 Mtvec = timervec ∧
      timer_ok (timer_scratch + 40 * id) (CLINT_MTIMECMP id) s2 ∧
      load64 (a_mem s2) (CLINT_MTIMECMP id) = u64 (load64 (a_mem s) CLINT_MTIME + 1000000) ∧ interrupts_on s2 ∧
      ∀ s3, timer_ok (timer_scratch + 40 * id) (CLINT_MTIMECMP id) s3 → regs_ok s3 → mem_ok (a_mem s3) →
        wp (run bare timervec_code) s3 (fun l s4 =>
          l = Some Mreturned ∧ (∀ r, a_regs s4 r = a_regs s3 r) ∧ a_csrs s4 Sip = 2 ∧
          timer_ok (timer_scratch + 40 * id) (CLINT_MTIMECMP id) s4 ∧
          load64 (a_mem s4) (CLINT_MTIMECMP id) = u64 (load64 (a_mem s3) (CLINT_MTIMECMP id) + 1000000)))).
Proof.
  intros HL Hid Hr Hok. pose proof (timer_layout_boot id HL Hr) as HT. pose proof HL as (B1 & B2 & _).
  unfold NCPU in *. unfold entry_code. do 7 asm_step. rewrite Hid.
  assert (u64 (u64 stack0 + u64 (u64 (1024 * 4) * u64 (u64 id + 1))) = stack0 + 4096 * (id + 1)) as Hsp.
  { rewrite (u64_small id), (u64_small (id + 1)), (u64_small stack0), (u64_small (1024 * 4)) by lia.
    rewrite (u64_small (1024 * 4 * _)), u64_small; lia. }
  rewrite Hsp. split; [done|]. split; [done|]. eapply wp_mono; [by apply (wp_start id)|].
  intros l s2 (-> & H1 & H2 & H3 & H4 & H5 & H6 & H7 & H8 & H9). asm_state. revert H5. asm_state. rewrite ?Hid, ?Hsp. intros H5.
  do 10 (split; [done|]). intros s3 G1 G2 G3. eapply wp_mono; [by apply (wp_timervec _ _ s3 HT)|].
  intros l s4 (-> & K1 & K2 & _ & K3 & _ & K4 & _). done.
Qed.

End boot.

(** ** Examples *)

Definition sample_regs (r : reg) : Z := 4096 + tf_slot r.
Definition sample_hart : astate := AState sample_regs (fun _ => 0) ∅.

Lemma sample_regs_ok : regs_ok sample_hart.
Proof. intros r. cbn. unfold sample_regs. pose proof (tf_slot_range r). lia. Qed.

Lemma sample_mem_ok : mem_ok (a_mem sample_hart).
Proof. intros a b H. cbn in H. by rewrite lookup_empty in H. Qed.

Lemma trampoline_roundtrip_witness :
  wp (run bare uservec_code) sample_hart (fun l s1 =>
    wp (run bare userret_code) (AState (fun _ => 0) (fun _ => 0) (a_mem s1)) (fun l s3 =>
      l = Some Sreturned ∧ a_regs s3 S5 = sample_regs S5 ∧ a_regs s3 A0 = sample_regs A0)).
Proof.
  eapply wp_mono.
  - apply (trampoline_roundtrip bare sample_hart TRAPFRAME);
      [by apply bare_maps|apply sample_regs_ok|apply sample_mem_ok|cbn; lia].
  - intros l s1 (_ & _ & _ & _ & Hok & _ & H). eapply wp_mono; [by apply H|]. intros l' s3 (-> & _ & _ & Hr).
    split; [done|]. split; by apply Hr.
Defined.

Lemma kernelvec_roundtrip_witness :
  wp (run bare kernelvec_code) sample_hart (fun l s1 =>
    wp (run bare kernelvec_return) (AState (fun _ => a_regs s1 Sp) (a_csrs s1) (a_mem s1)) (fun l s3 =>
      l = Some Sreturned ∧ a_regs s3 T6 = sample_regs T6 ∧ a_regs s3 Sp = sample_regs Sp)).
Proof.
  eapply wp_mono.
  - apply (kernelvec_roundtrip bare sample_hart (sample_regs Sp - 256));
      [by apply bare_maps|apply sample_regs_ok|apply sample_mem_ok].
  - intros l s1 (_ & Hok & Hsat & _ & H). eapply wp_mono; [by apply H|]. intros l' s3 (-> & _ & Hr).
    split; [done|]. split; by apply Hr.
Defined.

Definition switch_hart (old new : Z) (m : gmap Z Z) : astate :=
  AState (upd A0 old (upd A1 new sample_regs)) (fun _ => 0) m.

Lemma switch_hart_ok old new m : 0 ≤ old < 2 ^ 64 → 0 ≤ new < 2 ^ 64 → regs_ok (switch_hart old new m).
Proof.
  intros Ho Hn r. pose proof (sample_regs_ok r) as Hr. cbn. unfold upd. case_decide; [done|]. by case_decide.
Qed.

Lemma swtch_roundtrip_witness :
  wp (run bare swtch_code) (switch_hart 8192 12288 ∅) (fun l s1 =>
    wp (run bare swtch_code) (switch_hart 12288 8192 (a_mem s1)) (fun l s3 =>
      l = Some Returned ∧ a_regs s3 S3 = sample_regs S3)).
Proof.
  eapply wp_mono.
  - apply (swtch_roundtrip bare (switch_hart 8192 12288 ∅) 8192 8192 12288 12288);
      [done|done|by apply bare_maps|by apply bare_maps|by left|by apply switch_hart_ok|apply sample_mem_ok].
  - intros l s1 (_ & Hok & _ & _ & H). eapply wp_mono.
    + apply (H (switch_hart 12288 8192 (a_mem s1)) 12288 12288);
        [apply switch_hart_ok; lia|exact Hok|reflexivity|reflexivity|apply bare_maps; lia|apply bare_maps; lia|lia|reflexivity].
    + intros l' s3 (-> & Hr). split; [done|]. by apply (Hr S3 40).
Defined.

Lemma boot_correct_witness :
  wp (run bare (entry_code 2147500032)) (AState sample_regs (fun _ => 1) ∅) (fun l s1 =>
    a_regs s1 Sp = 2147508224 ∧
    wp (start 2147540992 2147484000 2147483900) s1 (fun _ s2 => a_csrs s2 Mepc = 2147484000 ∧ a_regs s2 Tp = 1)).
Proof.
  eapply wp_mono.
  - apply (boot_correct 2147500032 2147540992 2147484000 2147483900 1); [|done|done|apply sample_mem_ok].
    unfold boot_layout, CLINT, NCPU. lia.
  - intros l s1 (_ & H & H2). split; [exact H|]. eapply wp_mono; [exact H2|].
    intros l2 s2 (_ & H3 & _ & _ & H4 & _). done.
Defined.
