(* ===== verification/PipeFacts.v ===== *)
(** * Pipes: the ring is a queue

    [pipe_is p q] says that the ring of [p] holds the bytes [q], oldest first.
    The two counters wrap around at 2^32, a multiple of the ring's size, so that
    only their difference matters. *)

From Stdlib Require Import ZArith Lia.
From stdpp Require Import base gmap strings numbers list.
From S2P Require Import Prelude Spinlock Mem Kstring Kalloc Vm PageTable VmFacts Uvm UvmAlloc CopyUser Proc ProcLife ProcFacts ProcOps Exit Sched FsState Sleeplock FsFacts Sample CritSec Pipe.
Local Open Scope xv6_scope.

Record pipe_is (p : pipe) (q : list Z) : Prop := {
  pq_size : length (pi_data p) = 512%nat;
  pq_data : ring_has (pi_data p) (pi_nread p) q;
  pq_nread : 0 ≤ pi_nread p < 2 ^ 32;
  pq_nwrite : pi_nwrite p = u32 (pi_nread p + Z.of_nat (length q))
}.

Lemma pq_full p q : pipe_is p q → (length q ≤ 512)%nat.
Proof. intros [H1 [H2 _] _ _]. by rewrite H1 in H2. Qed.

(** What the code tests. *)
Lemma pipe_is_full p q : pipe_is p q →
  (pi_nwrite p =? u32 (pi_nread p + PIPESIZE)) = bool_decide (length q = 512%nat).
Proof.
  intros H. pose proof (pq_full _ _ H). destruct H as [H1 _ H3 H4]. rewrite H4. unfold PIPESIZE. case_bool_decide as H.
  - apply Z.eqb_eq. by rewrite H.
  - apply Z.eqb_neq. zlia.
Qed.

Lemma pipe_is_empty p q : pipe_is p q → (pi_nread p =? pi_nwrite p) = bool_decide (q = []).
Proof.
  intros H. pose proof (pq_full _ _ H). destruct H as [H1 _ H3 H4]. rewrite H4. destruct q as [|b q]; cbn [length] in *.
  - rewrite bool_decide_true by done. apply Z.eqb_eq. zlia.
  - rewrite bool_decide_false by done. apply Z.eqb_neq. zlia.
Qed.

Definition push_byte (b : Z) (p : pipe) : pipe :=
  p <| pi_data ::= <[Z.to_nat (pi_nwrite p mod PIPESIZE) := b]> |> <| pi_nwrite ::= fun n => u32 (n + 1) |>.
Definition pop_byte (p : pipe) : pipe := p <| pi_nread ::= fun n => u32 (n + 1) |>.

Lemma pipe_is_push p q b : pipe_is p q → (length q < 512)%nat → pipe_is (push_byte b p) (q ++ [b]).
Proof.
  intros [H1 H2 H3 H4] Hlt. unfold push_byte, PIPESIZE. rewrite H4.
  assert (u32 (pi_nread p + Z.of_nat (length q)) mod 512 = (pi_nread p + Z.of_nat (length q)) mod 512) as -> by zlia.
  split; cbn; rewrite ?length_insert, ?length_app; cbn [length]; [done| |done|rewrite H4; zlia].
  change 512 with (Z.of_nat 512). rewrite <- H1. apply ring_has_push; [done|by rewrite H1].
Qed.

Lemma pipe_is_pop p q b : pipe_is p (b :: q) →
  pi_data p !! Z.to_nat (pi_nread p mod PIPESIZE) = Some b ∧ pipe_is (pop_byte p) q.
Proof.
  intros [H1 H2 H3 H4]. apply ring_has_pop in H2 as [Hb H2]. cbn [length] in *. rewrite H1 in Hb. split; [done|].
  split; cbn; [done| |zlia|rewrite H4; zlia]. eapply ring_has_wrap; [|exact H2]. rewrite H1. zlia.
Qed.

Section pipe.
Context `{KI : KernelImage}.
Implicit Types s : KS.

(** The pipe at [pi] holds [q]; its ends are open or not. *)
Definition queue (pi : Z) (q : list Z) (ro wo : Z) (s : KS) : Prop :=
  ∃ p, fs_pipe (ks_fs s) !! pi = Some p ∧ pipe_is p q ∧ pi_readopen p = ro ∧ pi_writeopen p = wo.

(** Waking others, sleeping and waking change neither the queue nor the memory. *)
Lemma queue_eq pi q ro wo s s' : ks_fs s' = ks_fs s → queue pi q ro wo s → queue pi q ro wo s'.
Proof. intros E. unfold queue. by rewrite E. Qed.

(** ** Writing *)

(** What readers do while the writer sleeps, the ring being full: with no reader
    asleep any more, they take [k] bytes off the front of the queue and wake the
    writer; they leave its memory alone. *)
Definition drains (i : nat) (pi : Z) (T : tbl) (addr : Z) (bs : list Z) (x : (KS → KS) * nat) : Prop :=
  ∀ m s q ro wo, inside (L_proc i) i (L_pipe pi) m s → queue pi q ro wo s → length q = 512%nat → sends i T addr bs s →
    sleeps_on (C_nwrite pi) i s → none_asleep (C_nread pi) i s →
    ∃ m', inside (L_proc i) i (L_pipe pi) m' (fst x s) ∧ queue pi (drop (snd x) q) ro wo (fst x s) ∧ sends i T addr bs (fst x s).

Lemma wp_getpipe pi p s Q : fs_pipe (ks_fs s) !! pi = Some p → Q p s → wp (getpipe pi) s Q.
Proof. intros Hp HQ. unfold getpipe. wp_simpl. by rewrite Hp. Qed.

Definition upd_pipe (pi : Z) (f : pipe → pipe) (fs : fsstate) : fsstate := fs <| fs_pipe ::= alter f pi |>.

Lemma wp_updpipe pi f p s Q :
  fs_pipe (ks_fs s) !! pi = Some p → Q tt (fsk (upd_pipe pi f) s) → wp (updpipe pi f) s Q.
Proof. intros Hp HQ. unfold updpipe. wp_simpl. eapply wp_getpipe; [done|]. exact HQ. Qed.

Lemma queue_upd pi f p q ro wo s :
  fs_pipe (ks_fs s) !! pi = Some p → pipe_is (f p) q → pi_readopen (f p) = ro → pi_writeopen (f p) = wo →
  queue pi q ro wo (fsk (upd_pipe pi f) s).
Proof. intros Hp Hq Hr Hw. exists (f p). cbn. by rewrite lookup_alter_eq, Hp. Qed.

Lemma inside_sleeps i pi T addr bs m s q ro wo ev k :
  inside (L_pipe pi) i (L_pipe pi) m s → queue pi q ro wo s → length q = 512%nat → sends i T addr bs s →
  none_asleep (C_nread pi) i s → drains i pi T addr bs (ev, k) →
  ∃ m', inside (L_proc i) i (L_pipe pi) m' (ev (parked (C_nwrite pi) i m s)) ∧
    ∀ m2, let s2 := resumed (L_pipe pi) i m2 (ev (parked (C_nwrite pi) i m s)) in
      queue pi (drop k q) ro wo s2 ∧ sends i T addr bs s2.
Proof.
  intros Hs Hq Hf Hb Hn Hd. destruct (Hd m (parked (C_nwrite pi) i m s) q ro wo) as (m' & H1 & H2 & H3); cbn [fst snd] in *.
  - by apply inside_parked.
  - by apply (queue_eq _ _ _ _ s).
  - done.
  - by apply (sends_alter _ _ _ _ (asleep (C_nwrite pi))).
  - by eapply sleeps_parked.
  - by apply none_asleep_parked.
  - exists m'. split; [done|]. intros m2. split; [by apply (queue_eq _ _ _ _ (ev (parked (C_nwrite pi) i m s)))|].
    by apply (sends_alter _ _ _ _ awake).
Qed.

(** The bytes that the first [c] of the readers' turns take. *)
Definition taken (rs : list ((KS → KS) * nat)) (c : nat) : nat := sum_list (take c rs).*2.

Lemma wp_pipewrite_loop fuel i pi T addr bs ro wo Q : ro ≠ 0 → 0 ≤ addr → addr + Z.of_nat (length bs) ≤ 2 ^ 64 →
  ∀ m s rs q j, inside (L_pipe pi) i (L_pipe pi) m s → queue pi q ro wo s → sends i T addr bs s →
  Forall (drains i pi T addr bs) rs → Forall (fun x => snd x ≤ 512)%nat rs →
  (length q + length bs ≤ 512 + sum_list rs.*2 + j)%nat →
  (length bs - j + length rs < fuel)%nat → (j ≤ length bs)%nat →
  (∀ m' s' c, inside (L_pipe pi) i (L_pipe pi) m' s' → (c ≤ length rs)%nat → queue pi (drop (taken rs c) (q ++ drop j bs)) ro wo s' →
     (length q + length bs ≤ 512 + j → c = 0)%nat →
     Q (Some (Z.of_nat (length bs))) (World s' (drop c rs.*1))) →
  wp (pipewrite_loop fuel i pi addr (Z.of_nat (length bs)) (Z.of_nat j)) (World s rs.*1) Q.
Proof.
  intros Hro H0 Hmax. induction fuel as [|fuel IH]; intros m s rs q j Hs Hq Hb He Hle Hroom Hf Hj HQ; [lia|].
  cbn [pipewrite_loop]. destruct (Z.ltb_spec (Z.of_nat j) (Z.of_nat (length bs))) as [Hlt|Hge]; cbn [negb].
  2:{ wp_simpl. replace j with (length bs) in * by lia.
      apply (HQ m s 0%nat); [done|lia| |done]. by rewrite drop_all, app_nil_r. }
  destruct Hq as (p & Hp & Hpq & Hpr & Hpw). pose proof Hb as (pr & Hpr' & Hk & _).
  wp_simpl. eapply wp_getpipe; [exact Hp|].
  destruct (Z.eqb_spec (pi_readopen p) 0) as [?|_]; [congruence|]. wp_simpl.
  eapply (wp_killed_in i (L_pipe pi) m); [done|exact Hpr'|]. rewrite Hk. change (truthy 0) with false. wp_simpl. cbn iota.
  wp_simpl. eapply wp_getpipe; [exact Hp|]. rewrite (pipe_is_full p q) by done. case_bool_decide as Hfull; wp_simpl.
  - apply (wp_wakeup_in _ i (L_pipe pi) m); [done|]. intros Hs1. wp_simpl.
    destruct rs as [|[ev k] rs]; [cbn in Hroom; lia|]. apply Forall_cons in He as [Hev Hes]. apply Forall_cons in Hle as [Hk' Hle].
    destruct (inside_sleeps i pi T addr bs m (upd_procs (imap (wake (C_nread pi) (Some i))) s) q ro wo ev k)
      as (m' & Hs2 & Hres); [done|by eexists|done|by apply sends_wake|apply none_asleep_wake|done|].
    eapply (wp_sleep_in _ _ _ m); [done|exact Hs2|]. intros r m2 s2 Hs3. destruct (Hres m2) as [Hq2 Hb2].
    cbn [length fmap list_fmap sum_list_with id fst snd] in *.
    eapply IH; [exact Hs3|exact Hq2|done|done|done|rewrite length_drop; lia|lia|done|].
    intros m3 s3 c H1 Hc H2 H4. apply (HQ m3 s3 (S c)); [done|lia| |lia].
    unfold taken in *. cbn [take fmap list_fmap sum_list_with id snd]. rewrite <- drop_drop, drop_app_le by lia. exact H2.
  - eapply wp_getp; [exact Hpr'|]. wp_simpl. destruct (lookup_lt_is_Some_2 bs j) as [b Hbj]; [lia|].
    eapply (wp_copyin_byte i T addr bs j b); [done|done|done|done|done|]. cbn. wp_simpl.
    eapply wp_updpipe; [exact Hp|]. fold (push_byte b). wp_simpl.
    replace (Z.of_nat j + 1) with (Z.of_nat (S j)) by lia. pose proof (pq_full _ _ Hpq).
    eapply (IH m _ rs (q ++ [b])); [by apply inside_fsk| |done|done|done|rewrite length_app; cbn; lia|lia|lia|].
    { eapply queue_upd; [exact Hp|by apply pipe_is_push; [|lia]|done|done]. }
    intros m3 s3 c H1 Hc H2 H4. apply (HQ m3 s3 c); [done|done| |rewrite length_app in H4; cbn in H4; lia].
    rewrite <- app_assoc in H2. cbn in H2. by rewrite (drop_S bs b j) by done.
Qed.

Lemma queue_equiv pi q ro wo s s' : s' ≡ s → queue pi q ro wo s → queue pi q ro wo s'.
Proof. intros H. apply queue_eq. by apply frame_equiv. Qed.

(** ** Reading *)

(** The outcome of reading at most [n] bytes of [q] into user memory: [k] bytes
    arrive; if the next address is inaccessible, the byte for it is lost. *)
Definition received (m0 : gmap Z Z) (T : tbl) (addr : Z) (n : nat) (q : list Z) (m : gmap Z Z)
    (r : Z) (q' : list Z) (m' : gmap Z Z) : Prop :=
  ∃ k, r = Z.of_nat k ∧ uwrite m0 T m addr (take k q) = (true, m') ∧
    ((k = n `min` length q ∧ q' = drop k q) ∨
     (k < n `min` length q ∧ uaddr m0 T (addr + Z.of_nat k)%Z = 0%Z ∧ q' = drop (S k) q))%nat.

Lemma wp_piperead_loop fuel i pi T m0 addr n ro wo m Q : 0 ≤ addr → addr + Z.of_nat n ≤ 2 ^ 64 →
  ∀ s q j, inside (L_pipe pi) i (L_pipe pi) m s → queue pi q ro wo s → receives i T m0 addr n s → bytes q →
  (j ≤ n)%nat → (n - j < fuel)%nat →
  (∀ r s' q', inside (L_pipe pi) i (L_pipe pi) m s' → queue pi q' ro wo s' → ks_proc s' = ks_proc s →
     received m0 T (addr + Z.of_nat j) (n - j) q (k_mem (ks_k s)) r q' (k_mem (ks_k s')) →
     Q (Z.of_nat j + r) s') →
  wp (piperead_loop fuel i pi addr (Z.of_nat n) (Z.of_nat j)) s Q.
Proof.
  intros H0 Hmax. induction fuel as [|fuel IH]; intros s q j Hs Hq Hu Hb Hj Hf HQ; [lia|]. cbn [piperead_loop].
  destruct (Z.ltb_spec (Z.of_nat j) (Z.of_nat n)) as [Hlt|Hge]; cbn [negb].
  2:{ wp_simpl. rewrite <- (Z.add_0_r (Z.of_nat j)). apply (HQ 0 s q); [done..|].
      exists 0%nat. split; [done|]. split; [done|]. left. split; [lia|done]. }
  pose proof Hq as (p & Hp & Hpq & Hpr & Hpw). pose proof Hu as (pr & Hpr' & _).
  wp_simpl. eapply wp_getpipe; [exact Hp|]. rewrite (pipe_is_empty p q) by done. case_bool_decide as Hemp; wp_simpl.
  { rewrite <- (Z.add_0_r (Z.of_nat j)). apply (HQ 0 s q); [done..|].
    exists 0%nat. split; [done|]. split; [done|]. left. subst q. split; [cbn; lia|done]. }
  destruct q as [|b q]; [done|]. apply Forall_cons in Hb as [Hb Hbs].
  destruct (pipe_is_pop p q b Hpq) as [-> Hpq']. wp_simpl. eapply wp_updpipe; [exact Hp|]. fold pop_byte.
  assert (queue pi q ro wo (fsk (upd_pipe pi pop_byte) s)) as Hq2 by (by eapply queue_upd).
  wp_simpl. eapply wp_getp; [exact Hpr'|]. wp_simpl.
  apply (wp_copyout_byte i T m0 addr n j b pr); [done|done|lia|done|done|done|intros E|intros E m' Hu'].
  - cbn. wp_simpl. rewrite <- (Z.add_0_r (Z.of_nat j)). apply (HQ 0 _ q); [by apply inside_fsk|done|done|].
    exists 0%nat. split; [done|]. split; [done|]. right. rewrite Z.add_0_r. split; [cbn; lia|done].
  - cbn. wp_simpl. replace (Z.of_nat j + 1) with (Z.of_nat (S j)) by lia.
    apply (IH _ q); [by apply inside_mem, inside_fsk|done|done|done|lia|lia|].
    intros r s' q' H1 H2 H3 H4. replace (Z.of_nat (S j) + r) with (Z.of_nat j + (r + 1)) by lia.
    apply (HQ (r + 1) s' q'); [done|done|done|]. destruct H4 as (k & -> & Hw & Hk). exists (S k). split; [lia|].
    replace (addr + Z.of_nat (S j)) with (addr + Z.of_nat j + 1) in * by lia. split.
    { cbn. destruct (Z.eqb_spec (uaddr m0 T (addr + Z.of_nat j)) 0); [done|]. exact Hw. }
    replace (addr + Z.of_nat j + Z.of_nat (S k)) with (addr + Z.of_nat j + 1 + Z.of_nat k) by lia.
    destruct Hk as [[Hk ->]|(Hk & Ha & ->)]; [left|right]; cbn [length drop]; (split; [lia|done]).
Qed.

(** What a writer has done when the reader wakes: the bytes now in the queue,
    what became of the flag for the writing end, and of the memory. *)
Record arrival := Arrival { ar_queue : list Z; ar_open : Z → Z; ar_mem : gmap Z Z → gmap Z Z }.

Definition unkilled (i : nat) (s : KS) : Prop := ∃ p, ks_proc s !! i = Some p ∧ p_killed p = 0.

(** A turn of the writers while the reader sleeps on the empty pipe. *)
Definition fills (i : nat) (pi : Z) (T : tbl) (m0 : gmap Z Z) (addr : Z) (n : nat) (x : (KS → KS) * arrival) : Prop :=
  ∀ m s ro wo, inside (L_proc i) i (L_pipe pi) m s → queue pi [] ro wo s → wo ≠ 0 →
    receives i T m0 addr n s → unkilled i s → sleeps_on (C_nread pi) i s →
    ∃ m', inside (L_proc i) i (L_pipe pi) m' (fst x s) ∧ queue pi (ar_queue (snd x)) ro (ar_open (snd x) wo) (fst x s) ∧
      receives i T m0 addr n (fst x s) ∧ unkilled i (fst x s) ∧ k_mem (ks_k (fst x s)) = ar_mem (snd x) (k_mem (ks_k s)).

(** How often the reader sleeps, and what it finds then. *)
Fixpoint awaited (q : list Z) (wo : Z) (mem : gmap Z Z) (xs : list arrival) : option (nat * list Z * Z * gmap Z Z) :=
  if negb (bool_decide (q = [])) || (wo =? 0) then Some (0%nat, q, wo, mem) else
  match xs with
  | [] => None
  | x :: xs =>
    match awaited (ar_queue x) (ar_open x wo) (ar_mem x mem) xs with
    | Some (c, q', wo', mem') => Some (S c, q', wo', mem')
    | None => None
    end
  end.

Lemma wp_piperead_wait i pi T m0 addr n ro xs : ∀ fuel s m q wo c q1 wo1 mem1 Q,
  inside (L_pipe pi) i (L_pipe pi) m s → queue pi q ro wo s → receives i T m0 addr n s → (q = [] → wo ≠ 0 → unkilled i s) →
  bytes q → Forall (fun x => bytes (ar_queue (snd x))) xs → Forall (fills i pi T m0 addr n) xs →
  awaited q wo (k_mem (ks_k s)) xs.*2 = Some (c, q1, wo1, mem1) → fuel = S (length xs) →
  (∀ m' s', inside (L_pipe pi) i (L_pipe pi) m' s' → queue pi q1 ro wo1 s' → receives i T m0 addr n s' → bytes q1 →
     k_mem (ks_k s') = mem1 → (c = 0%nat → s' = s ∧ m' = m) → Q true (World s' (drop c xs.*1))) →
  wp (piperead_wait fuel i pi) (World s xs.*1) Q.
Proof.
  induction xs as [|[ev x] xs IH]; intros fuel s m q wo c q1 wo1 mem1 Q Hs Hq Hu Hkill Hby Hbys Hf Haw Hfuel HQ;
    (destruct fuel as [|fuel]; [done|]); injection Hfuel as Hfuel; cbn [piperead_wait]; pose proof Hq as (p & Hp & Hpq & Hpr & Hpw); wp_simpl; (eapply wp_getpipe; [exact Hp|]);
    rewrite (pipe_is_empty p q), Hpw by done; cbn [fmap list_fmap awaited snd] in Haw; case_bool_decide as Hemp; cbn [negb orb andb] in *.
  1, 3: destruct (Z.eqb_spec wo 0) as [->|Hwo].
  all: try (simplify_eq; change (truthy 0) with false; wp_simpl; by apply (HQ m s)).
  - rewrite (proj2 (truthy_true wo)) by done. wp_simpl. destruct (Hkill Hemp Hwo) as (pr & Hpr' & Hk).
    eapply (wp_killed_in i (L_pipe pi) m); [done|exact Hpr'|]. rewrite Hk. change (truthy 0) with false. cbn iota. wp_simpl.
    apply Forall_cons in Hf as [Hev Hf]. apply Forall_cons in Hbys as [Hbx Hbys]. subst q.
    destruct (Hev m (parked (C_nread pi) i m s) ro wo) as (m' & H1 & H2 & (pu & Hpu & Hu2) & (pk & Hpk & Hkk) & H5); cbn [fst snd] in *;
      [by apply inside_parked|by apply (queue_eq _ _ _ _ s)|done| | |by eapply sleeps_parked|].
    { destruct Hu as (pu & Hpu & Hu). exists (asleep (C_nread pi) pu). cbn. by rewrite list_lookup_alter_eq, Hpu. }
    { exists (asleep (C_nread pi) pr). cbn. by rewrite list_lookup_alter_eq, Hpr'. }
    eapply (wp_sleep_in _ _ _ m); [done|exact H1|]. intros r m2 s2 Hs3.
    destruct (awaited _ _ _ xs.*2) as [[[[c' q'] wo'] mem']|] eqn:Haw'; [|done]. injection Haw as <- -> -> ->.
    eapply (IH _ s2 m2 (ar_queue x) (ar_open x wo)); [exact Hs3|by apply (queue_eq _ _ _ _ (ev (parked (C_nread pi) i m s)))| | |done|done|done| |done|].
    + exists (awake pu). cbn. by rewrite list_lookup_alter_eq, Hpu.
    + intros _ _. exists (awake pk). cbn. by rewrite list_lookup_alter_eq, Hpk.
    + cbn. rewrite H5. exact Haw'.
    + intros m3 s3 G1 G2 G3 G4 G5 _. by apply (HQ m3 s3).
Qed.

(** ** Theorems *)

(** C21. [pipewrite] appends the caller's bytes to the queue, in order.  When the
    ring is full it wakes the readers and sleeps, as often as it takes: the only
    bytes that leave the queue are those that the readers take in the turns they
    get meanwhile, off the front; all the others are in the queue in the end, none
    lost or duplicated.  If there is room it does not sleep.  No reader is left
    asleep. *)
Theorem pipewrite_correct i pi T addr bs q ro wo s rs :
  quiet i s → lock_free (L_pipe pi) (ks_mach s) → queue pi q ro wo s → ro ≠ 0 →
  sends i T addr bs s → 0 ≤ addr → addr + Z.of_nat (length bs) ≤ 2 ^ 64 →
  Forall (drains i pi T addr bs) rs → Forall (fun x => snd x ≤ 512)%nat rs →
  (length q + length bs ≤ 512 + sum_list rs.*2)%nat →
  wp (pipewrite pi addr (Z.of_nat (length bs))) (World s rs.*1) (fun r w' =>
    r = Z.of_nat (length bs) ∧
    (∃ c, w_env w' = drop c rs.*1 ∧ queue pi (drop (taken rs c) (q ++ bs)) ro wo (w_k w') ∧
       (c ≤ length rs)%nat ∧ (length q + length bs ≤ 512 → c = 0)%nat) ∧
    none_asleep (C_nread pi) i (w_k w') ∧ runs i (ks_mach (w_k w')) ∧ lock_free (L_pipe pi) (ks_mach (w_k w'))).
Proof.
  intros Hq Hl Hqu Hro Hb H0 Hmax He Hle Hroom. unfold pipewrite. apply (wp_me i); [done|]. intros s1 E1 Hq1.
  wp_simpl. apply (wp_enter i); [by apply quiet_ready|by rewrite E1|done|]. intros Hs1. wp_simpl. cbn [w_env].
  apply (wp_pipewrite_loop _ i pi T addr bs ro wo) with (m := ks_mach s1) (q := q) (j := 0%nat);
    try done; try (rewrite ?length_fmap; lia).
  { apply (queue_eq _ _ _ _ s1); [done|]. by apply (queue_equiv _ _ _ _ s). }
  { exact (sends_equiv _ _ _ _ s s1 E1 Hb). }
  intros m2 s2 c Hs2 Hc Hq2 Hk. wp_simpl. apply (wp_wakeup_in _ i (L_pipe pi) m2); [done|]. intros Hs3. wp_simpl.
  eapply wp_leave; [exact Hs3|]. intros s' Hs'. wp_simpl. split; [done|].
  assert (ks_mach s' ≡ m2) as Hm by (by rewrite Hs'). split; [|split; [|split; [rewrite Hm; apply Hs3|rewrite Hm; apply (in_own _ _ _ _ _ Hs3)]]].
  - exists c. split; [done|]. split; [|split; [done|lia]]. eapply queue_equiv; [exact Hs'|]. by apply (queue_eq _ _ _ _ s2).
  - intros j p Hj. cbn [w_k]. rewrite (ks_proc_proper _ _ Hs'). by apply (none_asleep_wake _ i s2).
Qed.

(** C22. [piperead] sleeps as long as the pipe is empty and has a writer.  Once it
    holds bytes, or has no writer left, the call takes the oldest bytes off the
    queue, as many as there are and fit, and stores them in order in the caller's
    memory.  If it meets an inaccessible address it stops there; the byte meant
    for it is lost.  No writer is left asleep.  A pipe that can be read at once
    is, and then nothing else changes. *)
Theorem piperead_correct i pi T addr n q ro wo s xs c q1 wo1 mem1 (m0 := k_mem (ks_k s)) :
  quiet i s → lock_free (L_pipe pi) (ks_mach s) → queue pi q ro wo s → bytes q → Forall (fun x => bytes (ar_queue (snd x))) xs →
  receives i T m0 addr n s → (q = [] → wo ≠ 0 → unkilled i s) → 0 ≤ addr → addr + Z.of_nat n ≤ 2 ^ 64 →
  Forall (fills i pi T m0 addr n) xs → awaited q wo m0 xs.*2 = Some (c, q1, wo1, mem1) →
  wp (piperead pi addr (Z.of_nat n)) (World s xs.*1) (fun r w' =>
    w_env w' = drop c xs.*1 ∧
    (∃ q', queue pi q' ro wo1 (w_k w') ∧ received m0 T addr n q1 mem1 r q' (k_mem (ks_k (w_k w')))) ∧
    none_asleep (C_nwrite pi) i (w_k w') ∧ runs i (ks_mach (w_k w')) ∧ lock_free (L_pipe pi) (ks_mach (w_k w')) ∧
    (c = 0%nat → woken (ks_proc s) (ks_proc (w_k w')) ∧ ks_mach (w_k w') ≡ ks_mach s)).
Proof.
  intros Hq Hl Hqu Hby Hbys Hu Hkill H0 Hmax Hfill Haw. unfold piperead. apply (wp_me i); [done|]. intros s1 E1 Hq1.
  pose proof (fr_mem _ _ (proj1 (frame_equiv _ _ E1))) as Em. pose proof (ks_proc_proper _ _ E1) as Ep.
  wp_simpl. apply (wp_enter i); [by apply quiet_ready|by rewrite E1|done|]. intros Hs1. wp_simpl. cbn [w_env].
  eapply (wp_piperead_wait i pi T m0 addr n ro xs _ _ (ks_mach s1) q wo); [exact Hs1| | | |done|done|done|by cbn; rewrite Em|by rewrite length_fmap|].
  { apply (queue_eq _ _ _ _ s1); [done|]. by apply (queue_equiv _ _ _ _ s). }
  { exact (receives_equiv _ _ _ _ _ s s1 E1 Hu). }
  { intros H1 H2. destruct (Hkill H1 H2) as (p & Hp & Hk). exists p. cbn. by rewrite Ep. }
  intros m2 s2 Hs2 Hq2 Hu2 Hby2 <- Hc0. cbn [negb]. wp_simpl.
  apply (wp_piperead_loop _ i pi T m0 addr n ro wo1 m2 _ H0 Hmax _ q1 0%nat); try done; try lia.
  intros r s3 q' Hs3 Hq3 Hp3 Hrec. wp_simpl. apply (wp_wakeup_in _ i (L_pipe pi) m2); [done|]. intros Hs4. wp_simpl.
  eapply wp_leave; [exact Hs4|]. intros s' Hs'. wp_simpl. destruct (frame_equiv _ _ Hs') as [Hf Hfs].
  assert (ks_mach s' ≡ m2) as Hm by (by rewrite Hs'). split; [done|]. split_and!; cbn [w_k].
  - exists q'. split; [by apply (queue_eq _ _ _ _ s3)|]. rewrite (fr_mem _ _ Hf), Z.add_0_l.
    by rewrite Z.add_0_r, Nat.sub_0_r in Hrec.
  - intros j p Hj. rewrite (ks_proc_proper _ _ Hs'). by apply (none_asleep_wake _ i s3).
  - rewrite Hm. apply Hs4.
  - rewrite Hm. apply (in_own _ _ _ _ _ Hs4).
  - intros Hc. destruct (Hc0 Hc) as [Es2 ->]. rewrite (ks_proc_proper _ _ Hs'), Hm. split; [|by rewrite E1].
    cbn. rewrite Hp3, Es2. cbn. rewrite <- Ep. apply woken_wake.
Qed.

End pipe.

(** ** Examples *)

#[local] Existing Instance small_image.

(** A pipe at page 4 that holds [n] bytes. *)
Definition ring_of (n : nat) : pipe := Pipe (replicate 512 7) 0 (Z.of_nat n) 1 1.
Definition pipe_fs (n : nat) : fsstate :=
  FsState [] (Log 2 30 0 0 ROOTDEV (Logheader 0 [])) (Superblock FSMAGIC 60 20 10 30 2 32 34) [] []
    {[ page_no 4 := ring_of n ]} (Disk ∅ []) (Vdisk [] [] 0 [] 0 [] 0 [] [] [] false 0) idle_console.

Lemma ring_of_is n : (n ≤ 512)%nat → pipe_is (ring_of n) (replicate n 7).
Proof.
  intros Hn. split; cbn [ring_of pi_data pi_nread pi_nwrite]; rewrite ?length_replicate; [done| |lia|zlia].
  split; rewrite !length_replicate; [done|]. intros j b Hj. apply lookup_replicate in Hj as [-> Hj].
  apply lookup_replicate. split; [done|zlia].
Qed.

Lemma pipe_fs_queue n : (n ≤ 512)%nat → queue (page_no 4) (replicate n 7) 1 1 (user_ks (pipe_fs n)).
Proof. intros Hn. exists (ring_of n). split; [done|]. split; [by apply ring_of_is|done]. Qed.

(** A reader that takes one byte and yields. *)
Definition take_one (s : KS) : KS :=
  fsk (upd_pipe (page_no 4) (fun p => if pi_nread p =? pi_nwrite p then p else pop_byte p))
    (upd_procs (alter chosen 0%nat) s).

Lemma take_one_drains T addr bs : drains 0 (page_no 4) T addr bs (take_one, 1%nat).
Proof.
  intros m s q ro wo Hs (p & Hp & Hpq & Hr & Hw) _ Hb _ _. exists m. cbn [fst snd]. split; [|split].
  - apply inside_fsk, inside_upd; [intros; apply length_alter|done].
  - eapply queue_upd; [exact Hp|..]; rewrite (pipe_is_empty p q Hpq); case_bool_decide as E; try done.
    + by subst q.
    + destruct q as [|b q]; [done|]. by apply (pipe_is_pop p q b).
  - by apply (sends_alter _ _ _ _ chosen).
Qed.

Lemma pipewrite_correct_witness :
  wp (pipewrite (page_no 4) 0 3) (World (user_ks (pipe_fs 511)) [take_one; take_one]) (fun r w' =>
    r = 3 ∧ queue (page_no 4) (replicate 509 7 ++ [104; 105; 33]) 1 1 (w_k w') ∧ w_env w' = []).
Proof.
  eapply wp_mono.
  - apply (pipewrite_correct 0 (page_no 4) user_tbl 0 [104; 105; 33] (replicate 511 7) 1 1 _ [(take_one, 1%nat); (take_one, 1%nat)]);
      [apply user_ks_quiet|by eexists|apply pipe_fs_queue; lia|done| |lia|cbn; lia| |repeat constructor; cbn; lia|cbn; lia].
    + eexists. split; [reflexivity|]. split; [done|]. split; [apply user_pt_rep|]. split; [|by vm_compute].
      intros a Ha _. cbn in Ha. cbn [ks_k k_mem user_ks]. by rewrite user_uaddr by lia.
    + repeat constructor; apply take_one_drains.
  - cbn beta. intros r w' (-> & (c & He & Hq & Hc & _) & _). split; [done|]. pose proof Hq as (p & _ & Hp%pq_full & _).
    rewrite length_drop in Hp. destruct c as [|[|[|c]]]; cbn in Hp, Hc; [lia|lia| |lia]. by split.
Defined.

(** A writer that puts two bytes into the empty ring. *)
Definition put_two (s : KS) : KS :=
  fsk (upd_pipe (page_no 4) (fun p => push_byte 9 (push_byte 8 p))) (upd_procs (alter chosen 0%nat) s).

Definition two_bytes : arrival := Arrival [8; 9] (fun wo => wo) (fun m => m).

Lemma put_two_fills T m0 addr n : fills 0 (page_no 4) T m0 addr n (put_two, two_bytes).
Proof.
  intros m s ro wo Hs (p & Hp & Hpq & Hr & Hw) Hwo (pu & Hpu & Hu) (pk & Hpk & Hk) _. exists m. cbn [fst snd ar_queue ar_open ar_mem].
  split_and!; [| |exists (chosen pu)|exists (chosen pk)|done].
  - apply inside_fsk, inside_upd; [intros; apply length_alter|done].
  - eapply queue_upd; [exact Hp|by apply (pipe_is_push _ [8] 9), Nat.ltb_lt; [apply (pipe_is_push p [] 8), Nat.ltb_lt|]|done|done].
  - cbn. by rewrite list_lookup_alter_eq, Hpu.
  - cbn. by rewrite list_lookup_alter_eq, Hpk.
Qed.

Lemma piperead_correct_witness :
  wp (piperead (page_no 4) 0 4) (World (user_ks (pipe_fs 0)) [put_two]) (fun r w' =>
    r = 2 ∧ queue (page_no 4) [] 1 1 (w_k w') ∧ w_env w' = []).
Proof.
  eapply wp_mono.
  - apply (piperead_correct 0 (page_no 4) user_tbl 0 4 [] 1 1 _ [(put_two, two_bytes)] 1 [8; 9] 1 user_mem);
      [apply user_ks_quiet|by eexists|apply (pipe_fs_queue 0); lia|constructor|repeat constructor; lia| | |lia|cbn; lia| |done].
    + eexists. split; [reflexivity|]. split; [apply user_pt_rep|]. split; [done|].
      intros a Ha _. rewrite user_uaddr by lia. apply page_3_target.
    + intros _ _. by eexists.
    + constructor; [apply put_two_fills|constructor].
  - cbn beta. intros r w' (He & (q' & Hq & k & -> & _ & Hk) & _). 
    destruct Hk as [[-> ->]|(Hk & Ha & _)]; [done|]. change (ks_k (user_ks _)) with (Kst fs_mach user_mem 0) in Ha.
    cbn [k_mem length] in *. rewrite user_uaddr in Ha by lia. done.
Defined.
