(* ===== verification/ConsoleFacts.v ===== *)
(** * Printing, and the console's lines

    [prints m out]: the computation [m] hands the bytes [out] to the serial port
    and does nothing else.  The input side is specified by the lines: [cons_is]
    relates the ring to the bytes ready for readers and the line that is still
    being edited. *)

From Stdlib Require Import ZArith Lia.
From stdpp Require Import base gmap strings numbers list.
From S2P Require Import Prelude Numeral Spinlock Mem Kstring Kalloc Vm PageTable VmFacts Uvm UvmAlloc CopyUser Proc ProcLife ProcFacts ProcOps Exit Sched FsState Sleeplock FsFacts Sample CritSec Pipe File Console.
Local Open Scope xv6_scope.

Definition upd_con (f : console → console) (fs : fsstate) : fsstate := fs <| fs_con ::= f |>.

Lemma wp_getcon s Q : wp getcon s Q = Q (fs_con (ks_fs s)) s.
Proof. done. Qed.

Lemma wp_updcon f s Q : wp (updcon f) s Q = Q tt (fsk (upd_con f) s).
Proof. done. Qed.

#[export] Hint Rewrite @wp_getcon @wp_updcon : wpdb.

Definition emits (out : list Z) (c : console) : console :=
  c <| ua_out ::= fun o => o ++ out |> <| ua_room ::= fun n => (n - length out)%nat |>.

(** What neither echoing nor editing touches. *)
Definition con_rest (c : console) :=
  (ua_tx_buf c, ua_tx_w c, ua_tx_r c, pr_locking c, pr_panicked c, ua_in c).

Lemma emits_nil c : emits [] c = c.
Proof. destruct c. unfold emits, setf. cbn. by rewrite app_nil_r, Nat.sub_0_r. Qed.

Lemma emits_app o1 o2 c : emits o2 (emits o1 c) = emits (o1 ++ o2) c.
Proof. destruct c. unfold emits, setf. cbn. rewrite length_app, <- app_assoc. f_equal. lia. Qed.

Section prints.
Context `{KI : KernelImage}.
Implicit Types s : KS.

(** With the locks [lks] free. *)
Definition prints (lks : list lockid) (m : M KS unit) (out : list Z) : Prop := ∀ s Q,
  mach_ok (ks_mach s) → (∀ lk, lk ∈ lks → lock_free lk (ks_mach s)) → pr_panicked (fs_con (ks_fs s)) = 0 →
  (∀ s', s' ≡ fsk (upd_con (emits out)) s → Q tt s') → wp m s Q.

Lemma prints_ret lks : prints lks (ret tt) [].
Proof.
  intros s Q _ _ _ HQ. wp_simpl. apply HQ. rewrite (fsk_ext _ id); [by destruct s|].
  unfold upd_con. destruct (ks_fs s). unfold setf. cbn. by rewrite emits_nil.
Qed.

Lemma fsk_emits o1 o2 s s1 : s1 ≡ fsk (upd_con (emits o1)) s →
  fsk (upd_con (emits o2)) s1 ≡ fsk (upd_con (emits (o1 ++ o2))) s.
Proof.
  intros H1. etrans; [exact (fsk_proper _ _ _ H1)|]. rewrite fsk_comp. erewrite fsk_ext; [done|].
  unfold upd_con. destruct (ks_fs s). unfold setf. cbn. by rewrite emits_app.
Qed.

Lemma prints_bind lks m1 m2 o1 o2 : prints lks m1 o1 → prints lks m2 o2 → prints lks (m1;; m2) (o1 ++ o2).
Proof.
  intros H1 H2 s Q Hok Hlk Hp HQ. wp_simpl. apply H1; [done..|]. intros s1 E1. apply H2.
  - by rewrite E1.
  - intros lk Hin. rewrite E1. by apply Hlk.
  - by rewrite (ks_fs_proper _ _ E1).
  - intros s2 E2. apply HQ. etrans; [exact E2|]. by apply fsk_emits.
Qed.

(** What the line status tells. *)
Lemma wp_read_LSR s Q :
  (∀ lsr, (Z.land lsr LSR_TX_IDLE =? 0) = bool_decide (ua_room (fs_con (ks_fs s)) = 0%nat) →
     truthy (Z.land lsr 1) = bool_decide (ua_in (fs_con (ks_fs s)) ≠ []) → Q lsr s) → wp read_LSR s Q.
Proof.
  intros HQ. unfold read_LSR. wp_simpl. apply HQ.
  - destruct (ua_in (fs_con (ks_fs s))), (ua_room (fs_con (ks_fs s))); done.
  - destruct (ua_in (fs_con (ks_fs s))), (ua_room (fs_con (ks_fs s))); done.
Qed.

(** The transmitter has room in the end. *)
Lemma wp_wait_tx_idle s Q :
  (∀ r, pred r = pred (ua_room (fs_con (ks_fs s))) → Q tt (fsk (upd_con (fun c => c <| ua_room := r |>)) s)) →
  wp (wait_tx_idle 2) s Q.
Proof.
  intros HQ. assert (∀ fuel s1, ua_room (fs_con (ks_fs s1)) ≠ 0%nat → wait_tx_idle (S fuel) s1 = Ret tt s1) as Hidle.
  { intros fuel s1 Hr. apply wp_eq. cbn [wait_tx_idle]. wp_simpl. apply wp_read_LSR. intros lsr -> _.
    rewrite bool_decide_false by done. done. }
  destruct (ua_room (fs_con (ks_fs s))) as [|n] eqn:Er.
  - cbn [wait_tx_idle]. wp_simpl. apply wp_read_LSR. rewrite Er. intros lsr -> _.
    eapply wp_intro; [apply (Hidle 0%nat); cbn; by rewrite Er|].
    specialize (HQ 1%nat eq_refl). erewrite fsk_ext; [exact HQ|]. unfold upd_con, setf. cbn. by rewrite Er.
  - eapply wp_intro; [apply (Hidle 1%nat); by rewrite Er|]. specialize (HQ (S n) eq_refl).
    rewrite (fsk_ext _ id) in HQ; [by destruct s|]. unfold upd_con, setf. destruct (ks_fs s) as [????????[]]. cbn in *. by subst.
Qed.

Lemma wp_pop_push s0 s Q : mach_ok (ks_mach s0) → ks_mach s = push (ks_mach s0) →
  (∀ s', s' ≡ set_kmach (ks_mach s0) s → Q tt s') → wp (lkm pop_off) s Q.
Proof.
  intros Hok Hm HQ. pose proof Hok as (Htp & c & Hc & Hn & Hoff). rewrite wp_lkm, Hm.
  eapply wp_pop_off; [done|exact (cpus_push _ c Hc)|cbn; lia|apply sie_push|]. apply HQ.
  rewrite pop_push by done. apply set_kmach_equiv; [apply norm_equiv|done].
Qed.

Lemma prints_sync c : prints [] (uartputc_sync c) [u8 c].
Proof.
  intros s Q Hok _ Hp HQ. unfold uartputc_sync. wp_simpl. rewrite wp_lkm. apply wp_push_off; [done|].
  wp_simpl. change (ks_fs (set_kmach (push (ks_mach s)) s)) with (ks_fs s). rewrite Hp. change (truthy 0) with false.
  cbn iota. wp_simpl. apply wp_wait_tx_idle. intros r Hr. unfold write_THR. wp_simpl.
  apply (wp_pop_push s); [done|done|]. intros s' Hs'. apply HQ. etrans; [exact Hs'|].
  destruct s as [[]]. unfold fsk, upd_con, emits, setf in *. cbn in *. destruct ks_fs as [????????[]]. cbn in *.
  by rewrite Hr, Nat.sub_1_r.
Qed.

Definition echo (c : Z) : list Z := if c =? BACKSPACE then [8; 32; 8] else [u8 c].

Lemma prints_consputc c : prints [] (consputc c) (echo c).
Proof.
  unfold consputc, echo. destruct (c =? BACKSPACE); [|apply prints_sync].
  apply (prints_bind [] _ _ [8] [32; 8]); [apply prints_sync|]. apply (prints_bind [] _ _ [32] [8]); apply prints_sync.
Qed.

Lemma prints_for_each l : prints [] (for_each l consputc) (concat (echo <$> l)).
Proof. induction l as [|c l IH]; [apply prints_ret|]. cbn. apply prints_bind; [apply prints_consputc|done]. Qed.

(** ** Numbers *)

Lemma digit_ok k : (k < 16)%nat → ∃ d, digits !! k = Some d ∧ digit_val d = Z.of_nat k ∧ 48 ≤ d < 103.
Proof. intros Hk. do 16 (destruct k as [|k]; [eexists; split; [vm_compute; reflexivity|]; split; [done|lia]|]). lia. Qed.

Lemma echo_plain l : Forall (fun c => 0 ≤ c < 256) l → concat (echo <$> l) = l.
Proof.
  induction 1 as [|c l Hc Hl IH]; [done|]. cbn. rewrite IH. unfold echo, BACKSPACE.
  destruct (Z.eqb_spec c 256); [lia|]. cbn. f_equal. zlia.
Qed.

Lemma prints_int xx base : base = 10 ∨ base = 16 → - 2 ^ 31 ≤ xx < 2 ^ 31 →
  ∃ txt, prints [] (printint xx base true) txt ∧ (length txt ≤ 11)%nat ∧ int_numeral digits base xx txt.
Proof.
  intros Hb Hx. destruct (int_buf_spec digits digit_ok xx base Hb Hx) as (buf & Hbuf & Hl & Hv & Hf). exists (rev buf).
  split; [|by rewrite length_rev]. unfold printint, printint_buf. rewrite Hbuf, decide_True by lia.
  rewrite <- (echo_plain (rev buf)) at 2; [apply prints_for_each|]. apply Forall_rev. eapply Forall_impl; [exact Hf|cbn; lia].
Qed.

(** ** Formats *)

Lemma prints_weaken lks lks' m out : lks ⊆ lks' → prints lks m out → prints lks' m out.
Proof. intros Hsub H s Q H1 H2 H3 HQ. apply H; [done|intros lk Hlk; apply H2, Hsub, Hlk|done|done]. Qed.

(** [printf] takes its lock if locking is on. *)
Lemma prints_printf fmt args out : prints [] (printf_loop fmt args) out → prints [L_pr] (printf (Some fmt) args) out.
Proof.
  intros H s Q Hok Hlk Hp HQ. unfold printf. wp_simpl. destruct (truthy (pr_locking (fs_con (ks_fs s)))); wp_simpl.
  - apply wp_acq; [done|by apply Hlk, list_elem_of_singleton|]. wp_simpl. apply H; [by apply mach_ok_acq|by intros lk ?%not_elem_of_nil|done|].
    intros s1 E1. apply (wp_rel L_pr s); [done|by apply Hlk, list_elem_of_singleton|by rewrite E1|]. intros s2 E2. apply HQ.
    etrans; [exact E2|]. etrans; [exact (set_kmach_proper _ _ _ E1)|]. by destruct s as [[]].
  - apply H; [done|by intros lk ?%not_elem_of_nil|done|]. done.
Qed.

Lemma prints_str t : is_Some (strlen t) → ∃ out, prints [] (print_str t) out.
Proof.
  induction t as [|c t IH]; intros Ht; cbn in Ht; [by destruct Ht|]. cbn [print_str]. unfold truthy in Ht.
  destruct (c =? 0); cbn in Ht; [exists []; apply prints_ret|]. destruct IH as [out Hout]; [by destruct (strlen t)|].
  exists (echo c ++ out). apply prints_bind; [apply prints_consputc|done].
Qed.

Definition printable (p : proc) : Prop := - 2 ^ 31 ≤ p_pid p < 2 ^ 31 ∧ is_Some (strlen (p_name p)).

Lemma prints_proc p : printable p → ∃ out, prints [] (printf_loop (cstring "%d %s %s")
  [A_int (p_pid p); A_str (Some (state_name (p_state p))); A_str (Some (p_name p))]) out.
Proof.
  intros [Hpid Hname]. destruct (prints_int (p_pid p) 10) as (o1 & H1 & _); [by left|done|].
  destruct (prints_str (state_name (p_state p))) as [o2 H2]; [by destruct (p_state p); eexists; vm_compute|].
  destruct (prints_str (p_name p)) as [o3 H3]; [done|]. eexists. change (cstring "%d %s %s") with [37; 100; 32; 37; 115; 32; 37; 115; 0].
  cbn [printf_loop Z.eqb Pos.eqb negb default]. eapply prints_bind; [exact H1|]. eapply prints_bind; [apply prints_consputc|].
  eapply prints_bind; [exact H2|]. eapply prints_bind; [apply prints_consputc|]. eapply prints_bind; [exact H3|]. apply prints_ret.
Qed.

Lemma prints_newline : prints [L_pr] (printf (Some [10; 0]) []) [10].
Proof.
  apply prints_printf. cbn [printf_loop Z.eqb Pos.eqb negb]. apply (prints_bind [] _ _ [10] []); [apply prints_consputc|apply prints_ret].
Qed.

(** [procdump] prints something. *)
Lemma wp_procdump s Q :
  mach_ok (ks_mach s) → lock_free L_pr (ks_mach s) → pr_panicked (fs_con (ks_fs s)) = 0 →
  length (ks_proc s) = NPROC → Forall printable (ks_proc s) →
  (∀ out s', s' ≡ fsk (upd_con (emits out)) s → Q tt s') → wp procdump s Q.
Proof.
  intros Hok Hlk Hp Hlen Hall HQ. unfold procdump. wp_simpl.
  apply prints_newline; [done|by intros lk ->%list_elem_of_singleton|done|]. intros s1 E1.
  assert (∀ l s2 o, s2 ≡ fsk (upd_con (emits o)) s → Forall (fun i => i < NPROC)%nat l →
    wp (for_each l (fun i => p ← getp i; if decide (p_state p = UNUSED) then ret tt else
      printf (Some (cstring "%d %s %s")) [A_int (p_pid p); A_str (Some (state_name (p_state p))); A_str (Some (p_name p))];;
      printf (Some [10; 0]) [])) s2 Q) as Hloop; [|apply (Hloop _ _ _ E1), Forall_seq; intros j Hj; lia].
  induction l as [|i l IH]; intros s2 o E2 Hl; [cbn [for_each]; wp_simpl; by eapply HQ|].
  apply Forall_cons in Hl as [Hi Hl]. cbn [for_each]. wp_simpl.
  destruct (lookup_lt_is_Some_2 (ks_proc s) i) as [p Hpi]; [by rewrite Hlen|].
  eapply wp_getp; [rewrite (ks_proc_proper _ _ E2); exact Hpi|]. case_decide as Hu; wp_simpl; [by apply (IH s2 o)|].
  destruct (prints_proc p) as [o2 Ho2]; [by apply (Forall_lookup_1 _ _ _ _ Hall Hpi)|].
  assert (prints [L_pr] (printf (Some (cstring "%d %s %s")) [A_int (p_pid p); A_str (Some (state_name (p_state p)));
    A_str (Some (p_name p))];; printf (Some [10; 0]) []) (o2 ++ [10])) as Hline.
  { apply prints_bind; [by apply prints_printf|apply prints_newline]. }
  rewrite <- wp_bind. apply Hline; [by rewrite E2|intros lk ->%list_elem_of_singleton; by rewrite E2|by rewrite (ks_fs_proper _ _ E2)|].
  intros s3 E3. apply (IH s3 (o ++ (o2 ++ [10]))); [|done]. etrans; [exact E3|]. by apply fsk_emits.
Qed.

End prints.

(** ** Lines *)

(** [q] is ready for readers, [l] is the line being edited. *)
Record cons_is (c : console) (q l : list Z) : Prop := {
  ci_size : length (cn_buf c) = 128%nat;
  ci_data : ring_has (cn_buf c) (cn_r c) (q ++ l);
  ci_r : 0 ≤ cn_r c < 2 ^ 32;
  ci_w : cn_w c = u32 (cn_r c + Z.of_nat (length q));
  ci_e : cn_e c = u32 (cn_r c + Z.of_nat (length q + length l));
  ci_line : 10 ∉ l
}.

(** What typing the byte [c] does. *)
Definition type_char (c : Z) (q l : list Z) : list Z * list Z :=
  if c =? C 80 then (q, l)
  else if c =? C 85 then (q, [])
  else if (c =? C 72) || (c =? 127) then (q, removelast l)
  else if negb (c =? 0) && bool_decide (length q + length l < 128)%nat then
    let c := if c =? 13 then 10 else c in
    if (c =? 10) || (c =? C 68) || bool_decide (length q + length l = 127)%nat then (q ++ l ++ [c], [])
    else (q, l ++ [c])
  else (q, l).

(** The line is handed to the readers. *)
Definition completes (c : Z) (q l : list Z) : bool := bool_decide (length q < length (type_char c q l).1)%nat.

(** What appears on the screen. *)
Definition echoes (c : Z) (q l : list Z) : list Z :=
  if c =? C 85 then concat (replicate (length l) [8; 32; 8])
  else if (c =? C 72) || (c =? 127) then (match l with [] => [] | _ => [8; 32; 8] end)
  else if negb (c =? 0) && bool_decide (length q + length l < 128)%nat then [if c =? 13 then 10 else c]
  else [].

Lemma cons_is_full c q l : cons_is c q l → (length q + length l ≤ 128)%nat.
Proof. intros [H1 [H2 _] _ _ _ _]. by rewrite H1, length_app in H2. Qed.

Lemma cons_is_emits c q l out : cons_is c q l → cons_is (emits out c) q l.
Proof. by intros []. Qed.

(** The tests of the code. *)
Lemma cons_is_empty c q l : cons_is c q l → (cn_r c =? cn_w c) = bool_decide (q = []).
Proof.
  intros H. pose proof (cons_is_full _ _ _ H). destruct H as [_ _ H3 H4 _ _]. rewrite H4. destruct q as [|b q]; cbn [length] in *.
  - rewrite bool_decide_true by done. apply Z.eqb_eq. zlia.
  - rewrite bool_decide_false by done. apply Z.eqb_neq. zlia.
Qed.

Lemma cons_is_editing c q l : cons_is c q l → (cn_e c =? cn_w c) = bool_decide (l = []).
Proof.
  intros H. pose proof (cons_is_full _ _ _ H). destruct H as [_ _ H3 H4 H5 _]. rewrite H4, H5. destruct l as [|b l]; cbn [length] in *.
  - rewrite bool_decide_true by done. apply Z.eqb_eq. zlia.
  - rewrite bool_decide_false by done. apply Z.eqb_neq. zlia.
Qed.

Lemma cons_is_used c q l : cons_is c q l → u32 (cn_e c - cn_r c) = Z.of_nat (length q + length l).
Proof. intros H. pose proof (cons_is_full _ _ _ H). destruct H as [_ _ H3 _ H5 _]. rewrite H5. zlia. Qed.

(** One byte is taken off the line. *)
Definition rub (c : console) : console := c <| cn_e ::= fun e => u32 (e - 1) |>.

Lemma cons_is_rub c q l x : cons_is c q (l ++ [x]) →
  cn_buf c !! Z.to_nat (u32 (cn_e c - 1) mod INPUT_BUF_SIZE) = Some x ∧ x ≠ 10 ∧ cons_is (rub c) q l.
Proof.
  intros H. pose proof (cons_is_full _ _ _ H) as Hf. destruct H as [H1 H2 H3 H4 H5 H6]. rewrite length_app in *. cbn [length] in *.
  split; [|split; [set_solver|]].
  - destruct H2 as [_ Hd]. rewrite <- (Hd (length q + length l)%nat x).
    + f_equal. rewrite H1, H5. unfold INPUT_BUF_SIZE. f_equal. zlia.
    + rewrite lookup_app_r, Nat.add_comm, Nat.add_sub, lookup_app_r, Nat.sub_diag by lia. done.
  - split; cbn; [done| |done|done|rewrite H5; zlia|set_solver]. eapply (ring_has_app _ _ _ [x]). by rewrite <- app_assoc.
Qed.

(** One byte is added. *)
Definition stow (x : Z) (c : console) : console :=
  c <| cn_buf ::= <[Z.to_nat (cn_e c mod INPUT_BUF_SIZE) := u8 x]> |> <| cn_e ::= fun e => u32 (e + 1) |>.
Definition commit_line (c : console) : console := c <| cn_w := cn_e c |>.

Lemma stow_data c q l x : cons_is c q l → (length q + length l < 128)%nat → 0 ≤ x < 256 →
  ring_has (cn_buf (stow x c)) (cn_r c) (q ++ l ++ [x]) ∧ cn_e (stow x c) = u32 (cn_r c + Z.of_nat (length q + length (l ++ [x]))).
Proof.
  intros [H1 H2 H3 H4 H5 H6] Hlt Hx. cbn. rewrite H5, length_app. cbn [length]. split; [|zlia].
  unfold INPUT_BUF_SIZE. assert (u8 x = x) as -> by zlia. rewrite app_assoc, <- length_app.
  assert (∀ z, u32 z mod 128 = z mod 128) as -> by (intros; zlia). change 128 with (Z.of_nat 128). rewrite <- H1.
  apply ring_has_push; [done|rewrite H1, length_app; lia].
Qed.

Lemma cons_is_stow c q l x : cons_is c q l → (length q + length l < 128)%nat → 0 ≤ x < 256 → x ≠ 10 →
  cons_is (stow x c) q (l ++ [x]).
Proof.
  intros H Hlt Hx Hn. destruct (stow_data c q l x H Hlt Hx) as [Hd He]. destruct H as [H1 H2 H3 H4 H5 H6].
  split; [cbn; by rewrite length_insert|exact Hd|done|done|exact He|set_solver].
Qed.

Lemma cons_is_commit c q l x : cons_is c q l → (length q + length l < 128)%nat → 0 ≤ x < 256 →
  cons_is (commit_line (stow x c)) (q ++ l ++ [x]) [].
Proof.
  intros H Hlt Hx. destruct (stow_data c q l x H Hlt Hx) as [Hd He]. destruct H as [H1 H2 H3 H4 H5 H6].
  split; [cbn; by rewrite length_insert|by rewrite app_nil_r|done|..|set_solver].
  - change (cn_e (stow x c) = u32 (cn_r c + Z.of_nat (length (q ++ l ++ [x])))). by rewrite He, (length_app q).
  - change (cn_e (stow x c) = u32 (cn_r c + Z.of_nat (length (q ++ l ++ [x]) + 0))). by rewrite He, Nat.add_0_r, (length_app q).
Qed.

Section lines.
Context `{KI : KernelImage}.
Implicit Types s : KS.

Lemma wp_prints_sec lks m out lk s0 s Q :
  prints lks m out → mach_ok (ks_mach s0) → insec lk s0 s → (∀ lk', lk' ∈ lks → lk' ≠ lk ∧ lock_free lk' (ks_mach s0)) →
  pr_panicked (fs_con (ks_fs s)) = 0 → Q tt (fsk (upd_con (emits out)) s) → wp m s Q.
Proof.
  intros Hm Hok Hs Hlk Hp HQ. pose proof Hs as [Em _]. apply Hm.
  - rewrite Em. by apply mach_ok_acq.
  - intros lk' Hin. destruct (Hlk _ Hin). rewrite Em. by apply lock_free_acq.
  - done.
  - intros s' Hs'. apply kstate_nested in Hs' as ->; [done|]. eapply (insec_nested lk s0); [done|]. by apply insec_fsk.
Qed.

(** The state changes in the console only. *)
Definition con_only (s s' : KS) (c : console) : Prop := s' = fsk (upd_con (fun _ => c)) s.

Lemma con_only_upd f s : con_only s (fsk (upd_con f) s) (f (fs_con (ks_fs s))).
Proof. done. Qed.

Lemma con_only_trans s s1 s2 c1 c2 : con_only s s1 c1 → con_only s1 s2 c2 → con_only s s2 c2.
Proof. intros -> ->. by destruct s. Qed.

Lemma wp_kill_line lk s0 : mach_ok (ks_mach s0) → ∀ l fuel q s Q, insec lk s0 s → pr_panicked (fs_con (ks_fs s)) = 0 →
  cons_is (fs_con (ks_fs s)) q l → (length l < fuel)%nat →
  (∀ s' c, con_only s s' c → insec lk s0 s' → cons_is c q [] → con_rest c = con_rest (fs_con (ks_fs s)) →
     ua_out c = ua_out (fs_con (ks_fs s)) ++ concat (replicate (length l) [8; 32; 8]) → Q tt s') →
  wp (kill_line fuel) s Q.
Proof.
  intros Hok l. induction l as [|x l IH] using rev_ind; intros fuel q s Q Hs Hp Hc Hf HQ; (destruct fuel as [|fuel]; [lia|]);
    cbn [kill_line]; wp_simpl; rewrite (cons_is_editing _ _ _ Hc).
  - rewrite bool_decide_true by done. wp_simpl. apply (HQ s (fs_con (ks_fs s))); [|done|done|done|by rewrite app_nil_r].
    unfold con_only, fsk, upd_con, setf. destruct s as [? ? ? ? ? ? ? [? ? ? ? ? ? ? ? ?]]. done.
  - rewrite bool_decide_false by (by destruct l). destruct (cons_is_rub _ _ _ _ Hc) as (-> & Hx & Hc'). wp_simpl.
    destruct (Z.eqb_spec x 10); [done|]. wp_simpl. eapply (wp_prints_sec []); [apply prints_consputc|exact Hok| | |exact Hp|].
    { by apply insec_fsk. } { by intros ? ?%not_elem_of_nil. }
    rewrite length_app in *. cbn [length] in *.
    apply (IH fuel q); [by apply insec_fsk, insec_fsk|exact Hp|by apply cons_is_emits|lia|].
    intros s' c Hs' Hs2 Hc2 Hr2 Ho. apply (HQ s' c); [|done|done|by rewrite Hr2|].
    + eapply con_only_trans; [|exact Hs']. done.
    + rewrite Ho. cbn. rewrite Nat.add_comm. cbn. by rewrite <- app_assoc.
Qed.

(** What a byte does to the state. *)
Definition typed (me : option nat) (c : Z) (q l : list Z) (s s' : KS) (con : console) : Prop :=
  s' = upd_procs (if completes c q l then imap (wake C_cons_r me) else id) (fsk (upd_con (fun _ => con)) s) ∧
  cons_is con (type_char c q l).1 (type_char c q l).2 ∧ con_rest con = con_rest (fs_con (ks_fs s)) ∧
  ∃ o, ua_out con = ua_out (fs_con (ks_fs s)) ++ o ∧ (c ≠ C 80 → o = echoes c q l).

Lemma typed_quietly me c q l s con : completes c q l = false → cons_is con (type_char c q l).1 (type_char c q l).2 →
  con_rest con = con_rest (fs_con (ks_fs s)) →
  ua_out con = ua_out (fs_con (ks_fs s)) ++ echoes c q l →
  typed me c q l s (fsk (upd_con (fun _ => con)) s) con.
Proof. intros E H1 H2 H3. split; [rewrite E; by destruct s|]. split; [done|]. split; [done|]. by eexists. Qed.

Lemma con_only_same s : con_only s s (fs_con (ks_fs s)).
Proof. unfold con_only, fsk, upd_con, setf. by destruct s as [? ? ? ? ? ? ? []]. Qed.

(** A byte that is stored. *)
Lemma wp_type_plain me s0 s c q l Q (con := fs_con (ks_fs s)) (x := if c =? 13 then 10 else c) :
  calm me s0 → insec L_cons s0 s → pr_panicked con = 0 → cons_is con q l → 0 ≤ c < 256 → c ≠ 0 →
  c ≠ C 80 → c ≠ C 85 → (c =? C 72) || (c =? 127) = false → (length q + length l < 128)%nat →
  (∀ s' con', insec L_cons s0 s' → typed me c q l s s' con' → Q tt s') →
  wp (consputc x;; updcon (stow x);;
      con ← getcon;
      when ((x =? 10) || (x =? C 68) || (u32 (cn_e con - cn_r con) =? INPUT_BUF_SIZE)) (updcon commit_line;; wakeup C_cons_r)) s Q.
Proof.
  intros Hcalm Hs Hp Hc Hb H0 HP HU HH Hlt HQ.
  assert (0 ≤ x < 256) as Hx by (unfold x; destruct (c =? 13); lia).
  assert (echo x = [x]) as Ee. { unfold echo, BACKSPACE. destruct (Z.eqb_spec x 256); [lia|]. f_equal. zlia. }
  assert (type_char c q l = if (x =? 10) || (x =? C 68) || bool_decide (length q + length l = 127)%nat
                            then (q ++ l ++ [x], []) else (q, l ++ [x])) as Et.
  { unfold type_char. rewrite HH, bool_decide_true by done.
    destruct (Z.eqb_spec c (C 80)), (Z.eqb_spec c (C 85)), (Z.eqb_spec c 0); done. }
  assert (echoes c q l = [x]) as Eo.
  { unfold echoes. rewrite HH, bool_decide_true by done. destruct (Z.eqb_spec c (C 85)), (Z.eqb_spec c 0); done. }
  wp_simpl. eapply (wp_prints_sec []); [apply prints_consputc|apply Hcalm|exact Hs|by intros ? ?%not_elem_of_nil|exact Hp|].
  wp_simpl. rewrite Ee. set (c1 := stow x (emits [x] con)). set (s1 := fsk _ (fsk _ s)).
  assert (con_only s s1 c1) as H1 by (by destruct s). assert (insec L_cons s0 s1) as Hs1 by (by apply insec_fsk, insec_fsk).
  change (fs_con (ks_fs s1)) with c1.
  assert (u32 (cn_e c1 - cn_r c1) = Z.of_nat (length q + length l + 1)) as ->.
  { destruct (stow_data (emits [x] con) q l x) as [_ He]; [by apply cons_is_emits|done|done|]. change (cn_e c1) with (cn_e (stow x (emits [x] con))).
    rewrite He, length_app. cbn. pose proof (ci_r _ _ _ Hc). fold con. zlia. }
  assert ((Z.of_nat (length q + length l + 1) =? INPUT_BUF_SIZE) = bool_decide (length q + length l = 127)%nat) as ->.
  { unfold INPUT_BUF_SIZE. case_bool_decide; [apply Z.eqb_eq|apply Z.eqb_neq]; lia. }
  destruct ((x =? 10) || (x =? C 68) || bool_decide (length q + length l = 127)%nat) eqn:Ed; wp_simpl.
  - eapply (wp_wakeup_sec me L_cons s0); [done|done|by apply insec_fsk|]. intros s2 Hs2 ->.
    apply (HQ _ (commit_line c1)); [done|]. split; [|split; [rewrite Et; by apply cons_is_commit; [apply cons_is_emits| |]|split; [done|by exists [x]; rewrite Eo]]].
    assert (completes c q l = true) as -> by (apply bool_decide_eq_true; rewrite Et; cbn; rewrite !length_app; cbn; lia).
    rewrite H1. by destruct s.
  - apply (HQ _ c1); [done|]. rewrite H1. apply orb_false_iff in Ed as [Ed _]. apply orb_false_iff in Ed as [Ed%Z.eqb_neq _].
    apply typed_quietly; [by apply bool_decide_eq_false; rewrite Et; cbn; lia| |done|by rewrite Eo].
    rewrite Et. apply cons_is_stow; [by apply cons_is_emits|done|done|done].
Qed.

Lemma completes_not c q l : (type_char c q l).1 = q → completes c q l = false.
Proof. intros E. apply bool_decide_eq_false. rewrite E. lia. Qed.

(** Backspace and delete. *)
Lemma wp_rubout me s0 s c q l Q (con := fs_con (ks_fs s)) :
  calm me s0 → insec L_cons s0 s → pr_panicked con = 0 → cons_is con q l →
  c ≠ C 80 → c ≠ C 85 → (c =? C 72) || (c =? 127) = true →
  (∀ s' con', insec L_cons s0 s' → typed me c q l s s' con' → Q tt s') →
  wp (con ← getcon;
      if cn_e con =? cn_w con then ret tt else
      updcon (fun con => con <| cn_e ::= fun e => u32 (e - 1) |>);; consputc BACKSPACE) s Q.
Proof.
  intros Hcalm Hs Hp Hc NP NU EH HQ. pose proof (cl_ok _ _ Hcalm) as Hok.
  assert (type_char c q l = (q, removelast l)) as Et.
  { unfold type_char. rewrite EH. destruct (Z.eqb_spec c (C 80)), (Z.eqb_spec c (C 85)); done. }
  assert (echoes c q l = match l with [] => [] | _ => [8; 32; 8] end) as Eo.
  { unfold echoes. rewrite EH. destruct (Z.eqb_spec c (C 85)); done. }
  wp_simpl. fold con. rewrite (cons_is_editing _ _ _ Hc). destruct (decide (l = [])) as [->|Hl].
  - rewrite bool_decide_true by done. wp_simpl. apply (HQ s con); [done|]. rewrite (con_only_same s) at 2.
    apply typed_quietly; [apply completes_not; by rewrite Et|by rewrite Et|done|rewrite Eo; by rewrite app_nil_r].
  - rewrite bool_decide_false by done. destruct (exists_last Hl) as (l' & x & ->). destruct (cons_is_rub _ _ _ _ Hc) as (_ & _ & Hc').
    wp_simpl. eapply (wp_prints_sec []); [apply prints_consputc|exact Hok|by apply insec_fsk|by intros ? ?%not_elem_of_nil|exact Hp|].
    apply (HQ _ (emits (echo BACKSPACE) (rub con))); [by apply insec_fsk, insec_fsk|].
    assert (con_only s (fsk (upd_con (emits (echo BACKSPACE))) (fsk (upd_con rub) s)) (emits (echo BACKSPACE) (rub con)))
      as E2 by (by destruct s). unfold rub in E2 at 1. rewrite E2.
    rewrite removelast_last in Et. apply typed_quietly; [apply completes_not; by rewrite Et|rewrite Et; by apply cons_is_emits|done|]. rewrite Eo. by destruct l'.
Qed.

Lemma wp_switch me s0 s c q l Q (con := fs_con (ks_fs s)) :
  calm me s0 → insec L_cons s0 s → Forall printable (ks_proc s) → pr_panicked con = 0 → cons_is con q l → 0 ≤ c < 256 →
  (∀ s' con', insec L_cons s0 s' → typed me c q l s s' con' → Q tt s') → wp (consoleintr_switch c) s Q.
Proof.
  intros Hcalm Hs Hpr Hp Hc Hb HQ. pose proof (cl_ok _ _ Hcalm) as Hok. unfold consoleintr_switch.
  destruct (Z.eqb_spec c (C 80)) as [EP|NP].
  { assert (type_char c q l = (q, l)) as Et by (unfold type_char; by rewrite EP).
    apply wp_procdump; [rewrite (is_mach _ _ _ Hs); by apply mach_ok_acq| |exact Hp| |done|].
    - rewrite (is_mach _ _ _ Hs). apply lock_free_acq; [done|]. by apply Hcalm.
    - rewrite <- (cl_len _ _ Hcalm). symmetry. exact (Forall2_length _ _ _ (fr_procs _ _ (is_frame _ _ _ Hs))).
    - intros out s' Hs'. apply kstate_nested in Hs' as ->; [|by eapply (insec_nested L_cons s0); [|apply insec_fsk]].
      apply (HQ _ (emits out con)); [by apply insec_fsk|].
      split; [rewrite completes_not by (by rewrite Et); by destruct s|]. rewrite Et. split; [by apply cons_is_emits|]. split; [done|].
      exists out. by split. }
  destruct (Z.eqb_spec c (C 85)) as [EU|NU].
  { assert (type_char c q l = (q, [])) as Et by (unfold type_char; by rewrite EU).
    wp_simpl. eapply (wp_kill_line L_cons s0 Hok l); [done|done|exact Hc| |].
    - pose proof (cons_is_full _ _ _ Hc). destruct Hc as [_ _ H3 H4 H5 _]. fold con. rewrite H4, H5. zlia.
    - intros s' c' Hs' Hs2 Hc' Hr Ho. apply (HQ s' c'); [done|]. rewrite Hs'. apply typed_quietly; [apply completes_not; by rewrite Et|by rewrite Et|done|].
      rewrite Ho. unfold echoes. by rewrite EU. }
  destruct ((c =? C 72) || (c =? 127)) eqn:EH.
  { by eapply (wp_rubout me s0). }
  wp_simpl. fold con. rewrite (cons_is_used _ _ _ Hc). destruct (Z.eqb_spec c 0) as [E0|N0]; cbn [negb andb].
  { wp_simpl. apply (HQ s con); [done|]. rewrite (con_only_same s) at 2. subst c.
    apply typed_quietly; [by apply completes_not|done|done|by rewrite app_nil_r]. }
  destruct (Z.ltb_spec (Z.of_nat (length q + length l)) INPUT_BUF_SIZE) as [Hlt|Hge]; unfold INPUT_BUF_SIZE in *.
  - eapply wp_type_plain; try done. lia.
  - assert (bool_decide (length q + length l < 128)%nat = false) as Hf by (apply bool_decide_eq_false; lia).
    assert (type_char c q l = (q, l) ∧ echoes c q l = []) as [Et Eo].
    { unfold type_char, echoes. rewrite EH, Hf, andb_false_r. destruct (Z.eqb_spec c (C 80)), (Z.eqb_spec c (C 85)); done. }
    wp_simpl. apply (HQ s con); [done|]. rewrite (con_only_same s) at 2.
    apply typed_quietly; [apply completes_not; by rewrite Et|by rewrite Et|done|by rewrite Eo, app_nil_r].
Qed.

Lemma wp_consoleintr me s c q l Q (con := fs_con (ks_fs s)) :
  calm me s → Forall printable (ks_proc s) → pr_panicked con = 0 → cons_is con q l → 0 ≤ c < 256 →
  (∀ s1 s' con', typed me c q l s s1 con' → s' ≡ s1 → Q tt s') → wp (consoleintr c) s Q.
Proof.
  intros Hcalm Hpr Hp Hc Hb HQ. unfold consoleintr. wp_simpl. apply wp_acq; [apply Hcalm|by apply Hcalm|]. wp_simpl.
  eapply (wp_switch me s); [done|apply insec_start|done|done|exact Hc|done|]. intros s2 con' Hs2 [-> Hty].
  apply (wp_rel L_cons s); [apply Hcalm|by apply Hcalm|by rewrite (is_mach _ _ _ Hs2)|]. intros s' Hs'.
  eapply (HQ _ s' con'); [split; [reflexivity|exact Hty]|]. etrans; [exact Hs'|]. by destruct s as [[]].
Qed.

End lines.

(** ** Reading *)

(** What a read of at most [n] bytes takes off [q], and what it leaves;
    [started] if bytes have been delivered already.  A newline is delivered and
    ends the read.  A control-D ends it without being delivered; it is left for
    the next read unless it comes first. *)
Fixpoint line_of (started : bool) (n : nat) (q : list Z) : option (list Z * list Z) :=
  match n, q with
  | O, _ => Some ([], q)
  | S _, [] => None
  | S n, c :: q =>
    if c =? C 68 then Some ([], if started then c :: q else q)
    else if c =? 10 then Some ([c], q)
    else match line_of true n q with Some (d, q') => Some (c :: d, q') | None => None end
  end.

Definition eat (c : console) : console := c <| cn_r ::= fun r => u32 (r + 1) |>.
Definition uneat (c : console) : console := c <| cn_r ::= fun r => u32 (r - 1) |>.

Lemma cons_is_eat c b q l : cons_is c (b :: q) l →
  cn_buf c !! Z.to_nat (cn_r c mod INPUT_BUF_SIZE) = Some b ∧ cons_is (eat c) q l ∧ cons_is (uneat (eat c)) (b :: q) l.
Proof.
  intros H. pose proof H as [H1 H2 H3 H4 H5 H6]. cbn [app] in H2. apply ring_has_pop in H2 as [Hb H2]. rewrite H1 in Hb.
  cbn [length] in *. split; [done|]. split.
  - split; cbn; [done| |zlia|rewrite H4; zlia|rewrite H5; zlia|done]. eapply ring_has_wrap; [|exact H2]. rewrite H1. zlia.
  - assert (uneat (eat c) = c) as ->; [|done]. destruct c. unfold uneat, eat, setf. cbn in *. f_equal. zlia.
Qed.

Section reading.
Context `{KI : KernelImage}.
Implicit Types s : KS.

Lemma wp_either_copyout_in own i m T m0 dst n j b s Q :
  inside own i own m s → receives i T m0 dst n s → (j < n)%nat → 0 ≤ b < 256 → 0 ≤ dst → dst + Z.of_nat n ≤ 2 ^ 64 →
  uaddr m0 T (dst + Z.of_nat j) ≠ 0 →
  (let m' := <[ubyte m0 T (dst + Z.of_nat j) := b]> (k_mem (ks_k s)) in
   receives i T m0 dst n (with_mem m' s) → Q 0 (with_mem m' s)) →
  wp (either_copyout true (u64 (dst + Z.of_nat j)) [b]) s Q.
Proof.
  intros Hs Hu Hj Hb H0 Hmax Hne HQ. unfold either_copyout. wp_simpl. apply wp_myproc_k; [by eapply inside_ok|].
  intros s1 E1. apply kstate_nested in E1 as ->; [|by eapply inside_nested].
  rewrite (in_mach _ _ _ _ _ Hs), cur_acq, (ru_cur _ _ (in_runs _ _ _ _ _ Hs)). wp_simpl. pose proof Hu as (p & Hp & _).
  eapply wp_getp; [exact Hp|]. eapply wp_copyout_byte; [done..|intros E; done|]. intros _ m' Hu'. by apply HQ.
Qed.

Lemma wp_consoleread_loop i T m0 dst N m Q :
  0 ≤ dst → dst + Z.of_nat N ≤ 2 ^ 64 → Z.of_nat N < 2 ^ 31 →
  (∀ va, dst ≤ va < dst + Z.of_nat N → uaddr m0 T va ≠ 0) →
  ∀ fuel k s e q l d q', inside L_cons i L_cons m s → cons_is (fs_con (ks_fs s)) q l → bytes q →
  line_of (bool_decide (0 < k)%nat) (N - k) q = Some (d, q') → receives i T m0 dst N s → (k ≤ N)%nat → (N - k < fuel)%nat →
  (∀ s', inside L_cons i L_cons m s' → cons_is (fs_con (ks_fs s')) q' l → ks_proc s' = ks_proc s → (length d ≤ N - k)%nat →
     uwrite m0 T (k_mem (ks_k s)) (dst + Z.of_nat k) d = (true, k_mem (ks_k s')) →
     Q (Some (Z.of_nat (N - k) - Z.of_nat (length d))) (World s' e)) →
  wp (consoleread_loop fuel true (u64 (dst + Z.of_nat k)) (Z.of_nat (N - k)) (u32 (Z.of_nat N))) (World s e) Q.
Proof.
  intros H0 Hmax HN Hacc. induction fuel as [|fuel IH]; intros k s e q l d q' Hs Hc Hb Hline Hu Hk Hf HQ; [lia|].
  cbn [consoleread_loop]. destruct (N - k)%nat as [|n] eqn:En.
  { injection Hline as <- <-. cbn [Z.ltb negb]. change (0 <? Z.of_nat 0) with false. cbn [negb]. wp_simpl.
    apply (HQ s); [done|done|done|cbn; lia|done]. }
  destruct (Z.ltb_spec 0 (Z.of_nat (S n))); [|lia]. cbn [negb]. wp_simpl. cbn [w_env consoleread_wait]. wp_simpl.
  rewrite (cons_is_empty _ _ _ Hc). destruct q as [|b q]; [done|]. apply Forall_cons in Hb as [Hb Hbs].
  rewrite bool_decide_false by done. cbn [negb]. wp_simpl. cbn [negb]. wp_simpl.
  destruct (cons_is_eat _ _ _ _ Hc) as (-> & Hc1 & Hc2). wp_simpl. cbn [line_of] in Hline.
  destruct (Z.eqb_spec b (C 68)) as [HD|HD].
  { injection Hline as <- <-. unfold when.
    assert ((u32 (Z.of_nat (S n)) <? u32 (Z.of_nat N)) = bool_decide (0 < k)%nat) as ->.
    { rewrite !u32_small by lia. case_bool_decide; [apply Z.ltb_lt|apply Z.ltb_ge]; lia. }
    destruct (bool_decide (0 < k)%nat); wp_simpl; (apply HQ; [by repeat apply inside_fsk|assumption|done|cbn; lia|done]). }
  wp_simpl. eapply (wp_either_copyout_in L_cons); [by apply inside_fsk|exact Hu|lia|done|done|done|apply Hacc; lia|].
  intros m' Hu'. cbn [Z.eqb]. set (s2 := with_mem m' _).
  assert (inside L_cons i L_cons m s2) as Hs2 by (by apply inside_mem, inside_fsk).
  assert (∀ d, uwrite m0 T (k_mem (ks_k s)) (dst + Z.of_nat k) (b :: d) = uwrite m0 T m' (dst + Z.of_nat (S k)) d) as Hw.
  { intros d'. cbn [uwrite]. destruct (Z.eqb_spec (uaddr m0 T (dst + Z.of_nat k)) 0) as [E|_]; [by destruct (Hacc (dst + Z.of_nat k)); [lia|]|].
    f_equal. lia. }
  destruct (Z.eqb_spec b 10) as [HL|HL].
  - injection Hline as <- <-. wp_simpl. replace (Z.of_nat (S n) - 1) with (Z.of_nat (S n) - Z.of_nat (length [b])) by (cbn; lia).
    apply HQ; [done|exact Hc1|done|cbn; lia|by rewrite Hw].
  - destruct (line_of true n q) as [[d' q2]|] eqn:El; [|done]. injection Hline as <- <-.
    replace (u64 (u64 (dst + Z.of_nat k) + 1)) with (u64 (dst + Z.of_nat (S k))) by zlia.
    replace (Z.of_nat (S n) - 1) with (Z.of_nat (N - S k)) by lia.
    apply (IH (S k) s2 e q l d' q2); [done|exact Hc1|done|by replace (N - S k)%nat with n by lia|done|lia|lia|].
    intros s' H1 H2 H3 H4 H5. replace (Z.of_nat (N - S k) - Z.of_nat (length d')) with (Z.of_nat (S n) - Z.of_nat (length (b :: d'))) by (cbn; lia).
    apply HQ; [done|done|by rewrite H3|cbn; lia|by rewrite Hw].
Qed.

(** ** Waiting for a line *)

(** Process [i] is ready to receive at most [n] bytes at [dst]. *)
Definition reader (i : nat) (T : tbl) (dst : Z) (n : nat) (s : KS) : Prop :=
  receives i T (k_mem (ks_k s)) dst n s ∧ (∀ va, dst ≤ va < dst + Z.of_nat n → uaddr (k_mem (ks_k s)) T va ≠ 0) ∧
  ∀ p, ks_proc s !! i = Some p → p_killed p = 0.

(** A line arrives while the reader sleeps: afterwards a read delivers [d] and
    leaves [q']. *)
Definition arrives (i : nat) (T : tbl) (dst : Z) (n : nat) (d q' l' : list Z) (ev : KS → KS) : Prop :=
  ∀ m s l, inside (L_proc i) i L_cons m s → cons_is (fs_con (ks_fs s)) [] l → reader i T dst n s →
    ∃ m' q, inside (L_proc i) i L_cons m' (ev s) ∧ cons_is (fs_con (ks_fs (ev s))) q l' ∧ bytes q ∧
      line_of false n q = Some (d, q') ∧ reader i T dst n (ev s).

Lemma reader_alter i T dst n f s : (∀ p, p_killed (f p) = p_killed p ∧ p_pagetable (f p) = p_pagetable p) →
  reader i T dst n s → reader i T dst n (upd_procs (alter f i) s).
Proof.
  intros Hf ((p & Hp & H1 & H2 & H3) & H4 & H5). destruct (Hf p) as [E1 E2]. split; [|split; [done|]].
  - exists (f p). split; [cbn; by rewrite list_lookup_alter_eq, Hp|]. by rewrite E2.
  - intros p' Hp'. cbn in Hp'. rewrite list_lookup_alter_eq, Hp in Hp'. injection Hp' as <-. rewrite E1. by apply H5.
Qed.

Lemma wait_ready fuel s e q l : cons_is (fs_con (ks_fs s)) q l → q ≠ [] →
  consoleread_wait (S fuel) (World s e) = Ret true (World s e).
Proof. intros Hc Hq. apply wp_eq. cbn [consoleread_wait]. wp_simpl. rewrite (cons_is_empty _ _ _ Hc), bool_decide_false by done. done. Qed.

Lemma wait_sleeps i T dst n d q' l' ev es m s l :
  inside L_cons i L_cons m s → cons_is (fs_con (ks_fs s)) [] l → reader i T dst (S n) s → arrives i T dst (S n) d q' l' ev →
  ∃ m2 s2 q, (∀ fuel, consoleread_wait (S (S fuel)) (World s (ev :: es)) = Ret true (World s2 es)) ∧
    inside L_cons i L_cons m2 s2 ∧ cons_is (fs_con (ks_fs s2)) q l' ∧ bytes q ∧ q ≠ [] ∧
    line_of false (S n) q = Some (d, q') ∧ reader i T dst (S n) s2.
Proof.
  intros Hs Hc Hr Ha. destruct (Ha m (parked C_cons_r i m s) l) as (m' & q & H1 & H2 & H3 & H4 & H5).
  { by apply inside_parked. } { done. } { by apply (reader_alter i T dst (S n) (asleep C_cons_r)). }
  set (m2 := set_ie (sie m) m'). set (s2 := resumed L_cons i m2 (ev (parked C_cons_r i m s))). exists m2, s2, q.
  assert (q ≠ []) as Hq by (by destruct q).
  assert (inside L_cons i L_cons m2 s2 ∧ ∀ Q, (∀ r, Q r (World s2 es)) → wp (sleep C_cons_r L_cons) (World s (ev :: es)) Q) as [Hs2 Hsl].
  { split; [|intros Q HQ; eapply (wp_sleep_in _ _ L_cons m); [done|exact H1|]; intros r ? ? _; apply HQ].
    destruct H1 as [A1 A2 A3 A4 A5 A6 A7]. split; try done; [by apply runs_set_ie|]. cbn. by rewrite length_alter. }
  split; [|split; [done|split; [done|split; [done|split; [done|split; [done|by apply (reader_alter i T dst (S n) awake)]]]]]].
  intros fuel. apply wp_eq. change (wp (consoleread_wait (S (S fuel)))) with (wp (con ← onw getcon;
    if negb (cn_r con =? cn_w con) then ret true else
    me ← onw (lkm myproc); me ← deref me;
    k ← onw (killed me);
    if truthy k then onw (lkm (release L_cons));; ret false
    else sleep C_cons_r L_cons;; consoleread_wait (S fuel))).
  wp_simpl. rewrite (cons_is_empty _ _ _ Hc), bool_decide_true by done. cbn [negb]. wp_simpl.
  apply wp_myproc_k; [by eapply inside_ok|]. intros s1 E1. apply kstate_nested in E1 as ->; [|by eapply inside_nested].
  rewrite (in_mach _ _ _ _ _ Hs), cur_acq, (ru_cur _ _ (in_runs _ _ _ _ _ Hs)). wp_simpl.
  destruct Hr as ((p & Hp & _) & _ & Hk). eapply (wp_killed_in i L_cons m); [done|exact Hp|]. rewrite (Hk p Hp).
  change (truthy 0) with false. cbn iota. wp_simpl. apply Hsl. intros r.
  eapply wp_intro; [by eapply (wait_ready fuel s2 es q l')|done].
Qed.

End reading.
