(* ===== verification/ConsoleOut.v ===== *)
(** * Buffered output: the transmit ring of the serial port

    [tx_is c q]: the ring holds the bytes [q], oldest first.  What has been
    handed to the device followed by what is in the ring is the stream that
    writers append to; [uartstart] only moves bytes along it. *)

From Stdlib Require Import ZArith Lia.
From stdpp Require Import base gmap strings numbers list.
From S2P Require Import Prelude Spinlock Mem Kstring Kalloc Vm PageTable VmFacts Uvm UvmAlloc CopyUser Proc ProcLife ProcFacts ProcOps Exit Sched FsState Sleeplock FsFacts Sample CritSec Pipe File Console ConsoleFacts.
Local Open Scope xv6_scope.

Record tx_is (c : console) (q : list Z) : Prop := {
  tx_size : length (ua_tx_buf c) = 32%nat;
  tx_data : ring_has (ua_tx_buf c) (ua_tx_r c) q;
  tx_r : 0 ≤ ua_tx_r c < 2 ^ 64;
  tx_w : ua_tx_w c = u64 (ua_tx_r c + Z.of_nat (length q));
  tx_ok : pr_panicked c = 0
}.

(** Written so far. *)
Definition stream (c : console) (q : list Z) : list Z := ua_out c ++ q.

Lemma tx_is_full c q : tx_is c q → (length q ≤ 32)%nat.
Proof. intros [H1 [H2 _] _ _ _]. by rewrite H1 in H2. Qed.

Lemma tx_is_room c q : tx_is c q → (ua_tx_w c =? u64 (ua_tx_r c + UART_TX_BUF_SIZE)) = bool_decide (length q = 32%nat).
Proof.
  intros H. pose proof (tx_is_full _ _ H). destruct H as [_ _ H3 H4 _]. rewrite H4. unfold UART_TX_BUF_SIZE. case_bool_decide as E.
  - apply Z.eqb_eq. by rewrite E.
  - apply Z.eqb_neq. zlia.
Qed.

Lemma tx_is_empty c q : tx_is c q → (ua_tx_w c =? ua_tx_r c) = bool_decide (q = []).
Proof.
  intros H. pose proof (tx_is_full _ _ H). destruct H as [_ _ H3 H4 _]. rewrite H4. destruct q as [|b q]; cbn [length] in *.
  - rewrite bool_decide_true by done. apply Z.eqb_eq. zlia.
  - rewrite bool_decide_false by done. apply Z.eqb_neq. zlia.
Qed.

Lemma tx_is_used c q : tx_is c q → u64 (ua_tx_w c - ua_tx_r c) = Z.of_nat (length q).
Proof. intros H. pose proof (tx_is_full _ _ H). destruct H as [_ _ H3 H4 _]. rewrite H4. zlia. Qed.

Definition tx_push (b : Z) (c : console) : console :=
  c <| ua_tx_buf ::= <[Z.to_nat (ua_tx_w c mod UART_TX_BUF_SIZE) := u8 b]> |> <| ua_tx_w ::= fun w => u64 (w + 1) |>.
Definition tx_pop (c : console) : console := c <| ua_tx_r ::= fun r => u64 (r + 1) |>.

Lemma tx_is_push c q b : tx_is c q → (length q < 32)%nat → 0 ≤ b < 256 → tx_is (tx_push b c) (q ++ [b]).
Proof.
  intros [H1 H2 H3 H4 H5] Hlt Hb. unfold tx_push, UART_TX_BUF_SIZE. rewrite H4.
  assert (u64 (ua_tx_r c + Z.of_nat (length q)) mod 32 = (ua_tx_r c + Z.of_nat (length q)) mod 32) as -> by zlia.
  assert (u8 b = b) as -> by zlia.
  split; cbn; rewrite ?length_insert, ?length_app; cbn [length]; [done| |done|rewrite H4; zlia|done].
  change 32 with (Z.of_nat 32). rewrite <- H1. apply ring_has_push; [done|by rewrite H1].
Qed.

Lemma tx_is_pop c b q : tx_is c (b :: q) →
  ua_tx_buf c !! Z.to_nat (ua_tx_r c mod UART_TX_BUF_SIZE) = Some b ∧ tx_is (tx_pop c) q.
Proof.
  intros [H1 H2 H3 H4 H5]. apply ring_has_pop in H2 as [Hb H2]. cbn [length] in *. rewrite H1 in Hb. split; [done|].
  split; cbn; [done| |zlia|rewrite H4; zlia|done]. eapply ring_has_wrap; [|exact H2]. rewrite H1. zlia.
Qed.

Lemma tx_is_emits c q out : tx_is c q → tx_is (emits out c) q.
Proof. by intros []. Qed.

(** The input side. *)
Definition con_input (c : console) := (cn_buf c, cn_r c, cn_w c, cn_e c, ua_in c).

Lemma cons_is_input c c' q l : con_input c' = con_input c → cons_is c q l → cons_is c' q l.
Proof. unfold con_input. intros [= E1 E2 E3 E4 _] [H1 H2 H3 H4 H5 H6]. split; congruence. Qed.

Section out.
Context `{KI : KernelImage}.
Implicit Types s : KS.

(** [uartstart] gives the device as many bytes as it takes, and wakes writers
    if there are any. *)
Lemma wp_uartstart_loop me lk s0 : calm me s0 → (∀ j, lk ≠ L_proc j) → ∀ fuel q s Q,
  insec lk s0 s → tx_is (fs_con (ks_fs s)) q → bytes q → (length q < fuel)%nat →
  (∀ s' c' k, insec lk s0 s' → ks_fs s' = upd_con (fun _ => c') (ks_fs s) → tx_is c' (drop k q) → (k ≤ length q)%nat →
     con_input c' = con_input (fs_con (ks_fs s)) →
     (0 < ua_room (fs_con (ks_fs s)) → q ≠ [] → 0 < k)%nat → k_mem (ks_k s') = k_mem (ks_k s) →
     ks_proc s' = (if decide (k = 0%nat) then ks_proc s else imap (wake C_uart_tx_r me) (ks_proc s)) →
     ua_out c' = ua_out (fs_con (ks_fs s)) ++ take k q → drop k q = [] ∨ ua_room c' = 0%nat → Q tt s') →
  wp (uartstart_loop fuel) s Q.
Proof.
  intros Hcalm Hlk. induction fuel as [|fuel IH]; intros q s Q Hs Hq Hb Hf HQ; [lia|]. cbn [uartstart_loop]. wp_simpl.
  rewrite (tx_is_empty _ _ Hq). destruct q as [|b q].
  { rewrite bool_decide_true by done. wp_simpl. apply (HQ s (fs_con (ks_fs s)) 0%nat); try done; [|by rewrite app_nil_r|by left].
    unfold upd_con, setf. by destruct (ks_fs s). }
  rewrite bool_decide_false by done. wp_simpl. apply wp_read_LSR. intros lsr -> _. case_bool_decide as Hr.
  { wp_simpl. apply (HQ s (fs_con (ks_fs s)) 0%nat); try done; [|lia|lia|by rewrite app_nil_r|by right]. unfold upd_con, setf. by destruct (ks_fs s). }
  destruct (tx_is_pop _ _ _ Hq) as [-> Hq1]. apply Forall_cons in Hb as [Hb Hbs]. wp_simpl.
  eapply (wp_wakeup_sec me lk s0); [done|done|by apply insec_fsk|]. intros s1 Hs1 E1. unfold write_THR. wp_simpl.
  set (s2 := fsk _ s1). assert (fs_con (ks_fs s2) = emits [b] (tx_pop (fs_con (ks_fs s)))) as Ec.
  { unfold s2. rewrite E1. cbn. unfold emits, tx_pop, setf. cbn. assert (u8 b = b) as -> by zlia. by rewrite Nat.sub_1_r. }
  eapply (IH q s2); [by apply insec_fsk|by rewrite Ec; apply tx_is_emits|done|cbn in Hf; lia|].
  intros s' c' k Hs' Efs Hq' Hk Ei _ Em Ep Eo Er. apply (HQ s' c' (S k)); [done| |done|cbn; lia|by rewrite Ei, Ec|lia|..|done].
  - rewrite Efs. unfold s2. rewrite E1. unfold fsk, upd_con, setf. cbn. done.
  - rewrite Em. unfold s2. by rewrite E1.
  - assert (ks_proc s2 = imap (wake C_uart_tx_r me) (ks_proc s)) as Ep2 by (unfold s2; by rewrite E1).
    rewrite Ep, Ep2. cbn. case_decide; [done|]. apply imap_wake_idem.
  - rewrite Eo, Ec. cbn. by rewrite <- app_assoc.
Qed.

(** The transmit side of the state. *)
Definition sent (q : list Z) (out : list Z) (s : KS) : Prop := tx_is (fs_con (ks_fs s)) q ∧ stream (fs_con (ks_fs s)) q = out.

Lemma sent_eq q out s s' : ks_fs s' = ks_fs s → sent q out s → sent q out s'.
Proof. intros E. unfold sent. by rewrite E. Qed.

(** What the interrupt handler and other processes may do while the writer
    sleeps: send bytes from the ring, at least one if it is full. *)
Definition transmits (i : nat) (T : tbl) (src : Z) (bs : list Z) (ev : KS → KS) : Prop :=
  ∀ m s q out, inside (L_proc i) i L_uart_tx m s → sent q out s → sends i T src bs s →
    ∃ m' k, inside (L_proc i) i L_uart_tx m' (ev s) ∧ sent (drop k q) out (ev s) ∧ sends i T src bs (ev s) ∧
      (length q = 32%nat → 0 < k)%nat.

Lemma wp_uartstart i m s q out Q :
  inside L_uart_tx i L_uart_tx m s → sent q out s → bytes q →
  (∀ s' k, inside L_uart_tx i L_uart_tx m s' → sent (drop k q) out s' → k_mem (ks_k s') = k_mem (ks_k s) →
     woken (ks_proc s) (ks_proc s') → ks_proc s' !! i = ks_proc s !! i → Q tt s') → wp uartstart s Q.
Proof.
  intros Hs [Hq Ho] Hb HQ. destruct (inside_insec _ _ _ _ _ Hs) as [Hcalm Hsec]. unfold uartstart. wp_simpl. rewrite (tx_is_used _ _ Hq).
  eapply (wp_uartstart_loop (Some i) L_uart_tx _ Hcalm); [done|exact Hsec|done|done|lia|].
  intros s' c' k Hs' Efs Hq' Hk _ _ Em Ep Eo _. assert (fs_con (ks_fs s') = c') as Ec by (by rewrite Efs).
  apply (HQ s' k); [by eapply insec_inside| |done|rewrite Ep; case_decide; [done|apply woken_wake]|].
  - split; [by rewrite Ec|]. unfold stream in *. by rewrite Ec, Eo, <- app_assoc, take_drop.
  - rewrite Ep. case_decide; [done|]. rewrite list_lookup_imap. destruct (ks_proc s !! i) as [p|]; [|done]. cbn.
    unfold wake. by rewrite decide_False by (by intros [? _]).
Qed.

Lemma sends_proc i T src bs s s' : ks_proc s' !! i = ks_proc s !! i → k_mem (ks_k s') = k_mem (ks_k s) →
  sends i T src bs s → sends i T src bs s'.
Proof. intros E1 E2. unfold sends. by rewrite E1, E2. Qed.

Lemma wp_uartputc_wait i T src bs n m s e q out Q :
  inside L_uart_tx i L_uart_tx m s → sent q out s → sends i T src bs s → Forall (transmits i T src bs) e → bytes q →
  (0 < n)%nat → (length q + n ≤ 32 + length e)%nat →
  (∀ m' s' e' q', inside L_uart_tx i L_uart_tx m' s' → sent q' out s' → sends i T src bs s' → Forall (transmits i T src bs) e' →
     bytes q' → (length q' < 32)%nat → (length q' + n ≤ 32 + length e')%nat → Q tt (World s' e')) →
  wp (uartputc_wait (S (length e))) (World s e) Q.
Proof.
  intros Hs Hq Hb He Hby Hn Hroom HQ.
  assert (∀ fuel m s e q, inside L_uart_tx i L_uart_tx m s → sent q out s → sends i T src bs s → Forall (transmits i T src bs) e →
    bytes q → (length q < 32)%nat → (length q + n ≤ 32 + length e)%nat → wp (uartputc_wait (S fuel)) (World s e) Q) as Hgo.
  { intros fuel m1 s1 e1 q1 H1 H2 H3 H4 H5 H6 H7. cbn [uartputc_wait]. wp_simpl. rewrite (tx_is_room _ q1) by apply H2.
    rewrite bool_decide_false by lia. wp_simpl. by apply (HQ m1 s1 e1 q1). }
  pose proof (tx_is_full _ _ (proj1 Hq)). destruct (decide (length q = 32)%nat) as [Hf|Hf]; [|apply (Hgo (length e) m s e q); [done..|lia|done]].
  destruct e as [|ev es]; [cbn in *; lia|]. apply Forall_cons in He as [Hev Hes].
  cbn [length uartputc_wait]. wp_simpl. rewrite (tx_is_room _ q) by apply Hq. rewrite bool_decide_true by done. wp_simpl.
  destruct (Hev m (parked C_uart_tx_r i m s) q out) as (m' & k & H1 & H2 & H3 & H4);
    [by apply inside_parked|done|by apply (sends_alter _ _ _ _ (asleep C_uart_tx_r))|].
  eapply (wp_sleep_in _ _ _ m); [done|exact H1|]. intros r m2 s2 Hs2. cbn [length] in Hroom.
  eapply (Hgo (length es)); [exact Hs2|exact (sent_eq _ _ _ _ eq_refl H2)|by apply (sends_alter _ _ _ _ awake)|done|by apply Forall_drop|rewrite length_drop; lia|].
  rewrite length_drop. lia.
Qed.

Lemma wp_uartputc i T src bs n b s e q out Q :
  ready i s → sent q out s → sends i T src bs s → Forall (transmits i T src bs) e → bytes q → 0 ≤ b < 256 →
  (length q + S n ≤ 32 + length e)%nat →
  (∀ s' e' q', ready i s' → sent q' (out ++ [b]) s' → sends i T src bs s' → Forall (transmits i T src bs) e' → bytes q' →
     (length q' + n ≤ 32 + length e')%nat → Q tt (World s' e')) →
  wp (uartputc b) (World s e) Q.
Proof.
  intros Hr Hq Hb He Hby Hbb Hroom HQ. unfold uartputc. wp_simpl. apply (wp_enter i); [done|by apply Hr|done|]. intros Hs1. wp_simpl.
  change (ks_fs (set_kmach (acq L_uart_tx (ks_mach s)) s)) with (ks_fs s). rewrite (tx_ok _ _ (proj1 Hq)). change (truthy 0) with false. cbn iota. wp_simpl. cbn [w_env].
  eapply (wp_uartputc_wait i T src bs (S n)); [exact Hs1|exact (sent_eq _ _ _ _ eq_refl Hq)|exact Hb|done|done|lia|done|].
  intros m2 s2 e2 q2 Hs2 [Hq2 Ho2] Hb2 He2 Hby2 Hlt Hroom2. wp_simpl.
  eapply (wp_uartstart i m2 _ (q2 ++ [b]) (out ++ [b])); [by apply inside_fsk| |apply Forall_app; split; [done|by apply Forall_singleton]|].
  { split; [by apply (tx_is_push _ q2 b)|]. unfold stream in *. cbn. rewrite app_assoc. by rewrite Ho2. }
  intros s3 k Hs3 Hq3 Em Ew Ep. wp_simpl. eapply wp_leave; [exact Hs3|]. intros s' Hs'.
  apply (HQ s' e2 (drop k (q2 ++ [b]))); [by eapply inside_ready| | |done|by apply Forall_drop, Forall_app; split; [|apply Forall_singleton]|].
  - eapply sent_eq; [|exact Hq3]. by rewrite (ks_fs_proper _ _ Hs').
  - apply (sends_equiv _ _ _ _ (set_kmach m2 s3)); [done|]. by apply (sends_proc _ _ _ _ s2).
  - rewrite length_drop, length_app. cbn. lia.
Qed.

Lemma wp_consolewrite_loop i T src bs Q : 0 ≤ src → src + Z.of_nat (length bs) ≤ 2 ^ 64 → bytes bs → ∀ fuel j s e q out,
  ready i s → sent q out s → sends i T src bs s → Forall (transmits i T src bs) e → bytes q → (j ≤ length bs)%nat →
  (length q + (length bs - j) ≤ 32 + length e)%nat → (length bs - j < fuel)%nat →
  (∀ s' e' q', ready i s' → sent q' (out ++ drop j bs) s' → Q (Z.of_nat (length bs)) (World s' e')) →
  wp (consolewrite_loop fuel true src (Z.of_nat (length bs)) (Z.of_nat j)) (World s e) Q.
Proof.
  intros H0 Hmax Hbs. induction fuel as [|fuel IH]; intros j s e q out Hr Hq Hb He Hby Hj Hroom Hf HQ; [lia|]. cbn [consolewrite_loop].
  destruct (Z.ltb_spec (Z.of_nat j) (Z.of_nat (length bs))) as [Hlt|Hge]; cbn [negb].
  2:{ wp_simpl. replace j with (length bs) in * by lia. apply (HQ s e q); [done|]. by rewrite drop_all, app_nil_r. }
  destruct (lookup_lt_is_Some_2 bs j) as [b Hbj]; [lia|]. unfold either_copyin. wp_simpl.
  apply wp_myproc_k; [apply Hr|]. intros s1 E1. rewrite (ru_cur _ _ (ry_runs _ _ Hr)). wp_simpl.
  assert (sends i T src bs s1) as Hb1 by (by eapply sends_equiv). pose proof Hb1 as (p & Hp & _).
  eapply wp_getp; [exact Hp|]. eapply (wp_copyin_byte i T src bs j b); [done|done|done|done|done|]. cbn. wp_simpl.
  eapply (wp_uartputc i T src bs (length bs - S j)); [by eapply ready_equiv|eapply sent_eq; [exact (ks_fs_proper _ _ E1)|exact Hq]
    |done|done|done|by apply (Forall_lookup_1 _ _ _ _ Hbs Hbj)|lia|].
  intros s' e' q' H1 H2 H3 H4 H5 H6. replace (Z.of_nat j + 1) with (Z.of_nat (S j)) by lia.
  apply (IH (S j) s' e' q' (out ++ [b])); try done; try lia. intros s2 e2 q2 H7 H8. apply (HQ s2 e2 q2); [done|].
  rewrite <- app_assoc in H8. cbn in H8. by rewrite (drop_S bs b j) by done.
Qed.

End out.
