(* ===== verification/Terminal.v ===== *)
(** * The terminal

    Theorems on the console: input bytes edit and complete lines, reads deliver
    lines, writes reach the serial port in order, and numbers are printed as
    numerals. *)

From Stdlib Require Import ZArith Lia.
From stdpp Require Import base gmap strings numbers list.
From S2P Require Import Prelude Numeral Spinlock Mem Kstring Kalloc Vm PageTable VmFacts Uvm UvmAlloc CopyUser Proc ProcLife ProcFacts ProcOps Exit Sched FsState Sleeplock FsFacts Sample CritSec Pipe File Console ConsoleFacts ConsoleOut.
Local Open Scope xv6_scope.

(** Typing several bytes. *)
Definition type_all (input : list Z) (ql : list Z * list Z) : list Z * list Z :=
  foldl (fun ql c => type_char c ql.1 ql.2) ql input.

(** Some byte of the input completes a line. *)
Fixpoint completes_any (input q l : list Z) : bool :=
  match input with
  | [] => false
  | c :: input => completes c q l || completes_any input (type_char c q l).1 (type_char c q l).2
  end.

(** What typing shows: the echo of each byte, but for control-P, which prints
    the process list. *)
Fixpoint shows (input q l out : list Z) : Prop :=
  match input with
  | [] => out = []
  | c :: input => ∃ o out', out = o ++ out' ∧ (c ≠ C 80 → o = echoes c q l) ∧ shows input (type_char c q l).1 (type_char c q l).2 out'
  end.

Definition wake_if (b : bool) (c : chan) (me : option nat) (ps : list proc) : list proc :=
  if b then imap (wake c me) ps else ps.

Lemma wake_if_or b b' c me ps : wake_if b' c me (wake_if b c me ps) = wake_if (b || b') c me ps.
Proof. destruct b, b'; [apply imap_wake_idem|done..]. Qed.

Section terminal.
Context `{KI : KernelImage}.
Implicit Types s : KS.

Lemma printable_wake c me ps : Forall printable ps → Forall printable (imap (wake c me) ps).
Proof.
  intros H. apply Forall_lookup. intros j p Hj. rewrite list_lookup_imap in Hj. destruct (ps !! j) as [p'|] eqn:E; [|done].
  injection Hj as <-. unfold printable. rewrite Forall_lookup in H. specialize (H j p' E). unfold wake. by case_decide.
Qed.

Lemma calm_equiv me s s' : ks_mach s' ≡ ks_mach s → length (ks_proc s') = length (ks_proc s) → calm me s → calm me s'.
Proof.
  intros E El [H1 H2 H3 H4]. split; [by rewrite E|by rewrite E|intros lk Hlk; rewrite E; by apply H3|by rewrite El].
Qed.

(** What the bytes that have arrived lead to. *)
Record handled (me : option nat) (input q l : list Z) (s s' : KS) : Prop := {
  hd_calm : calm me s';
  hd_mach : ks_mach s' ≡ ks_mach s;
  hd_procs : Forall printable (ks_proc s') ∧ woken (ks_proc s) (ks_proc s');
  hd_mem : k_mem (ks_k s') = k_mem (ks_k s);
  hd_fs : ∃ c, ks_fs s' = upd_con (fun _ => c) (ks_fs s);
  hd_cons : cons_is (fs_con (ks_fs s')) (type_all input (q, l)).1 (type_all input (q, l)).2;
  hd_woken : ks_proc s' = wake_if (completes_any input q l) C_cons_r me (ks_proc s);
  hd_out : ∃ out, ua_out (fs_con (ks_fs s')) = ua_out (fs_con (ks_fs s)) ++ out ∧ shows input q l out;
  hd_rest : con_rest (fs_con (ks_fs s')) = con_rest ((fs_con (ks_fs s)) <| ua_in := [] |>)
}.

Lemma wp_uartintr_loop me : ∀ input fuel s q l Q,
  calm me s → Forall printable (ks_proc s) → pr_panicked (fs_con (ks_fs s)) = 0 → cons_is (fs_con (ks_fs s)) q l →
  ua_in (fs_con (ks_fs s)) = input → bytes input → (length input < fuel)%nat →
  (∀ s', handled me input q l s s' → Q tt s') → wp (uartintr_loop fuel) s Q.
Proof.
  induction input as [|b input IH]; intros fuel s q l Q Hcalm Hpr Hp Hc Hin Hb Hf HQ; (destruct fuel as [|fuel]; [lia|]);
    cbn [uartintr_loop]; unfold uartgetc; wp_simpl; apply wp_read_LSR; intros lsr _ ->; rewrite Hin.
  - wp_simpl. apply HQ. split; try done; [| |by rewrite <- Hin; destruct (fs_con (ks_fs s))].
    + exists (fs_con (ks_fs s)). unfold upd_con, setf. by destruct (ks_fs s).
    + exists []. by rewrite app_nil_r.
  - rewrite bool_decide_true by done. unfold read_RHR. wp_simpl. rewrite Hin. cbn [hd]. apply Forall_cons in Hb as [Hb Hbs].
    destruct (Z.eqb_spec b (-1)); [lia|]. wp_simpl. set (s1 := fsk _ s).
    eapply (wp_consoleintr me s1 b q l); [by apply (calm_equiv me s)|done|done|by destruct Hc|done|].
    intros s2 s3 con' (Es2 & Hc2 & Hr2 & Ho2) E3. cbn [length] in Hf.
    assert (ks_proc s3 = (if completes b q l then imap (wake C_cons_r me) else id) (ks_proc s)) as Ep.
    { rewrite (ks_proc_proper _ _ E3), Es2. done. }
    assert (fs_con (ks_fs s3) = con') as Ec by (by rewrite (ks_fs_proper _ _ E3), Es2).
    assert (con_rest con' = con_rest ((fs_con (ks_fs s)) <| ua_in := input |>)) as Hr3.
    { rewrite Hr2. unfold s1, con_rest, fsk, upd_con, setf. cbn. by rewrite Hin. }
    apply (IH fuel s3 (type_char b q l).1 (type_char b q l).2); [|..|by rewrite Ec|by rewrite Ec; injection Hr3|done|lia|].
    + apply (calm_equiv me s); [by rewrite E3, Es2|rewrite Ep; destruct (completes b q l); [apply length_imap|done]|done].
    + rewrite Ep. destruct (completes b q l); [by apply printable_wake|done].
    + rewrite Ec. injection Hr3. congruence.
    + intros s' [H1 Hm [H2 H2'] H3 [c4 H4] H5 Hw (out & Eo & Ho) H6]. apply HQ. split; [done|by rewrite Hm, E3, Es2|split; [done|]|..].
      * etrans; [|exact H2']. rewrite Ep. destruct (completes b q l); [apply woken_wake|done].
      * rewrite H3. destruct (frame_equiv _ _ E3) as [Hf3 _]. by rewrite (fr_mem _ _ Hf3), Es2.
      * exists c4. rewrite H4, (ks_fs_proper _ _ E3), Es2. done.
      * unfold type_all in *. cbn [foldl fst snd]. by destruct (type_char b q l).
      * rewrite Hw, Ep. cbn [completes_any]. rewrite <- wake_if_or. by destruct (completes b q l).
      * destruct Ho2 as (o & Eo2 & Ho2). exists (o ++ out). rewrite Eo, Ec, Eo2, <- app_assoc. split; [done|]. by exists o, out.
      * rewrite H6, Ec. unfold con_rest, setf in *. cbn in *. congruence.
Qed.

(** C25. An interrupt of the serial port processes every byte that has arrived: it
    implements [type_char], the editing of lines, byte by byte.  Bytes are added
    to the line, backspace and control-U remove them, and a newline, a control-D
    or a full buffer hands the line to the readers.  Every process that sleeps for
    a line is woken exactly if a line was completed.  The echo of the bytes, and
    after it the head of what was waiting in the transmit ring, go out to the port,
    as far as the port has room; if any of the ring went out its writers are
    woken.  Nothing else changes. *)
Theorem uartintr_refines me s q l tx :
  calm me s → Forall printable (ks_proc s) → cons_is (fs_con (ks_fs s)) q l → tx_is (fs_con (ks_fs s)) tx → bytes tx →
  bytes (ua_in (fs_con (ks_fs s))) →
  wp uartintr s (fun _ s' => let input := ua_in (fs_con (ks_fs s)) in let ql := type_all input (q, l) in
    cons_is (fs_con (ks_fs s')) ql.1 ql.2 ∧ ua_in (fs_con (ks_fs s')) = [] ∧
    (∃ k out, tx_is (fs_con (ks_fs s')) (drop k tx) ∧ shows input q l out ∧
       ua_out (fs_con (ks_fs s')) = ua_out (fs_con (ks_fs s)) ++ out ++ take k tx ∧
       (drop k tx = [] ∨ ua_room (fs_con (ks_fs s')) = 0%nat) ∧
       ks_proc s' = wake_if (negb (bool_decide (k = 0%nat))) C_uart_tx_r me
         (wake_if (completes_any input q l) C_cons_r me (ks_proc s))) ∧
    ks_mach s' ≡ ks_mach s ∧ k_mem (ks_k s') = k_mem (ks_k s) ∧ ∃ c, ks_fs s' = upd_con (fun _ => c) (ks_fs s)).
Proof.
  intros Hcalm Hpr Hc Htx Hbt Hb. unfold uartintr. wp_simpl.
  eapply (wp_uartintr_loop me _ _ s q l); [done|done|apply Htx|done|done|done|lia|].
  intros s1 [H1 Hm _ Hmem [c1 Efs1] H5 Hw (out & Eo1 & Hout) H6].
  assert (tx_is (fs_con (ks_fs s1)) tx) as Htx1.
  { destruct Htx as [A1 A2 A3 A4 A5]. unfold con_rest in H6. injection H6 as B1 B2 B3 _ B5 _. split; congruence. }
  wp_simpl. apply wp_acq; [apply H1|by apply H1|]. unfold uartstart. wp_simpl.
  change (fs_con (ks_fs (set_kmach (acq L_uart_tx (ks_mach s1)) s1))) with (fs_con (ks_fs s1)). rewrite (tx_is_used _ _ Htx1).
  eapply (wp_uartstart_loop me L_uart_tx s1 H1 ltac:(done) _ tx); [apply insec_start|done|done|lia|].
  intros s2 c2 k Hs2 Efs Htx2 Hk Ei _ Em Ep Eo Er. eapply (wp_rel L_uart_tx s1); [apply H1|by apply H1|by rewrite (is_mach _ _ _ Hs2)|].
  intros s' E'. assert (fs_con (ks_fs s') = c2) as Ec by (rewrite (ks_fs_proper _ _ E'); cbn; by rewrite Efs).
  rewrite Ec. split; [by eapply cons_is_input|]. split; [|split; [exists k, out|split; [by rewrite E', <- Hm|split]]].
  - unfold con_rest in H6. injection H6 as _ _ _ _ _ B6. unfold con_input in Ei. injection Ei as _ _ _ _ ->. exact B6.
  - split; [done|]. split; [done|]. split; [rewrite Eo; cbn; by rewrite Eo1, <- app_assoc|]. split; [done|].
    rewrite (ks_proc_proper _ _ E'). cbn. rewrite Ep. cbn. rewrite Hw. case_decide; case_bool_decide; done.
  - destruct (frame_equiv _ _ E') as [Hf _]. rewrite (fr_mem _ _ Hf). cbn. rewrite Em. done.
  - exists c2. rewrite (ks_fs_proper _ _ E'). cbn. rewrite Efs. cbn. rewrite Efs1. done.
Qed.

(** A read that waits goes on as if the line had been there. *)
Lemma loop_resumes fuel dst n t s ev es s2 q l : (0 < n) → cons_is (fs_con (ks_fs s2)) q l → q ≠ [] →
  (∀ fuel, consoleread_wait (S (S fuel)) (World s (ev :: es)) = Ret true (World s2 es)) →
  consoleread_loop (S fuel) true dst n t (World s (ev :: es)) = consoleread_loop (S fuel) true dst n t (World s2 es).
Proof.
  intros Hn Hc Hq Hw. cbn [consoleread_loop]. destruct (Z.ltb_spec 0 n); [|lia]. cbn [negb].
  etrans; [apply (bind_ret get); reflexivity|]. cbn [w_env length]. etrans; [apply (bind_ret _ _ _ _ _ (Hw (length es)))|]. symmetry.
  etrans; [apply (bind_ret get); reflexivity|]. exact (bind_ret _ _ _ _ _ (wait_ready (length es) s2 es q l Hc Hq)).
Qed.

(** C28. [consoleread] delivers one line to the reader, or the part of it that fits:
    bytes up to and with the newline, or up to a control-D, which a later read
    sees as the end of the file.  If no line is there it sleeps until one
    arrives. *)
Theorem consoleread_correct i T dst n q l d q' l' s e :
  ready i s → cons_is (fs_con (ks_fs s)) q l → bytes q → reader i T dst (S n) s → 0 ≤ dst → dst + Z.of_nat (S n) ≤ 2 ^ 64 →
  Z.of_nat (S n) < 2 ^ 31 →
  (q ≠ [] ∧ line_of false (S n) q = Some (d, q') ∧ l' = l ∨ q = [] ∧ ∃ ev es, e = ev :: es ∧ arrives i T dst (S n) d q' l' ev) →
  wp (consoleread true dst (Z.of_nat (S n))) (World s e) (fun r w' =>
    r = Z.of_nat (length d) ∧ cons_is (fs_con (ks_fs (w_k w'))) q' l' ∧ ready i (w_k w') ∧
    ∃ m, uwrite m T m dst d = (true, k_mem (ks_k (w_k w')))).
Proof.
  intros Hr Hc Hb Hrd H0 Hmax HN Hsrc. unfold consoleread. wp_simpl. apply (wp_enter i); [done|by apply Hr|done|]. intros Hs. wp_simpl.
  rewrite Nat2Z.id. set (s1 := set_kmach _ s) in *.
  assert (∃ m2 s2 e2 q2, inside L_cons i L_cons m2 s2 ∧ cons_is (fs_con (ks_fs s2)) q2 l' ∧ bytes q2 ∧
    line_of false (S n) q2 = Some (d, q') ∧ reader i T dst (S n) s2 ∧
    ∀ t, consoleread_loop (S (S n)) true dst (Z.of_nat (S n)) t (World s1 e) =
         consoleread_loop (S (S n)) true dst (Z.of_nat (S n)) t (World s2 e2)) as (m2 & s2 & e2 & q2 & H1 & H2 & H3 & H4 & H5 & H6).
  { destruct Hsrc as [(_ & Hline & ->)|(-> & ev & es & -> & Ha)]; [by exists (ks_mach s), s1, e, q|].
    destruct (wait_sleeps i T dst n d q' l' ev es (ks_mach s) s1 l) as (m2 & s2 & q2 & Hw & H1 & H2 & H3 & H4 & H5 & H6); [done..|].
    exists m2, s2, es, q2. do 5 (split; [done|]). intros t. by eapply loop_resumes. }
  destruct H5 as (Hu & Hacc & _). eapply wp_outcome; [apply H6|].
  assert (u64 (dst + Z.of_nat 0) = dst) as Ed by zlia. rewrite <- Ed at 1.
  apply (wp_consoleread_loop i T (k_mem (ks_k s2)) dst (S n) m2 _ H0 Hmax HN Hacc (S (S n)) 0%nat s2 e2 q2 l' d q');
    [done|done|done|exact H4|done|lia|lia|].
  intros s3 H7 H8 _ Hl Hw. wp_simpl. eapply wp_leave; [exact H7|]. intros s' Hs'. wp_simpl.
  rewrite Nat.sub_0_r in *. split; [rewrite u32_small by lia; rewrite i32_small; lia|].
  cbn [w_k]. split; [by rewrite (ks_fs_proper _ _ Hs')|]. split; [by eapply inside_ready|]. exists (k_mem (ks_k s2)).
  destruct (frame_equiv _ _ Hs') as [Hf _]. rewrite (fr_mem _ _ Hf). by rewrite Z.add_0_r in Hw.
Qed.

(** [consolewrite] appends the caller's bytes to the stream of bytes on their
    way to the serial port, in order, sleeping while the transmit buffer is
    full. *)
Theorem consolewrite_correct i T src bs q out s e :
  ready i s → sent q out s → sends i T src bs s → bytes bs → bytes q → 0 ≤ src → src + Z.of_nat (length bs) ≤ 2 ^ 64 →
  Forall (transmits i T src bs) e → (length q + length bs ≤ 32 + length e)%nat →
  wp (consolewrite true src (Z.of_nat (length bs))) (World s e) (fun r w' =>
    r = Z.of_nat (length bs) ∧ ready i (w_k w') ∧ ∃ q', sent q' (out ++ bs) (w_k w')).
Proof.
  intros Hr Hq Hb Hbs Hby H0 Hmax He Hroom. unfold consolewrite. rewrite Nat2Z.id.
  apply (wp_consolewrite_loop i T src bs _ H0 Hmax Hbs _ 0%nat s e q out); try done; try lia.
  intros s' e' q' H1 H2. split; [done|]. split; [done|]. by exists q'.
Qed.

(** C35. [printint] prints every [int] as its numeral, with at least one digit, no
    needless zero in front and a minus sign if it is negative, and never fills
    more than 11 of the 16 bytes of its buffer. *)
Theorem printint_correct xx base s :
  base = 10 ∨ base = 16 → - 2 ^ 31 ≤ xx < 2 ^ 31 → mach_ok (ks_mach s) → pr_panicked (fs_con (ks_fs s)) = 0 →
  wp (printint xx base true) s (fun _ s' =>
    ∃ txt, s' ≡ fsk (upd_con (emits txt)) s ∧ int_numeral digits base xx txt ∧ (length txt ≤ 11)%nat).
Proof.
  intros Hb Hx Hok Hp. destruct (prints_int xx base Hb Hx) as (txt & Hpr & Hl & Hv).
  apply Hpr; [done|by intros lk ?%not_elem_of_nil|done|]. intros s' Hs'. by exists txt.
Qed.

End terminal.

(** ** Examples *)

#[local] Existing Instance small_image.

(** [typed_in] lies in the ring, [arrived] in the receiver. *)
Definition sample_console (typed_in arrived : list Z) : console :=
  Console (typed_in ++ replicate (128 - length typed_in) 0) 0 (Z.of_nat (length typed_in)) (Z.of_nat (length typed_in))
    (replicate 32 0) 0 0 1 0 arrived [] 1.
Lemma sample_cons l arrived : (length l ≤ 100)%nat → cons_is (sample_console l arrived) l [].
Proof.
  intros Hl. split; cbn [sample_console cn_buf cn_r cn_w cn_e]; rewrite ?length_app, ?length_replicate; [lia| |lia|zlia|cbn; zlia|by apply not_elem_of_nil].
  rewrite app_nil_r. split; rewrite length_app, length_replicate; [lia|]. intros j b Hj. pose proof (lookup_lt_Some _ _ _ Hj).
  assert (Z.to_nat ((0 + Z.of_nat j) mod Z.of_nat (length l + (128 - length l))) = j) as ->.
  { replace (length l + (128 - length l))%nat with 128%nat by lia. rewrite Z.mod_small; lia. }
  by rewrite lookup_app_l.
Qed.

Lemma sample_tx l arrived : tx_is (sample_console l arrived) [].
Proof. split; [done| |cbn; lia|done|done]. split; [cbn; lia|done]. Qed.

Lemma sample_printable c : Forall printable (ks_proc (user_ks (con_fs c))).
Proof. repeat (constructor; [split; [cbn; lia|by eexists]|]). constructor. Qed.

Lemma uartintr_refines_witness :
  wp uartintr (user_ks (con_fs (sample_console [] [104; 120; 8; 105; 13]))) (fun _ s' =>
    cons_is (fs_con (ks_fs s')) [104; 105; 10] [] ∧ ua_out (fs_con (ks_fs s')) = [104; 120; 8; 32; 8; 105; 10]).
Proof.
  eapply wp_mono.
  - apply (uartintr_refines (Some 0%nat) _ [] [] []);
      [apply quiet_calm, user_ks_quiet|apply sample_printable|apply (sample_cons []); cbn; lia|apply (sample_tx [])|constructor|].
    repeat constructor; lia.
  - intros u s' (H & _ & (k & out & _ & Hout & -> & _) & _). split; [exact H|]. rewrite take_nil, app_nil_r.
    cbn in Hout. destruct Hout as (o1 & ? & -> & H1 & o2 & ? & -> & H2 & o3 & ? & -> & H3 & o4 & ? & -> & H4 & o5 & ? & -> & H5 & ->).
    by rewrite H1, H2, H3, H4, H5.
Defined.

Lemma consoleread_correct_witness :
  wp (consoleread true 16 5) (World (user_ks (con_fs (sample_console [104; 105; 10; 7] []))) []) (fun r w' =>
    r = 3 ∧ cons_is (fs_con (ks_fs (w_k w'))) [7] []).
Proof.
  eapply wp_mono.
  - apply (consoleread_correct 0 user_tbl 16 4 [104; 105; 10; 7] [] [104; 105; 10] [7] []);
      [apply quiet_ready, user_ks_quiet|apply sample_cons; cbn; lia|repeat constructor; lia| |lia|cbn; lia|cbn; lia|by left].
    split; [|split].
    + eexists. split; [reflexivity|]. split; [apply user_pt_rep|]. split; [done|].
      intros a Ha _. change (k_mem _) with user_mem. rewrite user_uaddr by lia. apply page_3_target.
    + intros a Ha. change (k_mem _) with user_mem. by rewrite user_uaddr by lia.
    + intros p [= <-]. done.
  - intros r w' (-> & H & _). done.
Defined.

Lemma consolewrite_correct_witness :
  wp (consolewrite true 0 3) (World (user_ks (con_fs (sample_console [] []))) []) (fun r w' =>
    r = 3 ∧ ∃ q', sent q' [104; 105; 33] (w_k w')).
Proof.
  eapply wp_mono.
  - apply (consolewrite_correct 0 user_tbl 0 [104; 105; 33] [] []);
      [apply quiet_ready, user_ks_quiet|split; [apply (sample_tx [])|done]| |repeat constructor; lia|constructor|lia|cbn; lia|constructor|cbn; lia].
    eexists. split; [reflexivity|]. split; [done|]. split; [apply user_pt_rep|]. split; [|by vm_compute].
    intros a Ha _. cbn in Ha. cbn [ks_k k_mem user_ks]. by rewrite user_uaddr by lia.
  - intros r w' (-> & _ & H). split; [done|exact H].
Defined.

Lemma printint_correct_witness :
  wp (printint 0 10 true) (user_ks (con_fs (sample_console [] []))) (fun _ s' =>
    s' ≡ fsk (upd_con (emits [48])) (user_ks (con_fs (sample_console [] [])))).
Proof.
  eapply wp_mono.
  - apply (printint_correct 0 10); [by left|lia|exact (cl_ok _ _ (quiet_calm _ _ (user_ks_quiet _)))|done].
  - intros u s' (txt & H & (ds & Hn & ->) & _). enough (ds = [48]) as -> by exact H.
    apply (numeral_unique digits digit_ok 10 0); [lia|exact Hn|]. split; [|done|done|cbn; lia].
    apply Forall_singleton. exists 0%nat. split; [lia|done].
Defined.
