(* ===== verification/FsRead.v ===== *)
(** * Reading files (kernel/fs.c)

    [file_is a ip data] says that the blocks of the store [a] which the inode
    [ip] lists, directly or through its indirect block, hold [data].  On such a
    file [bmap] allocates nothing and [readi] delivers a slice of [data]. *)

From Stdlib Require Import ZArith Lia.
From stdpp Require Import base gmap strings numbers list.
From S2P Require Import Prelude Spinlock Mem Kstring Kalloc Vm PageTable VmFacts Uvm UvmAlloc CopyUser Proc ProcFacts ProcOps Sched FsState Sleeplock FsFacts Bio BioFacts BioOps Log LogFacts Fs.
Local Open Scope xv6_scope.

(** A step that may also have changed memory. *)
Definition mstep (m : gmap Z Z) (w w' : W) : Prop := fstep [] (World (with_mem m (w_k w)) (w_env w)) w'.

Lemma with_mem_id s : with_mem (k_mem (ks_k s)) s = s.
Proof. by destruct s as [[]]. Qed.

Lemma fstep_mem m w w' : fstep [] w w' →
  fstep [] (World (with_mem m (w_k w)) (w_env w)) (World (with_mem m (w_k w')) (w_env w')).
Proof. intros [[F1 F2 F3 F4 F5 F6 F7 F8 F9] H2 H3]. split; [|done|done]. by split. Qed.

Lemma fstep_mstep s e s' e' : fstep [] (World s e) (World s' e') → mstep (k_mem (ks_k s')) (World s e) (World s' e').
Proof. intros H. apply (fstep_mem (k_mem (ks_k s'))) in H. cbn [w_k] in H. by rewrite with_mem_id in H. Qed.

Lemma mstep_trans m m' w1 w2 w3 : mstep m w1 w2 → mstep m' w2 w3 → mstep m' w1 w3.
Proof. intros H1 H2. apply (fstep_mem m') in H1. by eapply (fstep_trans [] []). Qed.

Lemma fstep_inode tr s e s' e' : fstep tr (World s e) (World s' e') → fs_inode (ks_fs s') = fs_inode (ks_fs s).
Proof. by intros [_ [_ _ H _ _] _]. Qed.

Lemma fstep_kmem tr s e s' e' : fstep tr (World s e) (World s' e') → k_mem (ks_k s') = k_mem (ks_k s).
Proof. by intros [[_ H _] _ _]. Qed.

Lemma frame_mstep m s s' e : frame (with_mem m s) s' → ks_fs s' = ks_fs s → mstep m (World s e) (World s' e).
Proof. intros Hf Hfs. split; cbn [w_k]; rewrite ?Hfs; [done|by split|by rewrite app_nil_r]. Qed.

Lemma mstep_inode m s e s' e' : mstep m (World s e) (World s' e') → fs_inode (ks_fs s') = fs_inode (ks_fs s).
Proof. by intros [_ [_ _ H _ _] _]. Qed.

(** ** Slices *)

(** [n] bytes of the file from [off] on. *)
Definition slice (off n : Z) (data : list Z) : list Z := take (Z.to_nat n) (drop (Z.to_nat off) data).

Lemma length_slice off n data : 0 ≤ off → 0 ≤ n → off + n ≤ Z.of_nat (length data) →
  length (slice off n data) = Z.to_nat n.
Proof. intros H1 H2 H3. unfold slice. rewrite length_take, length_drop. lia. Qed.

Lemma slice_app off n m data : 0 ≤ off → 0 ≤ n → 0 ≤ m →
  slice off (n + m) data = slice off n data ++ slice (off + n) m data.
Proof.
  intros H1 H2 H3. unfold slice. rewrite (Z2Nat.inj_add n m), (Z2Nat.inj_add off n) by lia.
  rewrite <- drop_drop. rewrite <- (take_drop (Z.to_nat n) (take (Z.to_nat n + Z.to_nat m) _)).
  rewrite take_take, skipn_firstn_comm. f_equal; [f_equal; lia|f_equal; lia].
Qed.

(** A piece of one block. *)
Lemma slice_block data off m k d :
  0 ≤ off → 0 ≤ m → k = off / BSIZE → off mod BSIZE + m ≤ BSIZE → off + m ≤ Z.of_nat (length data) →
  (∀ j, 0 ≤ j < BSIZE → k * BSIZE + j < Z.of_nat (length data) →
     data !! Z.to_nat (k * BSIZE + j) = d !! Z.to_nat j) →
  slice (off mod BSIZE) m d = slice off m data.
Proof.
  intros H0 Hm -> Hfit Hlen Hd. unfold slice, BSIZE in *. apply list_eq. intros j.
  destruct (decide (j < Z.to_nat m)%nat) as [Hj|Hj].
  - rewrite !lookup_take_lt, !lookup_drop by lia.
    specialize (Hd (off mod 1024 + Z.of_nat j) ltac:(zlia) ltac:(zlia)).
    replace (off / 1024 * 1024 + (off mod 1024 + Z.of_nat j)) with (off + Z.of_nat j) in Hd by zlia.
    rewrite !Z2Nat.inj_add, Nat2Z.id in Hd by zlia. done.
  - rewrite !lookup_take_ge by lia. done.
Qed.

(** ** Writes to user memory, piece by piece *)

Lemma uwrite_app m0 T m va bs bs' :
  uwrite m0 T m va (bs ++ bs') =
    let '(ok, m') := uwrite m0 T m va bs in
    if ok then uwrite m0 T m' (va + Z.of_nat (length bs)) bs' else (false, m').
Proof.
  revert m va. induction bs as [|b bs IH]; intros m va; cbn [uwrite app length]; [by rewrite Z.add_0_r|].
  destruct (uaddr m0 T va =? 0); [done|]. rewrite IH. destruct (uwrite _ _ _ _ bs) as [[] m']; [|done]. f_equal. lia.
Qed.

Lemma uwrite_total `{KI : KernelImage} m0 T m va bs :
  (∀ a, va ≤ a < va + Z.of_nat (length bs) → uaddr m0 T a ≠ 0 ∧ target_ok T (uaddr m0 T a)) → same_tbl T m0 m →
  ∃ m', uwrite m0 T m va bs = (true, m') ∧ same_tbl T m0 m'.
Proof.
  revert m va. induction bs as [|b bs IH]; intros m va Hok Hst; cbn [uwrite length] in *; [by exists m|].
  destruct (Hok va) as [Hne [_ Hout]]; [lia|]. rewrite (proj2 (Z.eqb_neq _ 0)) by done. apply IH; [intros a Ha; apply Hok; lia|].
  intros c x Hc Hx. rewrite lookup_insert_ne; [by eapply Hst|]. intros <-. eapply Hout; [|exact Hc|exact Hx].
  unfold ubyte. zlia.
Qed.

Section read.
Context `{KI : KernelImage} `{DO : DiskOps} `{DL : !DiskLaws}.
Implicit Types (w : W) (a : bstore) (s : KS).

(** ** Looking at one block *)

Lemma wp_fetch i n s e a bn d (Q : nat → W → Prop) :
  at_fs i (S n) (World s e) a → readable 1 a bn → bs_mem a !! bn = Some d →
  (∀ b x s' e', at_fs i n (World s' e') (got bn a) → fstep [] (World s e) (World s' e') →
     loaded (ks_fs s') b bn → fs_buf (ks_fs s') !! b = Some x → b_data x = d → Q b (World s' e')) →
  wp (bread ROOTDEV bn) (World s e) Q.
Proof.
  intros Hat Hrd Hd HQ. pose proof (rd_num _ _ _ Hrd).
  replace bn with (u32 bn) by zlia. eapply wp_read; [exact Hat|done|].
  intros b [s' e'] Hat' Hst _ Hld. destruct (loaded_data _ _ _ _ _ (af_rep _ _ _ _ Hat') Hld)
    as (x & _ & Hx & _ & _ & _ & _ & Hm). apply (HQ b x); try done. cbn in Hm. rewrite Hd in Hm. by injection Hm.
Qed.

(** A block that was only looked at is released. *)
Lemma wp_unfetch i n s e a bn b (Q : unit → KS → Prop) :
  at_fs i n (World s e) (got bn a) → loaded (ks_fs s) b bn → readable 1 a bn → counts a → block_state a bn →
  (∀ s', at_fs i n (World s' e) a → fstep [] (World s e) (World s' e) → Q tt s') →
  wp (brelse b) s Q.
Proof.
  intros Hat Hld Hrd Hc Hbk HQ. pose proof (refs_got bn a bn) as Hg. rewrite decide_True in Hg by done.
  eapply (wp_brelse i n s e _ b bn); [exact Hat|by apply loaded_holds|apply got_locked| | |].
  - rewrite Hg. apply Hrd.
  - rewrite Hg. destruct (counts_refs a bn Hc) as [Hp Hz]. destruct (decide (refs a bn = 0)) as [E|E]; [right|left; lia].
    apply (bk_clean _ _ Hbk), Hz, E.
  - intros s' Hat' Hst' _. apply HQ; [|done]. by rewrite released_got in Hat' by (done || apply Hrd).
Qed.

Lemma at_fs_counts i n w a : at_fs i n w a → counts a.
Proof. intros H. by eapply rep_counts, H. Qed.

Lemma at_fs_block i n w a bn : at_fs i n w a → block_state a bn.
Proof. intros H. by eapply cache_rep_block, H. Qed.

Lemma at_fs_mem i n s e a m : at_fs i n (World s e) a → at_fs i n (World (with_mem m s) e) a.
Proof. intros [[H1 H2 H3 H4] H5 H6 H7]. by split. Qed.

Lemma at_fs_frame i n s s' e a :
  at_fs i n (World s e) a → frame s s' → ks_fs s' = ks_fs s → at_fs i n (World s' e) a.
Proof.
  intros [H1 H2 H3 H4] Hf Hfs. cbn [w_k w_env] in *. split; cbn [w_k w_env]; rewrite ?Hfs; [by eapply quiet_frame| |done|done].
  by rewrite (pid_of_frame _ _ _ Hf).
Qed.

(** ** The blocks of a file *)

Definition block_of (a : bstore) (ip : inode) (k addr : Z) : Prop :=
  addr ≠ 0 ∧
  (0 ≤ k < NDIRECT ∧ i_addrs ip !! Z.to_nat k = Some addr ∨
   NDIRECT ≤ k < MAXFILE ∧ ∃ ia d, i_addrs ip !! Z.to_nat NDIRECT = Some ia ∧ ia ≠ 0 ∧ readable 1 a ia ∧
     bs_mem a !! ia = Some d ∧ get_at (4 * (k - NDIRECT)) 4 d = addr).

Lemma wp_geti j ip s Q : fs_inode (ks_fs s) !! j = Some ip → Q ip s → wp (geti j) s Q.
Proof. intros Hj HQ. unfold geti. wp_simpl. by rewrite Hj. Qed.

Lemma wp_bmap i n s e a j ip k addr (Q : Z → W → Prop) :
  at_fs i (S n) (World s e) a → fs_inode (ks_fs s) !! j = Some ip → i_dev ip = ROOTDEV → block_of a ip k addr →
  (∀ s' e', at_fs i n (World s' e') a → fstep [] (World s e) (World s' e') → Q addr (World s' e')) →
  wp (bmap j k) (World s e) Q.
Proof.
  intros Hat Hj Hdev [Hne Hk] HQ. unfold bmap. wp_simpl. eapply wp_geti; [exact Hj|].
  destruct Hk as [[Hk Ha]|(Hk & ia & d & Ha & Hia & Hrd & Hd & Hg)].
  - rewrite (proj2 (Z.ltb_lt _ _)) by lia. rewrite Ha. wp_simpl. rewrite (proj2 (Z.eqb_neq _ _)) by done. wp_simpl.
    apply HQ; [by apply at_fs_weaken|apply fstep_refl].
  - rewrite (proj2 (Z.ltb_ge _ _)) by lia. cbv zeta. unfold MAXFILE in Hk. rewrite (proj2 (Z.ltb_lt _ _)) by lia.
    rewrite Ha. wp_simpl. rewrite (proj2 (Z.eqb_neq ia 0)) by done. wp_simpl.
    rewrite (proj2 (Z.eqb_neq ia 0)) by done. wp_simpl. rewrite Hdev.
    eapply wp_fetch; [exact Hat|done|exact Hd|]. intros b x s1 e1 Hat1 Hst1 Hld Hx Hxd. wp_simpl.
    eapply wp_getb; [exact Hx|]. cbv zeta. rewrite Hxd, Hg, (proj2 (Z.eqb_neq addr 0)) by done. wp_simpl.
    eapply wp_unfetch; [exact Hat1|done|done|by eapply at_fs_counts|by eapply at_fs_block|].
    intros s2 Hat2 Hst2. wp_simpl. apply HQ; [done|]. by eapply (fstep_trans [] []).
Qed.

Record file_is (a : bstore) (ip : inode) (data : list Z) : Prop := {
  fi_dev : i_dev ip = ROOTDEV;
  fi_size : i_size ip = Z.of_nat (length data);
  fi_max : Z.of_nat (length data) ≤ MAXFILE * BSIZE;
  fi_block : ∀ k, 0 ≤ k → k * BSIZE < Z.of_nat (length data) →
    ∃ addr d, block_of a ip k addr ∧ readable 1 a addr ∧ bs_mem a !! addr = Some d ∧
      ∀ j, 0 ≤ j < BSIZE → k * BSIZE + j < Z.of_nat (length data) →
        data !! Z.to_nat (k * BSIZE + j) = d !! Z.to_nat j
}.

(** ** [readi] *)

(** The page table of a process. *)
Definition pgtbl (i : nat) (s : KS) : Z := match ks_proc s !! i with Some p => p_pagetable p | None => 0 end.

Lemma pgtbl_frame i s s' : frame s s' → pgtbl i s' = pgtbl i s.
Proof.
  intros Hf. unfold pgtbl. destruct (ks_proc s !! i) as [p|] eqn:Hp.
  - destruct (woken_lookup _ _ _ _ (fr_procs _ _ Hf) Hp) as (p' & -> & [->|[_ ->]]); done.
  - apply lookup_ge_None in Hp. rewrite (Forall2_length _ _ _ (fr_procs _ _ Hf)) in Hp.
    by rewrite lookup_ge_None_2.
Qed.

(** [copy_to t] stores its bytes: after [done], memory is described by [J done]. *)
Definition copies (i : nat) (root : Z) (t : target) (D : list Z) (J : list Z → gmap Z Z → Prop) : Prop :=
  ∀ done bs s, quiet i s → pgtbl i s = root → J done (k_mem (ks_k s)) → done ++ bs `prefix_of` D →
    wp (copy_to t done bs) s (fun r s' => r = (0, done ++ bs) ∧
      ∃ m, frame (with_mem m s) s' ∧ ks_fs s' = ks_fs s ∧ J (done ++ bs) m).

Lemma copies_local i root D m0 : copies i root T_local D (fun _ m => m = m0).
Proof.
  intros done bs s _ _ H _. cbn. split; [done|]. exists (k_mem (ks_k s)). by rewrite with_mem_id.
Qed.

Lemma wp_readi_loop i root j ip a data t off0 n J c Q (D := slice off0 n data) :
  file_is a ip data → 0 ≤ off0 → 0 ≤ n → off0 + n ≤ Z.of_nat (length data) → copies i root t D J →
  ∀ fuel rounds s e tot off, off = off0 + tot →
  at_fs i (2 * rounds + c) (World s e) a → fs_inode (ks_fs s) !! j = Some ip → pgtbl i s = root →
  0 ≤ tot ≤ n → J (slice off0 tot data) (k_mem (ks_k s)) →
  (tot < n → (off0 + tot) mod BSIZE + (n - tot) ≤ BSIZE * Z.of_nat rounds) → n - tot < Z.of_nat fuel →
  (∀ s' e', at_fs i c (World s' e') a → mstep (k_mem (ks_k s')) (World s e) (World s' e') →
     J D (k_mem (ks_k s')) → Q (n, D) (World s' e')) →
  wp (readi_loop fuel j t (slice off0 tot data) off n) (World s e) Q.
Proof.
  intros Hf H0 Hn Hlen Hc. induction fuel as [|fuel IH]; intros rounds s e tot off -> Hat Hj Hpt Htot HJ Hr Hfu HQ; [lia|].
  cbn [readi_loop]. rewrite length_slice, Z2Nat.id by lia.
  destruct (Z.ltb_spec tot n) as [Hlt|Hge]; cbn [negb].
  2:{ wp_simpl. replace tot with n in * by lia. apply HQ; [eapply at_fs_le; [|exact Hat]; lia|apply fstep_mstep, fstep_refl|done]. }
  specialize (Hr Hlt). unfold BSIZE in Hr. destruct rounds as [|rounds]; [zlia|].
  destruct (fi_block _ _ _ Hf ((off0 + tot) / BSIZE)) as (addr & d & Hb & Hrd & Hd & Heq); [unfold BSIZE; zlia..|].
  wp_simpl. replace (2 * S rounds + c)%nat with (S (S (2 * rounds + c))) in Hat by lia.
  eapply wp_bmap; [exact Hat|exact Hj|apply Hf|exact Hb|]. intros s1 e1 Hat1 Hst1.
  destruct Hb as [Hne _]. rewrite (proj2 (Z.eqb_neq addr 0)) by done. wp_simpl.
  assert (fs_inode (ks_fs s1) !! j = Some ip) as Hj1 by (by rewrite (fstep_inode _ _ _ _ _ Hst1)).
  eapply wp_geti; [exact Hj1|]. rewrite (fi_dev _ _ _ Hf). wp_simpl.
  eapply wp_fetch; [exact Hat1|done|exact Hd|]. intros b x s2 e2 Hat2 Hst2 Hld Hx Hxd. wp_simpl.
  eapply wp_getb; [exact Hx|]. cbv zeta. rewrite Hxd. set (m := Z.min (n - tot) (BSIZE - (off0 + tot) mod BSIZE)).
  assert (0 < m ≤ n - tot ∧ (off0 + tot) mod BSIZE + m ≤ BSIZE) as [Hm Hfit] by (unfold m, BSIZE in *; zlia).
  fold (slice ((off0 + tot) mod BSIZE) m d). rewrite (slice_block data (off0 + tot) m _ d) by (done || lia).
  assert (slice off0 tot data ++ slice (off0 + tot) m data = slice off0 (tot + m) data) as Happ by (by rewrite slice_app by lia).
  pose proof (fstep_trans [] [] _ _ _ Hst1 Hst2) as Hst. wp_simpl. eapply wp_mono.
  { apply Hc; [apply (af_quiet _ _ _ _ Hat2)|by rewrite (pgtbl_frame _ _ _ (ft_frame _ _ _ Hst))|rewrite (fstep_kmem _ _ _ _ _ Hst); exact HJ|].
    rewrite Happ. exists (slice (off0 + (tot + m)) (n - (tot + m)) data). unfold D.
    rewrite <- slice_app by lia. f_equal. lia. }
  rewrite Happ. intros r s3 [-> (mem & Hf3 & Hfs3 & HJ3)]. wp_simpl.
  assert (at_fs i (2 * rounds + c) (World s3 e2) (got addr a)) as Hat3.
  { eapply at_fs_frame; [apply at_fs_mem; exact Hat2|exact Hf3|exact Hfs3]. }
  eapply wp_unfetch; [exact Hat3|by rewrite Hfs3|done|by eapply at_fs_counts|by eapply at_fs_block|].
  intros s4 Hat4 Hst4. cbn. wp_simpl.
  assert (mstep (k_mem (ks_k s4)) (World s e) (World s4 e2)) as Hms.
  { eapply mstep_trans; [by apply fstep_mstep|]. eapply mstep_trans; [|by apply fstep_mstep].
    by apply (frame_mstep mem). }
  eapply (IH rounds); [lia|exact Hat4|by rewrite (mstep_inode _ _ _ _ _ Hms)|by rewrite (pgtbl_frame _ _ _ (ft_frame _ _ _ Hms))|lia| | |lia|].
  - rewrite (fstep_kmem _ _ _ _ _ Hst4). by rewrite (fr_mem _ _ Hf3).
  - intros Hlt'. unfold m, BSIZE in *. zlia.
  - intros s' e' H1 H2 H3. apply HQ; [done| |done]. by eapply mstep_trans.
Qed.

Lemma wp_readi i root j ip a data t off n J c rounds s e Q (m := Z.min n (Z.of_nat (length data) - off)) :
  file_is a ip data → 0 ≤ off ≤ Z.of_nat (length data) → 0 ≤ n → off + n < 2 ^ 32 →
  copies i root t (slice off m data) J →
  at_fs i (2 * rounds + c) (World s e) a → fs_inode (ks_fs s) !! j = Some ip → pgtbl i s = root →
  J [] (k_mem (ks_k s)) → off mod BSIZE + m ≤ BSIZE * Z.of_nat rounds →
  (∀ s' e', at_fs i c (World s' e') a → mstep (k_mem (ks_k s')) (World s e) (World s' e') →
     J (slice off m data) (k_mem (ks_k s')) → Q (m, slice off m data) (World s' e')) →
  wp (readi j t off n) (World s e) Q.
Proof.
  intros Hf Hoff Hn Hmax Hc Hat Hj Hpt HJ Hr HQ. pose proof (fi_max _ _ _ Hf) as Hsz.
  change (MAXFILE * BSIZE) with 274432 in Hsz. unfold readi. wp_simpl. eapply wp_geti; [exact Hj|].
  rewrite (fi_size _ _ _ Hf). assert (u32 (off + n) = off + n) as -> by zlia.
  rewrite (proj2 (Z.ltb_ge _ off)), (proj2 (Z.ltb_ge (off + n) off)) by lia. cbn [orb]. cbv zeta.
  assert ((if Z.of_nat (length data) <? off + n then Z.of_nat (length data) - off else n) = m) as ->.
  { unfold m. destruct (Z.ltb_spec (Z.of_nat (length data)) (off + n)); lia. }
  wp_simpl. change [] with (slice off 0 data).
  apply (wp_readi_loop i root j ip a data t off m J c) with (rounds := rounds); try done; try lia.
  - rewrite Z.add_0_r. lia.
  - intros s' e' H1 H2 H3. wp_simpl. replace (i32 m) with m by zlia. by apply HQ.
Qed.

(** Into user memory. *)
Lemma copies_user i root T m0 dst D :
  pt_rep m0 root T → bytes D → 0 ≤ dst → dst + Z.of_nat (length D) < 2 ^ 64 →
  (∀ va, dst ≤ va < dst + Z.of_nat (length D) → uaddr m0 T va ≠ 0 ∧ target_ok T (uaddr m0 T va)) →
  copies i root (T_addr true dst) D (fun done m => uwrite m0 T m0 dst done = (true, m) ∧ same_tbl T m0 m).
Proof.
  intros Hpt Hb H0 Hmax Hok done bs s Hq Hroot [Hw Hst] [rest HD]. cbn [copy_to]. unfold either_copyout. wp_simpl.
  apply wp_myproc_k; [apply Hq|]. intros s1 Hs1. rewrite (ru_cur _ _ (qu_runs _ _ Hq)). wp_simpl.
  destruct (qu_me _ _ Hq) as (p & Hp & _). eapply wp_getp; [by rewrite (ks_proc_proper _ _ Hs1)|].
  assert (p_pagetable p = root) as -> by (unfold pgtbl in Hroot; by rewrite Hp in Hroot).
  destruct (frame_equiv _ _ Hs1) as [Hf1 Hfs1]. unfold onk. rewrite wp_zoom.
  subst D. rewrite !length_app in *. assert (u64 (dst + Z.of_nat (length done)) = dst + Z.of_nat (length done)) as -> by zlia.
  destruct (uwrite_total m0 T (k_mem (ks_k s)) (dst + Z.of_nat (length done)) bs) as (m' & Hw' & Hst').
  { intros va Hva. apply Hok. lia. }
  { done. }
  rewrite <- (fr_mem _ _ Hf1) in Hst, Hw'.
  apply (wp_copyout_loop _ _ _ _ m0 _ T); [done|done| |lia|lia| |].
  { apply Forall_app in Hb as [Hb _]. by apply Forall_app in Hb as [_ Hb]. }
  { intros va Hva _. apply Hok. lia. }
  rewrite Hw'. wp_simpl. split; [done|]. exists m'. split; [|split; [exact Hfs1|]].
  - destruct Hf1. by split.
  - split; [|done]. rewrite uwrite_app, Hw. by rewrite <- (fr_mem _ _ Hf1).
Qed.

End read.
