(* ===== verification/Itable.v ===== *)
(** * The inode table (kernel/fs.c)

    An entry of [itable] with a positive count stands for the inode of its
    device and number; no two entries stand for the same one.  [iget], [idup],
    [ilock], [iunlock] and [iput] are specified as updates of one entry. *)

From Stdlib Require Import ZArith Lia.
From stdpp Require Import base gmap strings numbers list.
From S2P Require Import Prelude Spinlock Mem Kstring Kalloc Vm Proc ProcFacts ProcOps Sched FsState Sleeplock FsFacts Bio BioFacts BioOps Log LogFacts Fs FsRead.
Local Open Scope xv6_scope.

(** ** The table *)

Definition stands_for (dev inum : Z) (ip : inode) : bool :=
  (0 <? i_ref ip) && (i_dev ip =? dev) && (i_inum ip =? inum).

Lemma stands_for_spec dev inum ip :
  stands_for dev inum ip = true ↔ 0 < i_ref ip ∧ i_dev ip = dev ∧ i_inum ip = inum.
Proof. unfold stands_for. rewrite !andb_true_iff, Z.ltb_lt, !Z.eqb_eq. tauto. Qed.

(** The fields that [ilock] reads from the block [d] of disk inodes. *)
Definition load_dinode (d : list Z) (ip : inode) : inode :=
  let off := (i_inum ip mod IPB) * DINODESIZE in
  Inode (i_dev ip) (i_inum ip) (i_ref ip) (i_lock ip) (i_valid ip)
    (i16 (get_at off 2 d)) (i16 (get_at (off + 2) 2 d)) (i16 (get_at (off + 4) 2 d)) (i16 (get_at (off + 6) 2 d))
    (get_at (off + 8) 4 d) (get_addrs off d).

(** The table [t] holds the inodes [R], each with its number of references;
    entries that are valid agree with the disk inodes in [a]; [o] is the entry
    that the process [pid] has locked. *)
Record itable_rep (a : bstore) (sb : superblock) (t : list inode) (R : gmap Z Z) (o : option nat) (pid : Z) : Prop := {
  it_len : length t = NINODE;
  it_ref : ∀ j ip, t !! j = Some ip → 0 ≤ i_ref ip;
  it_dev : ∀ j ip, t !! j = Some ip → 0 < i_ref ip → i_dev ip = ROOTDEV ∧ R !! i_inum ip = Some (i_ref ip);
  it_has : ∀ inum n, R !! inum = Some n → ∃ j ip, t !! j = Some ip ∧ 0 < i_ref ip ∧ i_inum ip = inum;
  it_uniq : ∀ j j' ip ip', t !! j = Some ip → t !! j' = Some ip' → 0 < i_ref ip → 0 < i_ref ip' →
    i_inum ip = i_inum ip' → j = j';
  it_valid : ∀ j ip d, t !! j = Some ip → 0 < i_ref ip → i_valid ip ≠ 0 →
    bs_mem a !! IBLOCK (i_inum ip) sb = Some d → load_dinode d ip = ip;
  it_lock : ∀ j ip, t !! j = Some ip →
    if decide (o = Some j) then sl_locked (i_lock ip) = 1 ∧ sl_pid (i_lock ip) = pid else sl_locked (i_lock ip) = 0;
  it_max : ∀ inum n, R !! inum = Some n → n < 2 ^ 31 - 1
}.

Definition lock_is (o : option nat) (pid : Z) (j : nat) (ip : inode) : Prop :=
  if decide (o = Some j) then sl_locked (i_lock ip) = 1 ∧ sl_pid (i_lock ip) = pid else sl_locked (i_lock ip) = 0.

Definition agrees (a : bstore) (sb : superblock) (ip : inode) : Prop := ∀ d,
  0 < i_ref ip → i_valid ip ≠ 0 → bs_mem a !! IBLOCK (i_inum ip) sb = Some d → load_dinode d ip = ip.

(** The count and the lock do not matter for that. *)
Definition body (ip : inode) : Z * Z * Z * Z * Z * Z * list Z :=
  (i_inum ip, i_type ip, i_major ip, i_minor ip, i_nlink ip, i_size ip, i_addrs ip).

Lemma load_body d ip ip' : body ip' = body ip → load_dinode d ip = ip → load_dinode d ip' = ip'.
Proof.
  intros E H. destruct ip as [x1 x2 x3 x4 x5 x6 x7 x8 x9 x10 x11], ip' as [y1 y2 y3 y4 y5 y6 y7 y8 y9 y10 y11].
  unfold body in E. cbn in E. injection E as -> -> -> -> -> -> ->.
  unfold load_dinode in *. cbn [i_dev i_inum i_ref i_lock i_valid] in *. congruence.
Qed.

Lemma agrees_body a sb ip ip' : body ip' = body ip → i_valid ip' = i_valid ip → 0 < i_ref ip →
  agrees a sb ip → agrees a sb ip'.
Proof.
  intros E Hv Hp H d _ Hv' Hd. apply (load_body d ip); [done|]. apply H; [done|congruence|].
  assert (i_inum ip' = i_inum ip) as <- by (unfold body in E; congruence). done.
Qed.

Lemma rep_agrees a sb t R o pid j ip : itable_rep a sb t R o pid → t !! j = Some ip → agrees a sb ip.
Proof. intros Hr Hj d. by apply (it_valid _ _ _ _ _ _ Hr j). Qed.

(** One entry changes: it was free or stands for the same inode as before. *)
Lemma itable_rep_upd a sb t R R' o o' pid j ip ip' :
  itable_rep a sb t R o pid → t !! j = Some ip →
  (i_ref ip = 0 ∧ R !! i_inum ip' = None ∨ 0 < i_ref ip ∧ i_inum ip' = i_inum ip) →
  0 ≤ i_ref ip' < 2 ^ 31 - 1 → (0 < i_ref ip' → i_dev ip' = ROOTDEV) →
  R' !! i_inum ip' = (if decide (i_ref ip' = 0) then None else Some (i_ref ip')) →
  (∀ inum, inum ≠ i_inum ip' → R' !! inum = R !! inum) →
  (∀ j', j' ≠ j → o' = Some j' ↔ o = Some j') →
  agrees a sb ip' → lock_is o' pid j ip' →
  itable_rep a sb (<[j := ip']> t) R' o' pid.
Proof.
  intros Hr Hj Hid Hb Hdev HR' HRo Ho Hag Hlk. pose proof Hr as [H1 H2 H3 H4 H5 H6 H7 H8].
  assert (∀ j' x, <[j := ip']> t !! j' = Some x → (j' = j ∧ x = ip') ∨ (j' ≠ j ∧ t !! j' = Some x)) as Hlook.
  { intros j' x Hx. apply lookup_insert_cases in Hx as [[<- ->]|[? ?]]; [by left|by right]. }
  assert (∀ j' x, j' ≠ j → t !! j' = Some x → 0 < i_ref x → i_inum x ≠ i_inum ip') as Hother.
  { intros j' x Hne Hx Hpos E. destruct Hid as [[_ HN]|[Hp E']].
    - destruct (H3 j' x Hx Hpos) as [_ HS]. congruence.
    - apply Hne. eapply (H5 j' j x ip); congruence. }
  split.
  - by rewrite length_insert.
  - intros j' x [[-> ->]|[_ Hx]]%Hlook; [lia|by eapply H2].
  - intros j' x [[-> ->]|[Hne Hx]]%Hlook Hpos; [split; [by apply Hdev|]; rewrite HR', decide_False by lia; done|].
    destruct (H3 j' x Hx Hpos). split; [done|]. rewrite HRo; [done|by eapply Hother].
  - intros inum n HR. destruct (decide (inum = i_inum ip')) as [->|Hne].
    + rewrite HR' in HR. case_decide; [done|]. exists j, ip'. split; [|split; [lia|done]].
      apply list_lookup_insert_eq. by eapply lookup_lt_Some.
    + rewrite HRo in HR by done. destruct (H4 _ _ HR) as (j' & x & Hx & Hp & E). exists j', x. split; [|done].
      rewrite list_lookup_insert_ne; [done|]. intros <-. rewrite Hj in Hx. injection Hx as <-.
      destruct Hid as [[Hz _]|[_ E']]; [lia|congruence].
  - intros j1 j2 x1 x2 [[-> ->]|[N1 X1]]%Hlook [[-> ->]|[N2 X2]]%Hlook P1 P2 E; [done| | |by eapply H5].
    + by edestruct (Hother j2 x2).
    + by edestruct (Hother j1 x1).
  - intros j' x d [[-> ->]|[_ Hx]]%Hlook; [by apply Hag|by apply (H6 j' x d)].
  - intros j' x [[-> ->]|[Hne Hx]]%Hlook; [exact Hlk|]. specialize (H7 j' x Hx). specialize (Ho j' Hne).
    by destruct (decide (o' = Some j')), (decide (o = Some j')); try tauto.
  - intros inum n HR. destruct (decide (inum = i_inum ip')) as [->|Hne]; [|rewrite HRo in HR by done; by eapply H8].
    rewrite HR' in HR. case_decide; [done|]. injection HR as <-. lia.
Qed.

(** If fewer than [NINODE] inodes are held, an entry is free. *)
Lemma free_entry a sb t R o pid : itable_rep a sb t R o pid → (size R < NINODE)%nat →
  ∃ j ip, t !! j = Some ip ∧ i_ref ip = 0.
Proof.
  intros Hr Hsz. destruct (decide (Exists (fun ip => i_ref ip = 0) t)) as [He|He].
  { apply Exists_exists in He as (ip & Hin & Hz). apply list_elem_of_lookup in Hin as [j Hj]. by exists j, ip. }
  exfalso. assert (∀ j ip, t !! j = Some ip → 0 < i_ref ip) as Hall.
  { intros j ip Hj. pose proof (it_ref _ _ _ _ _ _ Hr j ip Hj). destruct (decide (i_ref ip = 0)) as [Hz|]; [|lia].
    destruct He. apply Exists_exists. exists ip. split; [by eapply list_elem_of_lookup_2|done]. }
  assert (NoDup (i_inum <$> t)) as Hnd.
  { apply NoDup_alt. intros j j' x Hj Hj'. rewrite list_lookup_fmap in Hj, Hj'.
    destruct (t !! j) as [ip|] eqn:E; [|done]. destruct (t !! j') as [ip'|] eqn:E'; [|done].
    injection Hj as <-. injection Hj' as Heq. eapply (it_uniq _ _ _ _ _ _ Hr); [done..|by eapply Hall|by eapply Hall|done]. }
  assert ((list_to_set (i_inum <$> t) : gset Z) ⊆ dom R) as Hsub.
  { intros x Hx. apply elem_of_list_to_set, list_elem_of_fmap in Hx as (ip & -> & Hin).
    apply list_elem_of_lookup in Hin as [j Hj]. apply elem_of_dom.
    destruct (it_dev _ _ _ _ _ _ Hr j ip Hj) as [_ ->]; [by eapply Hall|by eexists]. }
  apply subseteq_size in Hsub. rewrite size_list_to_set, size_dom, length_fmap, (it_len _ _ _ _ _ _ Hr) in Hsub by done. lia.
Qed.

(** The search of [iget] as a function of the table. *)
Fixpoint scan_table (l : list nat) (t : list inode) (dev inum : Z) (empty : option nat) : nat + option nat :=
  match l with
  | [] => inr empty
  | i :: l =>
    match t !! i with
    | None => inr empty
    | Some ip =>
      if stands_for dev inum ip then inl i
      else scan_table l t dev inum
             (match empty with None => if i_ref ip =? 0 then Some i else None | Some _ => empty end)
    end
  end.

Lemma scan_table_spec l t dev inum empty :
  (∀ i, i ∈ l → is_Some (t !! i)) → (∀ k, empty = Some k → ∃ ip, t !! k = Some ip ∧ i_ref ip = 0) →
  match scan_table l t dev inum empty with
  | inl j => ∃ ip, t !! j = Some ip ∧ stands_for dev inum ip = true
  | inr (Some k) => (∃ ip, t !! k = Some ip ∧ i_ref ip = 0) ∧
      ∀ j ip, j ∈ l → t !! j = Some ip → stands_for dev inum ip = false
  | inr None => empty = None ∧ ∀ j ip, j ∈ l → t !! j = Some ip → i_ref ip ≠ 0 ∧ stands_for dev inum ip = false
  end.
Proof.
  revert empty. induction l as [|i l IH]; intros empty Hl He; cbn [scan_table].
  { destruct empty as [k|]; [|split; [done|]].
    - split; [by apply He|]. intros j ip Hj. by apply not_elem_of_nil in Hj.
    - intros j ip Hj. by apply not_elem_of_nil in Hj. }
  destruct (Hl i) as [ip Hip]; [by left|]. rewrite Hip. destruct (stands_for dev inum ip) eqn:Hs; [by exists ip|].
  set (e' := match empty with None => _ | Some _ => _ end).
  assert (∀ k, e' = Some k → ∃ ip, t !! k = Some ip ∧ i_ref ip = 0) as He'.
  { unfold e'. intros k. destruct empty as [k'|]; [apply He|]. destruct (Z.eqb_spec (i_ref ip) 0); [|done].
    intros [= <-]. by exists ip. }
  specialize (IH e' (fun k Hk => Hl k ltac:(by right)) He'). destruct (scan_table l t dev inum e') as [j|[k|]]; [done| |].
  - destruct IH as [Hk Hn]. split; [done|]. intros j ip' [->|Hj]%elem_of_cons Hip'; [by simplify_eq|by eapply Hn].
  - destruct IH as [E Hn]. unfold e' in E. destruct empty; [done|]. split; [done|].
    intros j ip' [->|Hj]%elem_of_cons Hip'; [|by eapply Hn].
    rewrite Hip in Hip'. injection Hip' as <-. split; [|done]. by destruct (Z.eqb_spec (i_ref ip) 0).
Qed.

Section itable.
Context `{KI : KernelImage}.
Implicit Types s : KS.

Definition upd_inode (j : nat) (f : inode → inode) (fs : fsstate) : fsstate := fs <| fs_inode ::= alter f j |>.

Lemma wp_updi j f ip s Q : fs_inode (ks_fs s) !! j = Some ip → Q tt (fsk (upd_inode j f) s) → wp (updi j f) s Q.
Proof. intros Hj HQ. unfold updi. wp_simpl. eapply wp_geti; [exact Hj|]. exact HQ. Qed.

Lemma upd_inode_ext j f g fs ip : fs_inode fs !! j = Some ip → f ip = g ip → upd_inode j f fs = upd_inode j g fs.
Proof.
  intros Hj E. unfold upd_inode, setf. by rewrite (alter_as_insert _ j f ip), (alter_as_insert _ j g ip), E by done.
Qed.

Lemma wp_iget_scan l dev inum empty s Q :
  (∀ i, i ∈ l → is_Some (fs_inode (ks_fs s) !! i)) →
  Q (scan_table l (fs_inode (ks_fs s)) dev inum empty) s → wp (iget_scan l dev inum empty) s Q.
Proof.
  revert empty. induction l as [|i l IH]; intros empty Hl HQ; cbn [iget_scan scan_table] in *; [done|].
  destruct (Hl i) as [ip Hip]; [by left|]. rewrite Hip in HQ. wp_simpl. eapply wp_geti; [exact Hip|].
  change ((0 <? i_ref ip) && (i_dev ip =? dev) && (i_inum ip =? inum)) with (stands_for dev inum ip).
  destruct (stands_for dev inum ip); [done|]. apply IH; [|done]. intros k Hk. apply Hl. by right.
Qed.

(** ** Worlds with an inode table *)

Record istep (w w' : W) : Prop := {
  ip_frame : frame (w_k w) (w_k w');
  ip_log : fs_log (ks_fs (w_k w')) = fs_log (ks_fs (w_k w));
  ip_sb : fs_sb (ks_fs (w_k w')) = fs_sb (ks_fs (w_k w));
  ip_file : fs_file (ks_fs (w_k w')) = fs_file (ks_fs (w_k w));
  ip_pipe : fs_pipe (ks_fs (w_k w')) = fs_pipe (ks_fs (w_k w));
  ip_trace : dk_trace (fs_disk (ks_fs (w_k w'))) = dk_trace (fs_disk (ks_fs (w_k w)))
}.

#[global] Instance istep_refl : Reflexive istep.
Proof. intros w. by split. Qed.

#[global] Instance istep_trans : Transitive istep.
Proof. intros w1 w2 w3 [A1 A2 A3 A4 A5 A6] [B1 B2 B3 B4 B5 B6]. split; try congruence. by etrans. Qed.

Lemma fstep_istep w w' : fstep [] w w' → istep w w'.
Proof. intros [H1 [K1 K2 K3 K4 K5] H3]. split; try done. by rewrite H3, app_nil_r. Qed.

Lemma inode_istep s s' e j f : frame s s' → ks_fs s' = upd_inode j f (ks_fs s) → istep (World s e) (World s' e).
Proof. intros Hf Hfs. split; cbn [w_k]; rewrite ?Hfs; done. Qed.

End itable.

Section table.
Context `{KI : KernelImage} `{DO : DiskOps} `{DL : !DiskLaws}.
Implicit Types (w : W) (a : bstore) (s : KS).

Definition irep (i : nat) (s : KS) (a : bstore) (R : gmap Z Z) (o : option nat) : Prop :=
  itable_rep a (fs_sb (ks_fs s)) (fs_inode (ks_fs s)) R o (pid_of i s).

Record at_it (i n : nat) (w : W) (a : bstore) (R : gmap Z Z) (o : option nat) : Prop := {
  ai_fs : at_fs i n w a;
  ai_rep : irep i (w_k w) a R o
}.

(** Entry [j] stands for inode [inum]. *)
Definition holds_inode (w : W) (j : nat) (inum : Z) : Prop :=
  ∃ ip, fs_inode (ks_fs (w_k w)) !! j = Some ip ∧ 0 < i_ref ip ∧ i_inum ip = inum.

Lemma at_fs_inode i n s s' e a j f :
  at_fs i n (World s e) a → frame s s' → ks_fs s' = upd_inode j f (ks_fs s) → at_fs i n (World s' e) a.
Proof.
  intros [H1 H2 H3 H4] Hf Hfs. cbn [w_k w_env] in *.
  split; cbn [w_k w_env]; rewrite ?Hfs; [by eapply quiet_frame| |done|done].
  rewrite (pid_of_frame _ _ _ Hf). destruct H2. by split.
Qed.

Lemma fstep_pid i tr s e s' e' : fstep tr (World s e) (World s' e') → pid_of i s' = pid_of i s.
Proof. intros [Hf _ _]. by apply pid_of_frame. Qed.

Lemma irep_step i s s' e e' a R o : irep i s a R o → fstep [] (World s e) (World s' e') → irep i s' a R o.
Proof. intros H [Hf [K1 K2 K3 K4 K5] _]. unfold irep. cbn [w_k] in *. by rewrite K2, K3, (pid_of_frame _ _ _ Hf). Qed.

Lemma at_it_step i n n' s s' e e' a R o :
  at_it i n (World s e) a R o → at_fs i n' (World s' e') a → fstep [] (World s e) (World s' e') →
  at_it i n' (World s' e') a R o.
Proof. intros [H1 H2] Hat Hst. split; [done|]. by eapply irep_step. Qed.

(** An entry is changed. *)
Lemma irep_upd i s s' a R R' o o' j f ip :
  irep i s a R o → frame s s' → ks_fs s' = upd_inode j f (ks_fs s) →
  fs_inode (ks_fs s) !! j = Some ip →
  (i_ref ip = 0 ∧ R !! i_inum (f ip) = None ∨ 0 < i_ref ip ∧ i_inum (f ip) = i_inum ip) →
  0 ≤ i_ref (f ip) < 2 ^ 31 - 1 → (0 < i_ref (f ip) → i_dev (f ip) = ROOTDEV) →
  R' !! i_inum (f ip) = (if decide (i_ref (f ip) = 0) then None else Some (i_ref (f ip))) →
  (∀ inum, inum ≠ i_inum (f ip) → R' !! inum = R !! inum) →
  (∀ j', j' ≠ j → o' = Some j' ↔ o = Some j') →
  agrees a (fs_sb (ks_fs s)) (f ip) → lock_is o' (pid_of i s) j (f ip) →
  irep i s' a R' o'.
Proof.
  intros Hr Hf Hfs Hj A1 A2 A3 A4 A5 A6 A7 A8. unfold irep in *.
  rewrite Hfs, (pid_of_frame _ _ _ Hf). unfold upd_inode. cbn. rewrite (alter_as_insert _ j f ip) by done.
  by eapply itable_rep_upd.
Qed.

(** An entry in use is changed but keeps its count. *)
Lemma irep_keep i s s' a R o o' j f ip :
  irep i s a R o → frame s s' → ks_fs s' = upd_inode j f (ks_fs s) → fs_inode (ks_fs s) !! j = Some ip →
  0 < i_ref ip → i_inum (f ip) = i_inum ip → i_ref (f ip) = i_ref ip → i_dev (f ip) = i_dev ip →
  (∀ j', j' ≠ j → o' = Some j' ↔ o = Some j') →
  agrees a (fs_sb (ks_fs s)) (f ip) → lock_is o' (pid_of i s) j (f ip) →
  irep i s' a R o'.
Proof.
  intros Hr Hf Hfs Hj Hp E1 E2 E3 Ho Hag Hlk. destruct (it_dev _ _ _ _ _ _ Hr j ip Hj Hp) as [Hdev HR].
  pose proof (it_max _ _ _ _ _ _ Hr _ _ HR).
  eapply (irep_upd i s s' a R R o o' j f ip); try done.
  - by right.
  - lia.
  - congruence.
  - rewrite E1, E2, decide_False by lia. done.
Qed.

(** One more reference to an inode, and one less. *)
Definition take_ref (inum : Z) (R : gmap Z Z) : gmap Z Z := <[inum := default 0 (R !! inum) + 1]> R.
Definition drop_ref (inum : Z) (R : gmap Z Z) : gmap Z Z :=
  if decide (R !! inum = Some 1) then delete inum R else <[inum := default 0 (R !! inum) - 1]> R.

Lemma drop_take inum R : (∀ n, R !! inum = Some n → 0 < n) → drop_ref inum (take_ref inum R) = R.
Proof.
  intros H. unfold drop_ref, take_ref. rewrite lookup_insert_eq. destruct (R !! inum) as [n|] eqn:E; cbn.
  - specialize (H n eq_refl). rewrite decide_False by (intros [= ?]; lia). rewrite insert_insert_eq.
    replace (n + 1 - 1) with n by lia. by apply insert_id.
  - rewrite decide_True by done. rewrite delete_insert_eq. by apply delete_id.
Qed.

(** Entries in use stay so, with the same contents. *)
Definition kept_inodes (s s' : KS) : Prop := ∀ j ip, fs_inode (ks_fs s) !! j = Some ip → 0 < i_ref ip →
  ∃ ip', fs_inode (ks_fs s') !! j = Some ip' ∧ 0 < i_ref ip' ∧ body ip' = body ip ∧ i_valid ip' = i_valid ip.

Lemma kept_inodes_upd s s' j f ip : ks_fs s' = upd_inode j f (ks_fs s) → fs_inode (ks_fs s) !! j = Some ip →
  (0 < i_ref ip → 0 < i_ref (f ip) ∧ body (f ip) = body ip ∧ i_valid (f ip) = i_valid ip) → kept_inodes s s'.
Proof.
  intros Hfs Hj Hf j' ip' Hj' Hp. rewrite Hfs. cbn. destruct (decide (j' = j)) as [->|Hne].
  - rewrite Hj in Hj'. injection Hj' as <-. exists (f ip). rewrite list_lookup_alter_eq, Hj. split; [done|]. by apply Hf.
  - exists ip'. by rewrite list_lookup_alter_ne.
Qed.

Lemma wp_iget i n s e a R o inum Q :
  at_it i n (World s e) a R o → is_Some (R !! inum) ∨ (size R < NINODE)%nat → default 0 (R !! inum) < 2 ^ 31 - 2 →
  (∀ j s', at_it i n (World s' e) a (take_ref inum R) o →
     istep (World s e) (World s' e) → holds_inode (World s' e) j inum → kept_inodes s s' → Q j s') →
  wp (iget ROOTDEV inum) s Q.
Proof.
  intros Hit Hroom Hmax HQ. pose proof Hit as [Hat Hr]. cbn [w_k] in Hr. unfold irep in Hr. pose proof (af_quiet _ _ _ _ Hat) as Hq. cbn [w_k] in Hq.
  unfold iget. wp_simpl. apply wp_acq; [apply Hq|by apply Hq|]. wp_simpl. set (t := fs_inode (ks_fs s)) in *.
  assert (∀ k, k ∈ seq 0 NINODE ↔ (k < length t)%nat) as Hseq.
  { intros k. rewrite elem_of_seq, (it_len _ _ _ _ _ _ Hr). lia. }
  apply wp_iget_scan. { intros k Hk. apply lookup_lt_is_Some. by apply Hseq. }
  change (fs_inode (ks_fs (set_kmach _ s))) with t.
  assert (∀ j f ip, t !! j = Some ip → 0 < i_ref (f ip) → i_inum (f ip) = inum →
    (0 < i_ref ip → body (f ip) = body ip ∧ i_valid (f ip) = i_valid ip) →
    (∀ s', frame s s' → ks_fs s' = upd_inode j f (ks_fs s) →
       at_it i n (World s' e) a (take_ref inum R) o) →
    wp (updi j f;; lkm (release L_itable);; ret j) (set_kmach (acq L_itable (ks_mach s)) s) Q) as Hend.
  { intros j f ip Hj Hpos Hinum Hsame Hrep. wp_simpl. eapply wp_updi; [exact Hj|]. wp_simpl.
    apply (wp_end_sec (Some i) L_itable s); [by apply quiet_calm|done|apply insec_fsk, insec_start|].
    intros s' Hf Hfs _. wp_simpl. assert (ks_fs s' = upd_inode j f (ks_fs s)) as Hfs' by exact Hfs.
    apply HQ; [by apply Hrep|by apply (inode_istep s s' e j f)| |by apply (kept_inodes_upd s s' j f ip); [..|intros; split; [|apply Hsame]]].
    exists (f ip). cbn [w_k]. rewrite Hfs. cbn. by rewrite list_lookup_alter_eq, (Hj : fs_inode (ks_fs s) !! j = _). }
  pose proof (scan_table_spec (seq 0 NINODE) t ROOTDEV inum None) as Hspec.
  destruct (scan_table (seq 0 NINODE) t ROOTDEV inum None) as [j|[j|]];
    destruct Hspec as [ip Hspec]; try (intros k Hk; by apply lookup_lt_is_Some, Hseq); try done.
  - destruct Hspec as [Hj Hs]. apply stands_for_spec in Hs as (Hpos & Hdev & Hinum).
    destruct (it_dev _ _ _ _ _ _ Hr j ip Hj Hpos) as [_ HR]. rewrite Hinum in HR. rewrite HR in *.
    change (default 0 (Some (i_ref ip))) with (i_ref ip) in *.
    assert (i32 (i_ref ip + 1) = i_ref ip + 1) as E32 by (apply i32_small; lia).
    apply (Hend j _ ip Hj); [cbn; lia|done|done|]. intros s' Hf Hfs.
    split; [by eapply at_fs_inode|]. eapply (irep_upd _ s s'); [exact Hr|done|exact Hfs|exact Hj|by right|cbn; lia|done| | |done| |].
    + cbn. unfold take_ref. rewrite Hinum, lookup_insert_eq, HR, E32, decide_False by lia. done.
    + cbn. unfold take_ref. intros inum' Hne. rewrite lookup_insert_ne by congruence. done.
    + eapply (agrees_body _ _ ip); [done|done|done|by eapply rep_agrees].
    + exact (it_lock _ _ _ _ _ _ Hr j ip Hj).
  - destruct ip as (ip & Hj & Hz). assert (R !! inum = None) as HN.
    { destruct (R !! inum) as [m|] eqn:E; [|done]. destruct (it_has _ _ _ _ _ _ Hr inum m E) as (j' & ip' & Hj' & Hp & Hi).
      assert (stands_for ROOTDEV inum ip' = false) as Hs by (eapply Hspec; [|done]; apply Hseq; by eapply lookup_lt_Some).
      assert (stands_for ROOTDEV inum ip' = true); [|congruence]. apply stands_for_spec.
      split; [done|]. split; [|done]. by apply (it_dev _ _ _ _ _ _ Hr j'). }
    apply (Hend j _ ip Hj); [done|done|lia|]. intros s' Hf Hfs.
    split; [by eapply at_fs_inode|]. eapply (irep_upd _ s s'); [exact Hr|done|exact Hfs|exact Hj|by left|cbn; lia|done| | |done| |].
    + cbn. unfold take_ref. rewrite lookup_insert_eq, HN, decide_False by lia. done.
    + cbn. unfold take_ref. intros inum' Hne. rewrite lookup_insert_ne by congruence. done.
    + by intros d _ ?.
    + exact (it_lock _ _ _ _ _ _ Hr j ip Hj).
  - exfalso. destruct Hroom as [[m Hm]|Hsz].
    + destruct (it_has _ _ _ _ _ _ Hr inum m Hm) as (j' & ip' & Hj' & Hp & Hi).
      destruct (Hspec j' ip') as [_ Hs]; [apply Hseq; by eapply lookup_lt_Some|done|].
      assert (stands_for ROOTDEV inum ip' = true); [|congruence]. apply stands_for_spec.
      split; [done|]. split; [|done]. by apply (it_dev _ _ _ _ _ _ Hr j').
    + destruct (free_entry _ _ _ _ _ _ Hr Hsz) as (j' & ip' & Hj' & Hz).
      by destruct (Hspec j' ip') as [? _]; [apply Hseq; by eapply lookup_lt_Some|done|].
Qed.

(** ** Locking *)

Lemma inode_lock_bound i s a R o j ip : irep i s a R o → fs_inode (ks_fs s) !! j = Some ip → kernel_lock (L_inode j).
Proof.
  intros Hr Hj. cbn. apply bool_decide_spec. rewrite <- (it_len _ _ _ _ _ _ Hr). by eapply lookup_lt_Some.
Qed.

(** Taking the lock of an entry in use. *)
Lemma wp_lock_inode i n s e a R j ip (Q : unit → W → Prop) (f := fun x : inode => x <| i_lock := Sleeplock 1 (sl_name (i_lock ip)) (pid_of i s) |>) :
  at_it i n (World s e) a R None → fs_inode (ks_fs s) !! j = Some ip → 0 < i_ref ip →
  (∀ s', at_it i n (World s' e) a R (Some j) → istep (World s e) (World s' e) →
     fs_inode (ks_fs s') !! j = Some (f ip) → Q tt (World s' e)) →
  wp (acquiresleep (L_inode j)) (World s e) Q.
Proof.
  intros [Hat Hr] Hj Hp HQ. cbn [w_k] in Hr.
  pose proof (it_lock _ _ _ _ _ _ Hr j ip Hj) as Hl. rewrite decide_False in Hl by done.
  apply (wp_acquiresleep i (L_inode j) (i_lock ip)); [apply (af_quiet _ _ _ _ Hat)|by eapply inode_lock_bound|cbn; by rewrite Hj|done|].
  intros s' Hf Hfs. assert (ks_fs s' = upd_inode j f (ks_fs s)) as Hfs' by exact Hfs.
  apply HQ; [|by apply (inode_istep s s' e j f)|rewrite Hfs'; cbn; by rewrite list_lookup_alter_eq, Hj].
  split; [by eapply at_fs_inode|]. eapply (irep_keep i s s' a R None (Some j) j f ip); try done.
  - intros j' Hne. split; congruence.
  - eapply (agrees_body _ _ ip); [done|done|done|by eapply rep_agrees].
  - unfold lock_is. by rewrite decide_True.
Qed.

(** ** [ilock] *)

Definition mark_valid (ip : inode) : inode := ip <| i_valid := 1 |>.

Lemma wp_load_inode i n s e a R j ip d (Q : unit → W → Prop) (off := (i_inum ip mod IPB) * DINODESIZE) :
  at_it i (S n) (World s e) a R (Some j) → fs_inode (ks_fs s) !! j = Some ip → 0 < i_ref ip → i_valid ip = 0 →
  readable 1 a (IBLOCK (i_inum ip) (fs_sb (ks_fs s))) → bs_mem a !! IBLOCK (i_inum ip) (fs_sb (ks_fs s)) = Some d →
  i_type (load_dinode d ip) ≠ 0 →
  (∀ s' e', at_it i n (World s' e') a R (Some j) → istep (World s e) (World s' e') →
     fs_inode (ks_fs s') !! j = Some (mark_valid (load_dinode d ip)) → Q tt (World s' e')) →
  wp (sb ← onw getsb;
      bp ← bread (i_dev ip) (IBLOCK (i_inum ip) sb);
      x ← onw (getb bp);
      let d := b_data x in
      let off := (i_inum ip mod IPB) * DINODESIZE in
      onw (updi j (fun ip => ip <| i_type := i16 (get_at off 2 d) |> <| i_major := i16 (get_at (off + 2) 2 d) |>
         <| i_minor := i16 (get_at (off + 4) 2 d) |> <| i_nlink := i16 (get_at (off + 6) 2 d) |>
         <| i_size := get_at (off + 8) 4 d |> <| i_addrs := get_addrs off d |>));;
      onw (brelse bp);;
      onw (updi j (fun ip => ip <| i_valid := 1 |>));;
      ip ← onw (geti j);
      when (i_type ip =? 0) (panic "ilock: no type")) (World s e) Q.
Proof.
  intros [Hat Hr] Hj Hp Hv Hrd Hd Hty HQ. cbn [w_k] in Hr. wp_simpl. unfold getsb. wp_simpl.
  destruct (it_dev _ _ _ _ _ _ Hr j ip Hj Hp) as [Hdev _]. rewrite Hdev.
  eapply wp_fetch; [exact Hat|exact Hrd|exact Hd|]. intros b x s1 e1 Hat1 Hst1 Hld Hx Hxd. wp_simpl.
  eapply wp_getb; [exact Hx|]. cbv zeta. rewrite Hxd. wp_simpl. set (f := fun ip : inode => _ <| i_addrs := _ |>).
  pose proof (fstep_inode _ _ _ _ _ Hst1) as Hi1. eapply wp_updi; [rewrite Hi1; exact Hj|]. wp_simpl.
  set (s2 := fsk (upd_inode j f) s1).
  assert (irep i s2 a R (Some j)) as Hr2.
  { eapply (irep_keep i s1 s2 a R (Some j) (Some j) j f ip); try done.
    - by eapply irep_step.
    - by rewrite Hi1.
    - intros d' _ Hv' _. done.
    - pose proof (it_lock _ _ _ _ _ _ Hr j ip Hj) as Hl. by rewrite (pid_of_frame _ _ _ (ft_frame _ _ _ Hst1)). }
  eapply (wp_unfetch i n s2 e1 a _ b); [eapply at_fs_inode; [exact Hat1|apply frame_fsk|done]|exact Hld|exact Hrd|by eapply at_fs_counts|by eapply at_fs_block|].
  intros s3 Hat3 Hst3. wp_simpl. pose proof (fstep_inode _ _ _ _ _ Hst3) as Hi3.
  assert (fs_inode (ks_fs s3) !! j = Some (f ip)) as Hj3.
  { rewrite Hi3. cbn. by rewrite list_lookup_alter_eq, Hi1, Hj. }
  assert (f ip = load_dinode d ip) as Ef by (by destruct ip). rewrite Ef in Hj3.
  eapply wp_updi; [exact Hj3|]. fold mark_valid. wp_simpl.
  eapply wp_geti; [cbn; by rewrite list_lookup_alter_eq, Hj3|]. cbn [fmap option_fmap option_map].
  rewrite (proj2 (Z.eqb_neq _ 0)) by done. unfold when. wp_simpl.
  apply HQ; [split| |cbn; by rewrite list_lookup_alter_eq, Hj3].
  - eapply at_fs_inode; [exact Hat3|apply frame_fsk|done].
  - eapply (irep_keep i s3 _ a R (Some j) (Some j) j mark_valid); [by eapply irep_step|apply frame_fsk|done|exact Hj3|done..| |].
    + intros d' _ _ Hd'. assert (fs_sb (ks_fs s3) = fs_sb (ks_fs s)) as Esb.
      { transitivity (fs_sb (ks_fs s1)); [apply (kp_sb _ _ (ft_kept _ _ _ Hst3))|apply (kp_sb _ _ (ft_kept _ _ _ Hst1))]. }
      assert (d' = d) as ->; [|done]. rewrite Esb in Hd'. change (bs_mem a !! IBLOCK (i_inum ip) (fs_sb (ks_fs s)) = Some d') in Hd'. congruence.
    + pose proof (it_lock _ _ _ _ _ _ Hr j ip Hj) as Hl.
      rewrite (fstep_pid i _ _ _ _ _ Hst3). change (pid_of i s2) with (pid_of i s1). by rewrite (fstep_pid i _ _ _ _ _ Hst1).
  - etrans; [by apply fstep_istep|]. etrans; [apply (inode_istep s1 s2 e1 j f); [apply frame_fsk|done]|].
    etrans; [by apply fstep_istep|]. by apply (inode_istep s3 _ e1 j mark_valid); [apply frame_fsk|].
Qed.

Lemma wp_ilock i n s e a R j inum d (Q : unit → W → Prop) :
  at_it i (S n) (World s e) a R None → holds_inode (World s e) j inum →
  readable 1 a (IBLOCK inum (fs_sb (ks_fs s))) → bs_mem a !! IBLOCK inum (fs_sb (ks_fs s)) = Some d →
  i16 (get_at ((inum mod IPB) * DINODESIZE) 2 d) ≠ 0 →
  (∀ s' e' ip, at_it i n (World s' e') a R (Some j) → istep (World s e) (World s' e') →
     fs_inode (ks_fs s') !! j = Some ip → 0 < i_ref ip → i_inum ip = inum → i_valid ip ≠ 0 → load_dinode d ip = ip →
     Q tt (World s' e')) →
  wp (ilock (Some j)) (World s e) Q.
Proof.
  intros Hit (ip & Hj & Hp & <-) Hrd Hd Hty HQ. cbn [w_k] in Hj. unfold ilock. wp_simpl. eapply wp_geti; [exact Hj|].
  rewrite (proj2 (Z.ltb_ge _ 1)) by lia. unfold when at 1. wp_simpl.
  eapply (wp_lock_inode i (S n)); [exact Hit|exact Hj|done|]. intros s1 Hit1 Hst1 Hj1. wp_simpl.
  eapply wp_geti; [exact Hj1|]. set (ip1 := ip <| i_lock := _ |>) in *.
  assert (fs_sb (ks_fs s1) = fs_sb (ks_fs s)) as Esb by apply (ip_sb _ _ Hst1).
  destruct (Z.eqb_spec (i_valid ip1) 0) as [Hv|Hv]; unfold when at 1.
  - eapply (wp_load_inode i n s1 e a R j ip1 d); [exact Hit1|exact Hj1|done|done|by rewrite Esb|by rewrite Esb|done|].
    intros s2 e2 Hit2 Hst2 Hj2. eapply HQ; [exact Hit2|by etrans|exact Hj2|done..].
  - wp_simpl. eapply HQ; [split; [apply at_fs_weaken, Hit1|apply Hit1]|exact Hst1|exact Hj1|done|done|done|].
    eapply (it_valid _ _ _ _ _ _ (ai_rep _ _ _ _ _ _ Hit1) j); [exact Hj1|done|done|]. cbn [w_k]. by rewrite Esb.
Qed.

Lemma wp_iunlock i n s e a R j ip (Q : unit → W → Prop) :
  at_it i n (World s e) a R (Some j) → fs_inode (ks_fs s) !! j = Some ip → 0 < i_ref ip →
  (∀ s', at_it i n (World s' e) a R None → istep (World s e) (World s' e) → kept_inodes s s' →
     fs_inode (ks_fs s') !! j = Some (ip <| i_lock := Sleeplock 0 (sl_name (i_lock ip)) 0 |>) → Q tt (World s' e)) →
  wp (iunlock (Some j)) (World s e) Q.
Proof.
  intros [Hat Hr] Hj Hp HQ. cbn [w_k] in Hr. pose proof (it_lock _ _ _ _ _ _ Hr j ip Hj) as Hl.
  rewrite decide_True in Hl by done. destruct Hl as [Hl1 Hl2]. unfold iunlock. wp_simpl.
  apply (wp_holdingsleep i (L_inode j) (i_lock ip)); [apply (af_quiet _ _ _ _ Hat)|by eapply inode_lock_bound|cbn; by rewrite Hj|].
  intros s1 Hf1 Hfs1. rewrite Hl1, Hl2, Z.eqb_refl. cbn [truthy andb Z.eqb negb]. wp_simpl.
  eapply wp_geti; [by rewrite Hfs1|]. wp_simpl. rewrite (proj2 (Z.ltb_ge _ 1)) by lia. unfold when. wp_simpl.
  apply (wp_releasesleep i (L_inode j) (i_lock ip));
    [eapply quiet_frame; [exact Hf1|apply (af_quiet _ _ _ _ Hat)]|by eapply inode_lock_bound|cbn; by rewrite Hfs1, Hj|].
  intros s' Hf Hfs. set (f := fun x : inode => x <| i_lock := Sleeplock 0 (sl_name (i_lock ip)) 0 |>).
  assert (ks_fs s' = upd_inode j f (ks_fs s)) as Hfs' by (rewrite Hfs, Hfs1; done).
  assert (frame s s') as Hf' by (by etrans).
  apply HQ; [|by apply (inode_istep s s' e j f)|by apply (kept_inodes_upd s s' j f ip)|rewrite Hfs'; cbn; by rewrite list_lookup_alter_eq, Hj].
  split; [by eapply at_fs_inode|]. eapply (irep_keep i s s' a R (Some j) None j f ip); try done.
  - intros j' Hne. split; congruence.
  - eapply (agrees_body _ _ ip); [done|done|done|by eapply rep_agrees].
Qed.

(** A count changes, under [itable.lock]. *)
Lemma wp_iput i n s e a R o j ip (Q : unit → W → Prop) :
  at_it i n (World s e) a R o → fs_inode (ks_fs s) !! j = Some ip → 0 < i_ref ip →
  (i_valid ip ≠ 0 → i_nlink ip ≠ 0) →
  (∀ s', at_it i n (World s' e) a (drop_ref (i_inum ip) R) o → istep (World s e) (World s' e) →
     (∀ j' inum, j' ≠ j ∨ 1 < i_ref ip → holds_inode (World s e) j' inum → holds_inode (World s' e) j' inum) →
     Q tt (World s' e)) →
  wp (iput j) (World s e) Q.
Proof.
  intros [Hat Hr] Hj Hp Hnl HQ. cbn [w_k] in Hr. pose proof (af_quiet _ _ _ _ Hat) as Hq. cbn [w_k] in Hq.
  destruct (it_dev _ _ _ _ _ _ Hr j ip Hj Hp) as [Hdev HR]. pose proof (it_max _ _ _ _ _ _ Hr _ _ HR).
  unfold iput. wp_simpl. apply wp_acq; [apply Hq|by apply Hq|]. wp_simpl. eapply wp_geti; [exact Hj|].
  assert ((i_ref ip =? 1) && truthy (i_valid ip) && (i_nlink ip =? 0) = false) as ->.
  { destruct (truthy (i_valid ip)) eqn:Hv; [|by rewrite andb_false_r]. apply truthy_true in Hv.
    rewrite (proj2 (Z.eqb_neq (i_nlink ip) 0)) by auto. by rewrite andb_false_r. }
  unfold when at 1. wp_simpl. eapply wp_updi; [exact Hj|]. wp_simpl.
  apply (wp_end_sec (Some i) L_itable s); [by apply quiet_calm|done|apply insec_fsk, insec_start|].
  intros s' Hf Hfs _. set (f := fun ip : inode => _) in Hfs.
  assert (ks_fs s' = upd_inode j f (ks_fs s)) as Hfs' by exact Hfs. clear Hfs.
  assert (i32 (i_ref ip - 1) = i_ref ip - 1) as E32 by (apply i32_small; lia).
  apply HQ; [|by apply (inode_istep s s' e j f)|].
  2:{ intros j' inum Hor (ip' & Hj' & Hp' & Hi'). cbn [w_k] in Hj'. unfold holds_inode. cbn [w_k]. rewrite Hfs'. cbn.
      destruct (decide (j' = j)) as [->|Hne]; [|rewrite list_lookup_alter_ne by done; by exists ip'].
      rewrite Hj in Hj'. injection Hj' as <-. rewrite list_lookup_alter_eq, Hj. eexists. split; [done|]. split; [|done].
      cbn. rewrite E32. destruct Hor; [done|lia]. }
  split; [by eapply at_fs_inode|].
  eapply (irep_upd i s s' a R _ o o j f ip); [exact Hr|done|done|exact Hj|by right|cbn; lia|done| | |done| |].
  - cbn. rewrite E32. unfold drop_ref. rewrite HR. case_decide as H1; case_decide as H2.
    + apply lookup_delete_eq.
    + destruct H2. injection H1 as ->. done.
    + destruct H1. f_equal. lia.
    + rewrite lookup_insert_eq. done.
  - cbn. intros inum Hne. unfold drop_ref. case_decide; [by rewrite lookup_delete_ne|by rewrite lookup_insert_ne].
  - eapply (agrees_body _ _ ip); [done|done|done|by eapply rep_agrees].
  - exact (it_lock _ _ _ _ _ _ Hr j ip Hj).
Qed.

Lemma kept_holds s s' e e' j inum : kept_inodes s s' → holds_inode (World s e) j inum → holds_inode (World s' e') j inum.
Proof.
  intros Hk (ip & Hj & Hp & Hi). destruct (Hk j ip Hj Hp) as (ip' & Hj' & Hp' & Hb & _). exists ip'.
  split; [done|]. split; [done|]. unfold body in Hb. congruence.
Qed.

Lemma wp_iunlockput i n s e a R j ip (Q : unit → W → Prop) :
  at_it i n (World s e) a R (Some j) → fs_inode (ks_fs s) !! j = Some ip → 0 < i_ref ip → i_nlink ip ≠ 0 →
  (∀ s', at_it i n (World s' e) a (drop_ref (i_inum ip) R) None → istep (World s e) (World s' e) →
     (∀ j' inum, j' ≠ j ∨ 1 < i_ref ip → holds_inode (World s e) j' inum → holds_inode (World s' e) j' inum) →
     Q tt (World s' e)) →
  wp (iunlockput j) (World s e) Q.
Proof.
  intros Hit Hj Hp Hnl HQ. unfold iunlockput. wp_simpl. eapply (wp_iunlock i n); [exact Hit|exact Hj|done|].
  intros s1 Hit1 Hst1 Hk1 Hj1. eapply (wp_iput i n); [exact Hit1|exact Hj1|done|done|]. intros s2 Hit2 Hst2 Hh2.
  apply HQ; [exact Hit2|by etrans|]. intros j' inum Hor Hh. apply Hh2; [done|]. by eapply kept_holds.
Qed.

End table.
