(* ===== verification/FsDir.v ===== *)
(** * Directories and path names (kernel/fs.c)

    [skipelem] is compared with splitting a path at its slashes, [dirlookup]
    with a search of the directory's contents, and [namex] with a walk through
    the directories of the store. *)

From Stdlib Require Import ZArith Lia.
From stdpp Require Import base gmap strings numbers list.
From S2P Require Import Prelude Spinlock Mem Kstring Kalloc Vm PageTable CopyUser Proc ProcFacts ProcOps Sched FsState Sleeplock FsFacts Bio BioFacts BioOps Log LogFacts Fs FsRead Itable.
Local Open Scope xv6_scope.

(** ** Names *)

(** The characters of a name of at most [DIRSIZ] bytes. *)
Definition dname (l : list Z) : list Z := take 14 (cstr l).

Lemma strncmp_fixed p q n : bytes p → bytes q → (n ≤ length p)%nat → (n ≤ length q)%nat →
  ∃ r, strncmp p q n = Some r ∧ (r = 0 ↔ take n (cstr p) = take n (cstr q)).
Proof.
  intros Hp. revert q n. induction Hp as [|a p Ha Hp IH]; intros q n Hq Lp Lq; (destruct n as [|n]; [by exists 0|]);
    cbn [length] in *; [lia|]. destruct Hq as [|b q Hb Hq]; cbn [length] in *; [lia|]. cbn [strncmp cstr].
  destruct (truthy a) eqn:Ea; cbn [andb].
  - destruct (Z.eqb_spec a b) as [<-|Hab].
    + destruct (IH q n) as (r & Hr & Hiff); [done|lia|lia|]. exists r. split; [done|]. rewrite Hiff, Ea. cbn [take].
      split; [by intros ->|by intros [= H]].
    + eexists. split; [done|]. destruct (truthy b); cbn [take]; (split; [intros; zlia|by intros [= ?]]).
  - eexists. split; [done|]. assert (a = 0) as -> by (apply negb_false_iff, Z.eqb_eq in Ea; done).
    destruct (truthy b) eqn:Eb; cbn [take].
    + apply truthy_true in Eb. split; [intros; zlia|done].
    + assert (b = 0) as -> by (apply negb_false_iff, Z.eqb_eq in Eb; done). done.
Qed.

Lemma namecmp_spec p q : bytes p → bytes q → (14 ≤ length p)%nat → (14 ≤ length q)%nat →
  ∃ r, namecmp p q = Some r ∧ (r = 0 ↔ dname p = dname q).
Proof. intros. by apply strncmp_fixed. Qed.

(** ** Paths *)

Definition flush (cur : list Z) : list (list Z) := match cur with [] => [] | _ => [cur] end.

(** The nonempty pieces between slashes. *)
Fixpoint split_path (cur path : list Z) : list (list Z) :=
  match path with
  | [] => flush cur
  | c :: path => if c =? SLASH then flush cur ++ split_path [] path else split_path (cur ++ [c]) path
  end.

(** The elements of a path; names are cut at [DIRSIZ]. *)
Definition path_elems (path : list Z) : list (list Z) := take 14 <$> split_path [] path.

Definition path_ok (path : list Z) : Prop := Forall (fun c => 0 < c < 256) path.

Lemma skip_slashes_split path : split_path [] (skip_slashes path) = split_path [] path.
Proof.
  induction path as [|c path IH]; cbn [skip_slashes]; [done|]. destruct (Z.eqb_spec c SLASH) as [->|Hc]; [|done].
  rewrite IH. done.
Qed.

Lemma skip_slashes_le path : (length (skip_slashes path) ≤ length path)%nat.
Proof. induction path as [|c path IH]; cbn [skip_slashes]; [done|]. destruct (c =? SLASH); cbn [length]; lia. Qed.

Lemma skip_slashes_hd path : hd 0 (skip_slashes path) ≠ SLASH.
Proof. induction path as [|c path IH]; cbn [skip_slashes]; [done|]. by destruct (Z.eqb_spec c SLASH). Qed.

Lemma skip_slashes_ok path : path_ok path → path_ok (skip_slashes path).
Proof.
  intros H. induction H as [|c path Hc H IH]; cbn [skip_slashes]; [constructor|].
  destruct (c =? SLASH); [done|by constructor].
Qed.

(** [skip_name] stops at the end of the first piece. *)
Lemma skip_name_split path : path_ok path → ∃ nm, path = nm ++ skip_name path ∧ SLASH ∉ nm ∧
  (∀ cur, split_path cur path = flush (cur ++ nm) ++ split_path [] (skip_slashes (skip_name path))) ∧
  (hd 0 path ≠ SLASH → path ≠ [] → nm ≠ []).
Proof.
  intros H. induction H as [|c path Hc H (nm & E & Hn & Hs & _)]; cbn [skip_name].
  - exists []. split; [done|]. split; [apply not_elem_of_nil|]. split; [|done].
    intros cur. cbn. by rewrite !app_nil_r.
  - destruct (Z.eqb_spec c SLASH) as [->|Hc'].
    + exists []. split; [done|]. split; [apply not_elem_of_nil|]. split; [|done].
      intros cur. cbn [split_path skip_slashes]. rewrite Z.eqb_refl, app_nil_r. by rewrite skip_slashes_split.
    + rewrite (proj2 (Z.eqb_neq c 0)) by lia. cbn [orb]. exists (c :: nm). split; [cbn; by rewrite <- E|].
      split; [rewrite elem_of_cons; intros [?|?]; [congruence|done]|]. split; [|done].
      intros cur. cbn [split_path]. rewrite (proj2 (Z.eqb_neq c SLASH)) by done. rewrite Hs, <- app_assoc. done.
Qed.

Lemma cstr_plain nm : path_ok nm → cstr nm = nm.
Proof.
  intros H. induction H as [|c nm Hc H IH]; cbn [cstr]; [done|].
  assert (truthy c = true) as -> by (apply truthy_true; lia). by rewrite IH.
Qed.

Lemma cstr_stop nm rest : path_ok nm → cstr (nm ++ 0 :: rest) = nm.
Proof.
  intros H. induction H as [|c nm Hc H IH]; cbn [cstr app]; [done|].
  assert (truthy c = true) as -> by (apply truthy_true; lia). by rewrite IH.
Qed.

(** The name buffer after the copy. *)
Lemma skipelem_name nm rest name : path_ok nm → length name = 14%nat → bytes name → nm ≠ [] →
  let s := nm ++ rest in let len := length nm in
  let name' := if DIRSIZ <=? Z.of_nat len then put_bytes 0 (take (Z.to_nat DIRSIZ) s) name
               else <[len := 0]> (put_bytes 0 (take len s) name) in
  dname name' = take 14 nm ∧ length name' = 14%nat ∧ bytes name'.
Proof.
  intros Hn Hl Hb Hne s len name'. unfold name', DIRSIZ, len, s. clear name'.
  assert (∀ k, path_ok (take k nm)) as Htk by (intros k; by apply Forall_take).
  assert (∀ l, path_ok l → bytes l) as Hby by (intros l Hp; eapply Forall_impl; [exact Hp|cbn; lia]).
  change (Z.to_nat 14) with 14%nat. unfold put_bytes. change (Z.to_nat 0) with 0%nat. rewrite take_0. cbn [app].
  destruct (Z.leb_spec 14 (Z.of_nat (length nm))) as [H|H].
  - rewrite take_app_le by lia. rewrite Nat.add_0_l, length_take, Nat.min_l, drop_ge, app_nil_r by lia.
    unfold dname. rewrite cstr_plain, take_take, length_take, !Nat.min_l by (done || lia). split; [done|]. split; [done|].
    by apply Hby.
  - rewrite take_app_length, Nat.add_0_l.
    destruct (drop (length nm) name) as [|x tl] eqn:E.
    { apply (f_equal length) in E. rewrite length_drop in E. cbn in E. lia. }
    assert (<[length nm := 0]> (nm ++ x :: tl) = nm ++ 0 :: tl) as ->.
    { rewrite insert_app_r_alt, Nat.sub_diag by lia. done. }
    unfold dname. rewrite cstr_stop by done. split; [done|].
    assert (length tl = 13 - length nm)%nat as Htl.
    { apply (f_equal length) in E. rewrite length_drop in E. cbn in E. lia. }
    split; [rewrite length_app; cbn; lia|]. apply Forall_app. split; [by apply Hby|].
    apply (Forall_drop _ (length nm)) in Hb. rewrite E in Hb. apply Forall_cons in Hb as [_ Hb]. constructor; [lia|done].
Qed.

Lemma skipelem_spec path name : path_ok path → length name = 14%nat → bytes name →
  match skipelem path name with
  | None => path_elems path = []
  | Some (path', name') =>
    path_elems path = dname name' :: path_elems path' ∧ (length path' < length path)%nat ∧
    path_ok path' ∧ length name' = 14%nat ∧ bytes name'
  end.
Proof.
  intros Hp Hl Hb. unfold skipelem. pose proof (skip_slashes_ok path Hp) as Hp1.
  pose proof (skip_slashes_split path) as Hsp. pose proof (skip_slashes_hd path) as Hhd. pose proof (skip_slashes_le path) as Hle.
  cbv zeta. set (q := skip_slashes path) in *. unfold path_elems. rewrite <- Hsp.
  destruct (Z.eqb_spec (hd 0 q) 0) as [Hz|Hz].
  { destruct q as [|c q]; [done|]. apply Forall_cons in Hp1 as [Hc _]. cbn in Hz. lia. }
  destruct (skip_name_split q Hp1) as (nm & E & _ & Hs & Hne).
  assert (nm ≠ []) as Hnm by (apply Hne; [done|by intros ->]).
  assert (path_ok nm) as Hnmok by (rewrite E in Hp1; by apply Forall_app in Hp1 as [? _]).
  assert (path_ok (skip_name q)) as Hrest by (rewrite E in Hp1; by apply Forall_app in Hp1 as [_ ?]).
  assert (length q - length (skip_name q) = length nm)%nat as -> by (rewrite E at 1; rewrite length_app; lia).
  destruct (skipelem_name nm (skip_name q) name Hnmok Hl Hb Hnm) as (D1 & D2 & D3).
  cbv zeta in D1, D2, D3. rewrite <- E in D1, D2, D3. split; [|split; [|split; [by apply skip_slashes_ok|]]].
  - rewrite Hs. cbn [app]. rewrite D1. destruct nm; [done|]. done.
  - pose proof (skip_slashes_le (skip_name q)). rewrite E in Hle. rewrite length_app in Hle. destruct nm; [done|].
    cbn [length] in Hle. lia.
  - split; [exact D2|exact D3].
Qed.

(** ** Directories *)

(** The first entry in use, from [off] on, that has the name. *)
Fixpoint dir_find (n : nat) (name data : list Z) (off : Z) : option (Z * Z) :=
  match n with
  | O => None
  | S n =>
    let de := slice off DIRENTSIZE data in
    if negb (de_inum de =? 0) && bool_decide (dname name = dname (de_name de)) then Some (de_inum de, off)
    else dir_find n name data (off + DIRENTSIZE)
  end.

Definition dir_lookup (name data : list Z) : option (Z * Z) :=
  dir_find (length data / 16) name data 0.

Lemma dir_find_ext n name name' data off : dname name = dname name' → dir_find n name data off = dir_find n name' data off.
Proof. intros E. revert off. induction n as [|n IH]; intros off; cbn [dir_find]; [done|]. by rewrite E, IH. Qed.

Definition dirent_at (data : list Z) (k : nat) : list Z := slice (16 * Z.of_nat k) 16 data.

(** Entry [k] is in use and has the name. *)
Definition dir_hit (name data : list Z) (k : nat) : Prop :=
  de_inum (dirent_at data k) ≠ 0 ∧ dname name = dname (de_name (dirent_at data k)).

Lemma dir_lookup_spec name data :
  match dir_lookup name data with
  | Some (inum, off) => ∃ k, (k < length data / 16)%nat ∧ off = 16 * Z.of_nat k ∧ dir_hit name data k ∧
      inum = de_inum (dirent_at data k) ∧ ∀ k', (k' < k)%nat → ¬ dir_hit name data k'
  | None => ∀ k, (k < length data / 16)%nat → ¬ dir_hit name data k
  end.
Proof.
  unfold dir_lookup. generalize (length data / 16)%nat as n. intros n. set (hit := dir_hit name data).
  assert (∀ m j, match dir_find m name data (16 * Z.of_nat j) with
    | Some (inum, off) => ∃ k, (j ≤ k < j + m)%nat ∧ off = 16 * Z.of_nat k ∧ hit k ∧
        inum = de_inum (dirent_at data k) ∧ ∀ k', (j ≤ k' < k)%nat → ¬ hit k'
    | None => ∀ k, (j ≤ k < j + m)%nat → ¬ hit k
    end) as H.
  { induction m as [|m IH]; intros j; cbn [dir_find]; [intros; lia|]. unfold DIRENTSIZE.
    destruct (negb _ && _) eqn:E.
    - apply andb_true_iff in E as [E1 E2]. apply negb_true_iff, Z.eqb_neq in E1. apply bool_decide_eq_true in E2.
      exists j. split; [lia|]. split; [done|]. split; [done|]. split; [done|]. lia.
    - assert (¬ hit j) as Hj.
      { intros [H1 H2]. apply andb_false_iff in E as [E|E]; [apply negb_false_iff, Z.eqb_eq in E; done|].
        by apply bool_decide_eq_false in E. }
      specialize (IH (S j)). replace (16 * Z.of_nat j + 16) with (16 * Z.of_nat (S j)) by lia.
      destruct (dir_find m name data (16 * Z.of_nat (S j))) as [[inum off]|].
      + destruct IH as (k & Hk & Ho & Hh & Hi & Hlt). exists k. split; [lia|]. do 3 (split; [done|]).
        intros k' Hk'. destruct (decide (k' = j)) as [->|]; [done|]. apply Hlt. lia.
      + intros k Hk. destruct (decide (k = j)) as [->|]; [done|]. apply IH. lia. }
  specialize (H n 0%nat). change (16 * Z.of_nat 0) with 0 in H. destruct (dir_find n name data 0) as [[inum off]|].
  - destruct H as (k & Hk & H2 & H3 & H4 & H5). exists k. split; [lia|]. do 3 (split; [done|]). intros k' Hk'. apply H5. lia.
  - intros k Hk. apply H. lia.
Qed.

Section dir.
Context `{KI : KernelImage} `{DO : DiskOps} `{DL : !DiskLaws}.
Implicit Types (w : W) (a : bstore) (s : KS).

Record dir_is (a : bstore) (ip : inode) (data : list Z) : Prop := {
  di_file : file_is a ip data;
  di_type : i_type ip = T_DIR;
  di_whole : (length data mod 16 = 0)%nat;
  di_bytes : bytes data
}.

(** One entry is read. *)
Lemma wp_read_entry i n s e a j ip data off (Q : Z * list Z → W → Prop) :
  at_fs i (S (S n)) (World s e) a → fs_inode (ks_fs s) !! j = Some ip → file_is a ip data →
  0 ≤ off → off mod 16 = 0 → off + 16 ≤ Z.of_nat (length data) →
  (∀ s' e', at_fs i n (World s' e') a → fstep [] (World s e) (World s' e') →
     Q (16, slice off 16 data) (World s' e')) →
  wp (readi j T_local off DIRENTSIZE) (World s e) Q.
Proof.
  intros Hat Hj Hf H0 Hal Hlen HQ. pose proof (fi_max _ _ _ Hf) as Hsz. change (MAXFILE * BSIZE) with 274432 in Hsz.
  pose proof (copies_local i (pgtbl i s) (slice off (Z.min DIRENTSIZE (Z.of_nat (length data) - off)) data) (k_mem (ks_k s))) as Hc.
  assert (Z.min DIRENTSIZE (Z.of_nat (length data) - off) = 16) as Hm by (unfold DIRENTSIZE; lia).
  eapply (wp_readi i (pgtbl i s) j ip a data T_local off DIRENTSIZE _ n 1);
    [done|lia|done|unfold DIRENTSIZE; lia|exact Hc|exact Hat|done|done|done|unfold BSIZE; zlia|].
  rewrite Hm. intros s' e' Hat' Hst E. apply HQ; [done|]. unfold mstep in Hst. cbn [w_k w_env] in Hst.
  rewrite E, with_mem_id in Hst. exact Hst.
Qed.

Lemma length_slice_16 off data : 0 ≤ off → off + 16 ≤ Z.of_nat (length data) → length (slice off 16 data) = 16%nat.
Proof. intros H1 H2. by rewrite length_slice by lia. Qed.

Lemma bytes_slice off n data : bytes data → bytes (slice off n data).
Proof. intros H. by apply Forall_take, Forall_drop. Qed.

(** There is room in the table for another reference to [inum]. *)
Definition room (R : gmap Z Z) (inum : Z) : Prop :=
  (is_Some (R !! inum) ∨ (size R < NINODE)%nat) ∧ default 0 (R !! inum) < 2 ^ 31 - 2.

(** What [dirlookup] returns, and the state it leaves. *)
Definition looked_up (i c : nat) (a : bstore) (R : gmap Z Z) (o : option nat) (w : W) (found : option (Z * Z))
    (r : option (nat * Z)) (w' : W) : Prop :=
  istep w w' ∧ kept_inodes (w_k w) (w_k w') ∧
  match found with
  | None => r = None ∧ at_it i c w' a R o
  | Some (inum, off) => ∃ j, r = Some (j, off) ∧ at_it i c w' a (take_ref inum R) o ∧ holds_inode w' j inum
  end.

Lemma kept_inodes_eq s s' : fs_inode (ks_fs s') = fs_inode (ks_fs s) → kept_inodes s s'.
Proof. intros E j ip Hj Hp. exists ip. by rewrite E. Qed.

Lemma looked_up_step i c a R o s e s1 e1 found r w' :
  fstep [] (World s e) (World s1 e1) → looked_up i c a R o (World s1 e1) found r w' → looked_up i c a R o (World s e) found r w'.
Proof.
  intros Hst (H1 & H2 & H3). split; [etrans; [by apply fstep_istep|done]|]. split; [|done].
  intros j ip Hj Hp. apply H2; [|done]. cbn [w_k] in *. by rewrite (fstep_inode _ _ _ _ _ Hst).
Qed.

Lemma wp_dirlookup_loop i c a R j ip data name :
  dir_is a ip data → bytes name → length name = 14%nat → i_dev ip = ROOTDEV →
  ∀ m fuel s e off, off mod 16 = 0 → 0 ≤ off → off + 16 * Z.of_nat m = Z.of_nat (length data) → (m < fuel)%nat →
  at_it i (2 * m + c) (World s e) a R (Some j) → fs_inode (ks_fs s) !! j = Some ip →
  (∀ inum off', dir_find m name data off = Some (inum, off') → room R inum) →
  wp (dirlookup_loop fuel j name off) (World s e) (looked_up i c a R (Some j) (World s e) (dir_find m name data off)).
Proof.
  intros [Hf Hty Hwh Hby] Hn Hln Hdev. induction m as [|m IH]; intros fuel s e off Hal H0 Hend Hfu Hit Hj Hroom;
    (destruct fuel as [|fuel]; [lia|]); cbn [dirlookup_loop]; wp_simpl; (eapply wp_geti; [exact Hj|]);
    rewrite (fi_size _ _ _ Hf).
  { rewrite (proj2 (Z.ltb_ge _ _)) by lia. cbn [negb]. wp_simpl. cbn [dir_find].
    split; [done|]. split; [by apply kept_inodes_eq|]. split; [done|]. exact Hit. }
  rewrite (proj2 (Z.ltb_lt _ _)) by lia. cbn [negb]. wp_simpl.
  replace (2 * S m + c)%nat with (S (S (2 * m + c))) in Hit by lia.
  eapply (wp_read_entry i (2 * m + c) s e a j ip data off); [apply Hit|exact Hj|done|done|done|lia|].
  intros s1 e1 Hat1 Hst1. cbn iota. unfold DIRENTSIZE at 1. rewrite Z.eqb_refl. cbn [negb]. unfold when. wp_simpl.
  pose proof (at_it_step _ _ _ _ _ _ _ _ _ _ Hit Hat1 Hst1) as Hit1.
  assert (fs_inode (ks_fs s1) !! j = Some ip) as Hj1 by (by rewrite (fstep_inode _ _ _ _ _ Hst1)).
  set (de := slice off 16 data) in *. cbn [dir_find] in *. fold de in Hroom |- *.
  change (slice off DIRENTSIZE data) with de in *.
  assert (∀ fd, (∀ inum off', fd = Some (inum, off') → room R inum) → fd = dir_find m name data (off + DIRENTSIZE) →
    wp (dirlookup_loop fuel j name (off + DIRENTSIZE)) (World s1 e1) (looked_up i c a R (Some j) (World s e) fd)) as Hnext.
  { intros fd Hr ->. eapply wp_mono; [apply (IH fuel s1 e1 (off + 16)); [zlia|lia|lia|lia|exact Hit1|done|done]|].
    intros r w'. by apply looked_up_step. }
  destruct (Z.eqb_spec (de_inum de) 0) as [Hz|Hz]; cbn [negb andb] in *; [by apply Hnext|].
  assert (length de = 16%nat) as Hde by (apply length_slice_16; lia).
  destruct (namecmp_spec name (de_name de)) as (r & -> & Hr); [done|by apply Forall_drop, bytes_slice|lia|unfold de_name; rewrite length_drop; lia|].
  wp_simpl. destruct (Z.eqb_spec r 0) as [Hr0|Hr0].
  - rewrite bool_decide_true in Hroom |- * by (by apply Hr). wp_simpl. eapply wp_geti; [exact Hj1|]. rewrite Hdev. wp_simpl.
    destruct (Hroom _ _ eq_refl) as [Hr1 Hr2].
    eapply (wp_iget i c s1 e1); [split; [eapply at_fs_le; [|apply Hit1]; lia|apply Hit1]|exact Hr1|exact Hr2|].
    intros j' s2 Hit2 Hst2 Hh Hk. wp_simpl. apply (looked_up_step _ _ _ _ _ s e s1 e1); [done|].
    split; [done|]. split; [done|]. by exists j'.
  - rewrite bool_decide_false in Hroom |- * by (by rewrite <- Hr). by apply Hnext.
Qed.

Lemma wp_dirlookup i c a R j ip data name s e (N := (length data / 16)%nat) :
  dir_is a ip data → bytes name → length name = 14%nat → i_dev ip = ROOTDEV →
  at_it i (2 * N + c) (World s e) a R (Some j) → fs_inode (ks_fs s) !! j = Some ip →
  (∀ inum off, dir_lookup name data = Some (inum, off) → room R inum) →
  wp (dirlookup j name) (World s e) (looked_up i c a R (Some j) (World s e) (dir_lookup name data)).
Proof.
  intros Hd Hn Hln Hdev Hit Hj Hroom. unfold dirlookup. wp_simpl. eapply wp_geti; [exact Hj|].
  rewrite (di_type _ _ _ Hd). cbn [negb]. change (T_DIR =? T_DIR) with true. cbn [negb]. unfold when. wp_simpl.
  pose proof (Nat.div_mod_eq (length data) 16) as Hdm. rewrite (di_whole _ _ _ Hd) in Hdm.
  apply (wp_dirlookup_loop i c a R j ip data name); try done; [fold N in Hdm; lia|].
  rewrite (fi_size _ _ _ (di_file _ _ _ Hd)). unfold DIRENTSIZE. fold N in Hdm. zlia.
Qed.

End dir.
