(* ===== verification/FsPath.v ===== *)
(** * Path resolution (kernel/fs.c)

    [walk a sb cur els r] says that going from directory [cur] of the store [a]
    through the names [els] ends at inode [r], or nowhere.  [namex] implements
    it, and gives back every reference it took on the way but the last. *)

From Stdlib Require Import ZArith Lia.
From stdpp Require Import base gmap strings numbers list.
From S2P Require Import Prelude Spinlock Mem Kstring Kalloc Vm PageTable CopyUser Proc ProcFacts ProcOps Sched FsState Sleeplock FsFacts Bio BioFacts BioOps Log LogFacts Fs FsRead Itable FsDir.
Local Open Scope xv6_scope.

(** An inode of which only the number is known. *)
Definition blank (inum : Z) : inode := Inode ROOTDEV inum 0 (Sleeplock 0 "inode" 0) 0 0 0 0 0 0 [].

Lemma load_blank d ip : load_dinode d ip = ip → body ip = body (load_dinode d (blank (i_inum ip))).
Proof. intros H. rewrite <- H at 1. done. Qed.

(** ** References *)

Lemma take_ref_lookup inum R inum' :
  default 0 (take_ref inum R !! inum') = default 0 (R !! inum') + if decide (inum = inum') then 1 else 0.
Proof.
  unfold take_ref. case_decide as H; [subst; by rewrite lookup_insert_eq|]. rewrite lookup_insert_ne by done. lia.
Qed.

Lemma size_take_ref inum R : (size (take_ref inum R) ≤ S (size R))%nat.
Proof. unfold take_ref. rewrite map_size_insert. destruct (R !! inum); cbn; lia. Qed.

Definition positive (R : gmap Z Z) : Prop := ∀ inum n, R !! inum = Some n → 0 < n.

(** Giving back the first of two references. *)
Lemma drop_take_take cur next R : positive R → drop_ref cur (take_ref next (take_ref cur R)) = take_ref next R.
Proof.
  intros Hpos. destruct (decide (cur = next)) as [->|Hne].
  { apply drop_take. intros n. unfold take_ref. rewrite lookup_insert_eq. intros [= <-].
    destruct (R !! next) as [m|] eqn:E; cbn; [specialize (Hpos _ _ E)|]; lia. }
  assert (take_ref next (take_ref cur R) = take_ref cur (take_ref next R)) as ->.
  { unfold take_ref. rewrite !(lookup_insert_ne _ _ _ _ Hne), (lookup_insert_ne _ next cur) by congruence.
    by apply insert_insert_ne. }
  apply drop_take. intros n. unfold take_ref. rewrite lookup_insert_ne by done. apply Hpos.
Qed.

Section path.
Context `{KI : KernelImage} `{DO : DiskOps} `{DL : !DiskLaws}.
Implicit Types (w : W) (a : bstore) (s : KS).

Lemma file_is_body a ip ip' data : body ip' = body ip → i_dev ip' = i_dev ip → file_is a ip data → file_is a ip' data.
Proof.
  unfold body. intros [= E1 E2 E3 E4 E5 E6 E7] Hd [H1 H2 H3 H4]. split; [congruence|congruence|done|].
  intros k Hk Hlt. destruct (H4 k Hk Hlt) as (addr & d & Hb & H). exists addr, d. split; [|done].
  unfold block_of in *. by rewrite E7.
Qed.

Lemma dir_is_body a ip ip' data : body ip' = body ip → i_dev ip' = i_dev ip → dir_is a ip data → dir_is a ip' data.
Proof.
  intros E Hd [H1 H2 H3 H4]. split; [by eapply file_is_body| |done|done]. unfold body in E. congruence.
Qed.

(** Inode [inum] is in use on the disk and linked; [d] is the block it lies in. *)
Record disk_inode (a : bstore) (sb : superblock) (inum : Z) (d : list Z) : Prop := {
  dn_read : readable 1 a (IBLOCK inum sb);
  dn_mem : bs_mem a !! IBLOCK inum sb = Some d;
  dn_type : i_type (load_dinode d (blank inum)) ≠ 0;
  dn_nlink : i_nlink (load_dinode d (blank inum)) ≠ 0
}.

(** The last argument bounds the number of disk reads. *)
Inductive walk (a : bstore) (sb : superblock) : Z → list (list Z) → option Z → nat → Prop :=
| walk_done cur : walk a sb cur [] (Some cur) 0
| walk_next cur d data el els next off r k :
    disk_inode a sb cur d → dir_is a (load_dinode d (blank cur)) data →
    dir_lookup el data = Some (next, off) → walk a sb next els r k →
    walk a sb cur (el :: els) r (S (2 * (length data / 16) + k))
| walk_missing cur d data el els :
    disk_inode a sb cur d → dir_is a (load_dinode d (blank cur)) data → dir_lookup el data = None →
    walk a sb cur (el :: els) None (S (2 * (length data / 16)))
| walk_file cur d el els :
    disk_inode a sb cur d → i_type (load_dinode d (blank cur)) ≠ T_DIR →
    walk a sb cur (el :: els) None 1.

(** Two more entries of the inode table are free, and no count is near its
    limit. *)
Record spare (R : gmap Z Z) : Prop := {
  sp_pos : positive R;
  sp_size : (size R + 2 ≤ NINODE)%nat;
  sp_max : ∀ inum, default 0 (R !! inum) < 2 ^ 31 - 4
}.

Lemma spare_room R cur inum : spare R → room (take_ref cur R) inum.
Proof.
  intros [H1 H2 H3]. split; [right; pose proof (size_take_ref cur R); lia|].
  rewrite take_ref_lookup. specialize (H3 inum). case_decide; lia.
Qed.

Definition arrived (i c : nat) (a : bstore) (R : gmap Z Z) (w : W) (r : option Z) (r' : option nat) (w' : W) : Prop :=
  istep w w' ∧
  match r with
  | Some fin => ∃ j, r' = Some j ∧ at_it i c w' a (take_ref fin R) None ∧ holds_inode w' j fin
  | None => r' = None ∧ at_it i c w' a R None
  end.

Lemma arrived_step i c a R w w1 r r' w' : istep w w1 → arrived i c a R w1 r r' w' → arrived i c a R w r r' w'.
Proof. intros H1 [H2 H3]. split; [by etrans|done]. Qed.

(** [ilock] on an inode of the tree. *)
Lemma wp_lock_disk i n s e a R j cur d (Q : unit → W → Prop) :
  at_it i (S n) (World s e) a R None → holds_inode (World s e) j cur → disk_inode a (fs_sb (ks_fs s)) cur d →
  (∀ s' e' ip, at_it i n (World s' e') a R (Some j) → istep (World s e) (World s' e') →
     fs_inode (ks_fs s') !! j = Some ip → 0 < i_ref ip → i_inum ip = cur → i_dev ip = ROOTDEV →
     body ip = body (load_dinode d (blank cur)) → Q tt (World s' e')) →
  wp (ilock (Some j)) (World s e) Q.
Proof.
  intros Hit Hh [H1 H2 H3 H4] HQ. eapply wp_ilock; [exact Hit|exact Hh|done|exact H2|exact H3|].
  intros s' e' ip Hit' Hst Hj Hp Hi Hv Hl. eapply HQ; try done.
  - by apply (it_dev _ _ _ _ _ _ (ai_rep _ _ _ _ _ _ Hit') j).
  - rewrite <- Hi. by apply load_blank.
Qed.

Lemma cstr_idem l : cstr (cstr l) = cstr l.
Proof. induction l as [|c l IH]; cbn [cstr]; [done|]. destruct (truthy c) eqn:E; cbn [cstr]; [by rewrite E, IH|done]. Qed.

Lemma cstr_take n l : cstr (take n (cstr l)) = take n (cstr l).
Proof.
  revert n. induction l as [|c l IH]; intros n; cbn [cstr]; [by rewrite take_nil|].
  destruct (truthy c) eqn:E; [|by rewrite take_nil]. destruct n as [|n]; cbn [take cstr]; [done|]. by rewrite E, IH.
Qed.

Lemma dir_lookup_dname name data : dir_lookup (dname name) data = dir_lookup name data.
Proof.
  apply dir_find_ext. unfold dname. rewrite cstr_take, take_take. f_equal.
Qed.

(** The entry of the directory just searched is given back. *)
Lemma wp_leave_dir i c s e a R j ip cur next jn (K : M W (option nat * list Z)) Q :
  positive R → at_it i c (World s e) a (take_ref next (take_ref cur R)) (Some j) →
  fs_inode (ks_fs s) !! j = Some ip → 0 < i_ref ip → i_inum ip = cur → i_nlink ip ≠ 0 →
  holds_inode (World s e) jn next →
  (∀ s', at_it i c (World s' e) a (take_ref next R) None → istep (World s e) (World s' e) →
     holds_inode (World s' e) jn next → wp K (World s' e) Q) →
  wp (iunlockput j;; K) (World s e) Q.
Proof.
  intros Hpos Hit Hj Hp Hi Hnl Hh HQ. wp_simpl. eapply (wp_iunlockput i c); [exact Hit|exact Hj|done|done|].
  intros s1 Hit1 Hst1 Hh1. rewrite Hi, drop_take_take in Hit1 by done. apply HQ; [done|done|]. apply Hh1; [|done].
  destruct (decide (jn = j)) as [->|Hne]; [right|by left]. destruct Hh as (ip' & Hj' & _ & Hn). cbn [w_k] in Hj'.
  rewrite Hj in Hj'. injection Hj' as <-.
  destruct (it_dev _ _ _ _ _ _ (ai_rep _ _ _ _ _ _ Hit) j ip Hj Hp) as [_ HR]. rewrite Hn in HR.
  apply (f_equal (default 0)) in HR. rewrite !take_ref_lookup, !decide_True in HR by congruence. cbn in HR.
  destruct (R !! next) as [m|] eqn:E; cbn in HR; [specialize (Hpos _ _ E)|]; lia.
Qed.

(** A directory is searched; the entry [j] stays locked. *)
Lemma wp_search i c s e a R j ip cur data name :
  spare R → dir_is a ip data → bytes name → length name = 14%nat → i_dev ip = ROOTDEV →
  at_it i (2 * (length data / 16) + c) (World s e) a (take_ref cur R) (Some j) →
  fs_inode (ks_fs s) !! j = Some ip → 0 < i_ref ip → i_inum ip = cur → i_nlink ip ≠ 0 →
  wp (dirlookup j name) (World s e) (fun r w' => istep (World s e) w' ∧
    (∃ ip', fs_inode (ks_fs (w_k w')) !! j = Some ip' ∧ 0 < i_ref ip' ∧ i_inum ip' = cur ∧ i_nlink ip' ≠ 0) ∧
    match dir_lookup (dname name) data with
    | None => r = None ∧ at_it i c w' a (take_ref cur R) (Some j)
    | Some (next, off) => ∃ jn, r = Some (jn, off) ∧ at_it i c w' a (take_ref next (take_ref cur R)) (Some j) ∧
        holds_inode w' jn next
    end).
Proof.
  intros Hsp Hd Hb Hl Hdev Hit Hj Hp Hi Hnl. eapply wp_mono.
  { apply (wp_dirlookup i c a (take_ref cur R) j ip data name s e); try done. intros inum off' _. by apply spare_room. }
  rewrite dir_lookup_dname. intros r w' (Hst & Hk & H). split; [done|]. split; [|done].
  destruct (Hk j ip Hj Hp) as (ip' & Hj' & Hp' & Hb' & _). exists ip'. unfold body in Hb'.
  split; [done|]. split; [done|]. split; congruence.
Qed.

(** The walk ends without a result. *)
Lemma wp_abandon i n c s e a R j ip cur w name :
  spare R → at_it i (n + c) (World s e) a (take_ref cur R) (Some j) → istep w (World s e) →
  fs_inode (ks_fs s) !! j = Some ip → 0 < i_ref ip → i_inum ip = cur → i_nlink ip ≠ 0 →
  wp (iunlockput j;; ret (None, name)) (World s e) (fun r' w' => arrived i c a R w None (r' : option nat * list Z).1 w').
Proof.
  intros Hsp Hit Hst Hj Hp Hi Hn. wp_simpl. eapply wp_iunlockput; [exact Hit|exact Hj|done|done|].
  intros s3 Hit3 Hst3 _. wp_simpl. split; [by etrans|]. split; [done|].
  rewrite Hi, drop_take in Hit3 by apply Hsp. split; [eapply at_fs_le; [|apply Hit3]; lia|apply Hit3].
Qed.

Lemma wp_namex_loop i c a sb R :
  spare R → ∀ fuel path name cur r k s e j,
  path_ok path → length name = 14%nat → bytes name → walk a sb cur (path_elems path) r k → (length path < fuel)%nat →
  at_it i (k + c) (World s e) a (take_ref cur R) None → holds_inode (World s e) j cur → fs_sb (ks_fs s) = sb →
  wp (namex_loop fuel j path false name) (World s e) (fun r' w' => arrived i c a R (World s e) r r'.1 w').
Proof.
  intros Hsp. induction fuel as [|fuel IH]; intros path name cur r k s e j Hp Hln Hbn Hw Hfu Hit Hh Hsb; [lia|].
  cbn [namex_loop]. pose proof (skipelem_spec path name Hp Hln Hbn) as Hsk.
  destruct (skipelem path name) as [[path' name']|].
  2:{ rewrite Hsk in Hw. inversion Hw; subst. wp_simpl. split; [done|]. exists j. done. }
  destruct Hsk as (Hel & Hlt & Hp' & Hln' & Hbn'). rewrite Hel in Hw. clear Hel.
  assert (∃ d, disk_inode a sb cur d ∧ (∃ n, k = S n)) as (d & Hd & n & ->) by (inversion Hw; subst; eauto).
  wp_simpl. eapply (wp_lock_disk i (n + c)); [exact Hit|exact Hh|by rewrite Hsb|].
  intros s1 e1 ip Hit1 Hst1 Hj1 Hp1 Hi1 Hd1 Hb1. wp_simpl. eapply wp_geti; [exact Hj1|].
  assert (i_type ip = i_type (load_dinode d (blank cur)) ∧ i_nlink ip = i_nlink (load_dinode d (blank cur))) as [Ety Enl]
    by (unfold body in Hb1; split; congruence).
  assert (i_nlink ip ≠ 0) as Hnl by (rewrite Enl; apply Hd).
  assert (∀ d', disk_inode a sb cur d' → d' = d) as Hdd by (intros d' [_ H _ _]; rewrite (dn_mem _ _ _ _ Hd) in H; congruence).
  assert (∀ data, dir_is a (load_dinode d (blank cur)) data → (i_type ip =? T_DIR) = true ∧ dir_is a ip data) as Hdir.
  { intros data Hx. split; [rewrite Ety, (di_type _ _ _ Hx); done|]. by eapply dir_is_body. }
  inversion Hw as [|? d0 data ? ? next off ? k0 Hd0 Hdi Hlk Hw0|? d0 data ? ? Hd0 Hdi Hlk|? d0 ? ? Hd0 Hnd]; subst;
    pose proof (Hdd _ Hd0) as ->.
  - destruct (Hdir _ Hdi) as [-> Hdip]. cbn [negb andb]. wp_simpl.
    rewrite <- Nat.add_assoc in Hit1. eapply wp_mono; [by eapply (wp_search i (k0 + c))|]. rewrite Hlk.
    intros r' [s2 e2] (Hst2 & (ip2 & Hj2 & Hp2 & Hi2 & Hn2) & jn & -> & Hit2 & Hh2). cbn [w_k] in *.
    eapply (wp_leave_dir i (k0 + c)); [apply Hsp|exact Hit2|exact Hj2|done|done|done|exact Hh2|].
    intros s3 Hit3 Hst3 Hh3. eapply wp_mono; [eapply (IH path' name' next r k0 s3 e2 jn); try done; [lia|]|].
    + etrans; [apply (ip_sb _ _ Hst3)|]. etrans; [apply (ip_sb _ _ Hst2)|apply (ip_sb _ _ Hst1)].
    + intros r'' w'. apply arrived_step. by do 2 (etrans; [done|]).
  - destruct (Hdir _ Hdi) as [-> Hdip]. cbn [negb andb]. wp_simpl.
    eapply wp_mono; [by eapply (wp_search i c)|]. rewrite Hlk.
    intros r' [s2 e2] (Hst2 & (ip2 & Hj2 & Hp2 & Hi2 & Hn2) & -> & Hit2). cbn [w_k] in *.
    eapply (wp_abandon i 0); [done|exact Hit2|by etrans|exact Hj2|done|done|done].
  - rewrite Ety, (proj2 (Z.eqb_neq _ _)) by done. cbn [negb].
    eapply (wp_abandon i 0); [done|exact Hit1|done|exact Hj1|done|done|done].
Qed.

(** Absolute paths. *)
Lemma wp_namei i c a sb R path r k s e :
  spare R → path_ok path → hd 0 path = SLASH → walk a sb ROOTINO (path_elems path) r k →
  at_it i (k + c) (World s e) a R None → fs_sb (ks_fs s) = sb →
  wp (namei path) (World s e) (arrived i c a R (World s e) r).
Proof.
  intros Hsp Hp Hhd Hw Hit Hsb. unfold namei, namex. rewrite Hhd. change (SLASH =? SLASH) with true. wp_simpl.
  eapply (wp_iget i (k + c) s e a R None ROOTINO); [exact Hit|right; pose proof (sp_size _ Hsp); lia|pose proof (sp_max _ Hsp ROOTINO); lia|].
  intros j s1 Hit1 Hst1 Hh1 _. wp_simpl. eapply wp_mono.
  { apply (wp_namex_loop i c a sb R Hsp (S (length path)) path _ ROOTINO r k s1 e j); try done; [|lia|].
    - apply Forall_replicate. lia.
    - by rewrite (ip_sb _ _ Hst1 : fs_sb (ks_fs s1) = _). }
  intros [r' nm] w' Harr. wp_simpl. by eapply arrived_step.
Qed.

End path.
