(* ===== verification/FsAlloc.v ===== *)
(** * The block allocator (kernel/fs.c)

    Inside a transaction a block is changed by reading, updating, logging and
    releasing its buffer.  With that, [balloc] and [bfree] are specified on the
    set of blocks whose bit is set in the bitmap. *)

From Stdlib Require Import ZArith Lia.
From stdpp Require Import base gmap strings numbers list.
From S2P Require Import Prelude Spinlock Mem Kstring Kalloc Vm Proc ProcFacts ProcOps Sched FsState Sleeplock FsFacts Bio BioFacts BioOps Log LogFacts LogCommit LogOps Fs FsRead.
Local Open Scope xv6_scope.

(** ** Bits of a block *)

Definition bit_at (d : list Z) (i : Z) : bool := Z.testbit (get_at (i / 8) 1 d) (i mod 8).

Lemma land_bit v k : 0 ≤ k → (Z.land v (Z.shiftl 1 k) =? 0) = negb (Z.testbit v k).
Proof.
  intros Hk. rewrite Z.shiftl_1_l. destruct (Z.testbit v k) eqn:E; cbn [negb].
  - apply Z.eqb_neq. intros H. apply (f_equal (fun z => Z.testbit z k)) in H.
    rewrite Z.land_spec, E, Z.pow2_bits_true, Z.bits_0 in H by done. done.
  - apply Z.eqb_eq. apply Z.bits_inj'. intros n Hn. rewrite Z.land_spec, Z.bits_0.
    destruct (decide (n = k)) as [->|Hne]; [by rewrite E|]. rewrite Z.pow2_bits_false by done. apply andb_false_r.
Qed.

Lemma get_at_1 off d : 0 ≤ off < Z.of_nat (length d) → Some (get_at off 1 d) = d !! Z.to_nat off.
Proof.
  intros H. unfold get_at. destruct (lookup_lt_is_Some_2 d (Z.to_nat off)) as [x Hx]; [lia|]. rewrite Hx.
  change (Z.to_nat 1) with 1%nat. rewrite (drop_S d x (Z.to_nat off)) by done. cbn [take].
  rewrite firstn_O. cbn [le_value]. f_equal. lia.
Qed.

Lemma get_at_byte off d : block_ok d → 0 ≤ off < BSIZE → 0 ≤ get_at off 1 d < 256.
Proof.
  intros [Hl Hb] H. unfold BSIZE in *. pose proof (get_at_1 off d ltac:(lia)) as E. symmetry in E.
  rewrite Forall_lookup in Hb. exact (Hb _ _ E).
Qed.

(** Changing the bit [i]. *)
Definition put_bit (i : Z) (v : bool) (d : list Z) : list Z :=
  let m := Z.shiftl 1 (i mod 8) in
  put_at (i / 8) 1 (if v then Z.lor (get_at (i / 8) 1 d) m else Z.land (get_at (i / 8) 1 d) (Z.lnot m)) d.

Lemma put_bit_ok i v d : block_ok d → 0 ≤ i < BPB → block_ok (put_bit i v d).
Proof. intros Hd Hi. unfold BPB, BSIZE in *. apply block_ok_put; [zlia|lia|unfold BSIZE; zlia|done]. Qed.

Lemma byte_bits v k b : 0 ≤ v < 256 → 0 ≤ k < 8 →
  let w := if b : bool then Z.lor v (2 ^ k) else Z.land v (Z.lnot (2 ^ k)) in
  w mod 256 = w ∧ ∀ j, 0 ≤ j → Z.testbit w j = if decide (j = k) then b else Z.testbit v j.
Proof.
  intros Hv Hk w. assert (∀ j, 0 ≤ j → Z.testbit w j = if decide (j = k) then b else Z.testbit v j) as Hw.
  { intros j Hj. unfold w. destruct b; rewrite ?Z.lor_spec, ?Z.land_spec, ?Z.lnot_spec by done; case_decide as E; subst;
      rewrite ?Z.pow2_bits_true, ?Z.pow2_bits_false by (done || lia); cbn;
      rewrite ?orb_true_r, ?orb_false_r, ?andb_false_r, ?andb_true_r; done. }
  split; [|done]. apply Z.bits_inj'. intros j Hj. change 256 with (2 ^ 8).
  destruct (decide (j < 8)); [by rewrite Z.mod_pow2_bits_low|]. rewrite Z.mod_pow2_bits_high by lia.
  rewrite Hw by done. rewrite decide_False by lia. symmetry. destruct (decide (v = 0)) as [->|]; [apply Z.bits_0|].
  apply Z.bits_above_log2; [lia|]. assert (Z.log2 v < 8) by (apply Z.log2_lt_pow2; lia). lia.
Qed.

Lemma bit_put i v d j : block_ok d → 0 ≤ i < BPB → 0 ≤ j < BPB →
  bit_at (put_bit i v d) j = if decide (j = i) then v else bit_at d j.
Proof.
  intros Hd Hi Hj. unfold bit_at, put_bit, BPB, BSIZE in *.
  pose proof (get_at_byte (i / 8) d Hd ltac:(unfold BSIZE; zlia)) as Hb.
  destruct (byte_bits (get_at (i / 8) 1 d) (i mod 8) v Hb ltac:(zlia)) as [Hm Ht].
  assert (length d = 1024%nat) as Hl by apply Hd. rewrite Z.shiftl_1_l.
  destruct (decide (j / 8 = i / 8)) as [E|E].
  - rewrite E, get_put_same by (rewrite ?Hl; zlia). change (256 ^ 1) with 256 in *. rewrite Hm, Ht by zlia.
    destruct (decide (j = i)) as [->|Hne]; [by rewrite decide_True|]. rewrite decide_False; [done|]. zlia.
  - rewrite get_put_other by (rewrite ?Hl; zlia). rewrite decide_False; [done|]. intros ->. done.
Qed.

(** ** Logged changes *)

Section tx.
Context `{KI : KernelImage} `{DO : DiskOps} `{DL : !DiskLaws}.
Implicit Types (w : W) (a : bstore) (s : KS).

(** Inside a transaction that has changed the blocks [hs], with room for [k]
    more in the log. *)
Record at_tx (i n k : nat) (w : W) (a : bstore) (start : Z) (hs : list Z) : Prop := {
  tx_fs : at_fs i n w a;
  tx_log : log_is start hs (fs_log (ks_fs (w_k w)));
  tx_range : Forall (fun h => 0 ≤ h < 2 ^ 31) hs;
  tx_room : Z.of_nat (length hs + k) ≤ Z.min LOGSIZE (log_size (fs_log (ks_fs (w_k w))) - 1);
  tx_out : 1 ≤ log_outstanding (fs_log (ks_fs (w_k w)));
  tx_pin : ∀ h, h ∈ hs → is_Some (bs_refs a !! h);
  tx_max : ∀ bn, refs a bn - (if decide (bn ∈ hs) then 1 else 0) < 2 ^ 32 - 3
}.

Lemma at_tx_counts i n k w a start hs : at_tx i n k w a start hs → counts a.
Proof. intros H. eapply at_fs_counts, H. Qed.

Lemma at_tx_step i n n' k s s' e e' a start hs :
  at_tx i n k (World s e) a start hs → at_fs i n' (World s' e') a → fstep [] (World s e) (World s' e') →
  at_tx i n' k (World s' e') a start hs.
Proof.
  intros [H1 H2 H3 H4 H5 H6 H7] Hat [_ [K1 _ _ _ _] _]. cbn [w_k] in *. split; try done; cbn [w_k]; by rewrite K1.
Qed.

Lemma tx_put_refs hs bn d a bn' : refs (tx_put hs bn d a) bn' =
  refs a bn' + if decide (bn' = bn ∧ bn ∉ hs) then 1 else 0.
Proof.
  unfold tx_put, pinned. case_decide as H1; case_decide as H2; try tauto.
  - change (refs (put_mem bn d a) bn') with (refs a bn'). lia.
  - destruct H2 as [-> _]. rewrite refs_set, decide_True by done. done.
  - rewrite refs_set. case_decide; [subst; tauto|]. change (refs (put_mem bn d a) bn') with (refs a bn'). lia.
Qed.

Lemma tx_put_some hs bn d a h : counts a → h = bn ∨ is_Some (bs_refs a !! h) → (bn ∈ hs → is_Some (bs_refs a !! bn)) →
  is_Some (bs_refs (tx_put hs bn d a) !! h).
Proof.
  intros Hc Hh Hin. unfold tx_put, pinned, set_refs. case_decide as H; cbn.
  - destruct Hh as [->|?]; [by apply Hin|done].
  - destruct (counts_refs a bn Hc) as [Hp _]. rewrite decide_False by lia.
    destruct (decide (h = bn)) as [->|Hne]; [rewrite lookup_insert_eq; by eexists|].
    rewrite lookup_insert_ne by done. destruct Hh; [done|done].
Qed.

Lemma at_tx_listed i n n' k s s' e e' a start hs bn d :
  at_tx i n (S k) (World s e) a start hs → at_fs i n' (World s' e') (tx_put hs bn d a) →
  fs_log (ks_fs s') = listed hs bn (fs_log (ks_fs s)) → 0 ≤ bn < 2 ^ 31 →
  at_tx i n' k (World s' e') (tx_put hs bn d a) start (listing hs bn).
Proof.
  intros Htx Hat Hlog Hbn. pose proof (at_tx_counts _ _ _ _ _ _ _ Htx) as Hc. destruct Htx as [H1 H2 H3 H4 H5 H6 H7].
  cbn [w_k] in *. assert (length (listing hs bn) ≤ S (length hs))%nat as Hlen.
  { unfold listing. case_decide; rewrite ?length_app; cbn; lia. }
  split; cbn [w_k]; rewrite ?Hlog; try done.
  - apply listed_is; [done|lia].
  - unfold listing. case_decide; [done|]. apply Forall_app. split; [done|]. by constructor.
  - assert (log_size (listed hs bn (fs_log (ks_fs s))) = log_size (fs_log (ks_fs s))) as -> by (unfold listed; by case_decide). lia.
  - by unfold listed; case_decide.
  - intros h Hh. apply tx_put_some; [done| |apply H6]. unfold listing in Hh. case_decide; [right; by apply H6|].
    apply elem_of_app in Hh as [Hh|Hh%list_elem_of_singleton]; [right; by apply H6|by left].
  - intros bn'. rewrite tx_put_refs. specialize (H7 bn'). unfold listing.
    destruct (decide (bn ∈ hs)) as [Hin|Hin].
    + rewrite (decide_False (P := bn' = bn ∧ bn ∉ hs)) by tauto. lia.
    + destruct (decide (bn' = bn)) as [->|Hne].
      * rewrite (decide_True (P := bn = bn ∧ _)) by done. rewrite decide_False in H7 by done.
        rewrite decide_True by (apply elem_of_app; right; by left). lia.
      * rewrite (decide_False (P := bn' = bn ∧ bn ∉ hs)) by tauto. destruct (decide (bn' ∈ hs)) as [Hi|Hi].
        -- rewrite decide_True by (apply elem_of_app; by left). lia.
        -- rewrite decide_False; [lia|]. rewrite elem_of_app, list_elem_of_singleton. tauto.
Qed.

(** A buffer at hand is changed, logged and released. *)
Lemma wp_tx_update {A} i n k s0 e0 s e a start hs bn b g d (K : M W A) (Q : A → W → Prop) :
  at_tx i n (S k) (World s0 e0) a start hs → fstep [] (World s0 e0) (World s e) →
  at_fs i n (World s e) (got bn a) → loaded (ks_fs s) b bn → readable 1 a bn → bs_mem a !! bn = Some d → block_ok (g d) →
  (∀ s', at_tx i n k (World s' e) (tx_put hs bn (g d) a) start (listing hs bn) → lstep [] (World s0 e0) (World s' e) →
     wp K (World s' e) Q) →
  wp (onw (updb b (fun x => x <| b_data ::= g |>));; onw (log_write b);; onw (brelse b);; K) (World s e) Q.
Proof.
  intros Htx Hst Hat Hld Hrd Hd Hg HQ. pose proof (at_tx_counts _ _ _ _ _ _ _ Htx) as Hc.
  pose proof Htx as [H1 H2 H3 H4 H5 H6 H7]. cbn [w_k] in *.
  pose proof (kp_log _ _ (ft_kept _ _ _ Hst) : fs_log (ks_fs s) = _) as Hlog. cbn [w_k] in Hlog.
  eapply (wp_log_update i n s e a start hs bn b g d);
    [exact Hat|done|done|apply Hrd|apply Hrd|done|done| |apply H6|by rewrite Hlog|done|lia|rewrite Hlog; lia|by rewrite Hlog|].
  - specialize (H7 bn). case_decide; lia.
  - intros s' Hat' Hst' Hlog'. apply HQ; [|eapply (lstep_trans [] []); [by apply fstep_lstep|done]].
    eapply at_tx_listed; [exact Htx|exact Hat'|by rewrite Hlog', Hlog|apply Hrd].
Qed.

Lemma at_tx_le i n n' k w a start hs : (n' ≤ n)%nat → at_tx i n k w a start hs → at_tx i n' k w a start hs.
Proof. intros Hn [H1 H2 H3 H4 H5 H6 H7]. split; try done. by eapply at_fs_le. Qed.

Lemma at_tx_block i n k w a start hs bn d : at_tx i n k w a start hs → bs_mem a !! bn = Some d → block_ok d.
Proof. intros H. eapply (bk_mem a bn). by eapply at_fs_block, H. Qed.

Lemma readable_tx_put k hs bn d a bn' : counts a → bn' ≠ bn → readable (S k) a bn' → readable k (tx_put hs bn d a) bn'.
Proof.
  intros Hc Hne [H1 H2 H3 H4 H5]. destruct (counts_refs a bn Hc) as [Hp _].
  unfold tx_put. case_decide; [split; try done; destruct H4; [by left|right; cbn; lia]|].
  destruct (set_refs_agree bn (refs a bn + 1) (put_mem bn d a) bn' Hne) as (A1 & _).
  split; try done.
  - unfold pinned. rewrite A1. destruct H4 as [?|H4]; [by left|right]. unfold set_refs. cbn. rewrite decide_False by lia.
    rewrite map_size_insert. destruct (bs_refs a !! bn); cbn; lia.
  - unfold refs, pinned. by rewrite A1.
Qed.

Lemma rd_mem i n k w a start hs j bn : at_tx i n k w a start hs → readable j a bn → is_Some (bs_mem a !! bn).
Proof. intros Htx Hrd. apply (bk_dom a bn); [eapply at_fs_block, Htx|apply Hrd]. Qed.

(** ** [bzero] *)

Definition zeros : list Z := replicate (Z.to_nat BSIZE) 0.

Lemma zeros_ok : block_ok zeros.
Proof. split; [apply length_replicate|]. apply Forall_replicate. lia. Qed.

Lemma wp_seq3 {A} (m1 m2 m3 : M W unit) (K : M W A) w Q :
  wp (m1;; m2;; m3;; K) w Q → wp (m1;; m2;; m3) w (fun _ w' => wp K w' Q).
Proof.
  unfold wp, bind. destruct (m1 w) as [u1 w1| | | | |]; try done. destruct (m2 w1) as [u2 w2| | | | |]; try done.
  by destruct (m3 w2).
Qed.

Lemma wp_bzero {A} i n k s e a start hs bno d (K : M W A) (Q : A → W → Prop) :
  at_tx i (S n) (S k) (World s e) a start hs → readable 1 a bno → bs_mem a !! bno = Some d →
  (∀ s' e', at_tx i n k (World s' e') (tx_put hs bno zeros a) start (listing hs bno) →
     lstep [] (World s e) (World s' e') → wp K (World s' e') Q) →
  wp (bzero ROOTDEV bno;; K) (World s e) Q.
Proof.
  intros Htx Hrd Hd HQ. pose proof (rd_num _ _ _ Hrd). unfold bzero. rewrite u32_small by lia.
  rewrite wp_bind, wp_bind. eapply wp_fetch; [apply Htx|done|exact Hd|].
  intros b x s1 e1 Hat1 Hst1 Hld Hx Hxd.
  assert (at_tx i n (S k) (World s e) a start hs) as Htx' by (eapply at_tx_le; [|exact Htx]; lia).
  apply wp_seq3. eapply (wp_tx_update i n k s e s1 e1 a start hs bno b (fun _ => zeros) d); try done; [apply zeros_ok|].
  intros s' H1 H2. by apply HQ.
Qed.

(** ** The bitmap *)

Lemma balloc_scan_spec n d b bi size : 0 ≤ b → 0 ≤ bi → b + bi + Z.of_nat n ≤ 2 ^ 32 →
  match balloc_scan n d b bi size with
  | Some x => bi ≤ x < bi + Z.of_nat n ∧ b + x < size ∧ bit_at d x = false ∧ ∀ y, bi ≤ y < x → bit_at d y = true
  | None => ∀ y, bi ≤ y < bi + Z.of_nat n → b + y < size → bit_at d y = true
  end.
Proof.
  intros Hb. revert bi. induction n as [|n IH]; intros bi Hbi Hn; cbn [balloc_scan]; [intros; lia|].
  rewrite u32_small by lia. destruct (Z.ltb_spec (b + bi) size) as [Hlt|Hge]; [|intros; lia].
  rewrite land_bit by zlia. fold (bit_at d bi). destruct (bit_at d bi) eqn:E; cbn [negb].
  - specialize (IH (bi + 1) ltac:(lia) ltac:(lia)). destruct (balloc_scan n d b (bi + 1) size) as [x|].
    + destruct IH as (H1 & H2 & H3 & H4). split; [lia|]. split; [done|]. split; [done|].
      intros y Hy. destruct (decide (y = bi)) as [->|]; [done|]. apply H4. lia.
    + intros y Hy Hs. destruct (decide (y = bi)) as [->|]; [done|]. apply IH; lia.
  - split; [lia|]. split; [done|]. split; [done|]. lia.
Qed.

(** Block [b] is marked as in use. *)
Definition used (a : bstore) (sb : superblock) (b : Z) : bool :=
  match bs_mem a !! BBLOCK b sb with Some d => bit_at d (b mod BPB) | None => true end.

(** The bitmap lies on the disk, in blocks that can be read. *)
Record bitmap_ok (k : nat) (a : bstore) (sb : superblock) : Prop := {
  bm_size : 0 ≤ sb_size sb < 2 ^ 31;
  bm_start : 0 ≤ sb_bmapstart sb < 2 ^ 31;
  bm_read : ∀ b, 0 ≤ b < sb_size sb → readable k a (BBLOCK b sb)
}.

Lemma BBLOCK_eq k a sb b : bitmap_ok k a sb → 0 ≤ b < sb_size sb → BBLOCK b sb = b / BPB + sb_bmapstart sb.
Proof. intros [H1 H2 _] Hb. unfold BBLOCK, BPB, BSIZE. apply u32_small. zlia. Qed.

(** Changing one bit. *)
Lemma used_put k a sb hs b v d x : bitmap_ok k a sb → 0 ≤ b < sb_size sb → 0 ≤ x < sb_size sb →
  bs_mem a !! BBLOCK b sb = Some d → block_ok d →
  used (tx_put hs (BBLOCK b sb) (put_bit (b mod BPB) v d) a) sb x = if decide (x = b) then v else used a sb x.
Proof.
  intros Hbm Hb Hx Hd Hok. unfold used.
  assert (∀ bn, bs_mem (tx_put hs (BBLOCK b sb) (put_bit (b mod BPB) v d) a) !! bn =
    <[BBLOCK b sb := put_bit (b mod BPB) v d]> (bs_mem a) !! bn) as -> by (intros bn; unfold tx_put; by case_decide).
  pose proof (BBLOCK_eq _ _ _ _ Hbm Hb) as Eb. pose proof (BBLOCK_eq _ _ _ _ Hbm Hx) as Ex.
  destruct (decide (BBLOCK x sb = BBLOCK b sb)) as [E|E].
  - rewrite E, lookup_insert_eq, Hd. unfold BPB, BSIZE in *. rewrite bit_put by (done || unfold BPB, BSIZE; zlia).
    destruct (decide (x = b)) as [->|Hne]; [by rewrite decide_True|]. rewrite decide_False; [done|]. zlia.
  - rewrite lookup_insert_ne by done. rewrite decide_False; [done|]. by intros ->.
Qed.

(** ** [bfree] *)

Lemma wp_bfree i n k s e a start hs sb b d :
  at_tx i (S n) (S k) (World s e) a start hs → fs_sb (ks_fs s) = sb → bitmap_ok 1 a sb → 0 ≤ b < sb_size sb →
  bs_mem a !! BBLOCK b sb = Some d → used a sb b = true →
  wp (bfree ROOTDEV b) (World s e) (fun _ w' =>
    at_tx i n k w' (tx_put hs (BBLOCK b sb) (put_bit (b mod BPB) false d) a) start (listing hs (BBLOCK b sb)) ∧
    lstep [] (World s e) w').
Proof.
  intros Htx Hsb Hbm Hb Hd Hu. pose proof (bm_read _ _ _ Hbm b Hb) as Hrd.
  assert (0 ≤ b mod BPB < BPB) as Hbi by (unfold BPB, BSIZE; zlia).
  unfold bfree. wp_simpl. unfold getsb. wp_simpl. rewrite Hsb.
  eapply wp_fetch; [apply Htx|done|exact Hd|]. intros bp x s1 e1 Hat1 Hst1 Hld Hx Hxd. wp_simpl.
  eapply wp_getb; [exact Hx|]. rewrite Hxd, land_bit by zlia. unfold used in Hu. rewrite Hd in Hu. unfold bit_at in Hu.
  rewrite Hu. cbn [negb]. unfold when. cbn iota. rewrite wp_bind, wp_ret.
  assert (at_tx i n (S k) (World s e) a start hs) as Htx' by (eapply at_tx_le; [|exact Htx]; lia).
  eapply wp_mono; [eapply (wp_seq3 _ _ _ (ret tt) _ (fun _ w' =>
    at_tx i n k w' (tx_put hs (BBLOCK b sb) (put_bit (b mod BPB) false d) a) start (listing hs (BBLOCK b sb)) ∧
    lstep [] (World s e) w'))|intros u w' H; exact H].
  eapply (wp_tx_update i n k s e s1 e1 a start hs (BBLOCK b sb) bp (put_bit (b mod BPB) false) d); try done.
  by apply put_bit_ok; [eapply at_tx_block|].
Qed.

(** ** [balloc] *)

(** The first free block below [size]. *)
Definition first_free (a : bstore) (sb : superblock) (b : Z) : Prop :=
  0 ≤ b < sb_size sb ∧ used a sb b = false ∧ ∀ x, 0 ≤ x < b → used a sb x = true.

Definition allocated (a : bstore) (sb : superblock) (hs : list Z) (b : Z) (d : list Z) : bstore :=
  tx_put (listing hs (BBLOCK b sb)) b zeros (tx_put hs (BBLOCK b sb) (put_bit (b mod BPB) true d) a).

(** A free bit was found: it is set, and the block is cleared. *)
Lemma wp_balloc_hit i n k s e s1 e1 a start hs sb b bi d bp :
  at_tx i (S n) (S (S k)) (World s e) a start hs → fstep [] (World s e) (World s1 e1) →
  at_fs i (S n) (World s1 e1) (got (BBLOCK b sb) a) → loaded (ks_fs s1) bp (BBLOCK b sb) → readable 1 a (BBLOCK b sb) →
  bs_mem a !! BBLOCK b sb = Some d → 0 ≤ bi < BPB → BBLOCK (b + bi) sb = BBLOCK b sb → (b + bi) mod BPB = bi →
  readable 2 a (b + bi) → b + bi ≠ BBLOCK b sb →
  wp (onw (updb bp (fun x => x <| b_data ::= put_bit bi true |>));; onw (log_write bp);; onw (brelse bp);;
      bzero ROOTDEV (b + bi);; ret (b + bi)) (World s1 e1) (fun r w' => r = b + bi ∧ lstep [] (World s e) w' ∧
    at_tx i n k w' (allocated a sb hs r d) start (listing (listing hs (BBLOCK r sb)) r)).
Proof.
  intros Htx Hst1 Hat1 Hld Hrd Hd Hbi Ebb Emod Hrdn Hne.
  eapply (wp_tx_update i (S n) (S k) s e s1 e1 a start hs (BBLOCK b sb) bp (put_bit bi true) d); try done.
  { by apply put_bit_ok; [eapply at_tx_block|]. }
  intros s2 Htx2 Hst2.
  assert (readable 1 (tx_put hs (BBLOCK b sb) (put_bit bi true d) a) (b + bi)) as Hrd'.
  { eapply readable_tx_put; [by eapply at_tx_counts|done|done]. }
  destruct (rd_mem _ _ _ _ _ _ _ _ _ Htx2 Hrd') as [dn Hdn].
  eapply (wp_bzero i n k s2 e1); [exact Htx2|exact Hrd'|exact Hdn|]. intros s3 e3 Htx3 Hst3. wp_simpl.
  split; [done|]. split; [by eapply (lstep_trans [] [])|]. unfold allocated. by rewrite Ebb, Emod.
Qed.

Lemma wp_balloc_loop i c k a start hs sb :
  bitmap_ok 2 a sb → (∀ b, first_free a sb b → readable 2 a b ∧ ∀ x, 0 ≤ x < sb_size sb → b ≠ BBLOCK x sb) →
  ∀ rounds fuel s e b, (rounds < fuel)%nat → 0 ≤ b → b mod BPB = 0 → sb_size sb ≤ b + BPB * Z.of_nat rounds →
  (∀ x, 0 ≤ x < b → x < sb_size sb → used a sb x = true) →
  at_tx i (rounds + 1 + c) (S (S k)) (World s e) a start hs → fs_sb (ks_fs s) = sb →
  wp (balloc_loop fuel ROOTDEV b) (World s e) (fun r w' => lstep [] (World s e) w' ∧
    (r = 0 ∧ (∀ x, 0 ≤ x < sb_size sb → used a sb x = true) ∧ at_tx i c (S (S k)) w' a start hs ∨
     ∃ d, first_free a sb r ∧ bs_mem a !! BBLOCK r sb = Some d ∧
       at_tx i c k w' (allocated a sb hs r d) start (listing (listing hs (BBLOCK r sb)) r))).
Proof.
  intros Hbm Hfree. induction rounds as [|rounds IH]; intros fuel s e b Hfu Hb0 Hal Hsz Hpre Htx Hsb;
    (destruct fuel as [|fuel]; [lia|]); cbn [balloc_loop]; wp_simpl; unfold getsb; wp_simpl; rewrite Hsb;
    pose proof (bm_size _ _ _ Hbm) as Hmax.
  { rewrite (proj2 (Z.ltb_ge _ _)) by lia. cbn [negb]. wp_simpl. split; [apply fstep_lstep, fstep_refl|]. left.
    split; [done|]. split; [|eapply at_tx_le; [|exact Htx]; lia]. intros x Hx. apply Hpre; lia. }
  destruct (Z.ltb_spec b (sb_size sb)) as [Hlt|Hge]; cbn [negb].
  2:{ wp_simpl. split; [apply fstep_lstep, fstep_refl|]. left.
      split; [done|]. split; [|eapply at_tx_le; [|exact Htx]; lia]. intros x Hx. apply Hpre; lia. }
  pose proof (bm_read _ _ _ Hbm b ltac:(lia)) as Hrd2. pose proof (readable_weaken 2 1 a _ ltac:(lia) Hrd2) as Hrd.
  destruct (rd_mem _ _ _ _ _ _ _ _ _ Htx Hrd) as [d Hd].
  pose proof (at_tx_block _ _ _ _ _ _ _ _ _ Htx Hd) as Hok.
  assert (∀ x, b ≤ x < b + BPB → x < sb_size sb → BBLOCK x sb = BBLOCK b sb ∧ x mod BPB = x - b) as Hsame.
  { intros x Hx Hxs. rewrite (BBLOCK_eq _ _ _ x Hbm), (BBLOCK_eq _ _ _ b Hbm) by lia. unfold BPB, BSIZE in *. zlia. }
  assert (∀ x, b ≤ x < b + BPB → x < sb_size sb → used a sb x = bit_at d (x - b)) as Hused.
  { intros x Hx Hxs. destruct (Hsame x Hx Hxs) as [E1 E2]. unfold used. by rewrite E1, E2, Hd. }
  replace (S rounds + 1 + c)%nat with (S (rounds + 1 + c)) in Htx by lia. wp_simpl.
  eapply wp_fetch; [apply Htx|done|exact Hd|]. intros bp x s1 e1 Hat1 Hst1 Hld Hx Hxd. wp_simpl.
  eapply wp_getb; [exact Hx|]. rewrite Hxd.
  pose proof (balloc_scan_spec (Z.to_nat BPB) d b 0 (sb_size sb) ltac:(lia) ltac:(lia) ltac:(unfold BPB, BSIZE; lia)) as Hscan.
  destruct (balloc_scan (Z.to_nat BPB) d b 0 (sb_size sb)) as [bi|].
  - destruct Hscan as (Hbi & Hbs & Hbit & Hbelow). rewrite Z2Nat.id in Hbi by (unfold BPB, BSIZE; lia).
    destruct (Hsame (b + bi)) as [Ebb Emod]; [lia|lia|]. replace (b + bi - b) with bi in Emod by lia.
    assert (first_free a sb (b + bi)) as Hff.
    { split; [lia|]. split; [rewrite Hused by lia; by replace (b + bi - b) with bi by lia|].
      intros y Hy. destruct (decide (y < b)); [apply Hpre; lia|]. rewrite Hused by lia. apply Hbelow. lia. }
    destruct (Hfree _ Hff) as [Hrdn Hne]. rewrite Nat.add_1_r in Htx, Hat1. cbn [plus] in Htx, Hat1.
    eapply wp_mono; [eapply (wp_balloc_hit i (rounds + c) k s e s1 e1 a start hs sb b bi d); try done|].
    + eapply at_tx_le; [|exact Htx]. lia.
    + apply Hne. lia.
    + intros r w' (-> & H1 & H2). split; [done|]. right. exists d. rewrite Ebb in *. split; [done|]. split; [done|].
      eapply at_tx_le; [|exact H2]. lia.
  - wp_simpl. eapply wp_unfetch; [exact Hat1|done|done|by eapply at_tx_counts|eapply at_fs_block, Htx|].
    intros s2 Hat2 Hst2. wp_simpl. pose proof (fstep_trans [] [] _ _ _ Hst1 Hst2) as Hst. cbn [app] in Hst.
    eapply wp_mono; [apply (IH fuel s2 e1 (b + BPB)); [lia|unfold BPB, BSIZE; lia|unfold BPB, BSIZE in *; zlia|lia| |by eapply at_tx_step|]|].
    + intros y Hy Hys. destruct (decide (y < b)); [apply Hpre; lia|]. rewrite Hused by lia. apply Hscan; [|lia].
      rewrite Z2Nat.id by (unfold BPB, BSIZE; lia). lia.
    + by rewrite (kp_sb _ _ (ft_kept _ _ _ Hst) : fs_sb (ks_fs s2) = _).
    + intros r w' [H1 H2]. split; [|done]. eapply (lstep_trans [] []); [by apply fstep_lstep|done].
Qed.

End tx.
