(* ===== verification/FileSystem.v ===== *)
(** * The file system

    Theorems on the block allocator, file contents, directories and path names,
    each with an example on a small disk that holds a root directory with one
    file in it. *)

From Stdlib Require Import ZArith Lia.
From stdpp Require Import base gmap strings numbers list.
From S2P Require Import Prelude Spinlock Mem Kstring Kalloc Vm PageTable CopyUser Proc ProcFacts ProcOps Sched FsState Sleeplock FsFacts Sample Virtio Bio BioFacts BioOps Log LogFacts LogCommit LogOps VirtioFacts Storage Fs FsRead Itable FsDir FsPath FsAlloc.
Local Open Scope xv6_scope.

(** [skipelem] returns the elements of a path one after the other, cut to
    [DIRSIZ] bytes and without the slashes around them, and nothing when none
    is left.  Every call that returns an element shortens the path, so that the
    loop of [namex] ends. *)
Theorem skipelem_correct path name : path_ok path → length name = 14%nat → bytes name →
  match skipelem path name with
  | None => path_elems path = []
  | Some (path', name') =>
    path_elems path = dname name' :: path_elems path' ∧ (length path' < length path)%nat ∧
    path_ok path' ∧ length name' = 14%nat ∧ bytes name'
  end.
Proof. apply skipelem_spec. Qed.

Section fs.
Context `{KI : KernelImage} `{DO : DiskOps} `{DL : !DiskLaws}.
Implicit Types (w : W) (a : bstore) (s : KS).

(** C14. [readi] into user memory delivers the bytes of the file from [off] on, as
    many as asked for or as there are; the file system is unchanged. *)
Theorem readi_correct i root T j ip a data dst off n c rounds s e (m := Z.min n (Z.of_nat (length data) - off)) :
  file_is a ip data → bytes data → 0 ≤ off ≤ Z.of_nat (length data) → 0 ≤ n → off + n < 2 ^ 32 →
  at_fs i (2 * rounds + c) (World s e) a → fs_inode (ks_fs s) !! j = Some ip →
  off mod BSIZE + m ≤ BSIZE * Z.of_nat rounds →
  pgtbl i s = root → pt_rep (k_mem (ks_k s)) root T → 0 ≤ dst → dst + m < 2 ^ 64 →
  (∀ va, dst ≤ va < dst + m → uaddr (k_mem (ks_k s)) T va ≠ 0 ∧ target_ok T (uaddr (k_mem (ks_k s)) T va)) →
  wp (readi j (T_addr true dst) off n) (World s e) (fun r w' =>
    r.1 = m ∧ uwrite (k_mem (ks_k s)) T (k_mem (ks_k s)) dst (slice off m data) = (true, k_mem (ks_k (w_k w'))) ∧
    at_fs i c w' a ∧ fs_inode (ks_fs (w_k w')) = fs_inode (ks_fs s)).
Proof.
  intros Hf Hb Hoff Hn Hmax Hat Hj Hr Hpg Hpt H0 Hd Hok.
  assert (Z.of_nat (length (slice off m data)) = m) as Hm by (rewrite length_slice by lia; lia).
  assert (copies i root (T_addr true dst) (slice off m data)
            (fun done m' => uwrite (k_mem (ks_k s)) T (k_mem (ks_k s)) dst done = (true, m') ∧ same_tbl T (k_mem (ks_k s)) m')) as Hc.
  { apply copies_user; try done; [by apply bytes_slice|by rewrite Hm|by rewrite Hm]. }
  eapply (wp_readi i root j ip a data (T_addr true dst) off n _ c rounds); try done.
  intros s' e' Hat' Hst [HJ _]. split; [done|]. split; [done|]. split; [done|]. exact (mstep_inode _ _ _ _ _ Hst).
Qed.

(** [dirlookup] returns the inode of the first entry in use that has the
    name, with one more reference to it and the offset of the entry, or nothing
    if there is none. *)
Theorem dirlookup_correct i c a R j ip data name s e :
  dir_is a ip data → bytes name → length name = 14%nat → i_dev ip = ROOTDEV →
  at_it i (2 * (length data / 16) + c) (World s e) a R (Some j) → fs_inode (ks_fs s) !! j = Some ip →
  (∀ k, room R (de_inum (dirent_at data k))) →
  wp (dirlookup j name) (World s e) (fun r w' => istep (World s e) w' ∧
    ((r = None ∧ (∀ k, (k < length data / 16)%nat → ¬ dir_hit name data k) ∧ at_it i c w' a R (Some j)) ∨
     ∃ k j', r = Some (j', 16 * Z.of_nat k) ∧ (k < length data / 16)%nat ∧ dir_hit name data k ∧
       (∀ k', (k' < k)%nat → ¬ dir_hit name data k') ∧ holds_inode w' j' (de_inum (dirent_at data k)) ∧
       at_it i c w' a (take_ref (de_inum (dirent_at data k)) R) (Some j))).
Proof.
  intros Hd Hb Hl Hdev Hit Hj Hroom. pose proof (dir_lookup_spec name data) as Hspec. eapply wp_mono.
  { apply (wp_dirlookup i c a R j ip data name s e); try done. intros inum off E. rewrite E in Hspec.
    destruct Hspec as (k & _ & _ & _ & -> & _). apply Hroom. }
  intros r w' (Hst & _ & H). split; [done|]. destruct (dir_lookup name data) as [[inum off]|].
  - right. destruct Hspec as (k & Hk & -> & Hh & -> & Hlt), H as (j' & -> & Hit' & Hh'). by exists k, j'.
  - left. destruct H as [-> Hit']. done.
Qed.

(** C13. [namei] on an absolute path implements the walk through the directories
    of the store: it returns the inode the walk ends at, with one reference for
    the caller, or nothing if an element is missing or not a directory; all the
    other references it took are given back, and no lock stays held. *)
Theorem namei_refines i c a R path r k s e :
  spare R → path_ok path → hd 0 path = SLASH → walk a (fs_sb (ks_fs s)) ROOTINO (path_elems path) r k →
  at_it i (k + c) (World s e) a R None →
  wp (namei path) (World s e) (fun r' w' => istep (World s e) w' ∧
    match r with
    | Some fin => ∃ j, r' = Some j ∧ at_it i c w' a (take_ref fin R) None ∧ holds_inode w' j fin
    | None => r' = None ∧ at_it i c w' a R None
    end).
Proof. intros Hsp Hp Hhd Hw Hit. by apply (wp_namei i c a (fs_sb (ks_fs s)) R path r k s e). Qed.

(** C19. [balloc] takes the first free block: it marks that block and no other as
    used and fills it with zeros; it returns 0 only if every block is used. *)
Theorem balloc_correct i c k a start hs s e (sb := fs_sb (ks_fs s)) :
  bitmap_ok 2 a sb → (∀ b, first_free a sb b → readable 2 a b ∧ ∀ x, 0 ≤ x < sb_size sb → b ≠ BBLOCK x sb) →
  at_tx i (S (S (Z.to_nat (sb_size sb / BPB)) + c)) (S (S k)) (World s e) a start hs →
  wp (balloc ROOTDEV) (World s e) (fun r w' => lstep [] (World s e) w' ∧
    (r = 0 ∧ (∀ x, 0 ≤ x < sb_size sb → used a sb x = true) ∧ at_tx i c (S (S k)) w' a start hs ∨
     first_free a sb r ∧ ∃ a' hs', at_tx i c k w' a' start hs' ∧ bs_mem a' !! r = Some zeros ∧
       ∀ x, 0 ≤ x < sb_size sb → used a' sb x = if decide (x = r) then true else used a sb x)).
Proof.
  intros Hbm Hfree Htx. pose proof (bm_size _ _ _ Hbm) as Hsz. unfold balloc. wp_simpl. unfold getsb. wp_simpl. fold sb.
  eapply wp_mono.
  { apply (wp_balloc_loop i c k a start hs sb Hbm Hfree (S (Z.to_nat (sb_size sb / BPB))) _ s e 0);
      [lia|lia|done|unfold BPB, BSIZE; zlia|lia| |done].
    eapply at_tx_le; [|exact Htx]. lia. }
  cbn beta. intros r w' [Hst [H|(d & Hff & Hd & Hat)]]; (split; [done|]); [by left|right]. split; [done|].
  eexists _, _. split; [exact Hat|]. destruct (Hfree r Hff) as [_ Hne], Hff as (Hr & Hu & _).
  assert (∀ hs bn d a bn', bs_mem (tx_put hs bn d a) !! bn' = <[bn := d]> (bs_mem a) !! bn') as Hmem
    by (intros; unfold tx_put; by case_decide).
  split; [unfold allocated; by rewrite Hmem, lookup_insert_eq|]. intros x Hx.
  rewrite <- (used_put 2 a sb hs r true d x Hbm Hr Hx Hd) by exact (at_tx_block _ _ _ _ _ _ _ _ _ Htx Hd).
  unfold used, allocated. rewrite (Hmem _ r), lookup_insert_ne by (by apply Hne). done.
Qed.

(** [bfree] gives back a block in use: it is marked as free and no other mark
    changes. *)
Theorem bfree_correct i n k a start hs s e b (sb := fs_sb (ks_fs s)) :
  at_tx i (S n) (S k) (World s e) a start hs → bitmap_ok 1 a sb → 0 ≤ b < sb_size sb → used a sb b = true →
  wp (bfree ROOTDEV b) (World s e) (fun _ w' => lstep [] (World s e) w' ∧ ∃ a' hs', at_tx i n k w' a' start hs' ∧
    ∀ x, 0 ≤ x < sb_size sb → used a' sb x = if decide (x = b) then false else used a sb x).
Proof.
  intros Htx Hbm Hb Hu. destruct (rd_mem _ _ _ _ _ _ _ _ _ Htx (bm_read _ _ _ Hbm b Hb)) as [d Hd].
  eapply wp_mono; [by eapply (wp_bfree i n k s e a start hs sb b d)|]. intros u w' [Hat Hst]. split; [done|].
  eexists _, _. split; [exact Hat|]. intros x Hx. eapply used_put; try done. exact (at_tx_block _ _ _ _ _ _ _ _ _ Htx Hd).
Qed.

End fs.

(** ** A small file system *)

#[local] Existing Instance small_image.

Definition pad (n : nat) (d : list Z) : list Z := d ++ replicate (n - length d) 0.

(** A disk inode with one data block. *)
Definition dinode1 (type size addr : Z) : list Z := pad 64 [type; 0; 0; 0; 0; 0; 1; 0; size; 0; 0; 0; addr].
(** An entry of a directory with a name of one letter. *)
Definition dirent1 (inum c : Z) : list Z := pad 16 [inum; 0; c].

(** Inode 1 is the root directory, inode 2 a file called "f". *)
Definition inode_block : list Z := pad 1024 (replicate 64 0 ++ dinode1 1 32 40 ++ dinode1 2 5 41).
Definition root_data : list Z := dirent1 1 46 ++ dirent1 2 102.
Definition hello : list Z := [104; 101; 108; 108; 111].
(** Blocks 0 to 41 are in use. *)
Definition bitmap_block : list Z := pad 1024 [255; 255; 255; 255; 255; 3].

Definition tree_disk : gmap Z (list Z) :=
  <[32 := inode_block]> (<[34 := bitmap_block]> (<[40 := pad 1024 root_data]> (<[41 := pad 1024 hello]>
    (<[42 := new_block]> small_disk)))).

Definition tree_store : bstore := Bstore tree_disk tree_disk ∅ ∅.

(** The inode table, empty or with a locked inode in its first entry. *)
Definition unused_inode : inode := Inode 0 0 0 (Sleeplock 0 "inode" 0) 0 0 0 0 0 0 [].
Definition root_inode : inode := load_dinode inode_block (Inode ROOTDEV 1 1 (Sleeplock 1 "inode" 1) 1 0 0 0 0 0 []).
Definition file_inode : inode := load_dinode inode_block (Inode ROOTDEV 2 1 (Sleeplock 1 "inode" 1) 1 0 0 0 0 0 []).
Definition inodes (first : inode) : list inode := first :: replicate 49 unused_inode.

(** [out] system calls are inside a transaction. *)
Definition tree_fs (out : Z) (first : inode) : fsstate :=
  FsState (bufs (unused_buf 0)) (Log 2 30 out 0 ROOTDEV (Logheader 0 (replicate 30 0)))
    (Superblock FSMAGIC 60 20 10 30 2 32 34) (inodes first) [] ∅ (Disk tree_disk []) idle_vdisk idle_console.

Definition tree_world (out : Z) (first : inode) (k : nat) : W := World (user_ks (tree_fs out first)) (replicate k serve).

Lemma tree_disk_ok : map_Forall (fun bn d => block_ok d ∧ 0 ≤ bn < 2 ^ 31) tree_disk.
Proof.
  assert (∀ d, bool_decide (length d = 1024%nat) && forallb (fun x => (0 <=? x) && (x <? 256)) d = true → block_ok d) as Hok.
  { intros d [Hl Hb]%andb_true_iff. apply bool_decide_eq_true in Hl. split; [done|]. rewrite forallb_forall in Hb.
    apply Forall_forall. intros x Hx%list_elem_of_In%Hb. lia. }
  unfold tree_disk. repeat (apply map_Forall_insert_2; [split; [apply Hok; by vm_compute|lia]|]). apply small_disk_ok.
Qed.

Lemma tree_at out first k : at_fs 0 k (tree_world out first k) tree_store.
Proof.
  split; [apply user_ks_quiet| |apply idle_vdisk_idle|apply served_replicate].
  destruct (empty_cache 1 0 [] tree_disk tree_disk_ok) as [H1 H2 H3 H4 H5 H6 H7 H8 H9 H10 H11]. by split.
Qed.

Lemma tree_readable k bn : (k ≤ 30)%nat → bool_decide (bn ∈ [32; 34; 40; 41; 42]) = true → readable k tree_store bn.
Proof.
  intros Hk Hbn%bool_decide_eq_true. assert (0 ≤ bn < 2 ^ 31 ∧ bool_decide (is_Some (tree_disk !! bn)) = true) as [H1 H2%bool_decide_eq_true].
  { repeat (apply elem_of_cons in Hbn as [->|Hbn]; [by vm_compute|]). by apply not_elem_of_nil in Hbn. }
  split; [done|done|apply not_elem_of_empty|right; unfold tree_store; cbn [bs_refs]; rewrite map_size_empty; change NBUF with 30%nat; lia|unfold refs, tree_store; cbn [bs_refs]; rewrite lookup_empty; cbn; lia].
Qed.

Lemma inodes_lookup first j ip : inodes first !! j = Some ip → (j = 0%nat ∧ ip = first) ∨ (j ≠ 0%nat ∧ ip = unused_inode).
Proof.
  intros H. destruct j as [|j]; [left; by injection H|right]. split; [done|].
  change (replicate 49 unused_inode !! j = Some ip) in H. by apply lookup_replicate_1 in H as [-> _].
Qed.

Lemma tree_empty : itable_rep tree_store (Superblock FSMAGIC 60 20 10 30 2 32 34) (inodes unused_inode) ∅ None 1.
Proof.
  assert (∀ j ip, inodes unused_inode !! j = Some ip → ip = unused_inode) as H.
  { intros j ip [[_ ->]|[_ ->]]%inodes_lookup; done. }
  split; try done; [intros j ip ->%H; done..|intros j j' ip ip' ->%H; done|intros j ip d ->%H; done|intros j ip ->%H; done].
Qed.

Lemma tree_held first : first = root_inode ∨ first = file_inode →
  itable_rep tree_store (Superblock FSMAGIC 60 20 10 30 2 32 34) (inodes first) {[i_inum first := 1]} (Some 0%nat) 1.
Proof.
  intros Hf. assert (i_ref first = 1 ∧ i_dev first = ROOTDEV ∧ sl_locked (i_lock first) = 1 ∧ sl_pid (i_lock first) = 1 ∧
    IBLOCK (i_inum first) (Superblock FSMAGIC 60 20 10 30 2 32 34) = 32 ∧ load_dinode inode_block first = first)
    as (Href & Hdev & Hlk & Hpid & Hb & Hload) by (destruct Hf as [-> | ->]; by vm_compute).
  split; [done|..].
  - intros j ip [[_ ->]|[_ ->]]%inodes_lookup; [lia|done].
  - intros j ip [[_ ->]|[_ ->]]%inodes_lookup Hp; [|done]. split; [done|]. by rewrite lookup_singleton_eq, Href.
  - intros inum n [<- <-]%lookup_singleton_Some. exists 0%nat, first. split; [done|]. split; [lia|done].
  - intros j j' ip ip' [[-> ->]|[_ ->]]%inodes_lookup [[-> ->]|[_ ->]]%inodes_lookup; done.
  - intros j ip d [[_ ->]|[_ ->]]%inodes_lookup Hp _; [|done]. rewrite Hb. intros [= <-]. exact Hload.
  - intros j ip [[-> ->]|[Hne ->]]%inodes_lookup; [done|]. rewrite decide_False by congruence. done.
  - intros inum n [_ <-]%lookup_singleton_Some. lia.
Qed.

Lemma tree_file ip data addr d : i_dev ip = ROOTDEV → i_size ip = Z.of_nat (length data) → (length data ≤ 100)%nat →
  i_addrs ip !! 0%nat = Some addr → addr = 40 ∨ addr = 41 → tree_disk !! addr = Some d → take (length data) d = data →
  file_is tree_store ip data.
Proof.
  intros Hdev Hsz Hl Ha Hin Hd Htk. split; [done|done|change (MAXFILE * BSIZE) with 274432; lia|].
  intros k H0 Hk. unfold BSIZE in Hk. assert (k = 0) as -> by lia. exists addr, d. split.
  { split; [lia|]. left. split; [unfold NDIRECT; lia|done]. }
  split; [apply tree_readable; [lia|]; destruct Hin as [-> | ->]; by vm_compute|]. split; [done|]. intros j Hj Hlt.
  replace (0 * BSIZE + j) with j by lia. rewrite <- Htk at 1. apply lookup_take_lt. lia.
Qed.

Lemma root_is ip : body ip = body root_inode → i_dev ip = ROOTDEV → dir_is tree_store ip root_data.
Proof.
  intros E Hdev. vm_compute (body root_inode) in E. unfold body in E. injection E as E1 E2 E3 E4 E5 E6 E7.
  split; [|done|done|by repeat constructor]. eapply (tree_file ip root_data 40); [done|done|cbn; lia|by rewrite E7|by left|reflexivity|].
  by vm_compute.
Qed.

Lemma hello_is : file_is tree_store file_inode hello.
Proof. eapply (tree_file file_inode hello 41); [done|done|cbn; lia|done|by right|reflexivity|]. by vm_compute. Qed.

Lemma skipelem_correct_witness : path_elems [47; 97; 47; 47; 98] = [97] :: path_elems [98].
Proof.
  assert (path_ok [47; 97; 47; 47; 98]) as Hp by (repeat constructor; lia).
  assert (bytes (replicate 14 0)) as Hb by (apply Forall_replicate; lia).
  exact (proj1 (skipelem_correct [47; 97; 47; 47; 98] (replicate 14 0) Hp eq_refl Hb)).
Defined.

Lemma readi_correct_witness :
  wp (readi 0 (T_addr true 16) 1 10) (tree_world 0 file_inode 2) (fun r w' => r.1 = 4 ∧
    uwrite user_mem user_tbl user_mem 16 [101; 108; 108; 111] = (true, k_mem (ks_k (w_k w')))).
Proof.
  eapply wp_mono.
  - eapply (readi_correct 0 (page_no 0) user_tbl 0 file_inode tree_store hello 16 1 10 0 1 _ _ hello_is);
      [by repeat constructor|cbn; lia|lia|lia|apply tree_at|reflexivity|by vm_compute|reflexivity|apply user_pt_rep|lia|cbn; lia|].
    cbn. intros va Hva. rewrite user_uaddr by lia. split; [by vm_compute|apply page_3_target].
  - intros r w' (H1 & H2 & _). split; [exact H1|exact H2].
Defined.

Lemma dirlookup_correct_witness :
  wp (dirlookup 0 (pad 14 [102])) (tree_world 0 root_inode 4) (fun r w' => ∃ j', r = Some (j', 16) ∧ holds_inode w' j' 2).
Proof.
  eapply wp_mono.
  - eapply (dirlookup_correct 0 0 tree_store {[1 := 1]} 0 root_inode root_data (pad 14 [102]));
      [by apply root_is|by repeat constructor|done|done|split; [apply tree_at|apply tree_held; by left]|reflexivity|].
    intros k. split; [right; rewrite map_size_singleton; change NINODE with 50%nat; lia|].
    destruct ({[1 := 1]} !! de_inum (dirent_at root_data k)) as [x|] eqn:E; cbn; [|lia].
    apply lookup_singleton_Some in E as [_ <-]. lia.
  - intros r w' (_ & [(_ & H & _)|(k & j' & -> & Hk & Hh & _ & Hj & _)]).
    + exfalso. apply (H 1%nat); [cbn; lia|split; by vm_compute].
    + destruct k as [|[|k]]; [destruct Hh as [_ Hh]; by vm_compute in Hh|by exists j'|cbn in Hk; lia].
Defined.

Lemma tree_walk : walk tree_store (Superblock FSMAGIC 60 20 10 30 2 32 34) ROOTINO [[102]] (Some 2) 5.
Proof.
  eapply (walk_next _ _ ROOTINO inode_block root_data [102] [] 2 16 _ 0).
  - split; [apply tree_readable; [lia|by vm_compute]|by vm_compute..].
  - by apply root_is.
  - by vm_compute.
  - apply walk_done.
Qed.

Lemma namei_refines_witness :
  wp (namei [47; 102]) (tree_world 0 unused_inode 5) (fun r w' => ∃ j, r = Some j ∧ holds_inode w' j 2).
Proof.
  eapply wp_mono.
  - eapply (namei_refines 0 0 tree_store ∅ [47; 102] (Some 2) 5);
      [split; [by intros inum n H|rewrite map_size_empty; change NINODE with 50%nat; lia|intros inum; rewrite lookup_empty; cbn; lia]
      |repeat constructor; lia|done|exact tree_walk|split; [apply tree_at|exact tree_empty]].
  - intros r w' (_ & j & -> & _ & Hj). by exists j.
Defined.

Lemma tree_tx n : at_tx 0 n 3 (tree_world 1 unused_inode n) tree_store 2 [].
Proof.
  split; [apply tree_at|by split|done|cbn; unfold LOGSIZE, MAXOPBLOCKS; lia|cbn; lia|by intros h Hh%not_elem_of_nil|].
  intros bn. rewrite decide_False by apply not_elem_of_nil. unfold refs, tree_store. cbn [bs_refs]. rewrite lookup_empty. cbn. lia.
Qed.

Lemma tree_bblock b : 0 ≤ b < 60 → BBLOCK b (Superblock FSMAGIC 60 20 10 30 2 32 34) = 34.
Proof. intros Hb. unfold BBLOCK, BPB, BSIZE. cbn [sb_bmapstart]. rewrite u32_small by zlia. zlia. Qed.

Lemma tree_bitmap k : (k ≤ 30)%nat → bitmap_ok k tree_store (Superblock FSMAGIC 60 20 10 30 2 32 34).
Proof.
  intros Hk. split; [cbn; lia|cbn; lia|]. cbn [sb_size]. intros b Hb. rewrite tree_bblock by done.
  apply tree_readable; [done|by vm_compute].
Qed.

Lemma tree_first_free b : first_free tree_store (Superblock FSMAGIC 60 20 10 30 2 32 34) b ↔ b = 42.
Proof.
  assert (forallb (used tree_store (Superblock FSMAGIC 60 20 10 30 2 32 34)) (seqZ 0 42) = true) as Hall by (by vm_compute).
  rewrite forallb_forall in Hall.
  assert (∀ x, 0 ≤ x < 42 → used tree_store (Superblock FSMAGIC 60 20 10 30 2 32 34) x = true) as Hu.
  { intros x Hx. apply Hall, list_elem_of_In, elem_of_seqZ. lia. }
  split; [intros (H1 & H2 & H3)|intros ->; split; [cbn; lia|split; [by vm_compute|done]]].
  destruct (Z.lt_trichotomy b 42) as [Hlt|[->|Hgt]]; [by rewrite Hu in H2 by (cbn in H1; lia)|done|].
  specialize (H3 42 ltac:(lia)). by vm_compute in H3.
Qed.

Lemma balloc_correct_witness :
  wp (balloc ROOTDEV) (tree_world 1 unused_inode 2) (fun r w' => r = 42 ∧ ∃ a' hs', at_tx 0 0 1 w' a' 2 hs' ∧
    bs_mem a' !! 42 = Some zeros).
Proof.
  eapply wp_mono.
  - eapply (balloc_correct 0 0 1 tree_store 2 []); [apply tree_bitmap; lia| |apply (tree_tx 2)].
    intros b ->%tree_first_free. split; [apply tree_readable; [lia|by vm_compute]|]. intros x Hx.
    change (42 ≠ BBLOCK x (Superblock FSMAGIC 60 20 10 30 2 32 34)). by rewrite tree_bblock by exact Hx.
  - intros r w' (_ & [(_ & H & _)|(->%tree_first_free & a' & hs' & Hat & Hz & _)]).
    + exfalso. specialize (H 42 ltac:(cbn; lia)). by vm_compute in H.
    + split; [done|]. by exists a', hs'.
Defined.

Lemma bfree_correct_witness :
  wp (bfree ROOTDEV 41) (tree_world 1 unused_inode 1) (fun _ w' => ∃ a' hs', at_tx 0 0 2 w' a' 2 hs' ∧
    used a' (Superblock FSMAGIC 60 20 10 30 2 32 34) 41 = false).
Proof.
  eapply wp_mono.
  - eapply (bfree_correct 0 0 2 tree_store 2 []); [apply (tree_tx 1)|apply tree_bitmap; lia|cbn; lia|by vm_compute].
  - intros u w' (_ & a' & hs' & Hat & Hu). exists a', hs'. split; [done|]. rewrite Hu by (cbn; lia). done.
Defined.
