(* ===== verification/LogRun.v ===== *)
(** * Three operations at once (kernel/log.c)

    A run of the log in which three processes are inside a file-system operation
    at the same time, each within the [MAXOPBLOCKS] blocks that [begin_op]
    reserves for it. *)

From Stdlib Require Import ZArith Lia.
From stdpp Require Import base gmap strings numbers list.
From S2P Require Import Prelude Spinlock Mem Kstring Kalloc Vm Proc ProcFacts ProcOps Signals Sched FsState Sleeplock FsFacts Sample Virtio Bio BioFacts BioOps Log LogFacts LogCommit LogOps VirtioFacts Storage FsAlloc.
Local Open Scope xv6_scope.

(** Process [j] is ready to run, or running. *)
Definition can_run (j : nat) (s : KS) : Prop :=
  ∃ p, ks_proc s !! j = Some p ∧ (p_state p = RUNNABLE ∨ p_state p = RUNNING) ∧ p_chan p = C_null.

Lemma can_run_frame j s s' : frame s s' → can_run j s → can_run j s'.
Proof.
  intros Hf (p & Hp & Hst & Hc). destruct (woken_lookup _ _ _ _ (fr_procs _ _ Hf) Hp) as (p' & Hp' & [->|[H _]]); [by exists p|].
  destruct Hst; congruence.
Qed.

(** The hart goes over to process [j]: the running process has yielded and the
    scheduler has chosen [j]. *)
Definition switched (j : nat) (s : KS) : KS :=
  set_kmach (with_proc (Some j) (ks_mach s))
    (upd_procs (fun ps => alter chosen j (match cur (ks_mach s) with Some i => alter yielded i ps | None => ps end)) s).
Definition switch_to (j : nat) : M W unit := modify (fun w => World (switched j (w_k w)) (w_env w)).

Lemma depth_with_proc o m : mach_ok m → depth (with_proc o m) = depth m.
Proof.
  intros (_ & c & Hc & _). unfold depth. change (hid (with_proc o m)) with (hid m). by rewrite (with_proc_cpu o m c Hc), Hc.
Qed.

Lemma switched_can_run i j k s : cur (ks_mach s) = Some i → can_run k s → can_run k (switched j s).
Proof.
  intros Hc (p & Hp & Hst & Hch). unfold can_run, switched. rewrite Hc. cbn.
  destruct (decide (k = j)) as [->|Hj]; [rewrite list_lookup_alter_eq|rewrite list_lookup_alter_ne by done];
    (destruct (decide (k = i)) as [->|Hi] || destruct (decide (j = i)) as [->|Hi]);
    rewrite ?list_lookup_alter_eq, ?list_lookup_alter_ne, Hp by done; eexists; split; try reflexivity; cbn; auto.
Qed.

Lemma switched_quiet i j s : quiet i s → can_run j s → quiet j (switched j s).
Proof.
  intros [Hru Hfr Hl _] Hr. pose proof Hru as [Hok _ Hc Hd].
  destruct (switched_can_run i j j s Hc Hr) as (p & Hp & _ & Hch).
  assert (j < NPROC)%nat as Hj by (destruct Hr as (q & Hq & _); rewrite <- Hl; by eapply lookup_lt_Some).
  split; cbn.
  - split; [by apply mach_ok_with_proc|apply Hfr; by apply bool_decide_spec|by apply cur_with_proc|by rewrite depth_with_proc].
  - exact Hfr.
  - rewrite length_alter. case_match; rewrite ?length_alter; done.
  - exists p. split; [exact Hp|]. split; [|done].
    cbn in Hp. rewrite list_lookup_alter_eq in Hp. destruct (_ !! j); [|done]. by injection Hp as <-.
Qed.

(** Nothing is locked, so it does not matter who asks. *)
Lemma cache_rep_pid pid pid' fs a : bs_locked a = ∅ → cache_rep pid fs a → cache_rep pid' fs a.
Proof.
  intros Hl [H1 H2 H3 H4 H5 H6 H7 H8 H9 H10 H11]. split; try done. intros b x Hb Hx.
  destruct (H3 b x Hb Hx) as [[Hd [C1 C2 C3 C4]]|H]; [left|by right]. split; [done|]. split; try done. rewrite Hl. set_solver.
Qed.

Section run.
Context `{KI : KernelImage} `{DO : DiskOps} `{DL : !DiskLaws}.
Implicit Types (w : W) (a : bstore).

Lemma at_fs_switched i j n s e a : at_fs i n (World s e) a → bs_locked a = ∅ → can_run j s → at_fs j n (World (switched j s) e) a.
Proof.
  intros [H1 H2 H3 H4] Hl Hr. split; cbn [w_k w_env] in *; [by eapply switched_quiet| |done|done]. by eapply cache_rep_pid.
Qed.

(** An operation puts new contents into a block and logs it. *)
Definition log_block (bn : Z) (d : list Z) : M W unit :=
  b ← bread ROOTDEV (u32 bn); onw (updb b (fun x => x <| b_data := d |>));; onw (log_write b);; onw (brelse b);; ret tt.

(** Writes of several processes, in the order of [steps]. *)
Definition op_writes (d : list Z) (steps : list (nat * Z)) : M W unit :=
  for_each steps (fun x => switch_to (fst x);; log_block (snd x) d).

(** The processes [js] begin an operation each. *)
Definition begin_all (js : list nat) : M W unit := for_each js (fun j => switch_to j;; begin_op).

(** What the three operations have done so far: they have changed [hs]; the
    blocks [todo] can still be read. *)
Record running (js : list nat) (n : nat) (s : KS) (e : list (KS → KS)) (a : bstore) (start : Z) (hs todo : list Z) (out : Z) : Prop := {
  rn_at : ∃ i, at_fs i (length todo + n) (World s e) a;
  rn_log : log_is start hs (fs_log (ks_fs s));
  rn_size : log_size (fs_log (ks_fs s)) = LOGSIZE;
  rn_idle : log_committing (fs_log (ks_fs s)) = 0;
  rn_out : log_outstanding (fs_log (ks_fs s)) = out;
  rn_free : bs_locked a = ∅;
  rn_ready : ∀ j, j ∈ js → can_run j s;
  rn_new : NoDup (hs ++ todo);
  rn_hs : Forall (fun h => 0 ≤ h < 2 ^ 31) hs;
  rn_todo : ∀ bn, bn ∈ todo → readable (length todo) a bn ∧ bs_refs a !! bn = None
}.

Lemma running_switch js n s e a start hs todo out j :
  j ∈ js → running js n s e a start hs todo out →
  running js n (switched j s) e a start hs todo out ∧ at_fs j (length todo + n) (World (switched j s) e) a.
Proof.
  intros Hj [[i H1] H2 H3 H4 H5 H6 H7 H8 H9 H10].
  assert (at_fs j (length todo + n) (World (switched j s) e) a) as Hat by (eapply at_fs_switched; eauto).
  split; [|done]. split; try done; [by exists j|]. intros k Hk. eapply switched_can_run; [|by apply H7].
  apply (af_quiet _ _ _ _ H1).
Qed.

Lemma wp_begin_all js js' n s e a start hs todo out Q :
  (∀ j, j ∈ js' → j ∈ js) → running js n s e a start hs todo out →
  Z.of_nat (length hs) + (out + Z.of_nat (length js')) * MAXOPBLOCKS ≤ LOGSIZE →
  (∀ s', running js n s' e a start hs todo (out + Z.of_nat (length js')) → Q tt (World s' e)) →
  wp (begin_all js') (World s e) Q.
Proof.
  revert s out. induction js' as [|j js' IH]; intros s out Hin Hr Hroom HQ; cbn [begin_all for_each length] in *.
  { apply HQ. by rewrite Z.add_0_r. }
  fold (begin_all js'). unfold switch_to. wp_simpl. cbn [w_k w_env].
  destruct (running_switch js n s e a start hs todo out j ltac:(apply Hin; by left) Hr) as [[_ H2 H3 H4 H5 H6 H7 H8 H9 H10] Hat].
  eapply (wp_begin_op j _ (switched j s) e a); [exact Hat|done|rewrite (li_n _ _ _ H2), H5; unfold MAXOPBLOCKS in *; lia|].
  intros s' Hat' Hst _ Hlog. apply (IH s' (out + 1)); [intros k Hk; apply Hin; by right| |lia|].
  - split; try done; rewrite ?Hlog; try done; [by exists j|by destruct H2|by rewrite <- H5|].
    intros k Hk. eapply can_run_frame; [apply Hst|by apply H7].
  - intros s2 Hr2. apply HQ. by replace (out + Z.of_nat (S (length js'))) with (out + 1 + Z.of_nat (length js')) by lia.
Qed.

(** One more block is logged. *)
Lemma wp_op_write js n s e a start hs todo out j bn d Q :
  j ∈ js → block_ok d → 1 ≤ out → running js n s e a start hs (bn :: todo) out → Z.of_nat (length hs) < LOGSIZE - 1 →
  (∀ s' e' a', running js n s' e' a' start (hs ++ [bn]) todo out → Q tt (World s' e')) →
  wp (switch_to j;; log_block bn d) (World s e) Q.
Proof.
  intros Hj Hd Hout Hr Hlen HQ. unfold switch_to, log_block. wp_simpl. cbn [w_k w_env].
  destruct (running_switch _ _ _ _ _ _ _ _ _ j Hj Hr) as [[_ H2 H3 H4 H5 H6 H7 H8 H9 H10] Hat]. clear Hr.
  set (s1 := switched j s) in *. clearbody s1.
  destruct (H10 bn ltac:(by left)) as [Hrd Hno]. pose proof (rep_counts _ _ _ (af_rep _ _ _ _ Hat)) as Hct.
  assert (bn ∉ hs) as Hnew by (apply NoDup_app in H8 as (_ & H8 & _); intros H; by apply (H8 bn H); left).
  assert (refs a bn = 0) as R0 by (unfold refs; by rewrite Hno).
  pose proof (rd_num _ _ _ Hrd) as Hbn.
  apply (wp_read j _ s1 e a bn _ Hat); [eapply readable_weaken; [|exact Hrd]; cbn; lia|].
  intros b [s2 e2] Hat2 Hst2 _ Hld2. cbn [w_k] in *.
  destruct (loaded_data _ _ _ _ _ (af_rep _ _ _ _ Hat2) Hld2) as (x & _ & _ & _ & _ & _ & _ & Hmx).
  pose proof (kp_log _ _ (ft_kept _ _ _ Hst2)) as Hlog2. cbn [w_k] in Hlog2.
  eapply (wp_log_update j _ s2 e2 a start hs bn b (fun _ => d) (b_data x)); rewrite ?Hlog2;
    [exact Hat2|done|done|apply Hrd|done|exact Hmx|done|lia|done|done|done|lia|lia|lia|].
  intros s3 Hat3 Hst3 Hlog3. wp_simpl. unfold listed in Hlog3. rewrite decide_False in Hlog3 by done.
  apply (HQ s3 e2 (tx_put hs bn d a)). split.
  - by exists j.
  - rewrite Hlog3. pose proof (listed_is start hs bn _ H2 ltac:(lia)) as H. unfold listed, listing in H. by rewrite !decide_False in H by done.
  - by rewrite Hlog3.
  - by rewrite Hlog3.
  - by rewrite Hlog3.
  - unfold tx_put. by rewrite decide_False.
  - intros k Hk. eapply can_run_frame; [apply Hst3|]. eapply can_run_frame; [apply Hst2|by apply H7].
  - by rewrite <- app_assoc.
  - apply Forall_app. split; [done|]. by constructor.
  - intros bn' Hbn'. destruct (H10 bn' ltac:(by right)) as [Hrd' Hno'].
    assert (bn' ≠ bn) as Hne. { intros ->. apply NoDup_app in H8 as (_ & _ & H8). by apply NoDup_cons in H8 as [H8 _]. }
    split; [by apply readable_tx_put|]. unfold tx_put, pinned. rewrite decide_False by done.
    destruct (set_refs_agree bn (refs a bn + 1) (put_mem bn d a) bn' Hne) as (A1 & _). by rewrite A1.
Qed.

Lemma wp_op_writes js n s e a start hs steps rest out d Q :
  (∀ j, j ∈ steps.*1 → j ∈ js) → block_ok d → 1 ≤ out → running js n s e a start hs (steps.*2 ++ rest) out →
  Z.of_nat (length hs + length steps) < LOGSIZE →
  (∀ s' e' a', running js n s' e' a' start (hs ++ steps.*2) rest out → Q tt (World s' e')) →
  wp (op_writes d steps) (World s e) Q.
Proof.
  revert s e a hs. induction steps as [|[j bn] steps IH]; intros s e a hs Hin Hd Hout Hr Hlen HQ; cbn [op_writes for_each fmap list_fmap fst snd app length] in *.
  { eapply HQ. by rewrite app_nil_r. }
  fold (op_writes d steps). rewrite wp_bind. eapply (wp_op_write js n s e a start hs (steps.*2 ++ rest) out j bn d);
    [apply Hin; by left|done|done|exact Hr|lia|].
  intros s' e' a' Hr'. apply (IH s' e' a' (hs ++ [bn])); [intros k Hk; apply Hin; by right|done|done|done|rewrite length_app; cbn; lia|].
  rewrite <- app_assoc. exact HQ.
Qed.

(** The log is full. *)
Lemma log_write_full i n s e a start hs b :
  at_fs i n (World s e) a → log_is start hs (fs_log (ks_fs s)) → Z.of_nat (length hs) = LOGSIZE - 1 →
  log_size (fs_log (ks_fs s)) = LOGSIZE → log_write b s = Panic "too big a transaction".
Proof.
  intros Hat Hlg Hn Hsz. pose proof (af_quiet _ _ _ _ Hat) as Hq. cbn [w_k] in Hq. unfold log_write.
  erewrite (bind_ret _ _ _ tt); [|apply wp_eq, wp_acq; [apply Hq|by apply Hq|done]].
  erewrite bind_ret by reflexivity. change (fs_log (ks_fs (set_kmach _ s))) with (fs_log (ks_fs s)).
  rewrite (li_n _ _ _ Hlg), Hn, Hsz. done.
Qed.

(** A panic after a prefix that is known to complete. *)
Lemma wp_panic {A B} (m : M W A) (k : A → M W B) w msg :
  wp m w (fun x w' => k x w' = Panic msg) → (x ← m; k x) w = Panic msg.
Proof. intros (x & w' & Hm & Hk)%wp_inv. by rewrite (bind_ret _ _ _ x w'). Qed.

Lemma op_write_full js n s e a start hs todo out j bn d :
  j ∈ js → block_ok d → running js n s e a start hs (bn :: todo) out → Z.of_nat (length hs) = LOGSIZE - 1 →
  (switch_to j;; log_block bn d) (World s e) = Panic "too big a transaction".
Proof.
  intros Hj Hd Hr Hlen. destruct (running_switch _ _ _ _ _ _ _ _ _ j Hj Hr) as [[_ H2 H3 H4 H5 H6 H7 H8 H9 H10] Hat]. clear Hr.
  destruct (H10 bn ltac:(by left)) as [Hrd Hno]. apply wp_panic. unfold switch_to. wp_simpl. cbn [w_k w_env].
  apply wp_panic. apply (wp_read j _ _ e a bn _ Hat); [eapply readable_weaken; [|exact Hrd]; cbn; lia|].
  intros b [s2 e2] Hat2 Hst2 _ Hld2. cbn [w_k] in *. pose proof (kp_log _ _ (ft_kept _ _ _ Hst2)) as Hlog2. cbn [w_k] in Hlog2.
  destruct (loaded_data _ _ _ _ _ (af_rep _ _ _ _ Hat2) Hld2) as (x & _ & _ & _ & _ & _ & _ & Hmx).
  assert (is_Some (bs_refs (got bn a) !! bn)) as Hrs by (apply (cr_locked _ _ _ (af_rep _ _ _ _ Hat2)), got_locked).
  apply wp_panic. wp_simpl. eapply (wp_set_data j _ s2 e2 _ b bn (fun _ => d)); [exact Hat2|done|done|exact Hmx|done|].
  intros s3 Hat3 Hst3 _. pose proof (kp_log _ _ (ft_kept _ _ _ Hst3)) as Hlog3. cbn [w_k] in Hlog3. rewrite Hlog2 in Hlog3.
  assert (log_write b s3 = Panic "too big a transaction") as Hw by (eapply log_write_full; [exact Hat3|by rewrite Hlog3|done|by rewrite Hlog3]).
  unfold bind, onw, zoom. cbn [w_k]. by rewrite Hw.
Qed.

Lemma op_writes_snoc d steps x w : op_writes d (steps ++ [x]) w = (op_writes d steps;; switch_to (fst x);; log_block (snd x) d) w.
Proof.
  revert w. induction steps as [|y steps IH]; intros w; cbn [op_writes app for_each].
  { unfold bind, ret. repeat (case_match; try done). by destruct a. }
  etransitivity; [|symmetry; apply bind_assoc]. apply bind_cong. intros _ w'. apply IH.
Qed.

(** C37. The reservations of [begin_op] do not fit the log.  It lets three
    processes be inside an operation of up to [MAXOPBLOCKS] blocks each, as
    [LOGSIZE] is three times that; but the log on the disk has [LOGSIZE] blocks
    with its header.  Whenever three processes begin an operation on an idle
    file system and log thirty different blocks, in any interleaving and none of
    them more than [MAXOPBLOCKS], the first twenty-nine are logged and the
    thirtieth makes the kernel panic. *)
Theorem log_reservation_overflow i n w a start js steps last d (l := fs_log (ks_fs (w_k w))) :
  at_fs i (30 + n) w a → log_is start [] l → log_size l = LOGSIZE → log_committing l = 0 → log_outstanding l = 0 →
  bs_refs a = ∅ → bs_locked a = ∅ →
  length js = 3%nat → (∀ j, j ∈ js → can_run j (w_k w)) →
  length steps = 29%nat → (∀ j, j ∈ (steps ++ [last]).*1 → j ∈ js) →
  (∀ j, Z.of_nat (length (filter (fun x => fst x = j) (steps ++ [last]))) ≤ MAXOPBLOCKS) →
  NoDup (steps ++ [last]).*2 → (∀ bn, bn ∈ (steps ++ [last]).*2 → is_Some (bs_disk a !! bn)) → block_ok d →
  wp (begin_all js;; op_writes d steps) w (fun _ w' =>
    log_outstanding (fs_log (ks_fs (w_k w'))) = 3 ∧ log_is start (steps.*2) (fs_log (ks_fs (w_k w')))) ∧
  (begin_all js;; op_writes d (steps ++ [last])) w = Panic "too big a transaction".
Proof.
  destruct w as [s e]. cbn [w_k] in *. intros Hat Hlg Hsz Hc Ho Hrf Hlk Hjs Hrdy Hst Hin _ Hnd Hdk Hd.
  assert (running js n s e a start [] (steps ++ [last]).*2 0) as Hr0.
  { split; try done; [exists i; by rewrite length_fmap, length_app, Hst|].
    intros bn Hbn. split; [|by rewrite Hrf]. split; [by apply (cr_num _ _ _ (af_rep _ _ _ _ Hat)), Hdk|by apply Hdk|by rewrite Hlk| |].
    - right. rewrite Hrf, map_size_empty, length_fmap, length_app, Hst. by apply Nat.leb_le.
    - unfold refs. rewrite Hrf. done. }
  assert (∀ (Q : unit → W → Prop), (∀ s' e' a', running js n s' e' a' start steps.*2 [snd last] 3 → Q tt (World s' e')) →
    wp (begin_all js;; op_writes d steps) (World s e) Q) as Hrun.
  { intros Q HQ. rewrite wp_bind. eapply (wp_begin_all js js); [done|exact Hr0|rewrite Hjs; unfold LOGSIZE, MAXOPBLOCKS; cbn; lia|].
    intros s1 Hr1. rewrite Hjs in Hr1. rewrite fmap_app in Hr1.
    eapply (wp_op_writes js n s1 e a start [] steps [snd last] 3 d); [|done|lia|exact Hr1|rewrite Hst; unfold LOGSIZE, MAXOPBLOCKS; cbn; lia|exact HQ].
    intros j Hj. apply Hin. rewrite fmap_app, elem_of_app. by left. }
  split; [apply Hrun; intros s' e' a' [_ R2 _ _ R5 _ _ _ _ _]; by split|].
  assert (∀ w, (begin_all js;; op_writes d (steps ++ [last])) w =
    ((begin_all js;; op_writes d steps);; switch_to (fst last);; log_block (snd last) d) w) as E.
  { intros w. etransitivity; [|symmetry; apply bind_assoc]. apply bind_cong. intros _ w'. apply op_writes_snoc. }
  rewrite E. apply wp_panic, Hrun. intros s' e' a' Hr.
  eapply op_write_full; [apply Hin; rewrite fmap_app, elem_of_app; right; by left|done|exact Hr|].
  rewrite length_fmap, Hst. done.
Qed.

End run.

(** ** An example *)

#[local] Existing Instance small_image.

(** Three processes can run. *)
Definition run_ks (fs : fsstate) : KS :=
  KState (Kst fs_mach ∅ 0) ([proc0 <| p_state := RUNNING |> <| p_pid := 1 |>; proc0 <| p_state := RUNNABLE |> <| p_pid := 2 |>;
    proc0 <| p_state := RUNNABLE |> <| p_pid := 3 |>] ++ replicate 61 proc0) (Some 0%nat) 4 100 (replicate 64 0) 0 fs.

(** The log is at blocks 2 to 31; there are data blocks from 40 on. *)
Definition run_disk : gmap Z (list Z) := gset_to_gmap zero_block (list_to_set (seqZ 2 30 ++ seqZ 40 30)).

Definition run_steps : list (nat * Z) := (fun bn => (Z.to_nat (bn mod 3), bn)) <$> seqZ 40 29.

Lemma run_quiet fs : quiet 0 (run_ks fs).
Proof.
  split; [split|apply fs_mach_free|done|].
  - split; [cbn; lia|]. eexists. split; [reflexivity|]. cbn. split; [lia|lia].
  - by apply fs_mach_free.
  - done.
  - done.
  - eexists. split; [reflexivity|]. done.
Qed.

Lemma run_disk_lookup bn : run_disk !! bn = if decide (2 ≤ bn < 32 ∨ 40 ≤ bn < 70) then Some zero_block else None.
Proof.
  unfold run_disk. rewrite lookup_gset_to_gmap. case_decide as H;
    [rewrite option_guard_True|rewrite option_guard_False]; try done; rewrite elem_of_list_to_set, elem_of_app, !elem_of_seqZ; lia.
Qed.

Lemma run_disk_ok : map_Forall (fun bn d => block_ok d ∧ 0 ≤ bn < 2 ^ 31) run_disk.
Proof. intros bn d. rewrite run_disk_lookup. case_decide; [|done]. intros [= <-]. split; [apply zero_ok|lia]. Qed.

Lemma run_blocks : (run_steps ++ [(0%nat, 69)]).*2 = seqZ 40 30.
Proof. by vm_compute. Qed.

Lemma log_reservation_overflow_witness :
  (begin_all [0; 1; 2]%nat;; op_writes new_block (run_steps ++ [(0%nat, 69)]))
    (World (run_ks (small_fs (unused_buf 0) 0 (replicate 30 0) run_disk)) (replicate 30 serve)) = Panic "too big a transaction".
Proof.
  eapply (log_reservation_overflow 0 0 _ (Bstore run_disk run_disk ∅ ∅) 2 [0; 1; 2]%nat run_steps (0%nat, 69));
    [|by split|done|done|done|done|done|done| |done| | | | |apply new_ok].
  - split; [apply run_quiet|apply empty_cache, run_disk_ok|apply idle_vdisk_idle|apply served_replicate].
  - intros j Hj. repeat (apply elem_of_cons in Hj as [->|Hj]; [eexists; split; [reflexivity|]; by auto|]). by apply not_elem_of_nil in Hj.
  - intros j. rewrite fmap_app, elem_of_app. intros [(x & -> & Hx)%list_elem_of_fmap|Hj]; [|set_solver].
    apply list_elem_of_fmap in Hx as (bn & -> & _). cbn [fst]. pose proof (Z.mod_pos_bound bn 3 ltac:(lia)).
    assert (bn mod 3 = 0 ∨ bn mod 3 = 1 ∨ bn mod 3 = 2) as [-> | [-> | ->]] by lia; set_solver.
  - intros [|[|[|j]]]; [by vm_compute..|].
    replace (filter _ _) with (@nil (nat * Z)) by (by vm_compute). done.
  - rewrite run_blocks. apply NoDup_seqZ.
  - rewrite run_blocks. intros bn Hbn%elem_of_seqZ. cbn. rewrite run_disk_lookup, decide_True by lia. by eexists.
Defined.
