(* ===== verification/Ulib.v ===== *)
(** * The user library

    [user/ulib.c] and [user/printf.c], over what the system calls show a user
    program: files by name, open descriptors with the input still to come, and
    the bytes written to each descriptor.  A read delivers as many bytes as the
    schedule [o_sched] says, at least one and at most what is asked for and what
    is left, or fails.  A C string is the list of its bytes up to the NUL, and a
    pointer into it the rest from there on; an array is a list that may hold
    NULs ([None] is an access past it). *)

From Stdlib Require Import ZArith Lia.
From stdpp Require Import base gmap strings numbers list.
From S2P Require Import Prelude Numeral.
Local Open Scope xv6_scope.

(** ** The system calls *)

Inductive call := C_kill (pid : Z) | C_link (old new : list Z) | C_mkdir (path : list Z) | C_unlink (path : list Z).

Record os := Os {
  o_files : gmap (list Z) (list Z);
  o_fds : gmap Z (list Z);
  o_sched : list (option nat);
  o_out : list (Z * Z);         (* descriptor and byte, in the order written *)
  o_calls : list call;          (* other calls, in the order made *)
  o_answers : list Z            (* the results of those to come *)
}.
#[global] Instance os_eta : Eta os := fun r =>
  Os (o_files r) (o_fds r) (o_sched r) (o_out r) (o_calls r) (o_answers r).

Definition READ_ERROR : Z := -1.

Definition read (fd : Z) (count : nat) : M os (Z * list Z) :=
  s ← get;
  match o_fds s !! fd, hd (Some 0%nat) (o_sched s) with
  | Some rest, Some k =>
    let n := (S k `min` length rest `min` count)%nat in
    modify (fun s => s <| o_sched ::= tail |> <| o_fds ::= <[fd := drop n rest]> |>);;
    ret (Z.of_nat n, take n rest)
  | _, _ => modify (fun s => s <| o_sched ::= tail |>);; ret (READ_ERROR, [])
  end.

Definition write (fd : Z) (bs : list Z) : M os Z :=
  modify (fun s => s <| o_out ::= fun o => o ++ ((fun b => (fd, b)) <$> bs) |>);;
  ret (Z.of_nat (length bs)).

(** The lowest descriptor not in use. *)
Fixpoint lowest (n : nat) (fds : gmap Z (list Z)) (fd : Z) : Z :=
  match n with
  | O => fd
  | S n => match fds !! fd with Some _ => lowest n fds (fd + 1) | None => fd end
  end.

Definition open (name : list Z) : M os Z :=
  s ← get;
  match o_files s !! name with
  | None => ret (-1)
  | Some content =>
    let fd := lowest (S (size (o_fds s))) (o_fds s) 0 in
    modify (fun s => s <| o_fds ::= <[fd := content]> |>);;
    ret fd
  end.

(** A call that is answered 0 unless [o_answers] says otherwise. *)
Definition system_call (c : call) : M os Z :=
  s ← get;
  modify (fun s => s <| o_calls ::= fun l => l ++ [c] |> <| o_answers ::= tail |>);;
  ret (hd 0 (o_answers s)).

Definition close (fd : Z) : M os unit := modify (fun s => s <| o_fds ::= delete fd |>).

(** ** Strings *)

Fixpoint strcpy (s t : list Z) : option (list Z) :=
  match s, t with
  | _ :: s, c :: t => if c =? 0 then Some (0 :: s) else cons c <$> strcpy s t
  | _, _ => None
  end.

Fixpoint strcmp (p q : list Z) : option Z :=
  match p, q with
  | a :: p, b :: q => if truthy a && (a =? b) then strcmp p q else Some (u8 a - u8 b)
  | _, _ => None
  end.

Fixpoint strlen (s : list Z) : option Z :=
  match s with
  | [] => None
  | c :: s => if truthy c then Z.succ <$> strlen s else Some 0
  end.

Fixpoint memset (dst : list Z) (c : Z) (n : nat) : option (list Z) :=
  match n, dst with
  | O, _ => Some dst
  | S n, _ :: dst => cons (u8 c) <$> memset dst c n
  | S _, [] => None
  end.

Fixpoint memcmp (s1 s2 : list Z) (n : nat) : option Z :=
  match n with
  | O => Some 0
  | S n =>
    match s1, s2 with
    | a :: s1, b :: s2 => if negb (a =? b) then Some (a - b) else memcmp s1 s2 n
    | _, _ => None
    end
  end.

(** The position of [c] in the array from [i] on, unless a NUL comes first. *)
Fixpoint strchr_at (fuel : nat) (a : list Z) (i : nat) (c : Z) : option (option nat) :=
  match fuel with
  | O => None
  | S fuel =>
    match a !! i with
    | None => None
    | Some x => if negb (truthy x) then Some None else if x =? c then Some (Some i) else strchr_at fuel a (S i) c
    end
  end.

(** ... for the test whether a string has a character. *)
Definition strchr (s : list Z) (c : Z) : bool := existsb (fun x => x =? c) s.

Fixpoint atoi_loop (s : list Z) (n : Z) : Z :=
  match s with
  | c :: s => if (48 <=? c) && (c <=? 57) then atoi_loop s (i32 (n * 10 + c - 48)) else n
  | [] => n
  end.
Definition atoi (s : list Z) : Z := atoi_loop s 0.

(** [memmove] inside one array, byte by byte. *)
Fixpoint move_up (a : list Z) (dst src n : nat) : option (list Z) :=
  match n with
  | O => Some a
  | S n => b ← a !! src; a' ← (if (dst <? length a)%nat then Some (<[dst := b]> a) else None); move_up a' (S dst) (S src) n
  end%stdpp.
Fixpoint move_down (a : list Z) (dst src n : nat) : option (list Z) :=
  match n with
  | O => Some a
  | S n => b ← a !! (src + n)%nat; a' ← (if (dst + n <? length a)%nat then Some (<[(dst + n)%nat := b]> a) else None); move_down a' dst src n
  end%stdpp.
Definition memmove (a : list Z) (dst src n : nat) : option (list Z) :=
  if (dst <? src)%nat then move_up a dst src n else move_down a dst src n.
Definition memcpy (a : list Z) (dst src n : nat) : option (list Z) := memmove a dst src n.

(** ** Input and formatted output *)

(** A store past the array faults. *)
Definition store_at (a : list Z) (i : nat) (b : Z) : M os (list Z) :=
  if (i <? length a)%nat then ret (<[i := b]> a) else fault (Z.of_nat i).

(** [i] bytes are in the buffer; [n] is [max - 1 - i]. *)
Fixpoint gets_loop (n i : nat) (buf : list Z) : M os (list Z * nat) :=
  match n with
  | O => ret (buf, i)
  | S n =>
    '(cc, bs) ← read 0 1;
    if cc <? 1 then ret (buf, i) else
    let c := hd 0 bs in
    buf ← store_at buf i c;
    if (c =? 10) || (c =? 13) then ret (buf, S i) else gets_loop n (S i) buf
  end.

Definition gets (buf : list Z) (max : Z) : M os (list Z) :=
  '(buf, i) ← gets_loop (Z.to_nat (max - 1)) 0 buf;
  store_at buf i 0.

Definition digits : list Z := [48; 49; 50; 51; 52; 53; 54; 55; 56; 57; 65; 66; 67; 68; 69; 70].

Definition putc (fd c : Z) : M os unit := write fd [u8 c];; ret tt.

Fixpoint putc_all (fd : Z) (bs : list Z) : M os unit :=
  match bs with
  | [] => ret tt
  | b :: bs => putc fd b;; putc_all fd bs
  end.

(** The buffer of 16 bytes is filled from the front and printed from the back. *)
Definition printint (fd xx base : Z) (sgn : bool) : M os unit :=
  match int_buf digits xx base sgn with
  | None => fault 0
  | Some buf => if decide (length buf ≤ 16)%nat then putc_all fd (rev buf) else fault 16
  end.

Fixpoint printptr_loop (n : nat) (fd x : Z) : M os unit :=
  match n with
  | O => ret tt
  | S n => putc fd (nth (Z.to_nat (Z.shiftr x 60)) digits 0);; printptr_loop n fd (u64 (Z.shiftl x 4))
  end.
Definition printptr (fd x : Z) : M os unit := putc fd 48;; putc fd 120;; printptr_loop 16 fd x.

(** What is passed for a conversion. *)
Inductive arg := A_int (x : Z) | A_long (x : Z) | A_ptr (x : Z) | A_str (s : option (list Z)) | A_char (c : Z).

Definition null_str : list Z := [40; 110; 117; 108; 108; 41].

(** An argument of the wrong type, or none, is undefined. *)
Definition conversion (fd c : Z) (args : list arg) : M os (list arg) :=
  if c =? 100 then match args with A_int x :: args => printint fd (i32 x) 10 true;; ret args | _ => fault 0 end
  else if c =? 108 then match args with A_long x :: args => printint fd (i32 x) 10 false;; ret args | _ => fault 0 end
  else if c =? 120 then match args with A_int x :: args => printint fd (i32 x) 16 false;; ret args | _ => fault 0 end
  else if c =? 112 then match args with A_ptr x :: args => printptr fd (u64 x);; ret args | _ => fault 0 end
  else if c =? 115 then
    match args with
    | A_str s :: args => putc_all fd (match s with Some s => s | None => null_str end);; ret args
    | _ => fault 0
    end
  else if c =? 99 then match args with A_char c :: args => putc fd c;; ret args | _ => fault 0 end
  else if c =? 37 then putc fd c;; ret args
  else putc fd 37;; putc fd c;; ret args.

Fixpoint vprintf_loop (fmt : list Z) (fd : Z) (percent : bool) (args : list arg) : M os unit :=
  match fmt with
  | [] => ret tt
  | c :: fmt =>
    if negb percent then
      if c =? 37 then vprintf_loop fmt fd true args else putc fd c;; vprintf_loop fmt fd false args
    else args ← conversion fd c args; vprintf_loop fmt fd false args
  end.
Definition vprintf (fd : Z) (fmt : list Z) (args : list arg) : M os unit := vprintf_loop fmt fd false args.
Definition fprintf (fd : Z) (fmt : list Z) (args : list arg) : M os unit := vprintf fd fmt args.
Definition printf (fmt : list Z) (args : list arg) : M os unit := vprintf 1 fmt args.

(** A string constant with a newline at its end. *)
Definition cline (s : string) : list Z := (fun a => Z.of_N (Ascii.N_of_ascii a)) <$> String.list_ascii_of_string s ++ [Ascii.ascii_of_nat 10].

(** ** Arrays *)

Lemma wp_store_at a i b s Q : (i < length a)%nat → Q (<[i := b]> a) s → wp (store_at a i b) s Q.
Proof. intros Hi HQ. unfold store_at. destruct (Nat.ltb_spec i (length a)); [done|lia]. Qed.

Lemma insert_mid {A} (pre : list A) x y rest : <[length pre := y]> (pre ++ x :: rest) = pre ++ y :: rest.
Proof. rewrite insert_app_r_alt by lia. by rewrite Nat.sub_diag. Qed.

(** ** Reading *)

(** Reading without errors. *)
Lemma wp_uread fd n rest s Q : o_fds s !! fd = Some rest → Forall is_Some (o_sched s) →
  (∀ k s', (k ≤ n)%nat → (k ≤ length rest)%nat → (k = 0%nat → n = 0%nat ∨ rest = []) →
     o_fds s' !! fd = Some (drop k rest) → o_files s' = o_files s → o_out s' = o_out s → Forall is_Some (o_sched s') →
     Q (Z.of_nat k, take k rest) s') → wp (read fd n) s Q.
Proof.
  intros Hfd Hs HQ. unfold read. wp_simpl. rewrite Hfd.
  assert (Forall is_Some (tail (o_sched s))) as Ht by (by destruct Hs).
  assert (∃ k, hd (Some 0%nat) (o_sched s) = Some k) as [k ->].
  { destruct Hs as [|x l [k ->] _]; by eexists. }
  wp_simpl. apply HQ; [lia|lia| |cbn; by rewrite lookup_insert_eq|done|done|done].
  intros H0. destruct rest; [by right|left; cbn [length] in H0; lia].
Qed.

(** ** Writing *)

Definition out_to (fd : Z) (bs : list Z) (s : os) : os := s <| o_out := o_out s ++ ((fun b => (fd, b)) <$> bs) |>.

Lemma out_to_app fd a b s : out_to fd b (out_to fd a s) = out_to fd (a ++ b) s.
Proof. unfold out_to, setf. cbn. by rewrite fmap_app, app_assoc. Qed.

Lemma out_to_nil fd s : out_to fd [] s = s.
Proof. unfold out_to, setf. destruct s. cbn. by rewrite app_nil_r. Qed.

Lemma wp_putc fd c s Q : 0 ≤ c < 256 → Q tt (out_to fd [c] s) → wp (putc fd c) s Q.
Proof. intros Hc HQ. unfold putc, write. wp_simpl. by replace (u8 c) with c by zlia. Qed.

Lemma wp_putc_all fd bs s Q : Forall (fun b => 0 ≤ b < 256) bs → Q tt (out_to fd bs s) → wp (putc_all fd bs) s Q.
Proof.
  intros Hb. revert s. induction Hb as [|b bs Hb Hbs IH]; intros s HQ; cbn [putc_all]; wp_simpl; [by rewrite out_to_nil in HQ|].
  apply wp_putc; [done|]. apply IH. by rewrite out_to_app.
Qed.

Lemma user_digits k : (k < 16)%nat → ∃ d, digits !! k = Some d ∧ digit_val d = Z.of_nat k ∧ 48 ≤ d < 103.
Proof. intros Hk. do 16 (destruct k as [|k]; [eexists; split; [reflexivity|]; split; [done|lia]|]). lia. Qed.

Lemma wp_printint fd xx base s Q : base = 10 ∨ base = 16 → - 2 ^ 31 ≤ xx < 2 ^ 31 →
  (∀ txt, int_numeral digits base xx txt → Q tt (out_to fd txt s)) → wp (printint fd xx base true) s Q.
Proof.
  intros Hb Hx HQ. unfold printint. destruct (int_buf_spec digits user_digits xx base Hb Hx) as (buf & -> & Hl & Hv & Hf).
  rewrite decide_True by lia. apply wp_putc_all; [|by apply HQ].
  apply Forall_rev. eapply Forall_impl; [exact Hf|cbn; lia].
Qed.
