(* ===== verification/Grep.v ===== *)
(** * grep

    [user/grep.c].  The matcher is compared with the language a pattern denotes:
    a sequence of characters, each possibly starred, with a test for the end of
    the line, found anywhere in the line or at its start.  The loop that reads
    through a buffer of 1024 bytes is compared with a filter on the lines of the
    file. *)

From Stdlib Require Import ZArith Lia.
From stdpp Require Import base gmap strings numbers list.
From S2P Require Import Prelude Ulib.
Local Open Scope xv6_scope.

(** ** The program *)

(** The loop of [matchstar]. *)
Fixpoint star_loop (here : list Z → bool) (c : Z) (text : list Z) : bool :=
  here text || match text with [] => false | x :: text => ((x =? c) || (c =? 46)) && star_loop here c text end.

Fixpoint matchhere (re text : list Z) {struct re} : bool :=
  match re with
  | [] => true
  | r0 :: re1 =>
    let one := match text with [] => false | x :: text1 => ((r0 =? 46) || (r0 =? x)) && matchhere re1 text1 end in
    match re1 with
    | r1 :: re2 => if r1 =? 42 then star_loop (matchhere re2) r0 text else one
    | [] => if r0 =? 36 then match text with [] => true | _ => false end else one
    end
  end.

Definition matchstar (c : Z) (re text : list Z) : bool := star_loop (matchhere re) c text.

(** The loop of [match]; it looks at the empty string too. *)
Fixpoint match_anywhere (re text : list Z) : bool :=
  matchhere re text || match text with [] => false | _ :: text => match_anywhere re text end.

Definition match_ (re text : list Z) : bool :=
  match re with
  | r0 :: re1 => if r0 =? 94 then matchhere re1 text else match_anywhere re text
  | [] => match_anywhere re text
  end.

Definition slice (a : list Z) (i n : nat) : list Z := take n (drop i a).

Definition BUFSIZE : nat := 1024.

Definition lift {A} (x : option A) : M os A := match x with Some a => ret a | None => fault 0 end.

(** The loop on the lines in the buffer from [p] on. *)
Fixpoint grep_lines (fuel : nat) (pattern buf : list Z) (p : nat) : M os (list Z * nat) :=
  match fuel with
  | O => out_of_fuel
  | S fuel =>
    q ← lift (strchr_at BUFSIZE buf p 10);
    match q with
    | None => ret (buf, p)
    | Some q =>
      buf ← store_at buf q 0;
      buf ← (if match_ pattern (cstr (drop p buf)) then
               buf ← store_at buf q 10;
               write 1 (slice buf p (q + 1 - p));;
               ret buf
             else ret buf);
      grep_lines fuel pattern buf (q + 1)
    end
  end.

(** [m] bytes of an unfinished line are in the buffer. *)
Fixpoint grep_loop (fuel : nat) (pattern : list Z) (fd : Z) (buf : list Z) (m : nat) : M os (list Z) :=
  match fuel with
  | O => out_of_fuel
  | S fuel =>
    '(n, bs) ← read fd (BUFSIZE - m - 1);
    if n <=? 0 then ret buf else
    let buf := take m buf ++ bs ++ drop (m + length bs) buf in
    let m := (m + length bs)%nat in
    buf ← store_at buf m 0;
    '(buf, p) ← grep_lines BUFSIZE pattern buf 0;
    if (0 <? m)%nat then
      buf ← lift (memmove buf 0 p (m - p));
      grep_loop fuel pattern fd buf (m - p)
    else grep_loop fuel pattern fd buf m
  end.

(** Each pass but the last takes a byte from the input.  The buffer is a global
    that keeps its contents between calls. *)
Definition grep (pattern : list Z) (fd : Z) (buf : list Z) : M os (list Z) :=
  s ← get;
  grep_loop (S (length (default [] (o_fds s !! fd)))) pattern fd buf 0.

Definition usage_fmt : list Z := Ulib.cline "usage: grep pattern [file ...]".
Definition cannot_open_fmt : list Z := Ulib.cline "grep: cannot open %s".

(** The status passed to [exit]. *)
Fixpoint grep_files (files : list (list Z)) (pattern buf : list Z) : M os Z :=
  match files with
  | [] => ret 0
  | f :: files =>
    fd ← open f;
    if fd <? 0 then printf cannot_open_fmt [A_str (Some f)];; ret 1 else
    buf ← grep pattern fd buf;
    close fd;;
    grep_files files pattern buf
  end.

Definition grep_main (argv : list (list Z)) : M os Z :=
  let buf := replicate BUFSIZE 0 in
  match argv with
  | _ :: pattern :: [] => grep pattern 0 buf;; ret 0
  | _ :: pattern :: files => grep_files files pattern buf
  | _ => fprintf 2 usage_fmt [];; ret 1
  end.

(** ** The language of a pattern *)

Inductive item := One (c : Z) | Star (c : Z).

(** Whether the pattern character [c] stands for [x]. *)
Definition accepts (c x : Z) : Prop := c = 46 ∨ c = x.

(** The items of a pattern, and whether it ends in [$]. *)
Fixpoint parse (re : list Z) : list item * bool :=
  match re with
  | [] => ([], false)
  | c :: re1 =>
    match re1 with
    | d :: re2 => if d =? 42 then (Star c :: (parse re2).1, (parse re2).2) else (One c :: (parse re1).1, (parse re1).2)
    | [] => if c =? 36 then ([], true) else ([One c], false)
    end
  end.

Fixpoint lang (l : list item) (u : list Z) : Prop :=
  match l with
  | [] => u = []
  | One c :: l => ∃ x v, u = x :: v ∧ accepts c x ∧ lang l v
  | Star c :: l => ∃ v w, u = v ++ w ∧ Forall (accepts c) v ∧ lang l w
  end.

(** The pattern matches at the front of [t]. *)
Definition matches_here (re t : list Z) : Prop :=
  ∃ u v, t = u ++ v ∧ lang (parse re).1 u ∧ ((parse re).2 = true → v = []).

Lemma accepts_spec c x : ((c =? 46) || (c =? x)) = true ↔ accepts c x.
Proof. unfold accepts. rewrite orb_true_iff, !Z.eqb_eq. done. Qed.

Lemma star_loop_spec here c t : star_loop here c t = true ↔ ∃ v w, t = v ++ w ∧ Forall (accepts c) v ∧ here w = true.
Proof.
  induction t as [|x t IH]; cbn [star_loop]; rewrite orb_true_iff.
  - split.
    + intros [H|H]; [|done]. by exists [], [].
    + intros (v & w & [-> ->]%eq_sym%app_eq_nil & _ & H). by left.
  - rewrite andb_true_iff, orb_comm, (Z.eqb_sym x), accepts_spec, IH. split.
    + intros [H|[Ha (v & w & -> & Hv & Hw)]]; [by exists [], (x :: t)|]. exists (x :: v), w. split; [done|]. split; [by constructor|done].
    + intros ([|y v] & w & E & Hv & Hw); [left; by rewrite E|]. injection E as -> ->. apply Forall_cons in Hv as [Ha Hv].
      right. split; [done|]. by exists v, w.
Qed.

Lemma one_spec c re t : (parse (c :: re)).1 = One c :: (parse re).1 → (parse (c :: re)).2 = (parse re).2 →
  matches_here (c :: re) t ↔ ∃ x t', t = x :: t' ∧ accepts c x ∧ matches_here re t'.
Proof.
  intros E1 E2. unfold matches_here. rewrite E1, E2. cbn [lang]. split.
  - intros (u & v & -> & (x & u' & -> & Ha & Hl) & He). exists x, (u' ++ v). split; [done|]. split; [done|]. by exists u', v.
  - intros (x & t' & -> & Ha & u & v & -> & Hl & He). exists (x :: u), v. split; [done|]. split; [by exists x, u|done].
Qed.

Lemma matchhere_spec n re t : (length re ≤ n)%nat → matchhere re t = true ↔ matches_here re t.
Proof.
  revert re t. induction n as [|n IH]; intros [|c re1] t Hn; try (cbn in Hn; lia).
  1, 2: split; [intros _; by exists [], t|done].
  assert (∀ one, (match t with [] => false | x :: t' => ((c =? 46) || (c =? x)) && matchhere re1 t' end) = one →
    (parse (c :: re1)).1 = One c :: (parse re1).1 → (parse (c :: re1)).2 = (parse re1).2 →
    one = true ↔ matches_here (c :: re1) t) as Hone.
  { intros one <- E1 E2. rewrite (one_spec c re1 t E1 E2). destruct t as [|x t].
    - split; [done|]. by intros (x & t' & [=] & _).
    - rewrite andb_true_iff, accepts_spec, (IH re1) by (cbn in Hn; lia). split.
      + intros [Ha Hm]. by exists x, t.
      + intros (x' & t' & [= <- <-] & Ha & Hm). done. }
  cbn [matchhere]. destruct re1 as [|d re2].
  - destruct (Z.eqb_spec c 36) as [->|Hne].
    + unfold matches_here. cbn. split.
      * destruct t; [|done]. intros _. by exists [], [].
      * intros (u & v & -> & -> & He). by rewrite He.
    + apply Hone; [done|..]; cbn; by destruct (Z.eqb_spec c 36).
  - destruct (Z.eqb_spec d 42) as [->|Hne].
    + unfold matches_here. cbn [parse]. change (42 =? 42) with true. cbn [fst snd lang].
      rewrite star_loop_spec. split.
      * intros (v & w & -> & Hv & (u & r & -> & Hl & He)%IH); [|cbn in Hn; lia].
        exists (v ++ u), r. split; [by rewrite app_assoc|]. split; [by exists v, u|done].
      * intros (u & r & -> & (v & w & -> & Hv & Hl) & He). exists v, (w ++ r). split; [by rewrite app_assoc|].
        split; [done|]. apply IH; [cbn in Hn; lia|]. by exists w, r.
    + apply Hone; [done|..]; cbn [parse]; by destruct (Z.eqb_spec d 42).
Qed.

Lemma match_anywhere_spec re t : match_anywhere re t = true ↔ ∃ w t', t = w ++ t' ∧ matches_here re t'.
Proof.
  induction t as [|x t IH]; cbn [match_anywhere]; rewrite orb_true_iff, (matchhere_spec (length re)) by done.
  - split; [intros [H|?]; [by exists [], []|done]|]. intros (w & t' & [-> ->]%eq_sym%app_eq_nil & H). by left.
  - rewrite IH. split.
    + intros [H|(w & t' & -> & H)]; [by exists [], (x :: t)|]. by exists (x :: w), t'.
    + intros ([|y w] & t' & E & H); [left; by rewrite E|]. injection E as -> ->. right. by exists w, t'.
Qed.

(** C15. [match] decides whether a line has a part that the pattern denotes: at its
    start if the pattern begins with [^], anywhere otherwise, and reaching to its
    end if the pattern ends in [$]. *)
Theorem match_correct re text :
  match_ re text = true ↔
  match re with
  | 94 :: re => matches_here re text
  | _ => ∃ w t, text = w ++ t ∧ matches_here re t
  end.
Proof.
  unfold match_. destruct re as [|r0 re1]; [apply match_anywhere_spec|].
  destruct (Z.eqb_spec r0 94) as [->|Hne]; [by apply (matchhere_spec (length re1))|].
  rewrite match_anywhere_spec. repeat (case_match; simplify_eq; try done).
Qed.

(** ** The lines of a file *)

(** The lines that end in a newline, without it, and what comes after them. *)
Fixpoint split_lines (l : list Z) : list (list Z) * list Z :=
  match l with
  | [] => ([], [])
  | c :: l =>
    let '(ls, r) := split_lines l in
    if c =? 10 then ([] :: ls, r) else match ls with [] => ([], c :: r) | x :: ls => ((c :: x) :: ls, r) end
  end.

Definition grep_output (pattern input : list Z) : list Z :=
  mjoin ((fun l => if match_ pattern l then l ++ [10] else []) <$> (split_lines input).1).

Lemma split_lines_app a b : split_lines (a ++ b) =
  ((split_lines a).1 ++ (split_lines ((split_lines a).2 ++ b)).1, (split_lines ((split_lines a).2 ++ b)).2).
Proof.
  induction a as [|c a IH]; [cbn; by destruct (split_lines b)|]. cbn [app split_lines]. rewrite IH.
  destruct (split_lines a) as [ls r]. cbn [fst snd]. destruct (Z.eqb_spec c 10); [done|].
  destruct ls as [|x ls]; [|done]. cbn [app fst snd split_lines].
  destruct (split_lines (r ++ b)) as [ls' r']. cbn [fst snd]. destruct (Z.eqb_spec c 10); [done|]. by destruct ls'.
Qed.

Lemma split_lines_none l : 10 ∉ l → split_lines l = ([], l).
Proof.
  induction l as [|c l IH]; [done|]. intros [Hc Hl]%not_elem_of_cons. cbn. rewrite IH by done.
  destruct (Z.eqb_spec c 10); [congruence|done].
Qed.

Lemma split_lines_first l r : 10 ∉ l → split_lines (l ++ 10 :: r) = (l :: (split_lines r).1, (split_lines r).2).
Proof.
  induction l as [|c l IH]; intros Hl; cbn [app split_lines]; [by destruct (split_lines r)|].
  apply not_elem_of_cons in Hl as [Hc Hl]. rewrite IH by done. destruct (Z.eqb_spec c 10); [congruence|done].
Qed.

(** A list with a newline starts with a line. *)
Lemma line_cases l : 10 ∉ l ∨ ∃ x r, 10 ∉ x ∧ l = x ++ 10 :: r.
Proof.
  induction l as [|c l [IH|(x & r & Hx & ->)]]; [left; apply not_elem_of_nil|..].
  - destruct (decide (c = 10)) as [->|Hc]; [right; exists [], l; split; [apply not_elem_of_nil|done]|].
    left. by apply not_elem_of_cons.
  - destruct (decide (c = 10)) as [->|Hc]; [right; exists [], (x ++ 10 :: r); split; [apply not_elem_of_nil|done]|].
    right. exists (c :: x), r. split; [by apply not_elem_of_cons|done].
Qed.

Lemma split_lines_rest l : 10 ∉ (split_lines l).2.
Proof.
  remember (length l) as n eqn:Hn. revert l Hn. induction (lt_wf n) as [n _ IH]. intros l ->.
  destruct (line_cases l) as [H|(x & r & Hx & ->)]; [by rewrite split_lines_none|].
  rewrite split_lines_first by done. cbn. eapply IH; [|done]. rewrite length_app. cbn. lia.
Qed.

Lemma split_lines_data l : ∃ pre, l = pre ++ (split_lines l).2.
Proof.
  remember (length l) as n eqn:Hn. revert l Hn. induction (lt_wf n) as [n _ IH]. intros l ->.
  destruct (line_cases l) as [H|(x & r & Hx & ->)]; [exists []; by rewrite split_lines_none|].
  rewrite split_lines_first by done. cbn.
  destruct (IH (length r)) with (l := r) as [pre Hp]; [rewrite length_app; cbn; lia|done|].
  exists (x ++ 10 :: pre). rewrite Hp at 1. by rewrite <- app_assoc.
Qed.

Lemma split_lines_le l : (length (split_lines l).2 ≤ length l)%nat.
Proof. destruct (split_lines_data l) as [q Hq]. apply (f_equal length) in Hq. rewrite length_app in Hq. lia. Qed.

Lemma grep_output_line pattern l r : 10 ∉ l →
  grep_output pattern (l ++ 10 :: r) = (if match_ pattern l then l ++ [10] else []) ++ grep_output pattern r.
Proof. intros Hl. unfold grep_output. by rewrite split_lines_first. Qed.

Lemma grep_output_app pattern a b :
  grep_output pattern (a ++ b) = grep_output pattern a ++ grep_output pattern ((split_lines a).2 ++ b).
Proof. unfold grep_output. rewrite split_lines_app. cbn [fst]. rewrite fmap_app. apply join_app. Qed.

(** ** The buffer *)

Definition clean (l : list Z) : Prop := 0 ∉ l.

Lemma strchr_at_spec fuel pre l x rest : clean l → 10 ∉ l → x = 0 ∨ x = 10 → (length l < fuel)%nat →
  strchr_at fuel (pre ++ l ++ x :: rest) (length pre) 10 = Some (if x =? 0 then None else Some (length pre + length l)%nat).
Proof.
  revert pre fuel. induction l as [|c l IH]; intros pre fuel Hz Hn Hx Hf; (destruct fuel as [|fuel]; [lia|]); cbn [strchr_at app].
  - rewrite list_lookup_middle by done. destruct Hx as [->| ->]; cbn; [done|]. do 2 f_equal. lia.
  - apply not_elem_of_cons in Hz as [Hz0 Hz], Hn as [Hn0 Hn]. cbn in Hf. rewrite list_lookup_middle by done.
    assert (truthy c = true) as -> by (by apply truthy_true). destruct (Z.eqb_spec c 10); [congruence|]. cbn [negb].
    specialize (IH (pre ++ [c]) fuel Hz Hn Hx ltac:(lia)). rewrite <- app_assoc in IH. cbn [app] in IH.
    rewrite length_app in IH. cbn in IH. rewrite Nat.add_1_r in IH. rewrite IH. destruct (x =? 0); [done|]. do 2 f_equal. cbn. lia.
Qed.

Lemma cstr_clean l rest : clean l → cstr (l ++ 0 :: rest) = l.
Proof.
  induction l as [|c l IH]; [done|]. intros [Hc Hl]%not_elem_of_cons. cbn.
  assert (truthy c = true) as -> by (by apply truthy_true). by rewrite IH.
Qed.

(** The lines in the buffer: [data] at [p], with a NUL behind it. *)
Lemma wp_grep_lines pattern tl : ∀ fuel data pre s,
  clean data → (length data < BUFSIZE)%nat → (length data < fuel)%nat →
  wp (grep_lines fuel pattern (pre ++ data ++ 0 :: tl) (length pre)) s (fun r s' =>
    s' = out_to 1 (grep_output pattern data) s ∧
    ∃ pre', r = (pre' ++ (split_lines data).2 ++ 0 :: tl, length pre') ∧ length pre' = (length pre + length data - length (split_lines data).2)%nat).
Proof.
  induction fuel as [|fuel IH]; intros data pre s Hd Hb Hf; [lia|]. cbn [grep_lines]. wp_simpl.
  destruct (line_cases data) as [Hn|(l & r & Hn & ->)].
  - rewrite strchr_at_spec by (auto; lia). cbn [lift Z.eqb]. wp_simpl. rewrite split_lines_none by done.
    unfold grep_output. rewrite split_lines_none by done. cbn. rewrite out_to_nil. split; [done|].
    exists pre. split; [done|lia].
  - unfold clean in *. apply not_elem_of_app in Hd as [Hl Hr]. apply not_elem_of_cons in Hr as [_ Hr].
    rewrite length_app in Hb, Hf. cbn in Hb, Hf. rewrite <- app_assoc. cbn [app].
    rewrite strchr_at_spec by (auto; lia). change (10 =? 0) with false. cbn [lift]. wp_simpl.
    rewrite <- (length_app pre l). rewrite (app_assoc pre l).
    apply wp_store_at; [rewrite !length_app; cbn; lia|]. rewrite insert_mid. wp_simpl.
    rewrite <- app_assoc, drop_app_length, cstr_clean by done. rewrite app_assoc.
    rewrite grep_output_line, split_lines_first by done. cbn [snd]. destruct (match_ pattern l) eqn:Em.
    + wp_simpl. apply wp_store_at; [rewrite !length_app; cbn; lia|]. rewrite insert_mid. wp_simpl.
      assert ((pre ++ l) ++ 10 :: r ++ 0 :: tl = pre ++ (l ++ [10]) ++ r ++ 0 :: tl) as E1 by (by rewrite <- !app_assoc).
      assert ((pre ++ l) ++ 10 :: r ++ 0 :: tl = ((pre ++ l) ++ [10]) ++ r ++ 0 :: tl) as E2 by (by rewrite <- !app_assoc).
      assert (slice ((pre ++ l) ++ 10 :: r ++ 0 :: tl) (length pre) (length (pre ++ l) + 1 - length pre) = l ++ [10]) as ->.
      { unfold slice. rewrite E1, drop_app_length.
        replace (length (pre ++ l) + 1 - length pre)%nat with (length (l ++ [10])) by (rewrite !length_app; cbn; lia).
        apply take_app_length. }
      unfold write. wp_simpl. rewrite E2.
      replace (length (pre ++ l) + 1)%nat with (length ((pre ++ l) ++ [10])) by (by rewrite length_app).
      eapply wp_mono; [apply (IH r); [done|lia|lia]|]. intros rr s' (-> & pre' & -> & Hp). split; [by rewrite <- out_to_app|].
      exists pre'. split; [done|]. rewrite !length_app in *. cbn in *. pose proof (split_lines_le r). lia.
    + wp_simpl. change (0 :: r ++ 0 :: tl) with ([0] ++ r ++ 0 :: tl). rewrite (app_assoc (pre ++ l)).
      replace (length (pre ++ l) + 1)%nat with (length ((pre ++ l) ++ [0])) by (by rewrite length_app).
      eapply wp_mono; [apply (IH r); [done|lia|lia]|]. intros rr s' (-> & pre' & -> & Hp). split; [done|].
      exists pre'. split; [done|]. rewrite !length_app in *. cbn in *. pose proof (split_lines_le r). lia.
Qed.

(** ** Moving the unfinished line to the front *)

Lemma move_up_spec n : ∀ a dst src, (dst ≤ src)%nat → (src + n ≤ length a)%nat →
  move_up a dst src n = Some (take dst a ++ take n (drop src a) ++ drop (dst + n) a).
Proof.
  induction n as [|n IH]; intros a dst src Hd Hl; cbn [move_up].
  - rewrite Nat.add_0_r. rewrite take_0. cbn [app]. by rewrite take_drop.
  - destruct (lookup_lt_is_Some_2 a src) as [b Hb]; [lia|]. rewrite Hb. cbn [mbind option_bind].
    destruct (Nat.ltb_spec dst (length a)); [|lia]. cbn [mbind option_bind].
    rewrite IH by (rewrite ?length_insert; lia). f_equal.
    rewrite (take_S_r _ dst b) by (by rewrite list_lookup_insert_eq by lia). rewrite take_insert_ge by lia.
    rewrite !drop_insert_lt by lia. rewrite (drop_S a b src) by done. cbn [take].
    rewrite <- app_assoc. cbn. by replace (dst + S n)%nat with (S (dst + n)) by lia.
Qed.

Lemma move_down_id n : ∀ a d, (d + n ≤ length a)%nat → move_down a d d n = Some a.
Proof.
  induction n as [|n IH]; intros a d Hl; [done|]. cbn [move_down].
  destruct (lookup_lt_is_Some_2 a (d + n)) as [b Hb]; [lia|]. rewrite Hb. cbn [mbind option_bind].
  destruct (Nat.ltb_spec (d + n) (length a)); [|lia]. cbn [mbind option_bind]. rewrite list_insert_id by done. apply IH. lia.
Qed.

Lemma memmove_front a p n : (p + n ≤ length a)%nat → memmove a 0 p n = Some (take n (drop p a) ++ drop n a).
Proof.
  intros Hl. unfold memmove. destruct (Nat.ltb_spec 0 p).
  - rewrite move_up_spec by lia. done.
  - assert (p = 0%nat) as -> by lia. rewrite move_down_id by lia. by rewrite drop_0, take_drop.
Qed.

(** ** Theorems *)

(** A chunk that is read: the lines it completes are printed, and the rest moves
    to the front. *)
Lemma wp_grep_chunk pattern buf m bs s (Q : list Z → os → Prop) (k : list Z → nat → M os (list Z)) :
  length buf = BUFSIZE → (m + length bs < BUFSIZE)%nat → (0 < length bs)%nat → clean (take m buf ++ bs) →
  (∀ buf' r, length buf' = BUFSIZE → r = (split_lines (take m buf ++ bs)).2 → take (length r) buf' = r →
     wp (k buf' (length r)) (out_to 1 (grep_output pattern (take m buf ++ bs)) s) Q) →
  wp (let buf := take m buf ++ bs ++ drop (m + length bs) buf in
      let m := (m + length bs)%nat in
      buf ← store_at buf m 0;
      '(buf, p) ← grep_lines BUFSIZE pattern buf 0;
      if (0 <? m)%nat then buf ← lift (memmove buf 0 p (m - p)); k buf (m - p)%nat else k buf m) s Q.
Proof.
  intros Hl Hm Hb Hc HQ. cbv zeta. set (data := take m buf ++ bs) in *.
  assert (length data = m + length bs)%nat as Hd by (unfold data; rewrite length_app, length_take; lia).
  destruct (drop (m + length bs) buf) as [|x tl] eqn:Et.
  { apply (f_equal length) in Et. rewrite length_drop in Et. cbn in Et. lia. }
  assert (length tl = BUFSIZE - (m + length bs) - 1)%nat as Htl.
  { apply (f_equal length) in Et. rewrite length_drop in Et. cbn in Et. lia. }
  rewrite (app_assoc (take m buf)). fold data. wp_simpl. apply wp_store_at; [rewrite length_app; cbn; lia|].
  rewrite <- Hd, insert_mid. wp_simpl. eapply wp_mono; [apply (wp_grep_lines pattern tl BUFSIZE data []); [done|lia|lia]|].
  intros rr s1 (-> & pre & -> & Hp). cbn in Hp. pose proof (split_lines_le data) as Hle.
  destruct (Nat.ltb_spec 0 (length data)); [|lia]. set (r := (split_lines data).2) in *.
  replace (length data - length pre)%nat with (length r) by lia.
  rewrite memmove_front by (rewrite !length_app; cbn; lia). cbn [lift]. wp_simpl.
  rewrite drop_app_length, take_app_length. apply HQ; [|done|apply take_app_length].
  rewrite length_app, length_drop, !length_app. cbn. lia.
Qed.

Lemma wp_grep_loop pattern fd : ∀ fuel buf m rest s,
  o_fds s !! fd = Some rest → Forall is_Some (o_sched s) → length buf = BUFSIZE → (m < BUFSIZE)%nat →
  10 ∉ take m buf → clean (take m buf ++ rest) →
  Forall (fun l => length l < BUFSIZE - 1)%nat (split_lines (take m buf ++ rest)).1 → (length rest < fuel)%nat →
  wp (grep_loop fuel pattern fd buf m) s (fun buf' s' =>
    length buf' = BUFSIZE ∧ o_out s' = o_out (out_to 1 (grep_output pattern (take m buf ++ rest)) s) ∧ o_files s' = o_files s).
Proof.
  induction fuel as [|fuel IH]; intros buf m rest s Hfd Hs Hlen Hm Hcur Hcl Hll Hf; [lia|]. cbn [grep_loop].
  rewrite wp_bind. eapply wp_uread; [done|done|]. intros k s1 Hk1 Hk2 Hk0 Hfd1 Hfi1 Ho1 Hs1.
  destruct (decide (k = 0%nat)) as [->|Hk].
  - change (Z.of_nat 0 <=? 0) with true. wp_simpl. split; [done|]. split; [|done]. rewrite Ho1.
    enough (grep_output pattern (take m buf ++ rest) = []) as -> by (by rewrite out_to_nil). unfold grep_output.
    destruct (Hk0 eq_refl) as [E| ->]; [|by rewrite app_nil_r, split_lines_none].
    destruct (line_cases (take m buf ++ rest)) as [Hn|(l & r & Hn & El)]; [by rewrite split_lines_none|].
    exfalso. rewrite El, split_lines_first in Hll by done. cbn [fst] in Hll. apply Forall_cons in Hll as [Hll _].
    assert (length (take m buf) = BUFSIZE - 1)%nat as Hlt by (rewrite length_take; lia).
    assert (take m buf !! length l = Some 10) as Hx.
    { rewrite <- (lookup_app_l (take m buf) rest) by (cbn beta in Hll; lia). rewrite El. by apply list_lookup_middle. }
    by apply list_elem_of_lookup_2 in Hx.
  - destruct (Z.leb_spec (Z.of_nat k) 0); [lia|]. assert (length (take k rest) = k) as Ek by (rewrite length_take; lia).
    assert (take m buf ++ rest = (take m buf ++ take k rest) ++ drop k rest) as Esp by (by rewrite <- app_assoc, take_drop).
    rewrite Esp in Hcl, Hll. apply not_elem_of_app in Hcl as [Hcl1 Hcl2]. rewrite split_lines_app in Hll. cbn [fst] in Hll.
    apply Forall_app in Hll as [_ Hll].
    apply (wp_grep_chunk pattern buf m (take k rest) s1); [done|lia|lia|done|]. intros buf' r Hl' -> Ht.
    set (data := take m buf ++ take k rest) in *. pose proof (split_lines_le data) as Hle.
    assert (length data = m + k)%nat as Hd by (unfold data; rewrite length_app, length_take; lia).
    destruct (split_lines_data data) as [pre Hpre].
    eapply wp_mono; [apply (IH buf' (length (split_lines data).2) (drop k rest))|].
    + done.
    + done.
    + done.
    + lia.
    + rewrite Ht. apply split_lines_rest.
    + rewrite Ht. apply not_elem_of_app. split; [|done]. rewrite Hpre in Hcl1. by apply not_elem_of_app in Hcl1 as [_ ?].
    + by rewrite Ht.
    + rewrite length_drop. lia.
    + intros b' s' (H1 & H2 & H3). split; [done|]. split; [|rewrite H3; exact Hfi1].
      rewrite H2, Ht, Esp, (grep_output_app pattern data).
      rewrite <- out_to_app. unfold out_to. cbn. by rewrite Ho1.
Qed.

(** C31. On a file without NULs whose lines fit the buffer, [grep] writes exactly
    the lines that end in a newline and match, in order, however the reads cut
    the file into pieces. *)
Theorem grep_correct pattern fd buf input s :
  length buf = BUFSIZE → o_fds s !! fd = Some input → Forall is_Some (o_sched s) → 0 ∉ input →
  Forall (fun l => length l < BUFSIZE - 1)%nat (split_lines input).1 →
  wp (grep pattern fd buf) s (fun _ s' =>
    o_out s' = o_out s ++ ((fun b => (1, b)) <$>
      mjoin ((fun l => if match_ pattern l then l ++ [10] else []) <$> (split_lines input).1))).
Proof.
  intros Hb Hfd Hs Hc Hl. unfold grep. wp_simpl. rewrite Hfd. cbn [default from_option id].
  eapply wp_mono; [apply (wp_grep_loop pattern fd _ buf 0 input); try done; [unfold BUFSIZE; lia|apply not_elem_of_nil|lia]|].
  intros b' s' (_ & H & _). exact H.
Qed.

(** ** Examples *)

(** The pattern [b.*d$] in two lines, read three bytes at a time. *)
Definition sample_input : list Z := [97; 98; 99; 100; 10; 98; 100; 99; 10; 98].
Definition sample_os : os := Os ∅ {[ 3 := sample_input ]} (replicate 20 (Some 2%nat)) [] [] [].

Lemma grep_correct_witness :
  wp (grep [98; 46; 42; 100; 36] 3 (replicate BUFSIZE 7)) sample_os (fun _ s' =>
    o_out s' = [(1, 97); (1, 98); (1, 99); (1, 100); (1, 10)]).
Proof.
  eapply wp_mono; [apply (grep_correct [98; 46; 42; 100; 36] 3 (replicate BUFSIZE 7) sample_input sample_os)|].
  - apply length_replicate.
  - reflexivity.
  - apply Forall_replicate. by eexists.
  - apply (bool_decide_unpack _). vm_compute. exact I.
  - apply (bool_decide_unpack _). vm_compute. exact I.
  - intros _ s' ->. vm_compute. reflexivity.
Defined.
