(* ===== verification/Tools.v ===== *)
(** * Small programs

    [user/wc.c], [cat.c], [echo.c], [kill.c], [ln.c], [mkdir.c] and [rm.c].  A
    program gets its arguments as strings and returns the status it passes to
    [exit]. *)

From Stdlib Require Import ZArith Lia.
From stdpp Require Import base gmap strings numbers list.
From S2P Require Import Prelude Numeral Ulib.
Local Open Scope xv6_scope.

(** ** wc *)

Record counts := Counts { wc_l : Z; wc_w : Z; wc_c : Z; wc_inword : bool }.

Definition wc_space : list Z := [32; 13; 9; 10; 11].
Definition wc_fmt : list Z := cline "%d %d %d %s".
Definition wc_read_fmt : list Z := cline "wc: read error".
Definition wc_open_fmt : list Z := cline "wc: cannot open %s".

Definition wc_char (k : counts) (b : Z) : counts :=
  let c := i32 (wc_c k + 1) in
  let l := if b =? 10 then i32 (wc_l k + 1) else wc_l k in
  if strchr wc_space b then Counts l (wc_w k) c false
  else if wc_inword k then Counts l (wc_w k) c true
  else Counts l (i32 (wc_w k + 1)) c true.

(** The number of the last read, and the counts. *)
Fixpoint wc_loop (fuel : nat) (fd : Z) (k : counts) : M os (Z * counts) :=
  match fuel with
  | O => out_of_fuel
  | S fuel =>
    '(n, bs) ← read fd 512;
    if 0 <? n then wc_loop fuel fd (foldl wc_char k bs) else ret (n, k)
  end.

(** The status to exit with, if any.  Each pass but the last takes a byte. *)
Definition wc (fd : Z) (name : list Z) : M os (option Z) :=
  s ← get;
  '(n, k) ← wc_loop (S (length (default [] (o_fds s !! fd)))) fd (Counts 0 0 0 false);
  if n <? 0 then printf wc_read_fmt [];; ret (Some 1)
  else printf wc_fmt [A_int (wc_l k); A_int (wc_w k); A_int (wc_c k); A_str (Some name)];; ret None.

Fixpoint wc_files (files : list (list Z)) : M os Z :=
  match files with
  | [] => ret 0
  | f :: files =>
    fd ← open f;
    if fd <? 0 then printf wc_open_fmt [A_str (Some f)];; ret 1 else
    r ← wc fd f;
    match r with Some st => ret st | None => close fd;; wc_files files end
  end.

Definition wc_main (argv : list (list Z)) : M os Z :=
  match tail argv with
  | [] => r ← wc 0 []; ret (default 0 r)
  | files => wc_files files
  end.

(** ** cat *)

Definition cat_write_fmt : list Z := cline "cat: write error".
Definition cat_read_fmt : list Z := cline "cat: read error".
Definition cat_open_fmt : list Z := cline "cat: cannot open %s".

Fixpoint cat_loop (fuel : nat) (fd : Z) : M os (option Z) :=
  match fuel with
  | O => out_of_fuel
  | S fuel =>
    '(n, bs) ← read fd 512;
    if 0 <? n then
      w ← write 1 bs;
      if negb (w =? n) then fprintf 2 cat_write_fmt [];; ret (Some 1) else cat_loop fuel fd
    else if n <? 0 then fprintf 2 cat_read_fmt [];; ret (Some 1)
    else ret None
  end.

Definition cat (fd : Z) : M os (option Z) :=
  s ← get;
  cat_loop (S (length (default [] (o_fds s !! fd)))) fd.

Fixpoint cat_files (files : list (list Z)) : M os Z :=
  match files with
  | [] => ret 0
  | f :: files =>
    fd ← open f;
    if fd <? 0 then fprintf 2 cat_open_fmt [A_str (Some f)];; ret 1 else
    r ← cat fd;
    match r with Some st => ret st | None => close fd;; cat_files files end
  end.

Definition cat_main (argv : list (list Z)) : M os Z :=
  match tail argv with
  | [] => r ← cat 0; ret (default 0 r)
  | files => cat_files files
  end.

(** ** echo *)

Fixpoint echo_loop (args : list (list Z)) : M os unit :=
  match args with
  | [] => ret tt
  | a :: args => write 1 a;; write 1 (match args with [] => [10] | _ => [32] end);; echo_loop args
  end.
Definition echo_main (argv : list (list Z)) : M os Z := echo_loop (tail argv);; ret 0.

(** ** kill, ln, mkdir and rm *)

Definition kill_usage : list Z := cline "usage: kill pid...".
Definition kill_main (argv : list (list Z)) : M os Z :=
  match tail argv with
  | [] => fprintf 2 kill_usage [];; ret 1
  | args => for_each args (fun a => system_call (C_kill (atoi a));; ret tt);; ret 0
  end.

Definition ln_usage : list Z := cline "Usage: ln old new".
Definition ln_fmt : list Z := cline "link %s %s: failed".
Definition ln_main (argv : list (list Z)) : M os Z :=
  match argv with
  | [_; old; new] =>
    r ← system_call (C_link old new);
    when (r <? 0) (fprintf 2 ln_fmt [A_str (Some old); A_str (Some new)]);;
    ret 0
  | _ => fprintf 2 ln_usage [];; ret 1
  end.

(** The loop of [mkdir] and of [rm]: stop at the first failure. *)
Fixpoint call_each (mk : list Z → call) (fmt : list Z) (args : list (list Z)) : M os unit :=
  match args with
  | [] => ret tt
  | a :: args =>
    r ← system_call (mk a);
    if r <? 0 then fprintf 2 fmt [A_str (Some a)] else call_each mk fmt args
  end.

Definition mkdir_usage : list Z := cline "Usage: mkdir files...".
Definition mkdir_fmt : list Z := cline "mkdir: %s failed to create".
Definition mkdir_main (argv : list (list Z)) : M os Z :=
  match tail argv with
  | [] => fprintf 2 mkdir_usage [];; ret 1
  | args => call_each C_mkdir mkdir_fmt args;; ret 0
  end.

Definition rm_usage : list Z := cline "Usage: rm files...".
Definition rm_fmt : list Z := cline "rm: %s failed to delete".
Definition rm_main (argv : list (list Z)) : M os Z :=
  match tail argv with
  | [] => fprintf 2 rm_usage [];; ret 1
  | args => call_each C_unlink rm_fmt args;; ret 0
  end.

(** ** What wc counts *)

Definition space (b : Z) : bool := strchr wc_space b.
#[local] Arguments space : simpl never.

(** The pieces between white space; words are those that are not empty. *)
Fixpoint fields (l : list Z) : list (list Z) :=
  match l with
  | [] => [[]]
  | c :: l =>
    if space c then [] :: fields l
    else match fields l with f :: fs => (c :: f) :: fs | [] => [[c]] end
  end.

Definition words (l : list Z) : list (list Z) := filter (fun w => w ≠ []) (fields l).
Definition newlines (l : list Z) : nat := length (filter (fun b => b = 10) l).

(** Whether [l] begins inside a word. *)
Definition starts (l : list Z) : bool := match l with c :: _ => negb (space c) | [] => false end.

Lemma fields_starts l : ∃ f fs, fields l = f :: fs ∧ (f = [] ↔ starts l = false).
Proof.
  destruct l as [|c l]; cbn; [exists [], []; by repeat split|]. destruct (space c); cbn; [exists [], (fields l); by repeat split|].
  destruct (fields l) as [|f fs]; [exists [c], []|exists (c :: f), fs]; by repeat split.
Qed.

Lemma words_cons c l : length (words (c :: l)) =
  if space c then length (words l) else (length (words l) + if starts l then 0 else 1)%nat.
Proof.
  unfold words. cbn [fields]. destruct (space c); [by rewrite filter_cons_False by (by intros [])|].
  destruct (fields_starts l) as (f & fs & E & Hf). rewrite E, filter_cons_True by done. cbn [length].
  destruct (starts l).
  - rewrite filter_cons_True by (intros ->; by destruct Hf as [Hf _]; specialize (Hf eq_refl)). cbn. lia.
  - rewrite filter_cons_False by (intros H; apply H; by apply Hf). lia.
Qed.

Lemma newlines_cons c l : newlines (c :: l) = ((if (c =? 10)%Z then 1 else 0) + newlines l)%nat.
Proof.
  unfold newlines. destruct (Z.eqb_spec c 10); [by rewrite filter_cons_True|by rewrite filter_cons_False].
Qed.

Lemma wc_chars l : ∀ k, 0 ≤ wc_l k ≤ wc_c k → 0 ≤ wc_w k ≤ wc_c k → wc_c k + Z.of_nat (length l) < 2 ^ 31 →
  let k' := foldl wc_char k l in
  wc_l k' = wc_l k + Z.of_nat (newlines l) ∧ wc_c k' = wc_c k + Z.of_nat (length l) ∧
  wc_w k' = wc_w k + Z.of_nat (length (words l)) - (if wc_inword k && starts l then 1 else 0).
Proof.
  induction l as [|c l IH]; intros k Hl Hw Hc; cbn [foldl].
  { change (length (words [])) with 0%nat. change (newlines []) with 0%nat. cbn [length starts]. rewrite andb_false_r. lia. }
  cbn [length] in Hc. rewrite newlines_cons, words_cons. cbn [length starts].
  assert (wc_char k c = Counts (wc_l k + if c =? 10 then 1 else 0)
    (wc_w k + if space c || wc_inword k then 0 else 1) (wc_c k + 1) (negb (space c))) as ->.
  { unfold wc_char. fold (space c). rewrite !i32_small by lia.
    destruct (c =? 10), (space c), (wc_inword k); cbn; f_equal; lia. }
  destruct (IH (Counts (wc_l k + if c =? 10 then 1 else 0) (wc_w k + if space c || wc_inword k then 0 else 1)
    (wc_c k + 1) (negb (space c)))) as (H1 & H2 & H3);
    [cbn; destruct (c =? 10); lia|cbn; destruct (space c || wc_inword k); lia|cbn; lia|].
  cbn [wc_l wc_w wc_c wc_inword] in H1, H2, H3. rewrite H1, H2, H3.
  split; [destruct (c =? 10); lia|]. split; [lia|].
  destruct (space c), (wc_inword k), (starts l); cbn; lia.
Qed.

Lemma wp_wc_loop fd : ∀ fuel rest k s,
  o_fds s !! fd = Some rest → Forall is_Some (o_sched s) → (length rest < fuel)%nat →
  wp (wc_loop fuel fd k) s (fun r s' => r = (0, foldl wc_char k rest) ∧ o_out s' = o_out s).
Proof.
  induction fuel as [|fuel IH]; intros rest k s Hfd Hs Hf; [lia|]. cbn [wc_loop]. wp_simpl.
  eapply wp_uread; [done|done|]. intros n s1 Hn1 Hn2 Hn0 Hfd1 _ Ho1 Hs1.
  destruct (Z.ltb_spec 0 (Z.of_nat n)).
  - eapply wp_mono; [apply (IH (drop n rest)); [done|done|rewrite length_drop; lia]|].
    intros r s' (-> & ->). split; [|done]. by rewrite <- foldl_app, take_drop.
  - assert (n = 0%nat) as -> by lia. wp_simpl. split; [|done]. destruct (Hn0 eq_refl) as [[=]| ->]. done.
Qed.

Lemma words_le l : (length (words l) ≤ length l)%nat.
Proof.
  induction l as [|c l IH]; [done|]. rewrite words_cons. cbn [length]. destruct (space c); [lia|]. destruct (starts l); lia.
Qed.

(** The line that is printed. *)
Lemma wp_wc_line x y z name s Q :
  0 ≤ x < 2 ^ 31 → 0 ≤ y < 2 ^ 31 → 0 ≤ z < 2 ^ 31 → Forall (fun b => 0 ≤ b < 256) name →
  (∀ l w c, int_numeral digits 10 x l → int_numeral digits 10 y w → int_numeral digits 10 z c →
     Q tt (out_to 1 (l ++ [32] ++ w ++ [32] ++ c ++ [32] ++ name ++ [10]) s)) →
  wp (printf wc_fmt [A_int x; A_int y; A_int z; A_str (Some name)]) s Q.
Proof.
  intros Hx Hy Hz Hn HQ. unfold printf, vprintf. change wc_fmt with [37; 100; 32; 37; 100; 32; 37; 100; 32; 37; 115; 10].
  cbn [vprintf_loop negb Z.eqb Pos.eqb]. unfold conversion. cbn [Z.eqb Pos.eqb]. wp_simpl.
  rewrite i32_small by lia. apply wp_printint; [by left|lia|]. intros l Hl. wp_simpl. apply wp_putc; [lia|]. wp_simpl.
  rewrite i32_small by lia. apply wp_printint; [by left|lia|]. intros w Hw. wp_simpl. apply wp_putc; [lia|]. wp_simpl.
  rewrite i32_small by lia. apply wp_printint; [by left|lia|]. intros c Hc. wp_simpl. apply wp_putc; [lia|]. wp_simpl.
  apply wp_putc_all; [done|]. wp_simpl. apply wp_putc; [lia|]. wp_simpl.
  rewrite !out_to_app. by apply HQ.
Qed.

(** ** Theorems *)

(** [wc] prints the numbers of newlines, of words and of bytes of the file,
    and its name, however the reads cut the file into pieces. *)
Theorem wc_correct fd name input s :
  o_fds s !! fd = Some input → Forall is_Some (o_sched s) → Z.of_nat (length input) < 2 ^ 31 → Forall (fun b => 0 ≤ b < 256) name →
  wp (wc fd name) s (fun r s' => r = None ∧ ∃ l w c,
    int_numeral digits 10 (Z.of_nat (newlines input)) l ∧ int_numeral digits 10 (Z.of_nat (length (words input))) w ∧
    int_numeral digits 10 (Z.of_nat (length input)) c ∧
    o_out s' = o_out s ++ ((fun b => (1, b)) <$> l ++ [32] ++ w ++ [32] ++ c ++ [32] ++ name ++ [10])).
Proof.
  intros Hfd Hs Hlen Hn. unfold wc. wp_simpl. rewrite Hfd. cbn [default from_option id].
  eapply wp_mono; [apply (wp_wc_loop fd _ input); [done|done|lia]|]. intros r s1 (-> & Ho).
  destruct (wc_chars input (Counts 0 0 0 false)) as (H1 & H2 & H3); [cbn; lia|cbn; lia|cbn; lia|].
  set (k := foldl _ _ input) in *. cbn [wc_l wc_c wc_w wc_inword andb] in H1, H2, H3.
  assert (newlines input ≤ length input)%nat as Hl1 by apply length_filter. pose proof (words_le input) as Hl2.
  clearbody k. change (0 <? 0) with false. cbn iota. wp_simpl.
  apply wp_wc_line; [lia|lia|lia|exact Hn|].
  intros l w c Hl Hw Hc. wp_simpl. split; [done|].
  rewrite H1, Z.add_0_l in Hl. rewrite H3, Z.sub_0_r, Z.add_0_l in Hw. rewrite H2, Z.add_0_l in Hc.
  exists l, w, c. do 3 (split; [done|]). cbn. by rewrite Ho.
Qed.

Lemma wp_cat_loop fd : ∀ fuel rest s,
  o_fds s !! fd = Some rest → Forall is_Some (o_sched s) → (length rest < fuel)%nat →
  wp (cat_loop fuel fd) s (fun r s' => r = None ∧ o_out s' = o_out s ++ ((fun b => (1, b)) <$> rest)).
Proof.
  induction fuel as [|fuel IH]; intros rest s Hfd Hs Hf; [lia|]. cbn [cat_loop]. wp_simpl.
  eapply wp_uread; [done|done|]. intros n s1 Hn1 Hn2 Hn0 Hfd1 _ Ho1 Hs1.
  destruct (Z.ltb_spec 0 (Z.of_nat n)).
  - unfold write. wp_simpl. rewrite length_take_le, Z.eqb_refl by lia. cbn [negb].
    eapply wp_mono; [apply (IH (drop n rest)); [done|done|rewrite length_drop; lia]|].
    intros r s' (-> & ->). split; [done|]. cbn. rewrite Ho1, <- app_assoc, <- fmap_app. by rewrite take_drop.
  - assert (n = 0%nat) as -> by lia. change (Z.of_nat 0 <? 0) with false. wp_simpl. split; [done|].
    destruct (Hn0 eq_refl) as [[=]| ->]. by rewrite Ho1, app_nil_r.
Qed.

(** [cat] copies the file to the standard output. *)
Theorem cat_correct fd input s :
  o_fds s !! fd = Some input → Forall is_Some (o_sched s) →
  wp (cat fd) s (fun r s' => r = None ∧ o_out s' = o_out s ++ ((fun b => (1, b)) <$> input)).
Proof.
  intros Hfd Hs. unfold cat. wp_simpl. rewrite Hfd. cbn [default from_option id].
  apply wp_cat_loop; [done|done|lia].
Qed.

(** ** Examples *)

(** Three lines of four words, read two bytes at a time. *)
Definition sample_text : list Z := [97; 98; 32; 99; 10; 10; 9; 100; 101; 32; 102; 10].
Definition text_os : os := Os ∅ {[ 3 := sample_text ]} (replicate 20 (Some 1%nat)) [] [] [].

Lemma wc_correct_witness :
  wp (wc 3 [120]) text_os (fun r s' => r = None ∧ newlines sample_text = 3%nat ∧ length (words sample_text) = 4%nat).
Proof.
  eapply wp_mono; [apply (wc_correct 3 [120] sample_text text_os)|].
  - reflexivity.
  - apply Forall_replicate. by eexists.
  - vm_compute. reflexivity.
  - repeat constructor; lia.
  - intros r s' [-> _]. by vm_compute.
Defined.

Lemma cat_correct_witness :
  wp (cat 3) text_os (fun r s' => o_out s' = (fun b => (1, b)) <$> sample_text).
Proof.
  eapply wp_mono; [apply (cat_correct 3 sample_text text_os); [reflexivity|apply Forall_replicate; by eexists]|].
  intros r s' [-> H]. exact H.
Defined.
