(* ===== verification/Sh.v ===== *)
(** * The shell

    [user/sh.c]: the parser and what a parsed command runs.  The line is the
    list of its bytes up to the NUL; a pointer into it is an index, and the
    parser's state is the pointer [*ps].  An error message ends the shell
    ([panic]). *)

From Stdlib Require Import ZArith Lia.
From stdpp Require Import base gmap strings numbers list.
From S2P Require Import Prelude Ulib.
Local Open Scope xv6_scope.

(** ** Commands *)

Definition MAXARGS : nat := 10.

Definition O_RDONLY : Z := 0.
Definition O_WRONLY : Z := 1.
Definition O_CREATE : Z := 512.
Definition O_TRUNC : Z := 1024.

(** A word is given by where it starts and ends. *)
Inductive cmd :=
| EXEC (argv : list (nat * nat))
| REDIR (c : cmd) (file efile : nat) (mode fd : Z)
| PIPE (left right : cmd)
| LIST (left right : cmd)
| BACK (c : cmd).

(** ** Tokens *)

Definition whitespace : list Z := [32; 9; 13; 10; 11].
Definition symbols : list Z := [60; 124; 62; 38; 59; 40; 41].      (* <|>&;() *)

Section parse.
Context (line : list Z).

Definition es : nat := length line.
(** The byte at a pointer: the NUL at the end. *)
Definition byte (i : nat) : Z := nth i line 0.

Fixpoint skip_white (fuel i : nat) : nat :=
  match fuel with
  | O => i
  | S fuel => if (i <? es)%nat && strchr whitespace (byte i) then skip_white fuel (S i) else i
  end.

Fixpoint skip_word (fuel i : nat) : nat :=
  match fuel with
  | O => i
  | S fuel =>
    if (i <? es)%nat && negb (strchr whitespace (byte i)) && negb (strchr symbols (byte i)) then skip_word fuel (S i) else i
  end.

(** The kind of the token, and where it starts and ends. *)
Definition gettoken : M nat (Z * (nat * nat)) :=
  s ← get;
  let s := skip_white es s in
  let q := s in
  let c := byte s in
  let '(r, s) :=
    if c =? 0 then (c, s)
    else if strchr [124; 40; 41; 59; 38; 60] c then (c, S s)
    else if c =? 62 then if byte (S s) =? 62 then (43, S (S s)) else (c, S s)
    else (97, skip_word es s) in
  let eq := s in
  modify (fun _ => skip_white es s);;
  ret (r, (q, eq)).

Definition peek (toks : list Z) : M nat bool :=
  s ← get;
  let s := skip_white es s in
  modify (fun _ => s);;
  ret (truthy (byte s) && strchr toks (byte s)).

(** ** Parsing *)

(** One redirection: its file, its mode and its descriptor. *)
Definition redir : Type := nat * nat * Z * Z.
Definition redircmd (c : cmd) (r : redir) : cmd := let '(file, efile, mode, fd) := r in REDIR c file efile mode fd.

(** The redirections, in order; [redircmd] puts each around the command before
    it. *)
Fixpoint parseredirs (fuel : nat) : M nat (list redir) :=
  match fuel with
  | O => out_of_fuel
  | S fuel =>
    more ← peek [60; 62];
    if negb more then ret [] else
    '(tok, _) ← gettoken;
    '(w, (q, eq)) ← gettoken;
    when (negb (w =? 97)) (panic "missing file for redirection");;
    rs ← parseredirs fuel;
    ret (if tok =? 60 then (q, eq, O_RDONLY, 0) :: rs
         else if tok =? 62 then (q, eq, Z.lor (Z.lor O_WRONLY O_CREATE) O_TRUNC, 1) :: rs
         else if tok =? 43 then (q, eq, Z.lor O_WRONLY O_CREATE, 1) :: rs
         else rs)
  end.

(** The arguments and redirections of a simple command, [argc] arguments being
    there already.  The command inside the redirections is filled in as the
    arguments come: [argv] is complete when the loop ends. *)
Fixpoint args_loop (fuel argc : nat) : M nat (list (nat * nat) * list redir) :=
  match fuel with
  | O => out_of_fuel
  | S fuel =>
    stop ← peek [124; 41; 38; 59];
    if stop then ret ([], []) else
    '(tok, (q, eq)) ← gettoken;
    if tok =? 0 then ret ([], []) else
    when (negb (tok =? 97)) (panic "syntax");;
    when (MAXARGS <=? S argc)%nat (panic "too many args");;
    rs ← parseredirs (S es);
    '(args, rs') ← args_loop fuel (S argc);
    ret ((q, eq) :: args, rs ++ rs')
  end.

Fixpoint backs (fuel : nat) (c : cmd) : M nat cmd :=
  match fuel with
  | O => out_of_fuel
  | S fuel =>
    more ← peek [38];
    if more then gettoken;; backs fuel (BACK c) else ret c
  end.

(** The functions of the grammar call each other: each is given what the calls
    in it do. *)
Inductive nonterminal := N_line | N_pipe | N_exec | N_block.

Definition parseline (call : nonterminal → M nat cmd) : M nat cmd :=
  c ← call N_pipe;
  c ← backs (S es) c;
  more ← peek [59];
  if more then
    gettoken;;
    r ← call N_line;
    ret (LIST c r)
  else ret c.

Definition parsepipe (call : nonterminal → M nat cmd) : M nat cmd :=
  c ← call N_exec;
  more ← peek [124];
  if more then
    gettoken;;
    r ← call N_pipe;
    ret (PIPE c r)
  else ret c.

Definition parseblock (call : nonterminal → M nat cmd) : M nat cmd :=
  ok ← peek [40];
  when (negb ok) (panic "parseblock");;
  gettoken;;
  c ← call N_line;
  ok ← peek [41];
  when (negb ok) (panic "syntax - missing )");;
  gettoken;;
  rs ← parseredirs (S es);
  ret (foldl redircmd c rs).

Definition parseexec (call : nonterminal → M nat cmd) : M nat cmd :=
  block ← peek [40];
  if block then call N_block else
  rs ← parseredirs (S es);
  '(argv, rs') ← args_loop (S es) 0;
  ret (foldl redircmd (EXEC argv) (rs ++ rs')).

(** [fuel] calls deep. *)
Fixpoint parse (fuel : nat) (nt : nonterminal) : M nat cmd :=
  match fuel with
  | O => out_of_fuel
  | S fuel =>
    match nt with
    | N_line => parseline (parse fuel)
    | N_pipe => parsepipe (parse fuel)
    | N_exec => parseexec (parse fuel)
    | N_block => parseblock (parse fuel)
    end
  end.

End parse.

(** ** NUL-termination *)

Fixpoint nulterminate (c : cmd) (buf : list Z) : list Z :=
  match c with
  | EXEC argv => foldl (fun b '(_, eq) => <[eq := 0]> b) buf argv
  | REDIR c _ efile _ _ => <[efile := 0]> (nulterminate c buf)
  | PIPE l r | LIST l r => nulterminate r (nulterminate l buf)
  | BACK c => nulterminate c buf
  end.

(** The tree, and the buffer it points into; four calls deep for each byte is
    enough. *)
Definition parsecmd (line : list Z) : M nat (cmd * list Z) :=
  c ← parse line (4 * length line + 4) N_line;
  peek line [];;
  s ← get;
  when (negb (s =? es line)%nat) (panic "syntax");;
  ret (c, nulterminate c (line ++ [0])).
