(* ===== verification/ShFacts.v ===== *)
(** * The shell's parser is correct

    A grammar of command lines, the texts that spell a sentence of it with any
    amount of white space, and the theorem that the parser returns the tree of
    the sentence, with every word in the buffer as a string of its own. *)

From Stdlib Require Import ZArith Lia.
From stdpp Require Import base gmap strings numbers list.
From S2P Require Import Prelude Ulib Sh.
Local Open Scope xv6_scope.

(** ** Tokens and their spelling *)

Inductive tok := W (w : list Z) | Sym (c : Z).

Definition white (c : Z) : Prop := c ∈ whitespace.
Definition wordchar (c : Z) : Prop := c ≠ 0 ∧ c ∉ whitespace ∧ c ∉ symbols.

(** [>>] has the kind ['+']. *)
Definition text (t : tok) : list Z := match t with W w => w | Sym c => if c =? 43 then [62; 62] else [c] end.
Definition kind (t : tok) : Z := match t with W _ => 97 | Sym c => c end.
Definition first (t : tok) : Z := hd 0 (text t).

Definition tok_ok (t : tok) : Prop :=
  match t with W w => w ≠ [] ∧ Forall wordchar w | Sym c => c ∈ 43 :: symbols end.

(** What may follow a token. *)
Definition sep (t : tok) (s : list Z) : Prop :=
  match t with W _ => ¬ wordchar (hd 0 s) | Sym c => c = 62 → hd 0 s ≠ 62 end.

Inductive spells : list tok → list Z → Prop :=
| spells_nil : spells [] []
| spells_cons t ws toks s :
  tok_ok t → Forall white ws → sep t (ws ++ s) → spells toks s → spells (t :: toks) (text t ++ ws ++ s).

(** A word lies at [q .. eq]. *)
Definition word_at (line w : list Z) (x : nat * nat) : Prop :=
  take (length w) (drop x.1 line) = w ∧ x.2 = (x.1 + length w)%nat ∧ Forall wordchar w ∧ ¬ wordchar (byte line x.2) ∧ (x.2 ≤ length line)%nat.

Lemma strchr_elem l c : strchr l c = bool_decide (c ∈ l).
Proof.
  unfold strchr. induction l as [|x l IH]; [done|]. cbn. rewrite IH. destruct (Z.eqb_spec x c) as [->|Hne].
  - symmetry. apply bool_decide_eq_true. by left.
  - cbn. apply bool_decide_ext. rewrite elem_of_cons. naive_solver.
Qed.

Lemma white_cases c : white c → c ≠ 0 ∧ c ∉ symbols.
Proof. unfold white, whitespace, symbols. rewrite !elem_of_cons, !elem_of_nil. intros H. split; lia. Qed.

Lemma sym_cases c : tok_ok (Sym c) → c ∈ [43; 60; 124; 62; 38; 59; 40; 41].
Proof. done. Qed.

Ltac symbol H := apply sym_cases in H; rewrite !elem_of_cons, elem_of_nil in H;
  destruct H as [->|[->|[->|[->|[->|[->|[->|[->|[]]]]]]]]].

Lemma first_sym c : tok_ok (Sym c) → ¬ white (first (Sym c)) ∧ first (Sym c) ≠ 0 ∧ text (Sym c) ≠ [].
Proof. intros H. symbol H; (split; [by intros [_ Hc]%white_cases; apply Hc; set_solver|done]). Qed.

(** The front of a spelling is neither white nor NUL. *)
Lemma spells_front toks s : spells toks s →
  match toks with
  | [] => s = []
  | t :: _ => tok_ok t ∧ hd 0 s = first t ∧ ¬ white (first t) ∧ first t ≠ 0 ∧ s ≠ []
  end.
Proof.
  intros [|t ws toks' s' Ht Hws Hsep Hs]; [done|]. split; [done|]. destruct t as [w|c].
  - destruct Ht as [Hne Hw]. destruct w as [|x w]; [done|]. apply Forall_cons in Hw as [(H1 & H2 & H3) _]. done.
  - destruct (first_sym c Ht) as (H1 & H2 & H3). unfold first in *. by destruct (text (Sym c)).
Qed.

Lemma byte_hd line i : byte line i = hd 0 (drop i line).
Proof. unfold byte. revert i. induction line as [|c l IH]; intros [|i]; [done..|]. cbn. apply IH. Qed.

(** ** The grammar *)

Inductive rkind := RIn | ROut | RApp.
Definition sredir : Type := rkind * list Z.

(** Commands joined by [;], with any number of [&] behind each; pipelines; a
    block in parentheses, or words with redirections between them. *)
Inductive sline := SLast (p : spipe) (bg : nat) | SSeq (p : spipe) (bg : nat) (rest : sline)
with spipe := SOne (e : sexec) | SBar (e : sexec) (rest : spipe)
with sexec := SBlock (l : sline) (rs : list sredir) | SSimple (rs : list sredir) (args : list (list Z * list sredir)).

Definition rsym (k : rkind) : Z := match k with RIn => 60 | ROut => 62 | RApp => 43 end.
Definition rtoks (rs : list sredir) : list tok := rs ≫= fun '(k, w) => [Sym (rsym k); W w].
Definition atoks (args : list (list Z * list sredir)) : list tok := args ≫= fun '(w, rs) => W w :: rtoks rs.

Fixpoint ltoks (l : sline) : list tok :=
  match l with
  | SLast p n => ptoks p ++ replicate n (Sym 38)
  | SSeq p n r => ptoks p ++ replicate n (Sym 38) ++ Sym 59 :: ltoks r
  end
with ptoks (p : spipe) : list tok :=
  match p with SOne e => etoks e | SBar e r => etoks e ++ Sym 124 :: ptoks r end
with etoks (e : sexec) : list tok :=
  match e with
  | SBlock l rs => Sym 40 :: ltoks l ++ Sym 41 :: rtoks rs
  | SSimple rs args => rtoks rs ++ atoks args
  end.

(** No command has more arguments than there is room for. *)
Fixpoint lfits (l : sline) : Prop :=
  match l with SLast p _ => pfits p | SSeq p _ r => pfits p ∧ lfits r end
with pfits (p : spipe) : Prop := match p with SOne e => efits e | SBar e r => efits e ∧ pfits r end
with efits (e : sexec) : Prop :=
  match e with SBlock l _ => lfits l | SSimple _ args => (length args < MAXARGS)%nat end.

(** ** What a sentence means *)

Inductive scmd :=
| XExec (argv : list (list Z))
| XRedir (c : scmd) (file : list Z) (mode fd : Z)
| XPipe (left right : scmd)
| XList (left right : scmd)
| XBack (c : scmd).

Definition rmode (k : rkind) : Z :=
  match k with RIn => O_RDONLY | ROut => Z.lor (Z.lor O_WRONLY O_CREATE) O_TRUNC | RApp => Z.lor O_WRONLY O_CREATE end.
Definition rfd (k : rkind) : Z := match k with RIn => 0 | _ => 1 end.
Definition redirect (c : scmd) (r : sredir) : scmd := XRedir c r.2 (rmode r.1) (rfd r.1).

Fixpoint lmeans (l : sline) : scmd :=
  match l with
  | SLast p n => Nat.iter n XBack (pmeans p)
  | SSeq p n r => XList (Nat.iter n XBack (pmeans p)) (lmeans r)
  end
with pmeans (p : spipe) : scmd := match p with SOne e => emeans e | SBar e r => XPipe (emeans e) (pmeans r) end
with emeans (e : sexec) : scmd :=
  match e with
  | SBlock l rs => foldl redirect (lmeans l) rs
  | SSimple rs args => foldl redirect (XExec (args.*1)) (rs ++ (args ≫= snd))
  end.

Scheme sline_mut := Induction for sline Sort Prop
with spipe_mut := Induction for spipe Sort Prop
with sexec_mut := Induction for sexec Sort Prop.
Combined Scheme sline_ind' from sline_mut, spipe_mut, sexec_mut.

(** How deep the calls go. *)
Fixpoint lheight (l : sline) : nat :=
  match l with SLast p _ => S (pheight p) | SSeq p _ r => S (pheight p `max` lheight r) end
with pheight (p : spipe) : nat := match p with SOne e => S (eheight e) | SBar e r => S (eheight e `max` pheight r) end
with eheight (e : sexec) : nat := match e with SBlock l _ => S (S (lheight l)) | SSimple _ _ => 1 end.

Lemma heights :
  (∀ l, lheight l ≤ 4 * length (ltoks l) + 3)%nat ∧ (∀ p, pheight p ≤ 4 * length (ptoks p) + 2)%nat ∧
  (∀ e, eheight e ≤ 4 * length (etoks e) + 1)%nat.
Proof.
  apply sline_ind'; intros; cbn [lheight pheight eheight ltoks ptoks etoks]; rewrite ?length_app, ?length_replicate; cbn [length];
    rewrite ?length_app; cbn [length]; lia.
Qed.

Section parser.
Context (line : list Z).
Hypothesis clean : 0 ∉ line.

(** The rest of the line from [i] on spells [toks]. *)
Definition at_toks (i : nat) (toks : list tok) : Prop :=
  (i ≤ es line)%nat ∧ ∃ ws s, drop i line = ws ++ s ∧ Forall white ws ∧ spells toks s.

Lemma drop_some i c r : drop i line = c :: r → (i < es line)%nat ∧ drop (S i) line = r ∧ byte line i = c.
Proof.
  intros H. split; [|split].
  - unfold es. apply (f_equal length) in H. rewrite length_drop in H. cbn in H. lia.
  - replace (S i) with (i + 1)%nat by lia. by rewrite <- drop_drop, H.
  - by rewrite byte_hd, H.
Qed.

Lemma skip_white_spec ws : ∀ fuel i s, drop i line = ws ++ s → Forall white ws → ¬ white (hd 0 s) → (length ws ≤ fuel)%nat →
  skip_white line fuel i = (i + length ws)%nat ∧ drop (i + length ws) line = s.
Proof.
  induction ws as [|c ws IH]; intros fuel i s Hd Hws Hs Hf; cbn [length app] in *.
  - rewrite Nat.add_0_r. split; [|done]. destruct fuel as [|fuel]; [done|]. cbn [skip_white].
    rewrite byte_hd, Hd, strchr_elem. rewrite bool_decide_false by done. by rewrite andb_false_r.
  - destruct fuel as [|fuel]; [lia|]. apply Forall_cons in Hws as [Hc Hws]. destruct (drop_some _ _ _ Hd) as (H1 & H2 & H3).
    cbn [skip_white]. rewrite H3, strchr_elem, bool_decide_true by done. destruct (Nat.ltb_spec i (es line)); [|lia]. cbn [andb].
    destruct (IH fuel (S i) s H2 Hws Hs ltac:(lia)) as [-> E]. replace (S i + length ws)%nat with (i + S (length ws))%nat in * by lia. done.
Qed.

Lemma skip_word_spec w : ∀ fuel i s, drop i line = w ++ s → Forall wordchar w → ¬ wordchar (hd 0 s) → (length w ≤ fuel)%nat →
  skip_word line fuel i = (i + length w)%nat ∧ drop (i + length w) line = s.
Proof.
  induction w as [|c w IH]; intros fuel i s Hd Hw Hs Hf; cbn [length app] in *.
  - rewrite Nat.add_0_r. split; [|done]. destruct fuel as [|fuel]; [done|]. cbn [skip_word].
    rewrite byte_hd, Hd, !strchr_elem. destruct (Nat.ltb_spec i (es line)); [|done]. cbn [andb].
    destruct s as [|c s]; [apply (f_equal length) in Hd; rewrite length_drop in Hd; unfold es in *; cbn in Hd; lia|].
    cbn [hd] in *. assert (c ≠ 0) as Hc.
    { intros ->. apply clean. rewrite <- (take_drop i line), Hd. apply elem_of_app. right. by left. }
    destruct (bool_decide_reflect (c ∈ whitespace)), (bool_decide_reflect (c ∈ symbols)); [done..|]. by destruct Hs.
  - destruct fuel as [|fuel]; [lia|]. apply Forall_cons in Hw as [(H0 & H1 & H2) Hw]. destruct (drop_some _ _ _ Hd) as (H3 & H4 & H5).
    cbn [skip_word]. rewrite H5, !strchr_elem, !bool_decide_false by done. destruct (Nat.ltb_spec i (es line)); [|lia]. cbn [andb negb].
    destruct (IH fuel (S i) s H4 Hw Hs ltac:(lia)) as [-> E]. replace (S i + length w)%nat with (i + S (length w))%nat in * by lia. done.
Qed.

Lemma at_toks_len i toks : at_toks i toks → (length toks ≤ es line - i)%nat.
Proof.
  intros (_ & ws & s & Hd & _ & Hs). assert (length toks ≤ length s)%nat as Hl.
  { clear - Hs. induction Hs as [|t ws toks s Ht _ _ _ IH]; [done|]. cbn. rewrite !length_app.
    assert (length (text t) ≠ 0)%nat; [|lia]. destruct t as [w|c].
    - destruct Ht as [Hne _]. by destruct w.
    - destruct (first_sym c Ht) as (_ & _ & H). by destruct (text (Sym c)). }
  apply (f_equal length) in Hd. rewrite length_drop, length_app in Hd. unfold es. lia.
Qed.

(** Past the white space. *)
Lemma at_toks_skip i toks : at_toks i toks →
  let j := skip_white line (es line) i in
  spells toks (drop j line) ∧ at_toks j toks ∧ (toks = [] → j = es line).
Proof.
  intros (Hi & ws & s & Hd & Hw & Hs) j. pose proof (spells_front _ _ Hs) as Hf.
  assert (¬ white (hd 0 s)) as Hn. { destruct toks; [subst s; by intros [? _]%white_cases|]. by destruct Hf as (_ & -> & ? & _). }
  pose proof (f_equal length Hd) as Hl. rewrite length_drop, length_app in Hl.
  destruct (skip_white_spec ws (es line) i s Hd Hw Hn) as [Ej Ed]; [unfold es; lia|]. fold j in Ej. rewrite Ej, Ed.
  split; [done|]. unfold es in *.
  split; [split; [unfold es; lia|by exists [], s]|]. intros ->. subst s. cbn in Hl. lia.
Qed.

Lemma wp_peek i toks set Q : at_toks i toks →
  (∀ j, at_toks j toks → (toks = [] → j = es line) →
     Q (match toks with t :: _ => bool_decide (first t ∈ set) | [] => false end) j) → wp (peek line set) i Q.
Proof.
  intros Ha HQ. destruct (at_toks_skip i toks Ha) as (Hs & Hj & He). unfold peek. wp_simpl. specialize (HQ _ Hj He).
  rewrite byte_hd. pose proof (spells_front _ _ Hs) as Hf. destruct toks as [|t toks]; [by rewrite Hf|].
  destruct Hf as (_ & -> & _ & Hz & _). by rewrite strchr_elem, (proj2 (truthy_true _) Hz).
Qed.

Lemma wp_gettoken_end i Q : at_toks i [] → (∀ j x, at_toks j [] → Q (0, x) j) → wp (gettoken line) i Q.
Proof.
  intros Ha HQ. destruct (at_toks_skip i [] Ha) as (Hs & Hj & _). unfold gettoken. wp_simpl.
  rewrite byte_hd, (spells_front _ _ Hs). cbn [hd Z.eqb]. wp_simpl. apply HQ. by apply at_toks_skip.
Qed.

(** After a token, at [j]. *)
Lemma at_toks_after j ws s toks : (j ≤ es line)%nat → drop j line = ws ++ s → Forall white ws → spells toks s → at_toks (skip_white line (es line) j) toks.
Proof. intros. apply at_toks_skip. split; [done|]. by exists ws, s. Qed.

Lemma wp_gettoken i t toks Q : at_toks i (t :: toks) →
  (∀ j x, at_toks j toks → (∀ w, t = W w → word_at line w x) → Q (kind t, x) j) → wp (gettoken line) i Q.
Proof.
  intros Ha HQ. destruct (at_toks_skip i (t :: toks) Ha) as (Hs & _ & _). unfold gettoken. wp_simpl.
  set (j := skip_white line (es line) i) in *. clearbody j. pose proof (spells_front _ _ Hs) as (Ht & Hh & _ & Hz & _).
  inversion Hs as [|t' ws toks' s' _ Hws Hsep Hs' E1 E2]; subst t' toks'. symmetry in E2.
  rewrite (byte_hd _ j), Hh. destruct (Z.eqb_spec (first t) 0) as [?|_]; [done|].
  destruct t as [w|c].
  - destruct Ht as [Hne Hw]. unfold first in *. cbn [text] in *. destruct w as [|x w]; [done|]. cbn [hd].
    pose proof Hw as [(H1 & H2 & H3) _]%Forall_cons.
    assert (strchr [124; 40; 41; 59; 38; 60] x = false) as ->.
    { rewrite strchr_elem. apply bool_decide_false. unfold symbols in H3. rewrite !elem_of_cons in *. tauto. }
    destruct (Z.eqb_spec x 62) as [->|_]; [destruct H3; unfold symbols; set_solver|].
    pose proof (f_equal length E2) as Hl. rewrite length_drop, !length_app in Hl.
    destruct (skip_word_spec (x :: w) (es line) j (ws ++ s') E2 Hw Hsep) as [-> Ed]; [unfold es; lia|].
    wp_simpl. apply HQ; [eapply at_toks_after; [unfold es; cbn [length] in *; lia|done..]|]. intros w' [= <-]. split; [cbn [fst]; by rewrite E2, take_app_length|].
    split; [done|]. split; [done|]. split; [by rewrite byte_hd; cbn [snd]; rewrite Ed|cbn [snd length] in *; lia].
  - assert (∀ n, length (text (Sym c)) = n → at_toks (skip_white line (es line) (j + n)) toks) as Hafter.
    { intros n <-. pose proof (f_equal length E2) as Hl. rewrite length_drop, length_app in Hl.
      assert (length (text (Sym c)) ≠ 0)%nat by (destruct (first_sym c Ht) as (_ & _ & H); by destruct (text (Sym c))).
      apply (at_toks_after _ ws s'); [unfold es; lia| |done|done]. by rewrite <- drop_drop, E2, drop_app_length. }
    assert (byte line (S j) = hd 0 (drop 1 (text (Sym c) ++ ws ++ s'))) as Hb.
    { rewrite byte_hd. replace (S j) with (j + 1)%nat by lia. by rewrite <- drop_drop, E2. }
    symbol Ht; unfold first in *; cbn [text hd Z.eqb Pos.eqb kind] in *.
    1: change (62 =? 62) with true; cbn [strchr existsb Z.eqb Pos.eqb orb]; rewrite Hb; change (hd 0 (drop 1 ([62; 62] ++ ws ++ s'))) with 62; change (62 =? 62) with true; cbn iota.
    4: cbn [strchr existsb Z.eqb Pos.eqb orb]; rewrite Hb; change (drop 1 ([62] ++ ws ++ s')) with (ws ++ s');
       destruct (Z.eqb_spec (hd 0 (ws ++ s')) 62) as [E|_]; [by destruct Hsep|].
    all: wp_simpl; apply HQ; [|by intros ? [=]].
    1: specialize (Hafter 2%nat eq_refl). 2-8: specialize (Hafter 1%nat eq_refl).
    all: try (replace (S (S j)) with (j + 2)%nat by lia; exact Hafter). all: replace (S j) with (j + 1)%nat by lia; exact Hafter.
Qed.

(** ** Redirections and arguments *)

(** A token list that goes on with a symbol of [set], or ends. *)
Definition follow (set : list Z) (toks : list tok) : Prop :=
  match toks with [] => True | Sym c :: _ => c ∈ set | W _ :: _ => False end.

(** ... or with a word. *)
Definition no_redir (toks : list tok) : Prop := match toks with t :: _ => first t ∉ [60; 62] | [] => True end.

Definition redir_is (r : redir) (x : sredir) : Prop :=
  let '(q, eq, mode, fd) := r in word_at line x.2 (q, eq) ∧ mode = rmode x.1 ∧ fd = rfd x.1.

Lemma wp_parseredirs rs : ∀ fuel i rest Q, at_toks i (rtoks rs ++ rest) → no_redir rest → (length rs < fuel)%nat →
  (∀ rs' j, Forall2 redir_is rs' rs → at_toks j rest → Q rs' j) → wp (parseredirs line fuel) i Q.
Proof.
  induction rs as [|[k w] rs IH]; intros fuel i rest Q Ha Hn Hf HQ; (destruct fuel as [|fuel]; [cbn in Hf; lia|]); cbn [parseredirs]; wp_simpl.
  - eapply wp_peek; [exact Ha|]. intros j Hj _. cbn [app rtoks mbind list_bind] in *.
    assert ((match rest with t :: _ => bool_decide (first t ∈ [60; 62]) | [] => false end) = false) as ->.
    { destruct rest; [done|]. by apply bool_decide_false. }
    cbn [negb]. wp_simpl. by apply HQ.
  - change (rtoks ((k, w) :: rs) ++ rest) with (Sym (rsym k) :: W w :: rtoks rs ++ rest) in Ha.
    eapply wp_peek; [exact Ha|]. intros j Hj _. cbv beta iota. rewrite bool_decide_true by (destruct k; unfold first; cbn; set_solver).
    cbn [negb]. wp_simpl. eapply wp_gettoken; [exact Hj|]. intros j1 x1 Hj1 _. wp_simpl.
    eapply wp_gettoken; [exact Hj1|]. intros j2 [q eq] Hj2 Hw. cbn [kind]. change (97 =? 97) with true. cbn [negb]. wp_simpl.
    eapply IH; [exact Hj2|done|cbn in Hf; lia|]. intros rs' j3 Hrs Hj3. wp_simpl. specialize (Hw w eq_refl).
    destruct k; cbn [rsym Z.eqb Pos.eqb]; (apply HQ; [constructor; [done|exact Hrs]|done]).
Qed.

Lemma at_toks_ok i toks : at_toks i toks → Forall tok_ok toks.
Proof. intros (_ & ws & s & _ & _ & Hs). induction Hs; by constructor. Qed.

Lemma follow_first set toks : set ⊆ [124; 41; 38; 59] → follow set toks → no_redir toks.
Proof.
  intros Hset Hf. destruct toks as [|[w|c] toks]; [done|done|]. cbn in Hf. apply Hset in Hf. unfold no_redir, first, text.
  rewrite !elem_of_cons, elem_of_nil in Hf. destruct Hf as [->|[->|[->|[->|[]]]]]; cbn; set_solver by lia.
Qed.

Lemma no_redir_args args rest : Forall tok_ok (atoks args ++ rest) → follow [124; 41; 38; 59] rest → no_redir (atoks args ++ rest).
Proof.
  intros Ha Hf. destruct args as [|[w rs] args]; [by apply (follow_first _ _ (reflexivity _))|].
  cbn in Ha. apply Forall_cons in Ha as [[Hne Hw] _]. unfold no_redir, first. cbn.
  destruct w as [|x w]; [done|]. apply Forall_cons in Hw as [(_ & _ & Hx) _]. cbn. intros Hin. apply Hx. unfold symbols. set_solver.
Qed.

Lemma length_rtoks rs : length (rtoks rs) = (2 * length rs)%nat.
Proof. induction rs as [|[k w] rs IH]; [done|]. cbn [length]. change (rtoks ((k, w) :: rs)) with (Sym (rsym k) :: W w :: rtoks rs). cbn [length]. lia. Qed.

Lemma length_atoks args : (length args ≤ length (atoks args))%nat.
Proof.
  induction args as [|[w rs] args IH]; [done|]. change (atoks ((w, rs) :: args)) with ((W w :: rtoks rs) ++ atoks args).
  rewrite length_app. cbn [length]. lia.
Qed.

Definition arg_is (x : nat * nat) (a : list Z * list sredir) : Prop := word_at line a.1 x.

Lemma wp_args_loop args : ∀ fuel argc i rest Q, at_toks i (atoks args ++ rest) → follow [124; 41; 38; 59] rest →
  (argc + length args < MAXARGS)%nat → (length args < fuel)%nat →
  (∀ ws rs j, Forall2 arg_is ws args → Forall2 redir_is rs (args ≫= snd) → at_toks j rest → Q (ws, rs) j) →
  wp (args_loop line fuel argc) i Q.
Proof.
  induction args as [|[w rs] args IH]; intros fuel argc i rest Q Ha Hf Hm Hl HQ; (destruct fuel as [|fuel]; [cbn in Hl; lia|]); cbn [args_loop]; wp_simpl.
  - eapply wp_peek; [exact Ha|]. intros j Hj _. cbn [app atoks mbind list_bind] in *. destruct rest as [|[w|c] rest]; [|done|].
    + wp_simpl. eapply wp_gettoken_end; [exact Hj|]. intros j1 [q eq] Hj1. change (0 =? 0) with true. wp_simpl. by apply HQ.
    + cbn in Hf. rewrite bool_decide_true; [wp_simpl; by apply HQ|]. unfold first, text.
      rewrite !elem_of_cons, elem_of_nil in *. destruct Hf as [->|[->|[->|[->|[]]]]]; cbn; tauto.
  - change (atoks ((w, rs) :: args)) with ((W w :: rtoks rs) ++ atoks args) in Ha. rewrite <- app_assoc in Ha.
    change ((W w :: rtoks rs) ++ atoks args ++ rest) with (W w :: rtoks rs ++ atoks args ++ rest) in Ha.
    eapply wp_peek; [exact Ha|]. intros j Hj _. cbv beta iota. rewrite bool_decide_false.
    2: { apply at_toks_ok in Ha. apply Forall_cons in Ha as [[Hne Hw] _]. destruct w as [|x w]; [done|].
         apply Forall_cons in Hw as [(_ & _ & Hx) _]. intros Hin. apply Hx. unfold symbols, first in *. cbn in Hin. set_solver. }
    wp_simpl. eapply wp_gettoken; [exact Hj|]. intros j1 [q eq] Hj1 Hw. cbn [kind]. change (97 =? 0) with false. change (97 =? 97) with true.
    cbn [negb]. wp_simpl. cbn [length] in Hm, Hl. destruct (Nat.leb_spec MAXARGS (S argc)); [lia|]. wp_simpl.
    pose proof (at_toks_len _ _ Hj1) as Hlen. rewrite !length_app, length_rtoks in Hlen.
    eapply wp_parseredirs; [exact Hj1| |lia|].
    { apply no_redir_args; [|done]. by apply at_toks_ok, Forall_app in Hj1 as [_ ?]. }
    intros rs' j2 Hrs Hj2. wp_simpl. eapply IH; [exact Hj2|done|lia|lia|]. intros ws rs2 j3 Hws Hrs2 Hj3. wp_simpl.
    apply HQ; [constructor; [by apply Hw|done]| |done]. cbn. by apply Forall2_app.
Qed.

(** ** Trees *)

(** The tree of a command with its words still in the line. *)
Fixpoint tree_is (c : cmd) (x : scmd) : Prop :=
  match c, x with
  | EXEC ws, XExec argv => Forall2 (fun x w => word_at line w x) ws argv
  | REDIR c q eq mode fd, XRedir x w mode' fd' => tree_is c x ∧ word_at line w (q, eq) ∧ mode = mode' ∧ fd = fd'
  | PIPE l r, XPipe l' r' | LIST l r, XList l' r' => tree_is l l' ∧ tree_is r r'
  | BACK c, XBack x => tree_is c x
  | _, _ => False
  end.

Lemma tree_redirs rs xs : Forall2 redir_is rs xs → ∀ c x, tree_is c x → tree_is (foldl redircmd c rs) (foldl redirect x xs).
Proof.
  induction 1 as [|[[[q eq] mode] fd] [k w] rs xs (H1 & -> & ->) _ IH]; intros c x Hc; [done|]. cbn [foldl]. by apply IH.
Qed.

Lemma peek_follow (set set' : list Z) toks : follow set toks → (∀ c, c ∈ set → first (Sym c) ∉ set') →
  (match toks with t :: _ => bool_decide (first t ∈ set') | [] => false end) = false.
Proof. intros Hf Hs. destruct toks as [|[w|c] toks]; [done|done|]. by apply bool_decide_false, Hs. Qed.

Lemma wp_backs n : ∀ fuel c i rest Q, at_toks i (replicate n (Sym 38) ++ rest) → follow [59; 41] rest → (n < fuel)%nat →
  (∀ j, at_toks j rest → Q (Nat.iter n BACK c) j) → wp (backs line fuel c) i Q.
Proof.
  induction n as [|n IH]; intros fuel c i rest Q Ha Hf Hn HQ; (destruct fuel as [|fuel]; [lia|]); cbn [backs]; wp_simpl.
  - eapply wp_peek; [exact Ha|]. intros j Hj _. cbn [replicate app] in *.
    rewrite (peek_follow [59; 41]); [wp_simpl; by apply HQ|done|]. unfold first, text. set_solver by (cbn; lia).
  - eapply wp_peek; [exact Ha|]. intros j Hj _. cbn [replicate app]. rewrite bool_decide_true by (unfold first; cbn; set_solver).
    wp_simpl. eapply wp_gettoken; [exact Hj|]. intros j1 x Hj1 _. eapply IH; [exact Hj1|done|lia|]. intros j2 Hj2.
    rewrite <- Nat.iter_succ_r. by apply HQ.
Qed.

Lemma tree_backs n c x : tree_is c x → tree_is (Nat.iter n BACK c) (Nat.iter n XBack x).
Proof. intros H. induction n as [|n IH]; [done|]. exact IH. Qed.

(** What the functions do on a sentence. *)
Definition parses {A} (m : M nat cmd) (toks : list tok) (set : list Z) (x : A → scmd) (a : A) : Prop :=
  ∀ i rest Q, at_toks i (toks ++ rest) → follow set rest → (∀ c j, tree_is c (x a) → at_toks j rest → Q c j) → wp m i Q.

Lemma follow_weaken set set' toks : set ⊆ set' → follow set toks → follow set' toks.
Proof. intros Hs Hf. destruct toks as [|[w|c] toks]; [done|done|]. by apply Hs. Qed.

(** The next token is the symbol that is looked for. *)
Lemma wp_peek_sym i c toks set Q : at_toks i (Sym c :: toks) → first (Sym c) ∈ set →
  (∀ j, at_toks j (Sym c :: toks) → Q true j) → wp (peek line set) i Q.
Proof. intros Ha Hs HQ. eapply wp_peek; [exact Ha|]. intros j Hj _. cbv beta iota. rewrite bool_decide_true by done. by apply HQ. Qed.

(** ... or it is not. *)
Lemma wp_peek_no i toks set set' Q : at_toks i toks → follow set' toks → (∀ c, c ∈ set' → first (Sym c) ∉ set) →
  (∀ j, at_toks j toks → Q false j) → wp (peek line set) i Q.
Proof. intros Ha Hf Hs HQ. eapply wp_peek; [exact Ha|]. intros j Hj _. rewrite (peek_follow set'); [by apply HQ|done|done]. Qed.

(** The symbols' first characters are those of their kinds. *)
Ltac syms := unfold first, text, follow; cbn; set_solver by lia.

Lemma parse_last fuel p n : parses (parse line fuel N_pipe) (ptoks p) [38; 59; 41] pmeans p →
  parses (parse line (S fuel) N_line) (ltoks (SLast p n)) [41] lmeans (SLast p n).
Proof.
  intros IH i rest Q Ha Hf HQ. cbn [parse ltoks] in *. unfold parseline. rewrite <- app_assoc in Ha. wp_simpl. eapply IH; [exact Ha| |].
  { destruct n; [by apply (follow_weaken [41]); [set_solver|]|syms]. }
  intros c j Hc Hj. wp_simpl. pose proof (at_toks_len _ _ Hj) as Hlen. rewrite length_app, length_replicate in Hlen.
  eapply wp_backs; [exact Hj|by apply (follow_weaken [41]); [set_solver|]|lia|]. intros j1 Hj1. wp_simpl.
  eapply wp_peek_no; [exact Hj1|exact Hf|syms|]. intros j2 Hj2. wp_simpl. apply HQ; [by apply tree_backs|done].
Qed.

Lemma parse_seq fuel p n l : parses (parse line fuel N_pipe) (ptoks p) [38; 59; 41] pmeans p →
  parses (parse line fuel N_line) (ltoks l) [41] lmeans l →
  parses (parse line (S fuel) N_line) (ltoks (SSeq p n l)) [41] lmeans (SSeq p n l).
Proof.
  intros IH IHl i rest Q Ha Hf HQ. cbn [parse ltoks] in *. unfold parseline. rewrite <- !app_assoc in Ha. wp_simpl.
  eapply IH; [exact Ha|destruct n; syms|]. intros c j Hc Hj. wp_simpl.
  pose proof (at_toks_len _ _ Hj) as Hlen. rewrite length_app, length_replicate in Hlen.
  eapply wp_backs; [exact Hj|syms|lia|]. intros j1 Hj1. wp_simpl. cbn [app] in Hj1.
  eapply wp_peek_sym; [exact Hj1|syms|]. intros j2 Hj2. wp_simpl.
  eapply wp_gettoken; [exact Hj2|]. intros j3 x3 Hj3 _. wp_simpl. eapply IHl; [exact Hj3|done|].
  intros c2 j4 Hc2 Hj4. wp_simpl. apply HQ; [|done]. split; [by apply tree_backs|done].
Qed.

Lemma parse_one fuel e : parses (parse line fuel N_exec) (etoks e) [124; 41; 38; 59] emeans e →
  parses (parse line (S fuel) N_pipe) (ptoks (SOne e)) [38; 59; 41] pmeans (SOne e).
Proof.
  intros IH i rest Q Ha Hf HQ. cbn [parse ptoks] in *. unfold parsepipe. wp_simpl.
  eapply IH; [exact Ha|by eapply follow_weaken; [|exact Hf]; set_solver|]. intros c j Hc Hj. wp_simpl.
  eapply wp_peek_no; [exact Hj|exact Hf|syms|]. intros j2 Hj2. wp_simpl. by apply HQ.
Qed.

Lemma parse_bar fuel e p : parses (parse line fuel N_exec) (etoks e) [124; 41; 38; 59] emeans e →
  parses (parse line fuel N_pipe) (ptoks p) [38; 59; 41] pmeans p →
  parses (parse line (S fuel) N_pipe) (ptoks (SBar e p)) [38; 59; 41] pmeans (SBar e p).
Proof.
  intros IH IHp i rest Q Ha Hf HQ. cbn [parse ptoks] in *. unfold parsepipe. rewrite <- app_assoc in Ha. wp_simpl.
  eapply IH; [exact Ha|syms|]. intros c j Hc Hj. wp_simpl. cbn [app] in Hj. eapply wp_peek_sym; [exact Hj|syms|]. intros j2 Hj2.
  wp_simpl. eapply wp_gettoken; [exact Hj2|]. intros j3 x3 Hj3 _. wp_simpl. eapply IHp; [exact Hj3|done|].
  intros c2 j4 Hc2 Hj4. wp_simpl. apply HQ; [by split|done].
Qed.

Lemma parse_block fuel l rs : parses (parse line fuel N_line) (ltoks l) [41] lmeans l →
  parses (parse line (S (S fuel)) N_exec) (etoks (SBlock l rs)) [124; 41; 38; 59] emeans (SBlock l rs).
Proof.
  intros IH i rest Q Ha Hf HQ. cbn [parse etoks] in *. unfold parseexec, parseblock. rewrite <- app_comm_cons, <- app_assoc in Ha. wp_simpl.
  eapply wp_peek_sym; [exact Ha|syms|]. intros j Hj. wp_simpl. eapply wp_peek_sym; [exact Hj|syms|]. intros j0 Hj0.
  cbn [negb]. wp_simpl. eapply wp_gettoken; [exact Hj0|]. intros j1 x1 Hj1 _. wp_simpl.
  eapply IH; [exact Hj1|syms|]. intros c j2 Hc Hj2. wp_simpl. cbn [app] in Hj2.
  eapply wp_peek_sym; [exact Hj2|syms|]. intros j3 Hj3. cbn [negb]. wp_simpl.
  eapply wp_gettoken; [exact Hj3|]. intros j4 x4 Hj4 _. wp_simpl.
  pose proof (at_toks_len _ _ Hj4) as Hlen. rewrite length_app, length_rtoks in Hlen.
  eapply wp_parseredirs; [exact Hj4|by apply (follow_first _ _ (reflexivity _))|lia|]. intros rs' j5 Hrs Hj5. wp_simpl.
  apply HQ; [|done]. cbn [emeans]. by apply tree_redirs.
Qed.

Lemma parse_simple fuel rs args : (length args < MAXARGS)%nat →
  parses (parse line (S fuel) N_exec) (etoks (SSimple rs args)) [124; 41; 38; 59] emeans (SSimple rs args).
Proof.
  intros Hm i rest Q Ha Hf HQ. cbn [parse etoks] in *. unfold parseexec. rewrite <- app_assoc in Ha. wp_simpl.
  eapply wp_peek; [exact Ha|]. intros j Hj _.
  assert ((match rtoks rs ++ atoks args ++ rest with t :: _ => bool_decide (first t ∈ [40]) | [] => false end) = false) as ->.
  { pose proof (at_toks_ok _ _ Ha) as Hok. destruct rs as [|[k w] rs]; [|destruct k; apply bool_decide_false; unfold first; cbn; set_solver by lia].
    destruct args as [|[w rs] args]; [apply (peek_follow _ _ _ Hf); unfold first, text; set_solver by (cbn; lia)|].
    cbn in Hok. apply Forall_cons in Hok as [[Hne Hw] _]. apply bool_decide_false. destruct w as [|x w]; [done|].
    apply Forall_cons in Hw as [(_ & _ & Hx) _]. unfold first, symbols in *. cbn. set_solver. }
  wp_simpl. pose proof (at_toks_len _ _ Hj) as Hlen. rewrite !length_app, length_rtoks in Hlen. pose proof (length_atoks args) as Hla.
  eapply wp_parseredirs; [exact Hj|apply no_redir_args; [|done]; by apply at_toks_ok, Forall_app in Hj as [_ ?]|lia|].
  intros rs1 j1 Hrs1 Hj1. wp_simpl. eapply wp_args_loop; [exact Hj1|done|lia|lia|]. intros ws rs2 j2 Hws Hrs2 Hj2. wp_simpl.
  apply HQ; [|done]. cbn [emeans]. apply tree_redirs; [by apply Forall2_app|]. cbn. rewrite Forall2_fmap_r. exact Hws.
Qed.

Lemma parse_sentence :
  (∀ l fuel, lfits l → (lheight l ≤ fuel)%nat → parses (parse line fuel N_line) (ltoks l) [41] lmeans l) ∧
  (∀ p fuel, pfits p → (pheight p ≤ fuel)%nat → parses (parse line fuel N_pipe) (ptoks p) [38; 59; 41] pmeans p) ∧
  (∀ e fuel, efits e → (eheight e ≤ fuel)%nat → parses (parse line fuel N_exec) (etoks e) [124; 41; 38; 59] emeans e).
Proof.
  apply sline_ind'.
  - intros p IH n [|fuel] Hfit Hh; cbn in Hh; [lia|]. apply parse_last, IH; [done|lia].
  - intros p IH n l IHl [|fuel] [Hfit Hfitl] Hh; cbn in Hh; [lia|]. apply parse_seq; [apply IH|apply IHl]; done || lia.
  - intros e IH [|fuel] Hfit Hh; cbn in Hh; [lia|]. apply parse_one, IH; [done|lia].
  - intros e IH p IHp [|fuel] [Hfit Hfitp] Hh; cbn in Hh; [lia|]. apply parse_bar; [apply IH|apply IHp]; done || lia.
  - intros l IH rs [|[|fuel]] Hfit Hh; cbn in Hh; [lia|lia|]. apply parse_block, IH; [done|lia].
  - intros rs args [|fuel] Hfit Hh; cbn in Hh; [lia|]. by apply parse_simple.
Qed.

(** ** NUL-termination *)

(** Where a tree's words end. *)
Fixpoint ends (c : cmd) : list nat :=
  match c with
  | EXEC argv => @snd nat nat <$> argv
  | REDIR c _ efile _ _ => efile :: ends c
  | PIPE l r | LIST l r => ends l ++ ends r
  | BACK c => ends c
  end.

Lemma zero_args (argv : list (nat * nat)) : ∀ buf p, foldl (fun b '(_, eq) => <[eq := 0]> b) buf argv !! p =
  if decide (p ∈ argv.*2 ∧ (p < length buf)%nat) then Some 0 else buf !! p.
Proof.
  induction argv as [|[q eq] argv IH]; intros buf p; cbn [foldl fmap list_fmap fst snd].
  - rewrite decide_False; [done|]. by intros [?%not_elem_of_nil _].
  - rewrite IH, length_insert, list_lookup_insert. cbn [snd]. destruct (decide (p ∈ argv.*2 ∧ _)) as [[H1 H2]|H1].
    + rewrite decide_True; [done|]. split; [by right|done].
    + case_decide as H2.
      * destruct H2 as [-> H2]. rewrite decide_True; [done|]. split; [by left|done].
      * rewrite decide_False; [done|]. rewrite elem_of_cons. naive_solver.
Qed.

Lemma nulterminate_lookup c : ∀ buf p, length (nulterminate c buf) = length buf ∧
  nulterminate c buf !! p = if decide (p ∈ ends c ∧ (p < length buf)%nat) then Some 0 else buf !! p.
Proof.
  induction c as [argv|c IH q eq mode fd|l IHl r IHr|l IHl r IHr|c IH]; intros buf p; cbn [nulterminate ends].
  - split; [|apply zero_args]. revert buf. induction argv as [|[q eq] argv IH]; intros buf; [done|]. cbn. by rewrite IH, length_insert.
  - destruct (IH buf p) as [Hl Hp]. rewrite length_insert, list_lookup_insert, Hl, Hp. split; [done|].
    repeat case_decide; rewrite ?elem_of_cons in *; naive_solver.
  - destruct (IHl buf p) as [Hl1 Hp1], (IHr (nulterminate l buf) p) as [Hl2 Hp2]. rewrite Hl2, Hp2, Hl1, Hp1. split; [done|].
    repeat case_decide; rewrite ?elem_of_app in *; naive_solver.
  - destruct (IHl buf p) as [Hl1 Hp1], (IHr (nulterminate l buf) p) as [Hl2 Hp2]. rewrite Hl2, Hp2, Hl1, Hp1. split; [done|].
    repeat case_decide; rewrite ?elem_of_app in *; naive_solver.
  - apply IH.
Qed.

(** The tree with the strings it points to. *)
Fixpoint strings (buf : list Z) (c : cmd) : scmd :=
  match c with
  | EXEC argv => XExec ((fun x => cstr (drop x.1 buf)) <$> argv)
  | REDIR c q _ mode fd => XRedir (strings buf c) (cstr (drop q buf)) mode fd
  | PIPE l r => XPipe (strings buf l) (strings buf r)
  | LIST l r => XList (strings buf l) (strings buf r)
  | BACK c => XBack (strings buf c)
  end.

(** [buf] has a NUL at [E] and is the line elsewhere. *)
Lemma cstr_word buf (E : list nat) w y :
  (∀ p, buf !! p = if decide (p ∈ E ∧ (p < length (line ++ [0%Z]))%nat) then Some 0 else (line ++ [0]) !! p) →
  (∀ e, e ∈ E → ¬ wordchar (byte line e)) → word_at line w y → y.2 ∈ E → cstr (drop y.1 buf) = w.
Proof.
  intros Hb HE (Ht & He & Hw & Hn & Hle) Hin. destruct y as [q eq]. cbn [fst snd] in *. subst eq.
  assert (∀ j c, w !! j = Some c → buf !! (q + j)%nat = Some c ∧ c ≠ 0) as Hj.
  { intros j c Hc. rewrite Forall_lookup in Hw. pose proof (Hw _ _ Hc) as Hwc. split; [|by destruct Hwc].
    assert (line !! (q + j)%nat = Some c) as Hlc.
    { rewrite <- Ht in Hc. apply lookup_take_Some in Hc as [Hc _]. by rewrite lookup_drop in Hc. }
    rewrite Hb, decide_False; [by apply lookup_app_l_Some|]. intros [HiE _]. apply (HE _ HiE).
    unfold byte. by rewrite (nth_lookup_Some _ _ _ _ Hlc). }
  assert (buf !! (q + length w)%nat = Some 0) as H0.
  { rewrite Hb, decide_True; [done|]. split; [done|]. rewrite length_app. cbn. lia. }
  clear - Hj H0. revert q Hj H0. induction w as [|c w IH]; intros q Hj H0; cbn [length] in H0.
  - rewrite Nat.add_0_r in H0. by rewrite (drop_S _ _ _ H0).
  - destruct (Hj 0%nat c eq_refl) as [H1 Hc]. rewrite Nat.add_0_r in H1. rewrite (drop_S _ _ _ H1). cbn [cstr].
    rewrite (proj2 (truthy_true c) Hc). f_equal. apply IH.
    + intros j d Hd. replace (S q + j)%nat with (q + S j)%nat by lia. by apply Hj.
    + by replace (S q + length w)%nat with (q + S (length w))%nat by lia.
Qed.

Lemma tree_ends c x : tree_is c x → ∀ e, e ∈ ends c → ¬ wordchar (byte line e).
Proof.
  revert x. induction c as [argv|c IH q eq mode fd|l IHl r IHr|l IHl r IHr|c IH]; intros x Hx e He;
    destruct x as [argv'|x w mode' fd'|l' r'|l' r'|x]; try done; cbn [tree_is ends] in *.
  - apply list_elem_of_fmap in He as (y & -> & Hy). apply list_elem_of_lookup in Hy as [k Hk].
    destruct (Forall2_lookup_l _ _ _ _ _ Hx Hk) as (w & _ & _ & _ & _ & H & _). done.
  - destruct Hx as (Hc & (_ & _ & _ & Hw & _) & _). apply elem_of_cons in He as [->|He]; [done|by eapply IH].
  - destruct Hx as [H1 H2]. apply elem_of_app in He as [He|He]; eauto.
  - destruct Hx as [H1 H2]. apply elem_of_app in He as [He|He]; eauto.
  - eauto.
Qed.

Lemma strings_tree buf (E : list nat) : (∀ w y, word_at line w y → y.2 ∈ E → cstr (drop y.1 buf) = w) →
  ∀ c x, tree_is c x → (∀ e, e ∈ ends c → e ∈ E) → strings buf c = x.
Proof.
  intros HE. induction c as [argv|c IH q eq mode fd|l IHl r IHr|l IHl r IHr|c IH]; intros x Hx Hs;
    destruct x as [argv'|x w mode' fd'|l' r'|l' r'|x]; try done; cbn [tree_is ends strings] in *.
  - f_equal. induction Hx as [|y w ys ws Hy _ IH]; [done|]. cbn in *. f_equal; [apply HE; [done|apply Hs; by left]|].
    apply IH. intros e He. apply Hs. by right.
  - destruct Hx as (Hc & Hw & -> & ->). f_equal; [apply IH; [done|]|].
    + intros e He. apply Hs. by right.
    + apply (HE w (q, eq)); [done|]. apply Hs. by left.
  - destruct Hx as [H1 H2]. f_equal; [apply IHl|apply IHr]; try done; intros e He; apply Hs, elem_of_app; auto.
  - destruct Hx as [H1 H2]. f_equal; [apply IHl|apply IHr]; try done; intros e He; apply Hs, elem_of_app; auto.
  - f_equal. by apply IH.
Qed.

End parser.

Lemma wp_parsecmd l ws s :
  lfits l → Forall white ws → spells (ltoks l) s → 0 ∉ ws ++ s →
  wp (parsecmd (ws ++ s)) 0%nat (fun r _ => strings r.2 r.1 = lmeans l).
Proof.
  intros Hfit Hws Hs Hc. set (line := ws ++ s) in *. assert (at_toks line 0 (ltoks l)) as Ha by (split; [lia|by exists ws, s]).
  unfold parsecmd. wp_simpl. destruct (parse_sentence line Hc) as [Hp _]. pose proof (at_toks_len line 0 _ Ha) as Hlen.
  destruct heights as [Hh _]. specialize (Hh l). rewrite Nat.sub_0_r in Hlen. unfold es in Hlen.
  eapply (Hp l (4 * length line + 4)%nat Hfit ltac:(lia) 0%nat []); [by rewrite app_nil_r|done|]. intros c j Hc' Hj. wp_simpl.
  eapply wp_peek; [exact Hj|]. intros j1 Hj1 He. wp_simpl.
  rewrite (He eq_refl), Nat.eqb_refl. cbn [negb]. wp_simpl. cbn [fst snd].
  apply (strings_tree line _ (ends c)); [|done|done]. intros w y Hw Hy. eapply (cstr_word line); [|by eapply tree_ends|done|done].
  intros p. apply nulterminate_lookup.
Qed.

(** ** Theorems *)

(** C18. The parser accepts every sentence of the grammar, with any white space
    between its words, and returns its tree; and in the buffer with the NULs
    that [nulterminate] writes, every argument and file name the tree points to
    is the word of the sentence. *)
Theorem parsecmd_correct l ws s :
  lfits l → Forall white ws → spells (ltoks l) s → 0 ∉ ws ++ s →
  wp (parsecmd (ws ++ s)) 0%nat (fun r _ => strings r.2 r.1 = lmeans l).
Proof. apply wp_parsecmd. Qed.

(** [ab <f | c &] *)
Definition sentence : sline := SLast (SBar (SSimple [] [([97; 98], [(RIn, [102])])]) (SOne (SSimple [] [([99], [])]))) 1.
Definition sentence_text : list Z := [97; 98; 32; 60; 102; 32; 124; 32; 99; 32; 38; 10].

#[global] Instance white_dec c : Decision (white c).
Proof. unfold white. apply _. Defined.
#[global] Instance wordchar_dec c : Decision (wordchar c).
Proof. unfold wordchar. apply _. Defined.
#[global] Instance tok_ok_dec t : Decision (tok_ok t).
Proof. destruct t; cbn; apply _. Defined.
#[global] Instance sep_dec t s : Decision (sep t s).
Proof. destruct t; cbn; apply _. Defined.

Lemma spells_step t ws toks s s' : bool_decide (s' = text t ++ ws ++ s ∧ tok_ok t ∧ Forall white ws ∧ sep t (ws ++ s)) = true →
  spells toks s → spells (t :: toks) s'.
Proof. intros (-> & H1 & H2 & H3)%bool_decide_eq_true H4. by constructor. Qed.

Lemma sentence_spelled : spells (ltoks sentence) sentence_text.
Proof.
  cbn. apply (spells_step _ [32] _ (drop 3 sentence_text)); [vm_compute; reflexivity|].
  apply (spells_step _ [] _ (drop 4 sentence_text)); [vm_compute; reflexivity|].
  apply (spells_step _ [32] _ (drop 6 sentence_text)); [vm_compute; reflexivity|].
  apply (spells_step _ [32] _ (drop 8 sentence_text)); [vm_compute; reflexivity|].
  apply (spells_step _ [32] _ (drop 10 sentence_text)); [vm_compute; reflexivity|].
  apply (spells_step _ [10] _ []); [vm_compute; reflexivity|]. constructor.
Qed.

Lemma parsecmd_correct_witness :
  wp (parsecmd ([32] ++ sentence_text)) 0%nat (fun r _ => strings r.2 r.1 =
    XBack (XPipe (XRedir (XExec [[97; 98]]) [102] O_RDONLY 0) (XExec [[99]]))).
Proof.
  apply (parsecmd_correct sentence [32] sentence_text);
    [cbn; unfold MAXARGS; lia|apply (bool_decide_unpack _); vm_compute; exact I|exact sentence_spelled|
     apply (bool_decide_unpack _); vm_compute; exact I].
Defined.
