(* ===== verification/ShTotal.v ===== *)
(** * The shell's parser always answers

    On every line the parser returns a tree or ends the shell with a message:
    each call consumes input, so that the calls stay within the depth allowed. *)

From Stdlib Require Import ZArith Lia.
From stdpp Require Import base gmap strings numbers list.
From S2P Require Import Prelude Ulib Sh ShFacts.
Local Open Scope xv6_scope.

(** [m] returns with [Q], or panics. *)
Definition settles {A} (m : M nat A) (i : nat) (Q : A → nat → Prop) : Prop :=
  match m i with Ret a j => Q a j | Panic _ => True | _ => False end.

Lemma settles_bind {A B} (m : M nat A) (k : A → M nat B) i Q :
  settles (bind m k) i Q = settles m i (fun a j => settles (k a) j Q).
Proof. unfold settles, bind. by destruct (m i). Qed.

Lemma settles_ret {A} (a : A) i Q : settles (ret a) i Q = Q a i.
Proof. done. Qed.

Lemma settles_mono {A} (m : M nat A) i (Q Q' : A → nat → Prop) :
  settles m i Q → (∀ a j, Q a j → Q' a j) → settles m i Q'.
Proof. unfold settles. destruct (m i); auto. Qed.

(** A check that panics. *)
Lemma settles_when {B} b msg (k : M nat B) i Q : (b = false → settles k i Q) → settles (when b (panic msg);; k) i Q.
Proof. intros H. rewrite settles_bind. destruct b; [done|]. by apply H. Qed.

Section total.
Context (line : list Z).
Hypothesis clean : 0 ∉ line.

Lemma byte_inside i : byte line i ≠ 0 ↔ (i < es line)%nat.
Proof.
  unfold byte, es. split; intros H.
  - destruct (decide (i < length line)%nat); [done|]. by rewrite nth_overflow in H by lia.
  - intros E. apply clean. rewrite <- E. apply list_elem_of_In, nth_In. lia.
Qed.

Lemma skip_white_range fuel : ∀ i, (i ≤ es line)%nat → (es line - i ≤ fuel)%nat →
  let j := skip_white line fuel i in (i ≤ j ≤ es line)%nat ∧ strchr whitespace (byte line j) = false.
Proof.
  induction fuel as [|fuel IH]; intros i Hi Hf; cbn [skip_white].
  - split; [lia|]. assert (i = es line) as -> by lia. assert (byte line (es line) = 0) as ->; [|done].
    destruct (decide (byte line (es line) = 0)) as [|H]; [done|]. apply byte_inside in H. lia.
  - destruct (Nat.ltb_spec i (es line)); cbn [andb].
    + destruct (strchr whitespace (byte line i)) eqn:E; [|split; [lia|done]].
      destruct (IH (S i)) as [H1 H2]; [lia|lia|]. split; [lia|done].
    + split; [lia|]. assert (byte line i = 0) as ->; [|done].
      destruct (decide (byte line i = 0)) as [|H']; [done|]. apply byte_inside in H'. lia.
Qed.

Lemma skip_word_range fuel : ∀ i, (i ≤ es line)%nat → (i ≤ skip_word line fuel i ≤ es line)%nat.
Proof.
  induction fuel as [|fuel IH]; intros i Hi; cbn [skip_word]; [lia|].
  destruct (Nat.ltb_spec i (es line)); cbn [andb]; [|lia]. case_match; [|lia]. specialize (IH (S i)). lia.
Qed.

(** [j] is on a byte that starts a token. *)
Definition on_token (j : nat) : Prop := (j < es line)%nat ∧ strchr whitespace (byte line j) = false.

Lemma settles_peek set i Q : (i ≤ es line)%nat →
  (∀ b j, (i ≤ j ≤ es line)%nat → (b = true → on_token j) → Q b j) → settles (peek line set) i Q.
Proof.
  intros Hi HQ. unfold peek. rewrite !settles_bind. cbn. destruct (skip_white_range (es line) i) as [H1 H2]; [lia|lia|].
  apply HQ; [lia|]. intros [Hb _]%andb_prop. apply truthy_true, byte_inside in Hb. done.
Qed.

Lemma settles_gettoken i Q : (i ≤ es line)%nat →
  (∀ r x j, (i ≤ j ≤ es line)%nat → (r ≠ 0 ∨ on_token i → (i < j)%nat) → Q (r, x) j) → settles (gettoken line) i Q.
Proof.
  intros Hi HQ. unfold gettoken. rewrite settles_bind. cbn [settles get]. unfold settles, get.
  destruct (skip_white_range (es line) i) as [H1 H2]; [lia|lia|]. set (j := skip_white line (es line) i) in *.
  assert (on_token i → j = i) as Hon.
  { intros [Ha Hb]. unfold j. destruct (es line) eqn:E; [done|]. cbn [skip_white]. rewrite Hb. by rewrite andb_false_r. }
  assert (∀ r k, (j ≤ k ≤ es line)%nat → (r ≠ 0 ∨ on_token i → (i < k)%nat) →
    Q (r, (j, k)) (skip_white line (es line) k)) as Hend.
  { intros r k Hk Hp. destruct (skip_white_range (es line) k) as [H3 _]; [lia|lia|]. apply HQ; [lia|]. intros H. specialize (Hp H). lia. }
  cbv beta zeta. clearbody j. destruct (Z.eqb_spec (byte line j) 0) as [E|E].
  { cbn. apply Hend; [lia|]. intros [H|H]; [by rewrite E in H|]. rewrite (Hon H) in E. destruct H as [H _]. apply byte_inside in H. done. }
  apply byte_inside in E. destruct (strchr [124; 40; 41; 59; 38; 60] (byte line j)) eqn:Hs; [cbn; apply Hend; lia|].
  destruct (Z.eqb_spec (byte line j) 62) as [E62|E62].
  - destruct (Z.eqb_spec (byte line (S j)) 62) as [E2|E2]; cbn; [|apply Hend; lia].
    assert (S j < es line)%nat by (apply byte_inside; lia). apply Hend; lia.
  - assert (j < skip_word line (es line) j)%nat as Hw.
    { destruct (es line) as [|n] eqn:En; [lia|]. cbn [skip_word]. rewrite En. destruct (Nat.ltb_spec j (S n)); [|lia].
      rewrite H2. cbn [andb negb]. rewrite strchr_elem in *. rewrite bool_decide_false.
      - pose proof (skip_word_range n (S j)). rewrite En in *. cbn. lia.
      - intros Hin. apply bool_decide_eq_false in Hs. apply Hs. unfold symbols in Hin. rewrite !elem_of_cons in *. tauto. }
    pose proof (skip_word_range (es line) j). cbn. apply Hend; lia.
Qed.

(** Every call leaves the pointer at or after where it found it. *)
Definition onward {A} (i : nat) : A → nat → Prop := fun _ j => (i ≤ j ≤ es line)%nat.

Lemma settles_redirs fuel : ∀ i, (i ≤ es line)%nat → (es line - i < fuel)%nat → settles (parseredirs line fuel) i (onward i).
Proof.
  induction fuel as [|fuel IH]; intros i Hi Hf; [lia|]. cbn [parseredirs]. rewrite settles_bind. apply settles_peek; [done|].
  intros [] j Hj Hon; cbn [negb]; [|rewrite settles_ret; unfold onward; lia]. specialize (Hon eq_refl).
  rewrite settles_bind. apply settles_gettoken; [lia|]. intros r x k Hk Hp. rewrite settles_bind.
  apply settles_gettoken; [lia|]. intros w [q eq] m Hm _. apply settles_when. intros _. rewrite settles_bind.
  eapply settles_mono; [apply IH; [lia|]|]; [specialize (Hp (or_intror Hon)); lia|]. intros rs n Hn. rewrite settles_ret. unfold onward in *. lia.
Qed.

Lemma settles_args fuel : ∀ i argc, (i ≤ es line)%nat → (es line - i < fuel)%nat → settles (args_loop line fuel argc) i (onward i).
Proof.
  induction fuel as [|fuel IH]; intros i argc Hi Hf; [lia|]. cbn [args_loop]. rewrite settles_bind. apply settles_peek; [done|].
  intros [] j Hj _; [rewrite settles_ret; unfold onward; lia|].
  rewrite settles_bind. apply settles_gettoken; [lia|]. intros r [q eq] k Hk Hp.
  destruct (Z.eqb_spec r 0); [rewrite settles_ret; unfold onward; lia|]. do 2 (apply settles_when; intros _). rewrite settles_bind.
  eapply settles_mono; [apply settles_redirs; lia|]. intros rs m Hm. unfold onward in Hm. rewrite settles_bind.
  eapply settles_mono; [apply IH; [lia|]|]; [specialize (Hp (or_introl n)); lia|]. intros [args rs'] o Ho. rewrite settles_ret. unfold onward in *. lia.
Qed.

Lemma settles_backs fuel : ∀ i c, (i ≤ es line)%nat → (es line - i < fuel)%nat → settles (backs line fuel c) i (onward i).
Proof.
  induction fuel as [|fuel IH]; intros i c Hi Hf; [lia|]. cbn [backs]. rewrite settles_bind. apply settles_peek; [done|].
  intros [] j Hj Hon; [|rewrite settles_ret; unfold onward; lia]. specialize (Hon eq_refl).
  rewrite settles_bind. apply settles_gettoken; [lia|]. intros r x k Hk Hp.
  eapply settles_mono; [apply IH; [lia|]|]; [specialize (Hp (or_intror Hon)); lia|]. unfold onward. lia.
Qed.

(** The four mutually recursive calls. *)
Lemma settles_parse fuel : ∀ i, (i ≤ es line)%nat →
  ((4 * (es line - i) + 4 ≤ fuel)%nat → settles (parse line fuel N_line) i (onward i)) ∧
  ((4 * (es line - i) + 3 ≤ fuel)%nat → settles (parse line fuel N_pipe) i (onward i)) ∧
  ((4 * (es line - i) + 2 ≤ fuel)%nat → settles (parse line fuel N_exec) i (onward i)) ∧
  ((4 * (es line - i) + 1 ≤ fuel)%nat → settles (parse line fuel N_block) i (onward i)).
Proof.
  induction fuel as [|fuel IH]; intros i Hi; [repeat split; lia|]. split_and!.
  - intros Hf. cbn [parse]. unfold parseline. rewrite settles_bind. eapply settles_mono; [apply IH; lia|]. intros c j Hj. unfold onward in Hj.
    rewrite settles_bind. eapply settles_mono; [apply settles_backs; lia|]. intros c' k Hk. unfold onward in Hk.
    rewrite settles_bind. apply settles_peek; [lia|]. intros [] m Hm Hon; [|rewrite settles_ret; unfold onward; lia].
    rewrite settles_bind. apply settles_gettoken; [lia|]. intros r x n Hn Hp. specialize (Hp (or_intror (Hon eq_refl))).
    rewrite settles_bind. eapply settles_mono; [apply IH; lia|]. intros c'' o Ho. rewrite settles_ret. unfold onward in *. lia.
  - intros Hf. cbn [parse]. unfold parsepipe. rewrite settles_bind. eapply settles_mono; [apply IH; lia|]. intros c j Hj. unfold onward in Hj.
    rewrite settles_bind. apply settles_peek; [lia|]. intros [] m Hm Hon; [|rewrite settles_ret; unfold onward; lia].
    rewrite settles_bind. apply settles_gettoken; [lia|]. intros r x n Hn Hp. specialize (Hp (or_intror (Hon eq_refl))).
    rewrite settles_bind. eapply settles_mono; [apply IH; lia|]. intros c'' o Ho. rewrite settles_ret. unfold onward in *. lia.
  - intros Hf. cbn [parse]. unfold parseexec. rewrite settles_bind. apply settles_peek; [lia|]. intros [] m Hm Hon.
    + eapply settles_mono; [apply IH; lia|]. unfold onward. lia.
    + rewrite settles_bind. eapply settles_mono; [apply settles_redirs; lia|]. intros rs k Hk. unfold onward in Hk.
      rewrite settles_bind. eapply settles_mono; [apply settles_args; lia|]. intros [argv rs'] n Hn. rewrite settles_ret. unfold onward in *. lia.
  - intros Hf. cbn [parse]. unfold parseblock. rewrite settles_bind. apply settles_peek; [lia|]. intros b j Hj Hon. apply settles_when.
    intros ->%negb_false_iff. rewrite settles_bind. apply settles_gettoken; [lia|]. intros r x k Hk Hp. specialize (Hp (or_intror (Hon eq_refl))).
    rewrite settles_bind. eapply settles_mono; [apply IH; lia|]. intros c m Hm. unfold onward in Hm.
    rewrite settles_bind. apply settles_peek; [lia|]. intros b n Hn _. apply settles_when. intros _.
    rewrite settles_bind. apply settles_gettoken; [lia|]. intros r' x' o Ho _.
    rewrite settles_bind. eapply settles_mono; [apply settles_redirs; lia|]. intros rs p Hp'. rewrite settles_ret. unfold onward in *. lia.
Qed.

Lemma settles_parsecmd : settles (parsecmd line) 0 (fun _ j => j = es line).
Proof.
  unfold parsecmd. rewrite settles_bind. eapply settles_mono; [apply settles_parse; unfold es; lia|]. intros c i Hi. unfold onward in Hi.
  rewrite settles_bind. apply settles_peek; [lia|]. intros b j Hj _. rewrite settles_bind. unfold settles at 1, get.
  apply settles_when. intros H%negb_false_iff%Nat.eqb_eq. by rewrite settles_ret.
Qed.

End total.

(** C27. On every line the shell's parser comes to an end: it returns a tree
    with the whole line consumed, or ends the shell with a message; it never
    runs out of the calls allowed for the line. *)
Theorem parsecmd_total line (Hclean : 0 ∉ line) :
  (∃ c buf, parsecmd line 0%nat = Ret (c, buf) (es line)) ∨ ∃ msg, parsecmd line 0%nat = Panic msg.
Proof.
  pose proof (settles_parsecmd line Hclean) as H. unfold settles in H.
  destruct (parsecmd line 0%nat) as [[c buf] j|msg|?|?|?|]; [left|right; eauto|done..]. subst j. eauto.
Qed.

Lemma parsecmd_total_witness :
  (∃ c buf, parsecmd [40; 97; 59; 98; 41] 0%nat = Ret (c, buf) 5%nat) ∨ ∃ msg, parsecmd [40; 97; 59; 98; 41] 0%nat = Panic msg.
Proof. apply (parsecmd_total [40; 97; 59; 98; 41]). apply (bool_decide_unpack _). vm_compute. exact I. Defined.
