(* ===== verification/ShRun.v ===== *)
(** * The shell runs a command

    [runcmd], [fork1], [getcmd] and [main] of [user/sh.c].  A process is what it
    does from some point on: its events, up to its [exit] or the program it
    becomes.  A fork is an event that holds the child's events, and the child
    has a copy of the descriptors.  The calls that may fail are numbered over
    the whole tree of processes; [works] says which succeed. *)

From Stdlib Require Import ZArith Lia.
From stdpp Require Import base gmap strings numbers list.
From S2P Require Import Prelude Ulib Sh ShFacts.
Local Open Scope xv6_scope.

Definition O_RDWR : Z := 2.
Definition NOFILE : nat := 16.

(** What a descriptor is open on. *)
Inductive handle :=
| H_file (path : list Z) (mode : Z)
| H_read (pipe : nat)
| H_write (pipe : nat).

Definition fdtable : Type := list (option handle).

Inductive ev :=
| E_msg (to : option handle) (text : list Z)
| E_exec (argv : list (list Z)) (fds : fdtable)
| E_fork (child : list ev)
| E_wait (fds : fdtable)      (* with the descriptors held meanwhile *)
| E_chdir (path : list Z)
| E_exit (status : Z).

Record world := World { w_calls : nat; w_pipes : nat }.
#[global] Instance world_eta : Eta world := fun r => World (w_calls r) (w_pipes r).

(** A process from some point on. *)
Definition process : Type := world → list ev * world.

Definition bytes_of (s : string) : list Z := (fun a => Z.of_N (Ascii.N_of_ascii a)) <$> String.list_ascii_of_string s.

(** ** Descriptors *)

(** The lowest free descriptor, as [fdalloc] has it. *)
Definition alloc (h : handle) (t : fdtable) : option (nat * fdtable) :=
  match list_find (fun x => x = None) t with
  | Some (fd, _) => Some (fd, <[fd := Some h]> t)
  | None => None
  end.
Definition close_fd (fd : nat) (t : fdtable) : fdtable := <[fd := None]> t.
(** The result is not looked at: a failed [dup] does nothing. *)
Definition dup (fd : nat) (t : fdtable) : fdtable :=
  match mjoin (t !! fd) with
  | Some h => match alloc h t with Some (_, t') => t' | None => t end
  | None => t
  end.

Section run.
Context (works : nat → bool).

Definition emit (e : ev) (k : process) : process := fun w => let '(t, w) := k w in (e :: t, w).
Definition exit_ (status : Z) : process := fun w => ([E_exit status], w).
(** A call that may fail. *)
Definition attempt (yes no : process) : process := fun w =>
  (if works (w_calls w) then yes else no) (w <| w_calls ::= S |>).

(** [fprintf(2, ...)] *)
Definition complain (t : fdtable) (text : list Z) (k : process) : process := emit (E_msg (mjoin (t !! 2%nat)) text) k.
Definition sh_panic (t : fdtable) (s : string) : process := complain t (cline s) (exit_ 1).

Definition fork1 (t : fdtable) (child parent : process) : process :=
  attempt (fun w => let '(c, w) := child w in let '(p, w) := parent w in (E_fork c :: p, w)) (sh_panic t "fork").

(** The two descriptors of a new pipe. *)
Definition pipe (t : fdtable) (k : nat → nat → fdtable → process) (fail : process) : process :=
  attempt (fun w =>
    match alloc (H_read (w_pipes w)) t with
    | Some (p0, t1) =>
      match alloc (H_write (w_pipes w)) t1 with
      | Some (p1, t2) => k p0 p1 t2 (w <| w_pipes ::= S |>)
      | None => fail w
      end
    | None => fail w
    end) fail.

Definition open_file (path : list Z) (mode : Z) (t : fdtable) (k : nat → fdtable → process) (fail : process) : process :=
  attempt (match alloc (H_file path mode) t with Some (fd, t') => k fd t' | None => fail end) fail.

Definition exec_failed (name : list Z) : list Z := bytes_of "exec " ++ name ++ cline " failed".
Definition open_failed (name : list Z) : list Z := bytes_of "open " ++ name ++ cline " failed".

Fixpoint runcmd (buf : list Z) (c : cmd) (t : fdtable) : process :=
  match c with
  | EXEC argv =>
    match (fun x => cstr (drop x.1 buf)) <$> argv with
    | [] => exit_ 1
    | a :: args =>
      attempt (fun w => ([E_exec (a :: args) t], w)) (complain t (exec_failed a) (exit_ 0))
    end
  | REDIR c file _ mode fd =>
    let t := close_fd (Z.to_nat fd) t in
    let name := cstr (drop file buf) in
    open_file name mode t (fun _ t => runcmd buf c t) (complain t (open_failed name) (exit_ 1))
  | LIST l r =>
    fork1 t (runcmd buf l t) (emit (E_wait t) (runcmd buf r t))
  | PIPE l r =>
    pipe t (fun p0 p1 t =>
      fork1 t (runcmd buf l (close_fd p1 (close_fd p0 (dup p1 (close_fd 1 t)))))
        (fork1 t (runcmd buf r (close_fd p1 (close_fd p0 (dup p0 (close_fd 0 t)))))
          (let t := close_fd p1 (close_fd p0 t) in
           emit (E_wait t) (emit (E_wait t) (exit_ 0)))))
      (sh_panic t "pipe")
  | BACK c => fork1 t (runcmd buf c t) (exit_ 0)
  end.

(** The child the shell makes for a line.  The parser always comes to an end
    ([ShTotal]), so that the last case does not arise; what is left over of a
    line with a syntax error is printed before the message, and is not
    modelled. *)
Definition run_line (line : list Z) (t : fdtable) : process :=
  match parsecmd line 0%nat with
  | Ret (c, buf) _ => runcmd buf c t
  | Panic msg => sh_panic t msg
  | _ => exit_ (-1)
  end.

End run.

(** ** What running a command means

    Only the three standard descriptors matter. *)

Record std := Std { s_in : handle; s_out : handle; s_err : handle }.
#[global] Instance std_eta : Eta std := fun r => Std (s_in r) (s_out r) (s_err r).

(** The table with the standard descriptors and no other. *)
Definition table (s : std) : fdtable := [Some (s_in s); Some (s_out s); Some (s_err s)] ++ replicate (NOFILE - 3) None.

Definition set_std (fd : Z) (h : handle) (s : std) : std :=
  if fd =? 0 then s <| s_in := h |> else if fd =? 1 then s <| s_out := h |> else s <| s_err := h |>.

(** Redirections are of standard descriptors that leave the error output. *)
Fixpoint redirs_std (c : scmd) : Prop :=
  match c with
  | XExec _ => True
  | XRedir c _ _ fd => (fd = 0 ∨ fd = 1) ∧ redirs_std c
  | XPipe l r | XList l r => redirs_std l ∧ redirs_std r
  | XBack c => redirs_std c
  end.

Section plan.
Context (works : nat → bool).

Definition say (s : std) (text : list Z) (k : process) : process := emit (E_msg (Some (s_err s)) text) k.
Definition spawn (s : std) (child parent : process) : process :=
  attempt works (fun w => let '(c, w) := child w in let '(p, w) := parent w in (E_fork c :: p, w)) (say s (cline "fork") (exit_ 1)).

(** A pipeline's left side writes to the new pipe and its right side reads from
    it; a list waits for its left side. *)
Fixpoint plan (c : scmd) (s : std) : process :=
  match c with
  | XExec [] => exit_ 1
  | XExec (a :: args) => attempt works (fun w => ([E_exec (a :: args) (table s)], w)) (say s (exec_failed a) (exit_ 0))
  | XRedir c f mode fd => attempt works (plan c (set_std fd (H_file f mode) s)) (say s (open_failed f) (exit_ 1))
  | XList l r => spawn s (plan l s) (emit (E_wait (table s)) (plan r s))
  | XPipe l r =>
    attempt works (fun w =>
      let n := w_pipes w in
      spawn s (plan l (s <| s_out := H_write n |>))
        (spawn s (plan r (s <| s_in := H_read n |>)) (emit (E_wait (table s)) (emit (E_wait (table s)) (exit_ 0))))
        (w <| w_pipes ::= S |>))
      (say s (cline "pipe") (exit_ 1))
  | XBack c => spawn s (plan c s) (exit_ 0)
  end.

Lemma attempt_ext (yes no yes' no' : process) w : (∀ w, yes w = yes' w) → (∀ w, no w = no' w) → attempt works yes no w = attempt works yes' no' w.
Proof. intros H1 H2. unfold attempt. by case_match. Qed.

Lemma emit_ext e (k k' : process) w : (∀ w, k w = k' w) → emit e k w = emit e k' w.
Proof. intros H. unfold emit. by rewrite H. Qed.

Lemma fork1_ext t s (c p c' p' : process) w : mjoin (t !! 2%nat) = Some (s_err s) → (∀ w, c w = c' w) → (∀ w, p w = p' w) →
  fork1 works t c p w = spawn s c' p' w.
Proof.
  intros Ht Hc Hp. unfold fork1, spawn. apply attempt_ext; intros w'.
  - rewrite Hc. destruct (c' w'). by rewrite Hp.
  - unfold sh_panic, complain, say. by rewrite Ht.
Qed.

Lemma open_table s fd h : fd = 0 ∨ fd = 1 → alloc h (close_fd (Z.to_nat fd) (table s)) = Some (Z.to_nat fd, table (set_std fd h s)).
Proof. by intros [-> | ->]. Qed.

(** The descriptors after [pipe], and what the two children make of them. *)
Definition with_pipe (s : std) (n : nat) : fdtable := <[4%nat := Some (H_write n)]> (<[3%nat := Some (H_read n)]> (table s)).

Lemma left_table s n : close_fd 4 (close_fd 3 (dup 4 (close_fd 1 (with_pipe s n)))) = table (s <| s_out := H_write n |>).
Proof. done. Qed.
Lemma right_table s n : close_fd 4 (close_fd 3 (dup 3 (close_fd 0 (with_pipe s n)))) = table (s <| s_in := H_read n |>).
Proof. done. Qed.

Lemma parent_table s n : close_fd 4 (close_fd 3 (with_pipe s n)) = table s.
Proof. done. Qed.

Lemma pipe_table s k fail w :
  pipe works (table s) k fail w = attempt works (fun w => k 3%nat 4%nat (with_pipe s (w_pipes w)) (w <| w_pipes ::= S |>)) fail w.
Proof. done. Qed.

(** [runcmd] does what the strings of its tree mean. *)
Lemma runcmd_plan buf c s : redirs_std (strings buf c) → ∀ w, runcmd works buf c (table s) w = plan (strings buf c) s w.
Proof.
  revert s. induction c as [argv|c IH q eq mode fd|l IHl r IHr|l IHl r IHr|c IH]; intros s Hok w; cbn [strings redirs_std runcmd plan] in *.
  - by destruct (_ <$> argv).
  - destruct Hok as [Hfd Hok]. unfold open_file. rewrite open_table by done. apply attempt_ext; [by apply IH|].
    intros w'. unfold complain, say. by destruct Hfd as [-> | ->].
  - destruct Hok as [Hl Hr]. rewrite pipe_table. apply attempt_ext; [|done]. intros w'. rewrite left_table, right_table, parent_table.
    apply fork1_ext; [done|by apply IHl|]. intros w2. apply fork1_ext; [done|by apply IHr|done].
  - destruct Hok as [Hl Hr]. apply fork1_ext; [done|by apply IHl|]. intros w'. apply emit_ext. by apply IHr.
  - apply fork1_ext; [done|by apply IH|done].
Qed.
End plan.

(** ** Pipe ends *)

Lemma meaning_redirs :
  (∀ l, redirs_std (lmeans l)) ∧ (∀ p, redirs_std (pmeans p)) ∧ (∀ e, redirs_std (emeans e)).
Proof.
  assert (∀ rs c, redirs_std c → redirs_std (foldl redirect c rs)) as Hr.
  { induction rs as [|[k f] rs IH]; intros c Hc; [done|]. cbn [foldl]. apply IH. split; [destruct k; auto|done]. }
  assert (∀ n c, redirs_std c → redirs_std (Nat.iter n XBack c)) as Hn.
  { induction n as [|n IH]; intros c Hc; [done|]. by apply IH. }
  apply sline_ind'; intros; cbn [lmeans pmeans emeans redirs_std]; try split; try apply Hr; try apply Hn; done.
Qed.

Fixpoint execs (e : ev) : list fdtable :=
  match e with E_exec _ t => [t] | E_fork c => flat_map execs c | _ => [] end.

(** The handles of programs started between two points: standard ones, files,
    and ends of pipes made in between. *)
Definition known (s : std) (a b : nat) (h : handle) : Prop :=
  h = s_in s ∨ h = s_out s ∨ h = s_err s ∨
  match h with H_file _ _ => True | H_read n | H_write n => (a ≤ n < b)%nat end.

Definition tame (s : std) (a b : nat) (tr : list ev) : Prop :=
  ∀ t h, t ∈ flat_map execs tr → Some h ∈ t → known s a b h.

Lemma known_weaken s s' a b a' b' h : (a' ≤ a)%nat → (b ≤ b')%nat →
  (∀ h, h = s_in s ∨ h = s_out s ∨ h = s_err s → known s' a' b' h) → known s a b h → known s' a' b' h.
Proof. intros Ha Hb Hs [H|[H|[H|H]]]; [apply Hs; auto..|]. right; right; right. destruct h; [done|lia..]. Qed.

Lemma tame_weaken s s' a b a' b' tr : (a' ≤ a)%nat → (b ≤ b')%nat → (∀ h, h = s_in s ∨ h = s_out s ∨ h = s_err s → known s' a' b' h) →
  tame s a b tr → tame s' a' b' tr.
Proof. intros Ha Hb Hs H t h Ht Hh. eapply known_weaken; [..|by eapply H]; eauto. Qed.

Lemma tame_quiet s a b tr : flat_map execs tr = [] → tame s a b tr.
Proof. intros H t h. rewrite H. by intros ?%elem_of_nil. Qed.

(** A process that runs when at least [m] pipes have been made. *)
Definition tames (s : std) (a m : nat) (k : process) : Prop :=
  ∀ w, (m ≤ w_pipes w)%nat → (w_pipes w ≤ w_pipes (k w).2)%nat ∧ tame s a (w_pipes (k w).2) (k w).1.

Lemma tames_attempt works s a m yes no : tames s a m yes → tames s a m no → tames s a m (attempt works yes no).
Proof. intros H1 H2 w Hw. unfold attempt. set (w' := w <| w_calls ::= S |>). change (w_pipes w) with (w_pipes w') in *. case_match; auto. Qed.

Lemma tames_quiet s a m tr : flat_map execs tr = [] → tames s a m (fun w => (tr, w)).
Proof. intros H w Hw. split; [done|]. by apply tame_quiet. Qed.

Lemma tames_say s s' a m msg n : tames s a m (say s' msg (exit_ n)).
Proof. by apply (tames_quiet s a m [_; _]). Qed.

Lemma tames_emit s a m e k : execs e = [] → tames s a m k → tames s a m (emit e k).
Proof. intros He Hk w Hw. unfold emit. specialize (Hk w Hw). destruct (k w). unfold tame in *. cbn in *. by rewrite He. Qed.

Lemma tames_spawn works s s' a m c p : tames s a m c → tames s a m p → tames s a m (spawn works s' c p).
Proof.
  intros Hc Hp. apply tames_attempt; [|apply tames_say]. intros w Hw. specialize (Hc w Hw). destruct (c w) as [tc wc]. cbn in Hc.
  destruct Hc as [Hw1 Hc]. specialize (Hp wc ltac:(lia)). destruct (p wc) as [tp wp]. cbn in *. destruct Hp as [Hw2 Hp]. split; [lia|].
  intros t h. cbn. rewrite elem_of_app. intros [Ht|Ht] Hh; [|by eapply Hp].
  eapply known_weaken; [..|by eapply Hc]; [lia|lia|]. unfold known. tauto.
Qed.

Lemma tames_std s s' a a' m k : (a' ≤ a)%nat →
  (∀ h b, (m ≤ b)%nat → h = s_in s ∨ h = s_out s ∨ h = s_err s → known s' a' b h) → tames s a m k → tames s' a' m k.
Proof.
  intros Ha Hs Hk w Hw. destruct (Hk w Hw) as [H1 H2]. split; [done|]. eapply tame_weaken; [..|exact H2]; [done|done|].
  intros h Hh. apply Hs; [lia|done].
Qed.

(** The standard handles, when one is replaced by a file or a new pipe. *)
Lemma known_set s n a b h : (a ≤ n < b)%nat →
  (h = s_in s ∨ h = H_write n ∨ h = s_err s) ∨ (h = H_read n ∨ h = s_out s ∨ h = s_err s) → known s a b h.
Proof. intros Hn H. unfold known. destruct H as [H|H]; destruct H as [-> | [-> | ->]]; auto 10. Qed.

Lemma table_elem s h : Some h ∈ table s → h = s_in s ∨ h = s_out s ∨ h = s_err s.
Proof.
  unfold table. rewrite elem_of_app, elem_of_replicate, !elem_of_cons, elem_of_nil.
  intros [[H|[H|[H|[]]]]|[H _]]; simplify_eq; auto.
Qed.

Lemma tames_plan works c : redirs_std c → ∀ s a m, (a ≤ m)%nat → tames s a m (plan works c s).
Proof.
  induction c as [argv|c IH f mode fd|l IHl r IHr|l IHl r IHr|c IH]; intros Hok s a m Ham; cbn [redirs_std plan] in *.
  - destruct argv as [|x args]; [by apply (tames_quiet _ _ _ [_])|]. apply tames_attempt; [|apply tames_say].
    intros w Hw. split; [done|]. cbn. intros t h ->%list_elem_of_singleton Hh. apply table_elem in Hh. unfold known. tauto.
  - destruct Hok as [Hfd Hok]. apply tames_attempt; [|apply tames_say]. eapply tames_std; [reflexivity| |by apply IH].
    intros h b _ Hh. unfold known. destruct Hfd as [-> | ->]; cbn in Hh; destruct Hh as [-> | [-> | ->]]; auto 10.
  - destruct Hok as [Hl Hr]. apply tames_attempt; [|apply tames_say]. intros w Hw. set (n := w_pipes w).
    assert (tames s a (S n) (spawn works s (plan works l (s <| s_out := H_write n |>))
      (spawn works s (plan works r (s <| s_in := H_read n |>)) (emit (E_wait (table s)) (emit (E_wait (table s)) (exit_ 0)))))) as Hk.
    { apply tames_spawn; [|apply tames_spawn].
      - eapply tames_std; [reflexivity| |apply IHl; [done|lia]]. intros h b Hb Hh. apply (known_set s n); [lia|by left].
      - eapply tames_std; [reflexivity| |apply IHr; [done|lia]]. intros h b Hb Hh. apply (known_set s n); [lia|by right].
      - by apply (tames_quiet _ _ _ [_; _; _]). }
    destruct (Hk (w <| w_pipes ::= S |>)) as [H1 H2]; [done|]. split; [|exact H2]. cbn in H1 |- *. lia.
  - destruct Hok as [Hl Hr]. apply tames_spawn; [by apply IHl|]. apply tames_emit; [done|]. by apply IHr.
  - apply tames_spawn; [by apply IH|]. by apply (tames_quiet _ _ _ [_]).
Qed.

(** A standard handle that was there before the [n]th pipe was made. *)
Definition older (n : nat) (h : handle) : Prop := match h with H_file _ _ => True | H_read k | H_write k => (k < n)%nat end.

(** The two sides of a pipeline that was started. *)
Lemma spawned works s c p w L rest w' : spawn works s c p w = (E_fork L :: rest, w') →
  ∃ w1 w2, w_pipes w1 = w_pipes w ∧ c w1 = (L, w2) ∧ p w2 = (rest, w').
Proof.
  unfold spawn, attempt. case_match; [|by cbn]. destruct (c (w <| w_calls ::= S |>)) as [tc w2] eqn:Ec. destruct (p w2) as [tp w3] eqn:Ep.
  intros [= -> -> ->]. by exists (w <| w_calls ::= S |>), w2.
Qed.

Section theorems.
Context (works : nat → bool).

Lemma run_line_means l ws s std w :
  lfits l → Forall white ws → spells (ltoks l) s → 0 ∉ ws ++ s →
  run_line works (ws ++ s) (table std) w = plan works (lmeans l) std w.
Proof.
  intros H1 H2 H3 H4. pose proof (wp_parsecmd l ws s H1 H2 H3 H4) as H. unfold run_line, wp in *.
  destruct (parsecmd (ws ++ s) 0%nat) as [[c buf] j|?|?|?|?|]; try done. cbn in H. rewrite <- H. apply runcmd_plan.
  rewrite H. apply meaning_redirs.
Qed.

(** The child the shell makes for a line does what the sentence on the line
    means: its commands start with exactly the three standard descriptors, the
    sides of a pipeline joined by a new pipe, redirections replacing standard
    input or output, a list waiting for its left side; a call that fails ends
    the process concerned with the message and status of the source. *)
Theorem run_line_refines l ws s std w :
  lfits l → Forall white ws → spells (ltoks l) s → 0 ∉ ws ++ s →
  run_line works (ws ++ s) (table std) w = plan works (lmeans l) std w.
Proof. apply run_line_means. Qed.

(** C26. No program of a pipeline holds the end of the pipe that is not its own:
    nothing the left side starts can read the pipe, and nothing the right side
    starts can write to it.  The shell has closed both ends when it waits for the
    two sides, so that the readers see the end of the input once the left side is
    done. *)
Theorem pipe_ends buf l r std w L R rest w' :
  redirs_std (strings buf l) → redirs_std (strings buf r) →
  older (w_pipes w) (s_in std) → older (w_pipes w) (s_out std) → older (w_pipes w) (s_err std) →
  runcmd works buf (PIPE l r) (table std) w = (E_fork L :: E_fork R :: rest, w') →
  (∀ t, t ∈ flat_map execs L → Some (H_read (w_pipes w)) ∉ t) ∧
  (∀ t, t ∈ flat_map execs R → Some (H_write (w_pipes w)) ∉ t) ∧
  ∃ t, rest = [E_wait t; E_wait t; E_exit 0] ∧ Some (H_read (w_pipes w)) ∉ t ∧ Some (H_write (w_pipes w)) ∉ t.
Proof.
  intros Hl Hr Hi Ho He. rewrite runcmd_plan by done. cbn [strings plan]. set (n := w_pipes w) in *. unfold attempt at 1.
  case_match; [|by cbn]. intros (w1 & w2 & Hw1 & HL & (w3 & w4 & Hw3 & HR & Hrest)%spawned)%spawned.
  change (w_pipes w1 = S n) in Hw1. change (plan works (strings buf l) (std <| s_out := H_write n |>) w1 = (L, w2)) in HL.
  change (plan works (strings buf r) (std <| s_in := H_read n |>) w3 = (R, w4)) in HR.
  destruct (tames_plan works _ Hl (std <| s_out := H_write n |>) (S n) (S n) ltac:(lia) w1 ltac:(lia)) as [Hm HtL]. rewrite HL in Hm, HtL.
  destruct (tames_plan works _ Hr (std <| s_in := H_read n |>) (S n) (S n) ltac:(lia) w3) as [_ HtR]; [cbn in Hm; lia|]. rewrite HR in HtR.
  split_and!; [| |exists (table std); split; [by injection Hrest|split; intros [H0|[H0|H0]]%table_elem; rewrite <- H0 in *; cbn in *; lia]].
  - intros t Ht Hh. destruct (HtL t _ Ht Hh) as [H0|[H0|[H0|H0]]]; cbn in H0; [rewrite <- H0 in Hi; cbn in Hi; lia|done|rewrite <- H0 in He; cbn in He; lia|lia].
  - intros t Ht Hh. destruct (HtR t _ Ht Hh) as [H0|[H0|[H0|H0]]]; cbn in H0; [done|rewrite <- H0 in Ho; cbn in Ho; lia|rewrite <- H0 in He; cbn in He; lia|lia].
Qed.

End theorems.

Definition console : handle := H_file (bytes_of "console") O_RDWR.
Definition console_std : std := Std console console console.

Lemma run_line_refines_witness :
  run_line (fun _ => true) ([32] ++ sentence_text) (table console_std) (World 0 0) =
  ([E_fork [E_fork [E_exec [[97; 98]] (table (console_std <| s_in := H_file [102] O_RDONLY |> <| s_out := H_write 0 |>))];
            E_fork [E_exec [[99]] (table (console_std <| s_in := H_read 0 |>))]; E_wait (table console_std); E_wait (table console_std); E_exit 0]; E_exit 0], World 7 1).
Proof.
  etransitivity; [apply (run_line_refines (fun _ => true) sentence [32] sentence_text)|vm_compute; reflexivity];
    [cbn; unfold MAXARGS; lia|apply (bool_decide_unpack _); vm_compute; exact I|exact sentence_spelled|
     apply (bool_decide_unpack _); vm_compute; exact I].
Defined.

Lemma pipe_ends_witness :
  Some (H_read 0) ∉ table (console_std <| s_out := H_write 0 |>) ∧ Some (H_write 0) ∉ table (console_std <| s_in := H_read 0 |>).
Proof.
  destruct (pipe_ends (fun _ => true) [97; 0; 98; 0] (EXEC [(0, 1)%nat]) (EXEC [(2, 3)%nat]) console_std (World 0 0)
    [E_exec [[97]] (table (console_std <| s_out := H_write 0 |>))] [E_exec [[98]] (table (console_std <| s_in := H_read 0 |>))]
    [E_wait (table console_std); E_wait (table console_std); E_exit 0] (World 5 1)) as (H1 & H2 & _); [done..|]. split; [apply H1|apply H2]; by left.
Defined.
