(* ===== verification/ShMain.v ===== *)
(** * The shell's main loop

    [getcmd] and [main] of [user/sh.c]: the lines the shell reads, one after the
    other, and what it does about each. *)

From Stdlib Require Import ZArith Lia.
From stdpp Require Import base gmap strings numbers list.
From S2P Require Import Prelude Ulib Sh ShFacts ShRun.
Local Open Scope xv6_scope.

Record shell := Shell { sh_os : os; sh_world : world; sh_fds : fdtable; sh_trace : list ev }.
#[global] Instance shell_eta : Eta shell := fun r => Shell (sh_os r) (sh_world r) (sh_fds r) (sh_trace r).

Definition onos {A} (m : M os A) : M shell A := zoom sh_os (fun o s => s <| sh_os := o |>) m.

(** The result, and the buffer. *)
Definition getcmd (buf : list Z) (nbuf : Z) : M os (Z * list Z) :=
  write 2 (bytes_of "$ ");;
  match memset buf 0 (Z.to_nat nbuf) with
  | None => fault nbuf
  | Some buf =>
    buf ← gets buf nbuf;
    ret (if hd 0 buf =? 0 then -1 else 0, buf)
  end.

Definition NBUF : Z := 100.

Section main.
Context (works : nat → bool).

Definition attempts : M shell bool :=
  s ← get;
  modify (fun s => s <| sh_world ::= fun w => w <| w_calls ::= S |> |>);;
  ret (works (w_calls (sh_world s))).

Definition event (e : ev) : M shell unit := modify (fun s => s <| sh_trace ::= fun t => t ++ [e] |>).

(** Ensure that three descriptors are open. *)
Fixpoint open_console (fuel : nat) : M shell unit :=
  match fuel with
  | O => out_of_fuel
  | S fuel =>
    ok ← attempts;
    s ← get;
    match (if ok then alloc (H_file (bytes_of "console") O_RDWR) (sh_fds s) else None) with
    | None => ret tt
    | Some (fd, t) =>
      modify (fun s => s <| sh_fds := t |>);;
      if (3 <=? fd)%nat then modify (fun s => s <| sh_fds ::= close_fd fd |>) else open_console fuel
    end
  end.

(** [buf[strlen(buf)-1] = 0] *)
Definition chop (buf : list Z) : list Z := <[(length (cstr buf) - 1)%nat := 0]> buf.

Definition cannot_cd (name : list Z) : list Z := bytes_of "cannot cd " ++ name ++ [10].

(** The shell waits for the child of each line; what the children do goes on
    from the shell's point in the numbering of the calls. *)
Fixpoint main_loop (fuel : nat) (buf : list Z) : M shell unit :=
  match fuel with
  | O => out_of_fuel
  | S fuel =>
    '(r, buf) ← onos (getcmd buf NBUF);
    if r <? 0 then event (E_exit 0) else
    s ← get;
    if (nth 0 buf 0 =? 99) && (nth 1 buf 0 =? 100) && (nth 2 buf 0 =? 32) then
      let buf := chop buf in
      let name := cstr (drop 3 buf) in
      event (E_chdir name);;
      ok ← attempts;
      when (negb ok) (event (E_msg (mjoin (sh_fds s !! 2%nat)) (cannot_cd name)));;
      main_loop fuel buf
    else
      ok ← attempts;
      if ok then
        s ← get;
        let '(child, w) := run_line works (cstr buf) (sh_fds s) (sh_world s) in
        modify (fun s => s <| sh_world := w |>);;
        event (E_fork child);;
        event (E_wait (sh_fds s));;
        main_loop fuel buf
      else event (E_msg (mjoin (sh_fds s !! 2%nat)) (cline "fork"));; event (E_exit 1)
  end.

(** Each pass but the last reads a byte; at most sixteen descriptors can be
    open. *)
Definition sh_main : M shell unit :=
  open_console (S NOFILE);;
  s ← get;
  main_loop (S (length (default [] (o_fds (sh_os s) !! 0)))) (replicate (Z.to_nat NBUF) 0).

End main.

(** ** A session *)

(** The input from some point on, without read errors. *)
Definition reading (input : list Z) (s : os) : Prop := o_fds s !! 0 = Some input ∧ Forall is_Some (o_sched s).

Lemma wp_read_byte c rest s Q : reading (c :: rest) s →
  (∀ s', reading rest s' → Q (1, [c]) s') → wp (read 0 1) s Q.
Proof.
  intros [Hfd Hs] HQ. eapply wp_uread; [exact Hfd|done|]. intros k s' Hk1 Hk2 Hk0 Hfd' _ Ho Hs'.
  destruct k as [|[|]]; [by destruct (Hk0 eq_refl)| |lia]. by apply HQ.
Qed.

(** [gets] of a line that is all there. *)
Lemma wp_gets_line line : ∀ n i buf rest s Q, reading (line ++ 10 :: rest) s →
  10 ∉ line → 13 ∉ line → (length line < n)%nat → (i + length line + 1 < length buf)%nat →
  (∀ s', reading rest s' → Q (take i buf ++ line ++ 10 :: drop (i + length line + 1) buf, (i + length line + 1)%nat) s') →
  wp (gets_loop n i buf) s Q.
Proof.
  induction line as [|c line IH]; intros n i buf rest s Q Hr H10 H13 Hn Hb HQ; destruct n as [|n]; cbn [length] in *; try lia;
    cbn [gets_loop]; wp_simpl; (eapply wp_read_byte; [exact Hr|]); intros s' Hr'; change (1 <? 1) with false; cbn iota;
    wp_simpl; cbn [hd]; (apply wp_store_at; [lia|]).
  - change (10 =? 10) with true. cbn [orb]. cbn iota. wp_simpl. replace (S i) with (i + 0 + 1)%nat by lia.
    rewrite insert_take_drop by lia. replace (S i) with (i + 0 + 1)%nat by lia. by apply HQ.
  - apply not_elem_of_cons in H10 as [Hc10 H10], H13 as [Hc13 H13].
    destruct (Z.eqb_spec c 10); [congruence|]. destruct (Z.eqb_spec c 13); [congruence|]. cbn [orb]. cbn iota.
    eapply (IH n (S i) (<[i:=c]> buf)); [exact Hr'|done|done|lia|rewrite length_insert; lia|].
    intros s2 Hr2. rewrite drop_insert_lt by lia. rewrite (take_S_r _ _ c) by (apply list_lookup_insert_eq; lia).
    rewrite take_insert_ge, <- app_assoc by lia. replace (S i + length line + 1)%nat with (i + S (length line) + 1)%nat by lia. by apply HQ.
Qed.

Lemma wp_gets_end n buf s Q : reading [] s → (0 < length buf)%nat →
  (∀ s', Q (buf, 0%nat) s') → wp (gets_loop n 0 buf) s Q.
Proof.
  intros [Hfd Hs] Hb HQ. destruct n as [|n]; cbn [gets_loop]; wp_simpl; [by apply HQ|].
  eapply wp_uread; [exact Hfd|done|]. intros k s' Hk1 Hk2 Hk0 Hfd' _ Ho Hs'. cbn in Hk2. assert (k = 0%nat) as -> by lia. cbn. apply HQ.
Qed.

Lemma memset_all buf : ∀ n, length buf = n → memset buf 0 n = Some (replicate n 0).
Proof. induction buf as [|b buf IH]; intros [|n] Hn; try done. cbn. rewrite IH by (cbn in Hn; lia). done. Qed.

Lemma cstr_line line r : 0 ∉ line → cstr (line ++ 0 :: r) = line.
Proof.
  induction line as [|c line IH]; intros H; [done|]. apply not_elem_of_cons in H as [Hc H]. cbn.
  rewrite (proj2 (truthy_true c)) by done. by rewrite IH.
Qed.

Lemma wp_getcmd_line line rest buf s Q : reading (line ++ 10 :: rest) s → 0 ∉ line → 10 ∉ line → 13 ∉ line → (length line < 99)%nat →
  length buf = 100%nat →
  (∀ r s', reading rest s' → length (line ++ 10 :: 0 :: r) = 100%nat → Q (0, line ++ 10 :: 0 :: r) s') → wp (getcmd buf NBUF) s Q.
Proof.
  intros Hr H0 H10 H13 Hlen Hbuf HQ. unfold getcmd, write. wp_simpl. rewrite memset_all by done. unfold gets. wp_simpl.
  change (Z.to_nat (NBUF - 1)) with 99%nat. change (Z.to_nat NBUF) with 100%nat.
  eapply (wp_gets_line line); [exact Hr|done|done|lia|rewrite length_replicate; lia|]. intros s' Hr'. wp_simpl.
  rewrite drop_replicate. replace (100 - (0 + length line + 1))%nat with (S (98 - length line)) by lia. cbn [take app replicate].
  replace (0 + length line + 1)%nat with (length (line ++ [10])) by (rewrite length_app; cbn; lia).
  replace (line ++ 10 :: 0 :: replicate (98 - length line) 0) with ((line ++ [10]) ++ 0 :: replicate (98 - length line) 0) by by rewrite <- app_assoc.
  apply wp_store_at; [rewrite !length_app; cbn; lia|]. wp_simpl. rewrite insert_mid, <- app_assoc. cbn [app].
  assert (hd 0 (line ++ 10 :: 0 :: replicate (98 - length line) 0) =? 0 = false) as ->.
  { destruct line as [|c line]; [done|]. apply not_elem_of_cons in H0 as [Hc _]. cbn. by apply Z.eqb_neq. }
  apply HQ; [done|]. rewrite length_app. cbn [length]. rewrite length_replicate. lia.
Qed.

Lemma wp_getcmd_end buf s Q : reading [] s → length buf = 100%nat → (∀ r s', Q (-1, r) s') → wp (getcmd buf NBUF) s Q.
Proof.
  intros Hr Hbuf HQ. unfold getcmd, write. wp_simpl. rewrite memset_all by done. unfold gets. wp_simpl.
  eapply wp_gets_end; [exact Hr|rewrite length_replicate; unfold NBUF; lia|]. intros s'. wp_simpl.
  apply wp_store_at; [rewrite length_replicate; unfold NBUF; lia|]. wp_simpl. apply HQ.
Qed.

(** What the shell does for the commands [cs]. *)
Fixpoint session (works : nat → bool) (cs : list scmd) (std : std) : process :=
  match cs with
  | [] => exit_ 0
  | c :: cs => spawn works std (plan works c std) (emit (E_wait (table std)) (session works cs std))
  end.

(** A line of the input that holds a sentence and is no [cd]. *)
Definition typed (l : sline) (line : list Z) : Prop :=
  lfits l ∧ (∃ ws s, line ++ [10] = ws ++ s ∧ Forall white ws ∧ spells (ltoks l) s) ∧
  0 ∉ line ∧ 10 ∉ line ∧ 13 ∉ line ∧ (length line < 99)%nat ∧ take 3 (line ++ [10]) ≠ [99; 100; 32].

Section session.
Context (works : nat → bool) (std : std).

Lemma wp_attempts s Q : Q (works (w_calls (sh_world s))) (s <| sh_world ::= fun w => w <| w_calls ::= S |> |>) → wp (attempts works) s Q.
Proof. intros HQ. unfold attempts. by wp_simpl. Qed.

Lemma not_cd line r : take 3 (line ++ [10]) ≠ [99; 100; 32] → 0 ∉ line →
  let buf := line ++ 10 :: r in (nth 0 buf 0 =? 99) && (nth 1 buf 0 =? 100) && (nth 2 buf 0 =? 32) = false.
Proof.
  intros H H0 buf. subst buf. destruct line as [|a [|b [|c line]]]; cbn in *; [done|by rewrite andb_false_r| |].
  - by rewrite andb_false_r.
  - destruct (Z.eqb_spec a 99), (Z.eqb_spec b 100), (Z.eqb_spec c 32); try done. by subst.
Qed.

Definition input_of (lines : list (list Z)) : list Z := lines ≫= fun line => line ++ [10].

Lemma run_typed l line w : typed l line → run_line works (line ++ [10]) (table std) w = plan works (lmeans l) std w.
Proof.
  intros (H1 & (ws & s & Heq & H2 & H3) & H0 & _). rewrite Heq. apply run_line_means; [done..|]. rewrite <- Heq.
  rewrite elem_of_app, elem_of_cons, elem_of_nil. intros [?|[?|[]]]; done.
Qed.

Lemma wp_main_loop ls lines : Forall2 typed ls lines → ∀ fuel buf s, (length ls < fuel)%nat → length buf = 100%nat →
  reading (input_of lines) (sh_os s) → sh_fds s = table std →
  wp (main_loop works fuel buf) s (fun _ s' => sh_trace s' = sh_trace s ++ (session works (lmeans <$> ls) std (sh_world s)).1).
Proof.
  induction 1 as [|l line ls lines Ht Hts IH]; intros fuel buf s Hfuel Hbuf Hr Hfds; destruct fuel as [|fuel]; cbn [length] in *; try lia;
    cbn [main_loop]; unfold onos at 1; wp_simpl.
  - eapply wp_getcmd_end; [exact Hr|done|]. intros r o. change (-1 <? 0) with true. cbn iota. unfold event. wp_simpl. done.
  - cbn [input_of mbind list_bind] in Hr. rewrite <- app_assoc in Hr. pose proof Ht as (_ & _ & H0 & H10 & H13 & Hlen & Hcd).
    eapply wp_getcmd_line; [exact Hr|done..|]. intros r o Hr' Hbuf'. change (0 <? 0) with false. cbn iota. wp_simpl.
    rewrite (not_cd line (0 :: r)) by done. wp_simpl. apply wp_attempts. cbn [fmap list_fmap session]. unfold spawn, attempt.
    change (sh_world (s <| sh_os := o |>)) with (sh_world s).
    destruct (works (w_calls (sh_world s))) eqn:Ew.
    2:{ unfold event. wp_simpl. cbn -[cline]. rewrite Hfds, <- app_assoc. done. }
    cbv iota. wp_simpl. set (s1 := s <| sh_os := o |> <| sh_world ::= _ |>). change (sh_fds s1) with (sh_fds s). rewrite Hfds.
    replace (line ++ 10 :: 0 :: r) with ((line ++ [10]) ++ 0 :: r) by by rewrite <- app_assoc.
    rewrite cstr_line by (rewrite elem_of_app, elem_of_cons, elem_of_nil; intros [?|[?|[]]]; done). rewrite (run_typed l line) by done.
    change (sh_world s1) with ((sh_world s) <| w_calls ::= S |>). destruct (plan works (lmeans l) std _) as [child w] eqn:Ep.
    unfold event. wp_simpl. eapply wp_mono; [apply IH; [lia|by rewrite <- app_assoc|exact Hr'|exact Hfds]|].
    intros _ s2 ->. cbn [sh_trace sh_world setf]. unfold emit. cbn. destruct (session works _ std w). by rewrite <- !app_assoc.
Qed.

(** With the standard descriptors open, the first descriptor the shell opens is
    its fourth, and is closed again. *)
Lemma wp_open_console s Q : sh_fds s = table std →
  Q tt (s <| sh_world ::= fun w => w <| w_calls ::= S |> |>) → wp (open_console works (S NOFILE)) s Q.
Proof.
  intros Hfds HQ. destruct s as [o w t tr]. cbn in Hfds. subst t. cbn [open_console]. wp_simpl. apply wp_attempts. wp_simpl.
  destruct (works _); cbn [sh_fds]; [|by wp_simpl]. wp_simpl. exact HQ.
Qed.

Lemma input_length lines : (length lines ≤ length (input_of lines))%nat.
Proof. induction lines as [|l ls IH]; [done|]. change (input_of (l :: ls)) with ((l ++ [10]) ++ input_of ls). rewrite !length_app. cbn [length]. lia. Qed.

(** C11. A session of the shell, from the descriptors [init] leaves it: whatever
    lines with sentences are typed, the shell runs what each means in a child
    of its own, waits for it before it reads the next line, and exits with 0 at
    the end of the input (a fork that fails ends the shell). *)
Theorem sh_main_correct ls lines s :
  Forall2 typed ls lines → reading (input_of lines) (sh_os s) → sh_fds s = table std →
  wp (sh_main works) s (fun _ s' =>
    sh_trace s' = sh_trace s ++ (session works (lmeans <$> ls) std ((sh_world s) <| w_calls ::= S |>)).1).
Proof.
  intros Ht Hr Hfds. unfold sh_main. wp_simpl. apply wp_open_console; [done|]. wp_simpl.
  set (s1 := s <| sh_world ::= _ |>). change (sh_trace s) with (sh_trace s1).
  change ((sh_world s) <| w_calls ::= S |>) with (sh_world s1). change (sh_os s) with (sh_os s1) in Hr. change (sh_fds s1 = table std) in Hfds.
  eapply wp_main_loop; [done| |done|done|done]. rewrite (proj1 Hr). cbn [default]. rewrite (Forall2_length _ _ _ Ht).
  pose proof (input_length lines). cbn. lia.
Qed.

End session.

Lemma sh_main_correct_witness :
  wp (sh_main (fun _ => true)) (Shell (Os ∅ {[0 := sentence_text]} [] [] [] []) (World 0 0) (table console_std) [])
    (fun _ s' => sh_trace s' = [E_fork
      [E_fork [E_fork [E_exec [[97; 98]] (table (console_std <| s_in := H_file [102] O_RDONLY |> <| s_out := H_write 0 |>))];
               E_fork [E_exec [[99]] (table (console_std <| s_in := H_read 0 |>))]; E_wait (table console_std); E_wait (table console_std); E_exit 0]; E_exit 0];
      E_wait (table console_std); E_exit 0]).
Proof.
  eapply wp_mono; [apply (sh_main_correct (fun _ => true) console_std [sentence] [take 11 sentence_text])|].
  - constructor; [|constructor]. split_and!; [cbn; unfold MAXARGS; lia| |apply (bool_decide_unpack _); vm_compute; exact I..].
    exists [], sentence_text. split_and!; [done|constructor|exact sentence_spelled].
  - split; [done|constructor].
  - done.
  - intros _ s' ->. vm_compute. reflexivity.
Defined.
