(* ===== verification/Umalloc.v ===== *)
(** * The user-level allocator

    [user/umalloc.c].  A heap is the memory from [HEAP] to the end of the page
    with the break in it, as headers: [h_mem] gives the pointer and the size that
    a [Header] at an address holds, and an access outside faults.  The static header [base] is at [BASE].
    Memory from [sbrk] is zero, and there is some up to [h_limit].  The loops go
    around the free list, which has at most one block for each unit of the
    heap. *)

From Stdlib Require Import ZArith Lia.
From stdpp Require Import base gmap strings numbers list.
From S2P Require Import Prelude.
Local Open Scope xv6_scope.

Record Header := Hdr { ptr : Z; size : Z }.
#[global] Instance header_eta : Eta Header := fun h => Hdr (ptr h) (size h).

Definition SIZEOF_HEADER : Z := 16.

Record heap := Heap { h_mem : gmap Z Header; freep : Z; h_brk : Z; h_limit : Z }.
#[global] Instance heap_eta : Eta heap := fun h => Heap (h_mem h) (freep h) (h_brk h) (h_limit h).

(** Where the static header is, and where the heap begins. *)
Class Layout := { BASE : Z; HEAP : Z; base_pos : 0 < BASE; base_below : BASE + 16 ≤ HEAP; heap_aligned : HEAP mod 16 = 0 }.

Section allocator.
Context `{Layout}.

(** The kernel maps whole pages: the rest of the page with the break in it can be
    accessed too. *)
Definition page_end (brk : Z) : Z := (brk + 4095) / 4096 * 4096.
Definition valid (s : heap) (a : Z) : bool := (a =? BASE) || (HEAP <=? a) && (a + SIZEOF_HEADER <=? page_end (h_brk s)).

Definition rd (a : Z) : M heap Header :=
  s ← get; if valid s a then ret (default (Hdr 0 0) (h_mem s !! a)) else fault a.
Definition wr (a : Z) (h : Header) : M heap unit :=
  s ← get; if valid s a then modify (fun s => s <| h_mem ::= <[a := h]> |>) else fault a.
Definition set_ptr (a p : Z) : M heap unit := h ← rd a; wr a (h <| ptr := p |>).
Definition set_size (a n : Z) : M heap unit := h ← rd a; wr a (h <| size := n |>).

(** The system call, with its [int] argument. *)
Definition sbrk (n : Z) : M heap Z :=
  s ← get;
  let n := i32 n in
  if h_limit s <? h_brk s + n then ret (-1) else
  modify (fun s => s <| h_brk := if h_brk s + n <? 0 then h_brk s else h_brk s + n |>);;
  ret (h_brk s).

Definition walk_fuel (s : heap) : nat := (Z.to_nat ((h_brk s - HEAP) / 16) + 2)%nat.

Fixpoint free_loop (fuel : nat) (bp p : Z) : M heap Z :=
  match fuel with
  | O => out_of_fuel
  | S fuel =>
    h ← rd p;
    if (p <? bp) && (bp <? ptr h) then ret p
    else if (ptr h <=? p) && ((p <? bp) || (bp <? ptr h)) then ret p
    else free_loop fuel bp (ptr h)
  end.

(** [bp] joins the block behind it, or is linked to it. *)
Definition join_upper (bp p : Z) : M heap unit :=
  hb ← rd bp;
  hp ← rd p;
  if bp + SIZEOF_HEADER * size hb =? ptr hp then
    hn ← rd (ptr hp);
    set_size bp (u32 (size hb + size hn));;
    hp ← rd p;
    hn ← rd (ptr hp);
    set_ptr bp (ptr hn)
  else set_ptr bp (ptr hp).

(** [p] is joined by [bp], or linked to it. *)
Definition join_lower (bp p : Z) : M heap unit :=
  hp ← rd p;
  if p + SIZEOF_HEADER * size hp =? bp then
    hb ← rd bp;
    set_size p (u32 (size hp + size hb));;
    hb ← rd bp;
    set_ptr p (ptr hb)
  else set_ptr p bp.

Definition free (ap : Z) : M heap unit :=
  let bp := ap - SIZEOF_HEADER in
  s ← get;
  p ← free_loop (walk_fuel s) bp (freep s);
  join_upper bp p;;
  join_lower bp p;;
  modify (fun s => s <| freep := p |>).

Definition morecore (nu : Z) : M heap Z :=
  let nu := if nu <? 4096 then 4096 else nu in
  p ← sbrk (nu * SIZEOF_HEADER);
  if p =? -1 then ret 0 else
  set_size p nu;;
  free (p + SIZEOF_HEADER);;
  gets freep.

Fixpoint malloc_loop (fuel : nat) (nunits prevp p : Z) : M heap Z :=
  match fuel with
  | O => out_of_fuel
  | S fuel =>
    h ← rd p;
    if nunits <=? size h then
      p ← (if size h =? nunits then set_ptr prevp (ptr h);; ret p
           else
             set_size p (u32 (size h - nunits));;
             h ← rd p;
             let p := p + SIZEOF_HEADER * size h in
             set_size p nunits;;
             ret p);
      modify (fun s => s <| freep := prevp |>);;
      ret (p + SIZEOF_HEADER)
    else
      s ← get;
      p ← (if p =? freep s then morecore nunits else ret p);
      if p =? 0 then ret 0 else
      h ← rd p;
      malloc_loop fuel nunits p (ptr h)
  end.

Definition malloc (nbytes : Z) : M heap Z :=
  let nunits := u32 ((nbytes + SIZEOF_HEADER - 1) / SIZEOF_HEADER + 1) in
  s ← get;
  (if freep s =? 0 then
     set_ptr BASE BASE;;
     modify (fun s => s <| freep := BASE |>);;
     set_size BASE 0
   else ret tt);;
  s ← get;
  h ← rd (freep s);
  malloc_loop (2 * walk_fuel s + 2) nunits (freep s) (ptr h).

End allocator.
