(* ===== verification/UmallocFacts.v ===== *)
(** * The user-level allocator is correct

    The free list is circular, in the order of addresses, and its blocks do not
    touch; free and allocated blocks lie apart in the heap.  [free] gives a
    block back, [malloc] takes one from it, and no memory of a block in use is
    changed. *)

From Stdlib Require Import ZArith Lia.
From stdpp Require Import base gmap strings numbers list.
From S2P Require Import Prelude Umalloc.
Local Open Scope xv6_scope.

(** ** Blocks *)

(** A block: its address and its size in units. *)
Notation block := (Z * Z)%type.
Definition bend (b : block) : Z := b.1 + 16 * b.2.
Definition disj (x y : block) : Prop := bend x ≤ y.1 ∨ bend y ≤ x.1.

(** In the order of addresses, with a gap between any two. *)
Fixpoint sorted (bs : list block) : Prop :=
  match bs with [] => True | b :: r => Forall (fun y => bend b < y.1) r ∧ sorted r end.

Lemma sorted_app l1 l2 : sorted (l1 ++ l2) ↔ sorted l1 ∧ sorted l2 ∧ Forall (fun x => Forall (fun y => bend x < y.1) l2) l1.
Proof.
  induction l1 as [|b l1 IH]; cbn; [split; [intros H; split_and!; [done|done|constructor]|tauto]|].
  rewrite Forall_app, IH, Forall_cons. tauto.
Qed.

(** The first address of [bs], or [last]. *)
Definition haddr (bs : list block) (last : Z) : Z := match bs with [] => last | b :: _ => b.1 end.

(** The blocks are linked one to the next, the last one to [last]. *)
Fixpoint linked (m : gmap Z Header) (bs : list block) (last : Z) : Prop :=
  match bs with
  | [] => True
  | b :: r => m !! b.1 = Some (Hdr (haddr r last) b.2) ∧ linked m r last
  end.

Lemma linked_app m l1 l2 last : linked m (l1 ++ l2) last ↔ linked m l1 (haddr l2 last) ∧ linked m l2 last.
Proof. induction l1 as [|b l1 IH]; cbn; [tauto|]. rewrite IH. destruct l1; cbn; tauto. Qed.

Lemma linked_ext m m' bs last : (∀ b, b ∈ bs → m' !! b.1 = m !! b.1) → linked m bs last → linked m' bs last.
Proof.
  induction bs as [|b bs IH]; intros Hm Hc; [done|]. destruct Hc as [H1 H2]. split; [rewrite Hm; [done|by left]|].
  apply IH; [|done]. intros x Hx. apply Hm. by right.
Qed.

Lemma linked_insert m a h bs last : (∀ b, b ∈ bs → b.1 ≠ a) → linked m bs last → linked (<[a := h]> m) bs last.
Proof. intros Ha. apply linked_ext. intros b Hb. rewrite lookup_insert_ne; [done|]. intros E. by apply (Ha b Hb). Qed.

(** [c] is in an allocated block. *)
Definition inside (al : gmap Z Z) (c : Z) : Prop := ∃ a n, al !! a = Some n ∧ a ≤ c < a + 16 * n.

Section facts.
Context `{L : Layout}.

(** A block of the heap. *)
Definition in_heap (s : heap) (b : block) : Prop := HEAP ≤ b.1 ∧ b.1 mod 16 = 0 ∧ 0 < b.2 ∧ bend b ≤ h_brk s.

(** The free blocks behind the static header are [bs], the allocated ones
    [al]. *)
Record inv (bs : list block) (al : gmap Z Z) (s : heap) : Prop := {
  iv_chain : linked (h_mem s) ((BASE, 0) :: bs) BASE;
  iv_sorted : sorted bs;
  iv_free : Forall (in_heap s) bs;
  iv_alloc : ∀ a n, al !! a = Some n → in_heap s (a, n) ∧ ∃ p, h_mem s !! a = Some (Hdr p n);
  iv_apart : ∀ a n a' n', al !! a = Some n → al !! a' = Some n' → a ≠ a' → disj (a, n) (a', n');
  iv_apart_free : ∀ a n b, al !! a = Some n → b ∈ bs → disj (a, n) b;
  iv_freep : freep s ∈ BASE :: bs.*1;
  iv_brk : h_brk s mod 16 = 0 ∧ HEAP ≤ h_brk s ≤ h_limit s ∧ h_limit s ≤ 2 ^ 36
}.

Lemma page_end_le brk : brk ≤ page_end brk.
Proof. unfold page_end. zlia. Qed.

Lemma heap_sizes s b : in_heap s b → h_brk s ≤ 2 ^ 36 → 0 < b.2 < 2 ^ 32 ∧ BASE < b.1 ∧ valid s b.1 = true ∧ valid s BASE = true.
Proof.
  pose proof base_pos. pose proof base_below. pose proof (page_end_le (h_brk s)) as Hpe. unfold in_heap, bend, valid, SIZEOF_HEADER. intros (H1 & H2 & H3 & H4) H5. split_and!; [lia..| |].
  - apply orb_true_iff. right. apply andb_true_iff. lia.
  - by rewrite Z.eqb_refl.
Qed.

Lemma wp_rd a h s Q : valid s a = true → h_mem s !! a = Some h → Q h s → wp (rd a) s Q.
Proof. intros Hv Hm HQ. unfold rd. wp_simpl. rewrite Hv. wp_simpl. by rewrite Hm. Qed.

Lemma wp_wr a h s Q : valid s a = true → Q tt (s <| h_mem ::= <[a := h]> |>) → wp (wr a h) s Q.
Proof. intros Hv HQ. unfold wr. wp_simpl. rewrite Hv. by wp_simpl. Qed.

Lemma wp_set_ptr a p h s Q : valid s a = true → h_mem s !! a = Some h →
  Q tt (s <| h_mem ::= <[a := Hdr p (size h)]> |>) → wp (set_ptr a p) s Q.
Proof. intros Hv Hm HQ. unfold set_ptr. wp_simpl. eapply wp_rd; [done..|]. by apply wp_wr. Qed.

Lemma wp_set_size a n h s Q : valid s a = true → h_mem s !! a = Some h →
  Q tt (s <| h_mem ::= <[a := Hdr (ptr h) n]> |>) → wp (set_size a n) s Q.
Proof. intros Hv Hm HQ. unfold set_size. wp_simpl. eapply wp_rd; [done..|]. by apply wp_wr. Qed.

(** ** Finding the place of a block *)

(** [p] is a block of the list, [bp] lies behind it and before the next. *)
Lemma wp_free_here fuel bp p l2 s Q : valid s p.1 = true → linked (h_mem s) (p :: l2) BASE → p.1 < bp → BASE < bp →
  Forall (fun y => bp < y.1) l2 → BASE ≤ p.1 → Q p.1 s → wp (free_loop (S fuel) bp p.1) s Q.
Proof.
  intros Hv [Hm _] Hp Hb Hl Hbase HQ. cbn [free_loop]. wp_simpl. eapply wp_rd; [done..|]. cbn [ptr].
  destruct Hl as [|y l2 Hy _]; cbn [haddr].
  - replace (p.1 <? bp) with true by lia. replace (bp <? BASE) with false by lia. replace (BASE <=? p.1) with true by lia. cbn. by wp_simpl.
  - replace (p.1 <? bp) with true by lia. replace (bp <? y.1) with true by lia. cbn. by wp_simpl.
Qed.

(** What the walk needs of a list of blocks. *)
Definition walkable (s : heap) (bs : list block) : Prop :=
  sorted bs ∧ Forall (fun b => valid s b.1 = true ∧ BASE ≤ b.1 ∧ 0 ≤ b.2) bs.

Lemma walkable_cons s b bs : walkable s (b :: bs) →
  valid s b.1 = true ∧ BASE ≤ b.1 ∧ 0 ≤ b.2 ∧ Forall (fun y => bend b < y.1) bs ∧ walkable s bs.
Proof. intros [[H1 H2] [(H3 & H4 & H5) H6]%Forall_cons]. done. Qed.

(** From a block before [p], on to [p]. *)
Lemma wp_free_forward seg : ∀ fuel bp p l2 s Q, walkable s (seg ++ p :: l2) →
  linked (h_mem s) (seg ++ p :: l2) BASE → (length seg < fuel)%nat → BASE < bp → p.1 < bp → Forall (fun y => bp < y.1) l2 →
  Q p.1 s → wp (free_loop fuel bp (haddr (seg ++ p :: l2) BASE)) s Q.
Proof.
  induction seg as [|x seg IH]; intros fuel bp p l2 s Q Hw Hc Hf Hb Hp Hl HQ; destruct fuel as [|fuel]; cbn [length] in *; try lia;
    apply walkable_cons in Hw as (Hv & Hbase & Hn & Hx & Hw).
  - by apply wp_free_here with l2.
  - destruct Hc as [Hm Hc]. cbn [app haddr free_loop]. wp_simpl. eapply wp_rd; [done..|]. cbn [ptr]. fold (app seg (p :: l2)).
    assert (x.1 < haddr (seg ++ p :: l2) BASE < bp) as Hy.
    { destruct seg as [|y seg]; cbn in *; apply Forall_cons in Hx as [Hx _]; unfold bend in Hx; [lia|].
      apply walkable_cons in Hw as (_ & _ & Hy & Hyp & _). apply Forall_app in Hyp as [_ [Hyp _]%Forall_cons]. unfold bend in Hyp. lia. }
    replace (bp <? haddr (seg ++ p :: l2) BASE) with false by lia. replace (haddr (seg ++ p :: l2) BASE <=? x.1) with false by lia.
    rewrite andb_false_r. cbn [andb]. cbv iota. apply IH; [done|done|lia|done..].
Qed.

(** From a block behind [bp], on to the static header. *)
Lemma wp_free_around r : ∀ fuel bp s Q, walkable s r → linked (h_mem s) r BASE → (length r ≤ fuel)%nat → BASE < bp →
  Forall (fun y => bp < y.1) r → wp (free_loop (fuel - length r) bp BASE) s Q → wp (free_loop fuel bp (haddr r BASE)) s Q.
Proof.
  induction r as [|x r IH]; intros fuel bp s Q Hw Hc Hf Hb Hr HQ; [by rewrite Nat.sub_0_r in HQ|]. destruct fuel as [|fuel]; cbn [length] in *; [lia|].
  apply walkable_cons in Hw as (Hv & Hbase & Hn & Hx & Hw). apply Forall_cons in Hr as [Hxb Hr]. destruct Hc as [Hm Hc].
  cbn [haddr free_loop]. wp_simpl. eapply wp_rd; [done..|]. cbn [ptr]. replace (x.1 <? bp) with false by lia. cbn [andb orb]. cbv iota.
  replace ((haddr r BASE <=? x.1) && (bp <? haddr r BASE)) with false; [apply IH; [done|done|lia|done|done|exact HQ]|].
  destruct r as [|y r]; cbn [haddr]; [lia|]. apply Forall_cons in Hx as [Hx _]. unfold bend in Hx. lia.
Qed.

(** The place of a block is found from wherever the walk begins. *)
Lemma wp_free_loop bs fuel bp f l1 p l2 s Q : bs = l1 ++ p :: l2 → walkable s bs → linked (h_mem s) bs BASE → haddr bs BASE = BASE →
  (length bs < fuel)%nat → BASE < bp → f ∈ bs.*1 → p.1 < bp → Forall (fun y => bp < y.1) l2 → Q p.1 s → wp (free_loop fuel bp f) s Q.
Proof.
  intros Hbs Hw Hc Hh Hf Hb (x & -> & (k & r & Hk)%list_elem_of_split)%list_elem_of_fmap Hp Hl HQ.
  assert (∀ m, x :: r = m ++ p :: l2 → (length m < fuel)%nat → wp (free_loop fuel bp x.1) s Q) as Hfwd.
  { intros m Hm Hlen. change x.1 with (haddr (x :: r) BASE). rewrite Hm. rewrite Hk, Hm in Hw, Hc. apply wp_free_forward; try done.
    - destruct Hw as [(_ & ? & _)%sorted_app [_ ?]%Forall_app]. done.
    - by apply linked_app in Hc as [_ ?]. }
  pose proof Hbs as Hb2. rewrite Hk in Hb2. apply (f_equal length) in Hb2 as Hlen. rewrite !length_app in Hlen. cbn [length] in Hlen.
  rewrite Hbs, length_app in Hf. cbn [length] in Hf.
  apply app_eq_inv in Hb2 as [(m & -> & Hm)|(m & -> & Hm)].
  - destruct m as [|y m]; [apply (Hfwd [] (eq_sym Hm)); cbn; lia|]. injection Hm as <- Hm.
    pose proof Hl as Hl0. rewrite Hm, Forall_app in Hl. destruct Hl as [_ Hr]. pose proof Hw as Hw0. pose proof Hc as Hc0. rewrite Hk in Hw, Hc.
    change x.1 with (haddr (x :: r) BASE). apply (f_equal length) in Hm. rewrite length_app in Hm. cbn [length] in *. apply wp_free_around; [| |cbn; lia|done|done|].
    + destruct Hw as [(_ & ? & _)%sorted_app [_ ?]%Forall_app]. done.
    + by apply linked_app in Hc as [_ ?].
    + rewrite <- Hh at 1. rewrite Hbs in Hw0, Hc0 |- *. apply wp_free_forward; [done|done|cbn; lia|done..].
  - apply (Hfwd m Hm). rewrite length_app in *. lia.
Qed.

(** ** The invariant *)

Lemma inv_walkable bs al s : inv bs al s → walkable s ((BASE, 0) :: bs).
Proof.
  intros []. destruct iv_brk0 as (_ & Hb & Hl). split.
  - split; [|done]. apply (Forall_impl _ _ _ iv_free0). intros b Hb'. apply heap_sizes in Hb'; [|lia]. unfold bend. cbn. lia.
  - constructor; [|apply (Forall_impl _ _ _ iv_free0); intros b Hb'; apply heap_sizes in Hb' as (? & ? & ? & ?); [split_and!; [done|lia|lia]|lia]].
    cbn. split_and!; [by unfold valid; rewrite Z.eqb_refl|lia|lia].
Qed.

(** There are no more free blocks than units in the heap. *)
Lemma sorted_room bs : ∀ a e, sorted bs → Forall (fun b => a ≤ b.1 ∧ 0 < b.2 ∧ bend b ≤ e) bs → Z.of_nat (length bs) * 16 ≤ Z.max 0 (e - a).
Proof.
  induction bs as [|b bs IH]; intros a e Hs Hb; [cbn; lia|]. destruct Hs as [H1 H2]. apply Forall_cons in Hb as [(Ha & Hn & He) Hb].
  specialize (IH (bend b) e H2). cbn [length]. unfold bend in *.
  assert (Z.of_nat (length bs) * 16 ≤ Z.max 0 (e - (b.1 + 16 * b.2))); [|lia].
  apply IH. apply Forall_forall. intros y Hy. rewrite Forall_forall in H1, Hb. specialize (H1 y Hy). specialize (Hb y Hy). lia.
Qed.

Lemma inv_room bs al s : inv bs al s → (S (length bs) < walk_fuel s)%nat.
Proof.
  intros [? Hs Hf _ _ _ _ (Ha & Hb & Hl)]. unfold walk_fuel.
  pose proof (sorted_room bs HEAP (h_brk s) Hs) as H. pose proof heap_aligned.
  assert (Z.of_nat (length bs) * 16 ≤ Z.max 0 (h_brk s - HEAP)).
  { apply H. apply (Forall_impl _ _ _ Hf). intros b (? & ? & ? & ?). lia. }
  assert (Z.of_nat (length bs) ≤ (h_brk s - HEAP) / 16) by (apply Z.div_le_lower_bound; lia). lia.
Qed.

(** Where a block goes. *)
Lemma split_at (bp : Z) bs : sorted bs → Forall (fun b => 0 ≤ b.2 ∧ b.1 ≠ bp) bs →
  ∃ l1 l2, bs = l1 ++ l2 ∧ Forall (fun b => b.1 < bp) l1 ∧ Forall (fun b => bp < b.1) l2.
Proof.
  induction bs as [|b bs IH]; intros Hs Hb; [by exists [], []|]. destruct Hs as [H1 H2]. apply Forall_cons in Hb as [[Hn Hne] Hb].
  destruct (decide (b.1 < bp)).
  - destruct (IH H2 Hb) as (l1 & l2 & -> & ? & ?). exists (b :: l1), l2. split_and!; [done|by constructor|done].
  - exists [], (b :: bs). split_and!; [done|constructor|]. constructor; [lia|]. apply (Forall_impl _ _ _ H1). intros y Hy. unfold bend in Hy. lia.
Qed.

(** A block [b] before the blocks [l2]: the block it becomes, and the rest. *)
Definition upper (b : block) (l2 : list block) : block * list block :=
  match l2 with
  | y :: r => if bend b =? y.1 then ((b.1, b.2 + y.2), r) else (b, l2)
  | [] => (b, [])
  end.

Definition put (a : Z) (h : Header) (s : heap) : heap := s <| h_mem ::= <[a := h]> |>.

Lemma put_put a h h' s : put a h' (put a h s) = put a h' s.
Proof. unfold put, setf. cbn. by rewrite insert_insert_eq. Qed.

Lemma wp_join_upper b p l2 q s Q : valid s b.1 = true → valid s p.1 = true → b.1 ≠ p.1 → BASE < bend b →
  h_mem s !! b.1 = Some (Hdr q b.2) → h_mem s !! p.1 = Some (Hdr (haddr l2 BASE) p.2) → linked (h_mem s) l2 BASE →
  Forall (fun y => y.1 ≠ b.1 ∧ y.1 ≠ p.1 ∧ valid s y.1 = true ∧ 0 ≤ b.2 + y.2 < 2 ^ 32) l2 →
  Q tt (put b.1 (Hdr (haddr (upper b l2).2 BASE) (upper b l2).1.2) s) → wp (join_upper b.1 p.1) s Q.
Proof.
  intros Hvb Hvp Hne Hbase Hb Hp Hl Hf HQ. unfold join_upper. wp_simpl. eapply wp_rd; [done..|]. wp_simpl. eapply wp_rd; [done..|]. cbn [size ptr].
  change (b.1 + SIZEOF_HEADER * b.2) with (bend b).
  destruct l2 as [|y r]; cbn [haddr upper fst snd] in *.
  { replace (bend b =? BASE) with false by lia. eapply wp_set_ptr; [done..|]. exact HQ. }
  destruct (Z.eqb_spec (bend b) y.1) as [E|E]; [|eapply wp_set_ptr; [done..|]; exact HQ].
  apply Forall_cons in Hf as [(Hyb & Hyp & Hvy & Hsum) _]. destruct Hl as [Hy _].
  wp_simpl. eapply wp_rd; [done..|]. wp_simpl. eapply wp_set_size; [done..|]. cbn [size ptr]. wp_simpl.
  eapply wp_rd; [done|cbn; by rewrite lookup_insert_ne|]. cbn [ptr]. wp_simpl. eapply wp_rd; [done|cbn; by rewrite lookup_insert_ne|]. cbn [ptr].
  eapply wp_set_ptr; [done|cbn; by rewrite lookup_insert_eq|]. cbn [size]. fold (put b.1 (Hdr q (u32 (b.2 + y.2))) s).
  fold (put b.1 (Hdr (haddr r BASE) (u32 (b.2 + y.2))) (put b.1 (Hdr q (u32 (b.2 + y.2))) s)). rewrite put_put, u32_small by lia. exact HQ.
Qed.

Lemma wp_join_lower b p l q s Q : valid s b.1 = true → valid s p.1 = true → b.1 ≠ p.1 → 0 ≤ p.2 + b.2 < 2 ^ 32 →
  h_mem s !! b.1 = Some (Hdr l b.2) → h_mem s !! p.1 = Some (Hdr q p.2) →
  Q tt (put p.1 (if bend p =? b.1 then Hdr l (p.2 + b.2) else Hdr b.1 p.2) s) → wp (join_lower b.1 p.1) s Q.
Proof.
  intros Hvb Hvp Hne Hsum Hb Hp HQ. unfold join_lower. wp_simpl. eapply wp_rd; [done..|]. cbn [size ptr].
  change (p.1 + SIZEOF_HEADER * p.2) with (bend p). destruct (bend p =? b.1); [|eapply wp_set_ptr; [done..|]; exact HQ].
  wp_simpl. eapply wp_rd; [done..|]. wp_simpl. eapply wp_set_size; [done..|]. cbn [size ptr]. wp_simpl.
  eapply wp_rd; [done|cbn; by rewrite lookup_insert_ne|]. cbn [ptr].
  eapply wp_set_ptr; [done|cbn; by rewrite lookup_insert_eq|]. cbn [size]. fold (put p.1 (Hdr q (u32 (p.2 + b.2))) s).
  fold (put p.1 (Hdr l (u32 (p.2 + b.2))) (put p.1 (Hdr q (u32 (p.2 + b.2))) s)). rewrite put_put, u32_small by lia. exact HQ.
Qed.

Lemma upper_ok b l2 b1 r1 : upper b l2 = (b1, r1) → sorted l2 → Forall (fun y => bend b ≤ y.1 ∧ 0 < y.2) l2 →
  b1.1 = b.1 ∧ b.2 ≤ b1.2 ∧ Forall (fun y => bend b1 < y.1) r1 ∧ sorted r1 ∧ (length r1 ≤ length l2)%nat ∧ (∀ y, y ∈ r1 → y ∈ l2) ∧
  (bend b1 = bend b ∨ ∃ y, y ∈ l2 ∧ bend b = y.1 ∧ bend b1 = bend y) ∧ ∀ m, linked m l2 BASE → linked m r1 BASE.
Proof.
  intros Hu Hs Hf. destruct l2 as [|y r]; cbn in Hu; [injection Hu as <- <-; split_and!; [done|lia|constructor|done|done|done|by left|done]|].
  destruct Hs as [Hy Hs]. apply Forall_cons in Hf as [[Hby Hn] Hf]. destruct (Z.eqb_spec (bend b) y.1) as [E|E]; injection Hu as <- <-.
  - unfold bend in *. cbn [fst snd] in *. split_and!; [done|lia| |done|cbn; lia|by right| |by intros m [_ ?]].
    + apply (Forall_impl _ _ _ Hy). intros x Hx. lia.
    + right. exists y. split_and!; [by left|done|lia].
  - split_and!; [done|done| |done|done|done|by left|done]. constructor; [lia|].
    apply (Forall_impl _ _ _ Hy). intros x Hx. unfold bend in *. lia.
Qed.

(** The cells of the blocks. *)
Definition covers (bs : list block) (c : Z) : Prop := ∃ b, b ∈ bs ∧ b.1 ≤ c < bend b.

Lemma covers_cons b bs c : covers (b :: bs) c ↔ b.1 ≤ c < bend b ∨ covers bs c.
Proof.
  unfold covers. setoid_rewrite elem_of_cons. split; [intros (x & [->|Hx] & H); [by left|right; by exists x]|].
  intros [H|(x & Hx & H)]; [exists b|exists x]; tauto.
Qed.

Lemma covers_app l1 l2 c : covers (l1 ++ l2) c ↔ covers l1 c ∨ covers l2 c.
Proof.
  unfold covers. setoid_rewrite elem_of_app. split; [intros (x & [Hx|Hx] & H); [left|right]; by exists x|].
  intros [(x & Hx & H)|(x & Hx & H)]; exists x; tauto.
Qed.

Lemma covers_upper b l2 b1 r1 c : upper b l2 = (b1, r1) → 0 ≤ b.2 → Forall (fun y => 0 < y.2) l2 →
  covers (b1 :: r1) c ↔ covers (b :: l2) c.
Proof.
  intros Hu Hb Hf. destruct l2 as [|y r]; cbn in Hu; [by injection Hu as <- <-|]. apply Forall_cons in Hf as [Hy _].
  destruct (Z.eqb_spec (bend b) y.1) as [E|E]; injection Hu as <- <-; [|done]. rewrite !covers_cons. unfold bend in *. cbn [fst snd].
  assert (b.1 ≤ c < b.1 + 16 * (b.2 + y.2) ↔ b.1 ≤ c < b.1 + 16 * b.2 ∨ y.1 ≤ c < y.1 + 16 * y.2) as -> by lia. tauto.
Qed.

(** What [free] and [malloc] leave as it is. *)
Definition keeps (al : gmap Z Z) (s s' : heap) : Prop :=
  h_brk s ≤ h_brk s' ∧ h_limit s' = h_limit s ∧ ∀ c, inside al c → h_mem s' !! c = h_mem s !! c.

Lemma inv_freed bs al a n s s' bs' : inv bs (<[a := n]> al) s → al !! a = None → h_brk s' = h_brk s → keeps al s s' →
  linked (h_mem s') ((BASE, 0) :: bs') BASE → sorted bs' → freep s' ∈ BASE :: bs'.*1 →
  (∀ b, b ∈ bs' → in_heap s b ∧ ∀ c k, al !! c = Some k → disj (c, k) b) → inv bs' al s'.
Proof.
  intros [Hc Hs Hf Ha Hap Haf Hfp Hb] Hal Hbrk (_ & Hlim & Hm) Hc' Hs' Hfp' Hb'.
  assert (∀ b, in_heap s b → in_heap s' b) as Hih by (unfold in_heap; by rewrite Hbrk).
  assert (∀ c k, al !! c = Some k → <[a := n]> al !! c = Some k) as Hin by (intros c k Hck; rewrite lookup_insert_ne; [done|congruence]).
  split; try done.
  - apply Forall_forall. intros b Hbb. by apply Hih, Hb'.
  - intros c k Hck. destruct (Ha c k) as [H1 [q Hq]]; [by apply Hin|]. split; [by apply Hih|]. exists q.
    rewrite Hm; [done|]. exists c, k. split; [done|]. destruct H1 as (_ & _ & ? & _). cbn in *. lia.
  - intros c k c' k' H1 H2. apply Hap; by apply Hin.
  - intros c k b Hck Hbb. by apply Hb'.
  - by rewrite Hbrk, Hlim.
Qed.

Lemma keeps_put al s a h n bs s' c : inv bs (<[a := n]> al) s → al !! a = None →
  c ∈ (BASE, 0) :: (a, n) :: bs → keeps al s s' → keeps al s (put c.1 h s').
Proof.
  intros [Hc Hs Hf Ha Hap Haf Hfp Hb] Hal Hcin (H1 & H2 & H3). split_and!; [done|done|]. intros x Hx. cbn.
  rewrite lookup_insert_ne; [by apply H3|]. intros <-. destruct Hx as (c' & k & Hck & Hr).
  assert (<[a := n]> al !! c' = Some k) as Hck' by (rewrite lookup_insert_ne; [done|congruence]). pose proof base_below.
  apply elem_of_cons in Hcin as [->|[->|Hcin]%elem_of_cons]; cbn in Hr.
  - destruct (Ha c' k Hck') as [(? & _) _]. cbn in *. lia.
  - destruct (Ha a n) as [(_ & _ & Hn & _) _]; [by rewrite lookup_insert_eq|]. destruct (Hap c' k a n Hck') as [Hd|Hd];
      [by rewrite lookup_insert_eq|congruence|unfold bend in Hd; cbn in *; lia..].
  - rewrite Forall_forall in Hf. destruct (Hf c Hcin) as (_ & _ & Hn & _). destruct (Haf c' k c Hck' Hcin) as [Hd|Hd]; unfold bend in Hd; cbn in *; lia.
Qed.

(** The blocks around the place of [(a, n)]. *)
Lemma inv_split bs al a n s : inv bs (<[a := n]> al) s →
  ∃ l1 l2, bs = l1 ++ l2 ∧ Forall (fun b => bend b ≤ a) l1 ∧ Forall (fun b => a + 16 * n ≤ b.1 ∧ 0 < b.2) l2.
Proof.
  intros [Hc Hs Hf Ha Hap Haf Hfp Hb]. destruct (Ha a n) as [(H1 & H2 & H3 & H4) _]; [by rewrite lookup_insert_eq|]. cbn in *.
  assert (∀ b, b ∈ bs → 0 < b.2 ∧ disj (a, n) b) as Hd.
  { intros b Hb'. rewrite Forall_forall in Hf. split; [apply Hf, Hb'|]. apply Haf; [by rewrite lookup_insert_eq|done]. }
  destruct (split_at a bs Hs) as (l1 & l2 & -> & Hl1 & Hl2).
  { apply Forall_forall. intros b Hb'. destruct (Hd b Hb') as [? [Hd'|Hd']]; unfold bend in Hd'; cbn in Hd'; lia. }
  exists l1, l2. split; [done|]. rewrite Forall_forall in Hl1, Hl2. split; apply Forall_forall; intros b Hb'.
  - destruct (Hd b) as [? [Hd'|Hd']]; [set_solver| |done]. specialize (Hl1 b Hb'). unfold bend in *. cbn in *. lia.
  - destruct (Hd b) as [? [Hd'|Hd']]; [set_solver|done|]. specialize (Hl2 b Hb'). unfold bend in *. cbn in *. lia.
Qed.

(** What [free] does to the memory, [p] being the block before. *)
Lemma wp_free_steps l1 l2 al a n s k p b1 r1 Q : inv (l1 ++ l2) (<[a := n]> al) s →
  Forall (fun b => bend b ≤ a) l1 → Forall (fun b => a + 16 * n ≤ b.1 ∧ 0 < b.2) l2 →
  (BASE, 0) :: l1 = k ++ [p] → upper (a, n) l2 = (b1, r1) →
  Q tt ((put p.1 (if bend p =? a then Hdr (haddr r1 BASE) (p.2 + b1.2) else Hdr a p.2) (put a (Hdr (haddr r1 BASE) b1.2) s)) <| freep := p.1 |>) →
  wp (free (a + SIZEOF_HEADER)) s Q.
Proof.
  intros Hi Hl1 Hl2 Hk Hu HQ. pose proof (inv_walkable _ _ _ Hi) as Hw. pose proof (inv_room _ _ _ Hi) as Hroom.
  destruct Hi as [Hc Hs Hf Ha Hap Haf Hfp (_ & Hb & Hlim)]. destruct (Ha a n) as [Hin [q Hq]]; [by rewrite lookup_insert_eq|].
  destruct (heap_sizes s (a, n) Hin) as (Hn & Hba & Hva & Hvb); [lia|]. cbn [fst snd] in *. destruct Hin as (_ & _ & _ & Hae). unfold bend in Hae. cbn in Hae.
  apply sorted_app in Hs as (Hs1 & Hs2 & Hs12). apply Forall_app in Hf as [Hf1 Hf2].
  change ((BASE, 0) :: l1 ++ l2) with (((BASE, 0) :: l1) ++ l2) in *. change (BASE :: (l1 ++ l2).*1) with ((((BASE, 0) :: l1) ++ l2).*1) in Hfp.
  rewrite Hk, <- app_assoc in Hw, Hc, Hfp. cbn [app] in *.
  assert (bend p ≤ a ∧ p.1 < a ∧ 0 ≤ p.2 ∧ 0 < p.1) as (Hpa & Hpa' & Hp2 & Hp0).
  { assert (p ∈ (BASE, 0) :: l1) as [->|Hpl]%elem_of_cons by (rewrite Hk; set_solver).
    - pose proof base_pos. unfold bend. cbn. lia.
    - rewrite Forall_forall in Hl1, Hf1. specialize (Hl1 p Hpl). destruct (Hf1 p Hpl) as (? & _ & ? & _). pose proof base_below. pose proof base_pos. unfold bend in *. lia. }
  assert (valid s p.1 = true) as Hvp by (destruct Hw as [_ [_ [(Hv & _) _]%Forall_cons]%Forall_app]; done).
  assert (h_mem s !! p.1 = Some (Hdr (haddr l2 BASE) p.2) ∧ linked (h_mem s) l2 BASE) as [Hmp Hml] by (by apply linked_app in Hc as [_ [? ?]]).
  unfold free. wp_simpl. replace (a + SIZEOF_HEADER - SIZEOF_HEADER) with a by lia.
  eapply (wp_free_loop (k ++ p :: l2)); [done|done|done|by destruct k; [injection Hk as <-|injection Hk as <- _]| |done|done|done| |].
  { apply (f_equal length) in Hk. rewrite !length_app in *. cbn [length] in *. lia. }
  { apply (Forall_impl _ _ _ Hl2). intros y Hy. lia. }
  wp_simpl. apply (wp_join_upper (a, n) p l2 q); cbn [fst snd]; try done; [lia|unfold bend; cbn; lia| |].
  { apply Forall_forall. intros y Hy. rewrite Forall_forall in Hl2, Hf2. specialize (Hl2 y Hy). specialize (Hf2 y Hy).
    destruct (heap_sizes s y Hf2) as (? & ? & ? & _); [lia|]. destruct Hf2 as (_ & _ & _ & Hye). unfold bend in Hye. cbn [fst snd]. pose proof base_pos. split_and!; [lia|lia|done|lia|lia]. }
  rewrite Hu. cbn [fst snd]. wp_simpl.
  destruct (upper_ok _ _ _ _ Hu Hs2 Hl2) as (Hb1 & Hnb1 & _ & _ & _ & _ & Hbe & _). cbn [fst snd] in *.
  replace a with b1.1 at 1 2 by done.
  apply (wp_join_lower b1 p (haddr r1 BASE) (haddr l2 BASE)); try done; [by rewrite Hb1|lia| | | |].
  { assert (bend b1 ≤ h_brk s).
    { destruct Hbe as [->|(y & Hy & _ & ->)]; [unfold bend; cbn; lia|]. rewrite Forall_forall in Hf2. apply (Hf2 y Hy). }
    unfold bend in *. lia. }
  { rewrite Hb1. cbn. by rewrite lookup_insert_eq. }
  { cbn. rewrite lookup_insert_ne by lia. done. }
  rewrite Hb1. wp_simpl. exact HQ.
Qed.

(** The list after [free]. *)
Definition freed (k : list block) (p b1 : block) (r1 : list block) : list block :=
  if bend p =? b1.1 then k ++ (p.1, p.2 + b1.2) :: r1 else k ++ p :: b1 :: r1.

Lemma linked_freed m k p b1 r1 : linked m k p.1 → linked m r1 BASE → Forall (fun x => x.1 < p.1) k → p.1 < b1.1 →
  Forall (fun y => b1.1 < y.1) r1 →
  linked (<[p.1 := if bend p =? b1.1 then Hdr (haddr r1 BASE) (p.2 + b1.2) else Hdr b1.1 p.2]> (<[b1.1 := Hdr (haddr r1 BASE) b1.2]> m))
    (freed k p b1 r1) BASE.
Proof.
  intros Hk Hr Hkp Hpb Hrb. rewrite Forall_forall in Hkp, Hrb.
  assert (∀ h h', linked (<[p.1 := h]> (<[b1.1 := h']> m)) k p.1 ∧ linked (<[p.1 := h]> (<[b1.1 := h']> m)) r1 BASE) as Hm.
  { intros h h'. split; (apply linked_insert; [|apply linked_insert; [|done]]); intros b Hb;
      [specialize (Hkp b Hb); lia..|specialize (Hrb b Hb); lia|specialize (Hrb b Hb); lia]. }
  unfold freed. destruct (bend p =? b1.1); apply linked_app; cbn [haddr linked fst snd]; (split; [apply Hm|]).
  - split; [by rewrite lookup_insert_eq|apply Hm].
  - split; [by rewrite lookup_insert_eq|]. split; [|apply Hm]. rewrite lookup_insert_ne by lia. by rewrite lookup_insert_eq.
Qed.

Lemma sorted_freed k p b1 r1 : sorted k → Forall (fun x => bend x < p.1) k → sorted r1 → Forall (fun y => bend b1 < y.1) r1 →
  bend p ≤ b1.1 → 0 ≤ p.2 → 0 ≤ b1.2 → sorted (freed k p b1 r1).
Proof.
  intros Hk Hkp Hr Hrb Hpb Hp Hb. unfold freed. rewrite Forall_forall in Hkp, Hrb.
  destruct (Z.eqb_spec (bend p) b1.1); apply sorted_app; (split_and!; [done| |]).
  - split; [|done]. apply Forall_forall. intros y Hy. specialize (Hrb y Hy). unfold bend in *. cbn. lia.
  - apply Forall_forall. intros x Hx. specialize (Hkp x Hx). constructor; [done|]. apply Forall_forall. intros y Hy. specialize (Hrb y Hy). unfold bend in *. lia.
  - assert (∀ y, y ∈ r1 → b1.1 < y.1) as Hry by (intros y Hy; specialize (Hrb y Hy); unfold bend in *; lia).
    repeat split; [|by apply Forall_forall|done]. constructor; [lia|]. apply Forall_forall. intros y Hy. specialize (Hry y Hy). lia.
  - apply Forall_forall. intros x Hx. specialize (Hkp x Hx). constructor; [done|]. constructor; [unfold bend in *; lia|].
    apply Forall_forall. intros y Hy. specialize (Hrb y Hy). unfold bend in *. lia.
Qed.

Lemma elem_freed k p b1 r1 b : b ∈ freed k p b1 r1 →
  b ∈ k ∨ b ∈ r1 ∨ b = p ∨ b = b1 ∨ (bend p = b1.1 ∧ b = (p.1, p.2 + b1.2)).
Proof. unfold freed. destruct (Z.eqb_spec (bend p) b1.1); rewrite elem_of_app, ?elem_of_cons; tauto. Qed.

Lemma covers_freed k p b1 r1 c : 0 ≤ p.2 → 0 ≤ b1.2 → covers (freed k p b1 r1) c ↔ covers (k ++ [p]) c ∨ covers (b1 :: r1) c.
Proof.
  intros Hp Hb. unfold freed. destruct (Z.eqb_spec (bend p) b1.1) as [E|E]; rewrite !covers_app, !covers_cons; unfold bend in *; cbn [fst snd].
  - assert (¬ covers [] c) as Hn by (by intros (x & ?%elem_of_nil & _)). assert (p.1 ≤ c < p.1 + 16 * (p.2 + b1.2) ↔
      p.1 ≤ c < p.1 + 16 * p.2 ∨ b1.1 ≤ c < b1.1 + 16 * b1.2) as -> by lia. tauto.
  - assert (¬ covers [] c) as Hn by (by intros (x & ?%elem_of_nil & _)). tauto.
Qed.

Lemma freed_shape l1 l2 k p b1 r1 : (BASE, 0) :: l1 = k ++ [p] → BASE < b1.1 → (∀ y, y ∈ r1 → y ∈ l2) → (length r1 ≤ length l2)%nat →
  Forall (fun x => 0 < x.2) l1 →
  ∃ bs', freed k p b1 r1 = (BASE, 0) :: bs' ∧
    (∀ b, b ∈ bs' → b ∈ l1 ++ l2 ∨ b = b1 ∨ (p ∈ l1 ∧ bend p = b1.1 ∧ b = (p.1, p.2 + b1.2))) ∧
    (∃ b, b ∈ bs' ∧ b1.2 ≤ b.2) ∧ (length bs' ≤ S (length (l1 ++ l2)))%nat ∧ p.1 ∈ BASE :: bs'.*1.
Proof.
  intros Hk Hb Hr Hlen Hpos. destruct k as [|x k]; injection Hk as E Hl; [subst p l1|subst x].
  - exists (b1 :: r1). unfold freed, bend. cbn. replace (BASE + 16 * 0 =? b1.1) with false by lia. split_and!; [done|set_solver|exists b1; split; [by left|lia]|lia|by left].
  - assert (p ∈ l1) as Hp by (rewrite Hl; set_solver). rewrite Forall_forall in Hpos. specialize (Hpos p Hp).
    exists (freed k p b1 r1). split_and!; [unfold freed; by case_match| | | |].
    + intros b Hb'. apply elem_freed in Hb'. rewrite elem_of_app. subst l1. destruct Hb' as [?|[?|[->|[->|?]]]]; [set_solver..|tauto].
    + unfold freed. case_match; [exists (p.1, p.2 + b1.2)|exists b1]; (split; [set_solver|cbn; lia]).
    + subst l1. unfold freed. case_match; rewrite !length_app; cbn [length]; lia.
    + unfold freed. right. case_match; rewrite fmap_app; apply elem_of_app; right; by left.
Qed.

(** Exactly the block itself has become free. *)
Lemma covers_bs' l1 l2 k p b1 r1 bs' a n c : freed k p b1 r1 = (BASE, 0) :: bs' → (BASE, 0) :: l1 = k ++ [p] → upper (a, n) l2 = (b1, r1) →
  0 ≤ p.2 → 0 ≤ n → 0 ≤ b1.2 → Forall (fun b => a + 16 * n ≤ b.1 ∧ 0 < b.2) l2 →
  covers bs' c ↔ covers (l1 ++ l2) c ∨ a ≤ c < a + 16 * n.
Proof.
  intros Hf Hk Hu Hp Hn Hb Hl. assert (∀ l, covers ((BASE, 0) :: l) c ↔ covers l c) as H0.
  { intros l. rewrite covers_cons. unfold bend. cbn. assert (¬ (BASE ≤ c < BASE + 16 * 0)) by lia. tauto. }
  rewrite <- H0, <- Hf, covers_freed, <- Hk, H0, (covers_upper (a, n) l2) by (done || by apply (Forall_impl _ _ _ Hl); intros y [_ ?]).
  rewrite covers_cons, covers_app. unfold bend. cbn [fst snd]. tauto.
Qed.

(** A block of the heap that no allocated one touches. *)
Definition good (s : heap) (al : gmap Z Z) (b : block) : Prop := in_heap s b ∧ ∀ c k, al !! c = Some k → disj (c, k) b.

Lemma good_join s al x y z : good s al x → good s al y → (∀ c k, al !! c = Some k → 0 < k) → bend x = y.1 → z.1 = x.1 → bend z = bend y → good s al z.
Proof.
  intros [(H1 & H2 & H3 & H4) Hx] [(H5 & H6 & H7 & H8) Hy] Hal E E1 E2. unfold good, in_heap, disj, bend in *. split; [split_and!; [lia|by rewrite E1|lia|lia]|].
  intros c k Hck. specialize (Hx c k Hck). specialize (Hy c k Hck). specialize (Hal c k Hck). cbn in *. lia.
Qed.

Lemma inv_good bs al a n s : inv bs (<[a := n]> al) s → al !! a = None →
  good s al (a, n) ∧ (∀ b, b ∈ bs → good s al b) ∧ ∀ c k, al !! c = Some k → 0 < k.
Proof.
  intros [Hc Hs Hf Ha Hap Haf Hfp Hb] Hal.
  assert (∀ c k, al !! c = Some k → <[a := n]> al !! c = Some k ∧ c ≠ a) as Hin by (intros c k Hck; rewrite lookup_insert_ne; [split; [done|]|]; congruence).
  split_and!.
  - split; [apply Ha; by rewrite lookup_insert_eq|]. intros c k [H1 H2]%Hin. apply Hap; [done|by rewrite lookup_insert_eq|done].
  - intros b Hb'. rewrite Forall_forall in Hf. split; [by apply Hf|]. intros c k [H1 _]%Hin. by apply Haf.
  - intros c k [H1 _]%Hin. destruct (Ha c k H1) as [(_ & _ & ? & _) _]. done.
Qed.

Lemma wp_free bs al a n s Q : inv bs (<[a := n]> al) s → al !! a = None →
  (∀ bs' s', inv bs' al s' → keeps al s s' → h_brk s' = h_brk s → (∃ b, b ∈ bs' ∧ n ≤ b.2) → (length bs' ≤ S (length bs))%nat →
     (∀ c, covers bs' c ↔ covers bs c ∨ a ≤ c < a + 16 * n) → Q tt s') →
  wp (free (a + SIZEOF_HEADER)) s Q.
Proof.
  intros Hi Hal HQ. destruct (inv_split _ _ _ _ _ Hi) as (l1 & l2 & -> & Hl1 & Hl2).
  destruct (upper (a, n) l2) as [b1 r1] eqn:Hu. destruct (exists_last (l := (BASE, 0) :: l1)) as (k & p & Hk); [done|].
  eapply wp_free_steps; [done..|]. set (s' := _ <| freep := _ |>).
  assert (keeps al s s') as Hkeep.
  { apply (keeps_put al s a _ n (l1 ++ l2) _ p); [done|done| |]; [|apply (keeps_put al s a _ n (l1 ++ l2) _ (a, n)); [done|done|set_solver|]].
    - assert (p ∈ (BASE, 0) :: l1) by (rewrite Hk; set_solver). set_solver.
    - by split_and!. }
  destruct (inv_good _ _ _ _ _ Hi Hal) as (Hg & Hgb & Hpos). pose proof (inv_walkable _ _ _ Hi) as [Hws Hwv].
  pose proof Hi as [Hc Hs Hf _ _ _ _ (_ & Hb & Hlim)]. apply sorted_app in Hs as (_ & Hs2 & _).
  destruct (upper_ok _ _ _ _ Hu Hs2 Hl2) as (Hb1 & Hnb1 & Hrb & Hsr & Hlen & Hsub & Hbe & Hlk). cbn [fst snd] in *.
  assert (BASE < a ∧ 0 < n) as [Hba Hn] by (destruct Hg as [Hg _]; destruct (heap_sizes s _ Hg) as (? & ? & _); cbn in *; lia).
  assert (good s al b1) as Hg1.
  { destruct Hbe as [Hbe|(y & Hy & Hby & Hbe)]; [|apply (good_join s al (a, n) y b1); [done|apply Hgb; set_solver|done..]].
    replace b1 with (a, n); [done|]. destruct b1. unfold bend in Hbe. cbn in *. f_equal; [done|lia]. }
  change ((BASE, 0) :: l1 ++ l2) with (((BASE, 0) :: l1) ++ l2) in *. rewrite Hk, <- app_assoc in Hws, Hwv, Hc. cbn [app] in *.
  destruct (freed_shape l1 l2 k p b1 r1 Hk) as (bs' & Hbs' & Hel & (bx & Hbx & Hnx) & Hlen' & Hfp'); [lia|done|done| |].
  { apply Forall_app in Hf as [Hf1 _]. apply (Forall_impl _ _ _ Hf1). by intros x (_ & _ & ? & _). }
  apply sorted_app in Hws as (Hsk & _ & Hsp). apply Forall_app in Hwv as [Hvk [(_ & _ & Hp2) _]%Forall_cons]. apply linked_app in Hc as [Hck [_ Hcl]].
  assert (Forall (fun x => bend x < p.1) k) as Hkp by (apply (Forall_impl _ _ _ Hsp); by intros x [? _]%Forall_cons).
  assert (bend p ≤ a ∧ p.1 < a) as [Hpa Hpa'].
  { assert (p ∈ (BASE, 0) :: l1) as [->|Hpl]%elem_of_cons by (rewrite Hk; set_solver); [unfold bend; cbn; lia|].
    rewrite Forall_forall in Hl1, Hf. specialize (Hl1 p Hpl). destruct (Hf p) as (_ & _ & ? & _); [set_solver|]. unfold bend in *. lia. }
  apply (HQ bs' s'); [|done|done|exists bx; split; [done|lia]|done|].
  2:{ intros c. rewrite (covers_bs' l1 l2 k p b1 r1 bs' a n); try done; lia. }
  eapply (inv_freed (l1 ++ l2) al a n s); try done.
  - rewrite <- Hbs'. unfold s'. cbn. rewrite <- Hb1. apply linked_freed; [done|by apply Hlk| | |].
    + apply Forall_forall. intros x Hx. rewrite Forall_forall in Hkp, Hvk. specialize (Hkp x Hx). specialize (Hvk x Hx). unfold bend in Hkp. lia.
    + lia.
    + apply (Forall_impl _ _ _ Hrb). intros y Hy. unfold bend in Hy. lia.
  - assert (sorted ((BASE, 0) :: bs')) as [_ ?]; [|done]. rewrite <- Hbs'. apply sorted_freed; try done; lia.
  - intros b [Hb'|[->|(Hp & Hpe & ->)]]%Hel; [by apply Hgb|done|]. apply (good_join s al p b1); [apply Hgb; set_solver|done|done|done|done|].
    unfold bend in *. cbn. lia.
Qed.

(** ** Memory from the system *)

Lemma keeps_trans al s s1 s2 : keeps al s s1 → keeps al s1 s2 → keeps al s s2.
Proof. intros (H1 & H2 & H3) (H4 & H5 & H6). split_and!; [lia|congruence|]. intros c Hc. rewrite H6, H3; done. Qed.

Lemma inv_below bs al s a n : inv bs al s → al !! a = Some n → a < h_brk s.
Proof. intros [_ _ _ Ha _ _ _ _] Hal. destruct (Ha a n Hal) as [(_ & _ & H1 & H2) _]. unfold bend in H2. cbn in *. lia. Qed.

Lemma inv_grow bs al s h nu : inv bs al s → 0 < nu → h_brk s + 16 * nu ≤ h_limit s →
  let s' := put (h_brk s) (Hdr h nu) (s <| h_brk := h_brk s + 16 * nu |>) in
  inv bs (<[h_brk s := nu]> al) s' ∧ al !! h_brk s = None ∧ keeps al s s'.
Proof.
  intros Hi Hnu Hlim s'. assert (al !! h_brk s = None) as Hal.
  { destruct (al !! h_brk s) eqn:E; [|done]. apply (inv_below _ _ _ _ _ Hi) in E. lia. }
  destruct Hi as [Hc Hs Hf Ha Hap Haf Hfp (Hbm & Hb & Hl)]. pose proof base_below.
  assert (∀ b, in_heap s b → in_heap s' b ∧ b.1 ≠ h_brk s ∧ bend b ≤ h_brk s) as Hih.
  { unfold in_heap, bend. cbn. intros b (? & ? & ? & ?). split_and!; lia. }
  assert (∀ a n, al !! a = Some n → disj (a, n) (h_brk s, nu)) as Hd by (intros a n Han; left; by apply Hih, (Ha a n)).
  split_and!; [|done|].
  - split; [|done| | | | |done|].
    + apply (linked_insert (h_mem s)); [|done]. intros b [->|Hb']%elem_of_cons; [cbn; lia|]. rewrite Forall_forall in Hf. by apply Hih, Hf.
    + apply (Forall_impl _ _ _ Hf). intros b Hb'. by apply Hih.
    + intros a n. rewrite lookup_insert_Some. intros [[<- <-]|[Hne Han]].
      * split; [unfold in_heap, bend; cbn; lia|]. eexists. cbn. by rewrite lookup_insert_eq.
      * destruct (Ha a n Han) as [H1 H2]. split; [by apply Hih|]. cbn. by rewrite lookup_insert_ne.
    + intros a n a' n'. rewrite !lookup_insert_Some. intros [[<- <-]|[_ Han]] [[<- <-]|[_ Han']] Hne; [done| |by apply Hd|by eapply Hap].
      destruct (Hd a' n' Han') as [?|?]; [by right|by left].
    + intros a n b. rewrite lookup_insert_Some. intros [[<- <-]|[_ Han]] Hb'; [|by eapply Haf].
      right. rewrite Forall_forall in Hf. apply Hih. by apply Hf.
    + cbn. replace (h_brk s + 16 * nu) with (h_brk s + nu * 16) by lia. rewrite Z_mod_plus_full. split_and!; [done|lia..].
  - split_and!; [cbn; lia|done|]. intros c (a & n & Han & Hr). cbn. rewrite lookup_insert_ne; [done|].
    destruct (Ha a n Han) as [Hin _]. apply Hih in Hin as (_ & _ & Hin). unfold bend in Hin. cbn in Hin. lia.
Qed.

Lemma wp_morecore bs al nu s Q : inv bs al s → 0 < nu → nu * 16 < 2 ^ 31 → (h_limit s < h_brk s + 16 * Z.max 4096 nu → Q 0 s) →
  (∀ bs' s', inv bs' al s' → keeps al s s' → (∃ b, b ∈ bs' ∧ nu ≤ b.2) → (length bs' ≤ S (length bs))%nat → Q (freep s') s') →
  wp (morecore nu) s Q.
Proof.
  intros Hi Hnu Hsmall H0 HQ. unfold morecore, sbrk. set (n := if nu <? 4096 then 4096 else nu).
  assert (nu ≤ n ∧ n * 16 < 2 ^ 31) as [Hn Hn16] by (unfold n; destruct (Z.ltb_spec nu 4096); lia).
  change SIZEOF_HEADER with 16. replace (i32 (n * 16)) with (n * 16) by (symmetry; apply i32_small; lia). wp_simpl.
  pose proof Hi as [_ _ _ _ _ _ _ (_ & Hb & _)]. pose proof base_pos. pose proof base_below.
  destruct (Z.ltb_spec (h_limit s) (h_brk s + n * 16)) as [E|E]; wp_simpl; [apply H0; unfold n in E; destruct (Z.ltb_spec nu 4096); lia|].
  replace (h_brk s + n * 16 <? 0) with false by lia. replace (h_brk s =? -1) with false by lia. cbn iota. wp_simpl.
  unfold set_size, rd, wr. wp_simpl. assert (valid (s <| h_brk := h_brk s + n * 16 |>) (h_brk s) = true) as Hv.
  { pose proof (page_end_le (h_brk s + n * 16)). unfold valid, SIZEOF_HEADER. cbn. lia. }
  rewrite Hv. wp_simpl. rewrite Hv. wp_simpl. replace (n * 16) with (16 * n) by lia.
  destruct (inv_grow bs al s (ptr (default (Hdr 0 0) (h_mem s !! h_brk s))) n Hi) as (Hi' & Hal & Hk); [lia|lia|].
  eapply (wp_free bs al (h_brk s) n); [exact Hi'|exact Hal|]. intros bs' s' Hi2 Hk2 Hbrk (b & Hbb & Hbn) Hlen _. wp_simpl.
  apply (HQ bs' s'); [done|by eapply keeps_trans|exists b; split; [done|lia]|done].
Qed.

(** ** Taking a block *)

(** [n] units at [p], the end of the free block [b], become an allocated
    block. *)
Lemma inv_taken bs al s s' bs' b n p : inv bs al s → b ∈ bs → 0 < n ≤ b.2 → p = b.1 + 16 * (b.2 - n) →
  h_brk s' = h_brk s → keeps al s s' → (∃ q, h_mem s' !! p = Some (Hdr q n)) →
  linked (h_mem s') ((BASE, 0) :: bs') BASE → sorted bs' → freep s' ∈ BASE :: bs'.*1 →
  (∀ x, x ∈ bs' → (x ∈ bs ∧ disj b x) ∨ (x = (b.1, b.2 - n) ∧ n < b.2)) →
  inv bs' (<[p := n]> al) s' ∧ al !! p = None.
Proof.
  intros [Hc Hs Hf Ha Hap Haf Hfp Hb] Hbb Hn Hp Hbrk (_ & Hlim & Hm) Hq Hc' Hs' Hfp' Hel. rewrite Forall_forall in Hf.
  destruct (Hf b Hbb) as (Hb1 & Hb2 & Hb3 & Hb4).
  assert (∀ x, in_heap s x → in_heap s' x) as Hih by (unfold in_heap; by rewrite Hbrk).
  assert (∀ c k, al !! c = Some k → 0 < k ∧ disj (c, k) b) as Hd.
  { intros c k Hck. destruct (Ha c k Hck) as [(_ & _ & ? & _) _]. split; [done|]. by eapply Haf. }
  assert (∀ c k, al !! c = Some k → disj (c, k) (p, n) ∧ c ≠ p) as Hdp.
  { intros c k Hck. destruct (Hd c k Hck) as [Hk [?|?]]; unfold disj, bend in *; cbn in *; (split; [|lia]); lia. }
  split; [|destruct (al !! p) eqn:E; [by apply Hdp in E as [_ ?]|done]]. split; try done.
  - apply Forall_forall. intros x Hx. apply Hih. destruct (Hel x Hx) as [[? _]|[-> ?]]; [by apply Hf|]. unfold in_heap, bend in *. cbn. lia.
  - intros c k. rewrite lookup_insert_Some. intros [[<- <-]|[Hne Hck]].
    + split; [|done]. apply Hih. unfold in_heap, bend in *. cbn. rewrite Hp. split_and!; [lia| |lia|lia].
      replace (b.1 + 16 * (b.2 - n)) with (b.1 + (b.2 - n) * 16) by lia. by rewrite Z_mod_plus_full.
    + destruct (Ha c k Hck) as [H1 [q' Hq']]. split; [by apply Hih|]. exists q'. rewrite Hm; [done|]. exists c, k. split; [done|].
      destruct H1 as (_ & _ & ? & _). cbn in *. lia.
  - intros c k c' k'. rewrite !lookup_insert_Some. intros [[<- <-]|[_ Hck]] [[<- <-]|[_ Hck']] Hne; [done| |by apply Hdp|by eapply Hap].
    destruct (Hdp c' k' Hck') as [[?|?] _]; [by right|by left].
  - intros c k x. rewrite lookup_insert_Some. intros [[<- <-]|[_ Hck]] Hx; destruct (Hel x Hx) as [[Hxb Hdx]|[-> ?]]; unfold disj, bend in *; cbn in *.
    + lia.
    + lia.
    + by eapply Haf.
    + destruct (Hd c k Hck) as [? Hd']. cbn in *. lia.
  - by rewrite Hbrk, Hlim.
Qed.

Lemma inv_pos bs al s x : inv bs al s → x ∈ bs → 0 < x.2.
Proof. intros [_ _ Hf _ _ _ _ _] Hx. rewrite Forall_forall in Hf. by destruct (Hf x Hx) as (_ & _ & ? & _). Qed.

Lemma wp_set_size_any a n s Q : valid s a = true → (∀ q, Q tt (put a (Hdr q n) s)) → wp (set_size a n) s Q.
Proof. intros Hv HQ. unfold set_size, rd, wr. wp_simpl. rewrite Hv. wp_simpl. rewrite Hv. wp_simpl. apply HQ. Qed.

Lemma wp_set_ptr_any a p s Q : valid s a = true → (∀ n, Q tt (put a (Hdr p n) s)) → wp (set_ptr a p) s Q.
Proof. intros Hv HQ. unfold set_ptr, rd, wr. wp_simpl. rewrite Hv. wp_simpl. rewrite Hv. wp_simpl. apply HQ. Qed.

(** Cells of free blocks are in no allocated one. *)
Lemma keeps_free bs al s s' x h c : inv bs al s → x ∈ bs → x.1 ≤ c < bend x → keeps al s s' → keeps al s (put c h s').
Proof.
  intros [Hc Hs Hf Ha Hap Haf Hfp Hb] Hx Hr (H1 & H2 & H3). split_and!; [done|done|]. intros y (a & n & Han & Hy). cbn.
  rewrite lookup_insert_ne; [apply H3; by exists a, n|]. destruct (Haf a n x Han Hx) as [?|?]; unfold bend in *; cbn in *; lia.
Qed.

Lemma keeps_base bs al s s' h : inv bs al s → keeps al s s' → keeps al s (put BASE h s').
Proof.
  intros [Hc Hs Hf Ha Hap Haf Hfp Hb] (H1 & H2 & H3). split_and!; [done|done|]. intros y (a & n & Han & Hy). cbn.
  rewrite lookup_insert_ne; [apply H3; by exists a, n|]. destruct (Ha a n Han) as [(? & _) _]. pose proof base_below. cbn in *. lia.
Qed.

(** The list around a block [b] and the one before it, [q]. *)
Lemma around bs al s l1 q b l2 : inv bs al s → (BASE, 0) :: bs = l1 ++ q :: b :: l2 →
  b ∈ bs ∧ (q = (BASE, 0) ∨ q ∈ bs) ∧ valid s q.1 = true ∧ valid s b.1 = true ∧ q.1 < b.1 ∧
  h_mem s !! q.1 = Some (Hdr b.1 q.2) ∧ h_mem s !! b.1 = Some (Hdr (haddr l2 BASE) b.2) ∧ 0 < b.2 < 2 ^ 32 ∧
  linked (h_mem s) l1 q.1 ∧ linked (h_mem s) l2 BASE ∧
  Forall (fun x => bend x < q.1 ∧ x.1 < q.1) l1 ∧ Forall (fun y => bend b < y.1) l2 ∧ bend q < b.1 ∧ sorted l1 ∧ sorted l2.
Proof.
  intros Hi Hbs. pose proof (inv_walkable _ _ _ Hi) as [Hs Hv]. destruct Hi as [Hc _ Hf _ _ _ _ (_ & Hb & Hl)]. rewrite Hbs in *.
  assert (b ∈ bs ∧ (q = (BASE, 0) ∨ q ∈ bs)) as [Hbb Hqb].
  { destruct l1 as [|x l1]; injection Hbs as E Hbs; subst bs; [|set_solver]. split; [set_solver|by left]. }
  apply sorted_app in Hs as (Hs1 & ([Hqb' _]%Forall_cons & Hbl & Hs2) & Hs12). apply linked_app in Hc as [Hc1 (Hq & Hcb & Hc2)].
  apply Forall_app in Hv as [Hv1 [(Hvq & _ & Hq2) [(Hvb & _ & _) _]%Forall_cons]%Forall_cons]. rewrite Forall_forall in Hf.
  destruct (heap_sizes s b (Hf b Hbb)) as (Hb2 & _); [lia|]. split_and!; try done; [unfold bend in Hqb'; lia|lia|lia|].
  rewrite Forall_forall in Hs12, Hv1. apply Forall_forall. intros x Hx. specialize (Hs12 x Hx). apply Forall_cons in Hs12 as [Hxq _].
  destruct (Hv1 x Hx) as (_ & _ & ?). split; [done|]. unfold bend in Hxq. lia.
Qed.

(** The list without [b], or with what is left of it. *)
Definition rest_of (b : block) (n : Z) : list block := if b.2 =? n then [] else [(b.1, b.2 - n)].

Lemma taken_shape bs al s l1 q b l2 n : inv bs al s → (BASE, 0) :: bs = l1 ++ q :: b :: l2 → 0 < n ≤ b.2 →
  ∃ bs', (BASE, 0) :: bs' = l1 ++ q :: rest_of b n ++ l2 ∧ sorted bs' ∧ q.1 ∈ BASE :: bs'.*1 ∧
    ∀ x, x ∈ bs' → (x ∈ bs ∧ disj b x) ∨ (x = (b.1, b.2 - n) ∧ n < b.2).
Proof.
  intros Hi Hbs Hn. destruct (around _ _ _ _ _ _ _ Hi Hbs) as (Hbb & _ & _ & _ & Hlt & _ & _ & _ & _ & _ & Hl1 & Hl2 & Hqb & Hs1 & Hs2).
  rewrite Forall_forall in Hl1, Hl2.
  assert (∀ x, x ∈ rest_of b n → x = (b.1, b.2 - n) ∧ n < b.2) as Hrest.
  { unfold rest_of. intros x. destruct (Z.eqb_spec b.2 n); [by intros ?%elem_of_nil|]. intros ->%list_elem_of_singleton. split; [done|lia]. }
  assert (sorted (rest_of b n ++ l2) ∧ ∀ y, y ∈ rest_of b n ++ l2 → b.1 ≤ y.1) as [Hsr Hry].
  { split.
    - apply sorted_app. split_and!; [unfold rest_of; case_match; [done|by repeat constructor]|done|]. apply Forall_forall. intros x [-> ?]%Hrest.
      apply Forall_forall. intros y Hy. specialize (Hl2 y Hy). unfold bend in *. cbn. lia.
    - intros y [[-> _]%Hrest|Hy]%elem_of_app; [cbn; lia|]. specialize (Hl2 y Hy). unfold bend in *. lia. }
  assert (sorted (l1 ++ q :: rest_of b n ++ l2)) as Hsort.
  { apply sorted_app. split_and!; [done| |].
    - split; [|done]. apply Forall_forall. intros y Hy. specialize (Hry y Hy). lia.
    - apply Forall_forall. intros x Hx. specialize (Hl1 x Hx). constructor; [lia|]. apply Forall_forall. intros y Hy. specialize (Hry y Hy). lia. }
  assert (∀ x, x ∈ l1 ∨ x = q → disj b x) as Hdl.
  { intros x [Hx| ->]; right; [|lia]. specialize (Hl1 x Hx). lia. }
  assert (∀ x, x ∈ l2 → disj b x) as Hdr by (intros x Hx; left; specialize (Hl2 x Hx); lia).
  destruct l1 as [|y l1]; injection Hbs as E Hbs; subst bs; [subst q|subst y].
  - exists (rest_of b n ++ l2). split_and!; [done|done|by left|]. intros x [?%Hrest|Hx]%elem_of_app; [by right|]. left. split; [set_solver|by apply Hdr].
  - exists (l1 ++ q :: rest_of b n ++ l2). split_and!; [done|by destruct Hsort|right; rewrite fmap_app; apply elem_of_app; right; by left|].
    intros x. rewrite elem_of_app, elem_of_cons, elem_of_app. intros [Hx|[->|[?%Hrest|Hx]]]; [left|left|by right|left]; (split; [set_solver|]).
    + apply Hdl. left. by right.
    + apply Hdl. by right.
    + by apply Hdr.
Qed.

(** The first block that is large enough is taken. *)
Lemma wp_malloc_take bs al s l1 q b l2 n fuel Q : inv bs al s → (BASE, 0) :: bs = l1 ++ q :: b :: l2 → 0 < n ≤ b.2 →
  (∀ p bs' s', inv bs' (<[p := n]> al) s' → al !! p = None → keeps al s s' → Q (p + SIZEOF_HEADER) s') →
  wp (malloc_loop (S fuel) n q.1 b.1) s Q.
Proof.
  intros Hi Hbs Hn HQ. destruct (taken_shape _ _ _ _ _ _ _ n Hi Hbs Hn) as (bs' & Hbs' & Hs' & Hfp & Hel).
  destruct (around _ _ _ _ _ _ _ Hi Hbs) as (Hbb & Hq & Hvq & Hvb & Hlt & Hmq & Hmb & Hb2 & Hc1 & Hc2 & Hl1 & Hl2 & _).
  rewrite Forall_forall in Hl1, Hl2. unfold rest_of in Hbs'.
  cbn [malloc_loop]. wp_simpl. eapply wp_rd; [done..|]. cbn [size ptr]. replace (n <=? b.2) with true by lia. wp_simpl.
  destruct (Z.eqb_spec b.2 n) as [E|E].
  - wp_simpl. eapply wp_set_ptr; [done..|]. wp_simpl. cbn [size]. fold (put q.1 (Hdr (haddr l2 BASE) q.2) s). set (s' := _ <| freep := _ |>).
    assert (keeps al s s') as Hk.
    { destruct Hq as [->|Hq]; [by apply (keeps_base bs)|]. apply (keeps_free bs al s s q); [done|done| |done].
      pose proof (inv_pos _ _ _ _ Hi Hq). unfold bend. lia. }
    destruct (inv_taken bs al s s' bs' b n b.1) as [Hi' Hal]; try done; [rewrite E; lia| | |by eapply HQ].
    + eexists. cbn. rewrite lookup_insert_ne by lia. rewrite Hmb, E. done.
    + rewrite Hbs'. cbn [app]. apply linked_app. cbn. rewrite lookup_insert_eq. split_and!; [|done|]; (apply linked_insert; [|done]); intros x Hx.
      * specialize (Hl1 x Hx). lia.
      * specialize (Hl2 x Hx). unfold bend in Hl2. lia.
  - wp_simpl. eapply wp_set_size; [done..|]. wp_simpl. cbn [ptr]. rewrite u32_small by lia. fold (put b.1 (Hdr (haddr l2 BASE) (b.2 - n)) s).
    eapply wp_rd; [done|cbn; by rewrite lookup_insert_eq|]. cbn [size]. wp_simpl. set (p := b.1 + SIZEOF_HEADER * (b.2 - n)).
    assert (b.1 < p < bend b) as Hp by (unfold p, bend, SIZEOF_HEADER; lia).
    assert (valid s p = true) as Hvp.
    { destruct Hi as [_ _ Hf _ _ _ _ _]. rewrite Forall_forall in Hf. destruct (Hf b Hbb) as (? & _ & _ & Hbe). pose proof (page_end_le (h_brk s)). unfold valid, SIZEOF_HEADER in *. unfold p, bend in *. lia. }
    apply wp_set_size_any; [done|]. intros h. wp_simpl. set (s' := _ <| freep := _ |>).
    assert (keeps al s s') as Hk.
    { apply (keeps_free bs al s _ b); [done|done|lia|]. apply (keeps_free bs al s _ b); [done|done|unfold bend; lia|done]. }
    destruct (inv_taken bs al s s' bs' b n p) as [Hi' Hal]; try done; [| |by eapply HQ].
    + eexists. cbn. by rewrite lookup_insert_eq.
    + rewrite Hbs'. cbn [app]. apply linked_app. cbn. rewrite !lookup_insert_ne by lia.
      rewrite lookup_insert_eq, Hmq. split_and!; [|done|done|]; (apply linked_insert; [intros x Hx|apply linked_insert; [intros x Hx|done]]).
      * specialize (Hl1 x Hx). lia.
      * specialize (Hl1 x Hx). lia.
      * specialize (Hl2 x Hx). lia.
      * specialize (Hl2 x Hx). unfold bend in Hl2. lia.
Qed.

(** ** The search *)

(** What happens when the search has come around. *)
Definition core (fuel : nat) (n : Z) : M heap Z :=
  p ← morecore n;
  if p =? 0 then ret 0 else h ← rd p; malloc_loop fuel n p (ptr h).

Section search.
Context (bs : list block) (al : gmap Z Z) (s : heap) (n : Z) (Q : Z → heap → Prop).
Hypothesis Hi : inv bs al s.
Hypothesis Hn : 0 < n.
Hypothesis Htake : ∀ l1 q b l2 fuel, (BASE, 0) :: bs = l1 ++ q :: b :: l2 → n ≤ b.2 → wp (malloc_loop (S fuel) n q.1 b.1) s Q.

Lemma wp_pass_by pre x r prev fuel : (BASE, 0) :: bs = pre ++ x :: r → x.2 < n →
  (if decide (x.1 = freep s) then wp (core fuel n) s Q else wp (malloc_loop fuel n x.1 (haddr r BASE)) s Q) →
  wp (malloc_loop (S fuel) n prev x.1) s Q.
Proof.
  intros HF Hx HQ. pose proof (inv_walkable _ _ _ Hi) as [_ Hv]. pose proof (iv_chain _ _ _ Hi) as Hc. rewrite HF in Hv, Hc.
  apply linked_app in Hc as [_ [Hm _]]. apply Forall_app in Hv as [_ [(Hvx & Hbx & _) _]%Forall_cons]. pose proof base_pos.
  cbn [malloc_loop]. wp_simpl. eapply wp_rd; [done..|]. cbn [size]. replace (n <=? x.2) with false by lia. wp_simpl.
  destruct (decide (x.1 = freep s)) as [E|E].
  - rewrite E, Z.eqb_refl. unfold core in HQ. autorewrite with wpdb in HQ. exact HQ.
  - replace (x.1 =? freep s) with false by lia. wp_simpl. replace (x.1 =? 0) with false by lia. wp_simpl. eapply wp_rd; [done..|]. exact HQ.
Qed.

(** On from [x] to the end of the list. *)
Lemma wp_scan_end r : ∀ pre x fuel, (BASE, 0) :: bs = pre ++ x :: r → freep s ∉ r.*1 → (length r ≤ fuel)%nat →
  (∀ prev, Forall (fun b => b.2 < n) r → wp (malloc_loop (fuel - length r) n prev BASE) s Q) →
  wp (malloc_loop fuel n x.1 (haddr r BASE)) s Q.
Proof.
  induction r as [|y r IH]; intros pre x fuel HF Hfp Hfuel Hend; [rewrite Nat.sub_0_r in Hend; by apply Hend|].
  destruct fuel as [|fuel]; cbn [length] in *; [lia|]. cbn in Hfp. apply not_elem_of_cons in Hfp as [Hfy Hfp]. cbn [haddr].
  destruct (decide (n ≤ y.2)); [by eapply Htake|]. assert ((BASE, 0) :: bs = (pre ++ [x]) ++ y :: r) as HF' by by rewrite <- app_assoc.
  eapply wp_pass_by; [exact HF'|lia|]. rewrite decide_False by done. eapply IH; [exact HF'|done|lia|].
  intros prev Hsmall. apply Hend. constructor; [lia|done].
Qed.

(** On from [x] to where the search began. *)
Lemma wp_scan_to r : ∀ pre x f r2 fuel, (BASE, 0) :: bs = pre ++ x :: r ++ f :: r2 → f.1 = freep s → freep s ∉ r.*1 → (length r < fuel)%nat →
  (Forall (fun b => b.2 < n) (r ++ [f]) → wp (core (fuel - S (length r)) n) s Q) →
  wp (malloc_loop fuel n x.1 (haddr (r ++ f :: r2) BASE)) s Q.
Proof.
  induction r as [|y r IH]; intros pre x f r2 fuel HF Hf Hfp Hfuel Hend; (destruct fuel as [|fuel]; cbn [length] in *; [lia|]); cbn [app haddr].
  - destruct (decide (n ≤ f.2)); [by eapply Htake|]. assert ((BASE, 0) :: bs = (pre ++ [x]) ++ f :: r2) as HF' by by rewrite <- app_assoc.
    eapply wp_pass_by; [exact HF'|lia|]. rewrite decide_True by done. cbn in Hend. rewrite Nat.sub_0_r in Hend. apply Hend. repeat constructor. lia.
  - cbn in Hfp. apply not_elem_of_cons in Hfp as [Hfy Hfp].
    destruct (decide (n ≤ y.2)); [by eapply Htake|]. assert ((BASE, 0) :: bs = (pre ++ [x]) ++ y :: r ++ f :: r2) as HF' by by rewrite <- app_assoc.
    eapply wp_pass_by; [exact HF'|lia|]. rewrite decide_False by done. eapply IH; [exact HF'|done|done|lia|].
    intros Hsmall. apply Hend. constructor; [lia|done].
Qed.

(** One time around. *)
Lemma wp_around fuel h : (S (length bs) ≤ fuel)%nat → h_mem s !! freep s = Some h →
  (Forall (fun b => b.2 < n) bs → wp (core (fuel - S (length bs)) n) s Q) →
  wp (malloc_loop fuel n (freep s) (ptr h)) s Q.
Proof.
  intros Hfuel Hh Hend. pose proof (iv_freep _ _ _ Hi) as Hfp. change (BASE :: bs.*1) with (((BASE, 0) :: bs).*1) in Hfp.
  apply list_elem_of_fmap in Hfp as (f & Hf & (k & post & HF)%list_elem_of_split).
  assert (∀ x, x ∈ k → x.1 < f.1) as Hkf.
  { pose proof (inv_walkable _ _ _ Hi) as [Hs Hv]. rewrite HF in Hs, Hv. apply sorted_app in Hs as (_ & _ & Hs). apply Forall_app in Hv as [Hv _].
    rewrite Forall_forall in Hs, Hv. intros x Hx. specialize (Hs x Hx). apply Forall_cons in Hs as [Hs _]. destruct (Hv x Hx) as (_ & _ & ?). unfold bend in Hs. lia. }
  assert (∀ x, x ∈ post → f.1 < x.1) as Hpf.
  { pose proof (inv_walkable _ _ _ Hi) as [Hs Hv]. rewrite HF in Hs, Hv. apply sorted_app in Hs as (_ & [Hs _] & _).
    apply Forall_app in Hv as [_ [(_ & _ & ?) _]%Forall_cons]. rewrite Forall_forall in Hs. intros x Hx. specialize (Hs x Hx). unfold bend in Hs. lia. }
  assert (h = Hdr (haddr post BASE) f.2) as ->.
  { pose proof (iv_chain _ _ _ Hi) as Hc. rewrite HF in Hc. apply linked_app in Hc as [_ [Hm _]]. congruence. }
  assert (length k + S (length post) = S (length bs))%nat as Hlen by (apply (f_equal length) in HF; rewrite length_app in HF; cbn in HF; lia).
  rewrite Hf. cbn [ptr]. apply (wp_scan_end post k f fuel HF); [|lia|].
  { rewrite Hf. intros (x & E & Hx)%list_elem_of_fmap. specialize (Hpf x Hx). lia. }
  intros prev Hpost. destruct (fuel - length post)%nat as [|fuel'] eqn:Ef; [lia|].
  apply (wp_pass_by [] (BASE, 0) bs prev fuel'); [done|done|]. cbn [fst]. destruct k as [|x k]; injection HF as E HF.
  - subst f. cbn in Hf. rewrite decide_True by done. cbn [length] in *. replace fuel' with (fuel - S (length bs))%nat by lia. apply Hend. by subst.
  - subst x. rewrite decide_False by (rewrite Hf; specialize (Hkf (BASE, 0) ltac:(by left)); cbn in Hkf; lia). rewrite HF.
    apply (wp_scan_to k [] (BASE, 0) f post fuel'); [by rewrite <- HF|done| |cbn in *; lia|].
    + rewrite Hf. intros (x & E & Hx)%list_elem_of_fmap. specialize (Hkf x ltac:(by right)). lia.
    + intros Hk. cbn [length] in *. replace (fuel' - S (length k))%nat with (fuel - S (length bs))%nat by lia. apply Hend. rewrite HF.
      apply Forall_app in Hk as [? [? _]%Forall_cons]. apply Forall_app. split; [done|]. by constructor.
Qed.
End search.

(** ** Allocation *)

Lemma inv_freep_at bs al s : inv bs al s → 0 < freep s ∧ valid s (freep s) = true ∧ ∃ h, h_mem s !! freep s = Some h.
Proof.
  intros Hi. pose proof (inv_walkable _ _ _ Hi) as [_ Hv]. pose proof (iv_freep _ _ _ Hi) as Hfp. pose proof (iv_chain _ _ _ Hi) as Hc.
  change (BASE :: bs.*1) with (((BASE, 0) :: bs).*1) in Hfp. apply list_elem_of_fmap in Hfp as (f & -> & (k & post & HF)%list_elem_of_split).
  rewrite HF in Hv, Hc. apply Forall_app in Hv as [_ [(? & ? & _) _]%Forall_cons]. apply linked_app in Hc as [_ [? _]]. pose proof base_pos.
  split_and!; [lia|done|by eexists].
Qed.

Definition units (nbytes : Z) : Z := (nbytes + 15) / 16 + 1.

(** No free block is large enough, and the system has no memory left for one. *)
Definition exhausted (bs : list block) (s : heap) (nbytes : Z) : Prop :=
  Forall (fun b => b.2 < units nbytes) bs ∧ h_limit s < h_brk s + 16 * Z.max 4096 (units nbytes).

(** From a list that is there. *)
Lemma wp_malloc_list bs al s nbytes h Q : inv bs al s → 0 ≤ nbytes < 2 ^ 31 - 48 → h_mem s !! freep s = Some h →
  (∀ bs' s', inv bs' al s' → keeps al s s' → exhausted bs' s' nbytes → Q 0 s') →
  (∀ p bs' s', inv bs' (<[p := units nbytes]> al) s' → al !! p = None → keeps al s s' → Q (p + SIZEOF_HEADER) s') →
  wp (malloc_loop (2 * walk_fuel s + 2) (units nbytes) (freep s) (ptr h)) s Q.
Proof.
  intros Hi Hnb Hh H0 HQ. assert (1 ≤ units nbytes ∧ units nbytes * 16 < 2 ^ 31) as [Hn Hn16].
  { unfold units. pose proof (Z.div_mod (nbytes + 15) 16). pose proof (Z.mod_pos_bound (nbytes + 15) 16). lia. }
  pose proof (inv_room _ _ _ Hi) as Hroom. apply (wp_around bs al); try done; [lia| |lia|].
  { intros l1 q b l2 fuel HF Hb. eapply wp_malloc_take; [done|exact HF|lia|]. intros p bs' s' H1 H2 H3. by eapply HQ. }
  intros Hall. unfold core. wp_simpl. eapply (wp_morecore bs al); [done|lia|lia|intros E; by eapply (H0 bs)|]. intros bs1 s1 Hi1 Hk1 (b & Hb & Hbn) Hlen.
  pose proof (inv_walkable _ _ _ Hi1) as [_ Hv]. pose proof (iv_freep _ _ _ Hi1) as Hfp.
  assert (0 < freep s1 ∧ valid s1 (freep s1) = true ∧ ∃ h1, h_mem s1 !! freep s1 = Some h1) as (Hpos & Hvf & h1 & Hh1).
  { by apply (inv_freep_at bs1 al). }
  replace (freep s1 =? 0) with false by lia. wp_simpl. eapply wp_rd; [done..|]. apply (wp_around bs1 al); try done; [lia| |lia|].
  { intros l1 q b' l2 fuel HF Hb'. eapply wp_malloc_take; [done|exact HF|lia|]. intros p bs' s' H1 H2 H3. eapply HQ; [done|done|by eapply keeps_trans]. }
  intros Hsmall. rewrite Forall_forall in Hsmall. specialize (Hsmall b Hb). lia.
Qed.

(** Nothing has been allocated yet, or the invariant holds. *)
Definition ready (bs : list block) (al : gmap Z Z) (s : heap) : Prop :=
  inv bs al s ∨ (freep s = 0 ∧ bs = [] ∧ al = ∅ ∧ h_brk s mod 16 = 0 ∧ HEAP ≤ h_brk s ≤ h_limit s ∧ h_limit s ≤ 2 ^ 36).

Lemma wp_malloc bs al s nbytes Q : ready bs al s → 0 ≤ nbytes < 2 ^ 31 - 48 →
  (∀ bs' s', inv bs' al s' → keeps al s s' → exhausted bs' s' nbytes → Q 0 s') →
  (∀ p bs' s', inv bs' (<[p := units nbytes]> al) s' → al !! p = None → keeps al s s' → Q (p + SIZEOF_HEADER) s') →
  wp (malloc nbytes) s Q.
Proof.
  intros Hr Hnb H0 HQ. unfold malloc. replace (u32 ((nbytes + SIZEOF_HEADER - 1) / SIZEOF_HEADER + 1)) with (units nbytes).
  2:{ unfold units, SIZEOF_HEADER. replace (nbytes + 16 - 1) with (nbytes + 15) by lia. symmetry. apply u32_small.
      pose proof (Z.div_mod (nbytes + 15) 16). pose proof (Z.mod_pos_bound (nbytes + 15) 16). lia. }
  wp_simpl. destruct Hr as [Hi|(Hf & -> & -> & Hb)].
  - destruct (inv_freep_at _ _ _ Hi) as (Hpos & Hv & h & Hh). replace (freep s =? 0) with false by lia. wp_simpl. eapply wp_rd; [done..|].
    by eapply wp_malloc_list.
  - assert (∀ s, valid s BASE = true) as Hv by (intros; unfold valid; by rewrite Z.eqb_refl). replace (freep s =? 0) with true by lia. wp_simpl.
    apply wp_set_ptr_any; [done|]. intros n. wp_simpl. eapply wp_set_size; [done|cbn; by rewrite lookup_insert_eq|]. wp_simpl. cbn [ptr].
    set (s1 := _ <| h_mem ::= _ |>). assert (h_mem s1 !! freep s1 = Some (Hdr BASE 0)) as Hh by (cbn; by rewrite lookup_insert_eq).
    eapply wp_rd; [apply Hv|exact Hh|]. assert (inv [] ∅ s1) as Hi.
    { split; try done. by left. }
    assert (keeps ∅ s s1) as Hk by (split_and!; [done|done|]; by intros c (a & k & ? & _)).
    eapply wp_malloc_list; [exact Hi|done|exact Hh|..]; intros; [eapply H0|eapply HQ]; try done; by eapply keeps_trans.
Qed.

End facts.

(** ** Theorems *)

Section theorems.
Context `{L : Layout}.

(** C16. [malloc] from any state its calls and those of [free] lead to: it
    returns, and either no free block is large enough and the system has no more
    memory to give, in which case it returns 0, or it returns a block that
    holds the bytes asked for, lies in the heap and apart from every block in
    use.  The free list stays well formed, and no cell of a block in use
    changes. *)
Theorem malloc_correct bs al s nbytes :
  ready bs al s → 0 ≤ nbytes < 2 ^ 31 - 48 →
  wp (malloc nbytes) s (fun p s' => keeps al s s' ∧ ∃ bs',
    (p = 0 ∧ inv bs' al s' ∧ exhausted bs' s' nbytes) ∨
    (∃ a n, p = a + 16 ∧ p + nbytes ≤ a + 16 * n ∧ HEAP ≤ a ∧ a + 16 * n ≤ h_brk s' ∧ al !! a = None ∧
       (∀ c k, al !! c = Some k → disj (c, k) (a, n)) ∧ inv bs' (<[a := n]> al) s')).
Proof.
  intros Hr Hnb. apply (wp_malloc bs al); [done..| |].
  - intros bs' s' Hi Hk He. split; [done|]. exists bs'. by left.
  - intros a bs' s' Hi Hal Hk. split; [done|]. exists bs'. right. exists a, (units nbytes).
    destruct (iv_alloc _ _ _ Hi a (units nbytes)) as [(H1 & _ & _ & H2) _]; [by rewrite lookup_insert_eq|]. unfold bend in H2. cbn in H1, H2.
    split_and!; try done.
    + unfold units, SIZEOF_HEADER. pose proof (Z.div_mod (nbytes + 15) 16). pose proof (Z.mod_pos_bound (nbytes + 15) 16). lia.
    + intros c k Hck. eapply (iv_apart _ _ _ Hi); [|by rewrite lookup_insert_eq|congruence]. rewrite lookup_insert_ne; [done|congruence].
Qed.

(** C17. [free] of an allocated block returns and gives the block back: the free
    list is well formed, so that no two of its blocks touch, and consists of
    exactly the cells that were free and those of the block.  No cell of any
    other block in use changes. *)
Theorem free_correct bs al s a n :
  inv bs al s → al !! a = Some n →
  wp (free (a + 16)) s (fun _ s' => keeps (delete a al) s s' ∧ h_brk s' = h_brk s ∧
    ∃ bs', inv bs' (delete a al) s' ∧ ∀ c, covers bs' c ↔ covers bs c ∨ a ≤ c < a + 16 * n).
Proof.
  intros Hi Hal. apply (wp_free bs (delete a al) a n).
  - by rewrite insert_delete_id.
  - apply lookup_delete_eq.
  - intros bs' s' Hi' Hk Hb _ _ Hc. split_and!; [done|done|by exists bs'].
Qed.


End theorems.

(** ** An example *)

Program Instance sample_layout : Layout := {| BASE := 4096; HEAP := 16384 |}.
Solve Obligations with lia || done.

Definition sample_heap : heap := Heap {[4096 := Hdr 4096 0; 16384 := Hdr 0 2]} 4096 (16384 + 32) (2 ^ 27).

Lemma sample_inv : inv [] {[16384 := 2]} sample_heap.
Proof.
  split; try done.
  - intros a n [<- <-]%lookup_singleton_Some. split; [by vm_compute|by exists 0].
  - intros a n a' n' [<- <-]%lookup_singleton_Some [<- <-]%lookup_singleton_Some. done.
  - by intros a n b _ ?%elem_of_nil.
  - by left.
Qed.

Lemma malloc_correct_witness :
  wp (malloc 10) sample_heap (fun p s' => p = 81936 ∧ ∃ n bs', 26 ≤ 16 * n ∧ inv bs' (<[81920 := n]> {[16384 := 2]}) s').
Proof.
  pose proof (malloc_correct [] {[16384 := 2]} sample_heap 10 (or_introl sample_inv) ltac:(lia)) as H.
  unfold wp in *. assert (∃ s', malloc 10 sample_heap = Ret 81936 s') as [s' E] by (eexists; vm_compute; reflexivity).
  rewrite E in *. destruct H as (_ & bs' & [[? _]|(a & n & Ha & Hn & _ & _ & _ & _ & Hi)]); [done|].
  split; [done|]. exists n, bs'. assert (a = 81920) as -> by lia. split; [lia|done].
Defined.

Lemma free_correct_witness :
  wp (free (16384 + 16)) sample_heap (fun _ s' => h_brk s' = 16416 ∧ ∃ bs', inv bs' ∅ s' ∧ covers bs' 16400).
Proof.
  eapply wp_mono; [apply (free_correct [] {[16384 := 2]} sample_heap 16384 2); [exact sample_inv|done]|].
  intros _ s' (_ & Hb & bs' & Hi & Hc). rewrite delete_singleton_eq in Hi. split; [done|]. exists bs'. split; [done|]. apply Hc. right. lia.
Defined.

