(* ===== verification/Mkfs.v ===== *)
(** * The file system image builder

    [mkfs/mkfs.c], which runs on the host.  The image is a map from block numbers
    to blocks of [BSIZE] bytes; reading a block that was never written fails.
    The host is taken to be little-endian.  A program that dies or fails an
    assertion panics.  A file of the host is given by the pieces in which [read]
    delivers it. *)

From Stdlib Require Import ZArith Lia.
From stdpp Require Import base gmap strings numbers list.
From S2P Require Import Prelude Mem FsState Fs.
Local Open Scope xv6_scope.

Definition NINODES : Z := 200.

Definition nbitmap : Z := FSSIZE / (BSIZE * 8) + 1.
Definition ninodeblocks : Z := NINODES / IPB + 1.
Definition nlog : Z := LOGSIZE.
Definition nmeta : Z := 2 + nlog + ninodeblocks + nbitmap.
Definition nblocks : Z := FSSIZE - nmeta.

Definition zeroes : list Z := replicate (Z.to_nat BSIZE) 0.

(** The value of the bytes that the conversion stores. *)
Definition xshort (x : Z) : Z := le_value [u8 x; u8 (Z.shiftr x 8)].
Definition xint (x : Z) : Z := le_value [u8 x; u8 (Z.shiftr x 8); u8 (Z.shiftr x 16); u8 (Z.shiftr x 24)].

Definition sb : superblock :=
  Superblock FSMAGIC (xint FSSIZE) (xint nblocks) (xint NINODES) (xint nlog) (xint 2) (xint (2 + nlog)) (xint (2 + nlog + ninodeblocks)).

Definition sb_bytes (s : superblock) : list Z :=
  le_bytes 4 (sb_magic s) ++ le_bytes 4 (sb_size s) ++ le_bytes 4 (sb_nblocks s) ++ le_bytes 4 (sb_ninodes s) ++
  le_bytes 4 (sb_nlog s) ++ le_bytes 4 (sb_logstart s) ++ le_bytes 4 (sb_inodestart s) ++ le_bytes 4 (sb_bmapstart s).

Record mkst := Mkst { m_img : gmap Z (list Z); freeinode : Z; freeblock : Z }.
#[global] Instance mkst_eta : Eta mkst := fun r => Mkst (m_img r) (freeinode r) (freeblock r).

(** [freeblock++] *)
Definition next_block : M mkst Z := b ← gets freeblock; modify (fun s => s <| freeblock := u32 (b + 1) |>);; ret b.

Record dinode := Dinode { d_type : Z; d_major : Z; d_minor : Z; d_nlink : Z; d_size : Z; d_addrs : list Z }.
#[global] Instance dinode_eta : Eta dinode := fun r => Dinode (d_type r) (d_major r) (d_minor r) (d_nlink r) (d_size r) (d_addrs r).

Definition dinode_bytes (d : dinode) : list Z :=
  le_bytes 2 (d_type d) ++ le_bytes 2 (d_major d) ++ le_bytes 2 (d_minor d) ++ le_bytes 2 (d_nlink d) ++
  le_bytes 4 (d_size d) ++ (d_addrs d ≫= le_bytes 4).
Definition dinode_at (off : Z) (buf : list Z) : dinode :=
  Dinode (get_at off 2 buf) (get_at (off + 2) 2 buf) (get_at (off + 4) 2 buf) (get_at (off + 6) 2 buf)
    (get_at (off + 8) 4 buf) (get_addrs off buf).

(** ** Sectors and inodes *)

Definition wsect (sec : Z) (buf : list Z) : M mkst unit := modify (fun s => s <| m_img ::= <[sec := buf]> |>).

Definition rsect (sec : Z) : M mkst (list Z) :=
  s ← get; match m_img s !! sec with Some d => ret d | None => panic "read" end.

Definition winode (inum : Z) (din : dinode) : M mkst unit :=
  let bn := IBLOCK inum sb in
  buf ← rsect bn;
  wsect bn (put_bytes ((inum mod IPB) * DINODESIZE) (dinode_bytes din) buf).

Definition rinode (inum : Z) : M mkst dinode :=
  let bn := IBLOCK inum sb in
  buf ← rsect bn;
  ret (dinode_at ((inum mod IPB) * DINODESIZE) buf).

Definition ialloc (type : Z) : M mkst Z :=
  inum ← gets freeinode;
  modify (fun s => s <| freeinode := u32 (inum + 1) |>);;
  winode inum (Dinode (xshort type) 0 0 (xshort 1) (xint 0) (replicate 13 0));;
  ret inum.

(** [buf[i/8] = buf[i/8] | (0x1 << (i%8))] *)
Definition set_bit (buf : list Z) (i : nat) : list Z :=
  alter (fun b => u8 (Z.lor b (Z.shiftl 1 (Z.of_nat (i mod 8))))) (i / 8)%nat buf.

Definition balloc (used : Z) : M mkst unit :=
  when (negb (used <? BSIZE * 8)) (panic "assert");;
  wsect (sb_bmapstart sb) (foldl set_bit zeroes (seq 0 (Z.to_nat used))).

(** ** Files *)

(** The block of the file with number [fbn], allocated if it is not there. *)
Definition block_for (din : dinode) (fbn : Z) : M mkst (dinode * Z) :=
  let addr k := nth (Z.to_nat k) (d_addrs din) 0 in
  if fbn <? NDIRECT then
    if xint (addr fbn) =? 0 then
      b ← next_block;
      ret (din <| d_addrs ::= <[Z.to_nat fbn := xint b]> |>, xint (xint b))
    else ret (din, xint (addr fbn))
  else
    din ← (if xint (addr NDIRECT) =? 0 then
             b ← next_block;
             ret (din <| d_addrs ::= <[Z.to_nat NDIRECT := xint b]> |>)
           else ret din);
    let ib := xint (nth (Z.to_nat NDIRECT) (d_addrs din) 0) in
    indirect ← rsect ib;
    let k := fbn - NDIRECT in
    if get_at (4 * k) 4 indirect =? 0 then
      b ← next_block;
      wsect ib (put_at (4 * k) 4 (xint b) indirect);;
      ret (din, xint (xint b))
    else ret (din, xint (get_at (4 * k) 4 indirect)).

Fixpoint iappend_loop (fuel : nat) (din : dinode) (off : Z) (p : list Z) : M mkst (dinode * Z) :=
  match fuel with
  | O => out_of_fuel
  | S fuel =>
    match p with
    | [] => ret (din, off)
    | _ =>
      let fbn := off / BSIZE in
      when (negb (fbn <? MAXFILE)) (panic "assert");;
      '(din, x) ← block_for din fbn;
      let n1 := Z.min (Z.of_nat (length p)) ((fbn + 1) * BSIZE - off) in
      buf ← rsect x;
      wsect x (put_bytes (off - fbn * BSIZE) (take (Z.to_nat n1) p) buf);;
      iappend_loop fuel din (u32 (off + n1)) (drop (Z.to_nat n1) p)
    end
  end.

Definition iappend (inum : Z) (xp : list Z) : M mkst unit :=
  din ← rinode inum;
  '(din, off) ← iappend_loop (S (length xp)) din (xint (d_size din)) xp;
  winode inum (din <| d_size := xint off |>).

(** ** The image *)

(** [strncpy(de.name, name, DIRSIZ)] into a zeroed entry. *)
Definition dirent (inum : Z) (name : list Z) : list Z :=
  le_bytes 2 (xshort inum) ++ take 14 (name ++ replicate 14 0).

Definition user_dir : list Z := [117; 115; 101; 114; 47].

(** The name in the image: without [user/] and a leading underscore. *)
Definition shortname (arg : list Z) : list Z := if decide (take 5 arg = user_dir) then drop 5 arg else arg.
Definition skip_underscore (name : list Z) : list Z := match name with 95 :: name => name | _ => name end.

Fixpoint add_pieces (inum : Z) (pieces : list (list Z)) : M mkst unit :=
  match pieces with
  | [] => ret tt
  | p :: pieces => iappend inum p;; add_pieces inum pieces
  end.

(** A file that cannot be opened has no pieces. *)
Fixpoint add_files (rootino : Z) (files : list (list Z * option (list (list Z)))) : M mkst unit :=
  match files with
  | [] => ret tt
  | (arg, content) :: files =>
    let name := shortname arg in
    when (bool_decide (47 ∈ name)) (panic "assert");;
    match content with
    | None => panic "open"
    | Some pieces =>
      let name := skip_underscore name in
      inum ← ialloc T_FILE;
      iappend rootino (dirent inum name);;
      add_pieces inum pieces;;
      add_files rootino files
    end
  end.

Definition mkfs (files : list (list Z * option (list (list Z)))) : M mkst unit :=
  modify (fun _ => Mkst ∅ 1 nmeta);;
  for_each (seq 0 (Z.to_nat FSSIZE)) (fun i => wsect (Z.of_nat i) zeroes);;
  wsect 1 (put_bytes 0 (sb_bytes sb) zeroes);;
  rootino ← ialloc T_DIR;
  when (negb (rootino =? ROOTINO)) (panic "assert");;
  iappend rootino (dirent rootino [46]);;
  iappend rootino (dirent rootino [46; 46]);;
  add_files rootino files;;
  din ← rinode rootino;
  let off := xint (d_size din) in
  let off := u32 ((off / BSIZE + 1) * BSIZE) in
  winode rootino (din <| d_size := xint off |>);;
  s ← get;
  balloc (freeblock s).
