(* ===== verification/MkfsFacts.v ===== *)
(** * The image that mkfs builds

    A file is described by its data, its blocks and its indirect block.
    [contents] says that the blocks of the image hold the data of the files,
    that no two files share a block and that the blocks not yet handed out are
    zero; [inodes] that the disk inodes describe the files.  [iappend] extends
    the data of one file. *)

From Stdlib Require Import ZArith Lia.
From stdpp Require Import base gmap strings numbers list.
From S2P Require Import Prelude Mem FsState Fs BioFacts LogFacts Mkfs.
Local Open Scope xv6_scope.

(** ** Words and inodes in a block *)

Lemma xint_small x : 0 ≤ x < 2 ^ 32 → xint x = x.
Proof.
  intros H. unfold xint. cbn [le_value]. rewrite !Z.shiftr_div_pow2 by lia. unfold u8.
  change (2 ^ 8) with 256. change (2 ^ 16) with 65536. change (2 ^ 24) with 16777216. change (2 ^ 32) with 4294967296 in H. zlia.
Qed.

Lemma xshort_small x : 0 ≤ x < 2 ^ 16 → xshort x = x.
Proof.
  intros H. unfold xshort. cbn [le_value]. rewrite !Z.shiftr_div_pow2 by lia. unfold u8. change (2 ^ 8) with 256. change (2 ^ 16) with 65536 in H. zlia.
Qed.

Lemma get_put_bytes off bs d j n : 0 ≤ off → off + Z.of_nat (length bs) ≤ Z.of_nat (length d) → 0 ≤ j → 0 ≤ n → j + n ≤ Z.of_nat (length bs) →
  get_at (off + j) n (put_bytes off bs d) = get_at j n bs.
Proof.
  intros H1 H2 H3 H4 H5. unfold get_at. f_equal. apply list_eq. intros k. destruct (decide (k < Z.to_nat n)%nat) as [Hk|Hk].
  - rewrite !lookup_take_lt, !lookup_drop by done. replace (Z.to_nat (off + j) + k)%nat with (Z.to_nat off + (Z.to_nat j + k))%nat by lia.
    apply put_bytes_in; lia.
  - by rewrite !lookup_take_ge by lia.
Qed.

Lemma get_put_bytes_other off bs d off' n : 0 ≤ off → off + Z.of_nat (length bs) ≤ Z.of_nat (length d) → 0 ≤ off' → 0 ≤ n →
  off' + n ≤ off ∨ off + Z.of_nat (length bs) ≤ off' → get_at off' n (put_bytes off bs d) = get_at off' n d.
Proof. intros H1 H2 H3 H4 H5. apply get_at_ext. intros k Hk. apply put_bytes_out; lia. Qed.

(** The fields of an inode fit. *)
Record fits (d : dinode) : Prop := {
  ft_short : Forall (fun x => 0 ≤ x < 2 ^ 16) [d_type d; d_major d; d_minor d; d_nlink d];
  ft_size : 0 ≤ d_size d < 2 ^ 32;
  ft_addrs : length (d_addrs d) = 13%nat ∧ Forall (fun x => 0 ≤ x < 2 ^ 32) (d_addrs d)
}.

Lemma length_dinode d : length (d_addrs d) = 13%nat → length (dinode_bytes d) = 64%nat.
Proof.
  intros H. unfold dinode_bytes. destruct d as [t mj mn nl sz as_]. cbn [d_type d_major d_minor d_nlink d_size d_addrs] in *.
  do 13 (destruct as_ as [|? as_]; [done|]). by destruct as_.
Qed.

Lemma get_word bs j n x : take (Z.to_nat n) (drop (Z.to_nat j) bs) = le_bytes (Z.to_nat n) x → 0 ≤ n → 0 ≤ x < 256 ^ n → get_at j n bs = x.
Proof. intros H Hn Hx. unfold get_at. rewrite H, le_value_bytes, Z2Nat.id by lia. by apply Z.mod_small. Qed.

Lemma dinode_put off din d : fits din → 0 ≤ off → off + 64 ≤ Z.of_nat (length d) → dinode_at off (put_bytes off (dinode_bytes din) d) = din.
Proof.
  intros [Hs Hz [Hl Ha]] H0 Hd. pose proof (length_dinode din Hl) as Hlen.
  assert (∀ j n x, 0 ≤ j → 0 ≤ n → j + n ≤ 64 → take (Z.to_nat n) (drop (Z.to_nat j) (dinode_bytes din)) = le_bytes (Z.to_nat n) x → 0 ≤ x < 256 ^ n →
    get_at (off + j) n (put_bytes off (dinode_bytes din) d) = x) as Hget.
  { intros j n x Hj Hn Hjn Ht Hx. rewrite get_put_bytes by lia. by eapply get_word. }
  destruct din as [t mj mn nl sz as_]. cbn [d_type d_major d_minor d_nlink d_size d_addrs] in *.
  repeat (apply Forall_cons in Hs as [? Hs]). change (2 ^ 16) with (256 ^ 2) in *. change (2 ^ 32) with (256 ^ 4) in *.
  do 13 (destruct as_ as [|? as_]; [done|]). destruct as_; [|done]. repeat (apply Forall_cons in Ha as [? Ha]).
  unfold dinode_at, get_addrs. cbn [seq fmap list_fmap Z.to_nat NDIRECT]. f_equal.
  - rewrite <- (Z.add_0_r off) at 1. apply Hget; try lia. reflexivity.
  - apply Hget; try lia. reflexivity.
  - apply Hget; try lia. reflexivity.
  - apply Hget; try lia. reflexivity.
  - apply Hget; try lia. reflexivity.
  - change (Z.to_nat NDIRECT + 1)%nat with 13%nat. cbn [seq fmap list_fmap]. rewrite <- !Z.add_assoc.
    repeat (apply (f_equal2 cons); [apply Hget; try lia; reflexivity|]). done.
Qed.

Lemma dinode_put_other off off' din d : length (d_addrs din) = 13%nat → 0 ≤ off → off + 64 ≤ Z.of_nat (length d) → 0 ≤ off' →
  off' + 64 ≤ off ∨ off + 64 ≤ off' → dinode_at off' (put_bytes off (dinode_bytes din) d) = dinode_at off' d.
Proof.
  intros Hl H0 Hd H0' Hne. pose proof (length_dinode din Hl) as Hlen. unfold dinode_at, get_addrs. f_equal; try (apply get_put_bytes_other; lia).
  apply list_fmap_ext. intros i k Hk. apply lookup_seq in Hk as [-> Hk]. change (Z.to_nat NDIRECT + 1)%nat with 13%nat in Hk. apply get_put_bytes_other; lia.
Qed.

(** ** Files *)

Record frec := Frec { f_type : Z; f_data : list Z; f_blocks : list Z; f_ind : Z }.
#[global] Instance frec_eta : Eta frec := fun r => Frec (f_type r) (f_data r) (f_blocks r) (f_ind r).

(** The block with number [k] of a file, filled up with zeros. *)
Definition chunk (k : nat) (data : list Z) : list Z := take 1024 (drop (1024 * k) data ++ zeroes).

Definition nblk (n : nat) : nat := ((n + 1023) / 1024)%nat.
(** The blocks a file of [n] bytes takes, with the indirect one. *)
Definition cost (n : nat) : Z := Z.of_nat (nblk n) + (if (12 <? nblk n)%nat then 1 else 0).

Definition addrs_of (f : frec) : list Z := take 12 (f_blocks f ++ replicate 12 0) ++ [f_ind f].
Definition owned (f : frec) : list Z := f_blocks f ++ (if f_ind f =? 0 then [] else [f_ind f]).

(** The image holds the data of the file. *)
Record body (img : gmap Z (list Z)) (f : frec) : Prop := {
  bd_len : length (f_blocks f) = nblk (length (f_data f));
  bd_max : Z.of_nat (length (f_data f)) ≤ MAXFILE * BSIZE;
  bd_bytes : Forall (fun b => 0 ≤ b < 256) (f_data f);
  bd_ind : if (12 <? length (f_blocks f))%nat then
             f_ind f ≠ 0 ∧ ∃ d, img !! f_ind f = Some d ∧ ∀ k, (k < 256)%nat → get_at (4 * Z.of_nat k) 4 d = nth (12 + k) (f_blocks f) 0
           else f_ind f = 0;
  bd_data : ∀ k b, f_blocks f !! k = Some b → img !! b = Some (chunk k (f_data f))
}.

Record contents (img : gmap Z (list Z)) (fb : Z) (F : gmap Z frec) : Prop := {
  ct_dom : ∀ b, 0 ≤ b < FSSIZE → ∃ d, img !! b = Some d ∧ block_ok d;
  ct_body : ∀ i f, F !! i = Some f → body img f ∧ NoDup (owned f) ∧ Forall (fun b => nmeta ≤ b < fb) (owned f);
  ct_apart : ∀ i j f g b, F !! i = Some f → F !! j = Some g → i ≠ j → b ∈ owned f → b ∉ owned g;
  ct_free : ∀ b, fb ≤ b < FSSIZE → img !! b = Some zeroes;
  ct_fb : nmeta ≤ fb ≤ FSSIZE
}.

Lemma body_frame img img' f : (∀ b, b ∈ owned f → img' !! b = img !! b) → body img f → body img' f.
Proof.
  intros Hf [H1 H2 H3 H4 H5]. split; try done.
  - destruct (12 <? _)%nat; [|done]. destruct H4 as (Hne & d & Hd & Hk). split; [done|]. exists d. split; [|done].
    rewrite Hf; [done|]. unfold owned. replace (f_ind f =? 0) with false by lia. apply elem_of_app. right. by left.
  - intros k b Hb. rewrite Hf; [by apply H5|]. unfold owned. apply elem_of_app. left. by eapply list_elem_of_lookup_2.
Qed.

(** A file grows from [f] to [f'], taking the blocks from [fb] to [fb']. *)
Record grow (img : gmap Z (list Z)) (fb : Z) (f : frec) (img' : gmap Z (list Z)) (fb' : Z) (f' : frec) : Prop := {
  gw_frame : ∀ b, b ∉ owned f' → img' !! b = img !! b;
  gw_owned : ∀ b, b ∈ owned f' → b ∈ owned f ∨ fb ≤ b < fb';
  gw_nodup : NoDup (owned f');
  gw_body : body img' f';
  gw_dom : ∀ b, b ∈ owned f' → ∃ d, img' !! b = Some d ∧ block_ok d;
  gw_fb : fb ≤ fb' ≤ FSSIZE
}.

Lemma contents_grow img fb F i f img' fb' f' : contents img fb F → F !! i = Some f → grow img fb f img' fb' f' →
  contents img' fb' (<[i := f']> F) ∧ ∀ b, b < nmeta → img' !! b = img !! b.
Proof.
  intros [Hd Hb Ha Hf Hfb] Hi [G1 G2 G3 G4 G5 G6]. destruct (Hb i f Hi) as (_ & _ & Hown). rewrite Forall_forall in Hown.
  assert (∀ b, b ∈ owned f' → nmeta ≤ b < fb') as Hown' by (intros b [Hb'%Hown|Hb']%G2; lia).
  assert (∀ j g b, F !! j = Some g → i ≠ j → b ∈ owned f' → b ∉ owned g) as Hap.
  { intros j g b Hj Hne [Hb'|Hb']%G2; [by apply (Ha i j f g)|]. intros Hbg. destruct (Hb j g Hj) as (_ & _ & Hg). rewrite Forall_forall in Hg. specialize (Hg b Hbg). lia. }
  split; [split|].
  - intros b Hb'. destruct (decide (b ∈ owned f')); [by apply G5|]. rewrite G1 by done. by apply Hd.
  - intros j g. rewrite lookup_insert_Some. intros [[<- <-]|[Hne Hj]]; [split_and!; [done|done|by apply Forall_forall]|].
    destruct (Hb j g Hj) as (H1 & H2 & H3). split_and!; [|done|].
    + eapply body_frame; [|exact H1]. intros b Hbg. apply G1. intros Hbf. by apply (Hap j g b).
    + apply (Forall_impl _ _ _ H3). intros b Hbg. lia.
  - intros j1 j2 g1 g2 b. rewrite !lookup_insert_Some. intros [[<- <-]|[H1 H2]] [[<- <-]|[H3 H4]] Hne Hb1; [done|by apply (Hap j2 g2)| |by apply (Ha j1 j2 g1 g2)].
    intros Hb2. by apply (Hap j1 g1 b).
  - intros b Hb'. rewrite G1; [apply Hf; lia|]. intros Hbo%Hown'. lia.
  - lia.
  - intros b Hlt. apply G1. intros Hbo%Hown'. lia.
Qed.

(** ** Growing by a piece of a block *)

Lemma length_chunk k data : length (chunk k data) = 1024%nat.
Proof. unfold chunk. rewrite length_take, length_app. unfold zeroes. rewrite length_replicate. unfold BSIZE. lia. Qed.

Lemma chunk_ok k data : Forall (fun b => 0 ≤ b < 256) data → block_ok (chunk k data).
Proof.
  intros H. split; [by rewrite length_chunk|]. apply Forall_take, Forall_app. split; [by apply Forall_drop|].
  unfold zeroes. apply Forall_replicate. lia.
Qed.

Lemma chunk_app_before k data q : (1024 * (k + 1) ≤ length data)%nat → chunk k (data ++ q) = chunk k data.
Proof.
  intros H. unfold chunk. rewrite drop_app_le by lia. rewrite <- app_assoc, !take_app_le; [done|rewrite length_drop; lia..].
Qed.

Lemma chunk_app_at k data q : k = (length data / 1024)%nat → (length q ≤ 1024 - length data mod 1024)%nat →
  put_bytes (Z.of_nat (length data mod 1024)) q (chunk k data) = chunk k (data ++ q).
Proof.
  intros -> Hq. pose proof (Nat.div_mod_eq (length data) 1024). pose proof (Nat.mod_upper_bound (length data) 1024 ltac:(lia)).
  set (m := (length data mod 1024)%nat) in *. set (k := (length data / 1024)%nat) in *. unfold put_bytes, chunk. rewrite Nat2Z.id.
  rewrite drop_app_le by lia. set (r := drop (1024 * k) data). assert (length r = m) as Hr by (unfold r; rewrite length_drop; lia).
  assert (length zeroes = 1024%nat) as Hz by done.
  rewrite take_take, Nat.min_l, take_app_le, take_ge by lia. rewrite <- !app_assoc, (take_app_ge r (q ++ zeroes)) by lia. f_equal.
  rewrite skipn_firstn_comm. rewrite drop_app_ge by lia. rewrite (take_app_ge q) by lia. f_equal.
  unfold zeroes. rewrite drop_replicate, !take_replicate. f_equal. unfold BSIZE. lia.
Qed.

Lemma nblk_more n q : (n mod 1024 ≠ 0 → 1 ≤ q ≤ 1024 - n mod 1024 → nblk n = S (n / 1024) ∧ nblk (n + q) = nblk n)%nat.
Proof.
  intros Hm Hq. unfold nblk. pose proof (Nat.div_mod_eq n 1024). pose proof (Nat.mod_upper_bound n 1024 ltac:(lia)).
  assert ((n + 1023) / 1024 = S (n / 1024))%nat by (symmetry; apply (Nat.div_unique _ _ _ (n mod 1024 - 1)); lia).
  assert ((n + q + 1023) / 1024 = S (n / 1024))%nat by (symmetry; apply (Nat.div_unique _ _ _ (n mod 1024 + q - 1)); lia). lia.
Qed.

Lemma nblk_new n q : (n mod 1024 = 0 → 1 ≤ q ≤ 1024 → nblk n = n / 1024 ∧ nblk (n + q) = S (n / 1024))%nat.
Proof.
  intros Hm Hq. unfold nblk. pose proof (Nat.div_mod_eq n 1024).
  assert ((n + 1023) / 1024 = n / 1024)%nat by (symmetry; apply (Nat.div_unique _ _ _ 1023); lia).
  assert ((n + q + 1023) / 1024 = S (n / 1024))%nat by (symmetry; apply (Nat.div_unique _ _ _ (q - 1)); lia). lia.
Qed.

Lemma nmeta_eq : nmeta = 46.
Proof. done. Qed.

(** The indirect block with one more entry. *)
Lemma ind_entries d bs b : length d = 1024%nat → (12 ≤ length bs < 268)%nat → 0 ≤ b < 2 ^ 32 →
  (∀ j, (j < 256)%nat → get_at (4 * Z.of_nat j) 4 d = nth (12 + j) bs 0) →
  ∀ j, (j < 256)%nat → get_at (4 * Z.of_nat j) 4 (put_at (4 * Z.of_nat (length bs - 12)) 4 b d) = nth (12 + j) (bs ++ [b]) 0.
Proof.
  intros Hd Hbs Hb Hg j Hj. destruct (decide (j = (length bs - 12)%nat)) as [->|Hne].
  - rewrite get_put_same by lia. rewrite app_nth2 by lia. replace (12 + (length bs - 12) - length bs)%nat with 0%nat by lia.
    cbn [nth]. apply Z.mod_small. exact Hb.
  - rewrite get_put_other by lia. rewrite Hg by done. destruct (decide (12 + j < length bs)%nat).
    + by rewrite app_nth1.
    + rewrite nth_overflow, nth_overflow; [done|rewrite length_app; cbn; lia|lia].
Qed.

Lemma zero_entries j : (j < 256)%nat → get_at (4 * Z.of_nat j) 4 zeroes = 0.
Proof.
  intros Hj. unfold get_at, zeroes, BSIZE. rewrite drop_replicate, take_replicate. generalize ((Z.to_nat 4 `min` (Z.to_nat 1024 - Z.to_nat (4 * Z.of_nat j)))%nat).
  intros c. induction c as [|c IH]; [done|]. cbn. lia.
Qed.

Lemma put_at_ok off b d : block_ok d → 0 ≤ off → off + 4 ≤ 1024 → block_ok (put_at off 4 b d).
Proof.
  intros [Hl Hb] H0 H1. unfold BSIZE in *. split.
  - unfold put_at. rewrite length_put_bytes; [done|done|]. rewrite length_le_bytes. lia.
  - unfold put_at, put_bytes. apply Forall_app. split; [by apply Forall_take|]. apply Forall_app. split; [apply le_bytes_range|by apply Forall_drop].
Qed.

Section step.
Context (img : gmap Z (list Z)) (fb : Z) (F : gmap Z frec) (i : Z) (f : frec) (q : list Z).
#[local] Notation n := (length (f_data f)).
#[local] Notation k := (length (f_data f) / 1024)%nat.
Hypothesis Hct : contents img fb F.
Hypothesis Hi : F !! i = Some f.
Hypothesis Hq : (1 ≤ length q ≤ 1024 - n mod 1024)%nat.
Hypothesis Hqb : Forall (fun b => 0 ≤ b < 256) q.
Hypothesis Hmax : Z.of_nat (n + length q) ≤ MAXFILE * BSIZE.

Lemma st_facts : body img f ∧ NoDup (owned f) ∧ (∀ b, b ∈ owned f → nmeta ≤ b < fb) ∧ nmeta ≤ fb ≤ FSSIZE.
Proof. destruct Hct as [_ Hb _ _ Hfb]. destruct (Hb i f Hi) as (H1 & H2 & H3). rewrite Forall_forall in H3. done. Qed.

Lemma st_dom b : b ∈ owned f → ∃ d, img !! b = Some d ∧ block_ok d.
Proof. intros Hb. destruct st_facts as (_ & _ & Ho & Hfb). apply (ct_dom _ _ _ Hct). specialize (Ho b Hb). rewrite nmeta_eq in *. lia. Qed.

Lemma elem_blocks j b : f_blocks f !! j = Some b → b ∈ owned f.
Proof. intros H%list_elem_of_lookup_2. unfold owned. apply elem_of_app. by left. Qed.

(** Into the last block, which is partly used. *)
Lemma grow_same : (n mod 1024 ≠ 0)%nat →
  ∃ b, f_blocks f !! k = Some b ∧ img !! b = Some (chunk k (f_data f)) ∧
    grow img fb f (<[b := put_bytes (Z.of_nat (n mod 1024)) q (chunk k (f_data f))]> img) fb (Frec (f_type f) (f_data f ++ q) (f_blocks f) (f_ind f)).
Proof.
  intros Hm. destruct st_facts as ([B1 B2 B3 B4 B5] & Hnd & Ho & Hfb). destruct (nblk_more n (length q) Hm Hq) as [Hn1 Hn2].
  destruct (lookup_lt_is_Some_2 (f_blocks f) k) as [b Hb]; [rewrite B1; lia|]. exists b. split_and!; [done|by apply B5|].
  pose proof (Nat.div_mod_eq n 1024).
  assert (put_bytes (Z.of_nat (n mod 1024)) q (chunk k (f_data f)) = chunk k (f_data f ++ q)) as -> by (apply chunk_app_at; [done|lia]).
  assert (Forall (fun b => 0 ≤ b < 256) (f_data f ++ q)) as Hbytes by (by apply Forall_app).
  assert (∀ j b', f_blocks f !! j = Some b' → <[b := chunk k (f_data f ++ q)]> img !! b' = Some (chunk j (f_data f ++ q))) as Hdata.
  { intros j b' Hj. destruct (decide (j = k)) as [->|Hne]; [assert (b' = b) as -> by congruence; by rewrite lookup_insert_eq|].
    assert (j < S k)%nat by (apply lookup_lt_Some in Hj; rewrite B1 in Hj; lia).
    rewrite lookup_insert_ne; [rewrite chunk_app_before by lia; by apply B5|]. intros <-.
    assert (NoDup (f_blocks f)) as Hnd' by (unfold owned in Hnd; by apply NoDup_app in Hnd as [? _]). apply Hne. by eapply NoDup_lookup. }
  split; [| |done| | |lia].
  - intros b' Hb'. change (owned _) with (owned f) in Hb'. rewrite lookup_insert_ne; [done|]. intros <-. by apply Hb', (elem_blocks k).
  - intros b' Hb'. by left.
  - split; cbn [f_data f_blocks f_ind]; [by rewrite length_app, Hn2|by rewrite length_app|done| |done].
    destruct (12 <? length (f_blocks f))%nat; [|done]. destruct B4 as (Hne & d & Hd & Hk). split; [done|]. exists d. split; [|done].
    rewrite lookup_insert_ne; [done|]. intros E. unfold owned in Hnd. replace (f_ind f =? 0) with false in Hnd by lia.
    apply NoDup_app in Hnd as (_ & Hnd & _). apply (Hnd b); [by eapply list_elem_of_lookup_2|rewrite E; by left].
  - intros b' Hb'. change (owned _) with (owned f) in Hb'. destruct (decide (b' = b)) as [->|Hne].
    + rewrite lookup_insert_eq. eexists. split; [done|]. by apply chunk_ok.
    + rewrite lookup_insert_ne by done. by apply st_dom.
Qed.

Lemma zero_chunk : (n mod 1024 = 0)%nat → chunk k (f_data f) = zeroes ∧ put_bytes 0 q zeroes = chunk k (f_data f ++ q).
Proof.
  intros Hm. pose proof (Nat.div_mod_eq n 1024). assert (chunk k (f_data f) = zeroes) as E.
  { unfold chunk. rewrite drop_ge by lia. apply take_ge. done. }
  split; [done|]. rewrite <- E. rewrite <- (chunk_app_at k (f_data f) q) by lia. by rewrite Hm.
Qed.

(** The blocks with one more of them. *)
Lemma new_data (img' : gmap Z (list Z)) b : (n mod 1024 = 0)%nat → (∀ b', b' ∈ f_blocks f → img' !! b' = img !! b') → img' !! b = Some (chunk k (f_data f ++ q)) →
  ∀ j b', (f_blocks f ++ [b]) !! j = Some b' → img' !! b' = Some (chunk j (f_data f ++ q)).
Proof.
  intros Hm Hold Hnew j b' Hj. destruct st_facts as ([B1 B2 B3 B4 B5] & _). destruct (nblk_new n (length q) Hm) as [Hn1 _]; [lia|].
  pose proof (Nat.div_mod_eq n 1024). apply lookup_app_Some in Hj as [Hj|[Hlen Hj]].
  - pose proof (lookup_lt_Some _ _ _ Hj) as Hlt. rewrite Hold by by eapply list_elem_of_lookup_2. rewrite chunk_app_before by lia. by apply B5.
  - apply list_lookup_singleton_Some in Hj as [Hj <-]. assert (j = k) as -> by lia. done.
Qed.

(** A new block that the inode lists. *)
Lemma grow_direct : (n mod 1024 = 0)%nat → (k < 12)%nat → fb + 1 ≤ FSSIZE →
  f_ind f = 0 ∧ length (f_blocks f) = k ∧
  grow img fb f (<[fb := put_bytes 0 q zeroes]> img) (fb + 1) (Frec (f_type f) (f_data f ++ q) (f_blocks f ++ [fb]) 0).
Proof.
  intros Hm Hk Hroom. destruct st_facts as ([B1 B2 B3 B4 B5] & Hnd & Ho & Hfb). destruct (nblk_new n (length q) Hm) as [Hn1 Hn2]; [lia|].
  destruct (zero_chunk Hm) as [_ Hz]. rewrite Hz.
  assert (f_ind f = 0) as Hind by (destruct (Nat.ltb_spec 12 (length (f_blocks f))); [lia|done]).
  assert (owned f = f_blocks f) as Hof by (unfold owned; rewrite Hind; cbn; by rewrite app_nil_r).
  set (f' := Frec _ _ _ _). assert (owned f' = f_blocks f ++ [fb]) as Hof' by (unfold owned; cbn; by rewrite app_nil_r). rewrite Hof in *.
  assert (∀ b, b ∈ f_blocks f → b ≠ fb) as Hne by (intros b Hb; specialize (Ho b Hb); lia).
  split_and!; [done|lia|]. split; rewrite ?Hof'.
  - intros b Hb. rewrite lookup_insert_ne; [done|]. intros <-. apply Hb, elem_of_app. right. by left.
  - intros b [Hb|Hb%list_elem_of_singleton]%elem_of_app; [left; by rewrite Hof|right; lia].
  - apply NoDup_app. split_and!; [done| |apply NoDup_singleton]. intros b Hb Hb2%list_elem_of_singleton. by apply (Hne b).
  - split; cbn [f_data f_blocks f_ind f']; [rewrite !length_app, Hn2, B1, Hn1; cbn [length]; lia|by rewrite length_app|by apply Forall_app| |].
    + replace (12 <? length (f_blocks f ++ [fb]))%nat with false; [done|]. symmetry. apply Nat.ltb_ge. rewrite length_app. cbn. lia.
    + apply new_data; [done| |by rewrite lookup_insert_eq]. intros b Hb. rewrite lookup_insert_ne; [done|]. intros E. by apply (Hne b).
  - intros b [Hb|Hb%list_elem_of_singleton]%elem_of_app.
    + rewrite lookup_insert_ne; [apply st_dom; by rewrite Hof|]. intros E. by apply (Hne b).
    + subst b. rewrite lookup_insert_eq. eexists. split; [done|]. apply chunk_ok. by apply Forall_app.
  - lia.
Qed.

(** A new block in the indirect block [ib], which holds [d]; [c] blocks are
    taken. *)
Lemma grow_indirect ib d b c : (n mod 1024 = 0)%nat → (12 ≤ k)%nat → fb + c ≤ FSSIZE → fb ≤ b < fb + c → ib ≠ b → ib ≠ 0 →
  (ib = f_ind f ∨ (f_ind f = 0 ∧ fb ≤ ib < fb + c)) → length d = 1024%nat → block_ok d →
  (∀ j, (j < 256)%nat → get_at (4 * Z.of_nat j) 4 d = nth (12 + j) (f_blocks f) 0) →
  grow img fb f (<[b := put_bytes 0 q zeroes]> (<[ib := put_at (4 * Z.of_nat (k - 12)) 4 b d]> img)) (fb + c)
    (Frec (f_type f) (f_data f ++ q) (f_blocks f ++ [b]) ib).
Proof.
  intros Hm Hk Hroom Hb Hib Hib0 Hold Hdl Hdk Hent. destruct st_facts as ([B1 B2 B3 B4 B5] & Hnd & Ho & Hfb). rewrite nmeta_eq in *.
  destruct (nblk_new n (length q) Hm) as [Hn1 Hn2]; [lia|]. destruct (zero_chunk Hm) as [_ Hz]. rewrite Hz.
  pose proof (Nat.div_mod_eq n 1024). unfold MAXFILE, NDIRECT, NINDIRECT, BSIZE, FSSIZE in *. change (12 + 1024 / 4) with 268 in Hmax.
  set (f' := Frec _ _ _ _). assert (owned f' = (f_blocks f ++ [b]) ++ [ib]) as Hof' by (unfold owned; cbn; by replace (ib =? 0) with false by lia).
  assert (∀ x, x ∈ f_blocks f → x ∈ owned f ∧ x ≠ b ∧ x ≠ ib) as Hne.
  { intros x Hx. assert (x ∈ owned f) as Hx' by (unfold owned; apply elem_of_app; by left). specialize (Ho x Hx'). split_and!; [done|lia|].
    destruct Hold as [->|[_ ?]]; [|lia]. intros ->. unfold owned in Hnd. replace (f_ind f =? 0) with false in Hnd by lia.
    apply NoDup_app in Hnd as (_ & Hnd & _). apply (Hnd (f_ind f)); [done|by left]. }
  assert (NoDup (f_blocks f)) as Hndb by (unfold owned in Hnd; by apply NoDup_app in Hnd as [? _]).
  split; rewrite ?Hof'.
  - intros x Hx. rewrite !elem_of_app, !list_elem_of_singleton in Hx. rewrite !lookup_insert_ne; [done|intros <-; tauto|intros <-; tauto].
  - intros x. rewrite !elem_of_app, !list_elem_of_singleton. intros [[Hx| ->]| ->]; [left; by apply Hne|by right|].
    destruct Hold as [->|[_ ?]]; [|by right]. left. unfold owned. replace (f_ind f =? 0) with false by lia. apply elem_of_app. right. by left.
  - apply NoDup_app. split_and!; [apply NoDup_app; split_and!; [done| |apply NoDup_singleton]| |apply NoDup_singleton].
    + intros x Hx ->%list_elem_of_singleton. by destruct (Hne b Hx) as (_ & ? & _).
    + intros x [Hx|Hx%list_elem_of_singleton]%elem_of_app ->%list_elem_of_singleton; [by destruct (Hne ib Hx) as (_ & _ & ?)|done].
  - split; cbn [f_data f_blocks f_ind f']; [rewrite !length_app, Hn2, B1, Hn1; cbn [length]; lia|by rewrite length_app|by apply Forall_app| |].
    + replace (12 <? length (f_blocks f ++ [b]))%nat with true by (symmetry; apply Nat.ltb_lt; rewrite length_app; cbn [length]; lia).
      split; [done|]. eexists. split; [rewrite lookup_insert_ne by done; by rewrite lookup_insert_eq|].
      replace k with (length (f_blocks f)) by lia. apply ind_entries; [done|lia|lia|done].
    + apply new_data; [done| |by rewrite lookup_insert_eq]. intros x Hx. destruct (Hne x Hx) as (_ & ? & ?). by rewrite !lookup_insert_ne by done.
  - intros x. rewrite !elem_of_app, !list_elem_of_singleton. intros [[Hx| ->]| ->].
    + destruct (Hne x Hx) as (Hxo & ? & ?). rewrite !lookup_insert_ne by done. by apply st_dom.
    + rewrite lookup_insert_eq. eexists. split; [done|]. apply chunk_ok. by apply Forall_app.
    + rewrite lookup_insert_ne, lookup_insert_eq by done. eexists. split; [done|]. apply put_at_ok; [done|lia|lia].
  - unfold FSSIZE. lia.
Qed.

End step.

(** ** Appending to a file *)

Lemma length_addrs f : length (addrs_of f) = 13%nat.
Proof. unfold addrs_of. rewrite length_app, length_take, length_app, length_replicate. cbn [length]. lia. Qed.

Lemma nth_addrs f j : (j < 12)%nat → nth j (addrs_of f) 0 = nth j (f_blocks f) 0.
Proof.
  intros Hj. unfold addrs_of. rewrite app_nth1 by (rewrite length_take, length_app, length_replicate; lia). rewrite !nth_lookup, lookup_take_lt by lia.
  destruct (decide (j < length (f_blocks f))%nat).
  - by rewrite lookup_app_l.
  - rewrite lookup_app_r, lookup_replicate_2, lookup_ge_None_2 by lia. done.
Qed.

Lemma nth_addrs_ind f : nth 12 (addrs_of f) 0 = f_ind f.
Proof. unfold addrs_of. rewrite app_nth2; rewrite length_take, length_app, length_replicate; [|lia]. rewrite Nat.min_l by lia. done. Qed.

Lemma addrs_direct t d bs b : (length bs < 12)%nat → <[length bs := b]> (addrs_of (Frec t d bs 0)) = addrs_of (Frec t d (bs ++ [b]) 0).
Proof.
  intros Hl. unfold addrs_of. cbn [f_blocks f_ind]. rewrite insert_app_l by (rewrite length_take, length_app, length_replicate; lia). f_equal.
  rewrite <- take_insert_lt by lia. rewrite insert_app_r_alt by lia. rewrite Nat.sub_diag, <- app_assoc.
  change (<[0%nat := b]> (replicate 12 0)) with (b :: replicate 11 0). change ([b] ++ replicate 12 0) with ((b :: replicate 11 0) ++ [0]).
  rewrite app_assoc, (take_app_le (bs ++ b :: replicate 11 0)); [done|]. rewrite length_app. cbn [length]. rewrite length_replicate. lia.
Qed.

Lemma addrs_indirect t d bs b ib : (12 ≤ length bs)%nat → addrs_of (Frec t d (bs ++ [b]) ib) = <[12%nat := ib]> (addrs_of (Frec t d bs 0)).
Proof.
  intros Hl. unfold addrs_of. cbn [f_blocks f_ind]. rewrite <- !app_assoc, !take_app_le by lia.
  rewrite insert_app_r_alt by (rewrite length_take; lia). rewrite length_take, Nat.min_l by lia. done.
Qed.

Lemma addrs_same t t' d d' bs ib ib' : <[12%nat := ib']> (addrs_of (Frec t d bs ib)) = addrs_of (Frec t' d' bs ib').
Proof.
  unfold addrs_of. cbn [f_blocks f_ind]. rewrite insert_app_r_alt by (rewrite length_take, length_app, length_replicate; lia).
  rewrite length_take, length_app, length_replicate, Nat.min_l by lia. done.
Qed.

Lemma wp_rsect sec d s Q : m_img s !! sec = Some d → Q d s → wp (rsect sec) s Q.
Proof. intros H HQ. unfold rsect. wp_simpl. rewrite H. by wp_simpl. Qed.

(** Blocks have small numbers. *)
Lemma contents_small img fb F i f b : contents img fb F → F !! i = Some f → b ∈ owned f → 0 < b < 2 ^ 32 ∧ xint b = b.
Proof.
  intros [_ Hb _ _ Hfb] Hi Hbo. destruct (Hb i f Hi) as (_ & _ & Ho). rewrite Forall_forall in Ho. specialize (Ho b Hbo). rewrite nmeta_eq in *.
  unfold FSSIZE in *. split; [lia|apply xint_small; lia].
Qed.

Lemma cost_more n q : (n mod 1024 ≠ 0 → 1 ≤ q ≤ 1024 - n mod 1024)%nat → (n mod 1024 ≠ 0)%nat → cost (n + q) = cost n.
Proof. intros H1 H2. unfold cost. by destruct (nblk_more n q H2 (H1 H2)) as [_ ->]. Qed.

Lemma cost_new n q : (n mod 1024 = 0)%nat → (1 ≤ q ≤ 1024)%nat →
  cost (n + q) = cost n + (if (n / 1024 =? 12)%nat then 2 else 1).
Proof.
  intros H1 H2. unfold cost. destruct (nblk_new n q H1 H2) as [-> ->].
  destruct (Nat.eqb_spec (n / 1024) 12), (Nat.ltb_spec 12 (n / 1024)), (Nat.ltb_spec 12 (S (n / 1024))); lia.
Qed.

(** The file [f] of the image has become [f'], but the data of the piece [q] are
    still to be written to the block [x], which lies in [img1]. *)
Record placed (img : gmap Z (list Z)) (fb : Z) (F : gmap Z frec) (i : Z) (f : frec) (q : list Z)
    (img1 : gmap Z (list Z)) (fb' : Z) (f' : frec) (x : Z) (old : list Z) : Prop := {
  pl_old : img1 !! x = Some old;
  pl_contents : contents (<[x := put_bytes (Z.of_nat (length (f_data f) mod 1024)) q old]> img1) fb' (<[i := f']> F);
  pl_meta : ∀ b, b < nmeta → <[x := put_bytes (Z.of_nat (length (f_data f) mod 1024)) q old]> img1 !! b = img !! b;
  pl_data : f_data f' = f_data f ++ q;
  pl_type : f_type f' = f_type f;
  pl_fb : fb' = fb + cost (length (f_data f) + length q) - cost (length (f_data f))
}.

Section place.
Context (s : mkst) (F : gmap Z frec) (i : Z) (f : frec) (q : list Z) (din : dinode) (Q : dinode * Z → mkst → Prop).
#[local] Notation n := (length (f_data f)).
#[local] Notation k := (length (f_data f) / 1024)%nat.
#[local] Notation img := (m_img s).
#[local] Notation fb := (freeblock s).
Hypothesis Hct : contents img fb F.
Hypothesis Hi : F !! i = Some f.
Hypothesis Hq : (1 ≤ length q ≤ 1024 - n mod 1024)%nat.
Hypothesis Hqb : Forall (fun b => 0 ≤ b < 256) q.
Hypothesis Hmax : Z.of_nat (n + length q) ≤ MAXFILE * BSIZE.
Hypothesis Hroom : fb + cost (n + length q) - cost n ≤ FSSIZE.
Hypothesis Hdin : d_addrs din = addrs_of f.
Hypothesis HQ : ∀ x img1 fb' f' old, placed img fb F i f q img1 fb' f' x old →
  Q (din <| d_addrs := addrs_of f' |>, x) (s <| m_img := img1 |> <| freeblock := fb' |>).

Lemma wp_next_block (R : Z → mkst → Prop) s1 : 0 ≤ freeblock s1 < 2 ^ 32 - 1 → R (freeblock s1) (s1 <| freeblock := freeblock s1 + 1 |>) → wp next_block s1 R.
Proof. intros H HR. unfold next_block. wp_simpl. rewrite u32_small by lia. done. Qed.

Lemma place_same : (n mod 1024 ≠ 0)%nat → wp (block_for din (Z.of_nat k)) s Q.
Proof.
  intros Hm. destruct (grow_same img fb F i f q Hct Hi Hq Hqb Hmax Hm) as (b & Hb & Hold & Hg).
  destruct (contents_grow _ _ _ _ _ _ _ _ Hct Hi Hg) as [Hct' Hmeta]. destruct (st_facts img fb F i f Hct Hi) as ([B1 B2 B3 B4 B5] & _).
  destruct (contents_small img fb F i f b Hct Hi (elem_blocks f k b Hb)) as [Hbr Hx].
  assert (Q (din, b) s) as HQ'.
  { pose proof (HQ b img fb _ _ ltac:(split; [exact Hold|exact Hct'|exact Hmeta|done|done|by rewrite cost_more; [lia| |]])) as H.
    change (addrs_of (Frec (f_type f) (f_data f ++ q) (f_blocks f) (f_ind f))) with (addrs_of f) in H. rewrite <- Hdin in H.
    by destruct din, s. }
  assert (nth k (f_blocks f) 0 = b) as Hnth by (rewrite nth_lookup, Hb; done).
  unfold block_for. rewrite Hdin, Nat2Z.id. destruct (Z.ltb_spec (Z.of_nat k) NDIRECT) as [Hk|Hk]; unfold NDIRECT in *.
  - rewrite nth_addrs, Hnth, Hx by lia. replace (b =? 0) with false by lia. wp_simpl. exact HQ'.
  - change (Z.to_nat 12) with 12%nat. rewrite nth_addrs_ind. destruct (nblk_more n (length q) Hm Hq) as [Hn1 _].
    assert ((12 <? length (f_blocks f))%nat = true) as E by (apply Nat.ltb_lt; rewrite B1; lia). rewrite E in B4.
    destruct B4 as (Hi0 & d & Hd & Hent).
    destruct (contents_small img fb F i f (f_ind f) Hct Hi) as [Hir Hix].
    { unfold owned. replace (f_ind f =? 0) with false by lia. apply elem_of_app. right. by left. }
    rewrite Hix. replace (f_ind f =? 0) with false by lia. wp_simpl. rewrite Hdin, nth_addrs_ind, Hix. eapply wp_rsect; [exact Hd|].
    pose proof (Nat.div_mod_eq n 1024). unfold MAXFILE, NINDIRECT, BSIZE, NDIRECT in Hmax. change (12 + 1024 / 4) with 268 in Hmax.
    replace (4 * (Z.of_nat k - 12)) with (4 * Z.of_nat (k - 12)) by lia. rewrite Hent by lia. replace (12 + (k - 12))%nat with k by lia.
    rewrite Hnth. replace (b =? 0) with false by lia. rewrite Hx. wp_simpl. exact HQ'.
Qed.

Lemma fb_range : 46 ≤ fb < 2000 → xint fb = fb ∧ xint (xint fb) = fb ∧ xint (fb + 1) = fb + 1 ∧ xint (xint (fb + 1)) = fb + 1.
Proof. intros H. rewrite !(xint_small fb), !(xint_small (fb + 1)) by lia. rewrite ?xint_small by lia. done. Qed.

Lemma place_direct : (n mod 1024 = 0)%nat → (k < 12)%nat → wp (block_for din (Z.of_nat k)) s Q.
Proof.
  intros Hm Hk. assert (Hcost : cost (n + length q) = cost n + 1).
  { rewrite cost_new by lia. replace (n / 1024 =? 12)%nat with false; [done|]. symmetry. apply Nat.eqb_neq. lia. }
  destruct (grow_direct img fb F i f q Hct Hi Hq Hqb Hmax Hm Hk) as (Hind & Hlen & Hg); [lia|].
  destruct (contents_grow _ _ _ _ _ _ _ _ Hct Hi Hg) as [Hct' Hmeta]. pose proof (ct_fb _ _ _ Hct) as Hfb. rewrite nmeta_eq in *. unfold FSSIZE in *.
  destruct fb_range as (E1 & E2 & _); [lia|].
  unfold block_for. rewrite Hdin, Nat2Z.id. replace (Z.of_nat k <? NDIRECT) with true by (unfold NDIRECT; lia).
  rewrite nth_addrs, nth_overflow by lia. change (xint 0 =? 0) with true. cbn iota. wp_simpl. apply wp_next_block; [lia|]. wp_simpl. rewrite E2, E1.
  assert (placed img fb F i f q img (fb + 1) (Frec (f_type f) (f_data f ++ q) (f_blocks f ++ [fb]) 0) fb zeroes) as Hp.
  { split; rewrite ?Hm; cbn [f_data f_type]; [|done|by rewrite nmeta_eq|done|done|lia]. apply (ct_free _ _ _ Hct). unfold FSSIZE. lia. }
  apply HQ in Hp. rewrite <- addrs_direct in Hp by lia. rewrite Hlen in Hp.
  assert (addrs_of (Frec (f_type f) (f_data f ++ q) (f_blocks f) 0) = d_addrs din) as E by (rewrite Hdin; unfold addrs_of; cbn; by rewrite Hind).
  rewrite E in Hp. destruct din, s. exact Hp.
Qed.

(** The indirect block is there. *)
Lemma place_indirect : (n mod 1024 = 0)%nat → (12 < k)%nat → wp (block_for din (Z.of_nat k)) s Q.
Proof.
  intros Hm Hk. assert (Hcost : cost (n + length q) = cost n + 1).
  { rewrite cost_new by lia. replace (n / 1024 =? 12)%nat with false; [done|]. symmetry. apply Nat.eqb_neq. lia. }
  destruct (st_facts img fb F i f Hct Hi) as ([B1 B2 B3 B4 B5] & _ & Ho & Hfb). destruct (nblk_new n (length q) Hm) as [Hn1 _]; [lia|].
  assert ((12 <? length (f_blocks f))%nat = true) as E by (apply Nat.ltb_lt; rewrite B1; lia). rewrite E in B4. destruct B4 as (Hi0 & d & Hd & Hent).
  assert (f_ind f ∈ owned f) as Hio by (unfold owned; replace (f_ind f =? 0) with false by lia; apply elem_of_app; right; by left).
  destruct (contents_small img fb F i f (f_ind f) Hct Hi Hio) as [Hir Hix]. specialize (Ho _ Hio).
  destruct (st_dom img fb F i f q Hct Hi Hq Hmax (f_ind f) Hio) as (d' & Hd' & Hok). assert (d' = d) as -> by congruence.
  pose proof (grow_indirect img fb F i f q Hct Hi Hq Hqb Hmax (f_ind f) d fb 1 Hm ltac:(lia) ltac:(lia) ltac:(lia) ltac:(lia) Hi0 ltac:(by left) (proj1 Hok) Hok Hent) as Hg.
  destruct (contents_grow _ _ _ _ _ _ _ _ Hct Hi Hg) as [Hct' Hmeta]. rewrite nmeta_eq in *. unfold FSSIZE in *.
  destruct fb_range as (E1 & E2 & _); [lia|]. pose proof (Nat.div_mod_eq n 1024).
  unfold MAXFILE, NINDIRECT, BSIZE, NDIRECT in Hmax. change (12 + 1024 / 4) with 268 in Hmax.
  unfold block_for. rewrite Hdin. unfold NDIRECT. replace (Z.of_nat k <? 12) with false by lia. change (Z.to_nat 12) with 12%nat.
  rewrite nth_addrs_ind, Hix. replace (f_ind f =? 0) with false by lia. wp_simpl. rewrite Hdin, nth_addrs_ind, Hix. eapply wp_rsect; [exact Hd|].
  replace (4 * (Z.of_nat k - 12)) with (4 * Z.of_nat (k - 12)) by lia. rewrite Hent by lia. rewrite nth_overflow by lia.
  change (0 =? 0) with true. cbn iota. wp_simpl. apply wp_next_block; [lia|]. unfold wsect. wp_simpl. rewrite E1, xint_small by lia.
  assert (placed img fb F i f q (<[f_ind f := put_at (4 * Z.of_nat (k - 12)) 4 fb d]> img) (fb + 1)
    (Frec (f_type f) (f_data f ++ q) (f_blocks f ++ [fb]) (f_ind f)) fb zeroes) as Hp.
  { split; rewrite ?Hm; cbn [f_data f_type]; [|done|by rewrite nmeta_eq|done|done|lia]. rewrite lookup_insert_ne by lia. apply (ct_free _ _ _ Hct). unfold FSSIZE. lia. }
  apply HQ in Hp. rewrite addrs_indirect in Hp by lia.
  rewrite (addrs_same _ (f_type f) _ (f_data f) (f_blocks f) 0 (f_ind f)) in Hp.
  assert (addrs_of (Frec (f_type f) (f_data f) (f_blocks f) (f_ind f)) = d_addrs din) as Ed by (rewrite Hdin; by destruct f).
  rewrite Ed in Hp. destruct din, s. exact Hp.
Qed.

(** The indirect block is new, too. *)
Lemma place_first_indirect : (n mod 1024 = 0)%nat → (k = 12)%nat → wp (block_for din (Z.of_nat k)) s Q.
Proof.
  intros Hm Hk. assert (Hcost : cost (n + length q) = cost n + 2).
  { rewrite cost_new by lia. by rewrite Hk. }
  destruct (st_facts img fb F i f Hct Hi) as ([B1 B2 B3 B4 B5] & _ & Ho & Hfb). destruct (nblk_new n (length q) Hm) as [Hn1 _]; [lia|].
  assert (f_ind f = 0) as Hind by (destruct (Nat.ltb_spec 12 (length (f_blocks f))); [lia|done]).
  assert (∀ j, (j < 256)%nat → get_at (4 * Z.of_nat j) 4 zeroes = nth (12 + j) (f_blocks f) 0) as Hent.
  { intros j Hj. rewrite zero_entries by done. rewrite nth_overflow; [done|lia]. }
  assert (block_ok zeroes) as Hzok by (split; [done|apply Forall_replicate; lia]). rewrite nmeta_eq in *. unfold FSSIZE in *.
  pose proof (grow_indirect img fb F i f q Hct Hi Hq Hqb Hmax fb zeroes (fb + 1) 2 Hm ltac:(lia) ltac:(unfold FSSIZE; lia) ltac:(lia) ltac:(lia) ltac:(lia) ltac:(right; split; [done|lia]) eq_refl Hzok Hent) as Hg.
  destruct (contents_grow _ _ _ _ _ _ _ _ Hct Hi Hg) as [Hct' Hmeta]. destruct fb_range as (E1 & E2 & E3 & E4); [lia|].
  unfold block_for. rewrite Hdin. unfold NDIRECT. replace (Z.of_nat k <? 12) with false by lia. change (Z.to_nat 12) with 12%nat.
  rewrite nth_addrs_ind, Hind. change (xint 0 =? 0) with true. cbn iota. wp_simpl. apply wp_next_block; [lia|]. wp_simpl.
  rewrite E1. assert (∀ d : dinode, nth 12 (d_addrs (d <| d_addrs ::= <[12%nat := fb]> |>)) 0 = nth 12 (<[12%nat := fb]> (d_addrs d)) 0) as Hn by (by intros []).
  rewrite Hn, Hdin. assert (nth 12 (<[12%nat := fb]> (addrs_of f)) 0 = fb) as Hn12.
  { rewrite nth_lookup, list_lookup_insert_eq; [done|]. rewrite length_addrs. lia. }
  rewrite Hn12, E1. eapply wp_rsect; [apply (ct_free _ _ _ Hct); unfold FSSIZE; lia|].
  replace (4 * (Z.of_nat k - 12)) with (4 * Z.of_nat (k - 12)) by lia. rewrite zero_entries by lia.
  change (0 =? 0) with true. cbn iota. wp_simpl. apply wp_next_block; [cbn; lia|]. unfold wsect. wp_simpl. cbn [freeblock].
  change (freeblock (s <| freeblock := fb + 1 |>)) with (fb + 1). rewrite !E3.
  assert (placed img fb F i f q (<[fb := put_at (4 * Z.of_nat (k - 12)) 4 (fb + 1) zeroes]> img) (fb + 2)
    (Frec (f_type f) (f_data f ++ q) (f_blocks f ++ [fb + 1]) fb) (fb + 1) zeroes) as Hp.
  { split; rewrite ?Hm; cbn [f_data f_type]; [|done|done|done|done|lia]. rewrite lookup_insert_ne by lia. apply (ct_free _ _ _ Hct). unfold FSSIZE. lia. }
  apply HQ in Hp. rewrite addrs_indirect in Hp by lia.
  assert (addrs_of (Frec (f_type f) (f_data f ++ q) (f_blocks f) 0) = d_addrs din) as Ed by (rewrite Hdin; unfold addrs_of; cbn; by rewrite Hind).
  rewrite Ed in Hp. replace (fb + 1 + 1) with (fb + 2) by lia. destruct din, s. exact Hp.
Qed.

Lemma wp_block_for : wp (block_for din (Z.of_nat k)) s Q.
Proof.
  destruct (decide (n mod 1024 = 0)%nat) as [Hm|Hm]; [|by apply place_same].
  destruct (lt_eq_lt_dec k 12) as [[?|?]|?]; [by apply place_direct|by apply place_first_indirect|by apply place_indirect].
Qed.

End place.
