(* ===== verification/MkfsOps.v ===== *)
(** * mkfs: appending, and the whole image

    [iappend] on the files of an image, the inode that [ialloc] makes, and the
    image for a list of files. *)

From Stdlib Require Import ZArith Lia.
From stdpp Require Import base gmap strings numbers list.
From S2P Require Import Prelude Mem FsState Fs BioFacts LogFacts Mkfs MkfsFacts.
Local Open Scope xv6_scope.

(** ** [iappend] *)

(** The inodes with numbers up to [fi] describe the files [F]. *)
Definition dinode_of (f : frec) : dinode := Dinode (f_type f) 0 0 1 (Z.of_nat (length (f_data f))) (addrs_of f).
Definition slot (inum : Z) : Z := (inum mod IPB) * DINODESIZE.

Record inodes (img : gmap Z (list Z)) (fi : Z) (F : gmap Z frec) : Prop := {
  in_range : ∀ i f, F !! i = Some f → 1 ≤ i < fi ∧ 0 < f_type f < 2 ^ 15;
  in_slot : ∀ i f, F !! i = Some f → ∃ d, img !! IBLOCK i sb = Some d ∧ dinode_at (slot i) d = dinode_of f;
  in_max : 1 ≤ fi ≤ NINODES
}.

Lemma cost_mono n m : (n ≤ m)%nat → cost n ≤ cost m.
Proof.
  intros H. unfold cost, nblk. pose proof (Nat.Div0.div_le_mono (n + 1023) (m + 1023) 1024 ltac:(lia)) as Hd. revert Hd.
  generalize ((n + 1023) / 1024)%nat, ((m + 1023) / 1024)%nat. intros a b Hab. destruct (Nat.ltb_spec 12 a), (Nat.ltb_spec 12 b); lia.
Qed.

Lemma wp_iappend_loop i fuel : ∀ F p f s din (Q : dinode * Z → mkst → Prop),
  contents (m_img s) (freeblock s) F → F !! i = Some f → Forall (fun b => 0 ≤ b < 256) p → (length p < fuel)%nat →
  Z.of_nat (length (f_data f) + length p) ≤ MAXFILE * BSIZE →
  freeblock s + cost (length (f_data f) + length p) - cost (length (f_data f)) ≤ FSSIZE →
  d_addrs din = addrs_of f →
  (∀ img' fb' f', contents img' fb' (<[i := f']> F) → (∀ b, b < nmeta → img' !! b = m_img s !! b) →
     f_data f' = f_data f ++ p → f_type f' = f_type f → fb' = freeblock s + cost (length (f_data f')) - cost (length (f_data f)) →
     Q (din <| d_addrs := addrs_of f' |>, Z.of_nat (length (f_data f'))) (s <| m_img := img' |> <| freeblock := fb' |>)) →
  wp (iappend_loop fuel din (Z.of_nat (length (f_data f))) p) s Q.
Proof.
  induction fuel as [|fuel IH]; intros F p f s din Q Hct Hi Hp Hfuel Hmax Hroom Hdin HQ; [lia|]. cbn [iappend_loop].
  destruct p as [|x p].
  { wp_simpl. rewrite Nat.add_0_r in Hroom. specialize (HQ (m_img s) (freeblock s) f). rewrite insert_id in HQ by done. rewrite <- Hdin in HQ.
    destruct din, s. apply HQ; try done; [by rewrite app_nil_r|lia]. }
  assert (0 < length (x :: p))%nat as Hpos by (cbn; lia). set (P := x :: p) in *. clearbody P. set (n := length (f_data f)) in *.
  pose proof (Nat.div_mod_eq n 1024) as Hdm. pose proof (Nat.mod_upper_bound n 1024 ltac:(lia)) as Hmb.
  change BSIZE with 1024 in *. change (MAXFILE * 1024) with 274432 in *. change MAXFILE with 268.
  replace (Z.of_nat n / 1024) with (Z.of_nat (n / 1024)) by (rewrite Nat2Z.inj_div; done).
  replace (Z.of_nat (n / 1024) <? 268) with true by lia. cbn [negb]. wp_simpl.
  set (n1 := Z.min (Z.of_nat (length P)) ((Z.of_nat (n / 1024) + 1) * 1024 - Z.of_nat n)).
  set (q := take (Z.to_nat n1) P). assert (length q = Z.to_nat n1) as Hql by (unfold q; rewrite length_take; lia).
  assert (Forall (fun b => 0 ≤ b < 256) q) as Hqb by by apply Forall_take.
  assert (cost (n + length q) ≤ cost (n + length P)) as Hmono by (apply cost_mono; lia).
  apply (wp_block_for s F i f q din); try done; [fold n; lia|change (MAXFILE * BSIZE) with 274432; fold n; lia|fold n; lia|].
  intros y img1 fb' f' old [P1 P2 P3 P4 P5 P6]. fold n in P2, P3, P6. wp_simpl. eapply wp_rsect; [exact P1|]. unfold wsect. wp_simpl.
  assert (length (f_data f') = (n + length q)%nat) as Hlen by (rewrite P4, length_app; done).
  replace (Z.of_nat n - Z.of_nat (n / 1024) * 1024) with (Z.of_nat (n mod 1024)) by lia.
  replace (u32 (Z.of_nat n + n1)) with (Z.of_nat (length (f_data f'))) by (rewrite u32_small; lia).
  assert (P = q ++ drop (Z.to_nat n1) P) as HP by (unfold q; by rewrite take_drop).
  assert (length P = (length q + length (drop (Z.to_nat n1) P))%nat) as HPl by (rewrite HP at 1; by rewrite length_app).
  eapply (IH (<[i := f']> F) _ f'); [exact P2|by rewrite lookup_insert_eq|by apply Forall_drop|lia|rewrite Hlen; change (MAXFILE * 1024) with 274432; lia| |done|].
  { cbn [freeblock]. rewrite Hlen. replace (n + length q + length (drop (Z.to_nat n1) P))%nat with (n + length P)%nat by lia.
    change (freeblock _) with fb'. lia. }
  intros img2 fb2 f2 H1 H2 H3 H4 H5. rewrite insert_insert_eq in H1. change (freeblock _) with fb' in H5.
  specialize (HQ img2 fb2 f2 H1). destruct din, s as [im fi fb0]. apply HQ.
  - intros b Hb. rewrite H2 by done. by apply P3.
  - by rewrite H3, P4, <- app_assoc, <- HP.
  - congruence.
  - cbn [freeblock] in *. rewrite Hlen in H5. lia.
Qed.

(** ** Inodes *)

Record disk (s : mkst) (F : gmap Z frec) : Prop := {
  dk_contents : contents (m_img s) (freeblock s) F;
  dk_inodes : inodes (m_img s) (freeinode s) F
}.

Lemma iblock_eq i : 0 ≤ i < NINODES → IBLOCK i sb = i / 16 + 32 ∧ 32 ≤ IBLOCK i sb < 45 ∧ 0 ≤ slot i ∧ slot i + 64 ≤ 1024.
Proof.
  unfold NINODES, IBLOCK, slot, IPB, DINODESIZE, BSIZE. intros H. change (1024 / 64) with 16. change (sb_inodestart sb) with 32.
  rewrite u32_small by zlia. split_and!; zlia.
Qed.

Lemma iblock_other i j : 0 ≤ i < NINODES → 0 ≤ j < NINODES → i ≠ j → IBLOCK i sb = IBLOCK j sb → slot j + 64 ≤ slot i ∨ slot i + 64 ≤ slot j.
Proof.
  intros Hi Hj Hne. destruct (iblock_eq i Hi) as (-> & _). destruct (iblock_eq j Hj) as (-> & _).
  unfold slot, IPB, DINODESIZE, BSIZE. change (1024 / 64) with 16. intros E. zlia.
Qed.

Lemma contents_meta img fb F b d : contents img fb F → b < nmeta → block_ok d → contents (<[b := d]> img) fb F.
Proof.
  intros [Hd Hb Ha Hf Hfb] Hlt Hok. split; try done.
  - intros x Hx. destruct (decide (x = b)) as [->|Hne]; [rewrite lookup_insert_eq; by eexists|]. rewrite lookup_insert_ne by done. by apply Hd.
  - intros i f Hi. destruct (Hb i f Hi) as (H1 & H2 & H3). split_and!; [|done|done]. eapply body_frame; [|exact H1]. intros x Hx.
    rewrite Forall_forall in H3. specialize (H3 x Hx). rewrite lookup_insert_ne; [done|lia].
  - intros x Hx. rewrite lookup_insert_ne by lia. by apply Hf.
Qed.

Lemma frec_fits img fb F i f : contents img fb F → F !! i = Some f → 0 < f_type f < 2 ^ 15 → fits (dinode_of f).
Proof.
  intros Hct Hi Ht. destruct (st_facts img fb F i f Hct Hi) as ([B1 B2 B3 B4 B5] & Hnd & Ho & Hfb). rewrite nmeta_eq in *. unfold FSSIZE in *.
  change (MAXFILE * BSIZE) with 274432 in B2. split; cbn [dinode_of d_type d_major d_minor d_nlink d_size d_addrs].
  - repeat constructor; lia.
  - lia.
  - split; [apply length_addrs|]. unfold addrs_of. apply Forall_app. split.
    + apply Forall_take, Forall_app. split; [|apply Forall_replicate; lia]. apply Forall_forall. intros b Hb.
      assert (b ∈ owned f) as Hbo by (unfold owned; apply elem_of_app; by left). specialize (Ho b Hbo). lia.
    + apply Forall_singleton. destruct (decide (f_ind f = 0)) as [->|Hne]; [lia|]. assert (f_ind f ∈ owned f) as Hbo.
      { unfold owned. replace (f_ind f =? 0) with false by lia. apply elem_of_app. right. by left. }
      specialize (Ho _ Hbo). lia.
Qed.

(** The inode of [f] is written; the other inodes are those of [F]. *)
Lemma wp_winode s F i f fi (Q : unit → mkst → Prop) : contents (m_img s) (freeblock s) (<[i := f]> F) → inodes (m_img s) fi (delete i F) →
  1 ≤ i < fi → 0 < f_type f < 2 ^ 15 → fi ≤ NINODES →
  (∀ img', contents img' (freeblock s) (<[i := f]> F) → inodes img' fi (<[i := f]> F) →
     (∀ b, b < 32 ∨ 45 ≤ b → img' !! b = m_img s !! b) → Q tt (s <| m_img := img' |>)) →
  wp (winode i (dinode_of f)) s Q.
Proof.
  intros Hct [I1 I2 I3] Hir Ht Hfi HQ. destruct (iblock_eq i) as (_ & Hib & Hs1 & Hs2); [lia|]. unfold winode. wp_simpl.
  destruct (ct_dom _ _ _ Hct (IBLOCK i sb)) as (d & Hd & [Hdl Hdb]); [unfold FSSIZE; lia|]. eapply wp_rsect; [exact Hd|]. fold (slot i). unfold wsect. wp_simpl.
  pose proof (frec_fits _ _ _ i f Hct (lookup_insert_eq _ _ _) Ht) as Hfit. pose proof (length_dinode _ (proj1 (ft_addrs _ Hfit))) as Hlen.
  unfold BSIZE in Hdl. change (Z.to_nat 1024) with 1024%nat in Hdl.
  assert (block_ok (put_bytes (slot i) (dinode_bytes (dinode_of f)) d)) as Hok.
  { split; [rewrite length_put_bytes; [done|done|lia]|]. unfold put_bytes. apply Forall_app. split; [by apply Forall_take|].
    apply Forall_app. split; [|by apply Forall_drop]. unfold dinode_bytes. repeat (apply Forall_app; split; [apply le_bytes_range|]).
    apply Forall_forall. intros b (x & Hx & _)%list_elem_of_bind. pose proof (le_bytes_range 4 x) as Hr. rewrite Forall_forall in Hr. by apply Hr. }
  destruct s as [im fi0 fb0]. apply (HQ (<[IBLOCK i sb := put_bytes (slot i) (dinode_bytes (dinode_of f)) d]> im)).
  - apply contents_meta; [done|rewrite nmeta_eq; lia|done].
  - cbn [m_img] in *. split; [| |lia].
    + intros j g. rewrite lookup_insert_Some. intros [[<- <-]|[Hne Hj]]; [done|]. apply I1. by rewrite lookup_delete_ne.
    + intros j g. rewrite lookup_insert_Some. intros [[<- <-]|[Hne Hj]].
      * rewrite lookup_insert_eq. eexists. split; [done|]. apply dinode_put; [done|lia|lia].
      * destruct (I2 j g) as (d' & Hd' & Hdi); [by rewrite lookup_delete_ne|]. destruct (I1 j g) as [Hjr _]; [by rewrite lookup_delete_ne|].
        destruct (decide (IBLOCK i sb = IBLOCK j sb)) as [E|E].
        -- rewrite <- E, lookup_insert_eq. eexists. split; [done|]. assert (d' = d) as -> by congruence. rewrite <- Hdi.
           destruct (iblock_eq j) as (_ & _ & Hj1 & _); [lia|].
           apply dinode_put_other; [apply (ft_addrs _ Hfit)|lia|lia|done|]. apply (iblock_other i j); lia.
        -- rewrite lookup_insert_ne by done. by exists d'.
  - intros b Hb. cbn [m_img]. rewrite lookup_insert_ne; [done|]. lia.
Qed.

(** The blocks before the inodes, and the bitmap. *)
Definition same_meta (s s' : mkst) : Prop := ∀ b, b < 32 ∨ b = 45 → m_img s' !! b = m_img s !! b.

Lemma wp_rinode s F i f Q : disk s F → F !! i = Some f → Q (dinode_of f) s → wp (rinode i) s Q.
Proof.
  intros [_ [_ I2 _]] Hi HQ. destruct (I2 i f Hi) as (d & Hd & Hdi). unfold rinode. wp_simpl. eapply wp_rsect; [exact Hd|]. wp_simpl.
  fold (slot i). by rewrite Hdi.
Qed.

Lemma inodes_frame img img' fi F : (∀ b, 32 ≤ b < 45 → img' !! b = img !! b) → inodes img fi F → inodes img' fi F.
Proof.
  intros Hm [I1 I2 I3]. split; [done| |done]. intros i f Hi. destruct (I2 i f Hi) as (d & Hd & Hdi). exists d. split; [|done].
  destruct (I1 i f Hi) as [Hr _]. destruct (iblock_eq i) as (_ & Hib & _); [lia|]. rewrite Hm; [done|]. lia.
Qed.

Lemma inodes_delete img fi F i : inodes img fi F → inodes img fi (delete i F).
Proof. intros [I1 I2 I3]. split; [| |done]; intros j f [_ Hj]%lookup_delete_Some; [by apply I1|by apply I2]. Qed.

Lemma wp_iappend s F i f p (Q : unit → mkst → Prop) : disk s F → F !! i = Some f → Forall (fun b => 0 ≤ b < 256) p →
  Z.of_nat (length (f_data f) + length p) ≤ MAXFILE * BSIZE →
  freeblock s + cost (length (f_data f) + length p) - cost (length (f_data f)) ≤ FSSIZE →
  (∀ s' f', disk s' (<[i := f']> F) → f_data f' = f_data f ++ p → f_type f' = f_type f → same_meta s s' → freeinode s' = freeinode s →
     freeblock s' = freeblock s + cost (length (f_data f')) - cost (length (f_data f)) → Q tt s') →
  wp (iappend i p) s Q.
Proof.
  intros [Hct Hin] Hi Hp Hmax Hroom HQ. pose proof (in_range _ _ _ Hin i f Hi) as [Hir Ht]. pose proof (in_max _ _ _ Hin) as Hfi.
  unfold iappend. wp_simpl. eapply wp_rinode; [by split|exact Hi|]. wp_simpl. cbn [dinode_of d_size].
  destruct (st_facts _ _ _ i f Hct Hi) as ([_ B2 _ _ _] & _). change (MAXFILE * BSIZE) with 274432 in *. rewrite xint_small by lia.
  eapply (wp_iappend_loop i _ F p f s (dinode_of f)); [done|done|done|lia|done|done|done|]. intros img' fb' f' H1 H2 H3 H4 H5. wp_simpl.
  assert (length (f_data f') = (length (f_data f) + length p)%nat) as Hl by (rewrite H3; apply length_app). rewrite xint_small by lia.
  assert ((dinode_of f) <| d_addrs := addrs_of f' |> <| d_size := Z.of_nat (length (f_data f')) |> = dinode_of f') as -> by (unfold dinode_of; rewrite H4; done).
  eapply (wp_winode _ F i f' (freeinode s)); [exact H1| |done|by rewrite H4|lia|].
  { apply inodes_delete. eapply inodes_frame; [|exact Hin]. intros b Hb. apply H2. rewrite nmeta_eq. lia. }
  intros img2 Hc2 Hi2 Hm2. eapply HQ; [by split|done|done| |done|done]. intros b Hb. cbn [m_img].
  change (img2 !! b = m_img s !! b). rewrite Hm2 by lia. apply H2. rewrite nmeta_eq. lia.
Qed.

(** An empty file. *)
Definition fresh (type : Z) : frec := Frec type [] [] 0.

Lemma wp_ialloc s F type (Q : Z → mkst → Prop) : disk s F → 0 < type < 2 ^ 15 → freeinode s < NINODES → F !! freeinode s = None →
  (∀ s', disk s' (<[freeinode s := fresh type]> F) → same_meta s s' → freeinode s' = freeinode s + 1 → freeblock s' = freeblock s → Q (freeinode s) s') →
  wp (ialloc type) s Q.
Proof.
  intros [Hct Hin] Ht Hfi HF HQ. pose proof (in_max _ _ _ Hin) as Hmax. unfold NINODES in *. unfold ialloc. wp_simpl. rewrite u32_small by lia.
  rewrite (xshort_small type), (xshort_small 1), xint_small by lia. change (Dinode type 0 0 1 0 (replicate 13 0)) with (dinode_of (fresh type)).
  eapply (wp_winode _ F (freeinode s) (fresh type) (freeinode s + 1)); [|rewrite delete_id by done|lia|done|unfold NINODES; lia|].
  - destruct Hct as [Hd Hb Ha Hf Hfb]. split; try done.
    + intros i f. rewrite lookup_insert_Some. intros [[<- <-]|[_ Hi]]; [|by apply (Hb i f)]. split_and!; [|constructor|constructor].
      by split.
    + intros i j f g b. rewrite !lookup_insert_Some. intros [[<- <-]|[_ Hi]] [[<- <-]|[_ Hj]] Hne; [done|by intros ?%elem_of_nil|by intros _ ?%elem_of_nil|by apply (Ha i j f g)].
  - destruct Hin as [I1 I2 I3]. split; [|done|unfold NINODES; lia]. intros i f Hi. destruct (I1 i f Hi). split; [lia|done].
  - intros img' H1 H2 H3. wp_simpl. apply HQ; [by split| |done|done]. intros b Hb. change (img' !! b = m_img s !! b). rewrite H3 by lia. done.
Qed.

(** ** Files *)

Definition bytes_ok (p : list Z) : Prop := Forall (fun b => 0 ≤ b < 256) p.

Lemma wp_add_pieces i pieces : ∀ s F f (Q : unit → mkst → Prop), disk s F → F !! i = Some f → bytes_ok (concat pieces) →
  Z.of_nat (length (f_data f) + length (concat pieces)) ≤ MAXFILE * BSIZE →
  freeblock s + cost (length (f_data f) + length (concat pieces)) - cost (length (f_data f)) ≤ FSSIZE →
  (∀ s' f', disk s' (<[i := f']> F) → f_data f' = f_data f ++ concat pieces → f_type f' = f_type f → same_meta s s' → freeinode s' = freeinode s →
     freeblock s' = freeblock s + cost (length (f_data f')) - cost (length (f_data f)) → Q tt s') →
  wp (add_pieces i pieces) s Q.
Proof.
  induction pieces as [|p pieces IH]; intros s F f Q Hd Hi Hb Hmax Hroom HQ; cbn [add_pieces concat] in *.
  { wp_simpl. apply (HQ s f); [by rewrite insert_id|by rewrite app_nil_r|done|done|done|lia]. }
  rewrite length_app in Hmax, Hroom. apply Forall_app in Hb as [Hb1 Hb2]. wp_simpl.
  assert (cost (length (f_data f) + length p) ≤ cost (length (f_data f) + (length p + length (concat pieces)))) as Hm by (apply cost_mono; lia).
  eapply (wp_iappend s F i f p); [done|done|done|lia|lia|]. intros s1 f1 D1 E1 T1 M1 N1 B1.
  assert (length (f_data f1) = (length (f_data f) + length p)%nat) as Hl by (rewrite E1; apply length_app). rewrite Hl in B1.
  eapply (IH s1 _ f1); [exact D1|by rewrite lookup_insert_eq|done|lia| |].
  { rewrite Hl, B1. replace (length (f_data f) + length p + length (concat pieces))%nat with (length (f_data f) + (length p + length (concat pieces)))%nat by lia. lia. }
  intros s2 f2 D2 E2 T2 M2 N2 B2. rewrite insert_insert_eq in D2. apply (HQ s2 f2); [done|by rewrite E2, E1, app_assoc|congruence| |congruence|].
  - intros b Hb'. rewrite M2, M1 by done. done.
  - rewrite B2, B1, Hl. lia.
Qed.

(** A file given to mkfs: its name in the image and its content. *)
Definition file : Type := list Z * list (list Z).
Definition content (x : file) : list Z := concat x.2.
Definition argument (x : list Z * option (list (list Z))) (y : file) : Prop :=
  x.2 = Some y.2 ∧ y.1 = skip_underscore (shortname x.1) ∧ 47 ∉ shortname x.1 ∧ bytes_ok x.1.

(** The directory entries, from inode [fi] on. *)
Fixpoint entries (fi : Z) (files : list file) : list Z :=
  match files with
  | [] => []
  | x :: files => dirent fi x.1 ++ entries (fi + 1) files
  end.

Definition need (files : list file) : Z := foldr (fun x n => cost (length (content x)) + n) 0 files.

Lemma cost_pos n : 0 ≤ cost n.
Proof. unfold cost. case_match; lia. Qed.

Lemma need_pos files : 0 ≤ need files.
Proof. induction files as [|x files IH]; [done|]. cbn [need foldr]. pose proof (cost_pos (length (content x))). unfold need in IH. lia. Qed.

Lemma length_dirent i name : length (dirent i name) = 16%nat.
Proof. unfold dirent. rewrite length_app, length_le_bytes, length_take, length_app, length_replicate. lia. Qed.

Lemma dirent_bytes i name : bytes_ok name → bytes_ok (dirent i name).
Proof. intros H. apply Forall_app. split; [apply le_bytes_range|]. apply Forall_take, Forall_app. split; [done|]. apply Forall_replicate. lia. Qed.

Lemma length_entries files : ∀ fi, length (entries fi files) = (16 * length files)%nat.
Proof. induction files as [|x files IH]; intros fi; [done|]. cbn [entries length]. rewrite length_app, length_dirent, IH. lia. Qed.

Lemma name_bytes x y : argument x y → bytes_ok y.1.
Proof.
  intros (_ & -> & _ & H). assert (bytes_ok (shortname x.1)) as Hs by (unfold shortname; case_decide; [by apply Forall_drop|done]).
  unfold skip_underscore. destruct (shortname x.1) as [|c l]; [done|]. apply Forall_cons in Hs as [H1 H2]. repeat case_match; try done; by constructor.
Qed.

(** The files are there: the root directory lists them, and their inodes follow
    each other. *)
Record added (fi : Z) (files : list file) (s : mkst) (F : gmap Z frec) (root : frec) (s' : mkst) (F' : gmap Z frec) (root' : frec) : Prop := {
  ad_disk : disk s' F';
  ad_root : F' !! ROOTINO = Some root' ∧ f_data root' = f_data root ++ entries fi files ∧ f_type root' = f_type root;
  ad_files : ∀ k x, files !! k = Some x → ∃ f, F' !! (fi + Z.of_nat k) = Some f ∧ f_data f = content x ∧ f_type f = T_FILE;
  ad_old : ∀ i, i < fi → i ≠ ROOTINO → F' !! i = F !! i;
  ad_meta : same_meta s s';
  ad_fi : freeinode s' = fi + Z.of_nat (length files);
  ad_fb : freeblock s' = freeblock s + need files + cost (length (f_data root')) - cost (length (f_data root))
}.

Lemma wp_add_files args files : Forall2 argument args files → ∀ s F root fi (Q : unit → mkst → Prop),
  disk s F → F !! ROOTINO = Some root → freeinode s = fi → ROOTINO < fi → (∀ i, fi ≤ i → F !! i = None) → fi + Z.of_nat (length files) ≤ NINODES →
  (∀ x, x ∈ files → bytes_ok (content x) ∧ Z.of_nat (length (content x)) ≤ MAXFILE * BSIZE) →
  Z.of_nat (length (f_data root) + 16 * length files) ≤ MAXFILE * BSIZE →
  freeblock s + need files + cost (length (f_data root) + 16 * length files) - cost (length (f_data root)) ≤ FSSIZE →
  (∀ s' F' root', added fi files s F root s' F' root' → Q tt s') →
  wp (add_files ROOTINO args) s Q.
Proof.
  induction 1 as [|[arg pcs] x args files Harg Hargs IH]; intros s F root fi Q Hd Hroot Hfi Hfi1 HF Hmax Hcont Hrmax Hroom HQ; cbn [add_files].
  { wp_simpl. apply (HQ s F root). split; try done; [by rewrite app_nil_r|cbn; lia|cbn; lia]. }
  pose proof (name_bytes _ _ Harg) as Hnb. destruct Harg as (Hp & Hname & Hsl & _). cbn [fst snd] in *. subst pcs.
  rewrite bool_decide_false by done. wp_simpl. rewrite <- Hname. cbn [length need foldr] in *. fold (need files) in *.
  destruct (Hcont x) as [Hcb Hcm]; [by left|]. pose proof (need_pos files) as Hnp. unfold NINODES in *. unfold ROOTINO in *.
  eapply (wp_ialloc s F T_FILE); [done|done|unfold NINODES; lia|apply HF; lia|]. intros s1 D1 M1 N1 B1. rewrite Hfi in *. wp_simpl.
  set (F1 := <[fi := fresh T_FILE]> F) in *. assert (F1 !! 1 = Some root) as Hr1 by (unfold F1; rewrite lookup_insert_ne by lia; done).
  assert (cost (length (f_data root) + 16) ≤ cost (length (f_data root) + 16 * S (length files))) as Hm1 by (apply cost_mono; lia).
  assert (cost (length (f_data root)) ≤ cost (length (f_data root) + 16)) as Hm2 by (apply cost_mono; lia).
  pose proof (cost_pos (length (content x))) as Hcp.
  eapply (wp_iappend s1 F1 1 root (dirent fi x.1)); [done|done|by apply dirent_bytes|rewrite length_dirent; lia|rewrite length_dirent; lia|].
  intros s2 root2 D2 E2 T2 M2 N2 B2. wp_simpl.
  assert (length (f_data root2) = (length (f_data root) + 16)%nat) as Hl2 by (rewrite E2, length_app, length_dirent; done). rewrite Hl2 in B2.
  eapply (wp_add_pieces fi x.2 s2 (<[1 := root2]> F1) (fresh T_FILE)); [done|unfold F1; rewrite lookup_insert_ne, lookup_insert_eq by lia; done|done|exact Hcm| |].
  { cbn [fresh f_data length]. change (cost 0) with 0. fold (content x). cbn [Nat.add]. lia. }
  intros s3 f3 D3 E3 T3 M3 N3 B3. cbn [fresh f_data app] in E3. fold (content x) in E3. cbn [fresh f_data length] in B3. change (cost 0) with 0 in B3. rewrite E3 in B3.
  set (F3 := <[fi := f3]> (<[1 := root2]> F1)) in *. assert (F3 !! 1 = Some root2) as Hr3 by (unfold F3; rewrite lookup_insert_ne, lookup_insert_eq by lia; done).
  eapply (IH s3 F3 root2 (fi + 1)); [done|done|lia|lia| |lia|intros y Hy; apply Hcont; by right|rewrite Hl2; lia| |].
  { intros i Hge. unfold F3, F1. rewrite !lookup_insert_ne by lia. apply HF. lia. }
  { rewrite Hl2. replace (length (f_data root) + 16 + 16 * length files)%nat with (length (f_data root) + 16 * S (length files))%nat by lia. lia. }
  intros s4 F4 root4 [A1 (A2 & A3 & A4) A5 A6 A7 A8 A9]. apply (HQ s4 F4 root4). split; try done.
  - split_and!; [done| |congruence]. rewrite A3, E2. cbn [entries]. by rewrite app_assoc.
  - intros k y Hk. destruct k as [|k]; cbn in Hk.
    + injection Hk as <-. exists f3. rewrite Z.add_0_r. split_and!; [|done|done]. rewrite A6 by (unfold ROOTINO; lia). unfold F3. by rewrite lookup_insert_eq.
    + destruct (A5 k y Hk) as (f & Hf & ?). exists f. split; [|done]. rewrite <- Hf. f_equal. lia.
  - intros i Hi Hi1. unfold ROOTINO in *. rewrite A6 by lia. unfold F3, F1. rewrite !lookup_insert_ne by lia. done.
  - intros b Hb. rewrite A7, M3, M2, M1 by done. done.
  - cbn [length]. lia.
  - rewrite Hl2 in A9. cbn [need foldr]. fold (need files). lia.
Qed.
