(* ===== verification/MkfsImage.v ===== *)
(** * The image for a list of files

    What [mkfs] leaves on the image: the superblock, an empty log, the inodes
    and contents of the root directory and the files, and the bitmap. *)

From Stdlib Require Import ZArith Lia.
From stdpp Require Import base gmap strings numbers list.
From S2P Require Import Prelude Mem FsState Fs BioFacts LogFacts FsAlloc Mkfs MkfsFacts MkfsOps.
Local Open Scope xv6_scope.

(** ** The bitmap *)

Lemma set_bit_put buf i : block_ok buf → Z.of_nat i < 8192 → set_bit buf i = put_bit (Z.of_nat i) true buf.
Proof.
  intros Hok Hi. pose proof Hok as [Hl Hb]. unfold BSIZE in Hl. change (Z.to_nat 1024) with 1024%nat in Hl.
  assert (Z.of_nat i / 8 = Z.of_nat (i / 8)) as E1 by (by rewrite Nat2Z.inj_div). assert (Z.of_nat i mod 8 = Z.of_nat (i mod 8)) as E2 by (by rewrite Nat2Z.inj_mod).
  unfold set_bit, put_bit. rewrite E1, E2. assert (i / 8 < 1024)%nat as Hi8 by (pose proof (Nat.div_mod_eq i 8); lia).
  generalize dependent (i / 8)%nat. intros k E1 Hk.
  destruct (lookup_lt_is_Some_2 buf k) as [v Hv]; [lia|].
  pose proof (get_at_1 (Z.of_nat k) buf ltac:(lia)) as Hg. rewrite Nat2Z.id, Hv in Hg. apply (inj Some) in Hg.
  unfold put_at, put_bytes. rewrite Nat2Z.id. change (Z.to_nat 1) with 1%nat. cbn [le_bytes length app]. rewrite Hg.
  apply list_eq. intros j. destruct (decide (j = k)) as [->|Hne].
  - rewrite list_lookup_alter_eq, Hv. cbn [fmap option_fmap option_map]. rewrite lookup_app_r by (rewrite length_take; lia). rewrite length_take, Nat.min_l by lia. rewrite Nat.sub_diag. done.
  - rewrite list_lookup_alter_ne by done. destruct (decide (j < k)%nat).
    + rewrite lookup_app_l by (rewrite length_take; lia). by rewrite lookup_take_lt.
    + rewrite lookup_app_r by (rewrite length_take; lia). rewrite length_take, Nat.min_l by lia.
      rewrite lookup_cons_ne_0, lookup_drop by lia. f_equal. lia.
Qed.

Lemma zeroes_ok : block_ok zeroes.
Proof. split; [done|]. apply Forall_replicate. lia. Qed.

Lemma bitmap_bits n : Z.of_nat n < 8192 →
  block_ok (foldl set_bit zeroes (seq 0 n)) ∧ ∀ b, 0 ≤ b < BPB → bit_at (foldl set_bit zeroes (seq 0 n)) b = (b <? Z.of_nat n).
Proof.
  induction n as [|n IH]; intros Hn.
  - split; [exact zeroes_ok|]. intros b Hb. unfold BPB, BSIZE in Hb. cbn [seq foldl]. unfold bit_at.
    pose proof (get_at_1 (b / 8) zeroes ltac:(change (length zeroes) with 1024%nat; zlia)) as Hg. unfold zeroes at 2 in Hg.
    rewrite lookup_replicate_2 in Hg by (unfold BSIZE; zlia). injection Hg as ->. rewrite Z.bits_0. symmetry. apply Z.ltb_ge. lia.
  - destruct (IH ltac:(lia)) as [Hok Hbits]. rewrite seq_S, foldl_app. cbn [foldl Nat.add]. rewrite set_bit_put by (done || lia).
    assert (0 ≤ Z.of_nat n < BPB) as Hr by (unfold BPB, BSIZE; lia). split; [by apply put_bit_ok|]. intros b Hb. rewrite bit_put by done. case_decide as E.
    + symmetry. apply Z.ltb_lt. lia.
    + rewrite Hbits by done. destruct (Z.ltb_spec b (Z.of_nat n)), (Z.ltb_spec b (Z.of_nat (S n))); lia.
Qed.

(** ** The start and the end *)

Lemma wp_zero_all n : ∀ a s (Q : unit → mkst → Prop),
  (∀ img', (∀ b, img' !! b = if decide (Z.of_nat a ≤ b < Z.of_nat (a + n)) then Some zeroes else m_img s !! b) → Q tt (s <| m_img := img' |>)) →
  wp (for_each (seq a n) (fun i => wsect (Z.of_nat i) zeroes)) s Q.
Proof.
  induction n as [|n IH]; intros a s Q HQ; cbn [seq for_each]; wp_simpl.
  - destruct s. apply (HQ m_img). intros b. rewrite decide_False by lia. done.
  - unfold wsect at 1. wp_simpl. apply IH. intros img' Hi. destruct s as [im fi fb]. apply HQ. intros b. rewrite Hi. cbn [m_img] in *.
    change (m_img ((Mkst im fi fb) <| m_img ::= <[Z.of_nat a := zeroes]> |>)) with (<[Z.of_nat a := zeroes]> im).
    destruct (decide (b = Z.of_nat a)) as [->|Hne].
    + rewrite lookup_insert_eq, (decide_True (P := Z.of_nat a ≤ Z.of_nat a < Z.of_nat (a + S n))) by lia. by case_decide.
    + rewrite lookup_insert_ne by done. repeat case_decide; try done; lia.
Qed.

(** Zeros at the end do not change the blocks of a file. *)
Definition pad (data : list Z) : list Z := data ++ replicate (1024 - length data mod 1024) 0.

Lemma chunk_pad k data : (length data mod 1024 ≠ 0)%nat → (k ≤ length data / 1024)%nat → chunk k (pad data) = chunk k data.
Proof.
  intros Hm Hk. pose proof (Nat.div_mod_eq (length data) 1024). pose proof (Nat.mod_upper_bound (length data) 1024 ltac:(lia)).
  unfold chunk, pad. rewrite drop_app_le by lia. rewrite <- app_assoc. set (r := drop (1024 * k) data).
  destruct (decide (1024 ≤ length r)%nat); [by rewrite !take_app_le|]. assert (length r = length data mod 1024)%nat as Hr.
  { unfold r in *. rewrite length_drop in *. assert (k = length data / 1024)%nat by lia. lia. }
  rewrite (take_app_ge r (replicate _ _ ++ zeroes)), (take_app_ge r zeroes) by lia. f_equal. rewrite Hr. unfold zeroes. rewrite take_app_ge, length_replicate, Nat.sub_diag by (rewrite length_replicate; lia).
  rewrite firstn_O, app_nil_r, take_replicate. f_equal. unfold BSIZE. lia.
Qed.

Lemma pad_length data : (length data mod 1024 ≠ 0)%nat →
  Z.of_nat (length (pad data)) = (Z.of_nat (length data) / 1024 + 1) * 1024 ∧ nblk (length (pad data)) = nblk (length data).
Proof.
  intros Hm. pose proof (Nat.div_mod_eq (length data) 1024). pose proof (Nat.mod_upper_bound (length data) 1024 ltac:(lia)).
  unfold pad. rewrite length_app, length_replicate. split.
  - change 1024 with (Z.of_nat 1024) at 1. rewrite <- Nat2Z.inj_div. lia.
  - apply nblk_more; [done|lia].
Qed.

Lemma contents_pad img fb F i f : contents img fb F → F !! i = Some f → (length (f_data f) mod 1024 ≠ 0)%nat →
  contents img fb (<[i := Frec (f_type f) (pad (f_data f)) (f_blocks f) (f_ind f)]> F).
Proof.
  intros [Hd Hb Ha Hf Hfb] Hi Hm. destruct (Hb i f Hi) as ([B1 B2 B3 B4 B5] & H2 & H3). destruct (pad_length (f_data f) Hm) as [Hl Hn].
  pose proof (Nat.div_mod_eq (length (f_data f)) 1024). pose proof (Nat.mod_upper_bound (length (f_data f)) 1024 ltac:(lia)).
  change (MAXFILE * BSIZE) with 274432 in *. split; try done.
  - intros j g. rewrite lookup_insert_Some. intros [[<- <-]|[_ Hj]]; [|by apply (Hb j g)]. split_and!; [|done|done].
    split; cbn [f_data f_blocks f_ind]; [by rewrite Hn| | |done|].
    + change (MAXFILE * BSIZE) with 274432. rewrite Hl. pose proof (Nat2Z.inj_div (length (f_data f)) 1024) as E. change (Z.of_nat 1024) with 1024 in E. lia.
    + unfold pad. apply Forall_app. split; [done|]. apply Forall_replicate. lia.
    + intros k b Hk. rewrite chunk_pad; [by apply B5|done|]. apply lookup_lt_Some in Hk. rewrite B1 in Hk.
      destruct (nblk_more (length (f_data f)) 1 Hm) as [E _]; [lia|]. lia.
  - intros j1 j2 g1 g2 b. rewrite !lookup_insert_Some. intros [[<- <-]|[_ H4]] [[<- <-]|[_ H5]] Hne;
      [done|by apply (Ha i j2 f g2)|by apply (Ha j1 i g1 f)|by apply (Ha j1 j2 g1 g2)].
Qed.

(** The data of the root directory. *)
Definition root_data (files : list file) : list Z := dirent ROOTINO [46] ++ dirent ROOTINO [46; 46] ++ entries 2 files.

Lemma length_root files : length (root_data files) = (16 * (2 + length files))%nat.
Proof. unfold root_data. rewrite !length_app, !length_dirent, length_entries. lia. Qed.

(** A finished image. *)
Record image (img : gmap Z (list Z)) (files : list file) (fb : Z) (F : gmap Z frec) : Prop := {
  im_super : ∃ d, img !! 1 = Some d ∧ read_superblock d = sb;
  im_log : img !! 2 = Some zeroes;
  im_contents : contents img fb F;
  im_inodes : inodes img (2 + Z.of_nat (length files)) F;
  im_root : ∃ f, F !! ROOTINO = Some f ∧ f_type f = T_DIR ∧ f_data f = pad (root_data files);
  im_files : ∀ k x, files !! k = Some x → ∃ f, F !! (2 + Z.of_nat k) = Some f ∧ f_type f = T_FILE ∧ f_data f = content x;
  im_bitmap : ∃ d, img !! sb_bmapstart sb = Some d ∧ ∀ b, 0 ≤ b < BPB → bit_at d b = (b <? fb)
}.

(** What fits on the image. *)
Record fits_image (files : list file) : Prop := {
  fx_count : 2 + Z.of_nat (length files) ≤ NINODES;
  fx_files : ∀ x, x ∈ files → bytes_ok (content x) ∧ Z.of_nat (length (content x)) ≤ MAXFILE * BSIZE;
  fx_root : (length (root_data files) mod 1024 ≠ 0)%nat;
  fx_room : nmeta + need files + cost (length (root_data files)) ≤ FSSIZE
}.

(** An image with nothing on it. *)
Lemma wp_blank s0 k (Q : unit → mkst → Prop) :
  (∀ s, disk s ∅ → freeinode s = 1 → freeblock s = nmeta → (∃ d, m_img s !! 1 = Some d ∧ read_superblock d = sb) → m_img s !! 2 = Some zeroes → wp k s Q) →
  wp (modify (fun _ => Mkst ∅ 1 nmeta);;
      for_each (seq 0 (Z.to_nat FSSIZE)) (fun i => wsect (Z.of_nat i) zeroes);;
      wsect 1 (put_bytes 0 (sb_bytes sb) zeroes);; k) s0 Q.
Proof.
  intros HQ. wp_simpl. apply wp_zero_all. intros img' Hi. unfold wsect. wp_simpl. rewrite Nat.add_0_l, Z2Nat.id in Hi by (unfold FSSIZE; lia).
  assert (∀ b, b < FSSIZE → 0 ≤ b → img' !! b = Some zeroes) as Hz by (intros b H1 H2; rewrite Hi, decide_True by lia; done).
  assert (block_ok (put_bytes 0 (sb_bytes sb) zeroes)) as Hsb.
  { split; [done|]. apply (bool_decide_unpack _). vm_compute. exact I. }
  apply HQ; try done.
  - split; [|by split]. apply (contents_meta img' nmeta); [|done|done]. split; try done; [|intros b Hb; apply Hz; rewrite nmeta_eq in *; lia].
    intros b Hb. exists zeroes. split; [apply Hz; lia|exact zeroes_ok].
  - exists (put_bytes 0 (sb_bytes sb) zeroes). split; [cbn; by rewrite lookup_insert_eq|]. vm_compute. reflexivity.
  - cbn. rewrite lookup_insert_ne by done. by apply Hz.
Qed.

Lemma wp_balloc s used (Q : unit → mkst → Prop) : 0 ≤ used < 8192 →
  (∀ d, block_ok d → (∀ b, 0 ≤ b < BPB → bit_at d b = (b <? used)) → Q tt (s <| m_img ::= <[sb_bmapstart sb := d]> |>)) → wp (balloc used) s Q.
Proof.
  intros Hu HQ. unfold balloc, wsect. replace (used <? BSIZE * 8) with true by (unfold BSIZE; lia). cbn [negb]. wp_simpl.
  destruct (bitmap_bits (Z.to_nat used)) as [H1 H2]; [lia|]. apply HQ; [done|]. intros b Hb. rewrite H2, Z2Nat.id by lia. done.
Qed.

(** The root directory with its first two entries. *)
Lemma wp_make_root s k (Q : unit → mkst → Prop) : disk s ∅ → freeinode s = 1 → freeblock s = nmeta →
  (∀ s' root, disk s' {[ROOTINO := root]} → f_data root = dirent ROOTINO [46] ++ dirent ROOTINO [46; 46] → f_type root = T_DIR →
     same_meta s s' → freeinode s' = 2 → freeblock s' = nmeta + cost 32 → wp (k ROOTINO) s' Q) →
  wp (rootino ← ialloc T_DIR;
      when (negb (rootino =? ROOTINO)) (panic "assert");;
      iappend rootino (dirent rootino [46]);;
      iappend rootino (dirent rootino [46; 46]);;
      k rootino) s Q.
Proof.
  intros Hd Hfi Hfb HQ. wp_simpl. eapply (wp_ialloc s ∅ T_DIR); [done|done|rewrite Hfi; done|done|]. intros s1 D1 M1 N1 B1.
  rewrite Hfi in *. change (1 =? ROOTINO) with true. cbn [negb]. wp_simpl. rewrite nmeta_eq in *.
  eapply (wp_iappend s1 _ 1 (fresh T_DIR)); [exact D1|by rewrite lookup_insert_eq|apply dirent_bytes; repeat constructor; lia| | |].
  { rewrite length_dirent. done. } { rewrite length_dirent, B1, Hfb. done. }
  intros s2 r2 D2 E2 T2 M2 N2 B2. rewrite insert_insert_eq in D2. cbn [fresh f_data app] in E2.
  assert (length (f_data r2) = 16%nat) as L2 by (rewrite E2; apply length_dirent). rewrite L2, B1, Hfb in B2. wp_simpl.
  eapply (wp_iappend s2 _ 1 r2); [exact D2|by rewrite lookup_insert_eq|apply dirent_bytes; repeat constructor; lia| | |].
  { rewrite length_dirent, L2. done. } { rewrite length_dirent, L2, B2. done. }
  intros s3 r3 D3 E3 T3 M3 N3 B3. rewrite insert_insert_eq in D3.
  assert (length (f_data r3) = 32%nat) as L3 by (rewrite E3, length_app, L2, length_dirent; done). rewrite L3, L2, B2 in B3.
  apply (HQ s3 r3); [exact D3|by rewrite E3, E2|by rewrite T3, T2| |lia|].
  - intros b Hb. rewrite M3, M2, M1 by done. done.
  - rewrite B3. done.
Qed.

Lemma wp_mkfs args files s : Forall2 argument args files → fits_image files →
  wp (mkfs args) s (fun _ s' => ∃ F, image (m_img s') files (freeblock s') F).
Proof.
  intros Hargs [Hcount Hfiles Hroot Hroom]. pose proof (length_root files) as Hlr.
  unfold mkfs. apply wp_blank. intros s1 D1 N1 B1 Hsb Hlog. apply wp_make_root; [done|done|done|]. intros s2 root D2 E2 T2 M2 N2 B2. wp_simpl.
  assert (length (f_data root) = 32%nat) as L2 by (rewrite E2, length_app, !length_dirent; done). unfold NINODES in *.
  assert (length (root_data files) = (32 + 16 * length files)%nat) as Hlr' by lia. change (MAXFILE * BSIZE) with 274432 in *.
  eapply (wp_add_files args files Hargs s2 _ root 2); [exact D2|apply lookup_singleton_eq|done|done| |unfold NINODES; lia|done|change (MAXFILE * BSIZE) with 274432; lia| |].
  { intros i Hi. apply lookup_singleton_ne. unfold ROOTINO. lia. }
  { rewrite L2, B2, <- Hlr'. lia. }
  intros s3 F3 root3 [A1 (A2 & A3 & A4) A5 A6 A7 A8 A9].
  assert (f_data root3 = root_data files) as Hrd by (rewrite A3, E2, <- app_assoc; done).
  wp_simpl. eapply wp_rinode; [exact A1|exact A2|]. wp_simpl. cbn [dinode_of d_size]. rewrite Hrd. rewrite (xint_small (Z.of_nat (length (root_data files)))) by lia.
  destruct (pad_length (root_data files) Hroot) as [Hpl Hpn]. assert (Z.of_nat (length (pad (root_data files))) < 2 ^ 32) as Hps by (rewrite Hpl; zlia).
  set (root4 := Frec (f_type root3) (pad (f_data root3)) (f_blocks root3) (f_ind root3)).
  assert ((dinode_of root3) <| d_size := xint (u32 ((Z.of_nat (length (root_data files)) / BSIZE + 1) * BSIZE)) |> = dinode_of root4) as ->.
  { unfold dinode_of, root4. rewrite Hrd. change BSIZE with 1024. rewrite <- Hpl, u32_small, xint_small by lia. done. }
  destruct A1 as [Hct Hin]. assert (contents (m_img s3) (freeblock s3) (<[ROOTINO := root4]> F3)) as Hct4.
  { apply contents_pad; [done|done|by rewrite Hrd]. }
  eapply (wp_winode s3 F3 ROOTINO root4 (freeinode s3)); [exact Hct4|by apply inodes_delete|rewrite A8; unfold ROOTINO; lia|by cbn; rewrite A4, T2|rewrite A8; unfold NINODES; lia|].
  intros img4 Hc4 Hi4 Hm4. wp_simpl. pose proof (ct_fb _ _ _ Hc4) as Hfb. rewrite nmeta_eq in Hfb. unfold FSSIZE in Hfb.
  change (freeblock (s3 <| m_img := img4 |>)) with (freeblock s3). apply wp_balloc; [lia|]. intros d Hd Hbits.
  assert (∀ b, b < 32 → img4 !! b = m_img s1 !! b) as Hlow by (intros b Hb; rewrite Hm4 by lia; rewrite A7, M2 by lia; done).
  exists (<[ROOTINO := root4]> F3). set (img5 := <[sb_bmapstart sb := d]> img4).
  assert (∀ b, b ≠ 45 → img5 !! b = img4 !! b) as H5 by (intros b Hb; unfold img5; rewrite lookup_insert_ne; [done|]; change (sb_bmapstart sb) with 45; lia).
  split; cbn [m_img freeblock].
  - destruct Hsb as (dsb & Hsb & Hrs). exists dsb. split; [|done]. change (img5 !! 1 = Some dsb). rewrite H5, Hlow by lia. done.
  - change (img5 !! 2 = Some zeroes). rewrite H5, Hlow by lia. done.
  - apply contents_meta; [exact Hc4|done|done].
  - rewrite <- A8. eapply inodes_frame; [|exact Hi4]. intros b Hb. apply H5. lia.
  - exists root4. split_and!; [apply lookup_insert_eq|cbn; congruence|cbn; by rewrite Hrd].
  - intros k x Hk. destruct (A5 k x Hk) as (f & Hf & ? & ?). exists f. split_and!; [|done|done]. rewrite lookup_insert_ne; [done|]. unfold ROOTINO. lia.
  - exists d. split; [apply lookup_insert_eq|done].
Qed.

(** ** Theorems *)

(** C20. The image that mkfs builds for files that fit: the superblock describes
    the layout, the log is empty, the root directory lists [.], [..] and the
    files under their names, every file has an inode and blocks of its own that
    hold its content, whatever pieces the reads returned, and the bitmap marks
    exactly the blocks in use. *)
Theorem mkfs_correct args files s :
  Forall2 argument args files → fits_image files →
  wp (mkfs args) s (fun _ s' => ∃ F, image (m_img s') files (freeblock s') F).
Proof. apply wp_mkfs. Qed.

Definition sample_args : list (list Z * option (list (list Z))) := [(user_dir ++ [95; 99; 97; 116], Some [[1; 2]; [3]]); ([82], Some [])].
Definition sample_files : list file := [([99; 97; 116], [[1; 2]; [3]]); ([82], [])].

Lemma sample_arguments : Forall2 argument sample_args sample_files.
Proof. repeat constructor; cbn; try done; try lia; apply (bool_decide_unpack _); vm_compute; exact I. Qed.

Lemma sample_fits : fits_image sample_files.
Proof.
  split; [done| |done|vm_compute; done].
  intros x Hx. repeat (apply elem_of_cons in Hx as [->|Hx]); [..|by apply elem_of_nil in Hx]; (split; [|done]); repeat constructor; lia.
Qed.

Lemma mkfs_correct_witness : wp (mkfs sample_args) (Mkst ∅ 0 0) (fun _ s' => ∃ F, image (m_img s') sample_files (freeblock s') F).
Proof. apply (mkfs_correct sample_args sample_files); [apply sample_arguments|apply sample_fits]. Defined.
