(* ===== verification/MkfsKernel.v ===== *)
(** * The kernel on an image of mkfs

    On a disk with an image that [mkfs] made, looking up the name of a file ends
    at its inode, and the inode describes a file with the content that was
    given: the premises of the theorems on [namei] and [readi] hold. *)

From Stdlib Require Import ZArith Lia.
From stdpp Require Import base gmap strings numbers list.
From S2P Require Import Prelude Spinlock Mem Kstring Proc FsState Sleeplock FsFacts Sample Virtio Bio BioFacts BioOps Log LogFacts VirtioFacts Storage Fs FsRead Itable FsDir FsPath FsAlloc Mkfs MkfsFacts MkfsOps MkfsImage.
Local Open Scope xv6_scope.

(** The store holds the image, and its blocks can be read. *)
Definition booted (a : bstore) (img : gmap Z (list Z)) : Prop :=
  (∀ b, 0 ≤ b < FSSIZE → bs_mem a !! b = img !! b) ∧ ∀ b, 0 < b < FSSIZE → readable 1 a b.

(** ** Inodes and contents *)

Lemma load_frec d i f : dinode_at (slot i) d = dinode_of f → 0 < f_type f < 2 ^ 15 →
  load_dinode d (blank i) = Inode ROOTDEV i 0 (Sleeplock 0 "inode" 0) 0 (f_type f) 0 0 1 (Z.of_nat (length (f_data f))) (addrs_of f).
Proof.
  intros H Ht. unfold load_dinode. cbn [blank i_dev i_inum i_ref i_lock i_valid]. fold (slot i).
  unfold dinode_at, dinode_of in H. injection H as H1 H2 H3 H4 H5 H6. rewrite H1, H2, H3, H4, H5, H6.
  f_equal; try done. unfold i16. change (2 ^ 15) with 32768 in *. change (2 ^ 16) with 65536. zlia.
Qed.

Lemma chunk_lookup k j data : (j < 1024)%nat → (1024 * k + j < length data)%nat → data !! (1024 * k + j)%nat = chunk k data !! j.
Proof.
  intros Hj Hk. unfold chunk. rewrite lookup_take_lt by done. rewrite lookup_app_l by (rewrite length_drop; lia). by rewrite lookup_drop.
Qed.

Section kernel.
Context (a : bstore) (img : gmap Z (list Z)) (fb : Z) (fi : Z) (F : gmap Z frec).
Hypothesis Hboot : booted a img.
Hypothesis Hct : contents img fb F.
Hypothesis Hin : inodes img fi F.

Lemma owned_readable i f b : F !! i = Some f → b ∈ owned f → readable 1 a b ∧ bs_mem a !! b = img !! b ∧ b ≠ 0.
Proof.
  intros Hi Hb. destruct (st_facts img fb F i f Hct Hi) as (_ & _ & Ho & Hfb). specialize (Ho b Hb). rewrite nmeta_eq in *.
  destruct Hboot as [H1 H2]. split_and!; [apply H2; lia|apply H1; lia|lia].
Qed.

Lemma block_of_frec i f k b d : F !! i = Some f → f_blocks f !! k = Some b → dinode_at (slot i) d = dinode_of f → 0 < f_type f < 2 ^ 15 →
  block_of a (load_dinode d (blank i)) (Z.of_nat k) b.
Proof.
  intros Hi Hk Hd Ht. destruct (st_facts img fb F i f Hct Hi) as ([B1 B2 B3 B4 B5] & _).
  assert (b ∈ owned f) as Hbo by (by eapply elem_blocks). destruct (owned_readable i f b Hi Hbo) as (_ & _ & Hb0).
  assert (length (f_blocks f) ≤ 268)%nat as Hmax.
  { rewrite B1. change (MAXFILE * BSIZE) with 274432 in B2. unfold nblk. pose proof (Nat.div_mod_eq (length (f_data f) + 1023) 1024). lia. }
  pose proof (lookup_lt_Some _ _ _ Hk) as Hlt. assert (nth k (f_blocks f) 0 = b) as Hnth by (rewrite nth_lookup, Hk; done).
  rewrite (load_frec d i f Hd Ht). split; [done|]. cbn [i_addrs]. change MAXFILE with 268; change NDIRECT with 12.
  destruct (decide (k < 12)%nat) as [Hk12|Hk12]; [left|right]; (split; [lia|]).
  - rewrite Nat2Z.id. destruct (lookup_lt_is_Some_2 (addrs_of f) k) as [x Hx]; [rewrite length_addrs; lia|]. rewrite Hx. f_equal.
    pose proof (nth_addrs f k Hk12) as E. rewrite nth_lookup, Hx in E. cbn in E. congruence.
  - replace (12 <? length (f_blocks f))%nat with true in B4 by (symmetry; apply Nat.ltb_lt; lia). destruct B4 as (Hi0 & ds & Hds & Hent).
    assert (f_ind f ∈ owned f) as Hio by (unfold owned; replace (f_ind f =? 0) with false by lia; apply elem_of_app; right; by left).
    destruct (owned_readable i f _ Hi Hio) as (R1 & R2 & _). exists (f_ind f), ds. split_and!; [|done|done|by rewrite R2|].
    + change (Z.to_nat 12) with 12%nat. pose proof (nth_addrs_ind f) as E. destruct (lookup_lt_is_Some_2 (addrs_of f) 12) as [x Hx]; [rewrite length_addrs; lia|].
      rewrite nth_lookup, Hx in E. cbn in E. rewrite Hx. congruence.
    + replace (4 * (Z.of_nat k - 12)) with (4 * Z.of_nat (k - 12)) by lia. rewrite Hent by lia. by replace (12 + (k - 12))%nat with k by lia.
Qed.

(** The inode of a file on the image. *)
Lemma frec_file_is i f : F !! i = Some f → ∃ d, disk_inode a sb i d ∧ i_type (load_dinode d (blank i)) = f_type f ∧
  file_is a (load_dinode d (blank i)) (f_data f).
Proof.
  intros Hi. destruct (in_range _ _ _ Hin i f Hi) as [Hr Ht]. pose proof (in_max _ _ _ Hin). destruct (in_slot _ _ _ Hin i f Hi) as (d & Hd & Hdi).
  destruct (iblock_eq i) as (_ & Hib & _); [lia|]. destruct (st_facts img fb F i f Hct Hi) as ([B1 B2 B3 B4 B5] & _). pose proof Hboot as [Hb1 Hb2].
  pose proof (load_frec d i f Hdi Ht) as Hl. exists d. split_and!.
  - split; [apply Hb2; unfold FSSIZE; lia|rewrite Hb1 by (unfold FSSIZE; lia); done|rewrite Hl; cbn; lia|rewrite Hl; done].
  - by rewrite Hl.
  - split; [by rewrite Hl|by rewrite Hl|done|]. intros k Hk Hlt. change BSIZE with 1024 in *.
    assert (Z.to_nat k < length (f_blocks f))%nat as Hkb.
    { rewrite B1. unfold nblk. pose proof (Nat.div_mod_eq (length (f_data f) + 1023) 1024). pose proof (Nat.mod_upper_bound (length (f_data f) + 1023) 1024 ltac:(lia)). lia. }
    destruct (lookup_lt_is_Some_2 _ _ Hkb) as [b Hb]. destruct (owned_readable i f b Hi) as (R1 & R2 & _); [by eapply elem_blocks|].
    exists b, (chunk (Z.to_nat k) (f_data f)). split_and!; [|done|rewrite R2; by apply B5|].
    + rewrite <- (Z2Nat.id k) by done. by eapply block_of_frec.
    + intros j Hj Hkj. replace (Z.to_nat (k * 1024 + j)) with (1024 * Z.to_nat k + Z.to_nat j)%nat by lia. apply chunk_lookup; lia.
Qed.
End kernel.

(** ** The root directory *)

(** The entries of the root directory. *)
Definition listing (files : list file) : list (Z * list Z) :=
  (ROOTINO, [46]) :: (ROOTINO, [46; 46]) :: imap (fun k x => (2 + Z.of_nat k, x.1)) files.

(** The names that a lookup can tell apart. *)
Definition names (files : list file) : list (list Z) := [46] :: [46; 46] :: ((fun x : file => take 14 x.1) <$> files).

Record named (files : list file) : Prop := {
  nm_distinct : NoDup (names files);
  nm_plain : ∀ x, x ∈ files → path_ok x.1 ∧ SLASH ∉ x.1 ∧ x.1 ≠ []
}.

Definition entry_bytes (e : Z * list Z) : list Z := dirent e.1 e.2.

Lemma entries_concat files : ∀ fi, entries fi files = concat (entry_bytes <$> imap (fun k x => (fi + Z.of_nat k, x.1)) files).
Proof.
  induction files as [|x files IH]; intros fi; cbn [entries imap fmap list_fmap concat]; [done|]. unfold entry_bytes at 1. cbn [fst snd]. f_equal.
  - f_equal. lia.
  - rewrite IH. do 2 f_equal. apply imap_ext. intros k y _. cbn. f_equal. lia.
Qed.

Lemma root_concat files : root_data files = concat (entry_bytes <$> listing files).
Proof. unfold root_data, listing. rewrite entries_concat. done. Qed.

Lemma length_listing files : length (listing files) = (2 + length files)%nat.
Proof. unfold listing. cbn [length]. by rewrite length_imap. Qed.

Lemma dirent_concat L rest k e : L !! k = Some e → dirent_at (concat (entry_bytes <$> L) ++ rest) k = entry_bytes e.
Proof.
  revert k. induction L as [|x L IH]; intros k Hk; [done|]. unfold dirent_at, slice in *. cbn [fmap list_fmap concat]. rewrite <- app_assoc.
  change (Z.to_nat 16) with 16%nat in *. destruct k as [|k]; cbn [lookup list_lookup] in Hk.
  - simplify_eq. change (Z.to_nat (16 * Z.of_nat 0)) with 0%nat. rewrite drop_0. rewrite <- (length_dirent e.1 e.2). by rewrite take_app_length.
  - rewrite drop_app_ge by (unfold entry_bytes; rewrite length_dirent; lia). rewrite <- (IH k Hk). do 2 f_equal.
    unfold entry_bytes. rewrite length_dirent. lia.
Qed.

Lemma entry_inum i nm : 0 ≤ i < 2 ^ 16 → de_inum (dirent i nm) = i.
Proof. intros Hi. unfold de_inum, dirent. rewrite xshort_small by done. by apply (get_word _ 0 2). Qed.

Lemma dname_take nm : path_ok nm → dname (take 14 nm) = take 14 nm.
Proof. intros H. unfold dname. rewrite cstr_plain by (by apply Forall_take). by rewrite take_take. Qed.

Lemma entry_name i nm : path_ok nm → dname (de_name (dirent i nm)) = take 14 nm.
Proof.
  intros H. unfold de_name, dirent. rewrite drop_app_length' by done. unfold dname.
  destruct (decide (14 ≤ length nm)%nat) as [Hl|Hl].
  - rewrite take_app_le by done. rewrite cstr_plain by (by apply Forall_take). by rewrite take_take.
  - rewrite take_app_ge by lia. destruct (14 - length nm)%nat as [|m] eqn:E; [lia|].
    rewrite take_replicate. replace (S m `min` 14)%nat with (S m) by lia. cbn [replicate]. by rewrite cstr_stop.
Qed.

Section root.
Context (files : list file).
Hypothesis Hn : named files.
Hypothesis Hfew : 2 + Z.of_nat (length files) ≤ NINODES.

Lemma listing_at k e : listing files !! k = Some e → 0 < e.1 < 2 ^ 16 ∧ path_ok e.2 ∧ names files !! k = Some (take 14 e.2).
Proof.
  unfold NINODES in Hfew. unfold listing, names. destruct k as [|[|k]]; cbn [lookup list_lookup fmap list_fmap]; intros H.
  - simplify_eq. split_and!; [done|done|by repeat constructor|done].
  - simplify_eq. split_and!; [done|done|by repeat constructor|done].
  - change (imap (fun k x => (2 + Z.of_nat k, x.1)) files !! k = Some e) in H. rewrite list_lookup_imap in H. apply fmap_Some in H as (x & Hk & ->). cbn [fst snd].
    assert (k < length files)%nat by (by eapply lookup_lt_Some). apply list_elem_of_lookup_2 in Hk as Hx. change (2 ^ 16) with 65536. cbn [fst snd]. split_and!; [lia|lia|by apply (nm_plain _ Hn)|].
    change (((λ y : file, take 14 y.1) <$> files) !! k = Some (take 14 x.1)). rewrite list_lookup_fmap. apply fmap_Some. by exists x.
Qed.

Lemma root_entry k e : listing files !! k = Some e →
  de_inum (dirent_at (pad (root_data files)) k) = e.1 ∧ dname (de_name (dirent_at (pad (root_data files)) k)) = take 14 e.2.
Proof.
  intros Hk. destruct (listing_at k e Hk) as (Hi & Hp & _). unfold pad. rewrite root_concat. rewrite (dirent_concat _ _ k e Hk).
  unfold entry_bytes. split; [apply entry_inum; lia|by apply entry_name].
Qed.

(** The name of the file [k] is found at its entry. *)
Lemma root_lookup k x : files !! k = Some x →
  dir_lookup (take 14 x.1) (pad (root_data files)) = Some (2 + Z.of_nat k, 16 * Z.of_nat (2 + k)).
Proof.
  intros Hk. set (D := pad (root_data files)). assert (k < length files)%nat as Hlt by (by eapply lookup_lt_Some).
  assert (listing files !! (2 + k)%nat = Some (2 + Z.of_nat k, x.1)) as HL by (change (imap (fun k x => (2 + Z.of_nat k, x.1)) files !! k = Some (2 + Z.of_nat k, x.1)); rewrite list_lookup_imap; apply fmap_Some; by exists x).
  assert (path_ok x.1) as Hp by (apply (nm_plain _ Hn); by eapply list_elem_of_lookup_2).
  destruct (root_entry _ _ HL) as [E1 E2]. cbn [fst snd] in E1, E2. fold D in E1, E2.
  assert (dir_hit (take 14 x.1) D (2 + k)) as Hhit by (split; [rewrite E1; lia|by rewrite dname_take, E2]).
  assert (2 + k < length D / 16)%nat as Hin.
  { apply Nat.lt_le_trans with (2 + length files)%nat; [lia|]. apply Nat.div_le_lower_bound; [done|]. unfold D, pad.
    rewrite length_app, length_root. lia. }
  pose proof (dir_lookup_spec (take 14 x.1) D) as Hs. destruct (dir_lookup _ D) as [[inum off]|].
  - destruct Hs as (k0 & Hk0 & -> & [_ Hname] & -> & Hmin). assert (k0 = 2 + k)%nat as ->; [|by rewrite E1].
    destruct (decide (2 + k < k0)%nat) as [Hc|Hc]; [by destruct (Hmin _ Hc)|].
    destruct (lookup_lt_is_Some_2 (listing files) k0) as [e He]; [rewrite length_listing; lia|].
    destruct (root_entry k0 e He) as [_ F2]. fold D in F2. rewrite dname_take, F2 in Hname by done.
    destruct (listing_at _ _ HL) as (_ & _ & N1). destruct (listing_at _ _ He) as (_ & _ & N2). rewrite <- Hname in N2.
    by apply (NoDup_lookup (names files) k0 (2 + k) _ (nm_distinct _ Hn) N2).
  - by destruct (Hs _ Hin).
Qed.
End root.

Lemma split_plain nm : SLASH ∉ nm → ∀ cur, split_path cur nm = flush (cur ++ nm).
Proof.
  induction nm as [|c nm IH]; intros H cur; cbn [split_path]; [by rewrite app_nil_r|]. apply not_elem_of_cons in H as [Hc H].
  replace (c =? SLASH) with false by (symmetry; apply Z.eqb_neq; congruence). rewrite IH by done. by rewrite <- app_assoc.
Qed.

(** The only element of an absolute name. *)
Lemma path_elems_root nm : SLASH ∉ nm → nm ≠ [] → path_elems (SLASH :: nm) = [take 14 nm].
Proof.
  intros H Hne. unfold path_elems. cbn [split_path]. rewrite Z.eqb_refl. cbn [flush app]. rewrite split_plain by done. by destruct nm.
Qed.

(** ** A file is found by its name *)

(** The disk reads of a lookup in the root directory. *)
Definition root_reads (files : list file) : nat := S (2 * (length (pad (root_data files)) / 16)).

Lemma pad_whole data : (length (pad data) mod 1024 = 0)%nat.
Proof.
  unfold pad. rewrite length_app, length_replicate. pose proof (Nat.mod_upper_bound (length data) 1024 ltac:(lia)).
  pose proof (Nat.div_mod_eq (length data) 1024) as E. rewrite E at 1.
  replace (1024 * (length data / 1024) + length data mod 1024 + (1024 - length data mod 1024))%nat with ((length data / 1024 + 1) * 1024)%nat by lia.
  apply Nat.Div0.mod_mul.
Qed.

Section found.
Context (a : bstore) (img : gmap Z (list Z)) (files : list file) (fb : Z) (F : gmap Z frec).
Hypothesis Hboot : booted a img.
Hypothesis Him : image img files fb F.
Hypothesis Hn : named files.

(** The root directory, as the kernel reads it. *)
Lemma root_dir : ∃ d, disk_inode a sb ROOTINO d ∧ dir_is a (load_dinode d (blank ROOTINO)) (pad (root_data files)).
Proof.
  destruct (im_root _ _ _ _ Him) as (f & Hf & Ht & Hd).
  destruct (frec_file_is a img fb _ F Hboot (im_contents _ _ _ _ Him) (im_inodes _ _ _ _ Him) ROOTINO f Hf) as (d & H1 & H2 & H3).
  rewrite Hd in H3. exists d. split; [done|]. split; [done|by rewrite H2| |].
  - pose proof (pad_whole (root_data files)) as E. apply Nat.Div0.mod_divides in E as [q ->]. rewrite (Nat.mul_comm 1024 q).
    replace (q * 1024)%nat with (q * 64 * 16)%nat by lia. apply Nat.Div0.mod_mul.
  - rewrite <- Hd. by destruct (st_facts img fb F ROOTINO f (im_contents _ _ _ _ Him) Hf) as ([_ _ ? _ _] & _).
Qed.

Lemma file_found k x : files !! k = Some x →
  walk a sb ROOTINO (path_elems (SLASH :: x.1)) (Some (2 + Z.of_nat k)) (root_reads files) ∧
  ∃ d, disk_inode a sb (2 + Z.of_nat k) d ∧ i_type (load_dinode d (blank (2 + Z.of_nat k))) = T_FILE ∧
    file_is a (load_dinode d (blank (2 + Z.of_nat k))) (content x).
Proof.
  intros Hk. assert (x ∈ files) as Hx by (by eapply list_elem_of_lookup_2). destruct (nm_plain _ Hn x Hx) as (Hp & Hs & Hne).
  pose proof (in_max _ _ _ (im_inodes _ _ _ _ Him)) as Hmax. split.
  - rewrite path_elems_root by done. destruct root_dir as (d & H1 & H2). unfold root_reads. rewrite <- (Nat.add_0_r (2 * _)).
    eapply walk_next; [done|done|apply (root_lookup files Hn); [lia|done]|apply walk_done].
  - destruct (im_files _ _ _ _ Him k x Hk) as (f & Hf & Ht & Hd).
    destruct (frec_file_is a img fb _ F Hboot (im_contents _ _ _ _ Him) (im_inodes _ _ _ _ Him) _ f Hf) as (d & H1 & H2 & H3).
    exists d. rewrite <- Hd, <- Ht. done.
Qed.
End found.

Section kernel_lookup.
Context `{KI : KernelImage} `{DO : DiskOps} `{DL : !DiskLaws}.

(** The kernel, with the superblock of mkfs and the store [a], looks up the
    absolute name of a file. *)
Definition finds (a : bstore) (reads : nat) (name : list Z) (inum : Z) : Prop :=
  ∀ i c R s e, spare R → fs_sb (ks_fs s) = sb → at_it i (reads + c) (World s e) a R None →
    wp (namei (SLASH :: name)) (World s e) (fun r w' => ∃ j, r = Some j ∧ at_it i c w' a (take_ref inum R) None ∧ holds_inode w' j inum).

Lemma walk_finds a reads name inum : path_ok name → walk a sb ROOTINO (path_elems (SLASH :: name)) (Some inum) reads → finds a reads name inum.
Proof.
  intros Hp Hw i c R s e Hsp Hsb Hat. eapply wp_mono.
  - apply (wp_namei i c a sb R (SLASH :: name) (Some inum) reads s e); try done. constructor; [unfold SLASH; lia|done].
  - by intros r w' [_ H].
Qed.

(** C9. The kernel finds the files that mkfs put on the image.  On a disk with the
    image, [namei] on the absolute name of any file returns the inode of that
    file, with one reference, and that inode is a file whose content is exactly
    the bytes given to mkfs. *)
Theorem mkfs_files_found args files s0 :
  Forall2 argument args files → fits_image files → named files →
  wp (mkfs args) s0 (fun _ s' => ∀ a k x, booted a (m_img s') → files !! k = Some x →
    finds a (root_reads files) x.1 (2 + Z.of_nat k) ∧
    ∃ d, disk_inode a sb (2 + Z.of_nat k) d ∧ i_type (load_dinode d (blank (2 + Z.of_nat k))) = T_FILE ∧
      file_is a (load_dinode d (blank (2 + Z.of_nat k))) (content x)).
Proof.
  intros Ha Hf Hn. eapply wp_mono; [by apply wp_mkfs|]. cbn beta. intros _ s' (F & Him) a k x Hb Hk.
  destruct (file_found a _ files _ F Hb Him Hn k x Hk) as [Hw Hd]. split; [|done].
  apply walk_finds; [|done]. apply (nm_plain _ Hn). by eapply list_elem_of_lookup_2.
Qed.
End kernel_lookup.

#[local] Existing Instance small_image.

(** A disk with the image, none of whose blocks is cached. *)
Definition fresh_disk (img : gmap Z (list Z)) : bstore := Bstore img img ∅ ∅.

Lemma fresh_booted img fb F : contents img fb F → booted (fresh_disk img) img.
Proof.
  intros Hct. split; [done|]. intros b Hb. destruct (ct_dom _ _ _ Hct b) as (d & Hd & _); [lia|]. unfold FSSIZE in Hb.
  split; cbn [fresh_disk bs_disk bs_locked bs_refs]; [lia|by exists d|set_solver|right; rewrite map_size_empty; change NBUF with 30%nat; lia|].
  unfold refs. cbn. rewrite lookup_empty. cbn. lia.
Qed.

Lemma sample_named : named sample_files.
Proof.
  split; [apply (bool_decide_unpack _); vm_compute; exact I|].
  intros x Hx. repeat (apply elem_of_cons in Hx as [->|Hx]); [..|by apply elem_of_nil in Hx];
    (split; [repeat constructor; cbn; lia|]); (split; [|done]); apply (bool_decide_unpack _); vm_compute; exact I.
Qed.

Lemma mkfs_files_found_witness : wp (mkfs sample_args) (Mkst ∅ 0 0) (fun _ s' =>
  finds (fresh_disk (m_img s')) 129 [99; 97; 116] 2 ∧ ∃ d, file_is (fresh_disk (m_img s')) (load_dinode d (blank 2)) [1; 2; 3]).
Proof.
  eapply wp_mono; [apply wp_conj; [apply (wp_mkfs sample_args); [apply sample_arguments|apply sample_fits]|]|].
  - apply (mkfs_files_found sample_args sample_files); [apply sample_arguments|apply sample_fits|apply sample_named].
  - cbn beta. intros _ s' [(F & Him) H]. pose proof (fresh_booted _ _ F (im_contents _ _ _ _ Him)) as Hb.
    destruct (H _ 0%nat _ Hb eq_refl) as [H1 (d & _ & _ & H2)]. split; [exact H1|by exists d].
Defined.
